(* ===== verification/_CoqProject ===== *)
-Q . S2P
Prelude.v
PageAlloc.v
Buddy.v
BuddyTree.v
BuddyProofs.v
BuddySpec.v
BuddyProps.v
Strings.v
Grep.v
Sh.v
ShGrammar.v
ShLex.v
ShProofs.v
ShProps.v
ShRun.v
Printf.v
Tools.v
Umalloc.v
Virtio.v
VirtioProofs.v
VirtioProps.v
Bytes.v
BufCache.v
Bio.v
BioProofs.v
Log.v
LogProofs.v
LogSpec.v
Journal.v
LogJournal.v
LogTxn.v
UserMem.v
Fs.v
FsBlocks.v
FsMap.v
FsFile.v
FsWrite.v
FsInode.v
FsState.v
FsOps.v
FsTrunc.v
FsTable.v
FsDir.v
FsPath.v
FsProps.v
FsSafe.v
FsRest.v
File.v
FileProofs.v
FileOps.v
Sysfile.v
SysfileProofs.v
LogBio.v
Ring.v
Pipe.v
PipeProofs.v
Spinlock.v
SpinlockProofs.v
Console.v
ConsoleProofs.v
Vm.v
VmTables.v
VmProofs.v
VmSpace.v
VmFree.v
VmCopy.v
VmUser.v
VmInst.v
FsRun.v
FileRun.v
Proc.v
Ps.v
Namespaces.v
ProcLogic.v
ProcEffects.v
ProcInv.v
ProcBoot.v
ProcProps.v
ProcCalls.v
ProcRun.v
