(* ===== verification/Prelude.v ===== *)
(** * A verification library for the xv6 kernel with a buddy allocator and
    process namespaces

    The program is a fork of xv6 for RISC-V: a kernel (src/kernel) that manages
    pages, address spaces, processes in nested namespaces, a journaled file
    system, pipes and a console, and user programs (src/user), of which the
    shell, grep, wc, the memory allocator, the string and output libraries and a
    random number generator are treated here.  Each C function is a function or
    a program of this library with the same name; the theorems say what the
    functions do on every branch and what holds in every state they can reach.

    ** How code is modelled

    A C integer is a [Z] with the conversions of the source written out ([u32],
    [i32], ...).  Code with state is a [prog S A]: a function from the state of
    its component to a result and a new state, or to a [Panic] of the kernel, a
    [Fault] (null pointer, index outside an array) or [Spin] (a loop, or a wait
    that nobody ends, that has used up its fuel).  A pointer into an array is an
    index.  A component that calls another one is written and verified against a
    class that states what the other promises, and the model of the other is an
    instance of it.

    ** Components

    - Pages.  [PageAlloc] is the interface of kalloc.c.  [Buddy] models
      buddy_alloc.c and kalloc.c; [BuddyTree] is the abstract state, a set of
      allocated tree nodes per block, [BuddyProofs] and [BuddySpec] relate it to
      every field and counter and give the contracts of [buddy_init],
      [buddy_alloc] and [buddy_free]; [BuddyProps] has the argument check and its
      defects, [mem_dump], and the instance of the interface.
    - Virtual memory.  [Vm] models vm.c over any page allocator; [VmTables] and
      [VmProofs] give page tables as trees with an invariant, [VmSpace] growing
      and copying of address spaces, [VmFree] that no page is lost, [VmCopy] the
      copies between kernel and user; [VmUser] makes vm.c an instance of
      [UserMem], the user memory of the file system, and [VmInst] runs it on a
      list of pages and on the buddy allocator.
    - Disk.  [Virtio] models virtio_disk.c; in [VirtioProofs] processes,
      interrupts and the device take steps in any order, and [VirtioProps] shows
      that requests are carried out, safely and without deadlock.
    - Buffer cache and log.  [BufCache] is the interface of bio.c, [Bio] and
      [BioProofs] its model and the proof.  [Log] models log.c over any cache;
      [LogProofs] and [LogSpec] show crash safety at every write and the space
      reservation of [begin_op]; [LogBio] puts the two together.  The classes of
      [Journal] are what the log promises to the file system, [LogJournal] and
      [LogTxn] the proofs that it does.
    - File system.  [Fs] models fs.c over any log and user memory, on the
      encodings of [Bytes].  [FsBlocks], [FsMap], [FsFile], [FsWrite], [FsInode],
      [FsState], [FsOps], [FsTrunc], [FsTable], [FsDir] and [FsPath] go from the
      bitmap to path names; [FsProps] has the theorems on single operations,
      [FsSafe] that every operation keeps the invariant, [FsRest] the file system
      between transactions, [FsRun] a disk on which everything runs together.
    - Open files and system calls.  [File] models file.c, [FileProofs] and
      [FileOps] its contracts; [Sysfile] models sysfile.c, the argument functions
      of syscall.c and [pipealloc], [SysfileProofs] the reference counts of open
      files; [FileRun] runs them.
    - Pipes, console, locks.  [Ring] has ring buffers with wrapping counters;
      [Pipe] and [PipeProofs] are for pipe.c, [Console] and [ConsoleProofs] for
      uart.c and console.c, [Spinlock] and [SpinlockProofs] for spinlock.c and
      sleeplock.c.
    - Processes.  [Proc] models proc.c and [Ps] the [ps_*] functions and the
      calls of sysproc.c.  [Namespaces] is the theory of the namespace forest,
      [ProcLogic] and [ProcEffects] say what each operation changes, [ProcInv]
      has the invariant and the steps, [ProcBoot] that [userinit] establishes
      it; [ProcProps] and [ProcCalls] have the theorems and [ProcRun] a run.
    - Strings and output.  [Strings] is for string.c and ulib.c, [Printf] for the
      two printf.c.
    - User programs.  [Sh] models sh.c; [ShGrammar] is the command language,
      [ShLex], [ShProofs] and [ShProps] show that the parser implements it, and
      [ShRun] which programs are started with which descriptors.  [Grep] is for
      grep.c, [Tools] for wc.c and the generator of grind.c, [Umalloc] for
      umalloc.c.

    ** What the theorems show

    Functional contracts with all error cases (the allocators, [uvmalloc],
    [uvmcopy], [copyin], [writei], [dirlink], [iput], [fileread], [filewrite],
    [fileclose], [exit], the parser); invariants of every reachable state
    (namespace counts and ids, pids and parents, reference counts of open
    files, log space, the file system); safety and progress under
    interleaving (spin-locks, pipes, console, disk driver); crash safety of
    commit and recovery; refinement of a specification (pipes as queues, the
    console as a line discipline, path names as walks, the shell's grammar,
    regular expressions); and the defects that were found, as theorems about the
    code ([ps_pt_self_panics], [ps_pt0_freed_faults], [checker_cnt_page_defects],
    [commit_full_panics], [malloc_overflows], ...).

    ** Fuel and bounds

    A loop with a fixed number of turns recurses on that number.  A loop without
    one takes fuel, and the theorems that say it returns either give the fuel
    that is enough (the parser, [malloc], [free], [namex] and the string
    loops, linear in the length of their input; [is_heir], whose chains have at
    most eight nodes; [checker_cnt_page], at most 32 turns) or are about the
    fuel that the definition itself supplies (the ten levels of a buddy tree, the
    three of a page table, the bytes left to copy or the length of a path).  Sleeping calls of pipes, console, disk
    and log are sequences of runs, one run for each time they are scheduled, in
    any order.

    ** Not modelled, and simplifications

    Assembly, traps, boot, the interrupt controller, exec and the remaining user
    programs are not modelled.  In the file system and the process table a lock
    is a flag and a run is one step, so races between CPUs within one call are
    outside the model of these two components; memory is sequentially
    consistent.  The process table is followed while [nextpid] is below 2^31 - 1.
    The theorems on writing a file leave out a copy from user memory that fails
    in the middle of a block.  The virtio device and the UART are parameters or
    steps with the behaviour their specifications document. *)

From Stdlib Require Export ZArith Lia.
From stdpp Require Export base numbers list gmap strings sets functions.

#[global] Open Scope Z_scope.
#[global] Set Default Goal Selector "!".

(** ** Machine integers

    A C integer of [w] bits is a [Z] in its range; every conversion that the
    source performs at a smaller width is written out with these functions. *)

Definition u8 (x : Z) : Z := x `mod` 2 ^ 8.
Definition u16 (x : Z) : Z := x `mod` 2 ^ 16.
Definition u32 (x : Z) : Z := x `mod` 2 ^ 32.
Definition u64 (x : Z) : Z := x `mod` 2 ^ 64.
Definition i32 (x : Z) : Z := (x + 2 ^ 31) `mod` 2 ^ 32 - 2 ^ 31.
Definition i16 (x : Z) : Z := (x + 2 ^ 15) `mod` 2 ^ 16 - 2 ^ 15.
Definition i8 (x : Z) : Z := (x + 2 ^ 7) `mod` 2 ^ 8 - 2 ^ 7.

Lemma u32_small x : 0 ≤ x < 2 ^ 32 → u32 x = x.
Proof. apply Z.mod_small. Qed.
Lemma u32_id x : 0 ≤ x < 2 ^ 31 → u32 x = x.
Proof. intros. apply Z.mod_small. lia. Qed.
Lemma u64_small x : 0 ≤ x < 2 ^ 64 → u64 x = x.
Proof. apply Z.mod_small. Qed.
Lemma i32_mod x : i32 x `mod` 2 ^ 32 = x `mod` 2 ^ 32.
Proof. unfold i32. rewrite Zminus_mod_idemp_l. f_equal. lia. Qed.
Lemma i32_cong x y : x `mod` 2 ^ 32 = y `mod` 2 ^ 32 → i32 x = i32 y.
Proof.
  intros H. unfold i32. f_equal.
  by rewrite <- (Zplus_mod_idemp_l x), <- (Zplus_mod_idemp_l y), H.
Qed.
Lemma i32_small x : - 2 ^ 31 ≤ x < 2 ^ 31 → i32 x = x.
Proof. intros H. unfold i32. rewrite Z.mod_small; lia. Qed.
Lemma i32_linear n a b : i32 (i32 n * a + b) = i32 (n * a + b).
Proof. apply i32_cong. by rewrite Zplus_mod, Zmult_mod, i32_mod, <- Zmult_mod, <- Zplus_mod. Qed.

(** A C truth value. *)
Definition b2z (b : bool) : Z := if b then 1 else 0.

(** ** Programs

    Kernel code is a function of the component's state.  [Panic] is a call of
    [panic], [Fault] an access through a null pointer or outside an array, and
    [Spin] a loop that has not finished within the fuel given to it. *)

Inductive res (A : Type) : Type :=
| Ok (a : A)
| Panic (msg : string)
| Fault
| Spin.
Arguments Ok {A} a.
Arguments Panic {A} msg.
Arguments Fault {A}.
Arguments Spin {A}.

Definition prog (S A : Type) : Type := S → res (A * S).

#[global] Instance prog_ret S : MRet (prog S) := λ A a s, Ok (a, s).
#[global] Instance prog_bind S : MBind (prog S) := λ A B f m s,
  match m s with
  | Ok (a, s') => f a s'
  | Panic msg => Panic msg
  | Fault => Fault
  | Spin => Spin
  end.

Definition get {S} : prog S S := λ s, Ok (s, s).
Definition gets {S A} (f : S → A) : prog S A := λ s, Ok (f s, s).
Definition put {S} (s' : S) : prog S unit := λ _, Ok (tt, s').
Definition modify {S} (f : S → S) : prog S unit := λ s, Ok (tt, f s).
Definition panic {S A} (msg : string) : prog S A := λ _, Panic msg.
Definition fault {S A} : prog S A := λ _, Fault.
Definition spin {S A} : prog S A := λ _, Spin.
Definition skip {S} : prog S unit := mret tt.
Definition when {S} (b : bool) (m : prog S unit) : prog S unit :=
  if b then m else skip.

(** [for (i = lo; i < lo + n; i++) body]. *)
Fixpoint for_up {S} (n : nat) (lo : Z) (body : Z → prog S unit) : prog S unit :=
  match n with
  | O => skip
  | S n' => body lo;; for_up n' (lo + 1) body
  end.

Lemma bind_Ok {S A B} (m : prog S A) (f : A → prog S B) s a s' :
  m s = Ok (a, s') → (m ≫= f) s = f a s'.
Proof. intros H. unfold mbind, prog_bind. by rewrite H. Qed.

Lemma bind_Panic {S A B} (m : prog S A) (f : A → prog S B) s msg :
  m s = Panic msg → (m ≫= f) s = Panic msg.
Proof. intros H. unfold mbind, prog_bind. by rewrite H. Qed.

Lemma bind_Fault {S A B} (m : prog S A) (f : A → prog S B) s :
  m s = Fault → (m ≫= f) s = Fault.
Proof. intros H. unfold mbind, prog_bind. by rewrite H. Qed.

Lemma bind_Spin {S A B} (m : prog S A) (f : A → prog S B) s :
  m s = Spin → (m ≫= f) s = Spin.
Proof. intros H. unfold mbind, prog_bind. by rewrite H. Qed.

Lemma bind_inv {S A B} (m : prog S A) (f : A → prog S B) s r :
  (m ≫= f) s = Ok r → ∃ a s', m s = Ok (a, s') ∧ f a s' = Ok r.
Proof.
  unfold mbind, prog_bind. destruct (m s) as [[a s']| | |]; naive_solver.
Qed.

Lemma bind_assoc' {S A B C} (m : prog S A) (f : A → prog S B) (g : B → prog S C) s :
  ((m ≫= f) ≫= g) s = (m ≫= λ a, f a ≫= g) s.
Proof. unfold mbind, prog_bind. by destruct (m s) as [[a s']| | |]. Qed.

(** [prog_step H] runs the first command of a program whose result is [H]. *)
Ltac prog_step H :=
  first [ erewrite bind_Ok by exact H
        | erewrite bind_Panic by exact H
        | erewrite bind_Fault by exact H ]; cbn beta.
(** The same when the first command is inside a sequence of its own. *)
Ltac prog_go H := rewrite ?bind_assoc'; prog_step H.
(** [prog_run] runs the administrative commands of a program. *)
Ltac prog_run :=
  repeat first
    [ progress cbn beta
    | rewrite (bind_Ok (mret _) _ _ _ _ eq_refl)
    | rewrite (bind_Ok get _ _ _ _ eq_refl)
    | rewrite (bind_Ok (gets _) _ _ _ _ eq_refl)
    | rewrite (bind_Ok (put _) _ _ _ _ eq_refl)
    | rewrite (bind_Ok (modify _) _ _ _ _ eq_refl)
    | rewrite (bind_Ok skip _ _ _ _ eq_refl) ].
(** Split the boolean comparison the goal branches on. *)
Ltac case_z :=
  match goal with
  | |- context [Z.eqb ?a ?b] => destruct (Z.eqb_spec a b)
  | |- context [Z.ltb ?a ?b] => destruct (Z.ltb_spec a b)
  | |- context [Z.leb ?a ?b] => destruct (Z.leb_spec a b)
  end.
(** Decide the closed conditions of the goal. *)
Ltac eval_ifs :=
  repeat match goal with
  | |- context [if Z.eqb ?a ?b then _ else _] =>
      first [ change (Z.eqb a b) with true | change (Z.eqb a b) with false ]; cbv iota
  end.
(** Positivity of powers of two. *)
Ltac pow_pos :=
  first [ lia | apply Z.pow_pos_nonneg; lia | apply Z.pow_nonzero; lia
        | apply Z.pow_nonneg; lia ].

(** ** Masks *)

(** Clearing the low [n] bits of a [w]-bit number. *)
Lemma land_clear_low a n w : 0 ≤ n ≤ w → 0 ≤ a < 2 ^ w →
  Z.land a (2 ^ w - 2 ^ n) = a `div` 2 ^ n * 2 ^ n.
Proof.
  intros Hn Ha.
  assert (2 ^ w - 2 ^ n = Z.shiftl (Z.ones (w - n)) n) as ->.
  { rewrite Z.shiftl_mul_pow2, Z.ones_equiv by lia. replace w with (w - n + n) at 1 by lia.
    rewrite Z.pow_add_r by lia. lia. }
  assert (Z.land a (Z.shiftl (Z.ones (w - n)) n) = Z.shiftl (Z.land (Z.shiftr a n) (Z.ones (w - n))) n) as ->.
  { apply Z.bits_inj'. intros i Hi. rewrite Z.land_spec.
    destruct (decide (i < n)).
    - by rewrite !Z.shiftl_spec_low, andb_false_r by lia.
    - rewrite !Z.shiftl_spec_high, Z.land_spec, Z.shiftr_spec by lia. f_equal. f_equal. lia. }
  rewrite Z.land_ones, Z.shiftr_div_pow2, Z.shiftl_mul_pow2 by lia. f_equal.
  apply Z.mod_small. split; [apply Z.div_pos; pow_pos|].
  apply Z.div_lt_upper_bound; [pow_pos|]. rewrite <- Z.pow_add_r by lia.
  replace (n + (w - n)) with w by lia. lia.
Qed.

(** ** Sets *)

Lemma elem_insert_self (U : gset Z) k : k ∈ {[k]} ∪ U.
Proof. set_solver. Qed.
Lemma elem_insert_ne (U : gset Z) k j : j ≠ k → j ∈ U ↔ j ∈ {[k]} ∪ U.
Proof. set_solver. Qed.
Lemma elem_remove_self (U : gset Z) k : k ∉ U ∖ {[k]}.
Proof. set_solver. Qed.
Lemma elem_remove_ne (U : gset Z) k j : j ≠ k → j ∈ U ↔ j ∈ U ∖ {[k]}.
Proof. set_solver. Qed.
Lemma elem_remove_sub (U : gset Z) k j : j ∈ U ∖ {[k]} → j ∈ U ∧ j ≠ k.
Proof. set_solver. Qed.
Lemma insert_remove (U : gset Z) k : k ∉ U → ({[k]} ∪ U) ∖ {[k]} = U.
Proof. set_solver. Qed.
#[export] Hint Resolve elem_insert_self elem_remove_self : core.
