(* ===== verification/PageAlloc.v ===== *)
(** * The interface of a page allocator

    What kernel/kalloc.c promises to its clients (page tables, pipes, process
    creation): [kalloc] returns either 0 or the address of a page that no
    client owns, [kfree] takes back a page that a client owns.  The buddy
    allocator implements it ([BuddyProps.buddy_pages]); the clients are
    verified against it. *)

From S2P Require Import Prelude.

Module PageAlloc.

Definition PGSIZE : Z := 4096.
Definition PHYSTOP : Z := 2281701376.

(** A page of physical memory. *)
Definition is_page (a : Z) : Prop :=
  a `mod` PGSIZE = 0 ∧ 0 < a ∧ a + PGSIZE ≤ PHYSTOP + 1.

Class PageAllocator (S : Type) := {
  pg_alloc : prog S Z;
  pg_free : Z → prog S unit;
  (** The clients own the pages [P]. *)
  pg_inv : S → gset Z → Prop;
  pg_alloc_ok s P : pg_inv s P → ∃ a s', pg_alloc s = Ok (a, s') ∧
    ((a = 0 ∧ pg_inv s' P) ∨ (is_page a ∧ a ∉ P ∧ pg_inv s' ({[a]} ∪ P)));
  pg_free_ok s P a : pg_inv s P → a ∈ P →
    ∃ s', pg_free a s = Ok (tt, s') ∧ pg_inv s' (P ∖ {[a]}) }.

Lemma is_page_nonzero a : is_page a → a ≠ 0.
Proof. unfold is_page. lia. Qed.

End PageAlloc.
