(* ===== verification/Buddy.v ===== *)
(** * The buddy allocator (kernel/buddy_alloc.c, kernel/kalloc.c)

    [nodes_mem] is an array of tree nodes; block [i] of 512 pages owns the
    nodes [1024 * i + 1 .. 1024 * i + 1023], a complete binary tree in heap
    order.  Pointers into [nodes_mem] are indices, the null pointer is [None].
    Each block has its own lock, which the operations take and release. *)

From S2P Require Import Prelude.

Module BuddyAlloc.

(** ** Data (kernel/budMemAllocStructs.h, kernel/budMemInfo.h) *)

Definition CNT_MEM_BLOCKS : nat := 62.
Definition STANDART_DEPTH : Z := 10.
Definition PGSIZE : Z := 4096.
Definition PHYSTOP : Z := 2147483648 + 128 * 1024 * 1024.
(** The number of elements of [nodes_mem]. *)
Definition NNODES : Z := Z.of_nat CNT_MEM_BLOCKS * Z.shiftl 1 STANDART_DEPTH.

Definition ptr : Type := option Z.

Record MemNode := mkMemNode {
  leftChild : ptr; rightChild : ptr; head : ptr;
  depth : Z;
  start_ptr : Z;
  maxFreePage : Z;
  cnt_page : Z;
  is_used : Z }.

Record BlocksInfo := mkBlocksInfo {
  total : Z;
  free : Z;
  free_by_size : list Z }.

Record BlockMem := mkBlockMem {
  lock : bool;
  root : ptr;
  info : BlocksInfo }.

Record state := mkState {
  nodes_mem : gmap Z MemNode;
  free_root : Z;
  blocks : list BlockMem;
  mem_separator : Z }.

Definition zero_node : MemNode := mkMemNode None None None 0 0 0 0 0.
Definition zero_block : BlockMem := mkBlockMem false None (mkBlocksInfo 0 0 (replicate 10 0)).

(** The C globals before [kinit] and [buddy_init] have run. *)
Definition zero_state : state := mkState ∅ 0 (replicate CNT_MEM_BLOCKS zero_block) 0.

Definition set_max (v : Z) (n : MemNode) : MemNode :=
  mkMemNode (leftChild n) (rightChild n) (head n) (depth n) (start_ptr n) v (cnt_page n) (is_used n).
Definition set_used (v : Z) (n : MemNode) : MemNode :=
  mkMemNode (leftChild n) (rightChild n) (head n) (depth n) (start_ptr n) (maxFreePage n) (cnt_page n) v.
Definition set_free (f : Z → Z) (b : BlockMem) : BlockMem :=
  mkBlockMem (lock b) (root b) (mkBlocksInfo (total (info b)) (f (free (info b))) (free_by_size (info b))).
Definition set_size (d : nat) (f : Z → Z) (b : BlockMem) : BlockMem :=
  mkBlockMem (lock b) (root b)
    (mkBlocksInfo (total (info b)) (free (info b)) (alter f d (free_by_size (info b)))).
Definition set_lock (l : bool) (b : BlockMem) : BlockMem := mkBlockMem l (root b) (info b).

(** ** Memory accesses *)

Definition node_at (m : gmap Z MemNode) (i : Z) : MemNode := default zero_node (m !! i).

Definition get_node (p : ptr) : prog state MemNode := λ s,
  match p with
  | None => Fault
  | Some i => if (0 <=? i) && (i <? NNODES) then Ok (node_at (nodes_mem s) i, s) else Fault
  end.

Definition put_node (p : ptr) (n : MemNode) : prog state unit := λ s,
  match p with
  | None => Fault
  | Some i =>
      if (0 <=? i) && (i <? NNODES)
      then Ok (tt, mkState (<[i := n]> (nodes_mem s)) (free_root s) (blocks s) (mem_separator s))
      else Fault
  end.

Definition mod_node (p : ptr) (f : MemNode → MemNode) : prog state unit :=
  n ← get_node p; put_node p (f n).

Definition get_block (b : nat) : prog state BlockMem := λ s,
  match blocks s !! b with Some bl => Ok (bl, s) | None => Fault end.

Definition mod_block (b : nat) (f : BlockMem → BlockMem) : prog state unit := λ s,
  match blocks s !! b with
  | Some bl => Ok (tt, mkState (nodes_mem s) (free_root s) (<[b := f bl]> (blocks s)) (mem_separator s))
  | None => Fault
  end.

(** [free_by_size[d] += v] on a [uint16]; the array has [STANDART_DEPTH] entries. *)
Definition add_size (b : nat) (d v : Z) : prog state unit :=
  if (0 <=? d) && (d <? STANDART_DEPTH) then mod_block b (set_size (Z.to_nat d) (λ x, u16 (x + v))) else fault.

Definition acquire (b : nat) : prog state unit :=
  bl ← get_block b;
  if lock bl then panic "acquire" else mod_block b (set_lock true).

Definition release (b : nat) : prog state unit :=
  bl ← get_block b;
  if lock bl then mod_block b (set_lock false) else panic "release".

(** ** kernel/buddy_alloc.c *)

Definition check_node_block_counting (node_ptr : ptr) : prog state Z :=
  n ← get_node node_ptr;
  if maxFreePage n =? cnt_page n then
    if depth n =? 0 then mret 1
    else
      h ← get_node (head n);
      if negb (maxFreePage h =? cnt_page h) then mret 1 else mret 0
  else mret 0.

Definition shl1 (n : Z) : Z := Z.shiftl 1 n.

(** One iteration of the loop of [init_block]; the loop's variable [depth] is
    the result. *)
Definition init_node (base i d : Z) : prog state Z :=
  let d := if i =? shl1 (d + 1) then u16 (d + 1) else d in
  hd ← get_node (Some (base + i `div` 2));
  let cnt := u16 (cnt_page hd `div` 2) in
  put_node (Some (base + i))
    (mkMemNode
       (if d <? STANDART_DEPTH - 1 then Some (base + 2 * i) else None)
       (if d <? STANDART_DEPTH - 1 then Some (base + 2 * i + 1) else None)
       (Some (base + i `div` 2))
       d
       (u64 (start_ptr hd + (if i `mod` 2 =? 0 then 0 else cnt) * PGSIZE))
       cnt cnt 0);;
  mret d.

Fixpoint init_nodes (n : nat) (base i d : Z) : prog state unit :=
  match n with
  | O => skip
  | S n' => d' ← init_node base i d; init_nodes n' base (i + 1) d'
  end.

Definition set_free_root (v : Z) : prog state unit :=
  modify (λ s, mkState (nodes_mem s) v (blocks s) (mem_separator s)).

Definition init_block (block_ptr : nat) : prog state unit :=
  mod_block block_ptr (set_lock false);;
  fr ← gets free_root;
  let fr := fr + 1 in
  sep ← gets mem_separator;
  mod_block block_ptr (λ b, mkBlockMem (lock b) (Some fr) (info b));;
  let cnt := u16 (shl1 (STANDART_DEPTH - 1)) in
  put_node (Some fr)
    (mkMemNode (Some (fr + 1)) (Some (fr + 2)) None 0
       (u64 ((PGSIZE * (fr - 0 - 1)) `quot` 2 + sep)) cnt cnt 0);;
  let base := fr - 1 in
  init_nodes (Z.to_nat (shl1 STANDART_DEPTH - 2)) base 2 1;;
  mod_block block_ptr (λ b, mkBlockMem (lock b) (root b)
    (mkBlocksInfo (u16 (shl1 (STANDART_DEPTH - 1))) (u16 (shl1 (STANDART_DEPTH - 1)))
       ((λ i, b2z (Z.of_nat i =? 0)) <$> seq 0 (Z.to_nat STANDART_DEPTH))));;
  set_free_root (base + shl1 STANDART_DEPTH).

(** Recursion towards the root; [fuel] bounds the depth of the node. *)
Fixpoint update_node_free_cnt (fuel : nat) (node_ptr : ptr) (block_ptr : nat) : prog state unit :=
  match fuel with
  | O => spin
  | S fuel' =>
    match node_ptr with
    | None => skip
    | Some _ =>
      n ← get_node node_ptr;
      (match head n with
       | Some _ =>
           h ← get_node (head n);
           c1 ← check_node_block_counting (leftChild h);
           add_size block_ptr (depth n) (- c1);;
           c2 ← check_node_block_counting (rightChild h);
           add_size block_ptr (depth n) (- c2)
       | None =>
           c ← check_node_block_counting node_ptr;
           add_size block_ptr (depth n) (- c)
       end);;
      (if negb (depth n =? STANDART_DEPTH - 1) then
         l ← get_node (leftChild n);
         r ← get_node (rightChild n);
         let left_cnt := maxFreePage l in
         let right_cnt := maxFreePage r in
         if left_cnt + right_cnt =? cnt_page n
         then mod_node node_ptr (set_max (cnt_page n))
         else mod_node node_ptr (set_max (if left_cnt <? right_cnt then right_cnt else left_cnt))
       else skip);;
      (match head n with
       | Some _ =>
           update_node_free_cnt fuel' (head n) block_ptr;;
           h ← get_node (head n);
           c1 ← check_node_block_counting (leftChild h);
           add_size block_ptr (depth n) c1;;
           c2 ← check_node_block_counting (rightChild h);
           add_size block_ptr (depth n) c2
       | None =>
           c ← check_node_block_counting node_ptr;
           add_size block_ptr (depth n) c
       end)
    end
  end.

(** Fuel that covers a path of a tree of [STANDART_DEPTH] levels. *)
Definition tree_fuel : nat := 11.

Fixpoint alloc_in_node (fuel : nat) (node_ptr : ptr) (size : Z) (block_ptr : nat) : prog state Z :=
  match fuel with
  | O => spin
  | S fuel' =>
    n ← get_node node_ptr;
    if (maxFreePage n =? size) && (cnt_page n =? size) then
      c ← check_node_block_counting node_ptr;
      (if negb (c =? 0) then add_size block_ptr (depth n) (-1)
       else add_size block_ptr (depth n) 1);;
      mod_block block_ptr (set_free (λ x, u16 (x - maxFreePage n)));;
      mod_node node_ptr (set_max 0);;
      mod_node node_ptr (set_used 1);;
      update_node_free_cnt tree_fuel (head n) block_ptr;;
      mret (start_ptr n)
    else
      l ← get_node (leftChild n);
      if size <=? maxFreePage l
      then alloc_in_node fuel' (leftChild n) size block_ptr
      else alloc_in_node fuel' (rightChild n) size block_ptr
  end.

Definition alloc_in_block (block_ptr : nat) (size : Z) : prog state Z :=
  acquire block_ptr;;
  bl ← get_block block_ptr;
  r ← get_node (root bl);
  if maxFreePage r <? size then release block_ptr;; mret 0
  else
    pa ← alloc_in_node tree_fuel (root bl) size block_ptr;
    release block_ptr;;
    mret pa.

Fixpoint free_in_node (fuel : nat) (node_ptr : ptr) (sp : Z) (block_ptr : nat) : prog state unit :=
  match fuel with
  | O => spin
  | S fuel' =>
    n ← get_node node_ptr;
    (if (start_ptr n =? sp) && negb (is_used n =? 0) then
       mod_node node_ptr (set_used 0);;
       mod_node node_ptr (set_max (cnt_page n));;
       mod_block block_ptr (set_free (λ x, u16 (x + cnt_page n)));;
       update_node_free_cnt tree_fuel (head n) block_ptr;;
       c ← check_node_block_counting node_ptr;
       (if negb (c =? 0) then add_size block_ptr (depth n) 1
        else add_size block_ptr (depth n) (-1))
     else skip);;
    match leftChild n, rightChild n with
    | Some _, Some _ =>
        if u64 (start_ptr n + (cnt_page n * PGSIZE) `quot` 2) <=? sp
        then free_in_node fuel' (rightChild n) sp block_ptr
        else free_in_node fuel' (leftChild n) sp block_ptr
    | _, _ => skip
    end
  end.

Definition free_in_block (block_ptr : nat) (sp : Z) : prog state unit :=
  acquire block_ptr;;
  bl ← get_block block_ptr;
  free_in_node tree_fuel (root bl) sp block_ptr;;
  release block_ptr.

(** [while (cnt % 2 == 0) cnt /= 2;] *)
Fixpoint halve (fuel : nat) (cnt : Z) : res Z :=
  match fuel with
  | O => Spin
  | S fuel' => if cnt `mod` 2 =? 0 then halve fuel' (cnt `div` 2) else Ok cnt
  end.

Definition checker_cnt_page (fuel : nat) (cnt : Z) : res Z :=
  if shl1 STANDART_DEPTH <? u32 (2 * cnt) then Ok 0
  else
    match halve fuel cnt with
    | Ok c => Ok (b2z (c =? 1))
    | Panic m => Panic m
    | Fault => Fault
    | Spin => Spin
    end.

Definition check_addr_in_block (pa : Z) (block_ptr : nat) : prog state Z :=
  bl ← get_block block_ptr;
  r ← get_node (root bl);
  mret (b2z ((start_ptr r <=? pa) && (pa <? u64 (start_ptr r + cnt_page r * PGSIZE)))).

Fixpoint buddy_init_loop (n i : nat) : prog state unit :=
  match n with
  | O => skip
  | S n' =>
      init_block i;;
      bl ← get_block i;
      r ← get_node (root bl);
      (if PHYSTOP + 1 <? u64 (start_ptr r + cnt_page r * PGSIZE)
       then panic "buddy_alloc_use_kalloc_mem" else skip);;
      buddy_init_loop n' (S i)
  end.

Definition buddy_init : prog state unit := buddy_init_loop CNT_MEM_BLOCKS 0.

Fixpoint buddy_free_loop (n i : nat) (ptr_pa : Z) : prog state unit :=
  match n with
  | O => skip
  | S n' =>
      c ← check_addr_in_block ptr_pa i;
      when (negb (c =? 0)) (free_in_block i ptr_pa);;
      buddy_free_loop n' (S i) ptr_pa
  end.

(** [kend] is the address of the linker symbol [end]. *)
Definition buddy_free (kend : Z) (pa : Z) : prog state unit :=
  if negb (pa `mod` PGSIZE =? 0) || (pa <? kend) || (PHYSTOP <=? pa)
  then panic "buddy_free_pa"
  else buddy_free_loop CNT_MEM_BLOCKS 0 pa.

Fixpoint buddy_alloc_loop (n i : nat) (cnt : Z) : prog state Z :=
  match n with
  | O => mret 0
  | S n' =>
      p ← alloc_in_block i (u16 cnt);
      if negb (p =? 0) then mret p else buddy_alloc_loop n' (S i) cnt
  end.

Definition buddy_alloc (fuel : nat) (cnt : Z) : prog state Z := λ s,
  match checker_cnt_page fuel cnt with
  | Ok c => if c =? 0 then Ok (0, s) else buddy_alloc_loop CNT_MEM_BLOCKS 0 cnt s
  | Panic m => Panic m
  | Fault => Fault
  | Spin => Spin
  end.

(** [mem_dump] up to its [printf]s: the structure it prints. *)
Definition dump_add (d : BlocksInfo) (i : BlocksInfo) : BlocksInfo :=
  mkBlocksInfo (u16 (total d + total i)) (u16 (free d + free i))
    (zip_with (λ x y, u16 (x + y)) (free_by_size d) (free_by_size i)).

Fixpoint mem_dump_loop (n i : nat) (dump : BlocksInfo) : prog state BlocksInfo :=
  match n with
  | O => mret dump
  | S n' =>
      acquire i;;
      bl ← get_block i;
      let dump := dump_add dump (info bl) in
      release i;;
      mem_dump_loop n' (S i) dump
  end.

Definition mem_dump : prog state BlocksInfo :=
  mem_dump_loop CNT_MEM_BLOCKS 0 (mkBlocksInfo 0 0 (replicate (Z.to_nat STANDART_DEPTH) 0)).

(** ** kernel/kalloc.c *)

Definition PGROUNDUP (sz : Z) : Z := Z.land (u64 (sz + PGSIZE - 1)) (u64 (Z.lnot (PGSIZE - 1))).

Definition kinit (kend : Z) : prog state unit :=
  modify (λ s, mkState (nodes_mem s) (free_root s) (blocks s) (PGROUNDUP kend)).
Definition kfree (kend pa : Z) : prog state unit := buddy_free kend pa.
Definition kalloc : prog state Z := buddy_alloc 32 1.

End BuddyAlloc.
