(* ===== verification/BuddyTree.v ===== *)
(** * The buddy tree: the abstract state of one block

    A block of 512 pages is a complete binary tree whose nodes are numbered
    [1 .. 1023] in heap order.  Its abstract state is the set [U] of the nodes
    that are allocated.  Everything the allocator stores is a function of [U]:
    [bval U k] is the length of the longest free run below node [k], [fblk U k]
    says that [k] is a maximal free block and [fpages U] counts free pages. *)

From S2P Require Import Prelude.

Module BuddyTree.

Definition dep (k : Z) : Z := Z.log2 k.
Definition hgt (k : Z) : nat := Z.to_nat (9 - dep k).
(** Pages of a node. *)
Definition cnt (k : Z) : Z := 2 ^ (9 - dep k).
Definition node (k : Z) : Prop := 1 ≤ k < 1024.
(** [k] is in the subtree of [j]. *)
Definition sub (j k : Z) : Prop := ∃ n : nat, k `div` 2 ^ Z.of_nat n = j.

Definition join (c l r : Z) : Z := if l + r =? c then c else if l <? r then r else l.

Fixpoint vl (U : gset Z) (h : nat) (k : Z) : Z :=
  if decide (k ∈ U) then 0
  else match h with
       | O => 1
       | S h' => join (2 ^ Z.of_nat h) (vl U h' (2 * k)) (vl U h' (2 * k + 1))
       end.
Definition bval (U : gset Z) (k : Z) : Z := vl U (hgt k) k.

Fixpoint fp (U : gset Z) (h : nat) (k : Z) : Z :=
  if decide (k ∈ U) then 0
  else match h with
       | O => 1
       | S h' => fp U h' (2 * k) + fp U h' (2 * k + 1)
       end.
(** Number of pages of the block that are not allocated. *)
Definition fpages (U : gset Z) : Z := fp U 9 1.

(** The test of [check_node_block_counting] on an assignment of [maxFreePage]. *)
Definition chk (mx : Z → Z) (k : Z) : Z :=
  b2z ((mx k =? cnt k) && ((k =? 1) || negb (mx (k `div` 2) =? cnt (k `div` 2)))).
(** [k] is a maximal free block: it is entirely free and its parent is not. *)
Definition fblk (U : gset Z) (k : Z) : Z :=
  if decide (k `div` 2 ∈ U) then 0 else chk (bval U) k.
Definition nodes_at (d : Z) : list Z := seqZ (2 ^ d) (2 ^ d).
Definition zsum {A} (f : A → Z) (l : list A) : Z := foldr (λ k a, f k + a) 0 l.
(** Number of maximal free blocks of depth [d]. *)
Definition nfree (U : gset Z) (d : Z) : Z := zsum (fblk U) (nodes_at d).

(** The allocated nodes are nodes of the tree and none is below another. *)
Definition wf (U : gset Z) : Prop :=
  (∀ k, k ∈ U → node k) ∧ (∀ j k, j ∈ U → k ∈ U → sub j k → j = k).

Lemma dep_double k : 1 ≤ k → dep (2 * k) = dep k + 1.
Proof. intros. unfold dep. rewrite Z.log2_double; lia. Qed.
Lemma dep_succ_double k : 1 ≤ k → dep (2 * k + 1) = dep k + 1.
Proof. intros. unfold dep. rewrite Z.log2_succ_double; lia. Qed.
Lemma dep_half k : 2 ≤ k → dep (k `div` 2) = dep k - 1.
Proof.
  intros. destruct (Z.eq_dec (k `mod` 2) 0).
  - rewrite (Z.div_mod k 2) at 2 by lia. rewrite e, Z.add_0_r, dep_double; [lia|].
    apply Z.div_le_lower_bound; lia.
  - rewrite (Z.div_mod k 2) at 2 by lia.
    replace (k `mod` 2) with 1 by (pose proof (Z.mod_pos_bound k 2); lia).
    rewrite dep_succ_double; [lia|]. apply Z.div_le_lower_bound; lia.
Qed.
Lemma dep_bounds k : 1 ≤ k → 2 ^ dep k ≤ k < 2 ^ (dep k + 1).
Proof. intros. unfold dep. pose proof (Z.log2_spec k). replace (Z.log2 k + 1) with (Z.succ (Z.log2 k)) by lia. lia. Qed.
Lemma dep_nonneg k : 0 ≤ dep k.
Proof. apply Z.log2_nonneg. Qed.
Lemma dep_unique d k : 0 ≤ d → 2 ^ d ≤ k < 2 ^ (d + 1) → dep k = d.
Proof. intros. apply Z.log2_unique; [lia|]. replace (Z.succ d) with (d + 1) by lia. lia. Qed.
Lemma dep_node k : node k → 0 ≤ dep k ≤ 9.
Proof.
  intros [H1 H2]. split; [apply dep_nonneg|]. unfold dep.
  assert (Z.log2 k < 10); [|lia]. apply Z.log2_lt_pow2; lia.
Qed.
Lemma dep_inner k : 1 ≤ k < 512 → 0 ≤ dep k ≤ 8.
Proof.
  intros [H1 H2]. split; [apply dep_nonneg|]. unfold dep.
  assert (Z.log2 k < 9); [|lia]. apply Z.log2_lt_pow2; lia.
Qed.
Lemma dep_leaf k : 512 ≤ k < 1024 → dep k = 9.
Proof. intros. apply dep_unique; lia. Qed.
Lemma dep_one : dep 1 = 0.
Proof. done. Qed.
Lemma dep_zero k : 1 ≤ k → dep k = 0 → k = 1.
Proof. intros. pose proof (dep_bounds k). rewrite H0 in H1. simpl in H1. lia. Qed.

Lemma dep_ge_1 k : 2 ≤ k → 1 ≤ dep k.
Proof. intros H. apply (Z.log2_le_mono 2 k H). Qed.

Lemma cnt_pos k : node k → 1 ≤ cnt k.
Proof. intros H%dep_node. unfold cnt. pose proof (Z.pow_pos_nonneg 2 (9 - dep k)). lia. Qed.
Lemma cnt_inner k : 1 ≤ k < 512 → cnt k = 2 * cnt (2 * k) ∧ cnt (2 * k + 1) = cnt (2 * k).
Proof.
  intros H. pose proof (dep_inner _ H). unfold cnt.
  rewrite dep_double, dep_succ_double by lia. split; [|done].
  rewrite <- Z.pow_succ_r by lia. f_equal. lia.
Qed.
Lemma cnt_leaf k : 512 ≤ k < 1024 → cnt k = 1.
Proof. intros H. unfold cnt. by rewrite dep_leaf. Qed.
Lemma cnt_le k : node k → cnt k ≤ 512.
Proof.
  intros H%dep_node. unfold cnt. change 512 with (2 ^ 9). apply Z.pow_le_mono_r; lia.
Qed.

(** Case analysis on a node other than the root: it is a child of its parent. *)
Lemma half_cases k : 2 ≤ k → (k = 2 * (k `div` 2) ∨ k = 2 * (k `div` 2) + 1) ∧ 1 ≤ k `div` 2 < k.
Proof. intros. pose proof (Z.div_mod k 2). pose proof (Z.mod_pos_bound k 2). lia. Qed.
Lemma half_double k : (2 * k) `div` 2 = k.
Proof. rewrite Z.mul_comm. by apply Z.div_mul. Qed.
Lemma half_succ_double k : (2 * k + 1) `div` 2 = k.
Proof. symmetry. apply (Z.div_unique _ _ _ 1); lia. Qed.

(** ** The subtree relation *)

Lemma sub_refl k : sub k k.
Proof. exists O. simpl. by rewrite Z.div_1_r. Qed.
Lemma div_pow_succ k n : k `div` 2 ^ Z.of_nat (S n) = (k `div` 2) `div` 2 ^ Z.of_nat n.
Proof.
  rewrite Z.div_div by pow_pos.
  f_equal. rewrite Nat2Z.inj_succ, Z.pow_succ_r by lia. lia.
Qed.
Lemma sub_up j k : sub j (k `div` 2) → sub j k.
Proof. intros [n Hn]. exists (S n). by rewrite div_pow_succ. Qed.
Lemma sub_inv j k : sub j k → j = k ∨ sub j (k `div` 2).
Proof.
  intros [[|n] Hn].
  - left. simpl in Hn. rewrite Z.div_1_r in Hn. done.
  - right. exists n. by rewrite <- div_pow_succ.
Qed.
Lemma sub_le j k : 0 ≤ k → sub j k → j ≤ k.
Proof.
  intros Hk [n <-]. apply Z.div_le_upper_bound; [lia|].
  pose proof (Z.pow_pos_nonneg 2 (Z.of_nat n)). nia.
Qed.
Lemma sub_down j k : sub j k → j = k ∨ sub (2 * j) k ∨ sub (2 * j + 1) k.
Proof.
  intros [n Hn]. destruct n as [|n].
  { left. simpl in Hn. rewrite Z.div_1_r in Hn. done. }
  right. set (c := k `div` 2 ^ Z.of_nat n).
  assert (Hc : c `div` 2 = j).
  { unfold c. rewrite Z.div_div by pow_pos.
    rewrite <- Hn. f_equal. rewrite Nat2Z.inj_succ, Z.pow_succ_r by lia. lia. }
  assert (Hs : sub c k) by (by exists n).
  pose proof (Z.div_mod c 2). pose proof (Z.mod_pos_bound c 2).
  destruct (decide (c `mod` 2 = 0)).
  - left. by replace (2 * j) with c by lia.
  - right. by replace (2 * j + 1) with c by lia.
Qed.
Lemma sub_trans i j k : sub i j → sub j k → sub i k.
Proof.
  intros [n <-] [m <-]. exists (m + n)%nat.
  rewrite Nat2Z.inj_add, Z.pow_add_r by lia.
  rewrite Z.div_div by pow_pos. done.
Qed.
Lemma sub_children j : sub j (2 * j) ∧ sub j (2 * j + 1).
Proof.
  split; apply sub_up; rewrite ?half_double, ?half_succ_double; apply sub_refl.
Qed.
Lemma sub_dep j k : 1 ≤ j → 1 ≤ k → sub j k → dep j ≤ dep k.
Proof. intros. apply Z.log2_le_mono. apply sub_le; [lia|done]. Qed.
Lemma sub_same_dep j k : 1 ≤ j → 1 ≤ k → sub j k → dep j = dep k → j = k.
Proof.
  intros Hj Hk H Hd. destruct (decide (j = k)) as [|Hne]; [done|exfalso].
  destruct (decide (k = 1)) as [->|].
  { apply Hne. apply sub_le in H; lia. }
  destruct (sub_inv _ _ H) as [|H']; [done|].
  apply sub_dep in H'; [| lia | pose proof (half_cases k); lia].
  rewrite dep_half in H' by lia. lia.
Qed.
(** Two subtrees of the same depth are disjoint. *)
Lemma sub_disjoint i j k :
  1 ≤ i → 1 ≤ j → 1 ≤ k → dep i = dep j → sub i k → sub j k → i = j.
Proof.
  revert i j. induction (Z.lt_wf 0 k) as [k _ IH]. intros i j Hi Hj Hk Hd Hik Hjk.
  destruct (sub_inv _ _ Hik) as [->|Hik'].
  { symmetry. by apply sub_same_dep. }
  destruct (sub_inv _ _ Hjk) as [->|Hjk'].
  { by apply sub_same_dep. }
  destruct (decide (k = 1)) as [->|].
  { apply sub_le in Hik'; [|done]. change (1 `div` 2) with 0 in Hik'. lia. }
  pose proof (half_cases k ltac:(lia)).
  apply (IH (k `div` 2)); auto; lia.
Qed.
Lemma sub_root k : 1 ≤ k → sub 1 k.
Proof.
  intros H. exists (Z.to_nat (dep k)). pose proof (dep_bounds k H). pose proof (dep_nonneg k).
  rewrite Z2Nat.id by lia. symmetry. apply (Z.div_unique _ _ _ (k - 2 ^ dep k)); [|lia].
  rewrite Z.pow_add_r in H0 by lia. lia.
Qed.

(** Induction from the leaves to the root. *)
Lemma node_ind (P : Z → Prop) :
  (∀ k, 512 ≤ k < 1024 → P k) →
  (∀ k, 1 ≤ k < 512 → P (2 * k) → P (2 * k + 1) → P k) →
  ∀ k, node k → P k.
Proof.
  intros Hleaf Hin k. remember (Z.to_nat (1024 - k)) as n eqn:E. revert k E.
  induction (lt_wf n) as [n _ IH]. intros k E [H1 H2].
  destruct (decide (512 ≤ k)); [apply Hleaf; lia|].
  apply Hin; [lia| |]; eapply IH; try reflexivity; unfold node; lia.
Qed.

(** A leaf has no other node below it. *)
Lemma sub_leaf j k : 512 ≤ j < 1024 → node k → sub j k → j = k.
Proof.
  intros Hj Hk Hs. pose proof (dep_node k Hk). unfold node in Hk.
  pose proof (sub_dep j k ltac:(lia) ltac:(lia) Hs). pose proof (dep_leaf j Hj).
  apply sub_same_dep; [lia|lia|done|lia].
Qed.

(** ** Values *)

Lemma join_spec m l r :
  1 ≤ m → 0 ≤ l ≤ m → 0 ≤ r ≤ m →
  0 ≤ join (2 * m) l r ≤ 2 * m ∧ (join (2 * m) l r = 2 * m ↔ l = m ∧ r = m) ∧
  l ≤ join (2 * m) l r ∧ r ≤ join (2 * m) l r ∧
  (join (2 * m) l r ≠ 2 * m → join (2 * m) l r = Z.max l r).
Proof. intros. unfold join. repeat case_z; lia. Qed.

Lemma hgt_inner k : 1 ≤ k < 512 → hgt k = S (hgt (2 * k)) ∧ hgt (2 * k + 1) = hgt (2 * k).
Proof.
  intros H. pose proof (dep_inner _ H). unfold hgt.
  rewrite dep_double, dep_succ_double by lia. split; [lia|done].
Qed.
Lemma cnt_hgt k : node k → cnt k = 2 ^ Z.of_nat (hgt k).
Proof. intros H%dep_node. unfold cnt, hgt. f_equal. lia. Qed.

Lemma bval_inner U k : 1 ≤ k < 512 →
  bval U k = if decide (k ∈ U) then 0 else join (cnt k) (bval U (2 * k)) (bval U (2 * k + 1)).
Proof.
  intros H. destruct (hgt_inner k H) as [E1 E2]. unfold bval.
  rewrite cnt_hgt, E2, E1 by (unfold node; lia). done.
Qed.
Lemma bval_leaf U k : 512 ≤ k < 1024 → bval U k = if decide (k ∈ U) then 0 else 1.
Proof. intros H. unfold bval, hgt. by rewrite dep_leaf. Qed.
Lemma bval_used U k : k ∈ U → bval U k = 0.
Proof. intros H. unfold bval. destruct (hgt k); simpl; by rewrite decide_True. Qed.
Lemma bval_bounds U k : node k → 0 ≤ bval U k ≤ cnt k.
Proof.
  revert k. apply node_ind.
  - intros k H. rewrite bval_leaf, cnt_leaf by done. case_decide; lia.
  - intros k H H1 H2. rewrite bval_inner by done. destruct (cnt_inner k H) as [E1 E2].
    pose proof (cnt_pos (2 * k)). rewrite E2 in H2. unfold node in *.
    rewrite E1. case_decide; [lia|]. apply (join_spec (cnt (2 * k))); lia.
Qed.
(** The case analysis [update_node_free_cnt] makes at an inner node. *)
Lemma bval_join U k : 1 ≤ k < 512 → k ∉ U →
  bval U (2 * k) ≤ bval U k ∧ bval U (2 * k + 1) ≤ bval U k ∧
  (bval U k = cnt k ↔ bval U (2 * k) = cnt (2 * k) ∧ bval U (2 * k + 1) = cnt (2 * k + 1)) ∧
  (bval U k ≠ cnt k → bval U k = Z.max (bval U (2 * k)) (bval U (2 * k + 1))).
Proof.
  intros H Hk. rewrite (bval_inner U k), decide_False by done.
  destruct (cnt_inner k H) as [E1 E2].
  pose proof (cnt_pos (2 * k)). pose proof (bval_bounds U (2 * k)). pose proof (bval_bounds U (2 * k + 1)).
  rewrite E2 in *. unfold node in *. rewrite E1.
  destruct (join_spec (cnt (2 * k)) (bval U (2 * k)) (bval U (2 * k + 1))) as (?&?&?&?&?); lia.
Qed.

Lemma node_children k : 1 ≤ k < 512 → node (2 * k) ∧ node (2 * k + 1).
Proof. unfold node. lia. Qed.

Lemma bval_ext U U' k : node k →
  (∀ x, node x → sub k x → x ∈ U ↔ x ∈ U') → bval U k = bval U' k.
Proof.
  revert k. apply (node_ind (λ k, (∀ x, node x → sub k x → x ∈ U ↔ x ∈ U') → bval U k = bval U' k)).
  - intros k H He. rewrite !bval_leaf by done.
    assert (k ∈ U ↔ k ∈ U') by (apply He; [unfold node; lia|apply sub_refl]).
    by apply decide_ext.
  - intros k H IH1 IH2 He. rewrite (bval_inner U k), (bval_inner U' k) by done.
    rewrite IH1, IH2; last 2 first.
    + intros x Hx Hs. apply He; [done|]. eapply sub_trans; [|exact Hs]. apply sub_children.
    + intros x Hx Hs. apply He; [done|]. eapply sub_trans; [|exact Hs]. apply sub_children.
    + assert (k ∈ U ↔ k ∈ U') by (apply He; [unfold node; lia|apply sub_refl]).
      by apply decide_ext.
Qed.

(** A node is worth all its pages exactly when nothing is allocated below it. *)
Lemma bval_full U k : node k →
  bval U k = cnt k ↔ (∀ x, node x → sub k x → x ∉ U).
Proof.
  revert k. apply (node_ind (λ k, bval U k = cnt k ↔ (∀ x, node x → sub k x → x ∉ U))).
  - intros k H. rewrite bval_leaf, cnt_leaf by done. split.
    + case_decide; [lia|]. intros _ x Hx Hs. by apply sub_leaf in Hs as <-.
    + intros Hn. rewrite decide_False; [done|]. apply Hn; [unfold node; lia|apply sub_refl].
  - intros k H IH1 IH2. split.
    + intros Hf. assert (Hk : k ∉ U).
      { intros Hu. rewrite (bval_used U k) in Hf by done.
        pose proof (cnt_pos k). unfold node in *. lia. }
      apply bval_join in Hf as [F1 F2]; [|done..].
      intros x Hx Hs. destruct (sub_down _ _ Hs) as [<-|[Hs'|Hs']]; [done| |].
      * by apply IH1.
      * by apply IH2.
    + intros Hn. assert (Hk : k ∉ U) by (apply Hn; [unfold node; lia|apply sub_refl]).
      apply bval_join; [done..|]. rewrite IH1, IH2.
      split; intros x Hx Hs; apply Hn; try done; (eapply sub_trans; [|exact Hs]); apply sub_children.
Qed.

(** ** Free pages *)

Definition fpv (U : gset Z) (k : Z) : Z := fp U (hgt k) k.
Lemma fpv_inner U k : 1 ≤ k < 512 →
  fpv U k = if decide (k ∈ U) then 0 else fpv U (2 * k) + fpv U (2 * k + 1).
Proof. intros H. destruct (hgt_inner k H) as [E1 E2]. unfold fpv. by rewrite E2, E1. Qed.
Lemma fpv_leaf U k : 512 ≤ k < 1024 → fpv U k = if decide (k ∈ U) then 0 else 1.
Proof. intros H. unfold fpv, hgt. by rewrite dep_leaf. Qed.
Lemma fpages_fpv U : fpages U = fpv U 1.
Proof. done. Qed.
Lemma fpv_used U k : k ∈ U → fpv U k = 0.
Proof. intros H. unfold fpv. destruct (hgt k); simpl; by rewrite decide_True. Qed.
Lemma fpv_bounds U k : node k → 0 ≤ fpv U k ≤ cnt k.
Proof.
  revert k. apply node_ind.
  - intros k H. rewrite fpv_leaf, cnt_leaf by done. case_decide; lia.
  - intros k H H1 H2. rewrite fpv_inner by done. destruct (cnt_inner k H) as [E1 E2].
    case_decide; lia.
Qed.
Lemma fpv_ext U U' k : node k →
  (∀ x, node x → sub k x → x ∈ U ↔ x ∈ U') → fpv U k = fpv U' k.
Proof.
  revert k. apply (node_ind (λ k, (∀ x, node x → sub k x → x ∈ U ↔ x ∈ U') → fpv U k = fpv U' k)).
  - intros k H He. rewrite !fpv_leaf by done.
    assert (k ∈ U ↔ k ∈ U') by (apply He; [unfold node; lia|apply sub_refl]).
    by apply decide_ext.
  - intros k H IH1 IH2 He. rewrite (fpv_inner U k), (fpv_inner U' k) by done.
    rewrite IH1, IH2; last 2 first.
    + intros x Hx Hs. apply He; [done|]. eapply sub_trans; [|exact Hs]. apply sub_children.
    + intros x Hx Hs. apply He; [done|]. eapply sub_trans; [|exact Hs]. apply sub_children.
    + assert (k ∈ U ↔ k ∈ U') by (apply He; [unfold node; lia|apply sub_refl]).
      by apply decide_ext.
Qed.
Lemma fpv_full U k : node k → bval U k = cnt k → fpv U k = cnt k.
Proof.
  revert k. apply (node_ind (λ k, bval U k = cnt k → fpv U k = cnt k)).
  - intros k H. by rewrite bval_leaf, fpv_leaf.
  - intros k H IH1 IH2 Hf. assert (Hk : k ∉ U).
    { intros Hu. rewrite (bval_used U k) in Hf by done.
      pose proof (cnt_pos k). unfold node in *. lia. }
    rewrite fpv_inner, decide_False by done.
    apply bval_join in Hf as [F1 F2]; [|done..].
    rewrite IH1, IH2 by done. destruct (cnt_inner k H). lia.
Qed.

(** ** Allocating and releasing a node *)

(** [k] can be allocated: it is entirely free and not inside an allocated block. *)
Definition avail (U : gset Z) (k : Z) : Prop :=
  node k ∧ bval U k = cnt k ∧ ∀ j, sub j k → j ∉ U.

Lemma union_ext_sub (U : gset Z) k j x : ¬ sub j k → sub j x → x ∈ U ↔ x ∈ {[k]} ∪ U.
Proof. intros Hn Hs. rewrite elem_of_union, elem_of_singleton. naive_solver. Qed.

Lemma wf_empty : wf ∅.
Proof. split; [intros k Hk|intros j k Hk]; by apply not_elem_of_empty in Hk. Qed.
Lemma wf_insert U k : wf U → avail U k → wf ({[k]} ∪ U).
Proof.
  intros [W1 W2] (Hk & Hf & Ha). split.
  - intros j. set_solver.
  - intros i j Hi Hj Hs. rewrite elem_of_union, elem_of_singleton in Hi, Hj.
    destruct Hi as [->|Hi], Hj as [->|Hj]; [done| | |by apply W2].
    + exfalso. apply (proj1 (bval_full U k Hk) Hf j); auto.
    + exfalso. by eapply Ha.
Qed.

Lemma fpv_insert U k j : avail U k → 1 ≤ j → sub j k →
  fpv ({[k]} ∪ U) j = fpv U j - cnt k.
Proof.
  intros (Hk & Hf & Ha) Hj Hs.
  assert (Hnj : node j) by (apply sub_le in Hs; unfold node in *; lia). clear Hj.
  revert j Hnj Hs. apply (node_ind (λ j, sub j k → fpv ({[k]} ∪ U) j = fpv U j - cnt k)).
  - intros j Hj Hs. assert (j = k) as ->.
    { by apply sub_leaf. }
    rewrite (fpv_used _ k) by set_solver. rewrite (fpv_full U k) by done. lia.
  - intros j Hj IH1 IH2 Hs. destruct (decide (j = k)) as [->|Hne].
    { rewrite (fpv_used _ k) by set_solver. rewrite (fpv_full U k) by done. lia. }
    pose proof (Ha j Hs). rewrite !(fpv_inner _ j) by done.
    rewrite !decide_False by set_solver.
    destruct (node_children j Hj) as [N1 N2].
    destruct (sub_down _ _ Hs) as [|[Hs'|Hs']]; [done| |].
    + rewrite IH1 by done. rewrite (fpv_ext ({[k]} ∪ U) U (2 * j + 1)); [lia|done|].
      intros x Hx Hsx. symmetry. apply (union_ext_sub U k (2 * j + 1)); [|done]. intros Hc.
      assert (2 * j = 2 * j + 1); [|lia].
      apply (sub_disjoint _ _ k); try done; try (unfold node in *; lia).
      rewrite dep_double, dep_succ_double; lia.
    + rewrite IH2 by done. rewrite (fpv_ext ({[k]} ∪ U) U (2 * j)); [lia|done|].
      intros x Hx Hsx. symmetry. apply (union_ext_sub U k (2 * j)); [|done]. intros Hc.
      assert (2 * j = 2 * j + 1); [|lia].
      apply (sub_disjoint _ _ k); try done; try (unfold node in *; lia).
      rewrite dep_double, dep_succ_double; lia.
Qed.

Lemma fpages_insert U k : avail U k → fpages ({[k]} ∪ U) = fpages U - cnt k.
Proof.
  intros H. rewrite !fpages_fpv. apply fpv_insert; [done|lia|].
  destruct H as [[] _]. by apply sub_root.
Qed.

(** ** Recomputing the values on the path to the root *)

Definition fupd (g : Z → Z) (a v : Z) : Z → Z := λ b, if decide (b = a) then v else g b.
Fixpoint upath (n : nat) (mx : Z → Z) (k : Z) : Z → Z :=
  let mx1 := if k <? 512 then fupd mx k (join (cnt k) (mx (2 * k)) (mx (2 * k + 1))) else mx in
  match n with
  | O => mx1
  | S n' => upath n' mx1 (k `div` 2)
  end.

Lemma fupd_eq g a v : fupd g a v a = v.
Proof. unfold fupd. by rewrite decide_True. Qed.
Lemma fupd_ne g a v b : b ≠ a → fupd g a v b = g b.
Proof. intros. unfold fupd. by rewrite decide_False. Qed.

Lemma upath_other n : ∀ mx k j, ¬ sub j k → upath n mx k j = mx j.
Proof.
  induction n as [|n IH]; intros mx k j Hn; simpl.
  - case_z; [|done]. rewrite fupd_ne; [done|]. intros ->. apply Hn, sub_refl.
  - rewrite IH; [|intros Hs; apply Hn, sub_up, Hs].
    case_z; [|done]. rewrite fupd_ne; [done|]. intros ->. apply Hn, sub_refl.
Qed.

Lemma upath_bval U n : ∀ mx k,
  n = Z.to_nat (dep k) → 1 ≤ k < 512 →
  (∀ j, 1 ≤ j → sub j k → j ∉ U) →
  (∀ j, node j → ¬ sub j k → mx j = bval U j) →
  ∀ j, node j → upath n mx k j = bval U j.
Proof.
  induction n as [|n IH]; intros mx k En Hk Ha Hmx j Hj; simpl.
  all: assert (Hself : ∀ j, node j → ¬ (sub j (k `div` 2) ∧ 2 ≤ k) →
    fupd mx k (join (cnt k) (mx (2 * k)) (mx (2 * k + 1))) j = bval U j).
  1, 3: intros i Hi Hni; destruct (decide (i = k)) as [->|Hne].
  1, 3: rewrite fupd_eq, bval_inner, decide_False by (try apply Ha, sub_refl; lia);
        rewrite !Hmx; try done; try (unfold node; lia);
        intros Hs%sub_le; lia.
  1, 2: rewrite fupd_ne by done; apply Hmx; [done|]; intros [->|Hs]%sub_inv; [done|];
        apply Hni; split; [done|]; destruct (decide (k = 1)) as [->|]; [|lia];
        exfalso; apply sub_le in Hs; [|done]; change (1 `div` 2) with 0 in Hs;
        unfold node in Hi; lia.
  - destruct (Z.ltb_spec k 512); [|lia]. apply Hself; [done|].
    pose proof (dep_nonneg k). rewrite (dep_zero k) by lia. lia.
  - destruct (Z.ltb_spec k 512); [|lia].
    assert (2 ≤ k). { destruct (decide (k = 1)) as [->|]; [discriminate En|lia]. }
    pose proof (half_cases k ltac:(lia)). apply IH; [|lia| | |done].
    + rewrite dep_half by lia. pose proof (dep_nonneg k). lia.
    + intros i Hi Hs. apply Ha; [done|]. by apply sub_up.
    + intros i Hi Hs. apply Hself; [done|]. tauto.
Qed.

(** ** Counting maximal free blocks *)

Lemma zsum_ext {A} (f g : A → Z) l : (∀ x, x ∈ l → f x = g x) → zsum f l = zsum g l.
Proof. induction l; simpl; [done|]. intros H. rewrite H, IHl; set_solver. Qed.
Lemma zsum_change1 (f g : Z → Z) l p : NoDup l → p ∈ l → (∀ x, x ∈ l → x ≠ p → f x = g x) →
  zsum g l = zsum f l - f p + g p.
Proof.
  induction l as [|x l IH]; intros ND Hp Heq; [set_solver|].
  apply list.NoDup_cons in ND as [Hx ND]. simpl.
  destruct (decide (x = p)) as [->|Hne].
  - rewrite (zsum_ext f g l); [lia|]. intros y Hy. apply Heq; set_solver.
  - rewrite (Heq x) by set_solver. rewrite IH; [lia|done|set_solver|set_solver].
Qed.
Lemma zsum_change2 (f g : Z → Z) l p q : NoDup l → p ∈ l → q ∈ l → p ≠ q →
  (∀ x, x ∈ l → x ≠ p → x ≠ q → f x = g x) →
  zsum g l = zsum f l - (f p + f q) + (g p + g q).
Proof.
  intros ND Hp Hq Hne Heq.
  rewrite (zsum_change1 (fupd f p (g p)) g l q); [|done..|].
  - rewrite (zsum_change1 f (fupd f p (g p)) l p); [|done..|].
    + rewrite fupd_eq, fupd_ne by done. lia.
    + intros x _ Hx. by rewrite fupd_ne.
  - intros x Hx Hxq. destruct (decide (x = p)) as [->|].
    + by rewrite fupd_eq.
    + rewrite fupd_ne by done. by apply Heq.
Qed.

Lemma elem_of_nodes_at d k : 0 ≤ d → k ∈ nodes_at d ↔ 1 ≤ k ∧ dep k = d.
Proof.
  intros Hd. unfold nodes_at. rewrite elem_of_seqZ.
  assert (2 ^ d + 2 ^ d = 2 ^ (d + 1)) as -> by (rewrite Z.pow_add_r; lia).
  pose proof (Z.pow_pos_nonneg 2 d). split.
  - intros. split; [lia|]. by apply dep_unique.
  - intros [Hk <-]. by apply dep_bounds.
Qed.

(** The pair of brothers a node belongs to. *)
Definition pair (mx : Z → Z) (a : Z) : Z :=
  if a =? 1 then chk mx 1 else chk mx (2 * (a `div` 2)) + chk mx (2 * (a `div` 2) + 1).
(** The ancestor of [k] at depth [d]. *)
Definition anc (k d : Z) : Z := k `div` 2 ^ (dep k - d).

Lemma anc_sub k d : 0 ≤ d ≤ dep k → sub (anc k d) k.
Proof. intros. exists (Z.to_nat (dep k - d)). rewrite Z2Nat.id; [done|lia]. Qed.
Lemma anc_self k : anc k (dep k) = k.
Proof. unfold anc. rewrite Z.sub_diag. apply Z.div_1_r. Qed.
Lemma anc_half k d : 2 ≤ k → d < dep k → anc (k `div` 2) d = anc k d.
Proof.
  intros Hk Hd. unfold anc. rewrite dep_half by done.
  rewrite Z.div_div by pow_pos. f_equal. rewrite <- Z.pow_succ_r by lia. f_equal. lia.
Qed.
Lemma anc_dep k d : 1 ≤ k → 0 ≤ d ≤ dep k → 1 ≤ anc k d ∧ dep (anc k d) = d.
Proof.
  intros Hk. induction (Z.lt_wf 0 k) as [k _ IH].
  intros Hd. destruct (decide (d = dep k)) as [->|]; [by rewrite anc_self|].
  assert (2 ≤ k). { destruct (decide (k = 1)) as [->|]; [rewrite dep_one in *; lia|lia]. }
  pose proof (half_cases k ltac:(lia)). rewrite <- anc_half by lia.
  apply IH; [lia|lia|]. rewrite dep_half; lia.
Qed.

Lemma chk_fupd mx k v e : e ≠ k → e `div` 2 ≠ k → chk (fupd mx k v) e = chk mx e.
Proof. intros. unfold chk. by rewrite !fupd_ne. Qed.
(** A pair of brothers above [k] does not look at [k]. *)
Lemma pair_fupd mx k v a : 1 ≤ a → dep a < dep k → pair (fupd mx k v) a = pair mx a.
Proof.
  intros Ha Hd. unfold pair. destruct (Z.eqb_spec a 1) as [->|Hne].
  - apply chk_fupd; intros E.
    + rewrite E in Hd. lia.
    + change (1 `div` 2) with 0 in E. rewrite <- E in Hd. rewrite dep_one in Hd.
      change (dep 0) with 0 in Hd. lia.
  - pose proof (half_cases a ltac:(lia)). pose proof (dep_half a ltac:(lia)).
    assert (∀ e, dep e < dep k → e ≠ k) as Hk by (intros e He ->; lia).
    rewrite !chk_fupd; rewrite ?half_double, ?half_succ_double; try done; apply Hk;
      rewrite ?dep_double, ?dep_succ_double; lia.
Qed.

Lemma pair_ext mx mx' a : node a → (∀ j, node j → mx j = mx' j) → pair mx a = pair mx' a.
Proof.
  intros Ha He. unfold node in *. unfold pair, chk. destruct (Z.eqb_spec a 1) as [->|Hne].
  - rewrite He by lia. by destruct (_ =? _).
  - pose proof (half_cases a ltac:(lia)). rewrite half_double, half_succ_double.
    rewrite !He by lia. done.
Qed.

(** Releasing an allocated node makes it available again. *)
Lemma wf_release U k : wf U → k ∈ U →
  wf (U ∖ {[k]}) ∧ avail (U ∖ {[k]}) k ∧ {[k]} ∪ (U ∖ {[k]}) = U.
Proof.
  intros [W1 W2] Hk. split; [|split].
  - split; [intros j Hj; apply W1; set_solver|].
    intros j x Hj Hx. apply W2; set_solver.
  - split; [by apply W1|]. split.
    + apply bval_full; [by apply W1|]. intros x _ Hs Hx. apply elem_of_difference in Hx as [Hx Hn].
      apply Hn, elem_of_singleton. symmetry. by apply W2.
    + intros j Hs Hj. apply elem_of_difference in Hj as [Hj Hn].
      apply Hn, elem_of_singleton. by apply W2.
  - apply set_eq. intros x. rewrite elem_of_union, elem_of_difference, elem_of_singleton.
    destruct (decide (x = k)); naive_solver.
Qed.

Section change.
Context (U : gset Z) (k : Z) (Hwf : wf U) (Hav : avail U k).
#[local] Abbreviation U' := ({[k]} ∪ U).

Lemma Hnode : node k.
Proof. apply Hav. Qed.
Lemma zero_notin : 0 ∉ U.
Proof. intros H%(proj1 Hwf). unfold node in H. lia. Qed.
Lemma above_notin j : sub j k → j ∉ U.
Proof. apply Hav. Qed.
Lemma above_notin' j : sub j k → j ≠ k → j ∉ U'.
Proof. intros H ?. pose proof (above_notin j H). set_solver. Qed.

Lemma bval_same j : node j → ¬ sub j k → bval U' j = bval U j.
Proof.
  intros Hj Hn. apply bval_ext; [done|]. intros x Hx Hs. symmetry.
  by apply (union_ext_sub U k j).
Qed.

Lemma chk_same e : 2 ≤ e < 1024 → ¬ sub e k → ¬ sub (e `div` 2) k →
  chk (bval U) e = chk (bval U') e.
Proof.
  intros He H1 H2. pose proof (half_cases e ltac:(lia)). unfold chk.
  rewrite !bval_same; [done|unfold node; lia|done|unfold node; lia|done].
Qed.

Lemma nfree_above d : 0 ≤ d ≤ dep k →
  nfree U' d = nfree U d - pair (bval U) (anc k d) + pair (bval U') (anc k d).
Proof.
  intros Hd. pose proof Hnode as Hk. pose proof (dep_node k Hk) as Hdk.
  destruct (anc_dep k d) as [A1 A2]; [unfold node in Hk; lia|lia|].
  pose proof (anc_sub k d ltac:(lia)) as As. set (a := anc k d) in *.
  pose proof zero_notin. unfold pair.
  destruct (Z.eqb_spec a 1) as [E|E].
  - rewrite E in *. rewrite dep_one in A2. subst d. unfold nfree.
    change (nodes_at 0) with [1]. simpl. unfold fblk. change (1 `div` 2) with 0.
    rewrite !decide_False; [lia|done|]. unfold node in *. set_solver by lia.
  - pose proof (half_cases a ltac:(lia)) as Ha.
    pose proof (dep_half a ltac:(lia)) as Hda. rewrite A2 in Hda.
    pose proof (dep_nonneg (a `div` 2)) as Hd1.
    assert (Hs : sub (a `div` 2) k).
    { eapply sub_trans; [|exact As]. apply sub_up, sub_refl. }
    assert (Hfb : ∀ W e, e `div` 2 = a `div` 2 → a `div` 2 ∉ W → fblk W e = chk (bval W) e).
    { intros W e He HW. unfold fblk. by rewrite He, decide_False. }
    assert (Hk2 : a `div` 2 ≠ k) by (intros E'; rewrite E' in Hda; lia).
    unfold nfree.
    rewrite (zsum_change2 (fblk U) (fblk U') _ (2 * (a `div` 2)) (2 * (a `div` 2) + 1)).
    + rewrite !Hfb; rewrite ?half_double, ?half_succ_double; try done;
        try (by apply above_notin); try (by apply above_notin').
    + apply NoDup_seqZ.
    + apply elem_of_nodes_at; [lia|]. rewrite dep_double; lia.
    + apply elem_of_nodes_at; [lia|]. rewrite dep_succ_double; lia.
    + lia.
    + intros e He Hp Hq. apply elem_of_nodes_at in He as [He1 He2]; [|lia].
      assert (2 ≤ e). { destruct (decide (e = 1)) as [->|]; [rewrite dep_one in *; lia|lia]. }
      pose proof (half_cases e ltac:(lia)) as Hh. pose proof (dep_half e ltac:(lia)) as Hdh.
      assert (e < 1024).
      { pose proof (dep_bounds e He1). rewrite He2 in *.
        pose proof (Z.pow_le_mono_r 2 (d + 1) 10). lia. }
      assert (e `div` 2 ≠ k) by (intros E'; rewrite E' in Hdh; lia).
      assert (Hmem : e `div` 2 ∈ U ↔ e `div` 2 ∈ U') by set_solver.
      unfold fblk. rewrite (decide_ext _ _ _ _ Hmem). destruct (decide _); [done|].
      apply chk_same; [lia| |].
      * intros Hse. assert (e = a) as ->; [|lia].
        apply (sub_disjoint e a k); auto; unfold node in *; lia.
      * intros Hse. assert (e `div` 2 = a `div` 2) as E'; [|lia].
        apply (sub_disjoint _ _ k); auto; unfold node in *; lia.
Qed.

Lemma nfree_below d : dep k < d ≤ 9 → nfree U' d = nfree U d.
Proof.
  intros Hd. pose proof Hnode as Hk. pose proof (dep_node k Hk) as Hdk.
  apply zsum_ext. intros e He. apply elem_of_nodes_at in He as [He1 He2]; [|lia].
  assert (2 ≤ e). { destruct (decide (e = 1)) as [->|]; [rewrite dep_one in *; lia|lia]. }
  pose proof (half_cases e ltac:(lia)) as Hh. pose proof (dep_half e ltac:(lia)) as Hdh.
  assert (e < 1024).
  { pose proof (dep_bounds e He1). rewrite He2 in *.
    pose proof (Z.pow_le_mono_r 2 (d + 1) 10). lia. }
  unfold fblk. destruct (decide (e `div` 2 = k)) as [E|Hne].
  - rewrite E, decide_True by set_solver. rewrite decide_False by (apply above_notin, sub_refl).
    unfold chk. rewrite E. destruct Hav as (_ & Hf & _). rewrite Hf, Z.eqb_refl.
    destruct (Z.eqb_spec e 1); [lia|]. by destruct (_ =? _).
  - assert (Hmem : e `div` 2 ∈ U' ↔ e `div` 2 ∈ U) by set_solver.
    rewrite (decide_ext _ _ _ _ Hmem). destruct (decide _); [done|]. symmetry.
    apply chk_same; [lia| |]; intros Hs.
    + apply sub_dep in Hs; unfold node in *; lia.
    + apply Hne. apply sub_same_dep; [lia|unfold node in *; lia|done|].
      apply sub_dep in Hs; unfold node in *; lia.
Qed.

(** Allocating a maximal free block removes it from the count of its depth;
    allocating inside a larger free block leaves its brother as a new one. *)
Lemma pair_self : pair (bval U') k - pair (bval U) k = if chk (bval U) k =? 0 then 1 else -1.
Proof.
  pose proof Hnode as Hk. destruct Hav as (_ & Hf & Ha).
  pose proof (cnt_pos k Hk) as Hc. pose proof (bval_used U' k ltac:(set_solver)) as Hu.
  unfold pair. destruct (Z.eqb_spec k 1) as [->|Hne].
  - unfold chk. rewrite Hf, Hu, Z.eqb_refl. simpl. destruct (Z.eqb_spec 0 (cnt 1)); [lia|done].
  - pose proof (half_cases k ltac:(unfold node in Hk; lia)) as [Hkk Hh].
    set (h := k `div` 2) in *.
    assert (Hhin : 1 ≤ h < 512) by (unfold node in Hk; lia).
    assert (Hhs : sub h k) by (apply sub_up, sub_refl).
    pose proof (bval_join U h Hhin (Ha h Hhs)) as (_ & _ & HU & _).
    pose proof (bval_join U' h Hhin (above_notin' h Hhs ltac:(lia))) as (_ & _ & HU' & _).
    destruct (node_children h Hhin) as [N1 N2].
    assert (Hsib : ∀ e, node e → e ≠ k → dep e = dep k → bval U' e = bval U e).
    { intros e He Hek Hde. apply bval_same; [done|]. intros Hs. apply Hek.
      apply sub_same_dep; try done; unfold node in *; lia. }
    unfold chk. fold h. rewrite !half_double, !half_succ_double.
    destruct Hkk as [E|E]; rewrite E in *; rewrite Hf, Hu.
    + rewrite (Hsib (2 * h + 1)) by (try done; try lia; rewrite dep_double, dep_succ_double; lia).
      rewrite (Hsib (2 * h + 1)) in HU' by (try done; try lia; rewrite dep_double, dep_succ_double; lia).
      rewrite Hu in HU'. rewrite Hf in HU.
      repeat case_z; simpl; try done; exfalso; lia.
    + rewrite (Hsib (2 * h)) by (try done; try lia; rewrite dep_double, dep_succ_double; lia).
      rewrite (Hsib (2 * h)) in HU' by (try done; try lia; rewrite dep_double, dep_succ_double; lia).
      rewrite Hu in HU'. rewrite Hf in HU.
      repeat case_z; simpl; try done; exfalso; lia.
Qed.
End change.
End BuddyTree.
