(* ===== verification/BuddyProofs.v ===== *)
(** * Correctness of the buddy allocator

    The state of a block is related to the set of its allocated nodes
    ([BuddyTree]): every field of every node and both counters of the block
    are functions of that set.  The operations are shown to preserve the
    relation and to change the set the way an allocator should. *)

From S2P Require Import Prelude Buddy BuddyTree.
Import BuddyAlloc BuddyTree.

Module BuddyProofs.

(** ** The concrete state of a block *)

(** Offset of the first page of node [k] in its block. *)
Definition off (k : Z) : Z := (k - 2 ^ dep k) * cnt k * PGSIZE.

(** Node [k] of the block whose nodes start at [base] and pages at [s0]. *)
Definition snode (base s0 k m u : Z) : MemNode :=
  mkMemNode (if k <? 512 then Some (base + 2 * k) else None)
    (if k <? 512 then Some (base + 2 * k + 1) else None)
    (if k =? 1 then None else Some (base + k `div` 2))
    (dep k) (s0 + off k) m (cnt k) u.

Definition base (i : nat) : Z := 1024 * Z.of_nat i.
Definition counters (x : Z → Z) : list Z := (λ d, u16 (x (Z.of_nat d))) <$> seq 0 10.

(** Block [i]: [mx] and [us] are the fields [maxFreePage] and [is_used] of its
    nodes, [f] and [x] its counters before truncation to 16 bits. *)
Record Blk (i : nat) (s0 : Z) (s : state) (lk : bool) (mx us : Z → Z) (f : Z) (x : Z → Z) : Prop := {
  Blk_nodes : ∀ k, node k → node_at (nodes_mem s) (base i + k) = snode (base i) s0 k (mx k) (us k);
  Blk_block : blocks s !! i = Some (mkBlockMem lk (Some (base i + 1))
                (mkBlocksInfo 512 (u16 f) (counters x))) }.

(** What an operation on block [i] leaves alone. *)
Record Frame (i : nat) (s s' : state) : Prop := {
  Frame_nodes : ∀ j, ¬ base i < j < base i + 1024 → nodes_mem s' !! j = nodes_mem s !! j;
  Frame_blocks : ∀ j, j ≠ i → blocks s' !! j = blocks s !! j;
  Frame_root : free_root s' = free_root s;
  Frame_sep : mem_separator s' = mem_separator s }.

#[global] Instance Frame_refl i : Reflexive (Frame i).
Proof. intros s. by constructor. Qed.
#[global] Instance Frame_trans i : Transitive (Frame i).
Proof.
  intros s1 s2 s3 [A1 A2 A3 A4] [B1 B2 B3 B4]. constructor.
  - intros j Hj. by rewrite B1, A1.
  - intros j Hj. by rewrite B2, A2.
  - by rewrite B3.
  - by rewrite B4.
Qed.

(** ** Page ranges of nodes *)

Lemma off_children k : 1 ≤ k < 512 →
  off (2 * k) = off k ∧ off (2 * k + 1) = off k + cnt (2 * k) * PGSIZE.
Proof.
  intros H. destruct (cnt_inner k H) as [E1 E2]. pose proof (dep_nonneg k). unfold off.
  rewrite dep_double, dep_succ_double, E2, E1 by lia.
  rewrite Z.pow_add_r by lia. unfold PGSIZE. lia.
Qed.
Lemma off_one : off 1 = 0.
Proof. done. Qed.

(** The pages of a node are pages of its ancestors. *)
Lemma off_sub k j : node k → node j → sub k j →
  off k ≤ off j ∧ off j + cnt j * PGSIZE ≤ off k + cnt k * PGSIZE.
Proof.
  intros Hk. revert k Hk. apply (node_ind (λ k, node j → sub k j →
    off k ≤ off j ∧ off j + cnt j * PGSIZE ≤ off k + cnt k * PGSIZE)).
  - intros k Hk Hj Hs. apply sub_leaf in Hs as <-; [lia|done|done].
  - intros k Hk IH1 IH2 Hj Hs. destruct (off_children k Hk) as [O1 O2].
    destruct (cnt_inner k Hk) as [E1 E2]. pose proof (cnt_pos (2 * k) ltac:(unfold node; lia)).
    unfold PGSIZE in *.
    destruct (sub_down _ _ Hs) as [<-|[Hs'|Hs']]; [lia| |].
    + specialize (IH1 Hj Hs'). lia.
    + specialize (IH2 Hj Hs'). lia.
Qed.

(** Nodes of which neither is below the other have disjoint pages. *)
Lemma off_disjoint j1 j2 : node j1 → node j2 → ¬ sub j1 j2 → ¬ sub j2 j1 →
  off j1 + cnt j1 * PGSIZE ≤ off j2 ∨ off j2 + cnt j2 * PGSIZE ≤ off j1.
Proof.
  intros H1 H2 N1 N2.
  assert (∀ k, node k → sub k j1 → sub k j2 →
    off j1 + cnt j1 * PGSIZE ≤ off j2 ∨ off j2 + cnt j2 * PGSIZE ≤ off j1) as Hk.
  { apply (node_ind (λ k, sub k j1 → sub k j2 → _)).
    - intros k Hk S1 S2. exfalso. apply N1. by rewrite <- (sub_leaf k j1 Hk H1 S1).
    - intros k Hk IH1 IH2 S1 S2. destruct (off_children k Hk) as [O1 O2].
      destruct (cnt_inner k Hk) as [E1 E2]. destruct (node_children k Hk) as [M1 M2].
      destruct (sub_down _ _ S1) as [<-|[S1'|S1']]; [tauto| |];
        destruct (sub_down _ _ S2) as [<-|[S2'|S2']]; [tauto|by apply IH1| |tauto| |by apply IH2].
      + pose proof (off_sub _ _ M1 H1 S1'). pose proof (off_sub _ _ M2 H2 S2'). lia.
      + pose proof (off_sub _ _ M2 H1 S1'). pose proof (off_sub _ _ M1 H2 S2'). lia. }
  unfold node in *. apply (Hk 1); [lia|apply sub_root; lia|apply sub_root; lia].
Qed.

Lemma off_bounds k : node k → 0 ≤ off k ∧ off k + cnt k * PGSIZE ≤ 2097152.
Proof.
  intros Hk. pose proof Hk as Hk'. unfold node in Hk'.
  destruct (off_sub 1 k) as [H1 H2]; [unfold node; lia|done|apply sub_root; lia|].
  change (off 1 + cnt 1 * PGSIZE) with 2097152 in H2. rewrite off_one in H1. lia.
Qed.

Section block.
Context (i : nat) (Hi : (i < CNT_MEM_BLOCKS)%nat) (s0 : Z) (Hs0 : 0 ≤ s0) (Hs1 : s0 + 2097152 < 2 ^ 64).
#[local] Abbreviation B := (base i).
#[local] Abbreviation BLK := (Blk i s0).

Lemma node_range k : node k → ((0 <=? B + k) && (B + k <? NNODES)) = true.
Proof.
  intros Hk. unfold node in Hk. unfold base, CNT_MEM_BLOCKS in *.
  change NNODES with 63488. apply andb_true_intro. lia.
Qed.

Lemma get_node_ok s lk mx us f x k : BLK s lk mx us f x → node k →
  get_node (Some (B + k)) s = Ok (snode B s0 k (mx k) (us k), s).
Proof.
  intros [HN _] Hk. unfold get_node. rewrite node_range by done. by rewrite HN.
Qed.

Lemma put_node_ok s lk mx us f x k m u : BLK s lk mx us f x → node k →
  ∃ s', put_node (Some (B + k)) (snode B s0 k m u) s = Ok (tt, s') ∧ Frame i s s' ∧
    BLK s' lk (fupd mx k m) (fupd us k u) f x.
Proof.
  intros [HN HB] Hk. unfold put_node. rewrite node_range by done.
  eexists. split; [done|]. split.
  - constructor; simpl; try done. intros j Hj. apply lookup_insert_ne.
    unfold node in Hk. lia.
  - constructor; simpl; [|done]. intros j Hj. unfold node_at.
    destruct (decide (j = k)) as [->|Hne].
    + by rewrite lookup_insert_eq, !fupd_eq.
    + rewrite lookup_insert_ne by lia. rewrite !fupd_ne by done. by apply HN.
Qed.

(** Functions that agree on the nodes describe the same block. *)
Lemma Blk_ext s lk mx mx' us us' f f' x x' : BLK s lk mx us f x →
  (∀ k, node k → mx k = mx' k) → (∀ k, node k → us k = us' k) → u16 f = u16 f' →
  (∀ d, 0 ≤ d ≤ 9 → u16 (x d) = u16 (x' d)) → BLK s lk mx' us' f' x'.
Proof.
  intros [HN HB] Hm Hu Hf Hx. constructor.
  - intros k Hk. by rewrite HN, Hm, Hu.
  - assert (counters x = counters x') as <-; [|by rewrite HB, Hf].
    apply list_fmap_ext. intros n d Hd. apply lookup_seq in Hd. apply Hx. lia.
Qed.

Lemma set_max_ok s lk mx us f x k v : BLK s lk mx us f x → node k →
  ∃ s', mod_node (Some (B + k)) (set_max v) s = Ok (tt, s') ∧ Frame i s s' ∧
    BLK s' lk (fupd mx k v) us f x.
Proof.
  intros H Hk. unfold mod_node. prog_step (get_node_ok _ _ _ _ _ _ _ H Hk).
  destruct (put_node_ok _ _ _ _ _ _ k v (us k) H Hk) as (s' & E & F & H').
  exists s'. split; [exact E|]. split; [done|].
  eapply Blk_ext; [exact H'|..]; try done. intros j Hj.
  destruct (decide (j = k)) as [->|]; [by rewrite fupd_eq|by rewrite fupd_ne].
Qed.

Lemma set_used_ok s lk mx us f x k v : BLK s lk mx us f x → node k →
  ∃ s', mod_node (Some (B + k)) (set_used v) s = Ok (tt, s') ∧ Frame i s s' ∧
    BLK s' lk mx (fupd us k v) f x.
Proof.
  intros H Hk. unfold mod_node. prog_step (get_node_ok _ _ _ _ _ _ _ H Hk).
  destruct (put_node_ok _ _ _ _ _ _ k (mx k) v H Hk) as (s' & E & F & H').
  exists s'. split; [exact E|]. split; [done|].
  eapply Blk_ext; [exact H'|..]; try done. intros j Hj.
  destruct (decide (j = k)) as [->|]; [by rewrite fupd_eq|by rewrite fupd_ne].
Qed.

Lemma mod_block_ok s bl g : blocks s !! i = Some bl →
  ∃ s', mod_block i g s = Ok (tt, s') ∧ Frame i s s' ∧ nodes_mem s' = nodes_mem s ∧
    blocks s' !! i = Some (g bl).
Proof.
  intros H. unfold mod_block. rewrite H. eexists. split; [done|]. split.
  - constructor; simpl; try done. intros j Hj. by apply list_lookup_insert_ne.
  - split; [done|]. simpl. apply list_lookup_insert_eq. by apply lookup_lt_Some in H.
Qed.

Lemma u16_add x y : u16 (u16 x + y) = u16 (x + y).
Proof. unfold u16. by rewrite Z.add_mod_idemp_l. Qed.

Lemma counters_alter x d v : 0 ≤ d ≤ 9 →
  alter (λ c, u16 (c + v)) (Z.to_nat d) (counters x) = counters (fupd x d (x d + v)).
Proof.
  intros Hd. apply list_eq. intros n. rewrite list_lookup_alter.
  unfold counters. rewrite !list_lookup_fmap.
  destruct (decide (n < 10)%nat) as [Hn|Hn].
  - rewrite !lookup_seq_lt by lia. simpl. case_decide as E; simpl.
    + subst n. rewrite Z2Nat.id by lia. by rewrite fupd_eq, u16_add.
    + rewrite fupd_ne by lia. done.
  - case_decide; [lia|]. by rewrite !lookup_seq_ge by lia.
Qed.

Lemma add_size_ok s lk mx us f x d v : BLK s lk mx us f x → 0 ≤ d ≤ 9 →
  ∃ s', add_size i d v s = Ok (tt, s') ∧ Frame i s s' ∧ BLK s' lk mx us f (fupd x d (x d + v)).
Proof.
  intros [HN HB] Hd.
  destruct (mod_block_ok s _ (set_size (Z.to_nat d) (λ c, u16 (c + v))) HB) as (s' & E & F & En & Eb).
  exists s'. unfold add_size. rewrite (proj2 (Z.leb_le 0 d)), (proj2 (Z.ltb_lt d STANDART_DEPTH)) by (unfold STANDART_DEPTH; lia).
  split; [exact E|]. split; [done|]. constructor; [by rewrite En|].
  rewrite Eb. unfold set_size. simpl. by rewrite counters_alter.
Qed.

Lemma set_free_ok s lk mx us f x v : BLK s lk mx us f x →
  ∃ s', mod_block i (set_free (λ c, u16 (c + v))) s = Ok (tt, s') ∧ Frame i s s' ∧
    BLK s' lk mx us (f + v) x.
Proof.
  intros [HN HB].
  destruct (mod_block_ok s _ (set_free (λ c, u16 (c + v))) HB) as (s' & E & F & En & Eb).
  exists s'. split; [exact E|]. split; [done|]. constructor; [by rewrite En|].
  rewrite Eb. unfold set_free. simpl. by rewrite u16_add.
Qed.

Lemma check_ok s lk mx us f x k : BLK s lk mx us f x → node k →
  check_node_block_counting (Some (B + k)) s = Ok (chk mx k, s).
Proof.
  intros H Hk. unfold check_node_block_counting.
  prog_step (get_node_ok _ _ _ _ _ _ _ H Hk). cbn [snode maxFreePage cnt_page depth head].
  unfold chk. destruct (Z.eqb_spec (mx k) (cnt k)); [|done].
  unfold node in Hk. destruct (Z.eqb_spec k 1) as [->|Hne]; [done|].
  destruct (Z.eqb_spec (dep k) 0) as [E|E]; [apply dep_zero in E; lia|].
  pose proof (half_cases k ltac:(lia)).
  prog_step (get_node_ok _ _ _ _ _ _ (k `div` 2) H ltac:(unfold node; lia)). simpl.
  by destruct (_ =? _).
Qed.

Lemma acquire_ok s mx us f x : BLK s false mx us f x →
  ∃ s', acquire i s = Ok (tt, s') ∧ Frame i s s' ∧ BLK s' true mx us f x.
Proof.
  intros [HN HB]. unfold acquire, get_block, mbind, prog_bind. rewrite HB. simpl.
  destruct (mod_block_ok s _ (set_lock true) HB) as (s' & E & F & En & Eb).
  exists s'. split; [exact E|]. split; [done|]. constructor; [by rewrite En|]. by rewrite Eb.
Qed.
Lemma release_ok s mx us f x : BLK s true mx us f x →
  ∃ s', release i s = Ok (tt, s') ∧ Frame i s s' ∧ BLK s' false mx us f x.
Proof.
  intros [HN HB]. unfold release, get_block, mbind, prog_bind. rewrite HB. simpl.
  destruct (mod_block_ok s _ (set_lock false) HB) as (s' & E & F & En & Eb).
  exists s'. split; [exact E|]. split; [done|]. constructor; [by rewrite En|]. by rewrite Eb.
Qed.
Lemma get_block_ok s lk mx us f x : BLK s lk mx us f x →
  get_block i s = Ok (mkBlockMem lk (Some (B + 1)) (mkBlocksInfo 512 (u16 f) (counters x)), s).
Proof. intros [HN HB]. unfold get_block. by rewrite HB. Qed.

Lemma snode_head k m u : 2 ≤ k → head (snode B s0 k m u) = Some (B + k `div` 2).
Proof. intros. simpl. destruct (Z.eqb_spec k 1); [lia|done]. Qed.
Lemma snode_children k m u : k < 512 →
  leftChild (snode B s0 k m u) = Some (B + 2 * k) ∧
  rightChild (snode B s0 k m u) = Some (B + 2 * k + 1).
Proof. intros. simpl. destruct (Z.ltb_spec k 512); [done|lia]. Qed.

(** The counter updates of [update_node_free_cnt] on a pair of brothers. *)
Lemma count_pair_ok (g : Z → Z) s lk mx us f x k :
  (∀ a b, g a + g b = g (a + b)) → BLK s lk mx us f x → node k →
  ∃ s', (match (if k =? 1 then None else Some (B + k `div` 2)) with
         | Some _ =>
             h ← get_node (if k =? 1 then None else Some (B + k `div` 2));
             c1 ← check_node_block_counting (leftChild h);
             add_size i (dep k) (g c1);;
             c2 ← check_node_block_counting (rightChild h);
             add_size i (dep k) (g c2)
         | None =>
             c ← check_node_block_counting (Some (B + k));
             add_size i (dep k) (g c)
         end) s = Ok (tt, s') ∧ Frame i s s' ∧
    BLK s' lk mx us f (fupd x (dep k) (x (dep k) + g (pair mx k))).
Proof.
  intros Hg H Hk. pose proof (dep_node k Hk) as Hd. unfold node in Hk. unfold pair.
  destruct (Z.eqb_spec k 1) as [->|Hne].
  { prog_step (check_ok _ _ _ _ _ _ 1 H ltac:(unfold node; lia)). by apply add_size_ok. }
  pose proof (half_cases k ltac:(lia)) as [_ Hh]. set (h := k `div` 2) in *.
  assert (h < 512) by (unfold h; apply Z.div_lt_upper_bound; lia).
  prog_step (get_node_ok _ _ _ _ _ _ h H ltac:(unfold node; lia)).
  destruct (snode_children h (mx h) (us h)) as [-> ->]; [done|].
  prog_step (check_ok _ _ _ _ _ _ (2 * h) H ltac:(unfold node; lia)).
  destruct (add_size_ok _ _ _ _ _ _ (dep k) (g (chk mx (2 * h))) H Hd) as (s1 & E1 & F1 & H1).
  prog_step E1. rewrite <- (Z.add_assoc B).
  prog_step (check_ok _ _ _ _ _ _ (2 * h + 1) H1 ltac:(unfold node; lia)).
  destruct (add_size_ok _ _ _ _ _ _ (dep k) (g (chk mx (2 * h + 1))) H1 Hd) as (s2 & E2 & F2 & H2).
  exists s2. split; [exact E2|]. split; [by etrans|].
  eapply Blk_ext; [exact H2|..]; try done. intros d Hdd. rewrite <- Hg.
  destruct (decide (d = dep k)) as [->|]; [rewrite !fupd_eq; f_equal; lia|by rewrite !fupd_ne].
Qed.

(** The counters after [update_node_free_cnt] from node [k]. *)
Definition recount (mx mx' : Z → Z) (k : Z) (x : Z → Z) : Z → Z := λ d,
  if (0 <=? d) && (d <=? dep k) then x d - pair mx (anc k d) + pair mx' (anc k d) else x d.

Lemma update_max_ok s lk mx us f x k : BLK s lk mx us f x → 1 ≤ k < 512 →
  ∃ s', (l ← get_node (Some (B + 2 * k));
         r ← get_node (Some (B + 2 * k + 1));
         if maxFreePage l + maxFreePage r =? cnt k
         then mod_node (Some (B + k)) (set_max (cnt k))
         else mod_node (Some (B + k)) (set_max
           (if maxFreePage l <? maxFreePage r then maxFreePage r else maxFreePage l))) s = Ok (tt, s') ∧
    Frame i s s' ∧ BLK s' lk (fupd mx k (join (cnt k) (mx (2 * k)) (mx (2 * k + 1)))) us f x.
Proof.
  intros H Hk. assert (Nk : node k) by (unfold node; lia). unfold join.
  prog_step (get_node_ok _ _ _ _ _ _ (2 * k) H ltac:(unfold node; lia)).
  rewrite <- Z.add_assoc.
  prog_step (get_node_ok _ _ _ _ _ _ (2 * k + 1) H ltac:(unfold node; lia)).
  cbn [snode maxFreePage]. destruct (_ =? _); by eapply set_max_ok.
Qed.

Lemma update_ok fuel : ∀ k s lk mx us f x,
  1 ≤ k < 512 → dep k < Z.of_nat fuel → BLK s lk mx us f x →
  ∃ s', update_node_free_cnt fuel (Some (B + k)) i s = Ok (tt, s') ∧ Frame i s s' ∧
    BLK s' lk (upath (Z.to_nat (dep k)) mx k) us f (recount mx (upath (Z.to_nat (dep k)) mx k) k x).
Proof.
  induction fuel as [|fuel IH]; intros k s lk mx us f x Hk Hf H.
  { pose proof (dep_nonneg k). lia. }
  assert (Nk : node k) by (unfold node; lia). pose proof (dep_inner k Hk) as Hdk.
  simpl update_node_free_cnt. prog_step (get_node_ok _ _ _ _ _ _ k H Nk).
  destruct (snode_children k (mx k) (us k)) as [-> ->]; [lia|]. cbn [snode depth cnt_page head].
  destruct (Z.eqb_spec (dep k) (STANDART_DEPTH - 1)) as [E|_]; [unfold STANDART_DEPTH in E; lia|].
  cbn [negb].
  destruct (count_pair_ok Z.opp _ _ _ _ _ _ k ltac:(intros; lia) H Nk) as (s1 & E1 & F1 & H1).
  prog_step E1.
  destruct (update_max_ok _ _ _ _ _ _ k H1 Hk) as (s2 & E2 & F2 & H2).
  prog_step E2. set (mx1 := fupd mx k _) in *.
  destruct (Z.eqb_spec k 1) as [->|Hne].
  - destruct (count_pair_ok (λ z, z) _ _ _ _ _ _ 1 ltac:(done) H2 Nk) as (s3 & E3 & F3 & H3).
    exists s3. split; [exact E3|]. split; [by do 2 (etrans; [|done])|].
    eapply Blk_ext; [exact H3|..]; try done. intros d Hd. unfold recount. rewrite dep_one.
    destruct (decide (d = 0)) as [->|].
    + rewrite !fupd_eq. cbn. by f_equal.
    + rewrite !fupd_ne by done. destruct (Z.leb_spec d 0); [lia|]. by rewrite andb_false_r.
  - pose proof (half_cases k ltac:(lia)) as [_ Hh].
    pose proof (dep_half k ltac:(lia)) as Hdh.
    destruct (IH (k `div` 2) s2 _ _ _ _ _ ltac:(lia) ltac:(lia) H2) as (s3 & E3 & F3 & H3).
    assert (Eu : upath (Z.to_nat (dep (k `div` 2))) mx1 (k `div` 2) = upath (Z.to_nat (dep k)) mx k).
    { rewrite Hdh. replace (Z.to_nat (dep k)) with (S (Z.to_nat (dep k - 1))).
      - simpl. destruct (Z.ltb_spec k 512); [done|lia].
      - pose proof (dep_nonneg (k `div` 2)). lia. }
    rewrite Eu in H3. prog_step E3.
    destruct (count_pair_ok (λ z, z) _ _ _ _ _ _ k ltac:(done) H3 Nk) as (s4 & E4 & F4 & H4).
    destruct (Z.eqb_spec k 1); [lia|].
    exists s4. split; [exact E4|]. split; [by do 3 (etrans; [|done])|].
    eapply Blk_ext; [exact H4|..]; try done. intros d Hd. unfold recount. rewrite Hdh.
    destruct (decide (d = dep k)) as [->|Hdn].
    + rewrite !fupd_eq. rewrite anc_self.
      destruct (Z.leb_spec (dep k) (dep k - 1)); [lia|]. rewrite andb_false_r, ?fupd_eq.
      destruct (Z.leb_spec (dep k) (dep k)); [|lia]. destruct (Z.leb_spec 0 (dep k)); [|lia].
      by f_equal.
    + rewrite !fupd_ne by done. destruct (Z.leb_spec 0 d); [|lia]. cbn [andb].
      destruct (Z.leb_spec d (dep k - 1)), (Z.leb_spec d (dep k)); try lia.
      destruct (anc_dep k d) as [A1 A2]; [lia|lia|].
      rewrite anc_half by lia. unfold mx1. rewrite pair_fupd by lia. done.
Qed.

(** [update_node_free_cnt] called on the parent of a node whose value has just
    been changed recomputes the values of all its ancestors. *)
Lemma climb_ok s lk W mx us f x k : BLK s lk mx us f x → node k →
  (∀ j, 1 ≤ j → sub j k → j ≠ k → j ∉ W) →
  (∀ j, node j → (sub j k → j = k) → mx j = bval W j) →
  ∃ s', update_node_free_cnt tree_fuel (if k =? 1 then None else Some (B + k `div` 2)) i s = Ok (tt, s') ∧
    Frame i s s' ∧
    BLK s' lk (bval W) us f (λ d, if d <? dep k
      then x d - pair mx (anc k d) + pair (bval W) (anc k d) else x d).
Proof.
  intros H Hk Ha Hm. pose proof Hk as Hk'. unfold node in Hk'.
  destruct (Z.eqb_spec k 1) as [->|Hne].
  - exists s. split; [done|]. split; [done|]. eapply Blk_ext; [exact H|..]; try done.
    + intros j Hj. apply Hm; [done|]. intros Hs%sub_le; [|lia]. unfold node in Hj. lia.
    + intros d Hd. rewrite dep_one. destruct (Z.ltb_spec d 0); [lia|done].
  - pose proof (half_cases k ltac:(lia)) as [_ Hh]. pose proof (dep_half k ltac:(lia)) as Hdh.
    assert (k `div` 2 < 512) by (apply Z.div_lt_upper_bound; lia).
    pose proof (dep_node k Hk) as Hdk.
    destruct (update_ok tree_fuel (k `div` 2) s lk mx us f x ltac:(lia)) as (s' & E & F & H');
      [unfold tree_fuel; lia|done|].
    exists s'. split; [exact E|]. split; [done|].
    assert (Hu : ∀ j, node j → upath (Z.to_nat (dep (k `div` 2))) mx (k `div` 2) j = bval W j).
    { apply upath_bval; [done|lia| |].
      - intros j Hj Hs. apply Ha; [done|by apply sub_up|]. apply sub_le in Hs; lia.
      - intros j Hj Hn. apply Hm; [done|]. intros [?|?]%sub_inv; [done|tauto]. }
    eapply Blk_ext; [exact H'|done|done|done|]. intros d Hd. unfold recount. rewrite Hdh in Hu |- *.
    destruct (Z.leb_spec 0 d); [|lia]. cbn [andb].
    destruct (Z.leb_spec d (dep k - 1)), (Z.ltb_spec d (dep k)); try lia.
    rewrite anc_half by lia. do 2 f_equal. apply pair_ext; [|done].
    destruct (anc_dep k d); [lia|lia|]. pose proof (anc_sub k d ltac:(lia)) as Hs.
    apply sub_le in Hs; [|lia]. unfold node. lia.
Qed.

(** ** The block represents the set of its allocated nodes *)

Definition usedz (U : gset Z) (k : Z) : Z := b2z (bool_decide (k ∈ U)).
Definition Rep (s : state) (lk : bool) (U : gset Z) : Prop :=
  wf U ∧ BLK s lk (bval U) (usedz U) (fpages U) (nfree U).

Lemma take_ok s U k : Rep s true U → avail U k →
  ∃ s', (c ← check_node_block_counting (Some (B + k));
         (if negb (c =? 0) then add_size i (dep k) (-1) else add_size i (dep k) 1);;
         mod_block i (set_free (λ x, u16 (x - bval U k)));;
         mod_node (Some (B + k)) (set_max 0);;
         mod_node (Some (B + k)) (set_used 1);;
         update_node_free_cnt tree_fuel (if k =? 1 then None else Some (B + k `div` 2)) i;;
         mret (s0 + off k)) s = Ok (s0 + off k, s') ∧
    Frame i s s' ∧ Rep s' true ({[k]} ∪ U).
Proof.
  intros [Hwf H] Hav. pose proof Hav as (Hk & Hf & Ha).
  pose proof (dep_node k Hk) as Hdk. set (U' := {[k]} ∪ U).
  prog_step (check_ok _ _ _ _ _ _ k H Hk).
  set (v := if chk (bval U) k =? 0 then 1 else -1).
  destruct (add_size_ok _ _ _ _ _ _ (dep k) v H Hdk) as (s1 & E1 & F1 & H1).
  erewrite bind_Ok; last first.
  { instantiate (1 := s1). instantiate (1 := tt). unfold v in E1. by destruct (_ =? 0). }
  destruct (set_free_ok _ _ _ _ _ _ (- bval U k) H1) as (s2 & E2 & F2 & H2).
  prog_step E2.
  destruct (set_max_ok _ _ _ _ _ _ k 0 H2 Hk) as (s3 & E3 & F3 & H3). prog_step E3.
  destruct (set_used_ok _ _ _ _ _ _ k 1 H3 Hk) as (s4 & E4 & F4 & H4). prog_step E4.
  destruct (climb_ok _ _ U' _ _ _ _ k H4 Hk) as (s5 & E5 & F5 & H5).
  { intros j Hj Hs Hn. by apply above_notin'. }
  { intros j Hj Hs. destruct (decide (j = k)) as [->|Hn].
    - rewrite fupd_eq, bval_used; [done|apply elem_insert_self].
    - rewrite fupd_ne by done. symmetry. apply bval_same; [done|]. tauto. }
  prog_step E5. exists s5. split; [done|]. split; [by do 4 (etrans; [|done])|].
  split; [by apply wf_insert|]. eapply Blk_ext; [exact H5|done|..].
  - intros j Hj. unfold usedz. destruct (decide (j = k)) as [->|].
    + rewrite fupd_eq, bool_decide_eq_true_2; [done|apply elem_insert_self].
    + rewrite fupd_ne by done. do 2 f_equal. apply bool_decide_ext. by apply elem_insert_ne.
  - unfold U'. by rewrite fpages_insert, Hf.
  - intros d Hd. f_equal. destruct (Z.ltb_spec d (dep k)).
    + destruct (anc_dep k d) as [A1 A2]; [unfold node in Hk; lia|lia|].
      rewrite fupd_ne, pair_fupd by lia. unfold U'. rewrite nfree_above by (done || lia). done.
    + destruct (decide (d = dep k)) as [->|].
      * rewrite fupd_eq. unfold U'. rewrite nfree_above, anc_self by (done || lia).
        pose proof (pair_self U k Hwf Hav) as Hp. unfold v. lia.
      * rewrite fupd_ne by done. unfold U'. rewrite nfree_below by (done || lia). done.
Qed.

Lemma drop_ok s U k : Rep s true U → k ∈ U →
  ∃ s', (mod_node (Some (B + k)) (set_used 0);;
         mod_node (Some (B + k)) (set_max (cnt k));;
         mod_block i (set_free (λ x, u16 (x + cnt k)));;
         update_node_free_cnt tree_fuel (if k =? 1 then None else Some (B + k `div` 2)) i;;
         c ← check_node_block_counting (Some (B + k));
         (if negb (c =? 0) then add_size i (dep k) 1 else add_size i (dep k) (-1))) s = Ok (tt, s') ∧
    Frame i s s' ∧ Rep s' true (U ∖ {[k]}).
Proof.
  intros [Hwf H] Hin. pose proof (proj1 Hwf k Hin) as Hk.
  destruct (wf_release U k Hwf Hin) as (Hwf0 & Hav & EU). set (U0 := U ∖ {[k]}) in *.
  pose proof (dep_node k Hk) as Hdk. pose proof Hav as (_ & Hf & Ha).
  destruct (set_used_ok _ _ _ _ _ _ k 0 H Hk) as (s1 & E1 & F1 & H1). prog_step E1.
  destruct (set_max_ok _ _ _ _ _ _ k (cnt k) H1 Hk) as (s2 & E2 & F2 & H2). prog_step E2.
  destruct (set_free_ok _ _ _ _ _ _ (cnt k) H2) as (s3 & E3 & F3 & H3). prog_step E3.
  destruct (climb_ok _ _ U0 _ _ _ _ k H3 Hk) as (s4 & E4 & F4 & H4).
  { intros j Hj Hs Hn. by apply Ha. }
  { intros j Hj Hs. destruct (decide (j = k)) as [->|Hn].
    - by rewrite fupd_eq, Hf.
    - rewrite fupd_ne by done. rewrite <- EU. apply bval_same; [done|]. tauto. }
  prog_step E4. prog_step (check_ok _ _ _ _ _ _ k H4 Hk).
  set (v := if chk (bval U0) k =? 0 then 1 else -1).
  destruct (add_size_ok _ _ _ _ _ _ (dep k) (- v) H4 Hdk) as (s5 & E5 & F5 & H5).
  exists s5. split; [unfold v in E5; by destruct (_ =? 0)|]. split; [by do 4 (etrans; [|done])|].
  split; [done|]. eapply Blk_ext; [exact H5|done|..].
  - intros j Hj. unfold usedz. destruct (decide (j = k)) as [->|].
    + rewrite fupd_eq, bool_decide_eq_false_2; [done|apply elem_remove_self].
    + rewrite fupd_ne by done. do 2 f_equal. apply bool_decide_ext. by apply elem_remove_ne.
  - rewrite <- EU at 1. rewrite fpages_insert by done. f_equal. lia.
  - intros d Hd. f_equal. destruct (decide (d = dep k)) as [->|Hne].
    + rewrite fupd_eq. destruct (Z.ltb_spec (dep k) (dep k)); [lia|].
      rewrite <- EU at 1. rewrite nfree_above, anc_self by (done || lia).
      pose proof (pair_self U0 k Hwf0 Hav) as Hp. unfold v. lia.
    + rewrite fupd_ne by done. destruct (Z.ltb_spec d (dep k)).
      * destruct (anc_dep k d) as [A1 A2]; [unfold node in Hk; lia|lia|].
        rewrite pair_fupd by lia. rewrite <- EU at 1 2. rewrite nfree_above by (done || lia). lia.
      * rewrite <- EU at 1. rewrite nfree_below by (done || lia). done.
Qed.

(** ** Allocation in a block *)

Lemma pow2_lt_half a b : 0 ≤ a → 0 ≤ b → 2 ^ a < 2 ^ b → 2 * 2 ^ a ≤ 2 ^ b.
Proof.
  intros Ha Hb H. rewrite <- Z.pow_succ_r by done. apply Z.pow_le_mono_r; [lia|].
  apply Z.pow_lt_mono_r_iff in H; lia.
Qed.

Lemma alloc_in_node_ok fuel : ∀ k s U e,
  Rep s true U → node k → 0 ≤ e → 2 ^ e ≤ bval U k →
  (∀ j, sub j k → j ∉ U) → 9 - dep k < Z.of_nat fuel →
  ∃ k' s', alloc_in_node fuel (Some (B + k)) (2 ^ e) i s = Ok (s0 + off k', s') ∧
    Frame i s s' ∧ Rep s' true ({[k']} ∪ U) ∧ avail U k' ∧ cnt k' = 2 ^ e.
Proof.
  induction fuel as [|fuel IH]; intros k s U e HR Hk He Hv Ha Hf.
  { pose proof (dep_node k Hk). lia. }
  pose proof HR as [Hwf H]. pose proof (Z.pow_pos_nonneg 2 e).
  pose proof (bval_bounds U k Hk) as Hb.
  simpl alloc_in_node. prog_step (get_node_ok _ _ _ _ _ _ k H Hk).
  cbn [snode maxFreePage cnt_page depth head start_ptr].
  destruct (Z.eqb_spec (bval U k) (2 ^ e)) as [Eb|Eb], (Z.eqb_spec (cnt k) (2 ^ e)) as [Ec|Ec];
    cbn [andb]; try lia.
  { assert (Hav : avail U k) by (repeat split; auto; lia || apply Hk).
    destruct (take_ok s U k HR Hav) as (s' & E & F & HR').
    exists k, s'. rewrite Eb in E. rewrite Eb. by split_and!. }
  all: assert (Hin : 1 ≤ k < 512) by
    (pose proof Hk as Hk'; unfold node in Hk'; destruct (decide (k < 512)); [lia|];
     rewrite cnt_leaf in * by lia; lia).
  all: destruct (bval_join U k Hin (Ha k (sub_refl k))) as (_ & _ & Jf & Jm).
  all: destruct (cnt_inner k Hin) as [Cc _]; pose proof (dep_inner k Hin).
  all: assert (2 * 2 ^ e ≤ cnt k) by (unfold cnt in *; apply pow2_lt_half; lia).
  all: assert (Hl : 2 ^ e ≤ bval U (2 * k) ∨ 2 ^ e ≤ bval U (2 * k + 1)) by
    (destruct (decide (bval U k = cnt k)) as [Ef|Ef];
     [apply Jf in Ef as [-> _]; left; lia|rewrite Jm in Hv by done; lia]).
  all: destruct (node_children k Hin) as [N1 N2].
  all: destruct (snode_children k (bval U k) (usedz U k)) as [-> ->]; [lia|].
  all: prog_step (get_node_ok _ _ _ _ _ _ (2 * k) H N1); cbn [snode maxFreePage].
  all: assert (Hch : ∀ c, (c = 2 * k ∨ c = 2 * k + 1) → 2 ^ e ≤ bval U c → ∀ j, sub j c → j ∉ U) by
    (intros c Hc Hvc j [->|Hs]%sub_inv;
     [intros Hu; rewrite bval_used in Hvc by done; lia|];
     apply Ha; destruct Hc as [->| ->]; by rewrite ?half_double, ?half_succ_double in Hs).
  all: destruct (Z.leb_spec (2 ^ e) (bval U (2 * k))).
  all: rewrite <- ?(Z.add_assoc B).
  all: apply IH; [done|done|done|lia|apply Hch; lia|rewrite ?dep_double, ?dep_succ_double; lia].
Qed.

(** ** Releasing in a block *)

(** The block of [U] below [k] that starts at offset [o], if any. *)
Definition starts (U : gset Z) (k o j : Z) : Prop := j ∈ U ∧ sub k j ∧ off j = o.

Lemma mid_ok k m u : 1 ≤ k < 512 →
  u64 (start_ptr (snode B s0 k m u) + (cnt_page (snode B s0 k m u) * PGSIZE) `quot` 2) = s0 + off (2 * k + 1).
Proof.
  intros Hk. cbn [snode start_ptr cnt_page]. destruct (off_children k Hk) as [O1 O2].
  destruct (cnt_inner k Hk) as [E1 _]. destruct (node_children k Hk) as [_ N2].
  pose proof (off_bounds _ N2). pose proof (cnt_pos _ N2).
  rewrite O2, E1. replace (2 * cnt (2 * k) * PGSIZE) with (cnt (2 * k) * PGSIZE * 2) by lia.
  rewrite Z.quot_mul by lia. rewrite O2 in *. unfold PGSIZE in *. unfold u64.
  rewrite Z.mod_small; lia.
Qed.

Lemma free_in_node_miss fuel : ∀ k s lk U o,
  Rep s lk U → node k → off k ≤ o < off k + cnt k * PGSIZE →
  (∀ j, ¬ starts U k o j) → 9 - dep k < Z.of_nat fuel →
  free_in_node fuel (Some (B + k)) (s0 + o) i s = Ok (tt, s).
Proof.
  induction fuel as [|fuel IH]; intros k s lk U o HR Hk Ho Hn Hf.
  { pose proof (dep_node k Hk). lia. }
  pose proof HR as [Hwf H].
  simpl free_in_node. prog_step (get_node_ok _ _ _ _ _ _ k H Hk).
  assert ((start_ptr (snode B s0 k (bval U k) (usedz U k)) =? s0 + o) &&
    negb (is_used (snode B s0 k (bval U k) (usedz U k)) =? 0) = false) as ->.
  { cbn [snode start_ptr is_used]. destruct (Z.eqb_spec (s0 + off k) (s0 + o)); [|done].
    unfold usedz. case_bool_decide; [|done]. exfalso. apply (Hn k).
    split; [done|]. split; [apply sub_refl|lia]. }
  prog_run. destruct (decide (k < 512)) as [Hlt|Hge].
  - assert (Hin : 1 ≤ k < 512) by (unfold node in Hk; lia).
    rewrite mid_ok by done. destruct (snode_children k (bval U k) (usedz U k) Hlt) as [-> ->].
    destruct (off_children k Hin) as [O1 O2]. destruct (cnt_inner k Hin) as [E1 E2].
    destruct (node_children k Hin) as [N1 N2]. unfold PGSIZE in *.
    destruct (Z.leb_spec (s0 + off (2 * k + 1)) (s0 + o)).
    + rewrite <- Z.add_assoc. apply (IH _ _ lk U); auto; try lia.
      * intros j (J1 & J2 & J3). apply (Hn j). repeat split; auto.
        eapply sub_trans; [|exact J2]. apply sub_children.
      * rewrite dep_succ_double; lia.
    + apply (IH _ _ lk U); auto; try lia.
      * intros j (J1 & J2 & J3). apply (Hn j). repeat split; auto.
        eapply sub_trans; [|exact J2]. apply sub_children.
      * rewrite dep_double; lia.
  - cbn [snode leftChild]. destruct (Z.ltb_spec k 512); [lia|done].
Qed.

Lemma free_in_node_hit fuel : ∀ k s U j,
  Rep s true U → node k → j ∈ U → sub k j → 9 - dep k < Z.of_nat fuel →
  ∃ s', free_in_node fuel (Some (B + k)) (s0 + off j) i s = Ok (tt, s') ∧
    Frame i s s' ∧ Rep s' true (U ∖ {[j]}).
Proof.
  induction fuel as [|fuel IH]; intros k s U j HR Hk Hj Hs Hf.
  { pose proof (dep_node k Hk). lia. }
  pose proof HR as [Hwf H]. pose proof (proj1 Hwf j Hj) as Nj.
  pose proof (off_sub k j Hk Nj Hs) as Hr. pose proof (cnt_pos j Nj).
  destruct (decide (k = j)) as [->|Hne].
  - (* the node itself is released; the walk below it changes nothing *)
    destruct (drop_ok s U j HR Hj) as (s1 & E1 & F1 & HR1).
    assert (Hmiss : free_in_node (S fuel) (Some (B + j)) (s0 + off j) i s1 = Ok (tt, s1)).
    { apply (free_in_node_miss _ _ _ true (U ∖ {[j]})); auto; [unfold PGSIZE; lia|].
      intros x (X1 & X2 & X3). apply elem_remove_sub in X1 as [X1 X4].
      apply X4. symmetry. by apply (proj2 Hwf). }
    exists s1. split; [|done].
    simpl free_in_node in Hmiss |- *.
    rewrite (bind_Ok _ _ _ _ _ (get_node_ok _ _ _ _ _ _ j (proj2 HR1) Hk)) in Hmiss.
    prog_step (get_node_ok _ _ _ _ _ _ j H Hk).
    cbn [snode start_ptr is_used depth cnt_page head leftChild rightChild] in Hmiss |- *.
    unfold usedz in Hmiss |- *. rewrite Z.eqb_refl in Hmiss |- *.
    rewrite (bool_decide_eq_false_2 _ (elem_remove_self U j)) in Hmiss.
    rewrite (bool_decide_eq_true_2 _ Hj).
    cbn [b2z negb andb Z.eqb] in Hmiss |- *. rewrite (bind_Ok skip _ _ _ _ eq_refl) in Hmiss.
    prog_step E1. exact Hmiss.
  - assert (Hku : k ∉ U) by (intros Hku; apply Hne, (proj2 Hwf); auto).
    simpl free_in_node. prog_step (get_node_ok _ _ _ _ _ _ k H Hk).
    assert (negb (is_used (snode B s0 k (bval U k) (usedz U k)) =? 0) = false) as ->.
    { cbn [snode is_used]. unfold usedz. by rewrite bool_decide_eq_false_2. }
    rewrite andb_false_r. prog_run.
    assert (Hin : 1 ≤ k < 512).
    { unfold node in Hk. destruct (decide (k < 512)); [lia|].
      exfalso. apply Hne. apply sub_leaf; [lia|done|done]. }
    rewrite mid_ok by done.
    destruct (snode_children k (bval U k) (usedz U k)) as [-> ->]; [lia|].
    destruct (off_children k Hin) as [O1 O2]. destruct (cnt_inner k Hin) as [E1 E2].
    destruct (node_children k Hin) as [N1 N2]. unfold PGSIZE in *.
    destruct (sub_down _ _ Hs) as [|[Hs'|Hs']]; [done| |].
    + pose proof (off_sub _ _ N1 Nj Hs'). unfold PGSIZE in *.
      destruct (Z.leb_spec (s0 + off (2 * k + 1)) (s0 + off j)); [lia|].
      apply IH; auto. rewrite dep_double; lia.
    + pose proof (off_sub _ _ N2 Nj Hs'). unfold PGSIZE in *.
      destruct (Z.leb_spec (s0 + off (2 * k + 1)) (s0 + off j)); [|lia].
      rewrite <- Z.add_assoc. apply IH; auto. rewrite dep_succ_double; lia.
Qed.
End block.
End BuddyProofs.
