(* ===== verification/BuddySpec.v ===== *)
(** * The allocator as a whole: [buddy_init], [buddy_alloc], [buddy_free]

    The abstract state is the list of the sets of allocated nodes of the 62
    blocks.  The theorems say what each entry point of the allocator does to
    it, and what that means for addresses. *)

From S2P Require Import Prelude Buddy BuddyTree BuddyProofs.
Import BuddyAlloc BuddyTree BuddyProofs.

Module BuddySpec.

(** ** Definitions *)

(** First address of block [i] when the heap starts at [sep]. *)
Definition bstart (sep : Z) (i : nat) : Z := sep + 2097152 * Z.of_nat i.

(** The heap fits below the end of memory; this is what [buddy_init] checks. *)
Definition heap_ok (sep : Z) : Prop :=
  0 < sep ∧ sep `mod` PGSIZE = 0 ∧ sep + 2097152 * 62 ≤ PHYSTOP + 1.

Record inv (s : state) (Us : list (gset Z)) : Prop := {
  inv_len : length Us = CNT_MEM_BLOCKS;
  inv_heap : heap_ok (mem_separator s);
  inv_rep : ∀ i U, Us !! i = Some U → Rep i (bstart (mem_separator s) i) s false U }.

(** Address and size in pages of node [k] of block [i]. *)
Definition addr (s : state) (i : nat) (k : Z) : Z := bstart (mem_separator s) i + off k.
(** An allocated block: its address and its number of pages. *)
Definition allocated (s : state) (Us : list (gset Z)) (a n : Z) : Prop :=
  ∃ i U k, Us !! i = Some U ∧ k ∈ U ∧ a = addr s i k ∧ n = cnt k.

(** ** Frame properties *)

Lemma Rep_frame i j s0 s s' lk U : i ≠ j → Frame i s s' → Rep j s0 s lk U → Rep j s0 s' lk U.
Proof.
  intros Hne [F1 F2 _ _] [Hwf [HN HB]]. split; [done|]. constructor.
  - intros k Hk. rewrite <- HN by done. unfold node_at. rewrite F1; [done|].
    unfold node, base in *. lia.
  - by rewrite F2.
Qed.

Lemma heap_block sep i : heap_ok sep → (i < CNT_MEM_BLOCKS)%nat →
  0 < bstart sep i ∧ bstart sep i + 2097152 ≤ PHYSTOP + 1 ∧ bstart sep i + 2097152 < 2 ^ 64.
Proof.
  unfold heap_ok, bstart, CNT_MEM_BLOCKS. change PHYSTOP with 2281701376. lia.
Qed.

Lemma inv_lookup s Us i : inv s Us → (i < CNT_MEM_BLOCKS)%nat →
  ∃ U, Us !! i = Some U ∧ Rep i (bstart (mem_separator s) i) s false U.
Proof.
  intros HI Hi. destruct (lookup_lt_is_Some_2 Us i) as [U HU].
  - by rewrite (inv_len _ _ HI).
  - exists U. split; [done|]. by apply (inv_rep _ _ HI).
Qed.

Lemma inv_update s s' Us i U : inv s Us → Frame i s s' →
  Rep i (bstart (mem_separator s) i) s' false U → inv s' (<[i := U]> Us).
Proof.
  intros HI HF HR. constructor.
  - rewrite length_insert. apply HI.
  - rewrite (Frame_sep _ _ _ HF). apply HI.
  - intros j V Hj. rewrite (Frame_sep _ _ _ HF).
    apply list_lookup_insert_Some in Hj as [(<- & -> & _)|[Hne Hj]]; [done|].
    eapply Rep_frame; [exact Hne|exact HF|]. by apply (inv_rep _ _ HI).
Qed.

(** ** One block *)

Section one_block.
Context (s : state) (Us : list (gset Z)) (i : nat) (U : gset Z).
Context (HI : inv s Us) (Hi : (i < CNT_MEM_BLOCKS)%nat) (HU : Us !! i = Some U).

Lemma alloc_in_block_ok e : 0 ≤ e → 2 ^ e ≤ bval U 1 →
  ∃ k s', alloc_in_block i (2 ^ e) s = Ok (addr s i k, s') ∧ Frame i s s' ∧
    inv s' (<[i := {[k]} ∪ U]> Us) ∧ avail U k ∧ cnt k = 2 ^ e.
Proof.
  intros He Hv. destruct (heap_block _ _ (inv_heap _ _ HI) Hi) as (P1 & P2 & P3).
  pose proof (inv_rep _ _ HI _ _ HU) as [Hwf HB].
  unfold alloc_in_block.
  destruct (acquire_ok _ _ _ _ _ _ _ HB) as (s1 & E1 & F1 & H1). prog_step E1.
  prog_step (get_block_ok _ _ _ _ _ _ _ _ H1). cbn [root].
  assert (N1 : node 1) by (unfold node; lia).
  prog_step (get_node_ok i Hi _ _ _ _ _ _ _ 1 H1 N1). cbn [snode maxFreePage].
  destruct (Z.ltb_spec (bval U 1) (2 ^ e)); [lia|].
  destruct (alloc_in_node_ok i Hi (bstart (mem_separator s) i) tree_fuel 1 s1 U e) as (k & s2 & E2 & F2 & [Hw2 H2] & Ha & Hc);
    [by split|done|done|done| |unfold tree_fuel; rewrite dep_one; lia|].
  { intros j Hj Hu. pose proof (Z.pow_pos_nonneg 2 e). pose proof (proj1 Hwf j Hu) as Hn.
    apply sub_le in Hj; [|lia]. assert (j = 1) as -> by (unfold node in Hn; lia).
    rewrite bval_used in Hv by done. lia. }
  prog_step E2.
  destruct (release_ok _ _ _ _ _ _ _ H2) as (s3 & E3 & F3 & H3). prog_step E3.
  exists k, s3. split; [done|].
  assert (F : Frame i s s3) by (by do 2 (etrans; [|done])).
  split; [done|]. split; [|done].
  apply (inv_update s); [done..|]. by split.
Qed.

Lemma alloc_in_block_full n : bval U 1 < n →
  ∃ s', alloc_in_block i n s = Ok (0, s') ∧ Frame i s s' ∧ inv s' Us.
Proof.
  intros Hv. pose proof (inv_rep _ _ HI _ _ HU) as [Hwf HB].
  unfold alloc_in_block.
  destruct (acquire_ok _ _ _ _ _ _ _ HB) as (s1 & E1 & F1 & H1). prog_step E1.
  prog_step (get_block_ok _ _ _ _ _ _ _ _ H1). cbn [root].
  prog_step (get_node_ok i Hi _ _ _ _ _ _ _ 1 H1 ltac:(unfold node; lia)). cbn [snode maxFreePage].
  destruct (Z.ltb_spec (bval U 1) n); [|lia].
  destruct (release_ok _ _ _ _ _ _ _ H1) as (s2 & E2 & F2 & H2). prog_step E2.
  assert (F : Frame i s s2) by (by etrans).
  exists s2. split; [done|]. split; [done|].
  rewrite <- (list_insert_id Us i U) by done. apply (inv_update s); [done..|]. by split.
Qed.

Lemma free_in_block_hit k : k ∈ U →
  ∃ s', free_in_block i (addr s i k) s = Ok (tt, s') ∧ Frame i s s' ∧
    inv s' (<[i := U ∖ {[k]}]> Us).
Proof.
  intros Hk. destruct (heap_block _ _ (inv_heap _ _ HI) Hi) as (P1 & P2 & P3).
  pose proof (inv_rep _ _ HI _ _ HU) as [Hwf HB]. pose proof (proj1 Hwf k Hk) as Nk.
  unfold free_in_block.
  destruct (acquire_ok _ _ _ _ _ _ _ HB) as (s1 & E1 & F1 & H1). prog_step E1.
  prog_step (get_block_ok _ _ _ _ _ _ _ _ H1). cbn [root].
  destruct (free_in_node_hit i Hi _ (Z.lt_le_incl _ _ P1) P3 tree_fuel 1 s1 U k) as (s2 & E2 & F2 & [Hw2 H2]);
    [by split|unfold node; lia|done|apply sub_root; unfold node in Nk; lia|unfold tree_fuel; rewrite dep_one; lia|].
  prog_step E2.
  destruct (release_ok _ _ _ _ _ _ _ H2) as (s3 & E3 & F3 & H3).
  assert (F : Frame i s s3) by (by do 2 (etrans; [|done])).
  exists s3. split; [exact E3|]. split; [done|]. apply (inv_update s); [done..|]. by split.
Qed.

Lemma free_in_block_miss o : 0 ≤ o < 2097152 → (∀ k, k ∈ U → off k ≠ o) →
  ∃ s', free_in_block i (bstart (mem_separator s) i + o) s = Ok (tt, s') ∧ Frame i s s' ∧ inv s' Us.
Proof.
  intros Ho Hn. destruct (heap_block _ _ (inv_heap _ _ HI) Hi) as (P1 & P2 & P3).
  pose proof (inv_rep _ _ HI _ _ HU) as [Hwf HB].
  unfold free_in_block.
  destruct (acquire_ok _ _ _ _ _ _ _ HB) as (s1 & E1 & F1 & H1). prog_step E1.
  prog_step (get_block_ok _ _ _ _ _ _ _ _ H1). cbn [root].
  pose proof (free_in_node_miss i Hi _ (Z.lt_le_incl _ _ P1) P3 tree_fuel 1 s1 true U o) as E2.
  rewrite (bind_Ok _ _ _ _ _ (E2 ltac:(by split) ltac:(unfold node; lia) Ho
    ltac:(intros j (J1 & _ & J3); by apply (Hn j))
    ltac:(unfold tree_fuel; rewrite dep_one; lia))).
  destruct (release_ok _ _ _ _ _ _ _ H1) as (s3 & E3 & F3 & H3).
  assert (F : Frame i s s3) by (by etrans).
  exists s3. split; [exact E3|]. split; [done|].
  rewrite <- (list_insert_id Us i U) by done. apply (inv_update s); [done..|]. by split.
Qed.

Lemma check_addr_ok pa : check_addr_in_block pa i s =
  Ok (b2z ((bstart (mem_separator s) i <=? pa) && (pa <? bstart (mem_separator s) i + 2097152)), s).
Proof.
  destruct (heap_block _ _ (inv_heap _ _ HI) Hi) as (P1 & P2 & P3).
  pose proof (inv_rep _ _ HI _ _ HU) as [Hwf HB]. unfold check_addr_in_block.
  prog_step (get_block_ok _ _ _ _ _ _ _ _ HB). cbn [root].
  prog_step (get_node_ok i Hi _ _ _ _ _ _ _ 1 HB ltac:(unfold node; lia)).
  cbn [snode start_ptr cnt_page]. rewrite off_one, Z.add_0_r.
  change (cnt 1 * PGSIZE) with 2097152. unfold u64. by rewrite Z.mod_small by lia.
Qed.
End one_block.

(** ** Initialisation *)

Definition set_nodes (m : gmap Z MemNode) (s : state) : state :=
  mkState m (free_root s) (blocks s) (mem_separator s).

Lemma put_node_raw i k n s : (i < CNT_MEM_BLOCKS)%nat → node k →
  put_node (Some (base i + k)) n s = Ok (tt, set_nodes (<[base i + k := n]> (nodes_mem s)) s).
Proof. intros Hi Hk. unfold put_node. by rewrite node_range. Qed.
Lemma get_node_raw i k s : (i < CNT_MEM_BLOCKS)%nat → node k →
  get_node (Some (base i + k)) s = Ok (node_at (nodes_mem s) (base i + k), s).
Proof. intros Hi Hk. unfold get_node. by rewrite node_range. Qed.
Lemma mod_block_raw i g s bl : blocks s !! i = Some bl →
  mod_block i g s = Ok (tt, mkState (nodes_mem s) (free_root s) (<[i := g bl]> (blocks s)) (mem_separator s)).
Proof. intros H. unfold mod_block. by rewrite H. Qed.
Lemma node_at_insert m a n : node_at (<[a := n]> m) a = n.
Proof. unfold node_at. by rewrite lookup_insert_eq. Qed.
Lemma node_at_insert_ne m a b n : a ≠ b → node_at (<[a := n]> m) b = node_at m b.
Proof. intros. unfold node_at. by rewrite lookup_insert_ne. Qed.

(** A freshly initialised node. *)
Definition inode (i : nat) (sep k : Z) : MemNode := snode (base i) (bstart sep i) k (cnt k) 0.

Section init.
Context (i : nat) (Hi : (i < CNT_MEM_BLOCKS)%nat) (sep : Z) (Hheap : 0 < sep)
  (Hhi : bstart sep i + 2097152 < 2 ^ 64).
#[local] Abbreviation B := (base i).

Lemma init_depth k d : 2 ≤ k < 1024 → d = Z.max 1 (dep (k - 1)) →
  (if k =? shl1 (d + 1) then u16 (d + 1) else d) = dep k.
Proof.
  intros Hk ->. assert (Hn : node k) by (unfold node; lia).
  pose proof (dep_node k Hn) as Hd. unfold shl1. rewrite Z.shiftl_1_l.
  pose proof (dep_bounds k ltac:(lia)) as Hb. pose proof (dep_bounds (k - 1) ltac:(lia)) as Hb1.
  pose proof (dep_nonneg (k - 1)). destruct (decide (k = 2)) as [->|]; [done|].
  pose proof (dep_ge_1 (k - 1) ltac:(lia)).
  rewrite Z.max_r by lia. destruct (Z.eqb_spec k (2 ^ (dep (k - 1) + 1))) as [E|E].
  - rewrite E at 2. unfold dep at 2. rewrite Z.log2_pow2 by lia. unfold u16. apply Z.mod_small.
    assert (dep (k - 1) ≤ dep k) by (apply Z.log2_le_mono; lia). lia.
  - symmetry. apply dep_unique; [lia|]. lia.
Qed.

Lemma init_node_ok k d s : 2 ≤ k < 1024 → d = Z.max 1 (dep (k - 1)) →
  node_at (nodes_mem s) (B + k `div` 2) = inode i sep (k `div` 2) →
  init_node B k d s = Ok (dep k, set_nodes (<[B + k := inode i sep k]> (nodes_mem s)) s).
Proof.
  intros Hk Hd Hh. pose proof (half_cases k ltac:(lia)) as [Hkk Hhr].
  assert (Hin : 1 ≤ k `div` 2 < 512) by lia. assert (Nk : node k) by (unfold node; lia).
  unfold init_node. rewrite init_depth by done.
  prog_step (get_node_raw i (k `div` 2) s Hi ltac:(unfold node; lia)). rewrite Hh.
  destruct (cnt_inner _ Hin) as [C1 C2]. destruct (off_children _ Hin) as [O1 O2].
  destruct (node_children _ Hin) as [N1 N2].
  assert (Hc : u16 (cnt (k `div` 2) `div` 2) = cnt k).
  { assert (cnt k = cnt (2 * (k `div` 2))) as -> by (destruct Hkk as [E|E]; rewrite E at 1; done).
    rewrite C1, Z.mul_comm, Z.div_mul by lia. unfold u16. apply Z.mod_small.
    pose proof (cnt_le _ N1). pose proof (cnt_pos _ N1). lia. }
  cbn [inode snode cnt_page start_ptr]. rewrite Hc.
  rewrite (bind_Ok _ _ _ tt (set_nodes (<[B + k := inode i sep k]> (nodes_mem s)) s)); [done|].
  rewrite put_node_raw by done. do 4 f_equal. unfold inode, snode.
  pose proof (off_bounds k Nk) as Hob. pose proof (cnt_pos k Nk).
  assert ((dep k <? STANDART_DEPTH - 1) = (k <? 512)) as ->.
  { unfold STANDART_DEPTH. destruct (Z.ltb_spec k 512).
    - pose proof (dep_inner k ltac:(lia)). lia.
    - rewrite dep_leaf by lia. lia. }
  destruct (Z.eqb_spec k 1); [lia|]. f_equal.
  assert (bstart sep i + off (k `div` 2) + (if k `mod` 2 =? 0 then 0 else cnt k) * PGSIZE
    = bstart sep i + off k) as ->.
  { pose proof (Z.div_mod k 2 ltac:(lia)). pose proof (Z.mod_pos_bound k 2 ltac:(lia)).
    destruct (Z.eqb_spec (k `mod` 2) 0) as [E|E].
    - replace (off k) with (off (2 * (k `div` 2))) by (f_equal; lia). lia.
    - replace (off k) with (off (2 * (k `div` 2) + 1)) by (f_equal; lia).
      replace (cnt k) with (cnt (2 * (k `div` 2) + 1)) by (f_equal; lia). lia. }
  unfold u64. apply Z.mod_small. unfold bstart, PGSIZE in *. lia.
Qed.

Lemma init_nodes_ok n : ∀ k d s, 2 ≤ k → Z.of_nat n = 1024 - k → d = Z.max 1 (dep (k - 1)) →
  (∀ j, 1 ≤ j < k → node_at (nodes_mem s) (B + j) = inode i sep j) →
  ∃ m, init_nodes n B k d s = Ok (tt, set_nodes m s) ∧
    (∀ j, node j → node_at m (B + j) = inode i sep j) ∧
    (∀ j, ¬ B < j < B + 1024 → m !! j = nodes_mem s !! j).
Proof.
  induction n as [|n IH]; intros k d s Hk Hn Hd HN; simpl init_nodes.
  - exists (nodes_mem s). destruct s. split; [done|]. split; [|done].
    intros j Hj. apply HN. unfold node in Hj. lia.
  - pose proof (half_cases k ltac:(lia)) as [_ Hh].
    prog_step (init_node_ok k d s ltac:(lia) Hd (HN (k `div` 2) ltac:(lia))).
    destruct (IH (k + 1) (dep k) (set_nodes (<[B + k := inode i sep k]> (nodes_mem s)) s))
      as (m & E & Hm & Ho); [lia|lia| | |].
    + replace (k + 1 - 1) with k by lia. pose proof (dep_ge_1 k ltac:(lia)). lia.
    + intros j Hj. simpl. destruct (decide (j = k)) as [->|]; [apply node_at_insert|].
      rewrite node_at_insert_ne by lia. apply HN. lia.
    + exists m. split; [exact E|]. split; [done|]. intros j Hj.
      rewrite Ho by done. simpl. apply lookup_insert_ne. lia.
Qed.

Lemma counters_empty : counters (nfree ∅) = [1; 0; 0; 0; 0; 0; 0; 0; 0; 0].
Proof. vm_compute. reflexivity. Qed.

Lemma init_block_ok s bl : blocks s !! i = Some bl → free_root s = B → mem_separator s = sep →
  ∃ s', init_block i s = Ok (tt, s') ∧ free_root s' = base (S i) ∧ mem_separator s' = sep ∧
    length (blocks s') = length (blocks s) ∧
    (∀ j, j ≠ i → blocks s' !! j = blocks s !! j) ∧
    (∀ j, ¬ B < j < B + 1024 → nodes_mem s' !! j = nodes_mem s !! j) ∧
    Rep i (bstart sep i) s' false ∅.
Proof.
  intros Hb Hr Hs. unfold init_block. pose proof (lookup_lt_Some _ _ _ Hb) as Hlt.
  prog_step (mod_block_raw i (set_lock false) s bl Hb). prog_run.
  cbn [free_root mem_separator]. rewrite Hr, Hs.
  erewrite bind_Ok; [|apply mod_block_raw; cbn [blocks]; by apply list_lookup_insert_eq].
  cbn beta. cbn [nodes_mem free_root blocks mem_separator]. set (s1 := mkState _ _ _ _).
  assert (N1 : node 1) by (unfold node; lia).
  set (n1 := mkMemNode _ _ _ _ _ _ _ _).
  prog_step (put_node_raw i 1 n1 s1 Hi N1).
  assert (En : n1 = inode i sep 1).
  { unfold n1, inode, snode. f_equal.
    - f_equal. lia.
    - f_equal. lia.
    - rewrite off_one. replace (B + 1 - 0 - 1) with B by lia. unfold base, PGSIZE.
      replace (4096 * (1024 * Z.of_nat i)) with (2097152 * Z.of_nat i * 2) by lia.
      rewrite Z.quot_mul by lia. unfold u64. rewrite Z.mod_small; unfold bstart in *; lia. }
  rewrite En. replace (B + 1 - 1) with B by lia.
  destruct (init_nodes_ok 1022 2 1 (set_nodes (<[B + 1 := inode i sep 1]> (nodes_mem s1)) s1))
    as (m & E & Hm & Ho); [lia|lia|done| |].
  { intros j Hj. assert (j = 1) as -> by lia. apply node_at_insert. }
  change (Z.to_nat (shl1 STANDART_DEPTH - 2)) with 1022%nat. prog_step E.
  erewrite bind_Ok; [|apply mod_block_raw; simpl; apply list_lookup_insert_eq; by rewrite length_insert].
  eexists. split; [reflexivity|]. simpl.
  split; [unfold base; rewrite Nat2Z.inj_succ; change (shl1 STANDART_DEPTH) with 1024; lia|].
  split; [done|]. split; [by rewrite !length_insert|].
  split; [intros j Hj; by rewrite !list_lookup_insert_ne|].
  split.
  { intros j Hj. rewrite Ho by done. simpl. apply lookup_insert_ne. lia. }
  split; [apply wf_empty|]. constructor.
  - intros k Hk. simpl. rewrite Hm by done. unfold inode. f_equal.
    symmetry. apply bval_full; [done|]. intros x _ _. apply not_elem_of_empty.
  - simpl. rewrite list_lookup_insert_eq by (by rewrite !length_insert).
    by rewrite counters_empty.
Qed.
End init.

Lemma buddy_init_loop_ok sep n : heap_ok sep → ∀ i s,
  (n + i = CNT_MEM_BLOCKS)%nat → free_root s = base i → mem_separator s = sep →
  length (blocks s) = CNT_MEM_BLOCKS →
  (∀ j, (j < i)%nat → Rep j (bstart sep j) s false ∅) →
  ∃ s', buddy_init_loop n i s = Ok (tt, s') ∧ mem_separator s' = sep ∧
    ∀ j, (j < CNT_MEM_BLOCKS)%nat → Rep j (bstart sep j) s' false ∅.
Proof.
  intros Hh. induction n as [|n IH]; intros i s Hn Hr Hs Hl HR; simpl buddy_init_loop.
  - exists s. split; [done|]. split; [done|]. intros j Hj. apply HR. lia.
  - assert (Hi : (i < CNT_MEM_BLOCKS)%nat) by lia.
    destruct (heap_block sep i Hh Hi) as (P1 & P2 & P3).
    destruct (lookup_lt_is_Some_2 (blocks s) i) as [bl Hb]; [lia|].
    destruct (init_block_ok i Hi sep ltac:(unfold heap_ok in Hh; lia) P3 s bl Hb Hr Hs)
      as (s1 & E1 & R1 & S1 & L1 & B1 & N1 & [Hw H1]).
    prog_step E1. prog_step (get_block_ok _ _ _ _ _ _ _ _ H1). cbn [root].
    prog_step (get_node_ok i Hi _ _ _ _ _ _ _ 1 H1 ltac:(unfold node; lia)).
    cbn [snode start_ptr cnt_page]. rewrite off_one, Z.add_0_r.
    change (cnt 1 * PGSIZE) with 2097152. unfold u64. rewrite Z.mod_small by lia.
    destruct (Z.ltb_spec (PHYSTOP + 1) (bstart sep i + 2097152)); [lia|]. prog_run.
    apply IH; [lia|done|done|lia|].
    intros j Hj. destruct (decide (j = i)) as [->|Hne]; [by split|].
    destruct (HR j ltac:(lia)) as [Hwj [HNj HBj]]. split; [done|]. constructor.
    + intros k Hk. rewrite <- HNj by done. unfold node_at. rewrite N1; [done|].
      unfold node, base in *. lia.
    + by rewrite B1.
Qed.

(** ** Allocation over all blocks *)

Lemma buddy_alloc_loop_ok e n : 0 ≤ e ≤ 9 → ∀ i s Us, inv s Us → (n + i = CNT_MEM_BLOCKS)%nat →
  (∃ j U k s', Us !! j = Some U ∧ buddy_alloc_loop n i (2 ^ e) s = Ok (addr s j k, s') ∧
     mem_separator s' = mem_separator s ∧
     inv s' (<[j := {[k]} ∪ U]> Us) ∧ avail U k ∧ cnt k = 2 ^ e) ∨
  (∃ s', buddy_alloc_loop n i (2 ^ e) s = Ok (0, s') ∧ inv s' Us ∧
     mem_separator s' = mem_separator s ∧
     ∀ j U, (i ≤ j)%nat → Us !! j = Some U → bval U 1 < 2 ^ e).
Proof.
  intros He. assert (Hu : u16 (2 ^ e) = 2 ^ e).
  { unfold u16. apply Z.mod_small. pose proof (Z.pow_pos_nonneg 2 e).
    pose proof (Z.pow_le_mono_r 2 e 9). lia. }
  induction n as [|n IH]; intros i s Us HI Hn; simpl buddy_alloc_loop.
  - right. exists s. split_and!; [done|done|done|]. intros j U Hj HU.
    apply lookup_lt_Some in HU. rewrite (inv_len _ _ HI) in HU. lia.
  - assert (Hi : (i < CNT_MEM_BLOCKS)%nat) by lia. rewrite Hu.
    destruct (inv_lookup s Us i HI Hi) as (U & HU & HR).
    destruct (heap_block _ _ (inv_heap _ _ HI) Hi) as (P1 & P2 & P3).
    destruct (decide (2 ^ e ≤ bval U 1)) as [Hv|Hv].
    + destruct (alloc_in_block_ok s Us i U HI Hi HU e ltac:(lia) Hv) as (k & s1 & E1 & F1 & I1 & A1 & C1).
      prog_step E1. left. exists i, U, k, s1.
      assert (0 < addr s i k).
      { unfold addr. pose proof (off_bounds k (proj1 A1)). lia. }
      destruct (Z.eqb_spec (addr s i k) 0); [lia|]. split_and!; auto.
      apply (Frame_sep _ _ _ F1).
    + destruct (alloc_in_block_full s Us i U HI Hi HU (2 ^ e) ltac:(lia)) as (s1 & E1 & F1 & I1).
      prog_step E1. rewrite Z.eqb_refl. cbn [negb].
      destruct (IH (S i) s1 Us I1 ltac:(lia)) as [(j & W & k & s2 & HW & E2 & S2 & I2 & A2 & C2)|(s2 & E2 & I2 & S2 & G2)].
      * left. exists j, W, k, s2. unfold addr in *. rewrite (Frame_sep _ _ _ F1) in E2, S2.
        by split_and!.
      * right. exists s2. rewrite (Frame_sep _ _ _ F1) in S2. split_and!; auto.
        intros j W Hj HW. destruct (decide (j = i)) as [->|]; [|apply (G2 j); [lia|done]].
        rewrite HU in HW. simplify_eq. lia.
Qed.

(** A free run of the right size makes the root worth at least that size. *)
Lemma avail_bval U k j : avail U k → node j → sub j k → cnt k ≤ bval U j.
Proof.
  intros (Hk & Hf & Ha) Hj. revert j Hj.
  apply (node_ind (λ j, sub j k → cnt k ≤ bval U j)).
  - intros j Hj Hs. rewrite (sub_leaf j k Hj Hk Hs). lia.
  - intros j Hj IH1 IH2 Hs. pose proof (Ha j Hs) as Hn.
    destruct (bval_join U j Hj Hn) as (L & R & _).
    destruct (sub_down _ _ Hs) as [->|[Hs'|Hs']]; [lia| |].
    + specialize (IH1 Hs'). lia.
    + specialize (IH2 Hs'). lia.
Qed.

(** Blocks of one set: distinct allocated nodes do not overlap. *)
Lemma wf_disjoint U k j : wf U → k ∈ U → j ∈ U → k ≠ j →
  off k + cnt k * PGSIZE ≤ off j ∨ off j + cnt j * PGSIZE ≤ off k.
Proof.
  intros [W1 W2] Hk Hj Hne. apply off_disjoint; [by apply W1|by apply W1| |].
  - intros Hs. by apply Hne, W2.
  - intros Hs. by apply Hne; symmetry; apply W2.
Qed.

Lemma cnt_pow k : node k → ∃ e, 0 ≤ e ≤ 9 ∧ cnt k = 2 ^ e.
Proof. intros Hk%dep_node. exists (9 - dep k). split; [lia|done]. Qed.

Lemma off_align k : (off k) `mod` (cnt k * PGSIZE) = 0 ∨ cnt k = 0.
Proof.
  destruct (decide (cnt k = 0)); [by right|left].
  unfold off. rewrite <- Z.mul_assoc. apply Z.mod_mul. unfold PGSIZE. lia.
Qed.
Lemma off_page k : off k `mod` PGSIZE = 0.
Proof. unfold off. apply Z.mod_mul. unfold PGSIZE. lia. Qed.
Lemma addr_page s Us i k : inv s Us → addr s i k `mod` PGSIZE = 0.
Proof.
  intros HI. destruct (inv_heap _ _ HI) as (_ & Hm & _). unfold addr, bstart.
  apply Z.mod_divide in Hm as [q Hq]; [|unfold PGSIZE; lia].
  pose proof (off_page k) as Ho. apply Z.mod_divide in Ho as [p Hp]; [|unfold PGSIZE; lia].
  apply Z.mod_divide; [unfold PGSIZE; lia|]. exists (q + 512 * Z.of_nat i + p).
  rewrite Hq, Hp. unfold PGSIZE. lia.
Qed.

Lemma addr_range s Us i U k : inv s Us → Us !! i = Some U → node k →
  mem_separator s ≤ addr s i k ∧ addr s i k + cnt k * PGSIZE ≤ PHYSTOP + 1 ∧
  bstart (mem_separator s) i ≤ addr s i k ∧
  addr s i k + cnt k * PGSIZE ≤ bstart (mem_separator s) i + 2097152.
Proof.
  intros HI HU Hk. pose proof (lookup_lt_Some _ _ _ HU) as Hl. rewrite (inv_len _ _ HI) in Hl.
  destruct (heap_block _ _ (inv_heap _ _ HI) Hl) as (P1 & P2 & P3).
  pose proof (off_bounds k Hk). unfold addr, bstart in *. lia.
Qed.

(** Two allocated blocks are equal or disjoint. *)
Lemma allocated_disjoint s Us i U k a n : inv s Us → Us !! i = Some U → node k →
  (∀ j, j ∈ U → off k + cnt k * PGSIZE ≤ off j ∨ off j + cnt j * PGSIZE ≤ off k) →
  allocated s Us a n →
  addr s i k + cnt k * PGSIZE ≤ a ∨ a + n * PGSIZE ≤ addr s i k.
Proof.
  intros HI HU Hk Hd (j & W & x & HW & Hx & -> & ->).
  destruct (addr_range s Us i U k HI HU Hk) as (_ & _ & R1 & R2).
  pose proof (inv_rep _ _ HI _ _ HW) as [Hww _].
  destruct (addr_range s Us j W x HI HW (proj1 Hww x Hx)) as (_ & _ & R3 & R4).
  destruct (decide (i = j)) as [->|Hne].
  - rewrite HU in HW. simplify_eq. specialize (Hd x Hx). unfold addr. lia.
  - unfold bstart in *. lia.
Qed.

(** ** Release over all blocks *)

Lemma buddy_free_loop_skip pa n : ∀ i s Us, inv s Us → (n + i = CNT_MEM_BLOCKS)%nat →
  (∀ j, (i ≤ j < CNT_MEM_BLOCKS)%nat → ¬ bstart (mem_separator s) j ≤ pa < bstart (mem_separator s) j + 2097152) →
  buddy_free_loop n i pa s = Ok (tt, s).
Proof.
  induction n as [|n IH]; intros i s Us HI Hn Hout; simpl buddy_free_loop; [done|].
  assert (Hi : (i < CNT_MEM_BLOCKS)%nat) by lia.
  destruct (inv_lookup s Us i HI Hi) as (U & HU & HR).
  prog_step (check_addr_ok s Us i U HI Hi HU pa).
  pose proof (Hout i ltac:(lia)) as Hout1.
  destruct (Z.leb_spec (bstart (mem_separator s) i) pa), (Z.ltb_spec pa (bstart (mem_separator s) i + 2097152));
    try lia; cbn [andb b2z negb Z.eqb]; unfold when; prog_run; (eapply IH; [done|lia|]);
    intros j Hj; apply Hout; lia.
Qed.

(** The loop runs [free_in_block] on the block that contains the address. *)
Lemma buddy_free_loop_hit pa b n : ∀ i s Us s' Us', inv s Us → (n + i = CNT_MEM_BLOCKS)%nat →
  (i ≤ b < CNT_MEM_BLOCKS)%nat →
  bstart (mem_separator s) b ≤ pa < bstart (mem_separator s) b + 2097152 →
  free_in_block b pa s = Ok (tt, s') → Frame b s s' → inv s' Us' →
  buddy_free_loop n i pa s = Ok (tt, s').
Proof.
  induction n as [|n IH]; intros i s Us s' Us' HI Hn Hb Hpa E F HI'; simpl buddy_free_loop; [lia|].
  assert (Hi : (i < CNT_MEM_BLOCKS)%nat) by lia.
  destruct (inv_lookup s Us i HI Hi) as (U & HU & HR).
  prog_step (check_addr_ok s Us i U HI Hi HU pa).
  destruct (decide (i = b)) as [->|Hne].
  - destruct (Z.leb_spec (bstart (mem_separator s) b) pa); [|lia].
    destruct (Z.ltb_spec pa (bstart (mem_separator s) b + 2097152)); [|lia].
    cbn [andb b2z negb Z.eqb]. unfold when. prog_step E.
    apply (buddy_free_loop_skip _ _ _ _ Us'); [done|lia|].
    intros j Hj. rewrite (Frame_sep _ _ _ F). unfold bstart in *. lia.
  - destruct (Z.leb_spec (bstart (mem_separator s) i) pa), (Z.ltb_spec pa (bstart (mem_separator s) i + 2097152));
      try (unfold bstart in *; lia);
      cbn [andb b2z negb Z.eqb]; unfold when; prog_run; (eapply IH; eauto; lia).
Qed.

Lemma buddy_free_guard kend pa s : pa `mod` PGSIZE = 0 → kend ≤ pa < PHYSTOP →
  buddy_free kend pa s = buddy_free_loop CNT_MEM_BLOCKS 0 pa s.
Proof.
  intros Hm Hr. unfold buddy_free. rewrite Hm. cbn [Z.eqb negb orb].
  destruct (Z.ltb_spec pa kend); [lia|]. destruct (Z.leb_spec PHYSTOP pa); [lia|done].
Qed.

(** ** The argument check *)

Lemma halve_pow e : 0 ≤ e → ∀ fuel, e < Z.of_nat fuel → halve fuel (2 ^ e) = Ok 1.
Proof.
  intros He. pattern e. apply natlike_ind; [|clear e He|done].
  - intros [|fuel] Hf; [lia|done].
  - intros e He IH [|fuel] Hf; [lia|]. simpl. rewrite Z.pow_succ_r by done.
    rewrite Z.mul_comm, Z.mod_mul, Z.eqb_refl by lia. rewrite Z.div_mul by lia.
    apply IH. lia.
Qed.
Lemma halve_ok fuel : ∀ c, 0 < c < 2 ^ Z.of_nat fuel →
  ∃ o e, halve fuel c = Ok o ∧ 0 ≤ e ∧ c = 2 ^ e * o ∧ o `mod` 2 = 1.
Proof.
  induction fuel as [|fuel IH]; intros c Hc; [simpl in Hc; lia|].
  simpl. rewrite Nat2Z.inj_succ, Z.pow_succ_r in Hc by lia.
  pose proof (Z.div_mod c 2 ltac:(lia)). pose proof (Z.mod_pos_bound c 2 ltac:(lia)).
  destruct (Z.eqb_spec (c `mod` 2) 0) as [Hz|Hz].
  - destruct (IH (c `div` 2)) as (o & e & E & He & Hc' & Ho); [lia|].
    exists o, (e + 1). split; [done|]. split; [lia|]. split; [|done].
    rewrite Z.pow_add_r by lia. lia.
  - exists c, 0. split; [done|]. split; [lia|]. split; lia.
Qed.

(** ** The properties of the allocator *)

(** The state [buddy_init] starts from: the globals are zero, [kinit] has set
    [mem_separator]. *)
Definition booted (sep : Z) : state :=
  mkState (nodes_mem zero_state) (free_root zero_state) (blocks zero_state) sep.

Lemma boot_ok sep : heap_ok sep →
  ∃ s, buddy_init (booted sep) = Ok (tt, s) ∧ mem_separator s = sep ∧
    inv s (replicate CNT_MEM_BLOCKS ∅).
Proof.
  intros Hh.
  destruct (buddy_init_loop_ok sep CNT_MEM_BLOCKS Hh 0 (booted sep)) as (s & E & Hs & HR);
    [lia|done|done|done|lia|].
  exists s. split; [done|]. split; [done|]. constructor.
  - apply length_replicate.
  - by rewrite Hs.
  - intros i U HU. apply lookup_replicate in HU as [-> Hi]. rewrite Hs. by apply HR.
Qed.

Lemma checker_pow e : 0 ≤ e ≤ 9 → checker_cnt_page 32 (2 ^ e) = Ok 1.
Proof.
  intros He. unfold checker_cnt_page. change (shl1 STANDART_DEPTH) with 1024.
  pose proof (Z.pow_pos_nonneg 2 e). pose proof (Z.pow_le_mono_r 2 e 9).
  unfold u32. rewrite Z.mod_small by lia. destruct (Z.ltb_spec 1024 (2 * 2 ^ e)); [lia|].
  by rewrite halve_pow by lia.
Qed.

Lemma buddy_alloc_pow s e : 0 ≤ e ≤ 9 →
  buddy_alloc 32 (2 ^ e) s = buddy_alloc_loop CNT_MEM_BLOCKS 0 (2 ^ e) s.
Proof. intros He. unfold buddy_alloc. by rewrite checker_pow. Qed.

(** C33: [buddy_init] builds, from the zeroed globals, a heap in which every
    field of all 63426 nodes and both counters of all 62 blocks describe
    entirely free blocks, when the heap fits below [PHYSTOP + 1]. *)
Theorem buddy_init_correct sep : heap_ok sep →
  ∃ s, buddy_init (booted sep) = Ok (tt, s) ∧ mem_separator s = sep ∧
    inv s (replicate CNT_MEM_BLOCKS ∅).
Proof. apply boot_ok. Qed.

Lemma heap_ok_example : heap_ok 2148532224.
Proof. unfold heap_ok. change PHYSTOP with 2281701376. by vm_compute. Qed.

Lemma buddy_init_correct_witness :
  ∃ s, buddy_init (booted 2148532224) = Ok (tt, s) ∧ mem_separator s = 2148532224 ∧
    inv s (replicate CNT_MEM_BLOCKS ∅).
Proof. apply (buddy_init_correct 2148532224). vm_compute. repeat split; discriminate. Defined.

(** What a successful allocation of [2 ^ e] pages returns. *)
Definition alloc_success (s s' : state) (Us : list (gset Z)) (e a : Z) : Prop :=
  (∃ i U k, Us !! i = Some U ∧ avail U k ∧ cnt k = 2 ^ e ∧ a = addr s i k ∧
     inv s' (<[i := {[k]} ∪ U]> Us)) ∧
  a `mod` PGSIZE = 0 ∧ (a - mem_separator s) `mod` (2 ^ e * PGSIZE) = 0 ∧
  mem_separator s ≤ a ∧ a + 2 ^ e * PGSIZE ≤ PHYSTOP + 1 ∧
  ∀ b n, allocated s Us b n → a + 2 ^ e * PGSIZE ≤ b ∨ b + n * PGSIZE ≤ a.

Lemma alloc_success_intro s s' Us e i U k : 0 ≤ e ≤ 9 → inv s Us → Us !! i = Some U →
  inv s' (<[i := {[k]} ∪ U]> Us) → avail U k → cnt k = 2 ^ e →
  alloc_success s s' Us e (addr s i k).
Proof.
  intros He HI HU HI' Ha Hc. pose proof (proj1 Ha) as Nk.
  destruct (addr_range s Us i U k HI HU Nk) as (R1 & R2 & R3 & R4).
  pose proof (inv_rep _ _ HI _ _ HU) as [Hwf _].
  split; [by exists i, U, k|]. split; [by eapply addr_page|]. rewrite <- Hc.
  split; [|split; [done|split; [done|]]].
  - unfold addr, bstart.
    replace (mem_separator s + 2097152 * Z.of_nat i + off k - mem_separator s)
      with (2097152 * Z.of_nat i + off k) by lia.
    pose proof (cnt_pos k Nk). destruct (off_align k) as [Ho|]; [|lia].
    apply Z.mod_divide in Ho as [q Hq]; [|unfold PGSIZE; lia].
    apply Z.mod_divide; [unfold PGSIZE; lia|].
    exists (2 ^ (9 - e) * Z.of_nat i + q). rewrite Hq, Hc.
    replace 2097152 with (2 ^ (9 - e) * 2 ^ e * PGSIZE); [lia|].
    rewrite <- Z.pow_add_r by lia. replace (9 - e + e) with 9 by lia. done.
  - intros b n Hal. eapply allocated_disjoint; eauto. intros j Hj.
    pose proof (wf_insert U k Hwf Ha) as Hwf'.
    assert (k ∉ U) by (apply Ha, sub_refl).
    apply (wf_disjoint ({[k]} ∪ U)); [done|set_solver|set_solver|]. intros ->. done.
Qed.

(** C1: [buddy_alloc (2 ^ e)] with [e <= 9] always returns.  It returns either
    the address of [2 ^ e] pages inside the heap, aligned to its own size
    relative to the start of the heap, disjoint from every block allocated
    before, and records exactly that block as allocated; or 0, and then no
    aligned run of that size is free and the heap is unchanged. *)
Theorem buddy_alloc_correct s Us e : inv s Us → 0 ≤ e ≤ 9 →
  ∃ a s', buddy_alloc 32 (2 ^ e) s = Ok (a, s') ∧ mem_separator s' = mem_separator s ∧
    ((a ≠ 0 ∧ alloc_success s s' Us e a) ∨
     (a = 0 ∧ inv s' Us ∧ ∀ i U k, Us !! i = Some U → cnt k = 2 ^ e → ¬ avail U k)).
Proof.
  intros HI He. rewrite buddy_alloc_pow by done.
  destruct (buddy_alloc_loop_ok e CNT_MEM_BLOCKS He 0 s Us HI ltac:(lia))
    as [(i & U & k & s' & HU & E & Es & HI' & Ha & Hc)|(s' & E & HI' & Es & Hno)].
  - exists (addr s i k), s'. split; [done|]. split; [done|]. left. split.
    + destruct (addr_range s Us i U k HI HU (proj1 Ha)) as (R1 & _).
      destruct (inv_heap _ _ HI) as (? & _ & _). lia.
    + by apply (alloc_success_intro s s' Us e i U k).
  - exists 0, s'. split; [done|]. split; [done|]. right. split; [done|]. split; [done|].
    intros i U k HU Hc Ha. pose proof (proj1 Ha) as Nk. unfold node in Nk.
    pose proof (avail_bval U k 1 Ha ltac:(unfold node; lia) (sub_root k ltac:(lia))).
    specialize (Hno i U ltac:(lia) HU). lia.
Qed.

Lemma buddy_alloc_correct_witness :
  ∃ s, buddy_init (booted 2148532224) = Ok (tt, s) ∧
  ∃ a s', buddy_alloc 32 (2 ^ 3) s = Ok (a, s') ∧ mem_separator s' = mem_separator s ∧
    ((a ≠ 0 ∧ alloc_success s s' (replicate CNT_MEM_BLOCKS ∅) 3 a) ∨
     (a = 0 ∧ inv s' (replicate CNT_MEM_BLOCKS ∅) ∧
      ∀ i U k, replicate CNT_MEM_BLOCKS ∅ !! i = Some U → cnt k = 2 ^ 3 → ¬ avail U k)).
Proof.
  destruct (boot_ok 2148532224 heap_ok_example) as (s & E & _ & HI). exists s. split; [exact E|].
  apply (buddy_alloc_correct s (replicate CNT_MEM_BLOCKS ∅) 3 HI). lia.
Defined.

(** Release of the address of an allocated node. *)
Lemma buddy_free_ok s Us i U k kend : inv s Us → Us !! i = Some U → k ∈ U →
  kend ≤ mem_separator s →
  ∃ s', buddy_free kend (addr s i k) s = Ok (tt, s') ∧ mem_separator s' = mem_separator s ∧
    inv s' (<[i := U ∖ {[k]}]> Us).
Proof.
  intros HI HU Hk Hkend. pose proof (inv_rep _ _ HI _ _ HU) as [Hwf _].
  pose proof (proj1 Hwf k Hk) as Nk.
  destruct (addr_range s Us i U k HI HU Nk) as (R1 & R2 & R3 & R4).
  pose proof (lookup_lt_Some _ _ _ HU) as Hl. rewrite (inv_len _ _ HI) in Hl.
  pose proof (cnt_pos k Nk). unfold PGSIZE in R2, R4.
  destruct (free_in_block_hit s Us i U HI Hl HU k Hk) as (s' & E & F & HI').
  exists s'. split; [|split; [apply (Frame_sep _ _ _ F)|done]].
  rewrite buddy_free_guard; [|by eapply addr_page|lia].
  eapply buddy_free_loop_hit; eauto; lia.
Qed.

(** C2: [buddy_free] of the address of an allocated block releases exactly
    that block; every field and counter of the heap is as if it had never been
    allocated (brothers are merged). *)
Theorem buddy_free_correct s Us i U k kend : inv s Us → Us !! i = Some U → k ∈ U →
  kend ≤ mem_separator s →
  ∃ s', buddy_free kend (addr s i k) s = Ok (tt, s') ∧ mem_separator s' = mem_separator s ∧
    inv s' (<[i := U ∖ {[k]}]> Us).
Proof. apply buddy_free_ok. Qed.

Lemma buddy_free_correct_witness :
  ∃ s Us i U k, inv s Us ∧ Us !! i = Some U ∧ k ∈ U ∧
  ∃ s', buddy_free 2148532224 (addr s i k) s = Ok (tt, s') ∧ mem_separator s' = mem_separator s ∧
    inv s' (<[i := U ∖ {[k]}]> Us).
Proof.
  destruct (boot_ok 2148532224 heap_ok_example) as (s & E & Es & HI).
  destruct (alloc_in_block_ok s _ 0 ∅ HI ltac:(unfold CNT_MEM_BLOCKS; lia) eq_refl 3 ltac:(lia)
    ltac:(vm_compute; discriminate)) as (k & s' & _ & F & HI' & _).
  exists s', (<[0%nat := {[k]} ∪ ∅]> (replicate CNT_MEM_BLOCKS ∅)), 0%nat, ({[k]} ∪ ∅), k.
  split; [exact HI'|]. split; [reflexivity|]. split; [apply elem_insert_self|].
  apply (buddy_free_correct s' (<[0%nat := {[k]} ∪ ∅]> (replicate CNT_MEM_BLOCKS ∅)) 0%nat ({[k]} ∪ ∅) k 2148532224).
  - exact HI'.
  - reflexivity.
  - apply elem_insert_self.
  - rewrite (Frame_sep _ _ _ F), Es. lia.
Defined.

(** [buddy_free] of a page address that is not the start of an allocated
    block (a double free, or an address inside a block) changes nothing. *)
Theorem buddy_free_unallocated s Us kend pa : inv s Us →
  pa `mod` PGSIZE = 0 → kend ≤ pa < PHYSTOP → (∀ n, ¬ allocated s Us pa n) →
  ∃ s', buddy_free kend pa s = Ok (tt, s') ∧ inv s' Us.
Proof.
  intros HI Hm Hr Hn. rewrite buddy_free_guard by done.
  set (i := Z.to_nat ((pa - mem_separator s) `div` 2097152)).
  destruct (decide (mem_separator s ≤ pa ∧ (i < CNT_MEM_BLOCKS)%nat)) as [[Hlo Hi]|Hout].
  - destruct (inv_lookup s Us i HI Hi) as (U & HU & HR).
    pose proof (Z.div_mod (pa - mem_separator s) 2097152 ltac:(lia)).
    pose proof (Z.mod_pos_bound (pa - mem_separator s) 2097152 ltac:(lia)).
    pose proof (Z.div_pos (pa - mem_separator s) 2097152 ltac:(lia) ltac:(lia)).
    set (o := pa - bstart (mem_separator s) i).
    assert (Ho : 0 ≤ o < 2097152) by (unfold o, i, bstart; rewrite Z2Nat.id by lia; lia).
    destruct (free_in_block_miss s Us i U HI Hi HU o Ho) as (s' & E & F & HI').
    { intros k Hk Hok. apply (Hn (cnt k)). exists i, U, k. split_and!; auto.
      unfold addr. rewrite Hok. unfold o. lia. }
    exists s'. split; [|done].
    replace (bstart (mem_separator s) i + o) with pa in E by (unfold o; lia).
    apply (buddy_free_loop_hit pa i CNT_MEM_BLOCKS 0 s Us s' Us); auto; lia.
  - exists s. split; [|done]. apply (buddy_free_loop_skip _ _ _ _ Us); auto.
    intros j [_ Hj'] Hj. apply Hout. unfold bstart, i, CNT_MEM_BLOCKS in *.
    destruct (inv_heap _ _ HI) as (_ & _ & Hh). change PHYSTOP with 2281701376 in *.
    assert ((pa - mem_separator s) `div` 2097152 = Z.of_nat j) as ->.
    { symmetry. apply (Z.div_unique _ _ _ (pa - mem_separator s - 2097152 * Z.of_nat j)); lia. }
    lia.
Qed.

Lemma none_allocated s a n : ¬ allocated s (replicate CNT_MEM_BLOCKS ∅) a n.
Proof.
  intros (i & U & k & HU & Hk & _). apply lookup_replicate in HU as [-> _].
  by apply not_elem_of_empty in Hk.
Qed.

Lemma buddy_free_unallocated_witness :
  ∃ s, buddy_init (booted 2148532224) = Ok (tt, s) ∧
  ∃ s', buddy_free 2148532224 (2148532224 + 8 * PGSIZE) s = Ok (tt, s') ∧
    inv s' (replicate CNT_MEM_BLOCKS ∅).
Proof.
  destruct (boot_ok 2148532224 heap_ok_example) as (s & E & Es & HI). exists s.
  split; [exact E|].
  apply (buddy_free_unallocated s (replicate CNT_MEM_BLOCKS ∅) 2148532224 (2148532224 + 8 * PGSIZE)).
  - exact HI.
  - reflexivity.
  - vm_compute. split; [discriminate|reflexivity].
  - apply none_allocated.
Defined.
End BuddySpec.
