(* ===== verification/BuddyProps.v ===== *)
(** * Further properties of the allocator

    Round trip of allocation and release, the argument check of [buddy_alloc],
    what [mem_dump] reports, and the interface of a page allocator that
    kalloc.c offers to the rest of the kernel. *)

From S2P Require Import Prelude PageAlloc Buddy BuddyTree BuddyProofs BuddySpec.
Import BuddyAlloc BuddyTree BuddyProofs BuddySpec.

Module BuddyProps.

(** ** Round trip *)

(** Releasing the block that [buddy_alloc] has just returned brings every
    node and counter back to what the same set of allocated blocks determines:
    the brothers that the allocation had split are merged again. *)
Theorem alloc_free_roundtrip s Us e a s' kend : inv s Us → 0 ≤ e ≤ 9 →
  kend ≤ mem_separator s → buddy_alloc 32 (2 ^ e) s = Ok (a, s') → a ≠ 0 →
  ∃ s'', buddy_free kend a s' = Ok (tt, s'') ∧ inv s'' Us.
Proof.
  intros HI He Hk E Ha. rewrite buddy_alloc_pow in E by done.
  destruct (buddy_alloc_loop_ok e CNT_MEM_BLOCKS He 0 s Us HI ltac:(lia))
    as [(i & U & k & s1 & HU & E1 & Es & HI' & Hav & Hc)|(s1 & E1 & _)]; [|congruence].
  rewrite E in E1. injection E1 as -> <-.
  pose proof (lookup_lt_Some _ _ _ HU) as Hl.
  replace (addr s i k) with (addr s' i k) by (unfold addr; by rewrite Es).
  destruct (buddy_free_ok s' _ i ({[k]} ∪ U) k kend HI') as (s'' & E'' & _ & HI'').
  - by apply list_lookup_insert_eq.
  - apply elem_insert_self.
  - by rewrite Es.
  - exists s''. split; [done|]. rewrite list_insert_insert_eq in HI''.
    rewrite insert_remove in HI'' by (apply Hav, sub_refl).
    by rewrite list_insert_id in HI''.
Qed.

(** ** The argument check *)

Lemma odd_pow_one e o : 0 ≤ e → o `mod` 2 = 1 → 0 < o → (∃ f, 0 ≤ f ∧ 2 ^ e * o = 2 ^ f) → o = 1.
Proof.
  intros He Ho Hp (f & Hf & E). destruct (decide (f ≤ e)) as [H|H].
  - replace e with (f + (e - f)) in E by lia. rewrite Z.pow_add_r in E by lia.
    pose proof (Z.pow_pos_nonneg 2 f). pose proof (Z.pow_pos_nonneg 2 (e - f)).
    assert (2 ^ (e - f) * o = 1); [apply (Z.mul_reg_l _ _ (2 ^ f)); lia|]. nia.
  - replace f with (e + 1 + (f - e - 1)) in E by lia.
    rewrite !Z.pow_add_r in E by lia. pose proof (Z.pow_pos_nonneg 2 e).
    assert (o = 2 * 2 ^ (f - e - 1)) as -> by (apply (Z.mul_reg_l _ _ (2 ^ e)); lia).
    rewrite Z.mul_comm, Z.mod_mul in Ho; lia.
Qed.

Lemma checker_ok cnt : 0 < cnt < 2 ^ 31 →
  checker_cnt_page 32 cnt = Ok (b2z (bool_decide (∃ e : fin 10, cnt = 2 ^ Z.of_nat e))).
Proof.
  intros Hc. unfold checker_cnt_page. change (shl1 STANDART_DEPTH) with 1024.
  rewrite u32_small by lia. destruct (Z.ltb_spec 1024 (2 * cnt)).
  - rewrite bool_decide_eq_false_2; [done|]. intros [e ->].
    pose proof (fin_to_nat_lt e). pose proof (Z.pow_le_mono_r 2 (Z.of_nat e) 9). lia.
  - destruct (halve_ok 32 cnt ltac:(lia)) as (o & e & -> & He & -> & Ho).
    do 2 f_equal. pose proof (Z.pow_pos_nonneg 2 e).
    destruct (Z.eqb_spec o 1) as [->|Hne].
    + rewrite bool_decide_eq_true_2; [done|].
      assert (Hlt : (Z.to_nat e < 10)%nat).
      { destruct (decide (e < 10)); [lia|]. pose proof (Z.pow_le_mono_r 2 10 e). lia. }
      exists (nat_to_fin Hlt). rewrite fin_to_nat_to_fin. rewrite Z2Nat.id by lia. lia.
    + rewrite bool_decide_eq_false_2; [done|]. intros [f Hf]. apply Hne.
      apply (odd_pow_one e); [done|done|nia|]. exists (Z.of_nat f). split; [lia|done].
Qed.

(** For every page count below 2^31 other than 0 the check of
    [buddy_alloc] terminates and accepts exactly the powers of two up to 512;
    any other count makes [buddy_alloc] return 0 without touching the heap. *)
Theorem checker_cnt_page_correct cnt s : 0 < cnt < 2 ^ 31 →
  checker_cnt_page 32 cnt = Ok (b2z (bool_decide (∃ e : fin 10, cnt = 2 ^ Z.of_nat e))) ∧
  ((¬ ∃ e : fin 10, cnt = 2 ^ Z.of_nat e) → buddy_alloc 32 cnt s = Ok (0, s)).
Proof.
  intros Hc. split; [by apply checker_ok|]. intros Hn. unfold buddy_alloc.
  rewrite checker_ok by done. by rewrite bool_decide_eq_false_2.
Qed.

Lemma halve_zero fuel : halve fuel 0 = Spin.
Proof. induction fuel as [|fuel IH]; [done|]. exact IH. Qed.

(** With a size of 0 the descent runs off the leaves. *)
Lemma alloc_zero_fault i s0 s lk U : (i < CNT_MEM_BLOCKS)%nat → Rep i s0 s lk U → ∀ fuel k,
  node k → 9 - dep k < Z.of_nat fuel → alloc_in_node (S fuel) (Some (base i + k)) 0 i s = Fault.
Proof.
  intros Hi [_ HB]. induction fuel as [|fuel IH]; intros k Hk Hf.
  { pose proof (dep_node k Hk). lia. }
  pose proof (cnt_pos k Hk). pose proof Hk as Hk'. unfold node in Hk'.
  cbn [alloc_in_node]. prog_step (get_node_ok i Hi _ _ _ _ _ _ _ k HB Hk).
  cbn [snode maxFreePage cnt_page leftChild rightChild].
  destruct (Z.eqb_spec (cnt k) 0); [lia|]. rewrite andb_false_r.
  destruct (Z.ltb_spec k 512) as [Hl|Hl]; [|done].
  destruct (node_children k ltac:(lia)) as [Nl _].
  rewrite <- Z.add_assoc. change (k * 1) with k.
  prog_step (get_node_ok i Hi _ _ _ _ _ _ _ (2 * k) HB Nl). cbn [snode maxFreePage].
  pose proof (bval_bounds U (2 * k) Nl). destruct (Z.leb_spec 0 (bval U (2 * k))); [|lia].
  apply IH; [done|]. rewrite dep_double by lia. lia.
Qed.

(** Two arguments defeat the check of [buddy_alloc].  On a request for 0
    pages it never returns, whatever the fuel; a request for 2^31 pages passes
    it, because the comparison wraps in 32 bits, and then the size is
    truncated to 0 and the descent dereferences the null child of a leaf. *)
Theorem checker_cnt_page_defects s Us : inv s Us →
  (∀ fuel, buddy_alloc fuel 0 s = Spin) ∧ buddy_alloc 32 (2 ^ 31) s = Fault.
Proof.
  intros HI. split.
  - intros fuel. unfold buddy_alloc, checker_cnt_page. by rewrite halve_zero.
  - assert (Hi : (0 < CNT_MEM_BLOCKS)%nat) by (unfold CNT_MEM_BLOCKS; lia).
    destruct (inv_lookup s Us 0 HI Hi) as (U & HU & [Hwf HB]).
    unfold buddy_alloc. change (checker_cnt_page 32 (2 ^ 31)) with (@Ok Z 1).
    cbn [Z.eqb]. change CNT_MEM_BLOCKS with (S 61). cbn [buddy_alloc_loop].
    change (u16 (2 ^ 31)) with 0. apply bind_Fault. unfold alloc_in_block.
    destruct (acquire_ok _ _ _ _ _ _ _ HB) as (s1 & E1 & F1 & H1). prog_step E1.
    prog_step (get_block_ok _ _ _ _ _ _ _ _ H1). cbn [root].
    assert (N1 : node 1) by (unfold node; lia).
    prog_step (get_node_ok 0 Hi _ _ _ _ _ _ _ 1 H1 N1). cbn [snode maxFreePage].
    pose proof (bval_bounds U 1 N1). destruct (Z.ltb_spec (bval U 1) 0); [lia|].
    apply bind_Fault. unfold tree_fuel. eapply (alloc_zero_fault 0); [done|by split|done|].
    rewrite dep_one. lia.
Qed.

(** ** The report of [mem_dump] *)

Definition info_of (U : gset Z) : BlocksInfo := mkBlocksInfo 512 (u16 (fpages U)) (counters (nfree U)).

Lemma mem_dump_loop_ok n : ∀ i dump s Us, inv s Us → (n + i = CNT_MEM_BLOCKS)%nat →
  ∃ s', mem_dump_loop n i dump s = Ok (foldl dump_add dump (info_of <$> drop i Us), s') ∧ inv s' Us.
Proof.
  induction n as [|n IH]; intros i dump s Us HI Hn; cbn [mem_dump_loop].
  - rewrite drop_ge by (rewrite (inv_len _ _ HI); lia). by exists s.
  - assert (Hi : (i < CNT_MEM_BLOCKS)%nat) by lia.
    destruct (inv_lookup s Us i HI Hi) as (U & HU & [Hwf HB]).
    destruct (acquire_ok _ _ _ _ _ _ _ HB) as (s1 & E1 & F1 & H1). prog_step E1.
    prog_step (get_block_ok _ _ _ _ _ _ _ _ H1). cbn [info].
    destruct (release_ok _ _ _ _ _ _ _ H1) as (s2 & E2 & F2 & H2). prog_step E2.
    rewrite (drop_S _ _ _ HU). cbn [fmap list_fmap foldl]. apply IH; [|lia].
    rewrite <- (list_insert_id Us i U) by done.
    apply (inv_update s); [done|by etrans|by split].
Qed.

Lemma u16_add2 x y : u16 (u16 x + u16 y) = u16 (x + y).
Proof. unfold u16. by rewrite <- Z.add_mod by lia. Qed.

Lemma dump_fold Us : ∀ a f x,
  foldl dump_add (mkBlocksInfo (u16 a) (u16 f) (counters x)) (info_of <$> Us) =
  mkBlocksInfo (u16 (a + 512 * Z.of_nat (length Us))) (u16 (f + zsum fpages Us))
    (counters (λ d, x d + zsum (λ U, nfree U d) Us)).
Proof.
  induction Us as [|U Us IH]; intros a f x; cbn [fmap list_fmap foldl length zsum foldr].
  - rewrite !Z.add_0_r. f_equal. unfold counters. apply list_fmap_ext. intros. by rewrite Z.add_0_r.
  - unfold dump_add at 2. cbn [info_of total free free_by_size].
    change 512 with (u16 512) at 1. rewrite !u16_add2.
    replace (zip_with _ (counters x) (counters (nfree U))) with (counters (λ d, x d + nfree U d)).
    + rewrite IH. f_equal; [f_equal; lia|f_equal; unfold zsum; lia|].
      unfold counters. apply list_fmap_ext. intros _ d _. unfold zsum. cbn. f_equal. lia.
    + unfold counters. rewrite zip_with_fmap_l, zip_with_fmap_r, zip_with_diag.
      apply list_fmap_ext. intros. by rewrite u16_add2.
Qed.

Lemma zsum_bounds {A} (f : A → Z) (b : Z) l : (∀ x, x ∈ l → 0 ≤ f x ≤ b) →
  0 ≤ zsum f l ≤ b * Z.of_nat (length l).
Proof.
  induction l as [|x l IH]; intros Hb; cbn [zsum foldr length]; [lia|].
  pose proof (Hb x ltac:(left)). destruct IH as [I1 I2]; [intros y Hy; apply Hb; by right|].
  unfold zsum in *. lia.
Qed.

Lemma nfree_bounds U d : 0 ≤ d ≤ 9 → 0 ≤ nfree U d ≤ 512.
Proof.
  intros Hd. destruct (zsum_bounds (fblk U) 1 (nodes_at d)) as [Z1 Z2].
  - intros k _. unfold fblk, chk. case_decide; [lia|]. destruct (_ && _); simpl; lia.
  - unfold nfree, nodes_at in *. rewrite length_seqZ in Z2.
    pose proof (Z.pow_le_mono_r 2 d 9). pose proof (Z.pow_pos_nonneg 2 d). lia.
Qed.

Lemma fpages_bounds U : 0 ≤ fpages U ≤ 512.
Proof. rewrite fpages_fpv. apply (fpv_bounds U 1). unfold node. lia. Qed.

(** [mem_dump] reports 31744 pages in total, the true number of free
    pages, and for every block size the true number of maximal free blocks of
    that size; none of the 16-bit sums overflows.  It changes nothing. *)
Theorem mem_dump_correct s Us : inv s Us →
  ∃ s', mem_dump s = Ok (mkBlocksInfo 31744 (zsum fpages Us)
          ((λ d, zsum (λ U, nfree U (Z.of_nat d)) Us) <$> seq 0 10), s') ∧ inv s' Us.
Proof.
  intros HI. unfold mem_dump.
  destruct (mem_dump_loop_ok CNT_MEM_BLOCKS 0 (mkBlocksInfo 0 0 (replicate (Z.to_nat STANDART_DEPTH) 0)) s Us HI)
    as (s' & -> & HI'); [lia|]. exists s'. split; [|done]. do 2 f_equal.
  change (mkBlocksInfo 0 0 _) with (mkBlocksInfo (u16 0) (u16 0) (counters (λ _, 0))).
  rewrite dump_fold, drop_0. pose proof (inv_len _ _ HI) as Hl. unfold CNT_MEM_BLOCKS in Hl.
  rewrite Hl. f_equal.
  - unfold u16. apply Z.mod_small.
    destruct (zsum_bounds fpages 512 Us) as [Z1 Z2]; [intros; apply fpages_bounds|]. lia.
  - unfold counters. apply list_fmap_ext. intros n d Hd. apply lookup_seq in Hd as [-> Hd].
    unfold u16. apply Z.mod_small.
    destruct (zsum_bounds (λ U, nfree U (Z.of_nat (0 + n))) 512 Us) as [Z1 Z2];
      [intros; apply nfree_bounds; lia|]. lia.
Qed.

(** ** The page allocator of the kernel *)

(** The clients own single pages that the heap records as allocated. *)
Definition owned (kend : Z) (s : state) (P : gset Z) : Prop :=
  kend ≤ mem_separator s ∧ ∃ Us, inv s Us ∧ ∀ a, a ∈ P → allocated s Us a 1.

Lemma allocated_insert s s' Us i U k a n : mem_separator s' = mem_separator s →
  Us !! i = Some U → allocated s Us a n ∨ (a = addr s i k ∧ n = cnt k) →
  allocated s' (<[i := {[k]} ∪ U]> Us) a n.
Proof.
  intros Es HU. pose proof (lookup_lt_Some _ _ _ HU) as Hl.
  assert (∀ j x, addr s' j x = addr s j x) as Ha by (intros; unfold addr; by rewrite Es).
  intros [(j & W & x & HW & Hx & -> & ->)|[-> ->]].
  - destruct (decide (j = i)) as [->|Hne].
    + exists i, ({[k]} ∪ U), x. rewrite list_lookup_insert_eq by done. simplify_eq.
      split_and!; [done|apply elem_of_union; by right|by rewrite Ha|done].
    + exists j, W, x. rewrite list_lookup_insert_ne by done. by rewrite Ha.
  - exists i, ({[k]} ∪ U), k. rewrite list_lookup_insert_eq by done. rewrite Ha.
    split_and!; [done|apply elem_insert_self|done|done].
Qed.

Lemma allocated_remove s s' Us i U k a n : mem_separator s' = mem_separator s →
  Us !! i = Some U → allocated s Us a n → a ≠ addr s i k →
  allocated s' (<[i := U ∖ {[k]}]> Us) a n.
Proof.
  intros Es HU (j & W & x & HW & Hx & -> & ->) Hne.
  pose proof (lookup_lt_Some _ _ _ HU) as Hl.
  assert (∀ j x, addr s' j x = addr s j x) as Ha by (intros; unfold addr; by rewrite Es).
  destruct (decide (j = i)) as [->|Hji].
  - exists i, (U ∖ {[k]}), x. rewrite list_lookup_insert_eq by done. simplify_eq.
    split_and!; [done| |by rewrite Ha|done]. apply elem_remove_ne; [congruence|done].
  - exists j, W, x. rewrite list_lookup_insert_ne by done. by rewrite Ha.
Qed.

Lemma kalloc_ok kend s P : owned kend s P → ∃ a s', kalloc s = Ok (a, s') ∧
  ((a = 0 ∧ owned kend s' P) ∨ (PageAlloc.is_page a ∧ a ∉ P ∧ owned kend s' ({[a]} ∪ P))).
Proof.
  intros (Hk & Us & HI & HP). unfold kalloc. change 1 with (2 ^ 0).
  rewrite buddy_alloc_pow by lia.
  destruct (buddy_alloc_loop_ok 0 CNT_MEM_BLOCKS ltac:(lia) 0 s Us HI ltac:(lia))
    as [(i & U & k & s' & HU & E & Es & HI' & Ha & Hc)|(s' & E & HI' & Es & _)].
  - exists (addr s i k), s'. split; [exact E|]. right.
    destruct (alloc_success_intro s s' Us 0 i U k ltac:(lia) HI HU HI' Ha Hc)
      as (_ & A1 & _ & A2 & A3 & A4).
    destruct (inv_heap _ _ HI) as (Hs & _). change (2 ^ 0) with 1 in *.
    split; [unfold PageAlloc.is_page; split_and!; [exact A1|lia|exact A3]|]. split.
    + intros Hin%HP. apply A4 in Hin. unfold PGSIZE in Hin. lia.
    + split; [by rewrite Es|]. exists (<[i := {[k]} ∪ U]> Us). split; [done|].
      intros b [->%elem_of_singleton|Hb]%elem_of_union; eapply allocated_insert; eauto.
  - exists 0, s'. split; [exact E|]. left. split; [done|]. split; [by rewrite Es|].
    exists Us. split; [done|]. intros b Hb. destruct (HP b Hb) as (j & W & x & H1 & H2 & -> & H4).
    exists j, W, x. unfold addr. by rewrite Es.
Qed.

Lemma kfree_ok kend s P a : owned kend s P → a ∈ P →
  ∃ s', kfree kend a s = Ok (tt, s') ∧ owned kend s' (P ∖ {[a]}).
Proof.
  intros (Hk & Us & HI & HP) Ha. destruct (HP a Ha) as (i & U & k & HU & Hin & -> & Hc).
  destruct (buddy_free_ok s Us i U k kend HI HU Hin Hk) as (s' & E & Es & HI').
  exists s'. split; [exact E|]. split; [by rewrite Es|]. exists (<[i := U ∖ {[k]}]> Us).
  split; [done|]. intros b [Hb Hne]%elem_of_difference. eapply allocated_remove; eauto.
  intros ->. apply Hne. by apply elem_of_singleton.
Qed.

(** [kalloc] and [kfree] of this kernel are a page allocator. *)
#[global] Instance buddy_pages (kend : Z) : PageAlloc.PageAllocator state := {|
  PageAlloc.pg_alloc := kalloc;
  PageAlloc.pg_free := kfree kend;
  PageAlloc.pg_inv := owned kend;
  PageAlloc.pg_alloc_ok := kalloc_ok kend;
  PageAlloc.pg_free_ok := kfree_ok kend |}.

Lemma PGROUNDUP_ok x : 0 ≤ x < 2 ^ 63 → PGROUNDUP x = (x + 4095) `div` 4096 * 4096.
Proof.
  intros Hx. unfold PGROUNDUP, PGSIZE. unfold u64 at 1. rewrite Z.mod_small by lia.
  change (u64 (Z.lnot (4096 - 1))) with (2 ^ 64 - 2 ^ 12).
  rewrite (land_clear_low _ 12 64) by lia. by replace (x + 4096 - 1) with (x + 4095) by lia.
Qed.

(** Booting establishes the page allocator's invariant: after [kinit] and
    [buddy_init], with the kernel ending at [kend], the allocator satisfies its
    interface with no page owned by a client, provided the kernel image leaves
    room for 62 blocks of 2 MiB. *)
Theorem boot_allocator kend : 0 < kend → kend + 4095 + 62 * 2097152 ≤ PHYSTOP + 1 →
  ∃ s, (kinit kend;; buddy_init) zero_state = Ok (tt, s) ∧
    PageAlloc.pg_inv (PageAllocator := buddy_pages kend) s ∅.
Proof.
  change PHYSTOP with 2281701376. intros Hk Hle.
  pose proof (PGROUNDUP_ok kend ltac:(lia)) as HP.
  pose proof (Z.div_mod (kend + 4095) 4096 ltac:(lia)).
  pose proof (Z.mod_pos_bound (kend + 4095) 4096 ltac:(lia)).
  assert (Hh : heap_ok (PGROUNDUP kend)).
  { unfold heap_ok. change PHYSTOP with 2281701376. rewrite HP. split; [lia|]. split; [|lia].
    by apply Z.mod_mul. }
  destruct (boot_ok _ Hh) as (s & E & Es & HI). exists s. split; [exact E|].
  split; [rewrite Es; lia|]. exists (replicate CNT_MEM_BLOCKS ∅). split; [exact HI|].
  intros a Ha. destruct (not_elem_of_empty _ Ha).
Qed.

Lemma boot_allocator_witness :
  ∃ s, (kinit 2147500000;; buddy_init) zero_state = Ok (tt, s) ∧
    PageAlloc.pg_inv (PageAllocator := buddy_pages 2147500000) s ∅.
Proof. apply (boot_allocator 2147500000); [lia|vm_compute; discriminate]. Defined.

(** ** Concrete instances *)

Lemma fresh_heap : ∃ s, inv s (replicate CNT_MEM_BLOCKS ∅) ∧ mem_separator s = 2148532224.
Proof. destruct (boot_ok 2148532224 heap_ok_example) as (s & _ & Es & HI). by exists s. Qed.

Lemma fresh_alloc s : inv s (replicate CNT_MEM_BLOCKS ∅) →
  ∃ a s', buddy_alloc 32 (2 ^ 2) s = Ok (a, s') ∧ a ≠ 0.
Proof.
  intros HI. rewrite buddy_alloc_pow by lia.
  destruct (buddy_alloc_loop_ok 2 CNT_MEM_BLOCKS ltac:(lia) 0 s _ HI ltac:(lia))
    as [(i & U & k & s' & HU & E & _ & _ & Ha & _)|(s' & _ & _ & _ & Hno)].
  - exists (addr s i k), s'. split; [exact E|].
    destruct (addr_range s _ i U k HI HU (proj1 Ha)) as (R1 & _).
    destruct (inv_heap _ _ HI) as (? & _ & _). lia.
  - specialize (Hno 0%nat ∅ ltac:(lia) eq_refl). vm_compute in Hno. discriminate Hno.
Qed.

Lemma alloc_free_roundtrip_witness :
  ∃ s a s', buddy_alloc 32 (2 ^ 2) s = Ok (a, s') ∧
  ∃ s'', buddy_free 2148532224 a s' = Ok (tt, s'') ∧ inv s'' (replicate CNT_MEM_BLOCKS ∅).
Proof.
  destruct fresh_heap as (s & HI & Es). destruct (fresh_alloc s HI) as (a & s' & E & Ha).
  exists s, a, s'. split; [exact E|].
  apply (alloc_free_roundtrip s (replicate CNT_MEM_BLOCKS ∅) 2 a s' 2148532224);
    [exact HI|lia|rewrite Es; lia|exact E|exact Ha].
Defined.

Lemma checker_cnt_page_correct_witness :
  checker_cnt_page 32 6 = Ok (b2z (bool_decide (∃ e : fin 10, 6 = 2 ^ Z.of_nat e))) ∧
  ((¬ ∃ e : fin 10, 6 = 2 ^ Z.of_nat e) → buddy_alloc 32 6 zero_state = Ok (0, zero_state)).
Proof. apply (checker_cnt_page_correct 6 zero_state). lia. Defined.

Lemma checker_cnt_page_defects_witness :
  ∃ s, (∀ fuel, buddy_alloc fuel 0 s = Spin) ∧ buddy_alloc 32 (2 ^ 31) s = Fault.
Proof.
  destruct fresh_heap as (s & HI & _). exists s.
  apply (checker_cnt_page_defects s (replicate CNT_MEM_BLOCKS ∅)). exact HI.
Defined.

Lemma mem_dump_correct_witness :
  ∃ s s', mem_dump s = Ok (mkBlocksInfo 31744 (zsum fpages (replicate CNT_MEM_BLOCKS ∅))
          ((λ d, zsum (λ U, nfree U (Z.of_nat d)) (replicate CNT_MEM_BLOCKS ∅)) <$> seq 0 10), s') ∧
    inv s' (replicate CNT_MEM_BLOCKS ∅).
Proof.
  destruct fresh_heap as (s & HI & _). exists s.
  apply (mem_dump_correct s (replicate CNT_MEM_BLOCKS ∅)). exact HI.
Defined.

End BuddyProps.
