(* ===== verification/Strings.v ===== *)
(** * Byte strings in memory (kernel/string.c, user/ulib.c)

    Memory is a map from addresses to bytes (an unsigned [char], as on
    RISC-V); a routine is a function from memory to memory.  Loops that run
    [n] times recurse on [n]; loops that run to a terminator take fuel.  The
    counter of [strlen], an int, is a number here: the machine has 128 MB. *)

From S2P Require Import Prelude.

Module Strings.

Abbreviation mem := (gmap Z Z).
Definition rd (m : mem) (a : Z) : Z := default 0 (m !! a).
Definition wr (m : mem) (a v : Z) : mem := <[a := v]> m.

(** ** kernel/string.c *)

Fixpoint memset_loop (k : nat) (m : mem) (cdst i c : Z) : mem :=
  match k with
  | O => m
  | S k' => memset_loop k' (wr m (cdst + i) (u8 c)) cdst (i + 1) c
  end.
Definition memset (m : mem) (dst c n : Z) : mem := memset_loop (Z.to_nat n) m dst 0 c.

Fixpoint memcmp_loop (n : nat) (m : mem) (s1 s2 : Z) : Z :=
  match n with
  | O => 0
  | S n' => if negb (rd m s1 =? rd m s2) then rd m s1 - rd m s2
            else memcmp_loop n' m (s1 + 1) (s2 + 1)
  end.
Definition memcmp (m : mem) (v1 v2 n : Z) : Z := memcmp_loop (Z.to_nat n) m v1 v2.

(** [while (n-- > 0) *d++ = *s++;] *)
Fixpoint copy_up (n : nat) (m : mem) (d s : Z) : mem :=
  match n with
  | O => m
  | S n' => copy_up n' (wr m d (rd m s)) (d + 1) (s + 1)
  end.
(** [while (n-- > 0) *--d = *--s;] *)
Fixpoint copy_down (n : nat) (m : mem) (d s : Z) : mem :=
  match n with
  | O => m
  | S n' => copy_down n' (wr m (d - 1) (rd m (s - 1))) (d - 1) (s - 1)
  end.

Definition memmove (m : mem) (dst src n : Z) : mem :=
  if n =? 0 then m
  else if (src <? dst) && (dst <? src + n)
       then copy_down (Z.to_nat n) m (dst + n) (src + n)
       else copy_up (Z.to_nat n) m dst src.
Definition memcpy (m : mem) (dst src n : Z) : mem := memmove m dst src n.

Fixpoint strncmp (m : mem) (p q : Z) (n : nat) : Z :=
  match n with
  | O => 0
  | S n' => if negb (rd m p =? 0) && (rd m p =? rd m q)
            then strncmp m (p + 1) (q + 1) n'
            else rd m p - rd m q
  end.

(** The first loop of [strncpy]; its result is the memory, [s] and the [n]
    left for the second loop. *)
Fixpoint strncpy_loop (n : nat) (m : mem) (s t : Z) : mem * Z * nat :=
  match n with
  | O => (m, s, O)
  | S n' => let c := rd m t in
            let m' := wr m s c in
            if c =? 0 then (m', s + 1, n') else strncpy_loop n' m' (s + 1) (t + 1)
  end.
Fixpoint zero_fill (n : nat) (m : mem) (s : Z) : mem :=
  match n with
  | O => m
  | S n' => zero_fill n' (wr m s 0) (s + 1)
  end.
Definition strncpy (m : mem) (s t n : Z) : mem :=
  let '(m', s', k) := strncpy_loop (Z.to_nat n) m s t in zero_fill k m' s'.

(** The loop of [safestrcpy], entered with [n - 1] iterations at most. *)
Fixpoint safestrcpy_loop (n : nat) (m : mem) (s t : Z) : mem * Z :=
  match n with
  | O => (m, s)
  | S n' => let c := rd m t in
            let m' := wr m s c in
            if c =? 0 then (m', s + 1) else safestrcpy_loop n' m' (s + 1) (t + 1)
  end.
Definition safestrcpy (m : mem) (s t n : Z) : mem :=
  if n <=? 0 then m
  else let '(m', s') := safestrcpy_loop (Z.to_nat (n - 1)) m s t in wr m' s' 0.

Fixpoint strlen_loop (fuel : nat) (m : mem) (s n : Z) : option Z :=
  match fuel with
  | O => None
  | S f => if rd m (s + n) =? 0 then Some n else strlen_loop f m s (n + 1)
  end.
Definition strlen (fuel : nat) (m : mem) (s : Z) : option Z := strlen_loop fuel m s 0.

(** ** user/ulib.c *)

Fixpoint strcpy (fuel : nat) (m : mem) (s t : Z) : option mem :=
  match fuel with
  | O => None
  | S f => let c := rd m t in
           let m' := wr m s c in
           if c =? 0 then Some m' else strcpy f m' (s + 1) (t + 1)
  end.

Fixpoint strcmp (fuel : nat) (m : mem) (p q : Z) : option Z :=
  match fuel with
  | O => None
  | S f => if negb (rd m p =? 0) && (rd m p =? rd m q) then strcmp f m (p + 1) (q + 1)
           else Some (rd m p - rd m q)
  end.

(** The result is the address, 0 when the character does not occur. *)
Fixpoint strchr (fuel : nat) (m : mem) (s c : Z) : option Z :=
  match fuel with
  | O => None
  | S f => if rd m s =? 0 then Some 0
           else if rd m s =? c then Some s else strchr f m (s + 1) c
  end.

Fixpoint atoi_loop (fuel : nat) (m : mem) (s n : Z) : option Z :=
  match fuel with
  | O => None
  | S f => if (48 <=? rd m s) && (rd m s <=? 57)
           then atoi_loop f m (s + 1) (i32 (n * 10 + rd m s - 48))
           else Some n
  end.
Definition atoi (fuel : nat) (m : mem) (s : Z) : option Z := atoi_loop fuel m s 0.

Definition user_memmove (m : mem) (dst src n : Z) : mem :=
  if dst <? src then copy_up (Z.to_nat n) m dst src
  else copy_down (Z.to_nat n) m (dst + n) (src + n).

(** [gets]: [input] is what the successive calls [read(0, &c, 1)] deliver, a
    call on the empty list returns less than 1.  The loop's result is the
    memory, [i] and the input left. *)
Fixpoint gets_loop (k : nat) (m : mem) (buf i : Z) (input : list Z) : mem * Z * list Z :=
  match k with
  | O => (m, i, input)
  | S k' =>
      match input with
      | [] => (m, i, [])
      | c :: input' =>
          let m' := wr m (buf + i) c in
          if (c =? 10) || (c =? 13) then (m', i + 1, input')
          else gets_loop k' m' buf (i + 1) input'
      end
  end.
Definition gets (m : mem) (buf max : Z) (input : list Z) : mem * list Z :=
  let '(m', i, rest) := gets_loop (Z.to_nat (max - 1)) m buf 0 input in
  (wr m' (buf + i) 0, rest).

(** ** Specification vocabulary *)

(** The string at [p] is [l]. *)
Fixpoint cstr (m : mem) (p : Z) (l : list Z) : Prop :=
  match l with
  | [] => rd m p = 0
  | c :: l' => rd m p = c ∧ 0 < c < 256 ∧ cstr m (p + 1) l'
  end.
(** The [n] bytes at [p]. *)
Fixpoint bytes (m : mem) (p : Z) (n : nat) : list Z :=
  match n with O => [] | S n' => rd m p :: bytes m (p + 1) n' end.
(** [m'] differs from [m] at most on [a .. a + n - 1]. *)
Definition only (m m' : mem) (a n : Z) : Prop := ∀ x, ¬ a ≤ x < a + n → rd m' x = rd m x.
(** Decimal value of a list of digit characters. *)
Definition decimal (l : list Z) : Z := foldl (λ n c, n * 10 + c - 48) 0 l.
(** Lexicographic comparison of byte strings. *)
Fixpoint lex (l1 l2 : list Z) : comparison :=
  match l1, l2 with
  | [], [] => Eq
  | [], _ :: _ => Lt
  | _ :: _, [] => Gt
  | a :: l1', b :: l2' => match a ?= b with Eq => lex l1' l2' | c => c end
  end.

(** ** Memory lemmas *)

Lemma rd_wr m a v x : rd (wr m a v) x = if decide (x = a) then v else rd m x.
Proof.
  unfold rd, wr. case_decide; subst; [by rewrite lookup_insert_eq|by rewrite lookup_insert_ne].
Qed.
Lemma rd_wr_eq m a v : rd (wr m a v) a = v.
Proof. rewrite rd_wr. by case_decide. Qed.
Lemma rd_wr_ne m a v x : x ≠ a → rd (wr m a v) x = rd m x.
Proof. intros. rewrite rd_wr. by case_decide. Qed.

Lemma bytes_ext m m' n : ∀ p, (∀ x, p ≤ x < p + Z.of_nat n → rd m' x = rd m x) →
  bytes m' p n = bytes m p n.
Proof.
  induction n as [|n IH]; intros p H; [done|]. cbn [bytes]. f_equal; [apply H; lia|].
  apply IH. intros x Hx. apply H. lia.
Qed.
Lemma bytes_lookup m n : ∀ p i, (i < n)%nat → bytes m p n !! i = Some (rd m (p + Z.of_nat i)).
Proof.
  induction n as [|n IH]; intros p i Hi; [lia|]. destruct i as [|i]; cbn [bytes].
  - by rewrite Z.add_0_r.
  - cbn. rewrite IH by lia. do 2 f_equal. lia.
Qed.
Lemma length_bytes m n : ∀ p, length (bytes m p n) = n.
Proof. induction n as [|n IH]; intros p; cbn; [done|by rewrite IH]. Qed.
Lemma bytes_app m n k : ∀ p, bytes m p (n + k) = bytes m p n ++ bytes m (p + Z.of_nat n) k.
Proof.
  induction n as [|n IH]; intros p; cbn [Nat.add bytes app]; [by rewrite Z.add_0_r|].
  rewrite IH. do 3 f_equal. lia.
Qed.

Lemma cstr_ext m m' l : ∀ p, (∀ x, p ≤ x ≤ p + Z.of_nat (length l) → rd m' x = rd m x) →
  cstr m p l → cstr m' p l.
Proof.
  induction l as [|c l IH]; intros p He H; cbn [cstr length] in *.
  - rewrite He by lia. done.
  - destruct H as (H1 & H2 & H3). split; [rewrite He by lia; done|]. split; [done|].
    apply IH; [|done]. intros x Hx. apply He. lia.
Qed.

(** ** Copying *)

Ltac mem_case := repeat (rewrite rd_wr || case_decide); subst; try (f_equal; lia); try lia; try done.

Lemma copy_up_ok n : ∀ m d s, d ≤ s ∨ s + Z.of_nat n ≤ d → ∀ x,
  rd (copy_up n m d s) x = if decide (d ≤ x < d + Z.of_nat n) then rd m (s + (x - d)) else rd m x.
Proof.
  induction n as [|n IH]; intros m d s H x; cbn [copy_up]; [by rewrite decide_False by lia|].
  rewrite IH by lia. mem_case.
Qed.
Lemma copy_down_ok n : ∀ m d s, s ≤ d ∨ d ≤ s - Z.of_nat n → ∀ x,
  rd (copy_down n m d s) x = if decide (d - Z.of_nat n ≤ x < d) then rd m (s + (x - d)) else rd m x.
Proof.
  induction n as [|n IH]; intros m d s H x; cbn [copy_down]; [by rewrite decide_False by lia|].
  rewrite IH by lia. mem_case.
Qed.

Lemma memmove_ok m dst src n x : 0 ≤ n →
  rd (memmove m dst src n) x = if decide (dst ≤ x < dst + n) then rd m (src + (x - dst)) else rd m x.
Proof.
  intros Hn. unfold memmove. destruct (Z.eqb_spec n 0); [by rewrite decide_False by lia|].
  destruct (Z.ltb_spec src dst), (Z.ltb_spec dst (src + n)); cbn [andb];
    first [rewrite copy_down_ok by lia|rewrite copy_up_ok by lia]; rewrite Z2Nat.id by lia; mem_case.
Qed.
Lemma user_memmove_ok m dst src n x : 0 ≤ n →
  rd (user_memmove m dst src n) x = if decide (dst ≤ x < dst + n) then rd m (src + (x - dst)) else rd m x.
Proof.
  intros Hn. unfold user_memmove. destruct (Z.ltb_spec dst src);
    first [rewrite copy_down_ok by lia|rewrite copy_up_ok by lia]; rewrite Z2Nat.id by lia; mem_case.
Qed.

(** [memmove] of the kernel and of the user library copy [n] bytes as if
    through a temporary buffer, whether or not the two ranges overlap, and
    change nothing else. *)
Theorem memmove_correct m dst src n : 0 ≤ n → ∀ x,
  rd (memmove m dst src n) x = (if decide (dst ≤ x < dst + n) then rd m (src + (x - dst)) else rd m x) ∧
  rd (user_memmove m dst src n) x = rd (memmove m dst src n) x.
Proof. intros Hn x. by rewrite user_memmove_ok, memmove_ok. Qed.

Lemma memmove_correct_witness :
  let m := wr (wr (wr ∅ 100 1) 101 2) 102 3 in
  rd (memmove m 101 100 3) 103 = (if decide (101 ≤ 103 < 101 + 3) then rd m (100 + (103 - 101)) else rd m 103) ∧
  rd (user_memmove m 101 100 3) 103 = rd (memmove m 101 100 3) 103.
Proof. apply (memmove_correct (wr (wr (wr ∅ 100 1) 101 2) 102 3) 101 100 3). lia. Defined.

Lemma zero_fill_ok n : ∀ m s x,
  rd (zero_fill n m s) x = if decide (s ≤ x < s + Z.of_nat n) then 0 else rd m x.
Proof.
  induction n as [|n IH]; intros m s x; cbn [zero_fill]; [by rewrite decide_False by lia|].
  rewrite IH. mem_case.
Qed.

Lemma memset_ok m dst c n x : 0 ≤ n →
  rd (memset m dst c n) x = if decide (dst ≤ x < dst + n) then u8 c else rd m x.
Proof.
  intros [k ->]%Z_of_nat_complete. rename k into n. unfold memset. rewrite Nat2Z.id.
  assert (∀ i m, rd (memset_loop n m dst i c) x =
    if decide (dst + i ≤ x < dst + i + Z.of_nat n) then u8 c else rd m x) as H.
  { induction n as [|n IH]; intros i m'; cbn [memset_loop]; [by rewrite decide_False by lia|].
    rewrite IH. mem_case. }
  rewrite H, Z.add_0_r. done.
Qed.

(** ** Comparison *)

Lemma strncmp_lex n : ∀ m p q l1 l2, cstr m p l1 → cstr m q l2 →
  (strncmp m p q n ?= 0) = lex (take n l1) (take n l2).
Proof.
  induction n as [|n IH]; intros m p q l1 l2 H1 H2; [done|]. cbn [strncmp].
  destruct l1 as [|a l1], l2 as [|b l2]; cbn [cstr] in H1, H2; cbn [take lex].
  - by rewrite H1, H2.
  - destruct H2 as (H2 & Hb & _). rewrite H1, H2. cbn [Z.eqb negb andb].
    apply Z.compare_lt_iff. lia.
  - destruct H1 as (H1 & Ha & _). rewrite H1, H2.
    destruct (Z.eqb_spec a 0); [lia|]. cbn [negb andb]. apply Z.compare_gt_iff. lia.
  - destruct H1 as (-> & Ha & H1), H2 as (-> & Hb & H2).
    destruct (Z.eqb_spec a 0); [lia|]. cbn [negb andb].
    destruct (Z.eqb_spec a b) as [->|Hne]; [rewrite Z.compare_refl; by apply IH|].
    destruct (Z.compare_spec a b); [done|apply Z.compare_lt_iff; lia|apply Z.compare_gt_iff; lia].
Qed.

Lemma strcmp_strncmp fuel : ∀ m p q l1 l2 n, cstr m p l1 → cstr m q l2 →
  (length l1 < fuel)%nat → (length l1 < n)%nat → strcmp fuel m p q = Some (strncmp m p q n).
Proof.
  induction fuel as [|fuel IH]; intros m p q l1 l2 n H1 H2 Hf Hn; [lia|].
  destruct n as [|n]; [lia|]. cbn [strcmp strncmp].
  destruct (Z.eqb_spec (rd m p) 0) as [|Hp]; [done|]. cbn [negb andb].
  destruct (Z.eqb_spec (rd m p) (rd m q)) as [E|]; [|done].
  destruct l1 as [|a l1]; cbn [cstr length] in *; [done|]. destruct H1 as (_ & _ & H1).
  destruct l2 as [|b l2]; cbn [cstr] in H2; [congruence|].
  apply (IH _ _ _ l1 l2); [done|apply H2|lia|lia].
Qed.

(** [strncmp] orders two strings by the lexicographic order of their first
    [n] bytes, and [strcmp] by that of the whole strings. *)
Theorem strncmp_correct m p q l1 l2 n : cstr m p l1 → cstr m q l2 →
  (strncmp m p q n ?= 0) = lex (take n l1) (take n l2) ∧
  ∀ fuel, (length l1 < fuel)%nat →
    ∃ r, strcmp fuel m p q = Some r ∧ (r ?= 0) = lex l1 l2.
Proof.
  intros H1 H2. split; [by apply strncmp_lex|]. intros fuel Hf.
  set (k := S (length l1 + length l2)). exists (strncmp m p q k).
  split; [apply (strcmp_strncmp fuel m p q l1 l2); unfold k; auto; lia|].
  rewrite (strncmp_lex k m p q l1 l2) by done. unfold k. by rewrite !take_ge by lia.
Qed.

Definition demo : mem := wr (wr (wr (wr ∅ 10 97) 11 98) 20 97) 21 99.
Lemma strncmp_correct_witness :
  (strncmp demo 10 20 2 ?= 0) = lex (take 2 [97; 98]) (take 2 [97; 99]) ∧
  ∀ fuel, (length [97; 98] < fuel)%nat →
    ∃ r, strcmp fuel demo 10 20 = Some r ∧ (r ?= 0) = lex [97; 98] [97; 99].
Proof. apply (strncmp_correct demo 10 20 [97; 98] [97; 99] 2); vm_compute; repeat split. Defined.

(** ** Bounded copies *)

Lemma strncpy_loop_ok n : ∀ m s t l m' s' k,
  cstr m t l → (s + Z.of_nat n ≤ t ∨ t + Z.of_nat (length l) < s) →
  strncpy_loop n m s t = (m', s', k) →
  (Z.of_nat n = s' - s + Z.of_nat k) ∧ bytes m' s (Z.to_nat (s' - s)) = take n (l ++ [0]) ∧
  s ≤ s' ∧ (∀ x, ¬ s ≤ x < s' → rd m' x = rd m x).
Proof.
  induction n as [|n IH]; intros m s t l m' s' k Hc Hd E; cbn [strncpy_loop] in E.
  { simplify_eq. split_and!; [lia|by rewrite Z.sub_diag|lia|done]. }
  destruct l as [|c l]; cbn [cstr length] in Hc, Hd.
  - rewrite Hc in E. simplify_eq/=. split_and!; [lia| |lia|].
    + replace (Z.to_nat (s + 1 - s)) with 1%nat by lia. cbn. rewrite rd_wr_eq. by destruct k.
    + intros x Hx. apply rd_wr_ne. lia.
  - destruct Hc as (Hc & Hb & Hl). rewrite Hc in E. destruct (Z.eqb_spec c 0); [lia|].
    apply (IH _ _ _ l) in E as (E1 & E2 & E3 & E4); [|apply (cstr_ext m); [|done]|lia].
    + split_and!; [lia| |lia|].
      * replace (Z.to_nat (s' - s)) with (S (Z.to_nat (s' - (s + 1)))) by lia.
        cbn [bytes app take]. f_equal; [|done]. rewrite E4 by lia. apply rd_wr_eq.
      * intros x Hx. rewrite E4 by lia. apply rd_wr_ne. lia.
    + intros x Hx. apply rd_wr_ne. lia.
Qed.

(** [strncpy] writes exactly [n] bytes: the string cut to [n] bytes, and
    zeros after its end. *)
Theorem strncpy_correct m s t l n : cstr m t l → 0 ≤ n →
  s + n ≤ t ∨ t + Z.of_nat (length l) < s →
  bytes (strncpy m s t n) s (Z.to_nat n) = take (Z.to_nat n) (l ++ replicate (Z.to_nat n) 0) ∧
  only m (strncpy m s t n) s n.
Proof.
  intros Hc Hn Hd. unfold strncpy. destruct (strncpy_loop _ m s t) as [[m' s'] k] eqn:E.
  apply (strncpy_loop_ok _ _ _ _ l) in E as (E1 & E2 & E3 & E4); [|done|lia].
  rewrite Z2Nat.id in E1 by done. split.
  - replace (Z.to_nat n) with (Z.to_nat (s' - s) + k)%nat at 1 by lia. rewrite bytes_app.
    rewrite (bytes_ext m') by (intros x Hx; rewrite zero_fill_ok, decide_False by lia; done).
    rewrite E2. replace (s + _) with s' by lia.
    assert (bytes (zero_fill k m' s') s' k = replicate k 0) as ->.
    { apply list_eq. intros i. destruct (decide (i < k)%nat).
      - rewrite bytes_lookup, lookup_replicate_2, zero_fill_ok, decide_True by lia. done.
      - rewrite !lookup_ge_None_2; [done|by rewrite length_replicate; lia|by rewrite length_bytes; lia]. }
    pose proof (f_equal length E2) as L. rewrite length_bytes, length_take, length_app in L. cbn in L.
    destruct k as [|k].
    + rewrite app_nil_r. destruct (Z.to_nat n) as [|N] eqn:EN; [done|].
      rewrite !take_app. f_equal.
      destruct (decide (S N ≤ length l)%nat).
      * by replace (S N - length l)%nat with O by lia.
      * replace (S N - length l)%nat with 1%nat by lia. done.
    + assert (take (Z.to_nat n) (l ++ [0]) = l ++ [0]) as -> by (apply take_ge; rewrite length_app; cbn; lia).
      rewrite take_app. rewrite (take_ge l) by lia. rewrite <- app_assoc. f_equal.
      rewrite take_replicate. replace (Z.to_nat n - length l)%nat with (S (S k)) by lia.
      by replace (S (S k) `min` Z.to_nat n)%nat with (S (S k)) by lia.
  - intros x Hx. rewrite zero_fill_ok, decide_False by lia. apply E4. lia.
Qed.

Lemma strncpy_correct_witness :
  bytes (strncpy demo 40 10 5) 40 (Z.to_nat 5) = take (Z.to_nat 5) ([97; 98] ++ replicate (Z.to_nat 5) 0) ∧
  only demo (strncpy demo 40 10 5) 40 5.
Proof.
  apply (strncpy_correct demo 40 10 [97; 98] 5); [vm_compute; repeat split|lia|cbn; lia].
Defined.

Lemma safestrcpy_loop_ok n : ∀ m s t l m' s',
  cstr m t l → (s + Z.of_nat n ≤ t ∨ t + Z.of_nat (length l) < s) →
  safestrcpy_loop n m s t = (m', s') →
  s ≤ s' ≤ s + Z.of_nat n ∧ cstr (wr m' s' 0) s (take n l) ∧
  (∀ x, ¬ s ≤ x < s' → rd m' x = rd m x).
Proof.
  induction n as [|n IH]; intros m s t l m' s' Hc Hd E; cbn [safestrcpy_loop] in E.
  { simplify_eq. split_and!; [lia|lia|cbn; apply rd_wr_eq|done]. }
  destruct l as [|c l]; cbn [cstr length] in Hc, Hd.
  - rewrite Hc in E. simplify_eq/=. split_and!; [lia|lia|by rewrite rd_wr_ne, rd_wr_eq by lia|].
    intros x Hx. apply rd_wr_ne. lia.
  - destruct Hc as (Hc & Hb & Hl). rewrite Hc in E. destruct (Z.eqb_spec c 0); [lia|].
    apply (IH _ _ _ l) in E as (E1 & E2 & E3); [|apply (cstr_ext m); [|done]|lia].
    + split_and!; [lia|lia| |].
      * cbn [take cstr]. split; [|done]. rewrite rd_wr_ne, E3 by lia. apply rd_wr_eq.
      * intros x Hx. rewrite E3 by lia. apply rd_wr_ne. lia.
    + intros x Hx. apply rd_wr_ne. lia.
Qed.

(** [safestrcpy] leaves a terminated string, the first [n - 1] bytes of
    its source at most, and stays within the [n] bytes of its destination. *)
Theorem safestrcpy_correct m s t l n : cstr m t l → 0 < n →
  s + n ≤ t ∨ t + Z.of_nat (length l) < s →
  cstr (safestrcpy m s t n) s (take (Z.to_nat (n - 1)) l) ∧ only m (safestrcpy m s t n) s n.
Proof.
  intros Hc Hn Hd. unfold safestrcpy. destruct (Z.leb_spec n 0); [lia|].
  destruct (safestrcpy_loop _ m s t) as [m' s'] eqn:E.
  apply (safestrcpy_loop_ok _ _ _ _ l) in E as (E1 & E2 & E3); [|done|lia].
  split; [done|]. intros x Hx. rewrite rd_wr_ne by lia. apply E3. lia.
Qed.

Lemma safestrcpy_correct_witness :
  cstr (safestrcpy demo 40 10 2) 40 (take (Z.to_nat (2 - 1)) [97; 98]) ∧
  only demo (safestrcpy demo 40 10 2) 40 2.
Proof.
  apply (safestrcpy_correct demo 40 10 [97; 98] 2); [vm_compute; repeat split|lia|cbn; lia].
Defined.

(** ** Loops to a terminator *)

Lemma strlen_loop_ok fuel : ∀ m s n l, cstr m (s + n) l → (length l < fuel)%nat →
  strlen_loop fuel m s n = Some (n + Z.of_nat (length l)).
Proof.
  induction fuel as [|fuel IH]; intros m s n l Hc Hf; [lia|]. cbn [strlen_loop].
  destruct l as [|c l]; cbn [cstr length] in *.
  - rewrite Hc. cbn. f_equal. lia.
  - destruct Hc as (-> & Hb & Hl). destruct (Z.eqb_spec c 0); [lia|].
    rewrite (IH _ _ _ l); [f_equal; lia|by rewrite Z.add_assoc|lia].
Qed.

Lemma strcpy_ok fuel : ∀ m s t l, cstr m t l → (length l < fuel)%nat →
  s + Z.of_nat (length l) < t ∨ t + Z.of_nat (length l) < s →
  ∃ m', strcpy fuel m s t = Some m' ∧ cstr m' s l ∧ only m m' s (Z.of_nat (length l) + 1).
Proof.
  induction fuel as [|fuel IH]; intros m s t l Hc Hf Hd; [lia|]. cbn [strcpy].
  destruct l as [|c l]; cbn [cstr length] in *.
  - rewrite Hc. eexists. split; [done|]. split; [apply rd_wr_eq|].
    intros x Hx. apply rd_wr_ne. lia.
  - destruct Hc as (-> & Hb & Hl). destruct (Z.eqb_spec c 0); [lia|].
    destruct (IH (wr m s c) (s + 1) (t + 1) l) as (m' & E & Hc' & Ho); [|lia|lia|].
    + apply (cstr_ext m); [|done]. intros x Hx. apply rd_wr_ne. lia.
    + exists m'. split; [done|]. split.
      * split; [rewrite Ho by lia; apply rd_wr_eq|done].
      * intros x Hx. rewrite Ho by lia. apply rd_wr_ne. lia.
Qed.

Lemma strchr_ok fuel : ∀ m s l c, cstr m s l → (length l < fuel)%nat →
  strchr fuel m s c = Some (match list_find (c =.) l with
                            | Some (i, _) => s + Z.of_nat i | None => 0 end).
Proof.
  induction fuel as [|fuel IH]; intros m s l c Hc Hf; [lia|]. cbn [strchr].
  destruct l as [|a l]; cbn [cstr length list_find] in *.
  - by rewrite Hc.
  - destruct Hc as (-> & Hb & Hl). destruct (Z.eqb_spec a 0); [lia|].
    destruct (Z.eqb_spec a c) as [->|Hne].
    + rewrite decide_True by done. by rewrite Z.add_0_r.
    + rewrite decide_False by done. rewrite (IH _ _ l) by (done || lia).
      destruct (list_find _ l) as [[i y]|]; cbn; [f_equal; lia|done].
Qed.

(** On a terminated string the user library's loops return, with as much
    fuel as the string has bytes plus one: [strlen] its length, [strcpy] a copy
    of it and nothing else changed, [strchr] the first occurrence of a byte. *)
Theorem string_loops_terminate m p l fuel : cstr m p l → (length l < fuel)%nat →
  strlen fuel m p = Some (Z.of_nat (length l)) ∧
  (∀ c, strchr fuel m p c = Some (match list_find (c =.) l with
                                  | Some (i, _) => p + Z.of_nat i | None => 0 end)) ∧
  (∀ s, s + Z.of_nat (length l) < p ∨ p + Z.of_nat (length l) < s →
    ∃ m', strcpy fuel m s p = Some m' ∧ cstr m' s l ∧ only m m' s (Z.of_nat (length l) + 1)).
Proof.
  intros Hc Hf. split; [|split].
  - unfold strlen. rewrite (strlen_loop_ok _ _ _ _ l); [done|by rewrite Z.add_0_r|done].
  - intros c. by apply strchr_ok.
  - intros s Hs. by apply (strcpy_ok fuel m s p l).
Qed.

Lemma string_loops_terminate_witness :
  strlen 3 demo 10 = Some (Z.of_nat (length [97; 98])) ∧
  (∀ c, strchr 3 demo 10 c = Some (match list_find (c =.) [97; 98] with
                                  | Some (i, _) => 10 + Z.of_nat i | None => 0 end)) ∧
  (∀ s, s + Z.of_nat (length [97; 98]) < 10 ∨ 10 + Z.of_nat (length [97; 98]) < s →
    ∃ m', strcpy 3 demo s 10 = Some m' ∧ cstr m' s [97; 98] ∧
      only demo m' s (Z.of_nat (length [97; 98]) + 1)).
Proof. apply (string_loops_terminate demo 10 [97; 98] 3); [vm_compute; repeat split|cbn; lia]. Defined.

Definition digit (c : Z) : Prop := 48 ≤ c ≤ 57.

(** The characters at [p] are the digits [l], followed by another character. *)
Fixpoint digits_at (m : mem) (p : Z) (l : list Z) : Prop :=
  match l with
  | [] => ¬ digit (rd m p)
  | c :: l' => rd m p = c ∧ digit c ∧ digits_at m (p + 1) l'
  end.

Lemma atoi_loop_ok fuel : ∀ m p l n, digits_at m p l → (length l < fuel)%nat →
  atoi_loop fuel m p (i32 n) = Some (i32 (foldl (λ n c, n * 10 + c - 48) n l)).
Proof.
  induction fuel as [|fuel IH]; intros m p l n Hd Hf; [lia|]. cbn [atoi_loop].
  destruct l as [|c l]; cbn [digits_at length foldl] in *; unfold digit in Hd.
  - by destruct (Z.leb_spec 48 (rd m p)), (Z.leb_spec (rd m p) 57); try lia.
  - destruct Hd as (-> & Hc & Hl).
    destruct (Z.leb_spec 48 c), (Z.leb_spec c 57); try lia. cbn [andb].
    replace (i32 n * 10 + c - 48) with (i32 n * 10 + (c - 48)) by lia. rewrite i32_linear.
    replace (n * 10 + (c - 48)) with (n * 10 + c - 48) by lia. apply IH; [done|lia].
Qed.

(** [atoi] reads the longest prefix of digits and returns its decimal value,
    wrapped to 32 bits; in particular the exact value when it is below 2^31. *)
Theorem atoi_correct m p l fuel : digits_at m p l → (length l < fuel)%nat →
  atoi fuel m p = Some (i32 (decimal l)) ∧
  (0 ≤ decimal l < 2 ^ 31 → atoi fuel m p = Some (decimal l)).
Proof.
  intros Hd Hf. assert (atoi fuel m p = Some (i32 (decimal l))) as E by (by apply (atoi_loop_ok fuel m p l 0)).
  split; [done|]. intros Hv. rewrite E, i32_small; [done|lia].
Qed.

Definition demo_digits : mem := wr (wr (wr ∅ 10 52) 11 50) 12 120.
Lemma atoi_correct_witness :
  atoi 9 demo_digits 10 = Some (i32 (decimal [52; 50])) ∧
  (0 ≤ decimal [52; 50] < 2 ^ 31 → atoi 9 demo_digits 10 = Some (decimal [52; 50])).
Proof.
  apply (atoi_correct demo_digits 10 [52; 50] 9); [|cbn; lia].
  vm_compute. repeat split; try discriminate. intros [_ H]. by apply H.
Defined.

(** ** Reading a line *)

(** The line at the start of the input: up to and with the first newline or
    carriage return. *)
Fixpoint line (input : list Z) : list Z :=
  match input with
  | [] => []
  | c :: l => if (c =? 10) || (c =? 13) then [c] else c :: line l
  end.

Lemma gets_loop_ok k : ∀ m buf i input m' j rest, gets_loop k m buf i input = (m', j, rest) →
  i ≤ j ≤ i + Z.of_nat k ∧ bytes m' (buf + i) (Z.to_nat (j - i)) = take k (line input) ∧
  take k (line input) ++ rest = input ∧ (∀ x, ¬ buf + i ≤ x < buf + j → rd m' x = rd m x).
Proof.
  induction k as [|k IH]; intros m buf i input m' j rest E; cbn [gets_loop] in E.
  { simplify_eq. rewrite Z.sub_diag. split_and!; [lia|lia|done|done|done]. }
  destruct input as [|c input]; cbn [line].
  { simplify_eq. rewrite Z.sub_diag. split_and!; [lia|lia|done|done|done]. }
  destruct ((c =? 10) || (c =? 13)).
  - simplify_eq. split_and!; [lia|lia| |by destruct k|intros x Hx; apply rd_wr_ne; lia].
    replace (Z.to_nat (i + 1 - i)) with 1%nat by lia. cbn. rewrite rd_wr_eq. by destruct k.
  - apply IH in E as (E1 & E2 & E3 & E4). split_and!; [lia|lia| |cbn; by rewrite E3|].
    + replace (Z.to_nat (j - i)) with (S (Z.to_nat (j - (i + 1)))) by lia. cbn [bytes take].
      f_equal; [rewrite E4 by lia; apply rd_wr_eq|]. rewrite <- E2. f_equal. lia.
    + intros x Hx. rewrite E4 by lia. apply rd_wr_ne. lia.
Qed.

(** [gets] stores the next line of its input, cut to [max - 1] bytes, and a
    terminating zero; it stays inside the buffer and consumes exactly the bytes
    it stored. *)
Theorem gets_correct m buf max input m' rest : 0 < max → gets m buf max input = (m', rest) →
  let l := take (Z.to_nat (max - 1)) (line input) in
  bytes m' buf (length l + 1) = l ++ [0] ∧ l ++ rest = input ∧ only m m' buf max.
Proof.
  intros Hm. unfold gets. destruct (gets_loop _ m buf 0 input) as [[m1 j] r] eqn:E.
  intros Hg. simplify_eq. apply gets_loop_ok in E as (E1 & E2 & E3 & E4).
  rewrite Z.add_0_r, Z.sub_0_r in E2. cbv zeta.
  pose proof (f_equal length E2) as L. rewrite length_bytes in L. rewrite <- L.
  split; [|split; [done|]].
  - rewrite bytes_app. f_equal.
    + rewrite <- E2. apply bytes_ext. intros x Hx. apply rd_wr_ne. lia.
    + cbn. rewrite Z2Nat.id by lia. by rewrite rd_wr_eq.
  - intros x Hx. rewrite rd_wr_ne by lia. apply E4. lia.
Qed.

Lemma gets_correct_witness :
  let l := take (Z.to_nat (10 - 1)) (line [97; 98; 10; 99]) in
  bytes (gets ∅ 100 10 [97; 98; 10; 99]).1 100 (length l + 1) = l ++ [0] ∧
  l ++ (gets ∅ 100 10 [97; 98; 10; 99]).2 = [97; 98; 10; 99] ∧
  only ∅ (gets ∅ 100 10 [97; 98; 10; 99]).1 100 10.
Proof. apply (gets_correct ∅ 100 10 [97; 98; 10; 99]); [lia|reflexivity]. Defined.

End Strings.
