(* ===== verification/Grep.v ===== *)
(** * grep (user/grep.c)

    The matcher on strings, given as the characters before the terminator, and
    the loop that cuts the input into lines.  The characters are '^' 94, '.' 46,
    '*' 42, '$' 36 and the newline 10. *)

From S2P Require Import Prelude.

Module Grep.

(** The loop of [matchstar]; [m] is [matchhere] of the rest of the pattern. *)
Section star.
Context (m : list Z → bool) (c : Z).
Fixpoint matchstar (text : list Z) : bool :=
  if m text then true
  else match text with
       | [] => false
       | t :: text' => if (t =? c) || (c =? 46) then matchstar text' else false
       end.
End star.

Fixpoint matchhere (re text : list Z) : bool :=
  match re with
  | [] => true
  | c :: re1 =>
      let single :=
        if (c =? 36) && bool_decide (re1 = []) then bool_decide (text = [])
        else match text with
             | [] => false
             | t :: text' => if (c =? 46) || (c =? t) then matchhere re1 text' else false
             end in
      match re1 with
      | d :: re2 => if d =? 42 then matchstar (matchhere re2) c text else single
      | [] => single
      end
  end.

(** The loop of [match]. *)
Fixpoint match_loop (re text : list Z) : bool :=
  if matchhere re text then true
  else match text with [] => false | _ :: text' => match_loop re text' end.
Definition match_ (re text : list Z) : bool :=
  match re with
  | c :: re' => if c =? 94 then matchhere re' text else match_loop re text
  | [] => match_loop re text
  end.

(** ** The input *)

Definition BUFSIZE : nat := 1024.

(** [strchr(p, '\n')]: the characters before the newline and those behind it. *)
Fixpoint strchr_nl (p : list Z) : option (list Z * list Z) :=
  match p with
  | [] => None
  | c :: p' =>
      if c =? 10 then Some ([], p')
      else match strchr_nl p' with Some (l, r) => Some (c :: l, r) | None => None end
  end.
(** The inner loop over the lines of the buffer: what is written and the rest. *)
Fixpoint lines_loop (fuel : nat) (pattern p : list Z) : list Z * list Z :=
  match strchr_nl p with
  | None => ([], p)
  | Some (l, r) =>
      match fuel with
      | O => ([], p)
      | S fuel' =>
          let '(out, rest) := lines_loop fuel' pattern r in
          ((if match_ pattern l then l ++ [10] else []) ++ out, rest)
      end
  end.
(** The outer loop.  [read k input] is the number of bytes that [read] returns
    when it is asked for [k] bytes and [input] is still to come. *)
Section loop.
Context (read : nat → list Z → nat).
Fixpoint grep_loop (fuel : nat) (pattern buf input : list Z) : list Z :=
  let n := read (BUFSIZE - length buf - 1)%nat input in
  match n with
  | O => []
  | S _ =>
      match fuel with
      | O => []
      | S fuel' =>
          let buf := buf ++ take n input in
          let '(out, rest) := lines_loop (length buf) pattern buf in
          out ++ grep_loop fuel' pattern rest (drop n input)
      end
  end.
Definition grep (pattern input : list Z) : list Z := grep_loop (S (length input)) pattern [] input.
End loop.

(** ** What a pattern means *)

Inductive item := One (c : Z) | Many (c : Z).
(** The items of a pattern and whether it ends with '$'. *)
Fixpoint parse (re : list Z) : list item * bool :=
  match re with
  | [] => ([], false)
  | c :: re1 =>
      match re1 with
      | [] => if c =? 36 then ([], true) else ([One c], false)
      | d :: re2 =>
          if d =? 42 then let '(l, e) := parse re2 in (Many c :: l, e)
          else let '(l, e) := parse re1 in (One c :: l, e)
      end
  end.
Definition fits (c t : Z) : Prop := c = 46 ∨ c = t.
Definition item_lang (i : item) (w : list Z) : Prop :=
  match i with One c => ∃ t, w = [t] ∧ fits c t | Many c => Forall (fits c) w end.
Fixpoint lang (l : list item) (w : list Z) : Prop :=
  match l with [] => w = [] | i :: l' => ∃ w1 w2, w = w1 ++ w2 ∧ item_lang i w1 ∧ lang l' w2 end.
(** The text starts with a word of the pattern; with '$' it is that word. *)
Definition here (p : list item * bool) (text : list Z) : Prop :=
  ∃ w rest, text = w ++ rest ∧ lang p.1 w ∧ (p.2 = true → rest = []).
(** The meaning of a pattern. *)
Definition found (re text : list Z) : Prop :=
  if hd 0 re =? 94 then here (parse (tail re)) text
  else ∃ pre post, text = pre ++ post ∧ here (parse re) post.

(** The lines that a newline ends, and what is behind the last newline. *)
Fixpoint cut (l : list Z) : list (list Z) * list Z :=
  match l with
  | [] => ([], [])
  | c :: l' =>
      let '(ls, r) := cut l' in
      if c =? 10 then ([] :: ls, r)
      else match ls with [] => ([], c :: r) | x :: ls' => ((c :: x) :: ls', r) end
  end.
Definition emit (pattern : list Z) (ls : list (list Z)) : list Z := concat ((λ l, if match_ pattern l then l ++ [10] else []) <$> ls).
(** What is to be expected of [read]: at the end of the input it returns 0,
    before it some bytes when it is asked for some. *)
Definition reads (read : nat → list Z → nat) : Prop :=
  ∀ k input, (read k input ≤ k ∧ read k input ≤ length input)%nat ∧ (read k input = 0%nat → k = 0%nat ∨ input = []).

(** ** The matcher *)

Lemma here_nil e text : here ([], e) text ↔ (e = true → text = []).
Proof.
  unfold here. cbn. split.
  - intros (w & rest & -> & -> & H) He. by rewrite H.
  - intros H. exists [], text. done.
Qed.
Lemma here_one c l e text : here (One c :: l, e) text ↔ ∃ t text', text = t :: text' ∧ fits c t ∧ here (l, e) text'.
Proof.
  unfold here. cbn [fst snd lang item_lang]. split.
  - intros (w & rest & -> & (w1 & w2 & -> & (t & -> & Hf) & Hl) & He). exists t, (w2 ++ rest). split_and!; try done. by exists w2, rest.
  - intros (t & text' & -> & Hf & w & rest & -> & Hl & He). exists (t :: w), rest. split_and!; try done. exists [t], w. split_and!; try done. by exists t.
Qed.
Lemma here_many c l e text : here (Many c :: l, e) text ↔ ∃ w1 w2, text = w1 ++ w2 ∧ Forall (fits c) w1 ∧ here (l, e) w2.
Proof.
  unfold here. cbn [fst snd lang item_lang]. split.
  - intros (w & rest & -> & (w1 & w2 & -> & Hf & Hl) & He). exists w1, (w2 ++ rest). rewrite app_assoc. split_and!; try done. by exists w2, rest.
  - intros (w1 & w2 & -> & Hf & w & rest & -> & Hl & He). exists (w1 ++ w), rest. rewrite app_assoc. split_and!; try done. by exists w1, w.
Qed.

Lemma fits_test c t : (c =? 46) || (c =? t) = true ↔ fits c t.
Proof. unfold fits. rewrite orb_true_iff, !Z.eqb_eq. done. Qed.
Lemma matchstar_ok m c text : matchstar m c text = true ↔ ∃ w1 w2, text = w1 ++ w2 ∧ Forall (fits c) w1 ∧ m w2 = true.
Proof.
  induction text as [|t text IH]; cbn [matchstar].
  - split; [|intros (w1 & w2 & [-> ->]%symmetry%app_nil & _ & ->); done]. destruct (m []) eqn:E; [|done]. intros _. by exists [], [].
  - destruct (m (t :: text)) eqn:E; [split; [intros _; by exists [], (t :: text)|done]|].
    assert ((t =? c) || (c =? 46) = true ↔ fits c t) as Ht by (unfold fits; rewrite orb_true_iff, !Z.eqb_eq; naive_solver).
    destruct ((t =? c) || (c =? 46)).
    + rewrite IH. split.
      * intros (w1 & w2 & -> & Hf & Hm). exists (t :: w1), w2. split_and!; try done. constructor; [by apply Ht|done].
      * intros (w1 & w2 & Ew & Hf & Hm). destruct w1 as [|t' w1]; [cbn in Ew; subst w2; congruence|]. injection Ew as <- ->. exists w1, w2.
        split_and!; try done. by apply Forall_cons_iff in Hf as [_ ?].
    + split; [done|]. intros (w1 & w2 & Ew & Hf & Hm). destruct w1 as [|t' w1]; [cbn in Ew; subst w2; congruence|]. injection Ew as <- ->.
      apply Forall_cons_iff in Hf as [Hf _]. by apply Ht in Hf.
Qed.

(** A step of the pattern that is not a star. *)
Lemma single_ok c re1 text : (∀ text, matchhere re1 text = true ↔ here (parse re1) text) → (hd 0 re1 =? 42 = false) →
  (if (c =? 36) && bool_decide (re1 = []) then bool_decide (text = [])
   else match text with [] => false | t :: text' => if (c =? 46) || (c =? t) then matchhere re1 text' else false end) = true ↔ here (parse (c :: re1)) text.
Proof.
  intros IH Hd. assert ((c =? 36) && bool_decide (re1 = []) = true ∧ parse (c :: re1) = ([], true) ∨
    (c =? 36) && bool_decide (re1 = []) = false ∧ ∃ l e, parse (c :: re1) = (One c :: l, e) ∧ parse re1 = (l, e)) as [[-> ->]|[-> (l & e & -> & El)]].
  { destruct re1 as [|d re2]; cbn [parse hd] in *.
    - destruct (c =? 36); [left; done|right]. split; [done|]. by exists [], false.
    - right. rewrite andb_comm, bool_decide_eq_false_2 by done. split; [done|]. rewrite Hd. change (match re2 with [] => _ | _ :: _ => _ end) with (parse (d :: re2)). destruct (parse (d :: re2)) as [l e]. by exists l, e. }
  - rewrite here_nil, bool_decide_eq_true. naive_solver.
  - rewrite here_one. destruct text as [|t text']; [split; [done|]; by intros (? & ? & ? & _)|].
    destruct ((c =? 46) || (c =? t)) eqn:Ef.
    + rewrite IH, El. apply fits_test in Ef. split; [intros H; by exists t, text'|]. by intros (? & ? & [= <- <-] & _ & H).
    + split; [done|]. intros (? & ? & [= <- <-] & H%fits_test & _). congruence.
Qed.
Lemma matchhere_ok n : ∀ re text, (length re ≤ n)%nat → matchhere re text = true ↔ here (parse re) text.
Proof.
  induction n as [|n IH]; intros re text Hn.
  { destruct re; [|cbn in Hn; lia]. cbn. rewrite here_nil. done. }
  destruct re as [|c re1]; [cbn; rewrite here_nil; done|]. cbn [length] in Hn. destruct re1 as [|d re2].
  - apply (single_ok c [] text); [intros; apply IH; cbn; lia|done].
  - cbn [matchhere]. destruct (d =? 42) eqn:Ed.
    + rewrite matchstar_ok. cbn [parse]. rewrite Ed. destruct (parse re2) as [l e] eqn:El. rewrite here_many. cbn [length] in Hn.
      setoid_rewrite (λ w, IH re2 w ltac:(lia)). by rewrite El.
    + apply (single_ok c (d :: re2) text); [intros; apply IH; cbn in *; lia|done].
Qed.
Lemma match_loop_ok re text : match_loop re text = true ↔ ∃ pre post, text = pre ++ post ∧ here (parse re) post.
Proof.
  induction text as [|t text IH]; cbn [match_loop].
  - pose proof (matchhere_ok (length re) re [] ltac:(lia)) as H. destruct (matchhere re []).
    + split; [|done]. intros _. exists [], []. split; [done|]. by apply H.
    + split; [done|]. intros (pre & post & [-> ->]%symmetry%app_nil & Hp). by apply H.
  - pose proof (matchhere_ok (length re) re (t :: text) ltac:(lia)) as H. destruct (matchhere re (t :: text)).
    + split; [|done]. intros _. exists [], (t :: text). split; [done|]. by apply H.
    + rewrite IH. split; [intros (pre & post & -> & Hp); by exists (t :: pre), post|].
      intros (pre & post & E & Hp). destruct pre as [|t' pre]; [cbn in E; subst post; by apply H in Hp|]. injection E as <- ->. by exists pre, post.
Qed.

(** C29: the matcher finds a pattern in a text exactly when the text has a part
    that is a word of the pattern, at its start with '^' and at its end with
    '$'; '.' stands for any character and '*' repeats the character before it. *)
Theorem match_correct re text : match_ re text = true ↔ found re text.
Proof.
  unfold match_, found. destruct re as [|c re]; [apply match_loop_ok|]. cbn [hd tail]. destruct (c =? 94); [by apply (matchhere_ok (length re))|apply match_loop_ok].
Qed.

(** ** The input *)

Lemma cut_strchr p : match strchr_nl p with
  | None => cut p = ([], p)
  | Some (l, r) => cut p = (l :: (cut r).1, (cut r).2) ∧ (length r < length p)%nat
  end.
Proof.
  induction p as [|c p IH]; cbn [strchr_nl cut]; [done|]. destruct (c =? 10); [destruct (cut p); split; [done|cbn; lia]|].
  destruct (strchr_nl p) as [[l r]|]; [|by rewrite IH]. destruct IH as [-> Hl]. split; [done|cbn; lia].
Qed.
Lemma cut_app p : ∀ q, cut (p ++ q) = ((cut p).1 ++ (cut ((cut p).2 ++ q)).1, (cut ((cut p).2 ++ q)).2).
Proof.
  induction p as [|c p IH]; intros q; [cbn; by destruct (cut q)|]. cbn [app cut]. rewrite IH. destruct (cut p) as [ls r]. cbn [fst snd]. destruct (c =? 10) eqn:Ec; [done|].
  destruct ls as [|x ls]; cbn [app fst snd]; [|done]. cbn [cut]. rewrite Ec. by destruct (cut (r ++ q)) as [[|y ys] z].
Qed.
Lemma lines_loop_ok pattern fuel : ∀ p, (length p ≤ fuel)%nat → lines_loop fuel pattern p = (emit pattern (cut p).1, (cut p).2).
Proof.
  induction fuel as [|fuel IH]; intros p Hf; cbn [lines_loop]; pose proof (cut_strchr p) as H; destruct (strchr_nl p) as [[l r]|]; try by rewrite H.
  - destruct H as [_ H]. lia.
  - destruct H as [-> H]. rewrite IH by lia. done.
Qed.
(** A pending line is the start of a line. *)
Lemma cut_pending b : ∀ q, cut b = ([], b) → match (cut (b ++ q)).1 with [] => b ++ q = (cut (b ++ q)).2 | l :: _ => (length b ≤ length l)%nat end.
Proof.
  induction b as [|c b IH]; intros q H; cbn [app cut] in *.
  - pose proof (cut_strchr q) as Hq. destruct (strchr_nl q) as [[l r]|]; [destruct Hq as [-> _]; cbn; lia|by rewrite Hq].
  - destruct (cut b) as [ls r]. destruct (c =? 10); [done|]. destruct ls as [|x ls]; [|done]. injection H as ->. specialize (IH q eq_refl).
    destruct (cut (b ++ q)) as [[|y ys] z]; cbn in *; [congruence|lia].
Qed.

Definition short (p : list (list Z) * list Z) : Prop := Forall (λ l, (length l ≤ 1022)%nat) p.1 ∧ (length p.2 ≤ 1022)%nat.
Lemma grep_loop_ok read pattern fuel : reads read → ∀ buf input, cut buf = ([], buf) → short (cut (buf ++ input)) → (length input < fuel)%nat →
  grep_loop read fuel pattern buf input = emit pattern (cut (buf ++ input)).1.
Proof.
  intros HR. induction fuel as [|fuel IH]; intros buf input Hb [Hs1 Hs2] Hf; [lia|]. cbn [grep_loop]. pose proof (HR (BUFSIZE - length buf - 1)%nat input) as [[R1 R2] R3].
  assert (length buf ≤ 1022)%nat as Hl.
  { pose proof (cut_pending buf input Hb) as H. destruct (cut (buf ++ input)) as [[|y ys] z]; cbn in *.
    - subst z. rewrite length_app in Hs2. lia.
    - apply Forall_cons_iff in Hs1 as [Hs1 _]. lia. }
  destruct (read (BUFSIZE - length buf - 1)%nat input) as [|n'] eqn:En.
  - destruct (R3 eq_refl) as [H|H]; [unfold BUFSIZE in H; lia|]. subst input. by rewrite app_nil_r, Hb.
  - set (n := S n') in *. rewrite lines_loop_ok by done. assert (buf ++ input = (buf ++ take n input) ++ drop n input) as Ei by (by rewrite <- app_assoc, take_drop). rewrite Ei, (cut_app (buf ++ take n input)) in *. cbn [fst snd] in *.
    unfold emit. rewrite fmap_app, concat_app. f_equal. apply IH.
    + pose proof (cut_strchr (cut (buf ++ take n input)).2) as H. remember (buf ++ take n input) as p eqn:Ep. clear -H.
      assert (strchr_nl (cut p).2 = None) as Hno; [|by rewrite Hno in H].
      clear H. induction p as [|c p IH]; [done|]. cbn [cut]. destruct (cut p) as [ls r]. cbn [snd] in IH. destruct (c =? 10) eqn:Ec; [done|].
      destruct ls; [|done]. cbn [snd strchr_nl]. by rewrite Ec, IH.
    + apply Forall_app in Hs1 as [_ Hs1]. done.
    + rewrite length_drop. lia.
Qed.

(** [grep] writes exactly the lines that match, in order, whatever the sizes
    of the pieces in which the input arrives, when no line is longer than the
    buffer.  What is behind the last newline is not a line. *)
Theorem grep_correct read pattern input : reads read → short (cut input) → grep read pattern input = emit pattern (cut input).1.
Proof. intros HR Hs. unfold grep. rewrite (grep_loop_ok read pattern _ HR [] input); [done|done|done|cbn; lia]. Qed.
Lemma grep_correct_witness : grep (λ k input, Nat.min 3 (Nat.min k (length input))) [94; 97] [97; 98; 10; 99; 97; 10; 97] = [97; 98; 10].
Proof.
  rewrite (grep_correct _ [94; 97] [97; 98; 10; 99; 97; 10; 97]); [done| |].
  - intros k input. split; [lia|]. intros H. destruct k; [by left|]. destruct input; [by right|]. cbn [length] in H. lia.
  - split; [repeat constructor; cbn; lia|cbn; lia].
Defined.
End Grep.
