(* ===== verification/Sh.v ===== *)
(** * The shell's parser (user/sh.c)

    The line is a buffer of bytes with its terminator; a [char *] into it is an
    offset.  Command nodes live in a heap of their own, a [struct cmd *] is an
    index into it: [parseexec] goes on writing the arguments of a node that
    [parseredirs] has already put below others, so nodes are shared objects.
    [malloc] always has room here (a line of 100 bytes needs few nodes).
    [panic] prints its message and leaves the process.

    The characters are '|' 124, '(' 40, ')' 41, ';' 59, '&' 38, '<' 60, '>' 62,
    '+' 43 and 'a' 97. *)

From S2P Require Import Prelude.

Module Sh.

Definition MAXARGS : nat := 10.
(** kernel/fcntl.h *)
Definition O_RDONLY : Z := 0x000.
Definition O_WRONLY : Z := 0x001.
Definition O_RDWR : Z := 0x002.
Definition O_CREATE : Z := 0x200.
Definition O_TRUNC : Z := 0x400.

Inductive cmd : Type :=
| EXEC (argv eargv : list (option nat))
| REDIR (cmd : nat) (file efile : nat) (mode fd : Z)
| PIPE (left right : nat)
| LIST (left right : nat)
| BACK (cmd : nat).

Record sh := mk_sh { buf : list Z; ps : nat; heap : list cmd }.
Definition set_buf (b : list Z) (s : sh) : sh := mk_sh b (ps s) (heap s).
Definition set_ps (p : nat) (s : sh) : sh := mk_sh (buf s) p (heap s).
Definition set_heap (h : list cmd) (s : sh) : sh := mk_sh (buf s) (ps s) h.

(** ** Memory *)

(** [*s], [*s = v]. *)
Definition ch (i : nat) : prog sh Z := λ s,
  match buf s !! i with Some c => Ok (c, s) | None => Fault end.
Definition set_ch (i : nat) (v : Z) : prog sh unit := λ s,
  match buf s !! i with Some _ => Ok (tt, set_buf (<[i := v]> (buf s)) s) | None => Fault end.
Definition node (p : nat) : prog sh cmd := λ s,
  match heap s !! p with Some c => Ok (c, s) | None => Fault end.
Definition new_node (c : cmd) : prog sh nat := λ s,
  Ok (length (heap s), set_heap (heap s ++ [c]) s).
(** [strchr] of ulib.c on a constant string. *)
Definition strchr (l : list Z) (c : Z) : bool := existsb (Z.eqb c) l.
(** [strlen(buf)]. *)
Fixpoint strlen_at (l : list Z) : option nat :=
  match l with
  | [] => None
  | c :: l' => if c =? 0 then Some O else S <$> strlen_at l'
  end.

(** ** Constructors *)

Definition execcmd : prog sh nat := new_node (EXEC (replicate MAXARGS None) (replicate MAXARGS None)).
Definition redircmd (subcmd file efile : nat) (mode fd : Z) : prog sh nat :=
  new_node (REDIR subcmd file efile mode fd).
Definition pipecmd (left right : nat) : prog sh nat := new_node (PIPE left right).
Definition listcmd (left right : nat) : prog sh nat := new_node (LIST left right).
Definition backcmd (subcmd : nat) : prog sh nat := new_node (BACK subcmd).

(** ** Tokens *)

Definition whitespace : list Z := [32; 9; 13; 10; 11].
Definition symbols : list Z := [60; 124; 62; 38; 59; 40; 41].

(** [while(s < es && strchr(whitespace, *s)) s++], with [k = es - s]. *)
Fixpoint skip_ws (k s : nat) : prog sh nat :=
  match k with
  | O => mret s
  | S k' => c ← ch s; if strchr whitespace c then skip_ws k' (S s) else mret s
  end.
(** [while(s < es && !strchr(whitespace, *s) && !strchr(symbols, *s)) s++]. *)
Fixpoint skip_word (k s : nat) : prog sh nat :=
  match k with
  | O => mret s
  | S k' =>
      c ← ch s;
      if negb (strchr whitespace c) && negb (strchr symbols c) then skip_word k' (S s) else mret s
  end.

(** Returns the kind of the token and where it starts and ends. *)
Definition gettoken (es : nat) : prog sh (Z * nat * nat) :=
  s ← gets ps;
  q ← skip_ws (es - s) s;
  c ← ch q;
  r ← (if c =? 0 then mret (c, q)
       else if strchr [124; 40; 41; 59; 38; 60] c then mret (c, S q)
       else if c =? 62 then
         c' ← ch (S q);
         (if c' =? 62 then mret (43, S (S q)) else mret (c, S q))
       else e ← skip_word (es - q) q; mret (97, e));
  let '(ret, eq) := r in
  s' ← skip_ws (es - eq) eq;
  modify (set_ps s');;
  mret (ret, q, eq).

Definition peek (es : nat) (toks : list Z) : prog sh bool :=
  s ← gets ps;
  s' ← skip_ws (es - s) s;
  modify (set_ps s');;
  c ← ch s';
  mret (negb (c =? 0) && strchr toks c).

(** ** The parser

    Loops and recursive calls take fuel. *)

Fixpoint parseredirs (fuel : nat) (cmd es : nat) : prog sh nat :=
  match fuel with
  | O => spin
  | S fuel' =>
      b ← peek es [60; 62];
      if b : bool then
        t ← gettoken es;
        let '(tok, _, _) := t in
        a ← gettoken es;
        let '(tok2, q, eq) := a in
        if negb (tok2 =? 97) then panic "missing file for redirection"
        else
          cmd' ← (if tok =? 60 then redircmd cmd q eq O_RDONLY 0
                  else if tok =? 62 then redircmd cmd q eq (Z.lor (Z.lor O_WRONLY O_CREATE) O_TRUNC) 1
                  else if tok =? 43 then redircmd cmd q eq (Z.lor O_WRONLY O_CREATE) 1
                  else mret cmd);
          parseredirs fuel' cmd' es
      else mret cmd
  end.

(** [cmd->argv[i] = q; cmd->eargv[i] = eq]. *)
Definition set_arg (cmd i : nat) (q eq : option nat) : prog sh unit :=
  x ← node cmd;
  match x with
  | EXEC argv eargv =>
      if bool_decide (i < MAXARGS)%nat
      then modify (λ s, set_heap (<[cmd := EXEC (<[i := q]> argv) (<[i := eq]> eargv)]> (heap s)) s)
      else fault
  | _ => fault
  end.

(** The loop of [parseexec]; the result is [argc] and [ret]. *)
Fixpoint args_loop (fuel : nat) (cmd argc ret es : nat) : prog sh (nat * nat) :=
  match fuel with
  | O => spin
  | S fuel' =>
      b ← peek es [124; 41; 38; 59];
      if b : bool then mret (argc, ret)
      else
        t ← gettoken es;
        let '(tok, q, eq) := t in
        if tok =? 0 then mret (argc, ret)
        else if negb (tok =? 97) then panic "syntax"
        else
          set_arg cmd argc (Some q) (Some eq);;
          (if bool_decide (MAXARGS ≤ S argc)%nat then panic "too many args" else skip);;
          ret' ← parseredirs fuel' ret es;
          args_loop fuel' cmd (S argc) ret' es
  end.

(** [while(peek(ps, es, "&")) ...]. *)
Fixpoint amp_loop (fuel : nat) (cmd es : nat) : prog sh nat :=
  match fuel with
  | O => spin
  | S fuel' =>
      b ← peek es [38];
      if b : bool then gettoken es;; cmd' ← backcmd cmd; amp_loop fuel' cmd' es
      else mret cmd
  end.

Fixpoint parseline (fuel : nat) (es : nat) : prog sh nat :=
  match fuel with
  | O => spin
  | S fuel' =>
      cmd ← parsepipe fuel' es;
      cmd' ← amp_loop fuel' cmd es;
      b ← peek es [59];
      if b : bool then
        gettoken es;;
        right ← parseline fuel' es;
        listcmd cmd' right
      else mret cmd'
  end
with parsepipe (fuel : nat) (es : nat) : prog sh nat :=
  match fuel with
  | O => spin
  | S fuel' =>
      cmd ← parseexec fuel' es;
      b ← peek es [124];
      if b : bool then
        gettoken es;;
        right ← parsepipe fuel' es;
        pipecmd cmd right
      else mret cmd
  end
with parseblock (fuel : nat) (es : nat) : prog sh nat :=
  match fuel with
  | O => spin
  | S fuel' =>
      b ← peek es [40];
      if b : bool then
        gettoken es;;
        cmd ← parseline fuel' es;
        b' ← peek es [41];
        if b' : bool then gettoken es;; parseredirs fuel' cmd es
        else panic "syntax - missing )"
      else panic "parseblock"
  end
with parseexec (fuel : nat) (es : nat) : prog sh nat :=
  match fuel with
  | O => spin
  | S fuel' =>
      b ← peek es [40];
      if b : bool then parseblock fuel' es
      else
        cmd ← execcmd;
        ret ← parseredirs fuel' cmd es;
        r ← args_loop fuel' cmd 0 ret es;
        let '(argc, ret') := r in
        set_arg cmd argc None None;;
        mret ret'
  end.

(** [for(i=0; ecmd->argv[i]; i++) *ecmd->eargv[i] = 0]. *)
Fixpoint nul_args (argv eargv : list (option nat)) : prog sh unit :=
  match argv, eargv with
  | None :: _, _ => skip
  | Some _ :: argv', Some e :: eargv' => set_ch e 0;; nul_args argv' eargv'
  | _, _ => fault
  end.
Fixpoint nulterminate (fuel : nat) (cmd : nat) : prog sh unit :=
  match fuel with
  | O => spin
  | S fuel' =>
      c ← node cmd;
      match c with
      | EXEC argv eargv => nul_args argv eargv
      | REDIR sub _ efile _ _ => nulterminate fuel' sub;; set_ch efile 0
      | PIPE l r => nulterminate fuel' l;; nulterminate fuel' r
      | LIST l r => nulterminate fuel' l;; nulterminate fuel' r
      | BACK sub => nulterminate fuel' sub
      end
  end.

(** [parsecmd(s)] for the line at the start of the buffer. *)
Definition parsecmd (fuel : nat) : prog sh nat :=
  b ← gets buf;
  match strlen_at b with
  | None => fault
  | Some es =>
      modify (set_ps 0);;
      cmd ← parseline fuel es;
      peek es [];;
      s ← gets ps;
      if negb (bool_decide (s = es)) then panic "syntax"
      else nulterminate fuel cmd;; mret cmd
  end.

(** ** Running a command

    The system calls of the process, in order, with the continuation on what
    they return; [fork] returns 0 in the child.  [Stuck] is a null pointer or
    the end of the fuel. *)

Inductive proc : Type :=
| Exit (status : Z)
| Exec (argv : list (list Z)) (failed : proc)
| Open (file : list Z) (mode : Z) (k : Z → proc)
| Close (fd : Z) (k : proc)
| Dup (fd : Z) (k : Z → proc)
| Pipe (k : Z → Z → Z → proc)
| Fork (k : Z → proc)
| Wait (k : proc)
| Chdir (path : list Z) (k : Z → proc)
| Fprintf (fd : Z) (fmt : string) (arg : list Z) (k : proc)
| Stuck.

(** The string at [p]. *)
Fixpoint upto_nul (l : list Z) : list Z :=
  match l with [] => [] | c :: l' => if c =? 0 then [] else c :: upto_nul l' end.
Definition cstr (b : list Z) (p : nat) : list Z := upto_nul (drop p b).
(** The arguments up to the null pointer. *)
Fixpoint argv_strs (b : list Z) (argv : list (option nat)) : list (list Z) :=
  match argv with Some p :: argv' => cstr b p :: argv_strs b argv' | _ => [] end.

Definition die (msg : string) : proc := Fprintf 2 msg [] (Exit 1).
Definition fork1 (k : Z → proc) : proc :=
  Fork (λ pid, if pid =? -1 then die "fork" else k pid).

Fixpoint runcmd (s : sh) (fuel : nat) (cmd : nat) : proc :=
  match fuel with
  | O => Stuck
  | S fuel' =>
      match heap s !! cmd with
      | None => Stuck
      | Some (EXEC argv _) =>
          match argv with
          | [] => Stuck
          | None :: _ => Exit 1
          | Some p :: _ =>
              Exec (argv_strs (buf s) argv) (Fprintf 2 "exec %s failed" (cstr (buf s) p) (Exit 0))
          end
      | Some (REDIR sub file _ mode fd) =>
          Close fd (Open (cstr (buf s) file) mode (λ r,
            if r <? 0 then Fprintf 2 "open %s failed" (cstr (buf s) file) (Exit 1)
            else runcmd s fuel' sub))
      | Some (LIST l r) =>
          fork1 (λ pid, if pid =? 0 then runcmd s fuel' l else Wait (runcmd s fuel' r))
      | Some (PIPE l r) =>
          Pipe (λ ret p0 p1,
            if ret <? 0 then die "pipe"
            else fork1 (λ pid,
              if pid =? 0 then
                Close 1 (Dup p1 (λ _, Close p0 (Close p1 (runcmd s fuel' l))))
              else fork1 (λ pid,
                if pid =? 0 then
                  Close 0 (Dup p0 (λ _, Close p0 (Close p1 (runcmd s fuel' r))))
                else Close p0 (Close p1 (Wait (Wait (Exit 0)))))))
      | Some (BACK sub) =>
          fork1 (λ pid, if pid =? 0 then runcmd s fuel' sub else Exit 0)
      end
  end.

(** ** The shell

    [input] is what is still to be read from descriptor 0. *)

(** [gets] of ulib.c, with room for [k] characters and the terminator. *)
Fixpoint gets_line (k : nat) (input : list Z) : list Z * list Z :=
  match k, input with
  | S k', c :: input' =>
      if (c =? 10) || (c =? 13) then ([c], input')
      else let '(l, r) := gets_line k' input' in (c :: l, r)
  | _, _ => ([], input)
  end.
(** The prompt, and then the buffer with the line; it starts with 0 at the end
    of the input. *)
Definition getcmd (nbuf : nat) (input : list Z) (k : list Z → list Z → proc) : proc :=
  Fprintf 2 "$ " []
    (let '(l, r) := gets_line (nbuf - 1) input in k (l ++ replicate (nbuf - length l) 0) r).

Definition is_cd (b : list Z) : bool :=
  match b with
  | c0 :: c1 :: c2 :: _ => (c0 =? 99) && (c1 =? 100) && (c2 =? 32)
  | _ => false
  end.
(** The body of the loop: [next] is the rest of the shell. *)
Definition command (fuel : nat) (b : list Z) (next : proc) : proc :=
  if is_cd b then
    match strlen_at b with
    | None => Stuck
    | Some n =>
        let b := <[(n - 1)%nat := 0]> b in
        Chdir (cstr b 3) (λ r, if r <? 0 then Fprintf 2 "cannot cd %s" (cstr b 3) next else next)
    end
  else
    fork1 (λ pid,
      if pid =? 0 then
        match parsecmd fuel (mk_sh b 0 []) with
        | Ok (cmd, s) => runcmd s fuel cmd
        | Panic msg => die msg
        | _ => Stuck
        end
      else Wait next).
Fixpoint main_loop (fuel : nat) (input : list Z) : proc :=
  match fuel with
  | O => Stuck
  | S fuel' =>
      getcmd 100 input (λ b rest,
        match b with
        | [] => Stuck
        | c :: _ => if c =? 0 then Exit 0 else command 500 b (main_loop fuel' rest)
        end)
  end.
(** [while((fd = open("console", O_RDWR)) >= 0) ...]; "console" in ASCII. *)
Definition console : list Z := [99; 111; 110; 115; 111; 108; 101].
Fixpoint open_loop (fuel : nat) (k : proc) : proc :=
  match fuel with
  | O => Stuck
  | S fuel' =>
      Open console O_RDWR (λ fd,
        if fd <? 0 then k else if 3 <=? fd then Close fd k else open_loop fuel' k)
  end.
Definition main (fuel : nat) (input : list Z) : proc := open_loop 4 (main_loop fuel input).

End Sh.
