(* ===== verification/ShGrammar.v ===== *)
(** * The command language of the shell

    A grammar of command lines over tokens, a recursive-descent parser of
    tokens with the shape of user/sh.c, and that the parser decides the
    grammar: it accepts exactly the lines with a derivation, with the tree of
    the derivation, and stops within a fuel linear in the number of tokens. *)

From S2P Require Import Prelude Sh.

Module ShGrammar.

(** ** Syntax *)

(** The redirections [<], [>] and [>>]. *)
Inductive rop : Type := RIn | ROut | RApp.

Section syntax.
Context {W : Type}.

Inductive tok : Type := Word (w : W) | Redir (o : rop) | Bar | Amp | Semi | LPar | RPar.
Inductive tree : Type :=
| TExec (args : list W)
| TRedir (t : tree) (o : rop) (file : W)
| TPipe (t u : tree)
| TList (t u : tree)
| TBack (t : tree).

(** The first redirection is the innermost. *)
Definition wrap (t : tree) (rs : list (rop * W)) : tree :=
  foldl (λ t r, TRedir t r.1 r.2) t rs.

(** ** The grammar *)

Inductive simple : list tok → list W → list (rop * W) → Prop :=
| simple_nil : simple [] [] []
| simple_word w ts ws rs : simple ts ws rs → simple (Word w :: ts) (w :: ws) rs
| simple_redir o w ts ws rs : simple ts ws rs → simple (Redir o :: Word w :: ts) ws ((o, w) :: rs).

Inductive line : list tok → tree → Prop :=
| line_end ts t n : pipe ts t → line (ts ++ replicate n Amp) (Nat.iter n TBack t)
| line_seq ts t n us u : pipe ts t → line us u →
    line (ts ++ replicate n Amp ++ Semi :: us) (TList (Nat.iter n TBack t) u)
with pipe : list tok → tree → Prop :=
| pipe_one ts t : exec ts t → pipe ts t
| pipe_cons ts t us u : exec ts t → pipe us u → pipe (ts ++ Bar :: us) (TPipe t u)
with exec : list tok → tree → Prop :=
| exec_simple ts ws rs : simple ts ws rs → (length ws < Sh.MAXARGS)%nat →
    exec ts (wrap (TExec ws) rs)
| exec_block ts t us rs : line ts t → simple us [] rs →
    exec (LPar :: ts ++ RPar :: us) (wrap t rs).

(** ** The parser of tokens *)

Definition tpeek (f : tok → bool) : prog (list tok) bool := λ ts,
  Ok (match ts with t :: _ => f t | [] => false end, ts).
Definition ttake : prog (list tok) (option tok) := λ ts,
  match ts with [] => Ok (None, []) | t :: ts' => Ok (Some t, ts') end.
Definition is_redir (t : tok) : bool := match t with Redir _ => true | _ => false end.
Definition is_bar (t : tok) : bool := match t with Bar => true | _ => false end.
Definition is_amp (t : tok) : bool := match t with Amp => true | _ => false end.
Definition is_semi (t : tok) : bool := match t with Semi => true | _ => false end.
Definition is_lpar (t : tok) : bool := match t with LPar => true | _ => false end.
Definition is_rpar (t : tok) : bool := match t with RPar => true | _ => false end.
Definition is_stop (t : tok) : bool :=
  match t with Bar | RPar | Amp | Semi => true | _ => false end.

Fixpoint tredirs (fuel : nat) : prog (list tok) (list (rop * W)) :=
  match fuel with
  | O => spin
  | S fuel' =>
      b ← tpeek is_redir;
      if b : bool then
        t ← ttake;
        a ← ttake;
        match t, a with
        | Some (Redir o), Some (Word w) => rs ← tredirs fuel'; mret ((o, w) :: rs)
        | _, _ => panic "missing file for redirection"
        end
      else mret []
  end.
Fixpoint targs (fuel argc : nat) : prog (list tok) (list W * list (rop * W)) :=
  match fuel with
  | O => spin
  | S fuel' =>
      b ← tpeek is_stop;
      if b : bool then mret ([], [])
      else
        t ← ttake;
        match t with
        | None => mret ([], [])
        | Some (Word w) =>
            (if bool_decide (Sh.MAXARGS ≤ S argc)%nat then panic "too many args" else skip);;
            rs ← tredirs fuel';
            r ← targs fuel' (S argc);
            mret (w :: r.1, rs ++ r.2)
        | Some _ => panic "syntax"
        end
  end.
Fixpoint tamps (fuel : nat) : prog (list tok) nat :=
  match fuel with
  | O => spin
  | S fuel' =>
      b ← tpeek is_amp;
      if b : bool then ttake;; n ← tamps fuel'; mret (S n) else mret O
  end.
Fixpoint tline (fuel : nat) : prog (list tok) tree :=
  match fuel with
  | O => spin
  | S fuel' =>
      t ← tpipe fuel';
      n ← tamps fuel';
      b ← tpeek is_semi;
      if b : bool then ttake;; u ← tline fuel'; mret (TList (Nat.iter n TBack t) u)
      else mret (Nat.iter n TBack t)
  end
with tpipe (fuel : nat) : prog (list tok) tree :=
  match fuel with
  | O => spin
  | S fuel' =>
      t ← texec fuel';
      b ← tpeek is_bar;
      if b : bool then ttake;; u ← tpipe fuel'; mret (TPipe t u) else mret t
  end
with tblock (fuel : nat) : prog (list tok) tree :=
  match fuel with
  | O => spin
  | S fuel' =>
      b ← tpeek is_lpar;
      if b : bool then
        ttake;;
        t ← tline fuel';
        b' ← tpeek is_rpar;
        if b' : bool then ttake;; rs ← tredirs fuel'; mret (wrap t rs)
        else panic "syntax - missing )"
      else panic "parseblock"
  end
with texec (fuel : nat) : prog (list tok) tree :=
  match fuel with
  | O => spin
  | S fuel' =>
      b ← tpeek is_lpar;
      if b : bool then tblock fuel'
      else
        rs ← tredirs fuel';
        r ← targs fuel' 0;
        mret (wrap (TExec r.1) (rs ++ r.2))
  end.

(** ** The parser stops *)

(** [safe m n]: on at most [n] tokens, [m] ends, without a fault, and leaves
    no more tokens than it found. *)
Definition safe {A} (m : prog (list tok) A) (n : nat) : Prop := ∀ ts, (length ts ≤ n)%nat →
  (∃ a ts', m ts = Ok (a, ts') ∧ (length ts' ≤ length ts)%nat) ∨ ∃ msg, m ts = Panic msg.

Lemma safe_ret {A} (a : A) n : safe (mret a) n.
Proof. intros ts _. left. by exists a, ts. Qed.
Lemma safe_panic {A} msg n : safe (panic msg : prog _ A) n.
Proof. intros ts _. right. by exists msg. Qed.
Lemma safe_bind {A B} (m : prog (list tok) A) (f : A → prog (list tok) B) n :
  safe m n → (∀ a, safe (f a) n) → safe (m ≫= f) n.
Proof.
  intros Hm Hf ts Hts. destruct (Hm ts Hts) as [(a & ts' & E & Hl)|[msg E]].
  - rewrite (bind_Ok _ _ _ _ _ E). destruct (Hf a ts') as [(b & u & E' & ?)|?]; [lia| |by right].
    left. exists b, u. split; [done|lia].
  - right. exists msg. by apply bind_Panic.
Qed.
(** A token that is peeked at and taken leaves fewer tokens. *)
Lemma safe_take {A} f (m k : prog (list tok) A) n :
  (∀ n', (S n' = n)%nat → safe m n') → safe k n →
  safe (b ← tpeek f; if b : bool then ttake;; m else k) n.
Proof.
  intros Hm Hk ts Hts. rewrite (bind_Ok (tpeek f) _ ts _ _ eq_refl).
  destruct ts as [|t ts]; [by apply Hk|]. destruct (f t); [|by apply Hk].
  rewrite (bind_Ok ttake _ (t :: ts) _ _ eq_refl). simpl in Hts.
  destruct n as [|n]; [lia|]. destruct (Hm n eq_refl ts) as [(a & ts' & E & ?)|?]; [lia| |by right].
  left. exists a, ts'. simpl. split; [done|lia].
Qed.

Lemma tredirs_safe fuel n : (n < fuel)%nat → safe (tredirs fuel) n.
Proof.
  revert n. induction fuel as [|fuel IH]; intros n Hn ts Hts; [lia|].
  destruct ts as [|[w|o| | | | |] ts]; try (left; by eexists _, _).
  destruct ts as [|[w|o'| | | | |] ts]; try (right; by eexists).
  simpl in Hts. change (tredirs (S fuel) (Redir o :: Word w :: ts)) with
    ((rs ← tredirs fuel; mret ((o, w) :: rs)) ts).
  destruct (safe_bind (tredirs fuel) (λ rs, mret ((o, w) :: rs)) (n - 1)%nat) with (ts := ts)
    as [(a & ts' & E & ?)|?]; [apply IH; lia|intros; apply safe_ret|lia| |by right].
  left. exists a, ts'. simpl. split; [done|lia].
Qed.
Lemma targs_safe fuel n argc : (n < fuel)%nat → safe (targs fuel argc) n.
Proof.
  revert n argc. induction fuel as [|fuel IH]; intros n argc Hn ts Hts; [lia|].
  destruct ts as [|[w|o| | | | |] ts]; try (left; by eexists _, _); try (right; by eexists).
  simpl in Hts.
  destruct (safe_bind ((if bool_decide (Sh.MAXARGS ≤ S argc)%nat then panic "too many args" else skip))
    (λ _ : unit, rs ← tredirs fuel; r ← targs fuel (S argc); mret (w :: r.1, rs ++ r.2)) (n - 1)%nat)
    with (ts := ts) as [(a & ts' & E & ?)|?]; [| |lia| |by right].
  - case_bool_decide; [apply safe_panic|apply safe_ret].
  - intros _. apply safe_bind; [apply tredirs_safe; lia|]. intros rs.
    apply safe_bind; [apply IH; lia|]. intros r. apply safe_ret.
  - left. exists a, ts'. simpl. split; [exact E|lia].
Qed.
Lemma tamps_safe fuel n : (n < fuel)%nat → safe (tamps fuel) n.
Proof.
  revert n. induction fuel as [|fuel IH]; intros n Hn; [lia|].
  simpl. apply safe_take; [|apply safe_ret]. intros n' <-.
  apply safe_bind; [apply IH; lia|]. intros. apply safe_ret.
Qed.

Lemma tparse_safe fuel : ∀ n,
  ((4 * n + 4 ≤ fuel)%nat → safe (tline fuel) n) ∧ ((4 * n + 3 ≤ fuel)%nat → safe (tpipe fuel) n) ∧
  ((4 * n + 1 ≤ fuel)%nat → safe (tblock fuel) n) ∧ ((4 * n + 2 ≤ fuel)%nat → safe (texec fuel) n).
Proof.
  induction fuel as [|fuel IH]; intros n; [repeat split; lia|]. repeat split; intros Hf.
  - apply safe_bind; [apply IH; lia|]. intros t. apply safe_bind; [apply tamps_safe; lia|].
    intros k. apply safe_take; [|apply safe_ret]. intros n' <-.
    apply safe_bind; [apply IH; lia|]. intros u. apply safe_ret.
  - apply safe_bind; [apply IH; lia|]. intros t. apply safe_take; [|apply safe_ret]. intros n' <-.
    apply safe_bind; [apply IH; lia|]. intros u. apply safe_ret.
  - apply safe_take; [|apply safe_panic]. intros n' <-. apply safe_bind; [apply IH; lia|].
    intros t. apply safe_take; [|apply safe_panic]. intros n'' <-.
    apply safe_bind; [apply tredirs_safe; lia|]. intros rs. apply safe_ret.
  - intros ts Hts. simpl. rewrite (bind_Ok (tpeek _) _ ts _ _ eq_refl).
    destruct (match ts with [] => _ | _ => _ end); [apply (proj1 (proj2 (proj2 (IH n)))); lia|].
    revert ts Hts. apply safe_bind; [apply tredirs_safe; lia|]. intros rs.
    apply safe_bind; [apply targs_safe; lia|]. intros r. apply safe_ret.
Qed.

(** ** Soundness *)

Lemma simple_redirs_app ts us ws rs rs' :
  simple ts [] rs → simple us ws rs' → simple (ts ++ us) ws (rs ++ rs').
Proof.
  intros H Hu. remember (@nil W) as e eqn:He. induction H; simplify_eq; simpl; [done|].
  constructor. by apply IHsimple.
Qed.

Lemma tredirs_sound fuel ts rs ts' : tredirs fuel ts = Ok (rs, ts') →
  ∃ ts1, ts = ts1 ++ ts' ∧ simple ts1 [] rs.
Proof.
  revert ts rs ts'. induction fuel as [|fuel IH]; intros ts rs ts' H; [done|].
  assert (∀ x : list tok, Ok ([], x) = Ok (rs, ts') → ∃ ts1, x = ts1 ++ ts' ∧ simple ts1 [] rs) as Hnil.
  { intros x [= <- <-]. exists []. split; [done|constructor]. }
  destruct ts as [|[w|o| | | | |] ts]; try (by apply Hnil).
  destruct ts as [|[w|o'| | | | |] ts]; try done.
  apply (bind_inv (tredirs fuel) (λ rs, mret ((o, w) :: rs)) ts) in H as (rs1 & ts2 & H & [= <- <-]).
  apply IH in H as (ts1 & -> & Hs). exists (Redir o :: Word w :: ts1). split; [done|by constructor].
Qed.
Lemma targs_sound fuel argc ts r ts' : targs fuel argc ts = Ok (r, ts') → (argc < Sh.MAXARGS)%nat →
  ∃ ts1, ts = ts1 ++ ts' ∧ simple ts1 r.1 r.2 ∧ (argc + length r.1 < Sh.MAXARGS)%nat.
Proof.
  revert argc ts r ts'. induction fuel as [|fuel IH]; intros argc ts r ts' H Ha; [done|].
  assert (∀ x : list tok, Ok ([], [], x) = Ok (r, ts') →
    ∃ ts1, x = ts1 ++ ts' ∧ simple ts1 r.1 r.2 ∧ (argc + length r.1 < Sh.MAXARGS)%nat) as Hnil.
  { intros x [= <- <-]. exists []. simpl. split; [done|]. split; [constructor|lia]. }
  destruct ts as [|[w|o| | | | |] ts]; try (by apply Hnil); try done.
  apply (bind_inv (if bool_decide (Sh.MAXARGS ≤ S argc)%nat then panic "too many args" else skip)
    (λ _ : unit, rs ← tredirs fuel; r ← targs fuel (S argc); mret (w :: r.1, rs ++ r.2)) ts) in H
    as ([] & ts0 & H0 & H).
  case_bool_decide as Hmax; [done|]. injection H0 as <-.
  apply bind_inv in H as (rs & ts2 & H1 & H). apply bind_inv in H as (r2 & ts3 & H2 & [= <- <-]).
  apply tredirs_sound in H1 as (u1 & -> & S1). apply IH in H2 as (u2 & -> & S2 & Hl); [|lia].
  exists (Word w :: u1 ++ u2). split; [simpl; by rewrite (assoc_L (++))|]. simpl.
  split; [constructor; by apply simple_redirs_app|lia].
Qed.
Lemma tamps_sound fuel ts n ts' : tamps fuel ts = Ok (n, ts') → ts = replicate n Amp ++ ts'.
Proof.
  revert ts n ts'. induction fuel as [|fuel IH]; intros ts n ts' H; [done|].
  destruct ts as [|[w|o| | | | |] ts]; try (by injection H as <- <-).
  apply (bind_inv (tamps fuel) (λ n, mret (S n)) ts) in H as (m & ts2 & H & [= <- <-]).
  apply IH in H as ->. done.
Qed.
(** Peek and take. *)
Lemma peek_inv {A} f (m k : prog (list tok) A) ts r :
  (b ← tpeek f; if b : bool then ttake;; m else k) ts = Ok r →
  (∃ t ts', ts = t :: ts' ∧ f t = true ∧ m ts' = Ok r) ∨ k ts = Ok r.
Proof.
  rewrite (bind_Ok (tpeek f) _ ts _ _ eq_refl). destruct ts as [|t ts]; [by right|].
  destruct (f t) eqn:E; [|by right]. intros H. left. by exists t, ts.
Qed.

Lemma tparse_sound fuel : ∀ ts t ts',
  (tline fuel ts = Ok (t, ts') → ∃ ts1, ts = ts1 ++ ts' ∧ line ts1 t) ∧
  (tpipe fuel ts = Ok (t, ts') → ∃ ts1, ts = ts1 ++ ts' ∧ pipe ts1 t) ∧
  (tblock fuel ts = Ok (t, ts') → ∃ ts1, ts = ts1 ++ ts' ∧ exec ts1 t) ∧
  (texec fuel ts = Ok (t, ts') → ∃ ts1, ts = ts1 ++ ts' ∧ exec ts1 t).
Proof.
  induction fuel as [|fuel IH]; intros ts t ts'; [done|]. repeat split; intros H.
  - apply bind_inv in H as (t1 & u1 & H1 & H). apply IH in H1 as (x1 & -> & P1).
    apply bind_inv in H as (n & u2 & H2 & H). apply tamps_sound in H2 as ->.
    apply peek_inv in H as [(y & u3 & -> & E & H)|[= <- <-]].
    + destruct y; try done. apply bind_inv in H as (u & u4 & H & [= <- <-]).
      apply IH in H as (x2 & -> & P2). eexists. split; [|by apply line_seq].
      by rewrite <- !(assoc_L (++)).
    + eexists. split; [|by apply line_end]. by rewrite (assoc_L (++)).
  - apply bind_inv in H as (t1 & u1 & H1 & H). apply IH in H1 as (x1 & -> & P1).
    apply peek_inv in H as [(y & u3 & -> & E & H)|[= <- <-]].
    + destruct y; try done. apply bind_inv in H as (u & u4 & H & [= <- <-]).
      apply IH in H as (x2 & -> & P2). eexists. split; [|by apply pipe_cons].
      by rewrite <- !(assoc_L (++)).
    + eexists. split; [done|by apply pipe_one].
  - apply peek_inv in H as [(y & u3 & -> & E & H)|?]; [|done]. destruct y; try done.
    apply bind_inv in H as (t1 & u1 & H1 & H). apply IH in H1 as (x1 & -> & P1).
    apply peek_inv in H as [(y & u4 & -> & E' & H)|?]; [|done]. destruct y; try done.
    apply bind_inv in H as (rs & u5 & H & [= <- <-]). apply tredirs_sound in H as (x2 & -> & P2).
    eexists. split; [|by apply exec_block]. simpl. by rewrite <- !(assoc_L (++)).
  - simpl in H. rewrite (bind_Ok (tpeek _) _ ts _ _ eq_refl) in H.
    destruct (match ts with [] => _ | _ => _ end); [exact (proj1 (proj2 (proj2 (IH ts t ts'))) H)|].
    apply bind_inv in H as (rs & u1 & H1 & H). apply tredirs_sound in H1 as (x1 & -> & P1).
    apply bind_inv in H as (r & u2 & H2 & [= <- <-]).
    apply targs_sound in H2 as (x2 & -> & P2 & Hl); [|unfold Sh.MAXARGS; lia].
    eexists. split; [|apply exec_simple; [by apply simple_redirs_app|lia]]. by rewrite (assoc_L (++)).
Qed.

(** ** Completeness *)

Definition starts (f : tok → bool) (ts : list tok) : bool :=
  match ts with t :: _ => f t | [] => false end.
(** What follows a line, a pipeline and a command. *)
Definition after_line (ts : list tok) : Prop := ts = [] ∨ starts is_rpar ts = true.
Definition after_pipe (ts : list tok) : Prop :=
  after_line ts ∨ starts is_amp ts = true ∨ starts is_semi ts = true.
Definition after_exec (ts : list tok) : Prop := after_pipe ts ∨ starts is_bar ts = true.

(** [m] gives [a] and leaves [ts'], unless the fuel ends. *)
Definition gives {A} (m : prog (list tok) A) (ts : list tok) (a : A) (ts' : list tok) : Prop :=
  m ts = Ok (a, ts') ∨ m ts = Spin.

Lemma gives_ret {A} (a : A) ts : gives (mret a) ts a ts.
Proof. by left. Qed.
Lemma gives_bind {A B} (m : prog (list tok) A) (f : A → prog (list tok) B) ts a ts' b ts'' :
  gives m ts a ts' → gives (f a) ts' b ts'' → gives (m ≫= f) ts b ts''.
Proof.
  intros [E|E] H; [|right; by apply bind_Spin]. unfold gives. by rewrite (bind_Ok _ _ _ _ _ E).
Qed.
Lemma gives_peek {A} f (m k : prog (list tok) A) t ts a ts' : f t = true →
  gives m ts a ts' → gives (b ← tpeek f; if b : bool then ttake;; m else k) (t :: ts) a ts'.
Proof.
  intros Hf H. unfold gives. rewrite (bind_Ok (tpeek f) _ (t :: ts) _ _ eq_refl), Hf. exact H.
Qed.
Lemma gives_pass {A} f (m k : prog (list tok) A) ts a ts' : starts f ts = false →
  gives k ts a ts' → gives (b ← tpeek f; if b : bool then m else k) ts a ts'.
Proof.
  intros Hf H. unfold gives. rewrite (bind_Ok (tpeek f) _ ts _ _ eq_refl).
  unfold starts in Hf. by rewrite Hf.
Qed.

Lemma tredirs_complete fuel us rs ts : simple us [] rs → starts is_redir ts = false →
  gives (tredirs fuel) (us ++ ts) rs ts.
Proof.
  intros H Hts. revert fuel. remember (@nil W) as e eqn:He. induction H; intros fuel; simplify_eq.
  - destruct fuel; [by right|]. apply gives_pass; [done|apply gives_ret].
  - destruct fuel as [|fuel]; [by right|].
    change (gives (rs ← tredirs fuel; mret ((o, w) :: rs)) (ts0 ++ ts) ((o, w) :: rs) ts).
    eapply gives_bind; [by apply IHsimple|apply gives_ret].
Qed.
(** A simple command is its first redirections and then words with theirs. *)
Lemma simple_split us ws rs : simple us ws rs → ∃ u1 r1 u2 r2, us = u1 ++ u2 ∧ rs = r1 ++ r2 ∧
  simple u1 [] r1 ∧ simple u2 ws r2 ∧ starts is_redir u2 = false ∧ (length u2 ≤ length us)%nat.
Proof.
  induction 1 as [|w us ws rs H IH|o w us ws rs H IH].
  - exists [], [], [], []. repeat split; constructor.
  - exists [], [], (Word w :: us), rs. repeat split; [constructor|by constructor|done].
  - destruct IH as (u1 & r1 & u2 & r2 & -> & -> & H1 & H2 & H3 & H4).
    exists (Redir o :: Word w :: u1), ((o, w) :: r1), u2, r2. repeat split; try done; [by constructor|].
    simpl. lia.
Qed.
Lemma after_exec_stop ts : after_exec ts → ts = [] ∨ starts is_stop ts = true.
Proof.
  intros [[[->|H]|[H|H]]|H]; [by left|..]; right; destruct ts as [|[]]; done.
Qed.
Lemma stop_not_redir ts : ts = [] ∨ starts is_stop ts = true →
  starts is_redir ts = false ∧ starts is_lpar ts = false.
Proof. intros [->|H]; [done|]. by destruct ts as [|[]]. Qed.

Lemma targs_complete fuel argc us ws rs ts : simple us ws rs → starts is_redir us = false →
  (argc + length ws < Sh.MAXARGS)%nat → ts = [] ∨ starts is_stop ts = true →
  gives (targs fuel argc) (us ++ ts) (ws, rs) ts.
Proof.
  intros H Hus Ha Hts. revert argc us rs H Hus Ha. induction ws as [|w ws IH] in fuel |- *;
    intros argc us rs H Hus Ha; (destruct fuel as [|fuel]; [by right|]); inversion H; simplify_eq.
  - destruct Hts as [->|Hs]; [by left|]. destruct ts as [|[]]; by left.
  - rename select (simple _ _ _) into Hs.
    apply simple_split in Hs as (u1 & r1 & u2 & r2 & -> & -> & H1 & H2 & H3 & _).
    rewrite <- app_comm_cons. simpl in Ha.
    change (gives ((if bool_decide (Sh.MAXARGS ≤ S argc)%nat then panic "too many args" else skip);;
      rs ← tredirs fuel; r ← targs fuel (S argc); mret (w :: r.1, rs ++ r.2))
      ((u1 ++ u2) ++ ts) (w :: ws, r1 ++ r2) ts).
    rewrite bool_decide_eq_false_2 by lia. rewrite <- (assoc_L (++)).
    eapply gives_bind; [apply gives_ret|]. eapply gives_bind; [apply tredirs_complete; [done|]|].
    { destruct u2; [by apply stop_not_redir|done]. }
    eapply gives_bind; [apply IH; [done..|lia]|]. apply gives_ret.
Qed.
Lemma tamps_complete fuel n ts : starts is_amp ts = false →
  gives (tamps fuel) (replicate n Amp ++ ts) n ts.
Proof.
  intros Hts. revert fuel. induction n as [|n IH]; intros [|fuel]; try (by right).
  - apply gives_pass; [done|apply gives_ret].
  - apply gives_peek; [done|]. eapply gives_bind; [apply IH|apply gives_ret].
Qed.

Scheme line_mind := Minimality for line Sort Prop
  with pipe_mind := Minimality for pipe Sort Prop
  with exec_mind := Minimality for exec Sort Prop.
Combined Scheme grammar_ind from line_mind, pipe_mind, exec_mind.

Lemma simple_not_lpar us ws rs ts : simple us ws rs → starts is_lpar ts = false →
  starts is_lpar (us ++ ts) = false.
Proof. by destruct 1. Qed.

Lemma texec_simple_complete fuel us ws rs ts : simple us ws rs → (length ws < Sh.MAXARGS)%nat →
  after_exec ts → gives (texec fuel) (us ++ ts) (wrap (TExec ws) rs) ts.
Proof.
  intros H Hl Hts. destruct fuel as [|fuel]; [by right|]. pose proof (after_exec_stop ts Hts) as Hs.
  apply gives_pass; [eapply simple_not_lpar; [done|by apply stop_not_redir]|].
  apply simple_split in H as (u1 & r1 & u2 & r2 & -> & -> & H1 & H2 & H3 & _).
  rewrite <- (assoc_L (++)). eapply gives_bind; [apply tredirs_complete; [done|]|].
  { destruct u2; [by apply stop_not_redir|done]. }
  eapply gives_bind; [apply targs_complete; [done..|]; apply Hs|]. apply gives_ret.
Qed.
Lemma texec_block_complete fuel ts t us rs ts' :
  (∀ ts' fuel, after_line ts' → gives (tline fuel) (ts ++ ts') t ts') →
  simple us [] rs → after_exec ts' →
  gives (texec fuel) ((LPar :: ts ++ RPar :: us) ++ ts') (wrap t rs) ts'.
Proof.
  intros IH H Hts. destruct fuel as [|[|fuel]]; [by right..|].
  change (gives (tblock (S fuel)) ((LPar :: ts ++ RPar :: us) ++ ts') (wrap t rs) ts').
  simpl. apply gives_peek; [done|]. rewrite <- (assoc_L (++)).
  eapply gives_bind; [apply IH; by right|]. simpl. apply gives_peek; [done|].
  eapply gives_bind; [apply tredirs_complete; [done|]|apply gives_ret].
  by apply stop_not_redir, after_exec_stop.
Qed.

Lemma tparse_complete :
  (∀ ts t, line ts t → ∀ ts' fuel, after_line ts' → gives (tline fuel) (ts ++ ts') t ts') ∧
  (∀ ts t, pipe ts t → ∀ ts' fuel, after_pipe ts' → gives (tpipe fuel) (ts ++ ts') t ts') ∧
  (∀ ts t, exec ts t → ∀ ts' fuel, after_exec ts' → gives (texec fuel) (ts ++ ts') t ts').
Proof.
  apply grammar_ind.
  - intros ts t n _ IH ts' [|fuel] Hts; [by right|]. rewrite <- (assoc_L (++)).
    eapply gives_bind; [apply IH; destruct n; [by left|by right; left]|].
    eapply gives_bind; [apply tamps_complete|]; [by destruct Hts as [->|]; [|destruct ts' as [|[]]]|].
    apply gives_pass; [by destruct Hts as [->|]; [|destruct ts' as [|[]]]|apply gives_ret].
  - intros ts t n us u _ IH _ IHu ts' [|fuel] Hts; [by right|]. rewrite <- !(assoc_L (++)).
    eapply gives_bind; [apply IH; destruct n; [by right; right|by right; left]|].
    eapply gives_bind; [by apply tamps_complete|]. simpl. apply gives_peek; [done|].
    eapply gives_bind; [by apply IHu|apply gives_ret].
  - intros ts t _ IH ts' [|fuel] Hts; [by right|]. eapply gives_bind; [apply IH; by left|].
    apply gives_pass; [|apply gives_ret].
    destruct Hts as [[->|]|[]]; [done|by destruct ts' as [|[]]..].
  - intros ts t us u _ IH _ IHu ts' [|fuel] Hts; [by right|]. rewrite <- (assoc_L (++)).
    eapply gives_bind; [apply IH; by right|]. simpl. apply gives_peek; [done|].
    eapply gives_bind; [by apply IHu|apply gives_ret].
  - intros ts ws rs H Hl ts' fuel. by apply texec_simple_complete.
  - intros ts t us rs _ IH H ts' fuel. by apply texec_block_complete.
Qed.

(** The parser of tokens decides the grammar. *)
Lemma tline_decides fuel ts : (4 * length ts + 4 ≤ fuel)%nat →
  (∀ t, line ts t ↔ tline fuel ts = Ok (t, [])) ∧
  ((∃ t ts', tline fuel ts = Ok (t, ts')) ∨ ∃ msg, tline fuel ts = Panic msg).
Proof.
  intros Hf.
  assert (∀ t, line ts t → gives (tline fuel) ts t []) as Hc.
  { intros t H. rewrite <- (right_id_L [] (++) ts). apply (proj1 tparse_complete); [done|by left]. }
  destruct (proj1 (tparse_safe fuel (length ts)) Hf ts) as [(a & u & E & _)|[msg E]]; [done|..].
  - split; [|left; by exists a, u]. intros t. split.
    + intros H. destruct (Hc t H); [done|congruence].
    + intros H. apply tparse_sound in H as (ts1 & -> & H). by rewrite (right_id_L [] (++)).
  - split; [|right; by exists msg]. intros t. split; [|congruence].
    intros H. destruct (Hc t H); [done|congruence].
Qed.

End syntax.
End ShGrammar.
