(* ===== verification/ShLex.v ===== *)
(** * The tokens of a command line

    A reference lexer that reads the line once, character by character, and
    that [peek] and [gettoken] of user/sh.c look at its tokens and take them. *)

From S2P Require Import Prelude Sh ShGrammar.

Module ShLex.
Import Sh ShGrammar.

(** A word: where it starts in the line, and its text. *)
Abbreviation pword := (nat * list Z)%type.
Abbreviation ptok := (tok (W := pword)).

Definition is_ws (c : Z) : bool := strchr whitespace c.
Definition is_sym (c : Z) : bool := strchr symbols c.
Definition is_wordch (c : Z) : bool := negb (is_ws c) && negb (is_sym c).

Definition sym_tok {W} (c : Z) : tok (W := W) :=
  if c =? 60 then Redir RIn else if c =? 62 then Redir ROut else if c =? 124 then Bar
  else if c =? 38 then Amp else if c =? 59 then Semi else if c =? 40 then LPar else RPar.

(** The word [w] that ends before [p], if there is one. *)
Definition flush (p : nat) (w : list Z) : list ptok :=
  match w with [] => [] | _ => [Word ((p - length w)%nat, w)] end.
Fixpoint lex (p : nat) (w s : list Z) : list ptok :=
  match s with
  | [] => flush p w
  | c :: s' =>
      if is_ws c then flush p w ++ lex (S p) [] s'
      else if is_sym c then
        flush p w ++
        match s' with
        | c' :: s'' =>
            if (c =? 62) && (c' =? 62) then Redir RApp :: lex (S (S p)) [] s''
            else sym_tok c :: lex (S p) [] s'
        | [] => [sym_tok c]
        end
      else lex (S p) (w ++ [c]) s'
  end.
(** The tokens of a line, and their text. *)
Definition ptokens (l : list Z) : list ptok := lex 0 [] l.
Definition text (t : ptok) : tok (W := list Z) :=
  match t with
  | Word w => Word w.2 | Redir o => Redir o | Bar => Bar | Amp => Amp | Semi => Semi
  | LPar => LPar | RPar => RPar
  end.
Definition tokens (l : list Z) : list (tok (W := list Z)) := text <$> ptokens l.

(** What [gettoken] returns for a token, and its first character. *)
Definition code {W} (t : tok (W := W)) : Z :=
  match t with
  | Word _ => 97 | Redir RIn => 60 | Redir ROut => 62 | Redir RApp => 43
  | Bar => 124 | Amp => 38 | Semi => 59 | LPar => 40 | RPar => 41
  end.
Definition first_ch {W} (t : tok (W := W)) : Z :=
  match t with Redir RApp => 62 | t => code t end.
(** What [peek] for the symbols [toks] says of a token. *)
Definition looks {W} (toks : list Z) (t : tok (W := W)) : bool :=
  match t with Word _ => false | t => strchr toks (first_ch t) end.

(** ** The lexer *)

Lemma lex_word p w u s : Forall (λ c, is_wordch c = true) u →
  lex p w (u ++ s) = lex (p + length u) (w ++ u) s.
Proof.
  revert p w. induction u as [|c u IH]; intros p w Hu; simpl.
  - rewrite (right_id_L [] (++)). f_equal. lia.
  - apply list.Forall_cons in Hu as [Hc Hu]. unfold is_wordch in Hc.
    destruct (is_ws c), (is_sym c); try done. rewrite IH by done.
    rewrite <- (assoc_L (++)). f_equal. lia.
Qed.
Definition no_word (s : list Z) : Prop := ∀ c s', s = c :: s' → is_wordch c = false.
Lemma lex_flush p w s : w ≠ [] → no_word s → lex p w s = Word ((p - length w)%nat, w) :: lex p [] s.
Proof.
  intros Hw Hs. assert (flush p w = [Word ((p - length w)%nat, w)]) as Hf by (by destruct w).
  destruct s as [|c s]; simpl; [done|]. specialize (Hs c s eq_refl). unfold is_wordch in Hs.
  rewrite Hf. destruct (is_ws c); [done|]. by destruct (is_sym c).
Qed.

(** The longest word at the start of a list. *)
Fixpoint word_of (s : list Z) : list Z :=
  match s with [] => [] | c :: s' => if is_wordch c then c :: word_of s' else [] end.
Lemma word_of_split s : ∃ r, s = word_of s ++ r ∧ no_word r ∧
  Forall (λ c, is_wordch c = true) (word_of s).
Proof.
  induction s as [|c s (r & IH & Hr & Hf)]; simpl; [by exists []|].
  destruct (is_wordch c) eqn:E.
  - exists r. split; [by rewrite IH at 1|]. split; [done|by constructor].
  - exists (c :: s). split; [done|]. split; [|done]. intros d s' [= <- <-]. done.
Qed.
Lemma lex_head_word p c s : is_wordch c = true →
  ∃ w r, c :: s = w ++ r ∧ w = word_of (c :: s) ∧ no_word r ∧ w ≠ [] ∧
    lex p [] (c :: s) = Word (p, w) :: lex (p + length w) [] r.
Proof.
  intros Hc. destruct (word_of_split (c :: s)) as (r & E & Hr & Hf).
  exists (word_of (c :: s)), r. assert (word_of (c :: s) ≠ []) by (simpl; by rewrite Hc).
  split_and!; try done. remember (word_of (c :: s)) as w eqn:Hw. rewrite E, lex_word, lex_flush by done.
  simpl app. by replace (p + length w - length w)%nat with p by lia.
Qed.

(** A word of the line: characters of words, up to one that is not. *)
Definition wtok (l : list Z) (t : ptok) : Prop :=
  match t with
  | Word (q, w) => w ≠ [] ∧ Forall (λ c, is_wordch c = true) w ∧
      ∃ a r, l = a ++ w ++ r ∧ length a = q ∧ no_word r
  | _ => True
  end.
Lemma flush_wtok l p a w s : l = a ++ w ++ s → p = (length a + length w)%nat →
  Forall (λ c, is_wordch c = true) w → no_word s → Forall (wtok l) (flush p w).
Proof.
  intros -> -> Hw Hs. destruct w as [|c w]; [constructor|]. apply Forall_singleton.
  split; [done|]. split; [done|]. exists a, s. split_and!; [done| |done]. simpl. lia.
Qed.
Lemma lex_wtok k l p a w s : (length s ≤ k)%nat → l = a ++ w ++ s → p = (length a + length w)%nat →
  Forall (λ c, is_wordch c = true) w → Forall (wtok l) (lex p w s).
Proof.
  revert p a w s. induction k as [|k IH]; intros p a w s Hk Hl Hp Hw.
  { destruct s; [|simpl in Hk; lia]. by eapply flush_wtok. }
  destruct s as [|c s]; [by eapply flush_wtok|]. simpl in Hk. cbn [lex].
  assert (Forall (wtok l) (lex (S p) [] s)) as Hnext.
  { apply (IH _ (a ++ w ++ [c]) []); [lia| | |constructor].
    - by rewrite Hl, <- !(assoc_L (++)).
    - rewrite !length_app. simpl. lia. }
  destruct (is_wordch c) eqn:Ew.
  - pose proof Ew as Ew'. unfold is_wordch in Ew'. destruct (is_ws c), (is_sym c); try done.
    apply (IH _ a (w ++ [c])); [lia| | |by apply Forall_app; split; [|apply Forall_singleton]].
    + by rewrite Hl, <- !(assoc_L (++)).
    + rewrite length_app. simpl. lia.
  - assert (Forall (wtok l) (flush p w)) as Hfl.
    { eapply flush_wtok; [done..|]. intros d s' [= <- <-]. done. }
    unfold is_wordch in Ew. destruct (is_ws c); [by apply Forall_app|].
    destruct (is_sym c); [|done]. apply Forall_app. split; [done|].
    assert (∀ x, wtok l (sym_tok x)) as Hsym by (intros x; unfold sym_tok; by repeat case_match).
    destruct s as [|d s]; [by constructor|]. destruct ((c =? 62) && (d =? 62)); [|by constructor].
    constructor; [done|]. simpl in Hk. apply (IH _ (a ++ w ++ [c; d]) []); [lia| | |constructor].
    + by rewrite Hl, <- !(assoc_L (++)).
    + rewrite !length_app. simpl. lia.
Qed.
Lemma ptokens_wtok l : Forall (wtok l) (ptokens l).
Proof. by eapply (lex_wtok _ l 0 [] [] l). Qed.

(** There are no more tokens than characters. *)
Lemma lex_length k p w s : (length s ≤ k)%nat →
  (length (lex p w s) ≤ length (flush p w) + length s)%nat.
Proof.
  revert p w s. induction k as [|k IH]; intros p w s Hk.
  { destruct s; simpl in *; lia. }
  destruct s as [|c s]; [simpl; lia|]. simpl in Hk. cbn [lex].
  pose proof (IH (S p) [] s ltac:(lia)) as Hnext. simpl in Hnext.
  destruct (is_ws c); [rewrite length_app; simpl; lia|].
  destruct (is_sym c).
  - rewrite length_app. destruct s as [|d s]; [simpl; lia|].
    destruct ((c =? 62) && (d =? 62)); simpl in *; [|lia]. specialize (IH (S (S p)) [] s ltac:(lia)). simpl in IH. lia.
  - specialize (IH (S p) (w ++ [c]) s ltac:(lia)). simpl.
    destruct w; simpl in *; lia.
Qed.
Lemma ptokens_length l : (length (ptokens l) ≤ length l)%nat.
Proof. apply (lex_length (length l) 0 [] l). lia. Qed.

(** ** peek and gettoken *)

Section line.
Context (l : list Z) (Hnul : 0 ∉ l).
Abbreviation es := (length l).

(** The line is in the buffer, and [ts] are the tokens still to come. *)
Definition reads (b : list Z) (p : nat) (ts : list ptok) : Prop :=
  (∃ junk, b = l ++ 0 :: junk) ∧ (p ≤ es)%nat ∧ lex p [] (drop p l) = ts.

Lemma ch_line s p ts : reads (buf s) p ts →
  ch p s = Ok (match drop p l with c :: _ => c | [] => 0 end, s).
Proof.
  intros ((junk & Hb) & Hp & _). unfold ch. rewrite Hb. destruct (drop p l) as [|c r] eqn:E.
  - assert (p = es) as -> by (apply (f_equal length) in E; rewrite length_drop in E; simpl in E; lia).
    by rewrite list_lookup_middle.
  - assert (l !! p = Some c) as Hc by (by rewrite <- (Nat.add_0_r p), <- lookup_drop, E).
    by rewrite (lookup_app_l_Some _ _ _ _ Hc).
Qed.
Lemma drop_cons p c r : drop p l = c :: r → drop (S p) l = r ∧ (p < es)%nat ∧ c ≠ 0.
Proof.
  intros E. assert (l !! p = Some c) as Hc by (by rewrite <- (Nat.add_0_r p), <- lookup_drop, E).
  split_and!; [|by eapply lookup_lt_Some|].
  - by rewrite (drop_S _ _ _ Hc) in E; injection E.
  - intros ->. by apply Hnul, (list_elem_of_lookup_2 _ p).
Qed.
Lemma reads_next b p ts c r : reads b p ts → drop p l = c :: r → reads b (S p) (lex (S p) [] r).
Proof.
  intros (Hb & Hp & _) E. destruct (drop_cons _ _ _ E) as (E' & Hlt & _).
  split; [done|]. split; [lia|by rewrite E'].
Qed.

(** The position after the blanks. *)
Definition at_token (p : nat) : Prop := ∀ c r, drop p l = c :: r → is_ws c = false.
Lemma skip_ws_ok s p ts : reads (buf s) p ts →
  ∃ p', skip_ws (es - p) p s = Ok (p', s) ∧ reads (buf s) p' ts ∧ at_token p'.
Proof.
  remember (es - p)%nat as k eqn:Hk. revert p Hk. induction k as [|k IH]; intros p Hk Hr.
  - exists p. split; [done|]. split; [done|]. intros c r E. apply drop_cons in E. lia.
  - cbn [skip_ws]. rewrite (bind_Ok _ _ _ _ _ (ch_line s p ts Hr)).
    destruct (drop p l) as [|c r] eqn:E.
    { apply (f_equal length) in E. rewrite length_drop in E. simpl in E. lia. }
    change (strchr whitespace c) with (is_ws c). destruct (is_ws c) eqn:Ew.
    + apply IH; [lia|]. pose proof (reads_next _ _ _ _ _ Hr E) as Hr'.
      destruct Hr as (_ & _ & <-). rewrite E. cbn [lex]. by rewrite Ew.
    + exists p. split; [done|]. split; [done|]. intros c' r' E'. rewrite E in E'. by injection E' as <- <-.
Qed.
Lemma skip_word_ok s p ts : reads (buf s) p ts →
  skip_word (es - p) p s = Ok ((p + length (word_of (drop p l)))%nat, s).
Proof.
  remember (es - p)%nat as k eqn:Hk. revert p ts Hk. induction k as [|k IH]; intros p ts Hk Hr; cbn [skip_word].
  - destruct Hr as (_ & Hp & _). rewrite drop_ge by lia. simpl. by rewrite Nat.add_0_r.
  - rewrite (bind_Ok _ _ _ _ _ (ch_line s p ts Hr)). destruct (drop p l) as [|c r] eqn:E.
    { apply (f_equal length) in E. rewrite length_drop in E. simpl in E. lia. }
    change (negb (strchr whitespace c) && negb (strchr symbols c)) with (is_wordch c). cbn [word_of].
    destruct (is_wordch c) eqn:Ew; [|by rewrite Nat.add_0_r].
    pose proof (reads_next _ _ _ _ _ Hr E) as Hr'. destruct (drop_cons _ _ _ E) as (E' & _).
    rewrite (IH (S p) _ ltac:(lia) Hr'), E'. simpl. do 2 f_equal. lia.
Qed.

(** What the characters at a token say. *)
Lemma sym_cases c : is_ws c = false → is_wordch c = false →
  c = 60 ∨ c = 124 ∨ c = 62 ∨ c = 38 ∨ c = 59 ∨ c = 40 ∨ c = 41.
Proof.
  unfold is_wordch. intros ->. simpl. intros H. apply negb_false_iff in H.
  unfold is_sym, strchr, symbols in H. apply existsb_exists in H as (d & Hd & E).
  apply Z.eqb_eq in E as ->. simpl in Hd. naive_solver.
Qed.
Lemma wordch_not c d : is_wordch c = true → In d symbols → (c =? d) = false.
Proof.
  intros H Hd. apply Z.eqb_neq. intros ->. unfold is_wordch in H.
  apply andb_true_iff in H as [_ H]. apply negb_true_iff in H.
  assert (is_sym d = true) by (apply existsb_exists; exists d; split; [done|apply Z.eqb_refl]). congruence.
Qed.

Lemma peek_ok s ts toks : reads (buf s) (ps s) ts → (∀ c, In c toks → In c symbols) →
  ∃ p', peek es toks s = Ok (starts (looks toks) ts, set_ps p' s) ∧ reads (buf s) p' ts ∧ at_token p'.
Proof.
  intros Hr Hs. destruct (skip_ws_ok s (ps s) ts Hr) as (p' & E & Hr' & Hat). exists p'.
  split; [|done]. unfold peek. rewrite (bind_Ok (gets ps) _ _ _ _ eq_refl).
  rewrite (bind_Ok _ _ _ _ _ E). rewrite (bind_Ok (modify _) _ _ _ _ eq_refl).
  rewrite (bind_Ok _ _ _ _ _ (ch_line (set_ps p' s) p' ts Hr')).
  unfold mret, prog_ret. do 2 f_equal. destruct Hr' as (_ & _ & <-).
  destruct (drop p' l) as [|c r] eqn:Ed; [done|]. destruct (drop_cons _ _ _ Ed) as (_ & _ & Hc).
  specialize (Hat c r Ed). rewrite (proj2 (Z.eqb_neq _ _) Hc). simpl.
  destruct (is_wordch c) eqn:Ew.
  - destruct (lex_head_word p' c r Ew) as (w & r' & _ & _ & _ & _ & EL). simpl in EL. rewrite EL. simpl.
    apply not_true_iff_false. intros H. apply existsb_exists in H as (d & Hd & H).
    by rewrite (wordch_not c d Ew (Hs d Hd)) in H.
  - destruct (sym_cases c Hat Ew) as [->|[->|[->|[->|[->|[->| ->]]]]]]; simpl; destruct r as [|d r]; try done.
    by destruct (d =? 62).
Qed.

(** No tokens are left exactly at the end of the line. *)
Lemma reads_end b p ts : reads b p ts → at_token p → ts = [] ↔ p = es.
Proof.
  intros (_ & Hp & Hts) Hat. destruct (drop p l) as [|c r] eqn:E.
  - simpl in Hts. apply (f_equal length) in E. rewrite length_drop in E. simpl in E.
    split; [lia|by intros _].
  - destruct (drop_cons _ _ _ E) as (_ & Hlt & _). split; [|lia]. intros ->.
    specialize (Hat c r E). destruct (is_wordch c) eqn:Ew.
    + destruct (lex_head_word p c r Ew) as (w & r' & _ & _ & _ & _ & EL). congruence.
    + exfalso. unfold is_wordch in Ew. rewrite Hat in Ew. cbn [lex] in Hts. rewrite Hat in Hts.
      destruct (is_sym c); [|done]. simpl in Hts. destruct r as [|d r]; [done|].
      by destruct ((c =? 62) && (d =? 62)).
Qed.

(** The end of [gettoken]. *)
Definition tok_end (ret : Z) (q eq : nat) : prog sh (Z * nat * nat) :=
  s' ← skip_ws (es - eq) eq;
  modify (set_ps s');;
  mret (ret, q, eq).
Lemma tok_end_ok s ret q eq ts : reads (buf s) eq ts →
  ∃ p', tok_end ret q eq s = Ok ((ret, q, eq), set_ps p' s) ∧ reads (buf s) p' ts.
Proof.
  intros Hr. destruct (skip_ws_ok s eq ts Hr) as (p' & E & Hr' & _). exists p'. split; [|done].
  unfold tok_end. by rewrite (bind_Ok _ _ _ _ _ E).
Qed.

Definition tok_at (t : ptok) (q e : nat) : Prop :=
  match t with Word w => q = w.1 ∧ e = (w.1 + length w.2)%nat | _ => True end.

Lemma bind_ext {S A B} (m : prog S A) (f g : A → prog S B) s :
  (∀ a s', f a s' = g a s') → (m ≫= f) s = (m ≫= g) s.
Proof. intros H. unfold mbind, prog_bind. destruct (m s) as [[a s']| | |]; [apply H|done..]. Qed.

(** The part of [gettoken] that looks at the character [c] at [q]. *)
Definition tok_body (q : nat) (c : Z) : prog sh (Z * nat) :=
  if c =? 0 then mret (c, q)
  else if strchr [124; 40; 41; 59; 38; 60] c then mret (c, S q)
  else if c =? 62 then
    c' ← ch (S q);
    (if c' =? 62 then mret (43, S (S q)) else mret (c, S q))
  else e ← skip_word (es - q) q; mret (97, e).
Lemma tok_body_word s q ts c r : reads (buf s) q ts → drop q l = c :: r → is_wordch c = true →
  ∃ w ts', ts = Word (q, w) :: ts' ∧ tok_body q c s = Ok ((97, (q + length w)%nat), s) ∧
    reads (buf s) (q + length w) ts'.
Proof.
  intros Hr E Ew. destruct (drop_cons _ _ _ E) as (_ & Hlt & Hc).
  destruct (lex_head_word q c r Ew) as (w & r' & Hsp & Hw & Hnw & Hne & EL). exists w, (lex (q + length w) [] r').
  split; [destruct Hr as (_ & _ & <-); by rewrite E|]. split.
  - unfold tok_body. rewrite (proj2 (Z.eqb_neq _ _) Hc).
    assert (strchr [124; 40; 41; 59; 38; 60] c = false) as ->.
    { unfold strchr. cbn [existsb]. rewrite !(wordch_not c) by (done || (simpl; tauto)). done. }
    rewrite (wordch_not c 62 Ew) by (simpl; tauto).
    rewrite (bind_Ok _ _ _ _ _ (skip_word_ok s q ts Hr)), E, <- Hw. done.
  - destruct Hr as (Hb & _ & _). split; [done|].
    assert (drop (q + length w) l = r') as Hd by (by rewrite <- drop_drop, E, Hsp, drop_app_length).
    split; [|by rewrite Hd]. apply (f_equal length) in Hsp, E. rewrite length_drop in E.
    rewrite length_app in Hsp. lia.
Qed.
Lemma tok_body_sym s q ts c r : reads (buf s) q ts → drop q l = c :: r → is_ws c = false →
  is_wordch c = false → ∃ t ts' e, ts = t :: ts' ∧ (∀ w, t ≠ Word w) ∧
    tok_body q c s = Ok ((code t, e), s) ∧ reads (buf s) e ts'.
Proof.
  intros Hr E Ews Ew. pose proof (reads_next _ _ _ _ _ Hr E) as Hr'.
  pose proof (ch_line s (S q) _ Hr') as Hch. destruct (drop_cons _ _ _ E) as (E' & _). rewrite E' in Hch.
  assert (ts = lex q [] (c :: r)) as Hts by (destruct Hr as (_ & _ & <-); by rewrite E).
  destruct (sym_cases c Ews Ew) as [->|[->|[->|[->|[->|[->| ->]]]]]];
    try (exists (sym_tok c), (lex (S q) [] r), (S q); split_and!; [|done|done|done];
         rewrite Hts; by destruct r).
  all: try (eexists _, (lex (S q) [] r), (S q); split_and!; [rewrite Hts; by destruct r|done|done|done]).
  destruct r as [|d r].
  { eexists _, _, (S q). split_and!; [exact Hts|done| |done].
    unfold tok_body. simpl. by rewrite (bind_Ok _ _ _ _ _ Hch). }
  destruct (Z.eqb_spec d 62) as [->|Hd].
  - eexists _, _, (S (S q)). split_and!; [exact Hts|done| |exact (reads_next _ _ _ _ _ Hr' E')].
    unfold tok_body. simpl. by rewrite (bind_Ok _ _ _ _ _ Hch).
  - eexists _, _, (S q). split_and!; [| | |exact Hr'].
    + rewrite Hts. cbn [lex]. rewrite (proj2 (Z.eqb_neq d 62) Hd). reflexivity.
    + done.
    + unfold tok_body. simpl. rewrite (bind_Ok _ _ _ _ _ Hch). by rewrite (proj2 (Z.eqb_neq d 62) Hd).
Qed.

Lemma gettoken_ok s ts : reads (buf s) (ps s) ts →
  ∃ q e p', gettoken es s = Ok ((match ts with t :: _ => code t | [] => 0 end, q, e), set_ps p' s) ∧
    reads (buf s) p' (tail ts) ∧ match ts with t :: _ => tok_at t q e | [] => True end.
Proof.
  intros Hr. destruct (skip_ws_ok s (ps s) ts Hr) as (q & E & Hr' & Hat).
  assert (gettoken es s = (r ← tok_body q (match drop q l with c :: _ => c | [] => 0 end);
    tok_end r.1 q r.2) s) as ->.
  { unfold gettoken. rewrite (bind_Ok (gets ps) _ _ _ _ eq_refl), (bind_Ok _ _ _ _ _ E).
    rewrite (bind_Ok _ _ _ _ _ (ch_line s q ts Hr')).
    apply (bind_ext (tok_body q _)). by intros [ret e] s'. }
  destruct (drop q l) as [|c r] eqn:Ed.
  - assert (ts = []) as -> by (destruct Hr' as (_ & _ & <-); by rewrite Ed).
    rewrite (bind_Ok (tok_body q 0) _ s (0, q) s eq_refl). cbn [fst snd].
    destruct (tok_end_ok s 0 q q [] Hr') as (p' & -> & Hr2). by exists q, q, p'.
  - destruct (is_wordch c) eqn:Ew.
    + destruct (tok_body_word s q ts c r Hr' Ed Ew) as (w & ts' & -> & Eb & Hr2).
      rewrite (bind_Ok _ _ _ _ _ Eb). cbn [fst snd]. destruct (tok_end_ok s 97 q _ ts' Hr2) as (p' & -> & Hr3).
      by exists q, (q + length w)%nat, p'.
    + destruct (tok_body_sym s q ts c r Hr' Ed (Hat c r Ed) Ew) as (t & ts' & e & -> & Hn & Eb & Hr2).
      rewrite (bind_Ok _ _ _ _ _ Eb). cbn [fst snd]. destruct (tok_end_ok s (code t) q e ts' Hr2) as (p' & -> & Hr3).
      exists q, e, p'. split_and!; [done|done|]. destruct t; try done. by destruct (Hn w).
Qed.
End line.

End ShLex.
