(* ===== verification/ShProofs.v ===== *)
(** * The shell's parser implements the grammar

    The parser of user/sh.c, with its shared command nodes, follows the parser
    of tokens step by step; [nulterminate] then cuts the words out of the line. *)

From S2P Require Import Prelude Sh ShGrammar ShLex.

Module ShProofs.
Import Sh ShGrammar ShLex.

Abbreviation ptree := (tree (W := pword)).

(** ** Commands in the heap *)

Definition rmode (o : rop) : Z :=
  match o with
  | RIn => O_RDONLY
  | ROut => Z.lor (Z.lor O_WRONLY O_CREATE) O_TRUNC
  | RApp => Z.lor O_WRONLY O_CREATE
  end.
Definition rfd (o : rop) : Z := match o with RIn => 0 | _ => 1 end.
Definition wend (w : pword) : nat := (w.1 + length w.2)%nat.

(** An array of [MAXARGS] pointers that starts with [qs]. *)
Definition args_of (qs : list nat) : list (option nat) :=
  (Some <$> qs) ++ replicate (MAXARGS - length qs) None.
Definition exec_of (ws : list pword) : cmd := EXEC (args_of ws.*1) (args_of (wend <$> ws)).
Definition redir_of (c : nat) (o : rop) (w : pword) : cmd := REDIR c w.1 (wend w) (rmode o) (rfd o).

Fixpoint denotes (h : list cmd) (r : nat) (t : ptree) : Prop :=
  match t with
  | TExec ws => h !! r = Some (exec_of ws) ∧ (length ws < MAXARGS)%nat
  | TRedir t o w => ∃ c, h !! r = Some (redir_of c o w) ∧ denotes h c t
  | TPipe t u => ∃ a b, h !! r = Some (PIPE a b) ∧ denotes h a t ∧ denotes h b u
  | TList t u => ∃ a b, h !! r = Some (LIST a b) ∧ denotes h a t ∧ denotes h b u
  | TBack t => ∃ c, h !! r = Some (BACK c) ∧ denotes h c t
  end.
(** [r] is the node [c] below the redirections [rs]. *)
Fixpoint chain (h : list cmd) (c : nat) (rs : list (rop * pword)) (r : nat) : Prop :=
  match rs with
  | [] => r = c
  | (o, w) :: rs' => ∃ c', h !! c' = Some (redir_of c o w) ∧ chain h c' rs' r
  end.
(** The nodes of [h] are still there, but for the node [c]. *)
Definition hext (h h' : list cmd) : Prop := ∀ i x, h !! i = Some x → h' !! i = Some x.
Definition hext_but (c : nat) (h h' : list cmd) : Prop :=
  ∀ i x, i ≠ c → h !! i = Some x → h' !! i = Some x.

Lemma hext_refl h : hext h h.
Proof. by intros i x. Qed.
Lemma hext_trans h1 h2 h3 : hext h1 h2 → hext h2 h3 → hext h1 h3.
Proof. intros H1 H2 i x E. by apply H2, H1. Qed.
Lemma hext_app h x : hext h (h ++ [x]).
Proof. intros i y E. by apply lookup_app_l_Some. Qed.
#[local] Hint Resolve hext_refl hext_app : core.
Lemma denotes_ext h h' r t : hext h h' → denotes h r t → denotes h' r t.
Proof.
  intros Hx. revert r. induction t as [ws|t IH o w|t IHt u IHu|t IHt u IHu|t IH]; intros r; simpl.
  - intros [E ?]. split; [by apply Hx|done].
  - intros (c & E & D). exists c. split; [by apply Hx|by apply IH].
  - intros (a & b & E & D1 & D2). exists a, b. split_and!; [by apply Hx|by apply IHt|by apply IHu].
  - intros (a & b & E & D1 & D2). exists a, b. split_and!; [by apply Hx|by apply IHt|by apply IHu].
  - intros (c & E & D). exists c. split; [by apply Hx|by apply IH].
Qed.
Lemma denotes_wrap h c t rs r : denotes h c t → chain h c rs r → denotes h r (wrap t rs).
Proof.
  revert c t. induction rs as [|[o w] rs IH]; intros c t D; simpl; [by intros ->|].
  intros (c' & E & C). apply (IH c'); [|done]. exists c. done.
Qed.
Lemma rchain_app h c rs rs' m r : chain h c rs m → chain h m rs' r → chain h c (rs ++ rs') r.
Proof.
  revert c. induction rs as [|[o w] rs IH]; intros c; simpl; [by intros ->|].
  intros (c' & E & C) C'. exists c'. split; [done|]. by apply IH.
Qed.
Lemma rchain_ext h h' c rs r : hext h h' → chain h c rs r → chain h' c rs r.
Proof.
  intros Hx. revert c. induction rs as [|[o w] rs IH]; intros c; simpl; [done|].
  intros (c' & E & C). exists c'. split; [by apply Hx|by apply IH].
Qed.
(** Redirections are not touched by a write to the command they are about. *)
Lemma rchain_insert h e argv eargv c rs r x : h !! e = Some (EXEC argv eargv) →
  chain h c rs r → chain (<[e := x]> h) c rs r.
Proof.
  intros He. revert c. induction rs as [|[o w] rs IH]; intros c; simpl; [done|].
  intros (c' & E & C). exists c'. split; [|by apply IH].
  rewrite list_lookup_insert_ne; [done|]. intros ->. rewrite He in E. discriminate E.
Qed.

Lemma args_insert qs q n : n = length qs → (n < MAXARGS)%nat →
  <[n := Some q]> (args_of qs) = args_of (qs ++ [q]).
Proof.
  intros -> H. unfold args_of. rewrite length_app, fmap_app. simpl.
  destruct (MAXARGS - length qs)%nat as [|k] eqn:E; [lia|].
  replace (MAXARGS - (length qs + 1))%nat with k by lia.
  rewrite <- (Nat.add_0_r (length qs)), <- (length_fmap Some qs).
  rewrite insert_app_r. simpl. by rewrite <- (assoc_L (++)).
Qed.
Lemma args_end qs n : n = length qs → (n < MAXARGS)%nat → <[n := None]> (args_of qs) = args_of qs.
Proof.
  intros -> H. unfold args_of. destruct (MAXARGS - length qs)%nat as [|k] eqn:E; [lia|].
  rewrite <- (Nat.add_0_r (length qs)), <- (length_fmap Some qs) at 1. by rewrite insert_app_r.
Qed.

Section line.
Context (l : list Z) (Hnul : 0 ∉ l) (B : list Z).
Abbreviation es := (length l).

(** ** Simulation *)

Definition R (s : sh) (ts : list ptok) : Prop := buf s = B ∧ reads l B (ps s) ts.
(** From related states [m] and the parser of tokens [m'] have the same
    outcome, and results related by [Q] in the heap then. *)
Definition sim {A A'} (m : prog sh A) (m' : prog (list ptok) A') (s : sh) (ts : list ptok)
    (Q : list cmd → A → A' → Prop) : Prop :=
  match m' ts with
  | Ok (b, ts') => ∃ a s', m s = Ok (a, s') ∧ R s' ts' ∧ Q (heap s') a b
  | Panic msg => m s = Panic msg
  | Fault => False
  | Spin => m s = Spin
  end.

Lemma sim_bind {A A' C C'} (m : prog sh A) (m' : prog (list ptok) A') (f : A → prog sh C)
    (g : A' → prog (list ptok) C') s ts Q Q' :
  sim m m' s ts Q →
  (∀ a b s' ts', R s' ts' → Q (heap s') a b → sim (f a) (g b) s' ts' Q') →
  sim (m ≫= f) (m' ≫= g) s ts Q'.
Proof.
  unfold sim. intros Hm Hf. unfold mbind at 1, prog_bind at 1. destruct (m' ts) as [[b ts']|msg| |].
  - destruct Hm as (a & s' & E & HR & HQ). specialize (Hf a b s' ts' HR HQ). unfold sim in Hf.
    by rewrite (bind_Ok _ _ _ _ _ E).
  - by apply bind_Panic.
  - done.
  - by apply bind_Spin.
Qed.
(** Steps of one side only. *)
Lemma sim_left {A C C'} (m : prog sh A) (f : A → prog sh C) (g : prog (list ptok) C') s ts a s' Q :
  m s = Ok (a, s') → sim (f a) g s' ts Q → sim (m ≫= f) g s ts Q.
Proof. intros E. unfold sim. by rewrite (bind_Ok _ _ _ _ _ E). Qed.
Lemma sim_ret {A A'} (a : A) (b : A') s ts (Q : list cmd → A → A' → Prop) :
  R s ts → Q (heap s) a b → sim (mret a) (mret b) s ts Q.
Proof. intros HR HQ. by exists a, s. Qed.
Lemma sim_panic {A A'} msg s ts (Q : list cmd → A → A' → Prop) : sim (panic msg) (panic msg) s ts Q.
Proof. done. Qed.
Lemma sim_weaken {A A'} (m : prog sh A) (m' : prog (list ptok) A') s ts (Q Q' : list cmd → A → A' → Prop) :
  sim m m' s ts Q → (∀ h a b, Q h a b → Q' h a b) → sim m m' s ts Q'.
Proof.
  unfold sim. destruct (m' ts) as [[b ts']| | |]; [|done..].
  intros (a & s' & E & HR & HQ) HW. exists a, s'. split_and!; [done..|by apply HW].
Qed.

Lemma sim_map {A A' C'} (m : prog sh A) (m' : prog (list ptok) A') (g : A' → C') s ts Q
    (Q' : list cmd → A → C' → Prop) :
  sim m m' s ts Q → (∀ h a b, Q h a b → Q' h a (g b)) → sim m (b ← m'; mret (g b)) s ts Q'.
Proof.
  unfold sim, mbind, prog_bind. destruct (m' ts) as [[b ts']| | |]; [|done..].
  intros (a & s' & E & HR & HQ) HW. exists a, s'. split_and!; [done..|by apply HW].
Qed.

Lemma sim_peek toks f s ts : R s ts → (∀ c, In c toks → In c symbols) →
  (∀ t, looks toks t = f t) → sim (peek es toks) (tpeek f) s ts (λ h a b, h = heap s ∧ a = b).
Proof.
  intros [Hb Hr] Ht Hf. rewrite <- Hb in Hr.
  destruct (peek_ok l Hnul s ts toks Hr Ht) as (p' & E & Hr' & _).
  exists (starts (looks toks) ts), (set_ps p' s). split; [done|]. split.
  { split; [done|]. by rewrite <- Hb. }
  split; [done|]. destruct ts; [done|]. apply Hf.
Qed.
Lemma sim_gettoken s ts : R s ts → sim (gettoken es) ttake s ts (λ h a b, h = heap s ∧
  match b with Some t => a.1.1 = code t ∧ tok_at t a.1.2 a.2 | None => a.1.1 = 0 end).
Proof.
  intros [Hb Hr]. rewrite <- Hb in Hr. destruct (gettoken_ok l Hnul s ts Hr) as (q & e & p' & E & Hr' & Ht).
  unfold sim. destruct ts as [|t ts]; simpl.
  - exists (0, q, e), (set_ps p' s). split; [done|]. split; [|done]. split; [done|]. by rewrite <- Hb.
  - exists (code t, q, e), (set_ps p' s). split; [done|]. split; [|done]. split; [done|]. by rewrite <- Hb.
Qed.
(** A peek and the token taken after it. *)
Lemma sim_take {A A'} toks f (F : Z * nat * nat → prog sh A) (k : prog sh A)
    (G : option ptok → prog (list ptok) A') (k' : prog (list ptok) A') s ts Q :
  R s ts → (∀ c, In c toks → In c symbols) → (∀ t, looks toks t = f t) →
  (∀ t q e s' ts', f t = true → R s' ts' → heap s' = heap s → tok_at t q e →
    sim (F (code t, q, e)) (G (Some t)) s' ts' Q) →
  (∀ s', R s' ts → heap s' = heap s → sim k k' s' ts Q) →
  sim (b ← peek es toks; if b : bool then x ← gettoken es; F x else k)
      (b ← tpeek f; if b : bool then x ← ttake; G x else k') s ts Q.
Proof.
  intros HR Ht Hf Hm Hk. unfold sim at 1.
  pose proof (sim_peek toks f s ts HR Ht Hf) as (b & s1 & E & HR1 & Hh & Hb). rewrite Hb in E.
  rewrite (bind_Ok _ _ _ _ _ E), (bind_Ok (tpeek f) _ ts _ _ eq_refl).
  destruct ts as [|t ts]; [by apply Hk|]. destruct (f t) eqn:Eft; [|by apply Hk].
  destruct (sim_gettoken s1 (t :: ts) HR1) as ([[tk q] e] & s2 & E2 & HR2 & Hh2 & Hc & Hat).
  simpl in *. subst tk. rewrite (bind_Ok _ _ _ _ _ E2), (bind_Ok ttake _ (t :: ts) _ _ eq_refl).
  apply (Hm t q e); [done..|congruence|done].
Qed.

(** ** The parsers *)

Ltac solve_syms := intros ? ?; simpl in *; tauto.
Ltac solve_looks := intros [?|[]| | | | |]; reflexivity.

Lemma sim_parseredirs fuel cmd s ts : R s ts →
  sim (parseredirs fuel cmd es) (tredirs fuel) s ts
    (λ h r rs, hext (heap s) h ∧ chain h cmd rs r).
Proof.
  revert cmd s ts. induction fuel as [|fuel IH]; intros cmd s ts HR; [done|].
  cbn [parseredirs tredirs].
  apply sim_take; [done|solve_syms|solve_looks| |].
  2: { intros s1 HR1 Hh1. apply sim_ret; [done|]. by rewrite Hh1. }
  intros t q0 e0 s1 ts1 Ht HR1 Hh1 _. destruct t as [|o| | | | |]; try done.
  eapply sim_bind; [by apply sim_gettoken|]. intros [[tok q] e] o2 s2 ts2 HR2 [Hh2 Ho2]. simpl in Ho2.
  destruct o2 as [t|]; [destruct Ho2 as [-> Hat]|by rewrite Ho2].
  destruct t as [w|o'| | | | |]; try done; [|by destruct o'].
  destruct Hat as [-> ->]. simpl.
  assert (∀ x : prog sh nat, x = redircmd cmd w.1 (wend w) (rmode o) (rfd o) →
    sim (cmd' ← x; parseredirs fuel cmd' es) (rs ← tredirs fuel; mret ((o, w) :: rs)) s2 ts2
      (λ h r rs, hext (heap s) h ∧ chain h cmd rs r)) as Hgo.
  { intros x ->. eapply sim_left; [reflexivity|]. 
    eapply sim_map; [by apply IH|]. intros h r rs [Hx Hc]. simpl in Hx. split.
    - rewrite <- Hh1, <- Hh2. eapply hext_trans; [apply hext_app|exact Hx].
    - exists (length (heap s2)). split; [|done]. apply Hx. by rewrite list_lookup_middle. }
  destruct o; by apply Hgo.
Qed.

(** The node of a simple command while its words come in. *)
Lemma set_arg_ok c s ws w : heap s !! c = Some (exec_of ws) → (length ws < MAXARGS)%nat →
  set_arg c (length ws) (Some w.1) (Some (wend w)) s =
    Ok (tt, set_heap (<[c := exec_of (ws ++ [w])]> (heap s)) s).
Proof.
  intros Hc Hl. unfold set_arg, node, mbind, prog_bind. rewrite Hc. simpl.
  rewrite bool_decide_eq_true_2 by done. unfold modify, exec_of. rewrite !fmap_app. simpl.
  by rewrite !args_insert by (done || by rewrite length_fmap).
Qed.
Lemma set_arg_end c s ws : heap s !! c = Some (exec_of ws) → (length ws < MAXARGS)%nat →
  set_arg c (length ws) None None s = Ok (tt, s).
Proof.
  intros Hc Hl. unfold set_arg, node, mbind, prog_bind. rewrite Hc. simpl.
  rewrite bool_decide_eq_true_2 by done. unfold modify.
  rewrite !args_end by (done || by rewrite length_fmap). do 2 f_equal.
  destruct s. unfold set_heap. simpl in *. f_equal. by rewrite list_insert_id.
Qed.
Lemma hext_but_trans c h1 h2 h3 : hext_but c h1 h2 → hext_but c h2 h3 → hext_but c h1 h3.
Proof. intros H1 H2 i x Hi E. by apply H2, H1. Qed.
Lemma hext_hext_but c h h' : hext h h' → hext_but c h h'.
Proof. intros H i x _. apply H. Qed.
Lemma hext_but_insert c h x : hext_but c h (<[c := x]> h).
Proof. intros i y Hi E. by rewrite list_lookup_insert_ne. Qed.

Lemma sim_args_loop fuel c ws0 rs0 ret s ts : R s ts →
  heap s !! c = Some (exec_of ws0) → (length ws0 < MAXARGS)%nat → chain (heap s) c rs0 ret →
  sim (args_loop fuel c (length ws0) ret es) (targs fuel (length ws0)) s ts
    (λ h a b, hext_but c (heap s) h ∧ h !! c = Some (exec_of (ws0 ++ b.1)) ∧
      (length (ws0 ++ b.1) < MAXARGS)%nat ∧ a.1 = length (ws0 ++ b.1) ∧ chain h c (rs0 ++ b.2) a.2).
Proof.
  revert ws0 rs0 ret s ts. induction fuel as [|fuel IH]; intros ws0 rs0 ret s ts HR Hc Hl Hch; [done|].
  cbn [args_loop targs].
  assert (∀ s1 ts1, R s1 ts1 → heap s1 = heap s → sim (mret (length ws0, ret)) (mret ([], [])) s1 ts1
    (λ h a b, hext_but c (heap s) h ∧ h !! c = Some (exec_of (ws0 ++ b.1)) ∧
      (length (ws0 ++ b.1) < MAXARGS)%nat ∧ a.1 = length (ws0 ++ b.1) ∧ chain h c (rs0 ++ b.2) a.2)) as Hend.
  { intros s1 ts1 HR1 Hh1. apply sim_ret; [done|]. simpl. rewrite !(right_id_L [] (++)), Hh1.
    split_and!; try done. by apply hext_hext_but. }
  eapply sim_bind; [by apply (sim_peek _ is_stop); [done|solve_syms|solve_looks]|].
  intros b b' s1 ts1 HR1 [Hh1 ->]. destruct b'; [by apply Hend|].
  eapply sim_bind; [by apply sim_gettoken|]. intros [[tok q] e] o s2 ts2 HR2 [Hh2 Ho]. simpl in Ho.
  destruct o as [t|]; [destruct Ho as [-> Hat]|rewrite Ho; apply Hend; [done|congruence]].
  destruct t as [w|o'| | | | |]; try done; [|by destruct o'].
  destruct Hat as [-> ->]. cbn [code]. change (97 =? 0) with false. change (97 =? 97) with true. cbn [negb].
  eapply sim_left; [apply set_arg_ok; [by rewrite Hh2, Hh1|done]|].
  case_bool_decide as Hmax; [done|].
  eapply (sim_bind skip skip _ _ _ _ (λ h _ _, h = <[c := exec_of (ws0 ++ [w])]> (heap s))).
  { apply sim_ret; [done|]. simpl. by rewrite Hh2, Hh1. }
  intros [] [] s3 ts3 HR3 Hh3. eapply sim_bind; [by apply sim_parseredirs|].
  intros ret' rs s4 ts4 HR4 [Hx4 Hch4]. rewrite Hh3 in Hx4.
  assert (heap s4 !! c = Some (exec_of (ws0 ++ [w]))) as Hc4.
  { apply Hx4, list_lookup_insert_eq. by eapply lookup_lt_Some. }
  replace (S (length ws0)) with (length (ws0 ++ [w])) by (rewrite length_app; simpl; lia).
  eapply sim_map; [apply (IH _ (rs0 ++ rs)); [done|done| |]|].
  - rewrite length_app. simpl. lia.
  - eapply rchain_app; [|done]. eapply rchain_ext; [done|]. by eapply rchain_insert.
  - intros h a b'. cbn [fst snd]. rewrite <- !(assoc_L (++)). simpl.
    intros (Hx & Hc' & Hl' & Ha & Hch'). split_and!; try done.
    eapply hext_but_trans; [apply hext_but_insert|]. eapply hext_but_trans; [by apply hext_hext_but|done].
Qed.

Lemma sim_amp_loop fuel c t s ts : R s ts → denotes (heap s) c t →
  sim (amp_loop fuel c es) (tamps fuel) s ts
    (λ h r n, hext (heap s) h ∧ denotes h r (Nat.iter n TBack t)).
Proof.
  revert c t s ts. induction fuel as [|fuel IH]; intros c t s ts HR D; [done|]. cbn [amp_loop tamps].
  apply sim_take; [done|solve_syms|solve_looks| |].
  - intros _ q e s1 ts1 _ HR1 Hh1 _. eapply sim_left; [reflexivity|].
    eapply sim_map; [apply (IH _ (TBack t)); [done|]|].
    + simpl. exists c. rewrite Hh1. split; [by rewrite list_lookup_middle|].
      eapply denotes_ext; [apply hext_app|done].
    + intros h r n [Hx D']. simpl in Hx. rewrite Hh1 in Hx.
      split; [eapply hext_trans; [apply hext_app|done]|]. by rewrite Nat.iter_succ_r.
  - intros s1 HR1 Hh1. apply sim_ret; [done|]. by rewrite Hh1.
Qed.

(** A node on top of two commands. *)
Lemma sim_node {A'} (m : prog sh nat) (m' : prog (list ptok) A') (mk : nat → cmd) (g : A' → ptree) s ts Q h0 :
  sim m m' s ts Q →
  (∀ h r b, Q h r b → hext h0 h ∧ denotes (h ++ [mk r]) (length h) (g b)) →
  sim (r ← m; new_node (mk r)) (b ← m'; mret (g b)) s ts (λ h r t, hext h0 h ∧ denotes h r t).
Proof.
  intros Hm HQ. eapply sim_bind; [done|]. intros r b s1 ts1 HR1 Hq. destruct (HQ _ _ _ Hq) as [Hx D].
  exists (length (heap s1)), (set_heap (heap s1 ++ [mk r]) s1). split; [done|]. split; [done|].
  split; [|done]. eapply hext_trans; [done|apply hext_app].
Qed.

Definition sim_tree (m : prog sh nat) (m' : prog (list ptok) ptree) : Prop := ∀ s ts, R s ts →
  sim m m' s ts (λ h r t, hext (heap s) h ∧ denotes h r t).

Lemma sim_parse fuel :
  sim_tree (parseline fuel es) (tline fuel) ∧ sim_tree (parsepipe fuel es) (tpipe fuel) ∧
  sim_tree (parseblock fuel es) (tblock fuel) ∧ sim_tree (parseexec fuel es) (texec fuel).
Proof.
  induction fuel as [|fuel (IHl & IHp & IHb & IHe)]; [done|].
  split_and!; intros s ts HR.
  - cbn [parseline tline]. eapply sim_bind; [by apply IHp|]. intros c t s1 ts1 HR1 [Hx1 D1].
    eapply sim_bind; [by apply sim_amp_loop|]. intros c' n s2 ts2 HR2 [Hx2 D2].
    pose proof (hext_trans _ _ _ Hx1 Hx2) as Hx.
    apply sim_take; [done|solve_syms|solve_looks| |].
    + intros _ q e s3 ts3 _ HR3 Hh3 _. eapply sim_node; [by apply IHl|].
      intros h r u [Hx3 D3]. rewrite Hh3 in Hx3. split; [by eapply hext_trans|].
      exists c', r. split; [by rewrite list_lookup_middle|].
      split; (eapply denotes_ext; [|done]); [eapply hext_trans; [done|]|]; apply hext_app.
    + intros s3 HR3 Hh3. apply sim_ret; [done|]. by rewrite Hh3.
  - cbn [parsepipe tpipe]. eapply sim_bind; [by apply IHe|]. intros c t s1 ts1 HR1 [Hx1 D1].
    apply sim_take; [done|solve_syms|solve_looks| |].
    + intros _ q e s3 ts3 _ HR3 Hh3 _. eapply sim_node; [by apply IHp|].
      intros h r u [Hx3 D3]. rewrite Hh3 in Hx3. split; [by eapply hext_trans|].
      exists c, r. split; [by rewrite list_lookup_middle|].
      split; (eapply denotes_ext; [|done]); [eapply hext_trans; [done|]|]; apply hext_app.
    + intros s3 HR3 Hh3. apply sim_ret; [done|]. by rewrite Hh3.
  - cbn [parseblock tblock]. apply sim_take; [done|solve_syms|solve_looks| |done].
    intros _ q e s1 ts1 _ HR1 Hh1 _. eapply sim_bind; [by apply IHl|]. intros c t s2 ts2 HR2 [Hx2 D2].
    rewrite Hh1 in Hx2. apply sim_take; [done|solve_syms|solve_looks| |done].
    intros _ q' e' s3 ts3 _ HR3 Hh3 _. eapply sim_map; [by apply sim_parseredirs|].
    intros h r rs [Hx Hch]. rewrite Hh3 in Hx. split; [by eapply hext_trans|].
    eapply denotes_wrap; [|done]. by eapply denotes_ext.
  - cbn [parseexec texec].
    eapply sim_bind; [by apply (sim_peek _ is_lpar); [done|solve_syms|solve_looks]|].
    intros b b' s1 ts1 HR1 [Hh1 ->]. destruct b'; [rewrite <- Hh1; by apply IHb|].
    eapply sim_left; [reflexivity|]. eapply sim_bind; [by apply sim_parseredirs|].
    intros ret rs s2 ts2 HR2 [Hx2 Hch2]. simpl in Hx2. rewrite Hh1 in *.
    assert (heap s2 !! length (heap s) = Some (exec_of [])) as Hc.
    { apply Hx2. by rewrite list_lookup_middle. }
    eapply sim_bind; [apply (sim_args_loop fuel _ [] rs ret); [done|done|unfold MAXARGS; simpl; lia|done]|].
    intros [argc ret'] [ws rs'] s3 ts3 HR3 (Hx3 & Hc3 & Hl3 & Ha & Hch3). simpl in *. subst argc.
    eapply sim_left; [by apply set_arg_end|]. apply sim_ret; [done|]. split.
    + intros i x E. apply Hx3; [apply lookup_lt_Some in E; lia|]. by apply Hx2, lookup_app_l_Some.
    + eapply denotes_wrap; [|done]. done.
Qed.
End line.
End ShProofs.
