(* ===== verification/ShProps.v ===== *)
(** * What the shell makes of a command line

    [parsecmd] of user/sh.c builds the command tree of the grammar, with its
    words as terminated strings in the line, and panics on a line that has
    none; every tree can be written as a line that is parsed back to it. *)

From S2P Require Import Prelude Sh ShGrammar ShLex ShProofs.

Module ShProps.
Import Sh ShGrammar ShLex ShProofs.

Abbreviation stree := (tree (W := list Z)).

(** ** Trees of positions and trees of text *)

Section maps.
Context {W W' : Type} (f : W → W').
Definition tok_map (t : tok (W := W)) : tok (W := W') :=
  match t with
  | Word w => Word (f w) | Redir o => Redir o | Bar => Bar | Amp => Amp | Semi => Semi
  | LPar => LPar | RPar => RPar
  end.
Fixpoint tree_map (t : tree (W := W)) : tree (W := W') :=
  match t with
  | TExec ws => TExec (f <$> ws)
  | TRedir t o w => TRedir (tree_map t) o (f w)
  | TPipe t u => TPipe (tree_map t) (tree_map u)
  | TList t u => TList (tree_map t) (tree_map u)
  | TBack t => TBack (tree_map t)
  end.
Definition redirs_map (rs : list (rop * W)) : list (rop * W') := prod_map id f <$> rs.

Lemma tree_map_wrap t rs : tree_map (wrap t rs) = wrap (tree_map t) (redirs_map rs).
Proof. revert t. induction rs as [|[o w] rs IH]; intros t; [done|]. simpl. by rewrite IH. Qed.
Lemma tree_map_back n t : tree_map (Nat.iter n TBack t) = Nat.iter n TBack (tree_map t).
Proof. induction n as [|n IH]; [done|]. simpl. by rewrite IH. Qed.

Lemma simple_unmap ts ws rs : simple ts ws rs → ∀ ts0, ts = tok_map <$> ts0 →
  ∃ ws0 rs0, simple ts0 ws0 rs0 ∧ ws = f <$> ws0 ∧ rs = redirs_map rs0.
Proof.
  induction 1 as [|w ts ws rs H IH|o w ts ws rs H IH]; intros ts0 E; symmetry in E.
  - apply fmap_nil_inv in E as ->. exists [], []. split; [constructor|done].
  - apply fmap_cons_inv in E as (x & ts1 & Ex & Ets & ->). destruct (IH _ Ets) as (ws0 & rs0 & S0 & -> & ->).
    destruct x; try done. injection Ex as ->. exists (w0 :: ws0), rs0. split; [by constructor|done].
  - apply fmap_cons_inv in E as (x & ts1 & Ex & Ets & ->). symmetry in Ets.
    apply fmap_cons_inv in Ets as (y & ts2 & Ey & Ets & ->).
    destruct (IH _ Ets) as (ws0 & rs0 & S0 & -> & ->).
    destruct x, y; try done. injection Ex as ->. injection Ey as ->.
    exists ws0, ((o0, w0) :: rs0). split; [by constructor|done].
Qed.
Lemma amps_unmap n ts0 : replicate n Amp = tok_map <$> ts0 → ts0 = replicate n Amp.
Proof.
  revert ts0. induction n as [|n IH]; intros ts0 E; symmetry in E.
  - by apply fmap_nil_inv in E.
  - apply fmap_cons_inv in E as (x & ts1 & Ex & Ets & ->). rewrite (IH ts1 Ets). by destruct x.
Qed.
Lemma grammar_unmap :
  (∀ ts t, line ts t → ∀ ts0, ts = tok_map <$> ts0 → ∃ t0, line ts0 t0 ∧ t = tree_map t0) ∧
  (∀ ts t, pipe ts t → ∀ ts0, ts = tok_map <$> ts0 → ∃ t0, pipe ts0 t0 ∧ t = tree_map t0) ∧
  (∀ ts t, exec ts t → ∀ ts0, ts = tok_map <$> ts0 → ∃ t0, exec ts0 t0 ∧ t = tree_map t0).
Proof.
  apply grammar_ind.
  - intros ts t n _ IH ts0 E. symmetry in E. apply fmap_app_inv in E as (x & y & Ex & Ey & ->).
    apply amps_unmap in Ey as ->. destruct (IH x Ex) as (t0 & P & ->).
    exists (Nat.iter n TBack t0). split; [by constructor|by rewrite tree_map_back].
  - intros ts t n us u _ IH _ IHu ts0 E. symmetry in E. apply fmap_app_inv in E as (x & y & Ex & Ey & ->).
    symmetry in Ey. apply fmap_app_inv in Ey as (y1 & y2 & Ey & Ez & ->). apply amps_unmap in Ey as ->.
    symmetry in Ez. apply fmap_cons_inv in Ez as (z & z' & Ez & Ez' & ->). destruct z; try done.
    destruct (IH x Ex) as (t0 & P & ->). destruct (IHu z' Ez') as (u0 & P' & ->).
    exists (TList (Nat.iter n TBack t0) u0). split; [by constructor|simpl; by rewrite tree_map_back].
  - intros ts t _ IH ts0 E. destruct (IH ts0 E) as (t0 & P & ->). exists t0. split; [by constructor|done].
  - intros ts t us u _ IH _ IHu ts0 E. symmetry in E. apply fmap_app_inv in E as (x & y & Ex & Ey & ->).
    symmetry in Ey. apply fmap_cons_inv in Ey as (z & z' & Ez & Ez' & ->). destruct z; try done.
    destruct (IH x Ex) as (t0 & P & ->). destruct (IHu z' Ez') as (u0 & P' & ->).
    exists (TPipe t0 u0). split; [by constructor|done].
  - intros ts ws rs H Hl ts0 E. destruct (simple_unmap _ _ _ H ts0 E) as (ws0 & rs0 & S0 & -> & ->).
    exists (wrap (TExec ws0) rs0). split; [constructor; [done|by rewrite length_fmap in Hl]|].
    by rewrite tree_map_wrap.
  - intros ts t us rs _ IH H ts0 E. symmetry in E. apply fmap_cons_inv in E as (x & y & Ex & Ey & ->).
    symmetry in Ey. apply fmap_app_inv in Ey as (y1 & y2 & Ey & Ez & ->).
    symmetry in Ez. apply fmap_cons_inv in Ez as (z & z' & Ez & Ez' & ->). destruct x, z; try done.
    destruct (IH y1 Ey) as (t0 & P & ->).
    destruct (simple_unmap _ _ _ H z' Ez') as (ws0 & rs0 & S0 & Hw & ->).
    symmetry in Hw. apply fmap_nil_inv in Hw as ->.
    exists (wrap t0 rs0). split; [by constructor|by rewrite tree_map_wrap].
Qed.

Lemma simple_map ts ws rs : simple ts ws rs → simple (tok_map <$> ts) (f <$> ws) (redirs_map rs).
Proof. induction 1; simpl; by constructor. Qed.
Lemma grammar_map :
  (∀ ts t, line ts t → line (tok_map <$> ts) (tree_map t)) ∧
  (∀ ts t, pipe ts t → pipe (tok_map <$> ts) (tree_map t)) ∧
  (∀ ts t, exec ts t → exec (tok_map <$> ts) (tree_map t)).
Proof.
  apply grammar_ind.
  - intros ts t n _ IH. rewrite fmap_app, fmap_replicate, tree_map_back. by constructor.
  - intros ts t n us u _ IH _ IHu. rewrite !fmap_app, fmap_replicate. simpl. rewrite tree_map_back.
    by constructor.
  - intros ts t _ IH. by constructor.
  - intros ts t us u _ IH _ IHu. rewrite fmap_app. by constructor.
  - intros ts ws rs H Hl. rewrite tree_map_wrap. constructor; [by apply simple_map|].
    by rewrite length_fmap.
  - intros ts t us rs _ IH H. rewrite fmap_cons, fmap_app, fmap_cons, tree_map_wrap.
    constructor; [done|]. by apply (simple_map us []).
Qed.
End maps.

(** ** Words *)

Fixpoint tree_all {W} (P : W → Prop) (t : tree (W := W)) : Prop :=
  match t with
  | TExec ws => Forall P ws
  | TRedir t _ w => tree_all P t ∧ P w
  | TPipe t u | TList t u => tree_all P t ∧ tree_all P u
  | TBack t => tree_all P t
  end.
Fixpoint depth {W} (t : tree (W := W)) : nat :=
  match t with
  | TExec _ => 1
  | TRedir t _ _ | TBack t => S (depth t)
  | TPipe t u | TList t u => S (depth t `max` depth u)
  end.
Definition tok_all {W} (P : W → Prop) (t : tok (W := W)) : Prop :=
  match t with Word w => P w | _ => True end.

Section words.
Context {W : Type} (P : W → Prop).
Lemma simple_all ts ws rs : simple ts ws rs → Forall (tok_all P) ts →
  Forall P ws ∧ Forall (P ∘ snd) rs ∧ (length rs ≤ length ts)%nat.
Proof.
  induction 1 as [|w ts ws rs H IH|o w ts ws rs H IH]; intros Hf.
  - by repeat constructor.
  - apply list.Forall_cons in Hf as [Hw Hf]. destruct (IH Hf) as (? & ? & ?).
    split_and!; [by constructor|done|simpl; lia].
  - apply list.Forall_cons in Hf as [_ Hf]. apply list.Forall_cons in Hf as [Hw Hf].
    destruct (IH Hf) as (? & ? & ?). split_and!; [done|by constructor|simpl; lia].
Qed.
Lemma wrap_all t rs : tree_all P t → Forall (P ∘ snd) rs → tree_all P (wrap t rs).
Proof.
  revert t. induction rs as [|[o w] rs IH]; intros t Ht Hf; [done|].
  apply list.Forall_cons in Hf as [Hw Hf]. by apply IH.
Qed.
Lemma wrap_depth t (rs : list (rop * W)) : depth (wrap t rs) = (depth t + length rs)%nat.
Proof. revert t. induction rs as [|[o w] rs IH]; intros t; simpl; [lia|]. rewrite IH. simpl. lia. Qed.
Lemma back_all n t : tree_all P t → tree_all P (Nat.iter n TBack t).
Proof. induction n; [done|]. simpl. done. Qed.
Lemma back_depth n (t : tree (W := W)) : depth (Nat.iter n TBack t) = (n + depth t)%nat.
Proof. induction n as [|n IH]; [done|]. simpl. by rewrite IH. Qed.

(** The words of a tree are words of its tokens, and it is no deeper than they
    are many. *)
Lemma grammar_all :
  (∀ ts t, line ts t → Forall (tok_all P) ts → tree_all P t ∧ (depth t ≤ S (length ts))%nat) ∧
  (∀ ts t, pipe ts t → Forall (tok_all P) ts → tree_all P t ∧ (depth t ≤ S (length ts))%nat) ∧
  (∀ ts t, exec ts t → Forall (tok_all P) ts → tree_all P t ∧ (depth t ≤ S (length ts))%nat).
Proof.
  apply grammar_ind.
  - intros ts t n _ IH [Hf _]%Forall_app. destruct (IH Hf) as [Ha Hd].
    split; [by apply back_all|]. rewrite back_depth, length_app, length_replicate. lia.
  - intros ts t n us u _ IH _ IHu [Hf [_ [_ Hu]%list.Forall_cons]%Forall_app]%Forall_app.
    destruct (IH Hf) as [Ha Hd], (IHu Hu) as [Ha' Hd']. split; [split; [by apply back_all|done]|].
    simpl. rewrite back_depth, !length_app, length_replicate. simpl. lia.
  - done.
  - intros ts t us u _ IH _ IHu [Hf [_ Hu]%list.Forall_cons]%Forall_app.
    destruct (IH Hf) as [Ha Hd], (IHu Hu) as [Ha' Hd']. split; [done|].
    simpl. rewrite !length_app. simpl. lia.
  - intros ts ws rs H Hl Hf. destruct (simple_all _ _ _ H Hf) as (Hw & Hr & Hn).
    split; [by apply wrap_all|]. rewrite wrap_depth. simpl. lia.
  - intros ts t us rs _ IH H [_ [Hf [_ Hu]%list.Forall_cons]%Forall_app]%list.Forall_cons.
    destruct (IH Hf) as [Ha Hd], (simple_all _ _ _ H Hu) as (_ & Hr & Hn).
    split; [by apply wrap_all|]. rewrite wrap_depth. simpl. rewrite length_app. simpl. lia.
Qed.
End words.

(** ** nulterminate *)

(** The ends of the words of a command, in the order in which they are cut. *)
Fixpoint ends (t : ptree) : list nat :=
  match t with
  | TExec ws => wend <$> ws
  | TRedir t _ w => ends t ++ [wend w]
  | TPipe t u | TList t u => ends t ++ ends u
  | TBack t => ends t
  end.
Definition cut (b : list Z) (es : list nat) : list Z := foldl (λ b e, <[e := 0]> b) b es.

Lemma cut_length b es : length (cut b es) = length b.
Proof. revert b. induction es as [|e es IH]; intros b; [done|]. simpl. by rewrite IH, length_insert. Qed.
Lemma cut_ends_app b es es' : cut b (es ++ es') = cut (cut b es) es'.
Proof. apply foldl_app. Qed.
Lemma cut_out b es i : i ∉ es → cut b es !! i = b !! i.
Proof.
  revert b. induction es as [|e es IH]; intros b Hi; [done|]. apply not_elem_of_cons in Hi as [Hn Hi].
  simpl. rewrite IH by done. by apply list_lookup_insert_ne.
Qed.
Lemma cut_in b es i : i ∈ es → (i < length b)%nat → cut b es !! i = Some 0.
Proof.
  revert b. induction es as [|e es IH]; intros b Hi Hl; [by apply not_elem_of_nil in Hi|]. simpl.
  destruct (decide (i ∈ es)) as [Hin|Hout]; [apply IH; [done|by rewrite length_insert]|].
  rewrite cut_out by done. apply elem_of_cons in Hi as [->|?]; [|done]. by apply list_lookup_insert_eq.
Qed.

Lemma set_ch_ok e s : (e < length (buf s))%nat → set_ch e 0 s = Ok (tt, set_buf (cut (buf s) [e]) s).
Proof.
  intros H. unfold set_ch. destruct (lookup_lt_is_Some_2 (buf s) e H) as [x ->]. done.
Qed.
Lemma nul_args_ok qs es x y s : length qs = length es → Forall (λ e, e < length (buf s))%nat es →
  nul_args ((Some <$> qs) ++ None :: x) ((Some <$> es) ++ y) s =
    Ok (tt, set_buf (cut (buf s) es) s).
Proof.
  revert es s. induction qs as [|q qs IH]; intros [|e es] s Hl Hf; try done; [by destruct s|].
  apply list.Forall_cons in Hf as [He Hf]. simpl.
  rewrite (bind_Ok _ _ _ _ _ (set_ch_ok e s He)). rewrite IH; [done|by injection Hl|].
  simpl. by rewrite length_insert.
Qed.
Lemma nulterminate_ok fuel r t s : denotes (heap s) r t → (depth t ≤ fuel)%nat →
  Forall (λ e, e < length (buf s))%nat (ends t) →
  nulterminate fuel r s = Ok (tt, set_buf (cut (buf s) (ends t)) s).
Proof.
  revert r t s. induction fuel as [|fuel IH]; intros r t s D Hd He; [destruct t; simpl in Hd; lia|].
  assert (∀ c, heap s !! r = Some c → node r s = Ok (c, s)) as Hn by (intros c E; unfold node; by rewrite E).
  assert (∀ x, Forall (λ e, e < length (buf s))%nat x → ∀ y, Forall (λ e, e < length (cut (buf s) y))%nat x) as Hcut.
  { intros x Hx y. by rewrite cut_length. }
  cbn [nulterminate].
  destruct t as [ws|t o w|t u|t u|t]; simpl in D, Hd, He.
  - destruct D as [E Hl]. rewrite (bind_Ok _ _ _ _ _ (Hn _ E)). unfold exec_of, args_of.
    rewrite !length_fmap. destruct (MAXARGS - length ws)%nat as [|k] eqn:Ek; [lia|]. simpl replicate.
    apply (nul_args_ok ws.*1 (wend <$> ws) (replicate k None) _ s); [|done]. by rewrite !length_fmap.
  - destruct D as (c & E & D). rewrite (bind_Ok _ _ _ _ _ (Hn _ E)). unfold redir_of.
    apply Forall_app in He as [He Hw]. rewrite (bind_Ok _ _ _ _ _ (IH c t s D ltac:(lia) He)).
    rewrite set_ch_ok; [|simpl; rewrite cut_length; by inversion Hw]. simpl.
    by rewrite cut_ends_app.
  - destruct D as (a & b & E & D1 & D2). rewrite (bind_Ok _ _ _ _ _ (Hn _ E)).
    apply Forall_app in He as [He1 He2]. rewrite (bind_Ok _ _ _ _ _ (IH a t s D1 ltac:(lia) He1)).
    rewrite (IH b u); [|done|lia|by apply Hcut]. simpl. by rewrite cut_ends_app.
  - destruct D as (a & b & E & D1 & D2). rewrite (bind_Ok _ _ _ _ _ (Hn _ E)).
    apply Forall_app in He as [He1 He2]. rewrite (bind_Ok _ _ _ _ _ (IH a t s D1 ltac:(lia) He1)).
    rewrite (IH b u); [|done|lia|by apply Hcut]. simpl. by rewrite cut_ends_app.
  - destruct D as (c & E & D). rewrite (bind_Ok _ _ _ _ _ (Hn _ E)). rewrite (IH c t); [done|done|lia|done].
Qed.

(** ** parsecmd *)

(** The string [w] at [p]. *)
Definition cstring (b : list Z) (p : nat) (w : list Z) : Prop :=
  0 ∉ w ∧ ∃ junk, drop p b = w ++ 0 :: junk.
(** The command [t] at [r]: its nodes, and its words as strings in the buffer. *)
Fixpoint shows (s : sh) (r : nat) (t : stree) : Prop :=
  match t with
  | TExec ws => ∃ qs x eargv, heap s !! r = Some (EXEC ((Some <$> qs) ++ None :: x) eargv) ∧
      Forall2 (cstring (buf s)) qs ws
  | TRedir t o w => ∃ c p e, heap s !! r = Some (REDIR c p e (rmode o) (rfd o)) ∧
      cstring (buf s) p w ∧ shows s c t
  | TPipe t u => ∃ a b, heap s !! r = Some (PIPE a b) ∧ shows s a t ∧ shows s b u
  | TList t u => ∃ a b, heap s !! r = Some (LIST a b) ∧ shows s a t ∧ shows s b u
  | TBack t => ∃ c, heap s !! r = Some (BACK c) ∧ shows s c t
  end.

Lemma tokens_map l : tokens l = tok_map snd <$> ptokens l.
Proof. apply list_fmap_ext. by intros i []. Qed.

Lemma strlen_at_ok l junk : 0 ∉ l → strlen_at (l ++ 0 :: junk) = Some (length l).
Proof.
  induction l as [|c l IH]; intros H; [done|]. apply not_elem_of_cons in H as [Hc H]. simpl.
  rewrite IH by done. by destruct (Z.eqb_spec c 0) as [->|].
Qed.

Section cutting.
Context (l : list Z) (Hnul : 0 ∉ l) (junk : list Z).
Abbreviation word_ok := (λ w : pword, wtok l (Word w)).

(** The end of a word is not inside a word. *)
Lemma word_end (w : pword) c : word_ok w → l !! wend w = Some c → is_wordch c = false.
Proof.
  destruct w as [q w]. intros (_ & _ & a & r & -> & <- & Hr). unfold wend. simpl.
  rewrite (assoc_L (++)), <- length_app, lookup_app_r, Nat.sub_diag by lia.
  destruct r as [|d r]; [done|]. intros [= <-]. by apply (Hr d r).
Qed.
Lemma word_in (w : pword) i c : word_ok w → w.2 !! i = Some c →
  l !! (w.1 + i)%nat = Some c ∧ is_wordch c = true.
Proof.
  destruct w as [q w]. intros (_ & Hf & a & r & -> & <- & _) E. simpl in *. split.
  - rewrite lookup_app_r by lia. replace (length a + i - length a)%nat with i by lia.
    by apply lookup_app_l_Some.
  - by apply (list.Forall_lookup_1 _ _ _ _ Hf E).
Qed.
Lemma word_bound (w : pword) : word_ok w → (wend w ≤ length l)%nat.
Proof.
  destruct w as [q w]. intros (_ & _ & a & r & -> & <- & _). unfold wend. simpl. rewrite !length_app. lia.
Qed.
Lemma cut_string (w : pword) es : word_ok w → wend w ∈ es →
  (∀ e, e ∈ es → ∃ w', word_ok w' ∧ e = wend w') →
  cstring (cut (l ++ 0 :: junk) es) w.1 w.2.
Proof.
  intros Hw Hin Hes. set (b := cut (l ++ 0 :: junk) es).
  assert (b !! wend w = Some 0) as H0.
  { apply cut_in; [done|]. rewrite length_app. simpl. pose proof (word_bound w Hw). lia. }
  assert (∀ i c, w.2 !! i = Some c → b !! (w.1 + i)%nat = Some c) as Hc.
  { intros i c E. destruct (word_in w i c Hw E) as [El Ec].
    unfold b. rewrite cut_out; [by apply lookup_app_l_Some|].
    intros He. destruct (Hes _ He) as (w' & Hw' & E'). rewrite E' in El.
    rewrite (word_end w' c Hw' El) in Ec. done. }
  split.
  - intros Hz. apply list_elem_of_lookup_1 in Hz as [i E]. destruct (word_in w i 0 Hw E) as [El _].
    by apply Hnul, (list_elem_of_lookup_2 _ _ _ El).
  - exists (drop (S (wend w)) b). rewrite <- (drop_S b 0 (wend w) H0). unfold wend.
    rewrite <- drop_drop, <- (take_drop (length w.2) (drop w.1 b)) at 1. f_equal.
    apply list_eq. intros i. destruct (decide (i < length w.2)%nat) as [Hi|Hi].
    + rewrite lookup_take_lt, lookup_drop by done.
      destruct (lookup_lt_is_Some_2 w.2 i Hi) as [c E]. by rewrite E, (Hc i c E).
    + rewrite lookup_take_ge, lookup_ge_None_2 by lia. done.
Qed.

Lemma ends_words t : tree_all word_ok t → ∀ e, e ∈ ends t → ∃ w, word_ok w ∧ e = wend w.
Proof.
  induction t as [ws|t IH o w|t IHt u IHu|t IHt u IHu|t IH]; simpl.
  - intros Hf e He. apply list_elem_of_fmap in He as (w & -> & Hw). exists w. split; [|done].
    by apply (list.Forall_forall word_ok ws) in Hw.
  - intros [Ht Hw] e [He|He]%elem_of_app; [by apply IH|]. apply list_elem_of_singleton in He. by exists w.
  - intros [Ht Hu] e [He|He]%elem_of_app; [by apply IHt|by apply IHu].
  - intros [Ht Hu] e [He|He]%elem_of_app; [by apply IHt|by apply IHu].
  - done.
Qed.
(** All the strings of a command, once its words are cut. *)
Lemma cut_shows h p es : (∀ e, e ∈ es → ∃ w, word_ok w ∧ e = wend w) →
  ∀ t r, tree_all word_ok t → (∀ e, e ∈ ends t → e ∈ es) → denotes h r t →
  shows (mk_sh (cut (l ++ 0 :: junk) es) p h) r (tree_map snd t).
Proof.
  intros Hes. induction t as [ws|t IH o w|t IHt u IHu|t IHt u IHu|t IH]; intros r Ha Hin; simpl in *.
  - intros [E Hl]. exists ws.*1, (replicate (MAXARGS - S (length ws)) None), (args_of (wend <$> ws)). split.
    + rewrite E. unfold exec_of, args_of. rewrite length_fmap.
      destruct (MAXARGS - length ws)%nat as [|k] eqn:Ek; [lia|].
      by replace (MAXARGS - S (length ws))%nat with k by lia.
    + apply Forall2_fmap, Forall_Forall2_diag, list.Forall_forall. intros w Hw.
      apply cut_string; [by apply (list.Forall_forall word_ok ws) in Hw| |done].
      apply Hin, list_elem_of_fmap. by exists w.
  - intros (c & E & D). destruct Ha as [Ha Hw]. exists c, w.1, (wend w). split_and!; [done| |].
    + apply cut_string; [done| |done]. apply Hin, elem_of_app. right. by apply list_elem_of_singleton.
    + apply IH; [done| |done]. intros e He. apply Hin, elem_of_app. by left.
  - intros (a & b & E & D1 & D2). destruct Ha as [Ha Hb]. exists a, b. split_and!; [done| |].
    + apply IHt; [done| |done]. intros e He. apply Hin, elem_of_app. by left.
    + apply IHu; [done| |done]. intros e He. apply Hin, elem_of_app. by right.
  - intros (a & b & E & D1 & D2). destruct Ha as [Ha Hb]. exists a, b. split_and!; [done| |].
    + apply IHt; [done| |done]. intros e He. apply Hin, elem_of_app. by left.
    + apply IHu; [done| |done]. intros e He. apply Hin, elem_of_app. by right.
  - intros (c & E & D). exists c. split; [done|]. by apply IH.
Qed.

(** The steps of [parsecmd] after [parseline]. *)
Lemma parsecmd_steps fuel p h : (4 * length l + 4 ≤ fuel)%nat →
  match tline fuel (ptokens l) with
  | Ok (t, []) => ∃ r s', parsecmd fuel (mk_sh (l ++ 0 :: junk) p h) = Ok (r, s') ∧
      shows s' r (tree_map snd t)
  | Ok (_, _ :: _) => parsecmd fuel (mk_sh (l ++ 0 :: junk) p h) = Panic "syntax"
  | Panic msg => parsecmd fuel (mk_sh (l ++ 0 :: junk) p h) = Panic msg
  | _ => False
  end.
Proof.
  intros Hf. pose proof (ptokens_length l) as Hlen. set (B := l ++ 0 :: junk).
  destruct (tline_decides fuel (ptokens l) ltac:(lia)) as [Hdec Htot].
  assert (R l B (mk_sh B 0 h) (ptokens l)) as HR.
  { split; [done|]. split; [by exists junk|]. split; [simpl; lia|done]. }
  pose proof (proj1 (sim_parse l Hnul B fuel) _ _ HR) as Hsim. unfold sim in Hsim.
  assert (∀ s, parsecmd fuel (mk_sh B p h) = s ↔
    (cmd ← parseline fuel (length l); peek (length l) [];; s ← gets ps;
     if negb (bool_decide (s = length l)) then panic "syntax"
     else nulterminate fuel cmd;; mret cmd) (mk_sh B 0 h) = s) as Hp.
  { intros s. unfold parsecmd. rewrite (bind_Ok (gets buf) _ _ _ _ eq_refl). cbn [buf].
    unfold B. rewrite strlen_at_ok by done. done. }
  destruct (tline fuel (ptokens l)) as [[t ts']|msg| |] eqn:E; [|by apply Hp, bind_Panic| |].
  2, 3: destruct Htot as [(? & ? & ?)|[? ?]]; discriminate.
  destruct Hsim as (r & s1 & E1 & [Hb1 Hr1] & _ & D). rewrite <- Hb1 in Hr1.
  destruct (peek_ok l Hnul s1 ts' [] Hr1 ltac:(done)) as (p' & E2 & Hr2 & Hat).
  pose proof (reads_end l Hnul _ _ _ Hr2 Hat) as Hend.
  destruct ts' as [|x ts'].
  - assert (p' = length l) as -> by (by apply Hend).
    destruct (grammar_all (λ w, wtok l (Word w))) as (Hall & _).
    destruct (Hall (ptokens l) t) as [Ha Hd]; [by apply Hdec| |].
    { apply (list.Forall_impl _ _ _ (ptokens_wtok l)). by intros []. }
    assert (Forall (λ e, e < length B)%nat (ends t)) as He.
    { apply list.Forall_forall. intros e (w & Hw & ->)%(ends_words t Ha). apply word_bound in Hw.
      unfold B. rewrite length_app. simpl. lia. }
    exists r, (mk_sh (cut B (ends t)) (length l) (heap s1)). split.
    + apply Hp. rewrite (bind_Ok _ _ _ _ _ E1), (bind_Ok _ _ _ _ _ E2). prog_run.
      rewrite bool_decide_eq_true_2 by done. cbn [negb].
      erewrite bind_Ok; [|apply (nulterminate_ok fuel r t); [done|lia|simpl; by rewrite Hb1]].
      unfold set_buf. simpl. by rewrite Hb1.
    + apply cut_shows; [by apply ends_words|done|done|done].
  - apply Hp. rewrite (bind_Ok _ _ _ _ _ E1), (bind_Ok _ _ _ _ _ E2). prog_run.
    rewrite bool_decide_eq_false_2; [done|]. intros Hq. apply Hend in Hq. discriminate Hq.
Qed.
End cutting.


Lemma parsecmd_ok l junk p h fuel t : 0 ∉ l → (4 * length l + 4 ≤ fuel)%nat → line (tokens l) t →
  ∃ r s', parsecmd fuel (mk_sh (l ++ 0 :: junk) p h) = Ok (r, s') ∧ shows s' r t.
Proof.
  intros Hnul Hf Ht. pose proof (ptokens_length l) as Hlen. rewrite tokens_map in Ht.
  pose proof (parsecmd_steps l Hnul junk fuel p h Hf) as Hst.
  destruct (proj1 (grammar_unmap snd) _ _ Ht _ eq_refl) as (t0 & Ht0 & ->).
  apply (tline_decides fuel) in Ht0; [|lia]. by rewrite Ht0 in Hst.
Qed.
Lemma parsecmd_bad l junk p h fuel : 0 ∉ l → (4 * length l + 4 ≤ fuel)%nat →
  (∀ t, ¬ line (tokens l) t) → ∃ msg, parsecmd fuel (mk_sh (l ++ 0 :: junk) p h) = Panic msg.
Proof.
  intros Hnul Hf Hno. pose proof (ptokens_length l) as Hlen. rewrite tokens_map in Hno.
  pose proof (parsecmd_steps l Hnul junk fuel p h Hf) as Hst.
  destruct (tline fuel (ptokens l)) as [[t [|x ts']]|msg| |] eqn:E; try done; [|by eexists..].
  exfalso. apply (Hno (tree_map snd t)). apply (proj1 (grammar_map snd)).
  by apply (tline_decides fuel); [lia|].
Qed.

(** C35: [parsecmd] builds the command that the line means, and nothing else.
    On a line that the grammar derives it returns the tree of the derivation,
    every word of it a terminated string in the buffer, although arguments and
    redirections are interleaved and share the command node; on any other line
    it panics.  It never reads or writes outside the line or the argument
    arrays, and stops. *)
Theorem parsecmd_correct l junk p h fuel : 0 ∉ l → (4 * length l + 4 ≤ fuel)%nat →
  (∀ t, line (tokens l) t →
    ∃ r s', parsecmd fuel (mk_sh (l ++ 0 :: junk) p h) = Ok (r, s') ∧ shows s' r t) ∧
  ((∀ t, ¬ line (tokens l) t) → ∃ msg, parsecmd fuel (mk_sh (l ++ 0 :: junk) p h) = Panic msg).
Proof.
  intros Hnul Hf. split.
  - intros t Ht. by apply parsecmd_ok.
  - intros Hno. by apply parsecmd_bad.
Qed.

(** ** Writing a command down *)

Definition rsym (o : rop) : list Z := match o with RIn => [60] | ROut => [62] | RApp => [62; 62] end.
Definition paren (l : list Z) : list Z := 40 :: l ++ [41].
Fixpoint print (t : stree) : list Z :=
  match t with
  | TExec ws => concat ((λ w, w ++ [32]) <$> ws)
  | TRedir t o w => paren (print t) ++ rsym o ++ w
  | TPipe t u => paren (print t) ++ 124 :: paren (print u)
  | TList t u => paren (print t) ++ 59 :: paren (print u)
  | TBack t => paren (print t) ++ [38]
  end.
(** Words are not empty, have no blanks, symbols or terminators, and commands
    have fewer than [MAXARGS] of them. *)
Definition good_word (w : list Z) : Prop := w ≠ [] ∧ Forall (λ c, is_wordch c = true) w ∧ 0 ∉ w.
Fixpoint good {W} (t : tree (W := W)) : Prop :=
  match t with
  | TExec ws => (length ws < MAXARGS)%nat
  | TRedir t _ _ | TBack t => good t
  | TPipe t u | TList t u => good t ∧ good u
  end.

Lemma lex_text k p q w s : (length s ≤ k)%nat → text <$> lex p w s = text <$> lex q w s.
Proof.
  assert (∀ p q w, text <$> flush p w = text <$> flush q w) as Hfl by (by intros ? ? []).
  revert p q w s. induction k as [|k IH]; intros p q w s Hk.
  { destruct s; [|simpl in Hk; lia]. apply Hfl. }
  destruct s as [|c s]; [apply Hfl|]. simpl in Hk. cbn [lex].
  destruct (is_ws c); [|destruct (is_sym c)].
  - rewrite !fmap_app, (Hfl p q w). f_equal. apply IH. lia.
  - rewrite !fmap_app, (Hfl p q w). f_equal. destruct s as [|d s]; [done|]. simpl in Hk.
    destruct ((c =? 62) && (d =? 62)); rewrite !fmap_cons; f_equal; apply IH; simpl; lia.
  - apply IH. lia.
Qed.
Lemma tokens_at p s : text <$> lex p [] s = tokens s.
Proof. by apply (lex_text (length s)). Qed.
Lemma tokens_word w s : good_word w → no_word s → tokens (w ++ s) = Word w :: tokens s.
Proof.
  intros (Hne & Hf & _) Hs. unfold tokens at 1, ptokens. rewrite lex_word, lex_flush by done.
  rewrite fmap_cons. simpl. by rewrite tokens_at.
Qed.
Lemma tokens_blank s : tokens (32 :: s) = tokens s.
Proof. exact (tokens_at 1 s). Qed.
Lemma tokens_sym c s : is_ws c = false → is_sym c = true → c ≠ 62 →
  tokens (c :: s) = sym_tok c :: tokens s.
Proof.
  intros Hw Hs Hc. unfold tokens at 1, ptokens. cbn [lex]. rewrite Hw, Hs, (proj2 (Z.eqb_neq _ _) Hc).
  cbn [andb flush app]. destruct s as [|d s]; rewrite fmap_cons, ?tokens_at;
    (assert (text (sym_tok c) = sym_tok c) as -> by (unfold sym_tok; by repeat case_match)); done.
Qed.
Lemma tokens_rsym o w s : good_word w → tokens (rsym o ++ w ++ s) = Redir o :: tokens (w ++ s).
Proof.
  intros (Hne & Hf & _). destruct w as [|d w]; [done|]. apply list.Forall_cons in Hf as [Hd _].
  destruct o; simpl; [by rewrite tokens_sym| |].
  - change (tokens (62 :: d :: w ++ s)) with
      (text <$> (if d =? 62 then Redir RApp :: lex 2 [] (w ++ s) else Redir ROut :: lex 1 [] (d :: w ++ s))).
    rewrite (wordch_not d 62) by (done || simpl; tauto). by rewrite fmap_cons, tokens_at.
  - change (tokens (62 :: 62 :: d :: w ++ s)) with (text <$> Redir RApp :: lex 2 [] (d :: w ++ s)).
    by rewrite fmap_cons, tokens_at.
Qed.

(** The tokens of a written command. *)
Fixpoint print_toks (t : stree) : list (tok (W := list Z)) :=
  match t with
  | TExec ws => Word <$> ws
  | TRedir t o w => LPar :: print_toks t ++ [RPar; Redir o; Word w]
  | TPipe t u => LPar :: print_toks t ++ [RPar; Bar; LPar] ++ print_toks u ++ [RPar]
  | TList t u => LPar :: print_toks t ++ [RPar; Semi; LPar] ++ print_toks u ++ [RPar]
  | TBack t => LPar :: print_toks t ++ [RPar; Amp]
  end.
Lemma tokens_print t s : tree_all good_word t → no_word s →
  tokens (print t ++ s) = print_toks t ++ tokens s.
Proof.
  assert (∀ c s, is_ws c = false → is_sym c = true → no_word (c :: s)) as Hnw.
  { intros c x Hw Hs d y [= <- <-]. unfold is_wordch. by rewrite Hw, Hs. }
  revert s. induction t as [ws|t IH o w|t IHt u IHu|t IHt u IHu|t IH]; intros s Hg Hs; cbn [print print_toks tree_all] in *.
  - induction Hg as [|w ws Hw Hg IH]; [done|]. rewrite fmap_cons. cbn [concat]. rewrite <- !(assoc_L (++)).
    rewrite tokens_word by (done || intros d y [= <- <-]; done). simpl app. by rewrite tokens_blank, IH.
  - destruct Hg as [Hg Hw]. unfold paren. simpl. rewrite <- !(assoc_L (++)). rewrite tokens_sym by done.
    simpl. rewrite IH by (done || by apply Hnw). rewrite tokens_sym by done.
    rewrite tokens_rsym, tokens_word by done. done.
  - destruct Hg as [Hg Hu]. unfold paren. simpl. rewrite <- !(assoc_L (++)). rewrite tokens_sym by done.
    simpl. rewrite IHt by (done || by apply Hnw). rewrite !tokens_sym by done.
    rewrite <- !(assoc_L (++)). simpl. rewrite IHu by (done || by apply Hnw). by rewrite tokens_sym.
  - destruct Hg as [Hg Hu]. unfold paren. simpl. rewrite <- !(assoc_L (++)). rewrite tokens_sym by done.
    simpl. rewrite IHt by (done || by apply Hnw). rewrite !tokens_sym by done.
    rewrite <- !(assoc_L (++)). simpl. rewrite IHu by (done || by apply Hnw). by rewrite tokens_sym.
  - unfold paren. simpl. rewrite <- !(assoc_L (++)). rewrite tokens_sym by done.
    simpl. rewrite IH by (done || by apply Hnw). by rewrite !tokens_sym.
Qed.

(** A block, and a line that is one command. *)
Lemma block_exec (ts : list (tok (W := list Z))) t : line ts t → exec (LPar :: ts ++ [RPar]) t.
Proof. intros H. apply (exec_block ts t [] []); [done|constructor]. Qed.
Lemma exec_line (ts : list (tok (W := list Z))) t : exec ts t → line ts t.
Proof. intros H. rewrite <- (right_id_L [] (++) ts). apply (line_end ts t 0). by constructor. Qed.
Lemma print_line t : good t → line (print_toks t) t.
Proof.
  induction t as [ws|t IH o w|t IHt u IHu|t IHt u IHu|t IH]; intros Hg; cbn [print_toks good] in *.
  - apply exec_line, (exec_simple (Word <$> ws) ws []); [|done]. clear Hg.
    induction ws; simpl; by constructor.
  - apply exec_line. apply (exec_block _ _ [Redir o; Word w] [(o, w)]); [by apply IH|].
    repeat constructor.
  - destruct Hg as [Ht Hu]. apply (IHt), block_exec in Ht. apply IHu, block_exec in Hu.
    rewrite <- (right_id_L [] (++) (LPar :: _)). apply (line_end _ _ 0).
    pose proof (pipe_cons _ _ _ _ Ht (pipe_one _ _ Hu)) as H. simpl in H.
    by rewrite <- (assoc_L (++)) in H.
  - destruct Hg as [Ht Hu]. apply (IHt), block_exec in Ht. apply IHu, block_exec, exec_line in Hu.
    pose proof (line_seq _ _ 0 _ _ (pipe_one _ _ Ht) Hu) as H. simpl in H.
    by rewrite <- (assoc_L (++)) in H.
  - pose proof (line_end _ _ 1 (pipe_one _ _ (block_exec _ _ (IH Hg)))) as H. simpl in H.
    by rewrite <- (assoc_L (++)) in H.
Qed.
Lemma paren_no_nul l : 0 ∉ l → 0 ∉ paren l.
Proof.
  intros H. apply not_elem_of_cons. split; [done|]. apply not_elem_of_app. split; [done|].
  by apply not_elem_of_cons; split; [|apply not_elem_of_nil].
Qed.
Lemma print_no_nul t : tree_all good_word t → 0 ∉ print t.
Proof.
  induction t as [ws|t IH o w|t IHt u IHu|t IHt u IHu|t IH]; cbn [print tree_all].
  - induction 1 as [|w ws (_ & _ & Hw) _ IH]; [apply not_elem_of_nil|]. rewrite fmap_cons. cbn [concat].
    apply not_elem_of_app. split; [|done]. apply not_elem_of_app. split; [done|].
    by apply not_elem_of_cons; split; [|apply not_elem_of_nil].
  - intros [Hg (_ & _ & Hw)]. apply not_elem_of_app. split; [by apply paren_no_nul, IH|].
    apply not_elem_of_app. split; [|done]. by destruct o; apply (bool_decide_unpack _); vm_compute.
  - intros [Hg Hu]. apply not_elem_of_app. split; [by apply paren_no_nul, IHt|].
    apply not_elem_of_cons. split; [done|by apply paren_no_nul, IHu].
  - intros [Hg Hu]. apply not_elem_of_app. split; [by apply paren_no_nul, IHt|].
    apply not_elem_of_cons. split; [done|by apply paren_no_nul, IHu].
  - intros Hg. apply not_elem_of_app. split; [by apply paren_no_nul, IH|].
    by apply not_elem_of_cons; split; [|apply not_elem_of_nil].
Qed.

(** Every command can be written down: the parser of the shell reads the
    written form of a command back as the same command. *)
Theorem parse_print t junk : tree_all good_word t → good t →
  ∃ r s', parsecmd (4 * length (print t) + 4) (mk_sh (print t ++ 0 :: junk) 0 []) = Ok (r, s') ∧
    shows s' r t.
Proof.
  intros Hw Hg. apply parsecmd_ok; [by apply print_no_nul|lia|].
  rewrite <- (right_id_L [] (++) (print t)), tokens_print by done.
  change (tokens []) with (@nil (tok (W := list Z))). rewrite (right_id_L [] (++)). by apply print_line.
Qed.

End ShProps.
