(* ===== verification/ShRun.v ===== *)
(** * What the shell runs

    The system calls of the shell and its children on tables of descriptors:
    every program that a command names is started with exactly the three
    descriptors that the command gives it. *)

From S2P Require Import Prelude Sh ShGrammar ShLex ShProofs ShProps.

Module ShRun.
Import Sh ShGrammar ShLex ShProofs ShProps.

(** ** Descriptors *)

Inductive fobj : Type :=
| Tty (n : nat)
| AFile (name : list Z) (mode : Z)
| PipeRead (n : nat)
| PipeWrite (n : nat).
Abbreviation table := (list (option fobj)).

(** The lowest free descriptor. *)
Fixpoint fdalloc (T : table) (x : fobj) : option (nat * table) :=
  match T with
  | [] => None
  | None :: T' => Some (O, Some x :: T')
  | Some y :: T' => match fdalloc T' x with Some (n, T'') => Some (S n, Some y :: T'') | None => None end
  end.
Definition fdclose (T : table) (fd : Z) : table := <[Z.to_nat fd := None]> T.

Inductive act : Type := AExec (argv : list (list Z)) (T : table) | AChdir (path : list Z).

Section os.
(** Which files can be opened and which programs exist. *)
Context (can_open : list Z → Z → bool) (can_exec : list (list Z) → bool) (can_cd : list Z → bool).

(** What a process with the table [T] and its children do; [n] is the number of
    pipes so far.  [None] if the process gets stuck. *)
Fixpoint acts (n : nat) (T : table) (p : proc) : option (list act * nat) :=
  match p with
  | Exit _ => Some ([], n)
  | Exec argv failed => if can_exec argv then Some ([AExec argv T], n) else acts n T failed
  | Open file mode k =>
      if can_open file mode then
        match fdalloc T (AFile file mode) with
        | Some (fd, T') => acts n T' (k (Z.of_nat fd))
        | None => acts n T (k (-1))
        end
      else acts n T (k (-1))
  | Close fd k => acts n (fdclose T fd) k
  | Dup fd k =>
      match T !! Z.to_nat fd with
      | Some (Some x) =>
          match fdalloc T x with
          | Some (fd', T') => acts n T' (k (Z.of_nat fd'))
          | None => acts n T (k (-1))
          end
      | _ => acts n T (k (-1))
      end
  | Pipe k =>
      match fdalloc T (PipeRead n) with
      | Some (p0, T1) =>
          match fdalloc T1 (PipeWrite n) with
          | Some (p1, T2) => acts (S n) T2 (k 0 (Z.of_nat p0) (Z.of_nat p1))
          | None => acts n T (k (-1) 0 0)
          end
      | None => acts n T (k (-1) 0 0)
      end
  | Fork k =>
      match acts n T (k 0) with
      | Some (a, n1) =>
          match acts n1 T (k 1) with Some (b, n2) => Some (a ++ b, n2) | None => None end
      | None => None
      end
  | Wait k => acts n T k
  | Chdir path k =>
      match acts n T (k (if can_cd path then 0 else -1)) with
      | Some (a, n1) => Some (AChdir path :: a, n1)
      | None => None
      end
  | Fprintf _ _ _ k => acts n T k
  | Stuck => None
  end.

(** ** The meaning of a command *)

(** The table with standard input, output and error. *)
Definition three (i o e : fobj) : table := Some i :: Some o :: Some e :: replicate 13 None.

(** The programs of a command with these descriptors, and the number of pipes. *)
Fixpoint progs (n : nat) (i o e : fobj) (t : stree) : list act * nat :=
  match t with
  | TExec ws => (if bool_decide (ws = []) then [] else if can_exec ws then [AExec ws (three i o e)] else [], n)
  | TRedir t r f =>
      if can_open f (rmode r) then
        match r with
        | RIn => progs n (AFile f (rmode r)) o e t
        | _ => progs n i (AFile f (rmode r)) e t
        end
      else ([], n)
  | TPipe t u =>
      let '(a, n1) := progs (S n) i (PipeWrite n) e t in
      let '(b, n2) := progs n1 (PipeRead n) o e u in (a ++ b, n2)
  | TList t u =>
      let '(a, n1) := progs n i o e t in
      let '(b, n2) := progs n1 i o e u in (a ++ b, n2)
  | TBack t => progs n i o e t
  end.

Lemma cstring_cstr b p w : cstring b p w → cstr b p = w.
Proof.
  intros [H0 [junk E]]. unfold cstr. rewrite E. clear E.
  induction w as [|c w IH]; [done|]. apply not_elem_of_cons in H0 as [Hc H0]. simpl.
  rewrite IH by done. by destruct (Z.eqb_spec c 0) as [->|].
Qed.
Lemma argv_strs_ok b qs ws x : Forall2 (cstring b) qs ws →
  argv_strs b ((Some <$> qs) ++ None :: x) = ws.
Proof. induction 1 as [|q w qs ws H _ IH]; [done|]. rewrite fmap_cons. cbn [app argv_strs]. by rewrite IH, (cstring_cstr b q w H). Qed.

(** The two ends of a pipe, and nothing else, reach its two sides. *)
Lemma acts_pipe n i o e (L R : proc) :
  acts n (three i o e) (Pipe (λ ret p0 p1,
    if ret <? 0 then die "pipe"
    else fork1 (λ pid,
      if pid =? 0 then Close 1 (Dup p1 (λ _, Close p0 (Close p1 L)))
      else fork1 (λ pid,
        if pid =? 0 then Close 0 (Dup p0 (λ _, Close p0 (Close p1 R)))
        else Close p0 (Close p1 (Wait (Wait (Exit 0)))))))) =
  match acts (S n) (three i (PipeWrite n) e) L with
  | Some (a, n1) =>
      match acts n1 (three (PipeRead n) o e) R with
      | Some (b, n2) => Some (a ++ b ++ [], n2)
      | None => None
      end
  | None => None
  end.
Proof.
  transitivity (match acts (S n) (three i (PipeWrite n) e) L with
    | Some (a, n1) => match match acts n1 (three (PipeRead n) o e) R with
        | Some (b, n2) => Some (b ++ [], n2) | None => None end with
      | Some (b, n2) => Some (a ++ b, n2) | None => None end
    | None => None end); [reflexivity|].
  destruct (acts (S n) (three i (PipeWrite n) e) L) as [[a n1]|]; [|done].
  by destruct (acts n1 (three (PipeRead n) o e) R) as [[b n2]|].
Qed.

Lemma runcmd_acts s t : ∀ fuel r n i o e, shows s r t → (depth t ≤ fuel)%nat →
  acts n (three i o e) (runcmd s fuel r) = Some (progs n i o e t).
Proof.
  induction t as [ws|t IH rd f|t IHt u IHu|t IHt u IHu|t IH]; intros [|fuel] r n i o e Hs Hd;
    try (simpl in Hd; lia); simpl in Hs, Hd; cbn [runcmd].
  - destruct Hs as (qs & x & eargv & -> & Hf). pose proof (argv_strs_ok (buf s) qs ws x Hf) as Ha.
    destruct Hf as [|q w qs ws Hq Hf]; [done|]. cbn [acts fmap list_fmap app] in *. rewrite Ha.
    simpl. by destruct (can_exec (w :: ws)).
  - destruct Hs as (c & p & e' & -> & Hp & Hc). rewrite (cstring_cstr _ _ _ Hp).
    cbn [acts progs]. destruct (can_open f (rmode rd)); [|done].
    destruct rd; cbn; by apply IH; [|lia].
  - destruct Hs as (a & b & -> & Ha & Hb). rewrite acts_pipe, (IHt fuel a) by (done || lia). simpl.
    destruct (progs (S n) i (PipeWrite n) e t) as [x n1].
    rewrite (IHu fuel b) by (done || lia). destruct (progs n1 (PipeRead n) o e u) as [y n2].
    by rewrite (right_id_L [] (++)).
  - destruct Hs as (a & b & -> & Ha & Hb). cbn [acts fork1]. cbn -[three].
    rewrite (IHt fuel a) by (done || lia). destruct (progs n i o e t) as [x n1].
    rewrite (IHu fuel b) by (done || lia). by destruct (progs n1 i o e u) as [y n2].
  - destruct Hs as (c & -> & Hc). cbn -[three]. rewrite (IH fuel c) by (done || lia).
    destruct (progs n i o e t) as [x n1]. by rewrite (right_id_L [] (++)).
Qed.

(** ** The shell *)

(** What the shell does for a line, the newline not included. *)
Inductive line_means (i o e : fobj) (n : nat) : list Z → list act → nat → Prop :=
| means_cd path : line_means i o e n (99 :: 100 :: 32 :: path) [AChdir path] n
| means_run l t a n' : is_cd l = false → line (tokens l) t → progs n i o e t = (a, n') →
    line_means i o e n l a n'
| means_bad l : is_cd l = false → (∀ t, ¬ line (tokens l) t) → line_means i o e n l [] n.
Inductive lines_mean (i o e : fobj) : nat → list (list Z) → list act → nat → Prop :=
| lines_nil n : lines_mean i o e n [] [] n
| lines_cons n l a n1 ls b n2 : line_means i o e n l a n1 → lines_mean i o e n1 ls b n2 →
    lines_mean i o e n (l :: ls) (a ++ b) n2.
(** A line that fits into the buffer. *)
Definition fits (l : list Z) : Prop := (length l ≤ 98)%nat ∧ Forall (λ c, c ≠ 0 ∧ c ≠ 10 ∧ c ≠ 13) l.

Lemma gets_line_ok k l rest : Forall (λ c, c ≠ 0 ∧ c ≠ 10 ∧ c ≠ 13) l → (length l < k)%nat →
  gets_line k (l ++ 10 :: rest) = (l ++ [10], rest).
Proof.
  revert k. induction l as [|c l IH]; intros [|k] Hf Hk; simpl in Hk; try lia; [done|].
  apply list.Forall_cons in Hf as [(H0 & H1 & H2) Hf]. simpl.
  rewrite (proj2 (Z.eqb_neq c 10)), (proj2 (Z.eqb_neq c 13)) by done. simpl. by rewrite IH by (done || lia).
Qed.
Lemma lex_newline k p w l : (length l ≤ k)%nat → lex p w (l ++ [10]) = lex p w l.
Proof.
  revert p w l. induction k as [|k IH]; intros p w l Hk.
  { destruct l; [|simpl in Hk; lia]. cbn. apply (right_id_L [] (++)). }
  destruct l as [|c l]; [cbn; apply (right_id_L [] (++))|]. simpl in Hk. cbn [app lex].
  destruct (is_ws c); [by rewrite IH by lia|]. destruct (is_sym c); [|by apply IH; lia].
  f_equal. destruct l as [|d l]; [cbn; by rewrite andb_false_r|]. cbn [app]. simpl in Hk.
  destruct ((c =? 62) && (d =? 62)); f_equal; [apply IH; lia|apply (IH _ _ (d :: l)); simpl; lia].
Qed.
Lemma tokens_newline l : tokens (l ++ [10]) = tokens l.
Proof. unfold tokens, ptokens. by rewrite (lex_newline (length l)). Qed.
Lemma is_cd_newline l x : is_cd (l ++ 10 :: x) = is_cd l.
Proof.
  destruct l as [|c0 [|c1 [|c2 l]]]; [destruct x as [|? [|]]..|]; simpl; rewrite ?andb_false_r; try done.
Qed.
Lemma fits_no_nul l : fits l → 0 ∉ l ++ [10].
Proof.
  intros [_ Hf]. apply not_elem_of_app. split; [|by apply not_elem_of_cons; split; [|apply not_elem_of_nil]].
  intros H. by apply (list.Forall_forall (λ c, c ≠ 0 ∧ c ≠ 10 ∧ c ≠ 13) l) in H as [? _].
Qed.

Lemma cd_buf path k : 0 ∉ (99 :: 100 :: 32 :: path) ++ [10] →
  let b := ((99 :: 100 :: 32 :: path) ++ [10]) ++ replicate (S k) 0 in
  is_cd b = true ∧ strlen_at b = Some (length path + 4)%nat ∧
  cstr (<[(length path + 4 - 1)%nat := 0]> b) 3 = path.
Proof.
  intros Hnul b. split; [done|]. split.
  - unfold b. simpl replicate. rewrite strlen_at_ok by done. f_equal. simpl. rewrite length_app. simpl. lia.
  - apply cstring_cstr. split.
    + simpl in Hnul. do 3 (apply not_elem_of_cons in Hnul as [_ Hnul]). by apply not_elem_of_app in Hnul as [? _].
    + exists (replicate (S k) 0). unfold b.
      replace (length path + 4 - 1)%nat with (length ((99 :: 100 :: 32 :: path)%Z : list Z) + 0)%nat by (simpl; lia).
      by rewrite <- (assoc_L (++)), insert_app_r.
Qed.

(** One turn of the loop. *)
Lemma command_acts fuel i o e n l a n1 next b n2 k : (400 ≤ fuel)%nat → fits l → line_means i o e n l a n1 →
  acts n1 (three i o e) next = Some (b, n2) →
  acts n (three i o e) (command fuel ((l ++ [10]) ++ replicate (S k) 0) next) = Some (a ++ b, n2).
Proof.
  intros Hfuel Hfit Hm Hn. pose proof (fits_no_nul l Hfit) as Hnul. destruct Hfit as [Hlen Hf].
  unfold command.
  assert ((l ++ [10]) ++ replicate (S k) 0 = l ++ 10 :: replicate (S k) 0) as Hb by (by rewrite <- (assoc_L (++))).
  destruct Hm as [path|l t a n1 Hcd Ht Hp|l Hcd Hno].
  - destruct (cd_buf path k Hnul) as (Hcd & Hst & Hc). rewrite Hcd, Hst, Hc.
    cbn [acts]. destruct (can_cd path); simpl; by rewrite Hn.
  - rewrite Hb, is_cd_newline, Hcd, <- Hb. simpl replicate.
    destruct (parsecmd_ok (l ++ [10]) (replicate k 0) 0 [] fuel t) as (r & s' & E & Hsh); [done| | |].
    { rewrite length_app. simpl. lia. } { by rewrite tokens_newline. }
    cbn -[three parsecmd runcmd]. rewrite E, (runcmd_acts s' t), Hp; [by rewrite Hn|done|].
    apply (proj1 (grammar_all (λ _, True))) in Ht as [_ Hd]; [|apply list.Forall_true; by intros []].
    unfold tokens in Hd. rewrite length_fmap in Hd. pose proof (ptokens_length l). lia.
  - rewrite Hb, is_cd_newline, Hcd, <- Hb. simpl replicate.
    destruct (parsecmd_bad (l ++ [10]) (replicate k 0) 0 [] fuel) as (msg & E); [done| | |].
    { rewrite length_app. simpl. lia. } { by rewrite tokens_newline. }
    cbn -[three parsecmd]. rewrite E. cbn -[three]. by rewrite Hn.
Qed.

Lemma main_loop_acts i o e ls : Forall fits ls → ∀ n a n' fuel, lines_mean i o e n ls a n' →
  (length ls < fuel)%nat →
  acts n (three i o e) (main_loop fuel (concat ((λ l, l ++ [10]) <$> ls))) = Some (a, n').
Proof.
  induction 1 as [|l ls Hl _ IH]; intros n a n' [|fuel] Hm Hfuel; simpl in Hfuel; try lia;
    inversion Hm; subst; [done|].
  rewrite fmap_cons. cbn [concat main_loop]. unfold getcmd. rewrite <- (assoc_L (++)). simpl app.
  pose proof Hl as [Hlen Hf]. rewrite gets_line_ok by (done || lia). cbn [acts].
  assert (∃ k, (100 - length (l ++ [10%Z]))%nat = S k) as [k Hk].
  { exists (98 - length l)%nat. rewrite length_app. simpl. lia. }
  rewrite Hk.
  assert (∀ x y z, match (l ++ [10]) ++ x with
    | [] => y : proc | c :: _ => if c =? 0 then Exit 0 else z end = z) as ->.
  { intros x y z. destruct l as [|c l]; [done|]. simpl. apply list.Forall_cons in Hf as [[Hc _] _].
    by rewrite (proj2 (Z.eqb_neq c 0) Hc). }
  eapply command_acts; [lia|done|done|]. apply IH; [done|lia].
Qed.
Lemma open_loop_acts i o e n k : acts n (three i o e) (open_loop 4 k) = acts n (three i o e) k.
Proof. cbn -[three acts]. unfold console. simpl. by destruct (can_open _ _). Qed.

End os.

(** ** Runs *)

(** [ls -l <f|(wc;cat)>>g&] *)
Definition example_line : list Z :=
  [108; 115; 32; 45; 108; 32; 60; 102; 124; 40; 119; 99; 59; 99; 97; 116; 41; 62; 62; 103; 38].
Definition example_tree : stree :=
  TBack (TPipe (TRedir (TExec [[108; 115]; [45; 108]]) RIn [102])
    (TRedir (TList (TExec [[119; 99]]) (TExec [[99; 97; 116]])) RApp [103])).
Lemma example_derived : line (tokens example_line) example_tree.
Proof. apply (tline_decides 100); [vm_compute; lia|vm_compute; reflexivity]. Qed.

Lemma parsecmd_correct_witness : ∃ r s',
  parsecmd 88 (mk_sh (example_line ++ [0]) 0 []) = Ok (r, s') ∧ shows s' r example_tree.
Proof.
  apply (proj1 (parsecmd_correct example_line [] 0 [] 88 ltac:(apply (bool_decide_unpack _); vm_compute; exact I)
    ltac:(vm_compute; lia))).
  exact example_derived.
Defined.

Lemma parse_print_witness : ∃ r s',
  parsecmd (4 * length (print example_tree) + 4) (mk_sh (print example_tree ++ [0]) 0 []) = Ok (r, s') ∧
  shows s' r example_tree.
Proof.
  assert (∀ w, bool_decide (w ≠ []) && forallb is_wordch w && bool_decide (0 ∉ w) = true → good_word w) as Hw.
  { intros w [[H1 H2]%andb_true_iff H3]%andb_true_iff. apply bool_decide_eq_true in H1, H3.
    split; [done|]. split; [|done]. apply list.Forall_forall. intros c Hc.
    rewrite forallb_forall in H2. by apply H2, list_elem_of_In. }
  apply (parse_print example_tree []).
  - repeat split; repeat constructor; apply Hw; reflexivity.
  - simpl. unfold MAXARGS. lia.
Defined.


End ShRun.
