(* ===== verification/Printf.v ===== *)
(** * Formatted output (user/printf.c, kernel/printf.c)

    The characters written so far and the words of the variable arguments are
    the state.  The two copies of the code differ in the digits they use, in
    the conversions they know and in the sign of [%x].  The characters are '%'
    37, '-' 45, '0' 48, 'c' 99, 'd' 100, 'l' 108, 'p' 112, 's' 115, 'x' 120. *)

From S2P Require Import Prelude Strings.

Module Printf.

Record st := mk_st { out : list Z; ap : list Z }.
Definition putc (c : Z) : prog st unit := modify (λ s, mk_st (out s ++ [u8 c]) (ap s)).
(** The next argument, a 64-bit word. *)
Definition va_arg : prog st Z := λ s,
  match ap s with [] => Fault | a :: ap' => Ok (a, mk_st (out s) ap') end.

Definition digits : list Z := [48; 49; 50; 51; 52; 53; 54; 55; 56; 57; 65; 66; 67; 68; 69; 70].
Definition kdigits : list Z := [48; 49; 50; 51; 52; 53; 54; 55; 56; 57; 97; 98; 99; 100; 101; 102].

Fixpoint puts (l : list Z) : prog st unit :=
  match l with [] => skip | c :: l' => putc c;; puts l' end.

Section ints.
Context (digits : list Z).

(** [digits[i]]. *)
Definition digit (i : Z) : prog st Z := λ s,
  match digits !! Z.to_nat i with Some c => Ok (c, s) | None => Fault end.
(** [buf[i++] = c] for the array of 16 characters; [buf] are those written. *)
Definition push (c : Z) (buf : list Z) : prog st (list Z) :=
  if bool_decide (length buf < 16)%nat then mret (buf ++ [c]) else fault.
(** [do { buf[i++] = digits[x % base]; } while((x /= base) != 0)] *)
Fixpoint digits_loop (fuel : nat) (x base : Z) (buf : list Z) : prog st (list Z) :=
  match fuel with
  | O => spin
  | S fuel' =>
      c ← digit (x `mod` base);
      buf' ← push c buf;
      if negb (x `div` base =? 0) then digits_loop fuel' (x `div` base) base buf' else mret buf'
  end.
Definition printint (xx base : Z) (sgn : bool) : prog st unit :=
  let neg := sgn && (xx <? 0) in
  let x := if neg then u32 (- xx) else u32 xx in
  buf ← digits_loop 32 x base [];
  buf' ← (if neg : bool then push 45 buf else mret buf);
  puts (rev buf').

Fixpoint ptr_loop (k : nat) (x : Z) : prog st unit :=
  match k with
  | O => skip
  | S k' => c ← digit (Z.shiftr x 60); putc c;; ptr_loop k' (u64 (Z.shiftl x 4))
  end.
Definition printptr (x : Z) : prog st unit := putc 48;; putc 120;; ptr_loop 16 x.
End ints.

Section formats.
(** The string at an address. *)
Context (str : Z → list Z).
Definition null_str : list Z := [40; 110; 117; 108; 108; 41].
Definition putstr : prog st unit :=
  a ← va_arg; puts (if a =? 0 then null_str else str a).

(** The conversion [c] after a '%'. *)
Definition conv (c : Z) : prog st unit :=
  if c =? 100 then a ← va_arg; printint digits (i32 a) 10 true
  else if c =? 108 then a ← va_arg; printint digits (i32 a) 10 false
  else if c =? 120 then a ← va_arg; printint digits (i32 a) 16 false
  else if c =? 112 then a ← va_arg; printptr digits a
  else if c =? 115 then putstr
  else if c =? 99 then a ← va_arg; putc (u32 a)
  else if c =? 37 then putc c
  else putc 37;; putc c.
(** [fmt] are the characters before the terminator. *)
Fixpoint vprintf_loop (state : bool) (fmt : list Z) : prog st unit :=
  match fmt with
  | [] => skip
  | c :: fmt' =>
      if negb state then
        if c =? 37 then vprintf_loop true fmt' else putc c;; vprintf_loop false fmt'
      else conv c;; vprintf_loop false fmt'
  end.
Definition vprintf (fmt : list Z) : prog st unit := vprintf_loop false fmt.

(** The kernel's copies. *)
Definition kprintint (xx base : Z) (sign : bool) : prog st unit := printint kdigits xx base sign.
Definition kprintptr (x : Z) : prog st unit := printptr kdigits x.
Definition kconv (c : Z) : prog st unit :=
  if c =? 100 then a ← va_arg; kprintint (i32 a) 10 true
  else if c =? 120 then a ← va_arg; kprintint (i32 a) 16 true
  else if c =? 112 then a ← va_arg; kprintptr a
  else if c =? 115 then putstr
  else if c =? 37 then putc 37
  else putc 37;; putc c.
Fixpoint kprintf_loop (fuel : nat) (fmt : list Z) : prog st unit :=
  match fuel with
  | O => spin
  | S fuel' =>
      match fmt with
      | [] => skip
      | c :: fmt' =>
          if negb (c =? 37) then putc c;; kprintf_loop fuel' fmt'
          else match fmt' with
               | [] => skip
               | c' :: fmt'' => kconv c';; kprintf_loop fuel' fmt''
               end
      end
  end.
(** [printf] under its lock; a null pointer is no format. *)
Definition kprintf (fmt : option (list Z)) : prog st unit :=
  match fmt with
  | None => panic "null fmt"
  | Some f => kprintf_loop (S (length f)) f
  end.
End formats.

(** ** Numerals *)

(** The number with the digits [ds], and the numeral of a number: its digits,
    with no leading zero. *)
Definition value (base : Z) (ds : list Z) : Z := foldl (λ n d, n * base + d) 0 ds.
Definition numeral (base v : Z) (ds : list Z) : Prop :=
  value base ds = v ∧ Forall (λ d, 0 ≤ d < base) ds ∧
  (ds = [0] ∨ ∃ d ds', ds = d :: ds' ∧ d ≠ 0).

Lemma value_snoc base ds d : value base (ds ++ [d]) = value base ds * base + d.
Proof. unfold value. by rewrite foldl_app. Qed.

(** The character of a digit. *)
Definition dch (digits : list Z) (d : Z) : Z := nth (Z.to_nat d) digits 0.
Definition table (digits : list Z) : Prop :=
  length digits = 16%nat ∧ Forall (λ c, 0 ≤ c < 256) digits.
Lemma tables : table digits ∧ table kdigits.
Proof. split; (split; [done|repeat constructor; lia]). Qed.

Section proofs.
Context (digits : list Z) (Htab : table digits) (base : Z) (Hbase : 10 ≤ base ≤ 16).

Lemma digit_ok d s : 0 ≤ d < 16 → digit digits d s = Ok (dch digits d, s).
Proof.
  intros Hd. unfold digit, dch. destruct Htab as [Hl _].
  destruct (lookup_lt_is_Some_2 digits (Z.to_nat d)) as [c E]; [lia|]. rewrite E.
  by rewrite (nth_lookup_Some _ _ _ _ E).
Qed.
Lemma dch_byte d : 0 ≤ d < 16 → u8 (dch digits d) = dch digits d.
Proof.
  intros Hd. destruct Htab as [Hl Hf]. unfold dch.
  destruct (lookup_lt_is_Some_2 digits (Z.to_nat d)) as [c E]; [lia|].
  rewrite (nth_lookup_Some _ _ _ _ E). apply Z.mod_small.
  apply (list.Forall_lookup_1 _ _ _ _ Hf) in E. lia.
Qed.
Lemma push_ok c buf s : (length buf < 16)%nat → push c buf s = Ok (buf ++ [c], s).
Proof. intros H. unfold push. by rewrite bool_decide_eq_true_2. Qed.

Lemma digits_loop_ok k : ∀ x fuel buf s, 0 ≤ x < base ^ Z.of_nat (S k) → (S k ≤ fuel)%nat →
  (length buf + S k ≤ 16)%nat →
  ∃ ds, numeral base x ds ∧ (length ds ≤ S k)%nat ∧
    digits_loop digits fuel x base buf s = Ok (buf ++ rev (dch digits <$> ds), s).
Proof.
  induction k as [|k IH]; intros x [|fuel] buf s Hx Hf Hb; try lia;
    pose proof (Z.mod_pos_bound x base ltac:(lia)) as Hm; pose proof (Z.div_mod x base ltac:(lia)) as Hdm;
    cbn [digits_loop]; rewrite (bind_Ok _ _ _ _ _ (digit_ok (x `mod` base) s ltac:(lia))),
      (bind_Ok _ _ _ _ _ (push_ok _ buf s ltac:(lia))).
  - change (base ^ Z.of_nat 1) with (base ^ 1) in Hx. rewrite Z.pow_1_r in Hx.
    rewrite (Z.div_small x base), Z.mod_small by lia. simpl. exists [x]. split_and!; [|done|done].
    split_and!; [unfold value; simpl; lia|repeat constructor; lia|].
    destruct (decide (x = 0)) as [->|]; [by left|right; by exists x, []].
  - rewrite Nat2Z.inj_succ, Z.pow_succ_r in Hx by lia.
    destruct (Z.eqb_spec (x `div` base) 0) as [E|E]; simpl.
    + exists [x `mod` base]. split_and!; [|simpl; lia|done]. assert (x `mod` base = x) as -> by (rewrite E in Hdm; lia).
      split_and!; [unfold value; simpl; lia|repeat constructor; lia|].
      destruct (decide (x = 0)) as [->|]; [by left|right; by exists x, []].
    + destruct (IH (x `div` base) fuel (buf ++ [dch digits (x `mod` base)]) s) as (ds & (Hv & Hd & Hz) & Hl & ->).
      { split; [apply Z.div_pos; lia|]. apply Z.div_lt_upper_bound; lia. } { lia. }
      { rewrite length_app. simpl. lia. }
      exists (ds ++ [x `mod` base]). split_and!.
      * split_and!; [rewrite value_snoc, Hv; lia|apply Forall_app; split; [done|by apply Forall_singleton]|].
        right. destruct Hz as [->|(d & ds' & -> & Hnz)]; [by destruct E; rewrite <- Hv|].
        by exists d, (ds' ++ [x `mod` base]).
      * rewrite length_app. simpl. lia.
      * rewrite fmap_app, rev_app_distr. simpl. by rewrite <- (assoc_L (++)).
Qed.
Lemma puts_ok l s : puts l s = Ok (tt, mk_st (out s ++ (u8 <$> l)) (ap s)).
Proof.
  revert s. induction l as [|c l IH]; intros s; [destruct s; simpl; by rewrite (right_id_L [] (++))|].
  simpl. rewrite (bind_Ok (putc c) _ _ _ _ eq_refl), IH. simpl. by rewrite <- (assoc_L (++)).
Qed.

Lemma printint_ok xx sgn s : - 2 ^ 31 ≤ xx < 2 ^ 31 →
  ∃ ds, numeral base (if (sgn : bool) then Z.abs xx else u32 xx) ds ∧
    printint digits xx base sgn s =
      Ok (tt, mk_st (out s ++ (if sgn && (xx <? 0) then [45] else []) ++ (dch digits <$> ds)) (ap s)).
Proof.
  intros Hx. unfold printint. cbv zeta. set (neg := sgn && (xx <? 0)).
  assert ((if neg then u32 (- xx) else u32 xx) = if sgn then Z.abs xx else u32 xx) as ->.
  { unfold neg. destruct sgn; simpl; [|done]. destruct (Z.ltb_spec xx 0); rewrite u32_small; lia. }
  set (x := if sgn then Z.abs xx else u32 xx).
  assert (0 ≤ x < 2 ^ 32) as Hx'.
  { unfold x. destruct sgn; [lia|]. apply Z.mod_pos_bound. lia. }
  destruct (digits_loop_ok 9 x 32 [] s) as (ds & Hn & Hl & E); [|lia|simpl; lia|].
  { split; [lia|]. apply Z.lt_le_trans with (10 ^ 10); [lia|]. apply Z.pow_le_mono_l. lia. }
  exists ds. split; [done|]. rewrite (bind_Ok _ _ _ _ _ E). simpl app.
  assert (u8 <$> (dch digits <$> ds) = dch digits <$> ds) as Hu.
  { rewrite <- list_fmap_compose. apply list_fmap_ext. intros i d Hi. apply dch_byte.
    destruct Hn as (_ & Hd & _). apply (list.Forall_lookup_1 _ _ _ _ Hd) in Hi. lia. }
  destruct neg.
  - rewrite (bind_Ok _ _ s _ _ (push_ok 45 (rev (dch digits <$> ds)) s ltac:(rewrite length_rev, length_fmap; lia))).
    rewrite puts_ok, rev_app_distr, rev_involutive, fmap_app. by rewrite Hu.
  - rewrite (bind_Ok (mret _) _ _ _ _ eq_refl), puts_ok, rev_involutive. by rewrite Hu.
Qed.
End proofs.

(** ** Round trip with atoi *)

Lemma decimal_value ds : Forall (λ d, 0 ≤ d < 10) ds → Strings.decimal (dch digits <$> ds) = value 10 ds.
Proof.
  intros H. unfold Strings.decimal, value. generalize 0 as n.
  induction H as [|d ds Hd Hf IH]; intros n; [done|]. rewrite fmap_cons. cbn [foldl]. rewrite IH. f_equal.
  assert (dch digits d = d + 48) as ->; [|lia].
  assert (d = 0 ∨ d = 1 ∨ d = 2 ∨ d = 3 ∨ d = 4 ∨ d = 5 ∨ d = 6 ∨ d = 7 ∨ d = 8 ∨ d = 9) as Hc by lia.
  by destruct Hc as [->|[->|[->|[->|[->|[->|[->|[->|[->| ->]]]]]]]]].
Qed.

(** ** Formats *)

(** A format as a sequence of characters and conversions; a '%' at the end is
    nothing. *)
Inductive item : Type := Lit (c : Z) | Conv (c : Z).
Fixpoint items (fmt : list Z) : list item :=
  match fmt with
  | [] => []
  | c :: fmt' =>
      if c =? 37 then match fmt' with [] => [] | c' :: fmt'' => Conv c' :: items fmt'' end
      else Lit c :: items fmt'
  end.
Fixpoint run_items (cv : Z → prog st unit) (l : list item) : prog st unit :=
  match l with
  | [] => skip
  | Lit c :: l' => putc c;; run_items cv l'
  | Conv c :: l' => cv c;; run_items cv l'
  end.
Lemma bind_eq {S A B} (m : prog S A) (f g : A → prog S B) s :
  (∀ a s', f a s' = g a s') → (m ≫= f) s = (m ≫= g) s.
Proof. intros H. unfold mbind, prog_bind. destruct (m s) as [[a s']| | |]; [apply H|done..]. Qed.

Lemma vprintf_items str k fmt s : (length fmt ≤ k)%nat →
  vprintf_loop str false fmt s = run_items (conv str) (items fmt) s.
Proof.
  revert fmt s. induction k as [|k IH]; intros [|c fmt] s Hk; simpl in Hk; try done; [lia|].
  cbn [vprintf_loop items negb]. destruct (c =? 37).
  - destruct fmt as [|c' fmt]; [done|]. simpl in Hk. cbn [vprintf_loop negb run_items].
    apply bind_eq. intros _ s'. apply IH. lia.
  - cbn [run_items]. apply bind_eq. intros _ s'. apply IH. lia.
Qed.
Lemma kprintf_items str fuel fmt s : (length fmt < fuel)%nat →
  kprintf_loop str fuel fmt s = run_items (kconv str) (items fmt) s.
Proof.
  revert fmt s. induction fuel as [|fuel IH]; intros [|c fmt] s Hk; simpl in Hk; try done; try lia.
  cbn [kprintf_loop items]. destruct (c =? 37); cbn [negb].
  - destruct fmt as [|c' fmt]; [done|]. simpl in Hk. cbn [run_items].
    apply bind_eq. intros _ s'. apply IH. lia.
  - cbn [run_items]. apply bind_eq. intros _ s'. apply IH. lia.
Qed.

(** ** Properties *)

(** [printint] writes the numeral of its argument: a sign where it is
    negative and signed, and the digits in the base, with no leading zero, of
    its absolute value, or of the 32-bit word where it is unsigned.  The
    smallest integer is no exception, and the buffer is never overrun. *)
Theorem printint_correct ds base xx sgn s : ds = digits ∨ ds = kdigits → base = 10 ∨ base = 16 →
  - 2 ^ 31 ≤ xx < 2 ^ 31 →
  ∃ l, numeral base (if (sgn : bool) then Z.abs xx else u32 xx) l ∧
    printint ds xx base sgn s =
      Ok (tt, mk_st (out s ++ (if sgn && (xx <? 0) then [45] else []) ++ (dch ds <$> l)) (ap s)).
Proof.
  intros Hd Hb Hx. apply printint_ok; [|lia|done]. destruct tables, Hd; by subst.
Qed.

(** [atoi] reads back what [printf("%d")] writes for a number that is not
    negative, wherever the text is put in memory. *)
Theorem print_atoi str x : 0 ≤ x < 2 ^ 31 →
  ∃ l, vprintf str [37; 100] (mk_st [] [x]) = Ok (tt, mk_st l []) ∧
    ∀ m p fuel, Strings.digits_at m p l → (length l < fuel)%nat → Strings.atoi fuel m p = Some x.
Proof.
  intros Hx. destruct (printint_ok digits (proj1 tables) 10 ltac:(lia) x true (mk_st [] [])) as (l & Hn & E); [lia|].
  exists (dch digits <$> l). split.
  - unfold vprintf. cbn [vprintf_loop negb]. change (37 =? 37) with true. cbv iota.
    unfold conv. change (100 =? 100) with true. cbv iota. rewrite bind_assoc'.
    rewrite (bind_Ok va_arg _ (mk_st [] [x]) x (mk_st [] []) eq_refl), (i32_small x) by lia.
    rewrite (bind_Ok _ _ _ _ _ E). simpl. rewrite (proj2 (Z.ltb_ge x 0)) by lia. done.
  - intros m p fuel Hd Hl. destruct Hn as (Hv & Hf & _).
    pose proof (Strings.atoi_loop_ok fuel m p _ 0 Hd Hl) as Ha. unfold Strings.atoi. change (i32 0) with 0 in Ha. rewrite Ha.
    change (foldl _ 0 (dch digits <$> l)) with (Strings.decimal (dch digits <$> l)).
    rewrite decimal_value, Hv by done. f_equal. rewrite Z.abs_eq by lia. apply i32_small. lia.
Qed.

Lemma printint_correct_witness : ∃ l, numeral 10 (Z.abs (- 2 ^ 31)) l ∧
  printint digits (- 2 ^ 31) 10 true (mk_st [] []) = Ok (tt, mk_st ([45] ++ (dch digits <$> l)) []).
Proof.
  exact (printint_correct digits 10 (- 2 ^ 31) true (mk_st [] []) (or_introl eq_refl) (or_introl eq_refl)
    ltac:(lia)).
Defined.
Lemma print_atoi_witness : ∃ l, vprintf (λ _, []) [37; 100] (mk_st [] [42]) = Ok (tt, mk_st l []) ∧
  ∀ m p fuel, Strings.digits_at m p l → (length l < fuel)%nat → Strings.atoi fuel m p = Some 42.
Proof. apply (print_atoi (λ _, []) 42). lia. Defined.

End Printf.
