(* ===== verification/Tools.v ===== *)
(** * Two small user programs

    The counters of user/wc.c, whatever the pieces in which the input arrives,
    and the random number generator of user/grind.c. *)

From S2P Require Import Prelude Strings Printf.

Module Tools.
Import Printf.

(** ** wc *)

Record counts := mk_counts { l_ : Z; w_ : Z; c_ : Z; inword : bool }.
(** [strchr(" \r\t\n\v", c)] *)
Definition space (c : Z) : bool := (c =? 32) || (c =? 13) || (c =? 9) || (c =? 10) || (c =? 11).
(** The body of the loop over the buffer. *)
Definition count (k : counts) (ch : Z) : counts :=
  let k := mk_counts (l_ k) (w_ k) (i32 (c_ k + 1)) (inword k) in
  let k := if ch =? 10 then mk_counts (i32 (l_ k + 1)) (w_ k) (c_ k) (inword k) else k in
  if space ch then mk_counts (l_ k) (w_ k) (c_ k) false
  else if negb (inword k) then mk_counts (l_ k) (i32 (w_ k + 1)) (c_ k) true
  else k.
(** [reads] is what the calls of [read] give: a piece of the input, or an
    error.  An empty piece is the end. *)
Fixpoint wc_loop (reads : list (option (list Z))) (k : counts) : option counts :=
  match reads with
  | [] => Some k
  | None :: _ => None
  | Some buf :: reads' => match buf with [] => Some k | _ => wc_loop reads' (foldl count k buf) end
  end.
(** The formats are "wc: read error\n" and "%d %d %d %s\n"; the result is
    whether the program goes on. *)
Definition wc_error : list Z := [119; 99; 58; 32; 114; 101; 97; 100; 32; 101; 114; 114; 111; 114; 10].
Definition wc_line : list Z := [37; 100; 32; 37; 100; 32; 37; 100; 32; 37; 115; 10].
Definition wc (str : Z → list Z) (reads : list (option (list Z))) (name : Z) : prog st bool :=
  match wc_loop reads (mk_counts 0 0 0 false) with
  | None => modify (λ s, mk_st (out s) []);; vprintf str wc_error;; mret false
  | Some k =>
      modify (λ s, mk_st (out s) [l_ k; w_ k; c_ k; name]);; vprintf str wc_line;; mret true
  end.

(** ** do_rand *)

(** On [unsigned long] and [long]; [x % 0x7ffffffe] is unsigned. *)
Definition do_rand (ctx : Z) : Z :=
  let x := ctx `mod` 0x7ffffffe + 1 in
  let hi := Z.quot x 127773 in
  let lo := Z.rem x 127773 in
  let x := 16807 * lo - 2836 * hi in
  let x := if x <? 0 then x + 0x7fffffff else x in
  x - 1.

(** [do_rand] is the Park-Miller generator, computed without a product of
    more than 32 bits: on the shifted range it multiplies by 7^5 modulo
    2^31 - 1.  Every intermediate value fits into 32 bits, and the state stays
    in the range. *)
Theorem do_rand_correct ctx : 0 ≤ ctx < 2 ^ 64 →
  let x := ctx `mod` 0x7ffffffe + 1 in
  do_rand ctx + 1 = (7 ^ 5 * x) `mod` (2 ^ 31 - 1) ∧ 0 ≤ do_rand ctx < 0x7ffffffe ∧
  - 2 ^ 31 ≤ 16807 * Z.rem x 127773 - 2836 * Z.quot x 127773 < 2 ^ 31.
Proof.
  intros Hc x. unfold do_rand. fold x.
  assert (1 ≤ x ≤ 0x7ffffffe) as Hx.
  { unfold x. pose proof (Z.mod_pos_bound ctx 0x7ffffffe ltac:(lia)). lia. }
  clearbody x. rewrite Z.rem_mod_nonneg, Z.quot_div_nonneg by lia.
  pose proof (Z.div_mod x 127773 ltac:(lia)) as Hdm. pose proof (Z.mod_pos_bound x 127773 ltac:(lia)) as Hm.
  set (hi := x `div` 127773) in *. set (lo := x `mod` 127773) in *.
  assert (0 ≤ hi ≤ 16807) as Hhi by lia.
  change (7 ^ 5) with 16807. change (2 ^ 31 - 1) with 2147483647.
  assert (16807 * x = hi * 2147483647 + (16807 * lo - 2836 * hi)) as E by lia.
  assert ((16807 * x) `mod` 2147483647 ≠ 0) as Hnz.
  { intros H0. apply Z.mod_divide in H0; [|lia].
    assert (Z.gcd 2147483647 16807 = 1) as Hg by (vm_compute; reflexivity).
    apply Z.gauss in H0; [|done]. apply Z.divide_pos_le in H0; lia. }
  destruct (Z.ltb_spec (16807 * lo - 2836 * hi) 0) as [Hneg|Hpos].
  - assert ((16807 * x) `mod` 2147483647 = 16807 * lo - 2836 * hi + 0x7fffffff) as Em.
    { symmetry. apply (Z.mod_unique _ _ (hi - 1)); lia. }
    rewrite Em in *. lia.
  - assert ((16807 * x) `mod` 2147483647 = 16807 * lo - 2836 * hi) as Em.
    { symmetry. apply (Z.mod_unique _ _ hi); lia. }
    rewrite Em in *. lia.
Qed.
Lemma do_rand_correct_witness :
  do_rand 1 + 1 = (7 ^ 5 * (1 `mod` 0x7ffffffe + 1)) `mod` (2 ^ 31 - 1).
Proof. exact (proj1 (do_rand_correct 1 ltac:(lia))). Defined.

(** ** Words *)

(** The pieces between the blanks. *)
Fixpoint split (l : list Z) : list (list Z) :=
  match l with
  | [] => [[]]
  | c :: l' => if space c then [] :: split l'
               else match split l' with w :: ws => (c :: w) :: ws | [] => [[c]] end
  end.
Definition words (l : list Z) : list (list Z) := filter (λ w, w ≠ []) (split l).
Definition newlines (l : list Z) : nat := length (filter (λ c, c = 10) l).
(** The words still to come, the first of which has begun. *)
Definition more_words (b : bool) (l : list Z) : nat :=
  match b, split l with
  | true, _ :: ws => length (filter (λ w, w ≠ []) ws)
  | _, ws => length (filter (λ w, w ≠ []) ws)
  end.

Lemma split_nil l : split l ≠ [].
Proof. destruct l as [|c l]; [done|]. simpl. destruct (space c); [done|]. by destruct (split l). Qed.
Lemma more_words_cons b c l : more_words b (c :: l) =
  (if space c then more_words false l
   else if b then more_words true l else S (more_words true l))%nat.
Proof.
  unfold more_words. cbn [split]. destruct (space c).
  - destruct b; [done|]. by rewrite filter_cons_False by (by intros []).
  - pose proof (split_nil l). destruct (split l) as [|w ws]; [done|]. destruct b; [done|].
    by rewrite filter_cons_True.
Qed.
Lemma count_ok l k : 0 ≤ l_ k → 0 ≤ w_ k → 0 ≤ c_ k →
  l_ k + Z.of_nat (length l) < 2 ^ 31 → w_ k + Z.of_nat (length l) < 2 ^ 31 →
  c_ k + Z.of_nat (length l) < 2 ^ 31 →
  ∃ b, foldl count k l = mk_counts (l_ k + Z.of_nat (newlines l)) (w_ k + Z.of_nat (more_words (inword k) l))
    (c_ k + Z.of_nat (length l)) b.
Proof.
  revert k. induction l as [|c l IH]; intros k Hl Hw Hc Bl Bw Bc.
  { exists (inword k). change (newlines []) with O.
    assert (more_words (inword k) [] = O) as -> by (by destruct (inword k)).
    simpl. rewrite !Z.add_0_r. by destruct k. }
  simpl length in *. cbn [foldl].
  assert (newlines (c :: l) = (if (c =? 10)%Z then S (newlines l) else newlines l)) as ->.
  { unfold newlines. destruct (Z.eqb_spec c 10) as [->|Hn]; [by rewrite filter_cons_True|].
    by rewrite filter_cons_False. }
  rewrite more_words_cons. destruct k as [kl kw kc kin]. cbn [l_ w_ c_ inword] in *.
  unfold count at 2. cbn [l_ w_ c_ inword].
  destruct (c =? 10), (space c), kin; cbn [negb l_ w_ c_ inword];
    rewrite ?(i32_small (kc + 1)), ?(i32_small (kl + 1)), ?(i32_small (kw + 1)) by lia;
    match goal with |- context [foldl count ?k l] => destruct (IH k) as [b ->] end;
    cbn [l_ w_ c_ inword]; first [lia | exists b; f_equal; lia].
Qed.
Lemma wc_loop_ok ls k : Forall (λ l, l ≠ []) ls →
  wc_loop (Some <$> ls) k = Some (foldl count k (concat ls)).
Proof.
  intros H. revert k. induction H as [|l ls Hl _ IH]; intros k; [done|]. rewrite fmap_cons.
  cbn [wc_loop concat]. rewrite foldl_app, <- IH. by destruct l.
Qed.

(** The conversions of the line of [wc]. *)
Lemma vprintf_d str x fmt o ap' : 0 ≤ x < 2 ^ 31 → ∃ ds, numeral 10 x ds ∧
  vprintf_loop str false (37 :: 100 :: fmt) (mk_st o (x :: ap')) =
  vprintf_loop str false fmt (mk_st (o ++ (dch digits <$> ds)) ap').
Proof.
  intros Hx. destruct (printint_ok digits (proj1 tables) 10 ltac:(lia) x true (mk_st o ap')) as (ds & Hn & E); [lia|].
  exists ds. rewrite Z.abs_eq in Hn by lia. split; [done|].
  change (vprintf_loop str false (37 :: 100 :: fmt) (mk_st o (x :: ap'))) with
    ((printint digits (i32 x) 10 true;; vprintf_loop str false fmt) (mk_st o ap')).
  rewrite i32_small by lia. rewrite (bind_Ok _ _ _ _ _ E). simpl andb.
  by rewrite (proj2 (Z.ltb_ge x 0)) by lia.
Qed.
Lemma vprintf_s str a fmt o ap' : a ≠ 0 → Forall (λ c, 0 ≤ c < 256) (str a) →
  vprintf_loop str false (37 :: 115 :: fmt) (mk_st o (a :: ap')) =
  vprintf_loop str false fmt (mk_st (o ++ str a) ap').
Proof.
  intros Ha Hf.
  change (vprintf_loop str false (37 :: 115 :: fmt) (mk_st o (a :: ap'))) with
    ((puts (if a =? 0 then null_str else str a);; vprintf_loop str false fmt) (mk_st o ap')).
  rewrite (proj2 (Z.eqb_neq a 0) Ha), (bind_Ok _ _ _ _ _ (puts_ok _ _)). do 2 f_equal. simpl. f_equal.
  clear Ha. induction Hf as [|c l Hc _ IH]; [done|]. rewrite fmap_cons, IH. f_equal.
  apply Z.mod_small. lia.
Qed.
Lemma vprintf_lit str c fmt o ap' : c ≠ 37 → 0 ≤ c < 256 →
  vprintf_loop str false (c :: fmt) (mk_st o ap') = vprintf_loop str false fmt (mk_st (o ++ [c]) ap').
Proof.
  intros Hc Hb. cbn [vprintf_loop negb]. rewrite (proj2 (Z.eqb_neq c 37) Hc).
  rewrite (bind_Ok (putc c) _ _ _ _ eq_refl). unfold u8. rewrite Z.mod_small by lia. done.
Qed.
Lemma newlines_length l : (newlines l ≤ length l)%nat.
Proof. apply length_filter. Qed.
Lemma more_words_length b l : (more_words b l ≤ length l)%nat.
Proof.
  revert b. induction l as [|c l IH]; intros b; [by destruct b|]. rewrite more_words_cons. cbn [length].
  pose proof (IH false). pose proof (IH true). destruct (space c), b; lia.
Qed.

(** [wc] prints the numbers of newlines, words and characters of its input,
    in whatever pieces the input arrives; a word is a piece that is not empty
    between blanks. *)
Theorem wc_correct str ls name s : Forall (λ l, l ≠ []) ls → Z.of_nat (length (concat ls)) < 2 ^ 31 →
  name ≠ 0 → Forall (λ c, 0 ≤ c < 256) (str name) →
  ∃ dl dw dc, numeral 10 (Z.of_nat (newlines (concat ls))) dl ∧
    numeral 10 (Z.of_nat (length (words (concat ls)))) dw ∧
    numeral 10 (Z.of_nat (length (concat ls))) dc ∧
    wc str (Some <$> ls) name s = Ok (true, mk_st (out s ++ (dch digits <$> dl) ++ [32] ++
      (dch digits <$> dw) ++ [32] ++ (dch digits <$> dc) ++ [32] ++ str name ++ [10]) []).
Proof.
  intros Hls Hlen Hn Hb. set (l := concat ls) in *.
  destruct (count_ok l (mk_counts 0 0 0 false)) as [b E]; cbn [l_ w_ c_ inword] in *; [lia..|].
  change (more_words false l) with (length (words l)) in E.
  pose proof (newlines_length l) as Hnl. pose proof (more_words_length false l) as Hmw.
  change (more_words false l) with (length (words l)) in Hmw.
  unfold wc. rewrite (wc_loop_ok ls _ Hls). fold l. rewrite E, !Z.add_0_l. cbn [l_ w_ c_].
  rewrite (bind_Ok (modify _) _ _ _ _ eq_refl). unfold vprintf, wc_line.
  destruct (vprintf_d str (Z.of_nat (newlines l)) [32; 37; 100; 32; 37; 100; 32; 37; 115; 10] (out s)
    [Z.of_nat (length (words l)); Z.of_nat (length l); name]) as (dl & Hl & E1); [lia|].
  destruct (vprintf_d str (Z.of_nat (length (words l))) [32; 37; 100; 32; 37; 115; 10]
    ((out s ++ (dch digits <$> dl)) ++ [32]) [Z.of_nat (length l); name]) as (dw & Hw & E2); [lia|].
  destruct (vprintf_d str (Z.of_nat (length l)) [32; 37; 115; 10]
    ((((out s ++ (dch digits <$> dl)) ++ [32]) ++ (dch digits <$> dw)) ++ [32]) [name]) as (dc & Hc & E3); [lia|].
  exists dl, dw, dc. split_and!; [done..|].
  erewrite bind_Ok; [reflexivity|].
  rewrite E1, vprintf_lit, E2, vprintf_lit, E3, vprintf_lit, vprintf_s, vprintf_lit by (done || lia).
  simpl vprintf_loop. unfold skip, mret, prog_ret. by rewrite <- !(assoc_L (++)).
Qed.
Lemma wc_correct_witness : ∃ dl dw dc, numeral 10 1 dl ∧ numeral 10 2 dw ∧ numeral 10 6 dc ∧
  wc (λ _, [102]) (Some <$> [[97; 32; 98]; [98; 32; 10]]) 8 (mk_st [] []) = Ok (true, mk_st (
    (dch digits <$> dl) ++ [32] ++ (dch digits <$> dw) ++ [32] ++ (dch digits <$> dc) ++ [32; 102; 10]) []).
Proof.
  apply (wc_correct (λ _, [102]) [[97; 32; 98]; [98; 32; 10]] 8 (mk_st [] [])).
  - by repeat constructor.
  - simpl. lia.
  - done.
  - repeat constructor; lia.
Defined.
End Tools.
