(* ===== verification/Umalloc.v ===== *)
(** * The allocator of user programs (user/umalloc.c)

    Addresses are counted in units of a header, 16 bytes; a header is its two
    fields, functions of the address.  The break is page aligned when a program
    starts and moves by whole units.  The heap lies above the static [base],
    whose address is only compared with those of other blocks.
    [grow brk n] is whether the kernel lets the break move up by [n] units; no
    other code of the program moves it.

    The free blocks form one circular list in the order of their addresses, no
    two of them adjacent; [malloc] and [free] keep it so, and no byte is in two
    blocks or lost ([UmallocProofs]). *)

From S2P Require Import Prelude.

Module Umalloc.

Record heap := mk_heap { ptr : Z → Z; size : Z → Z; freep : Z; brk : Z }.
Definition set_ptr (a v : Z) : prog heap unit :=
  modify (λ h, mk_heap (<[a := v]> (ptr h)) (size h) (freep h) (brk h)).
Definition set_size (a v : Z) : prog heap unit :=
  modify (λ h, mk_heap (ptr h) (<[a := v]> (size h)) (freep h) (brk h)).
Definition set_freep (v : Z) : prog heap unit :=
  modify (λ h, mk_heap (ptr h) (size h) v (brk h)).

Section code.
Context (base : Z) (grow : Z → Z → bool).

(** [for(p = freep; !(bp > p && bp < p->s.ptr); p = p->s.ptr) ...] *)
Fixpoint find (fuel : nat) (bp p : Z) : prog heap Z :=
  match fuel with
  | O => spin
  | S fuel' =>
      h ← get;
      let q := ptr h p in
      if (p <? bp) && (bp <? q) then mret p
      else if (q <=? p) && ((p <? bp) || (bp <? q)) then mret p
      else find fuel' bp q
  end.
(** The rest of [free]. *)
Definition insert (bp p : Z) : prog heap unit :=
  h ← get;
  (if bp + size h bp =? ptr h p then
     set_size bp (u32 (size h bp + size h (ptr h p)));;
     set_ptr bp (ptr h (ptr h p))
   else set_ptr bp (ptr h p));;
  h ← get;
  (if p + size h p =? bp then
     set_size p (u32 (size h p + size h bp));;
     set_ptr p (ptr h bp)
   else set_ptr p bp);;
  set_freep p.
Definition free (fuel : nat) (ap : Z) : prog heap unit :=
  let bp := ap - 1 in
  h ← get;
  p ← find fuel bp (freep h);
  insert bp p.

(** [sbrk] by [n] units; -1 when there is no memory.  [morecore] passes
    [nu * sizeof(Header)], which becomes an int. *)
Definition sbrk (n : Z) : prog heap Z := λ h,
  if grow (brk h) n then Ok (brk h, mk_heap (ptr h) (size h) (freep h) (brk h + n)) else Ok (-1, h).
Definition morecore (fuel : nat) (nu : Z) : prog heap Z :=
  let nu := if nu <? 4096 then 4096 else nu in
  p ← sbrk (i32 (nu * 16) `div` 16);
  if p =? -1 then mret 0
  else
    set_size p nu;;
    free fuel (p + 1);;
    h ← get;
    mret (freep h).

(** The block [p] is large enough: all of it, or its tail. *)
Definition carve (nunits prevp p : Z) : prog heap Z :=
  h ← get;
  p' ← (if size h p =? nunits then set_ptr prevp (ptr h p);; mret p
        else
          set_size p (u32 (size h p - nunits));;
          h ← get;
          let p' := p + size h p in
          set_size p' nunits;;
          mret p');
  set_freep prevp;;
  mret (p' + 1).
Fixpoint malloc_loop (fuel : nat) (nunits prevp p : Z) : prog heap Z :=
  match fuel with
  | O => spin
  | S fuel' =>
      h ← get;
      if nunits <=? size h p then carve nunits prevp p
      else
        p' ← (if p =? freep h then morecore fuel nunits else mret p);
        if (p =? freep h) && (p' =? 0) then mret 0
        else
          h ← get;
          malloc_loop fuel' nunits p' (ptr h p')
  end.
Definition malloc (fuel : nat) (nbytes : Z) : prog heap Z :=
  let nunits := u32 ((nbytes + 16 - 1) `div` 16 + 1) in
  h ← get;
  prevp ← (if freep h =? 0
           then set_ptr base base;; set_freep base;; set_size base 0;; mret base
           else mret (freep h));
  h ← get;
  malloc_loop fuel nunits prevp (ptr h prevp).
End code.

End Umalloc.

Module UmallocProofs.
Import Umalloc.

Section proofs.
Context (base : Z).

(** ** The free list *)

(** The list from [a] to [b]: the blocks with their sizes. *)
Fixpoint lseg (h : heap) (a : Z) (L : list (Z * Z)) (b : Z) : Prop :=
  match L with
  | [] => a = b
  | (x, s) :: L' => a = x ∧ size h x = s ∧ lseg h (ptr h x) L' b
  end.
(** Ascending, with something between any two. *)
Fixpoint ordered (lo : Z) (L : list (Z * Z)) (hi : Z) : Prop :=
  match L with
  | [] => lo ≤ hi
  | (a, s) :: L' => lo < a ∧ 0 < s ∧ ordered (a + s) L' hi
  end.
Definition wf (h : heap) (L : list (Z * Z)) : Prop :=
  lseg h base ((base, 0) :: L) base ∧ ordered base L (brk h) ∧
  freep h ∈ base :: L.*1 ∧ 0 < base ∧ base < brk h ∧ brk h - base < 2 ^ 32.
(** A unit in a free block. *)
Definition in_units (L : list (Z * Z)) (u : Z) : Prop := ∃ a s, (a, s) ∈ L ∧ a ≤ u < a + s.

Lemma lseg_app h L1 : ∀ a L2 b, lseg h a (L1 ++ L2) b ↔ ∃ m, lseg h a L1 m ∧ lseg h m L2 b.
Proof.
  induction L1 as [|[x s] L1 IH]; intros a L2 b; simpl; [naive_solver|].
  rewrite IH. naive_solver.
Qed.
Lemma lseg_frame h h' L : ∀ a b, (∀ x, x ∈ L.*1 → ptr h' x = ptr h x ∧ size h' x = size h x) →
  lseg h a L b → lseg h' a L b.
Proof.
  induction L as [|[x s] L IH]; intros a b Hx; simpl; [done|]. intros (-> & Hs & Hl).
  destruct (Hx x) as [Hp Hs']; [by left|]. rewrite Hp, Hs'. split_and!; [done..|].
  apply IH; [|done]. intros y Hy. apply Hx. by right.
Qed.
Lemma ordered_hi lo L hi hi' : ordered lo L hi → hi ≤ hi' → ordered lo L hi'.
Proof. revert lo. induction L as [|[a s] L IH]; intros lo; simpl; [lia|]. naive_solver. Qed.
Lemma ordered_lo lo lo' L hi : ordered lo L hi → lo' ≤ lo → ordered lo' L hi.
Proof. destruct L as [|[a s] L]; simpl; [lia|]. intros (? & ? & ?) ?. split_and!; [lia|done|done]. Qed.
Lemma ordered_le lo L hi : ordered lo L hi → lo ≤ hi.
Proof.
  revert lo. induction L as [|[c u] L IH]; intros lo; simpl; [done|]. intros (? & ? & H). apply IH in H. lia.
Qed.
Lemma ordered_in lo L hi a s : ordered lo L hi → (a, s) ∈ L → lo < a ∧ 0 < s ∧ a + s ≤ hi.
Proof.
  revert lo. induction L as [|[b t] L IH]; intros lo Ho Hin; [by apply not_elem_of_nil in Hin|].
  destruct Ho as (Hb & Ht & Ho).
  pose proof (ordered_le _ _ _ Ho) as Hhi.
  apply elem_of_cons in Hin as [[= -> ->]|Hin]; [lia|]. apply (IH _ Ho) in Hin. lia.
Qed.
Lemma ordered_app lo L1 L2 hi : ordered lo (L1 ++ L2) hi ↔
  ∃ m, ordered lo L1 m ∧ ordered m L2 hi ∧ (L1 = [] → m = lo).
Proof.
  revert lo. induction L1 as [|[a s] L1 IH]; intros lo; simpl.
  - split; [intros H; exists lo; split_and!; [lia|done|done]|].
    intros (m & Hle & Ho & Hm). by rewrite <- (Hm eq_refl).
  - rewrite IH. split.
    + intros (Ha & Hs & m & H1 & H2 & H3). exists m. by split_and!.
    + intros (m & (Ha & Hs & H1) & H2 & _). split_and!; [done..|].
      destruct L1 as [|x L1]; [|by exists m]. simpl in H1. exists (a + s). split_and!; [simpl; lia| |done].
      by eapply ordered_lo.
Qed.

(** The place of an address that is in no block. *)
Lemma split_at lo L hi bp : ordered lo L hi → ¬ in_units L bp →
  ∃ L1 L2, L = L1 ++ L2 ∧ (∀ a s, (a, s) ∈ L1 → a + s ≤ bp) ∧ (∀ a s, (a, s) ∈ L2 → bp < a).
Proof.
  revert lo. induction L as [|[a s] L IH]; intros lo Ho Hn.
  { exists [], []. split; [done|]. split; intros a s H; by apply not_elem_of_nil in H. }
  destruct Ho as (Ha & Hs & Ho).
  destruct (Z.lt_ge_cases bp a) as [Hlt|Hge].
  - exists [], ((a, s) :: L). split; [done|]. split; [intros x t H; by apply not_elem_of_nil in H|].
    intros x t [[= -> ->]|Hin]%elem_of_cons; [done|]. apply (ordered_in _ _ _ _ _ Ho) in Hin. lia.
  - destruct (IH _ Ho) as (L1 & L2 & -> & H1 & H2).
    { intros (x & t & Hin & Hu). apply Hn. exists x, t. split; [by right|done]. }
    exists ((a, s) :: L1), L2. split; [done|]. split; [|done].
    intros x t [[= -> ->]|Hin]%elem_of_cons; [|by apply H1].
    destruct (Z.le_gt_cases (a + s) bp); [done|]. destruct Hn. exists a, s. split; [by left|lia].
Qed.

(** ** The search of free *)

Definition stop (bp p q : Z) : bool := ((p <? bp) && (bp <? q)) || ((q <=? p) && ((p <? bp) || (bp <? q))).
Lemma find_step fuel bp p h : find (S fuel) bp p h =
  if stop bp p (ptr h p) then Ok (p, h) else find fuel bp (ptr h p) h.
Proof.
  cbn [find]. prog_run. unfold stop. destruct ((p <? bp) && (bp <? ptr h p)); [done|]. simpl.
  by destruct ((ptr h p <=? p) && ((p <? bp) || (bp <? ptr h p))).
Qed.
Lemma find_skip bp h S : ∀ fuel a b, lseg h a S b → (∀ x, x ∈ S.*1 → stop bp x (ptr h x) = false) →
  find (length S + fuel) bp a h = find fuel bp b h.
Proof.
  induction S as [|[x s] S IH]; intros fuel a b; simpl length; [by intros ->|].
  intros (-> & _ & Hl) Hst. change (Datatypes.S (length S) + fuel)%nat with (Datatypes.S (length S + fuel)).
  rewrite find_step, (Hst x) by (by left). apply IH; [done|]. intros y Hy. apply Hst. by right.
Qed.
(** The successor of a block. *)
Lemma lseg_next h a X1 x t X2 : lseg h a (X1 ++ (x, t) :: X2) base →
  ptr h x = match X2 with (y, _) :: _ => y | [] => base end ∧ size h x = t.
Proof.
  intros (m & _ & -> & Hs & Hl)%lseg_app. destruct X2 as [|[y u] X2]; [done|]. by destruct Hl as (-> & _).
Qed.

Lemma after_node lo L hi X1 x t X2 : ordered base L hi → lo = (base, 0) → lo :: L = X1 ++ (x, t) :: X2 →
  ∀ y u, (y, u) ∈ X2 → x + t < y ∧ 0 < u ∧ y + u ≤ hi.
Proof.
  intros Ho -> E y u Hin. destruct X1 as [|[b0 z0] X1].
  - injection E as <- <- <-. apply (ordered_in _ _ _ _ _ Ho) in Hin. lia.
  - injection E as <- <- ->. apply ordered_app in Ho as (m & _ & (_ & _ & Ho) & _).
    by apply (ordered_in _ _ _ _ _ Ho) in Hin.
Qed.
Lemma before_node lo L hi X1 x t X2 : ordered base L hi → lo = (base, 0) → lo :: L = X1 ++ (x, t) :: X2 →
  ∀ y u, (y, u) ∈ X1 → y + u < x.
Proof.
  intros Ho Hlo E y u (Y1 & Y2 & ->)%list_elem_of_split. rewrite <- (assoc_L (++)) in E. simpl in E.
  apply (after_node lo L hi Y1 y u (Y2 ++ (x, t) :: X2) Ho Hlo E x t).
  apply elem_of_app. right. by left.
Qed.

Section search.
Context (h : heap) (L P L2 : list (Z * Z)) (p sp bp : Z).
Context (Hseg : lseg h base ((base, 0) :: L) base) (Hord : ordered base L (brk h)).
Context (HN : (base, 0) :: L = P ++ (p, sp) :: L2) (Hp : p < bp) (HL2 : ∀ a s, (a, s) ∈ L2 → bp < a).

Lemma base_le x : x ∈ ((base, 0) :: L).*1 → base ≤ x.
Proof.
  intros ([y u] & -> & [[= -> ->]|Hin]%elem_of_cons)%list_elem_of_fmap; [done|].
  apply (ordered_in _ _ _ _ _ Hord) in Hin. simpl. lia.
Qed.
Lemma base_bp : base < bp.
Proof.
  assert (base ≤ p); [|lia]. apply base_le. rewrite HN, fmap_app. apply elem_of_app. right. by left.
Qed.
Lemma skip_before x : x ∈ P.*1 → stop bp x (ptr h x) = false.
Proof.
  intros ([y u] & -> & (X1 & X2 & E)%list_elem_of_split)%list_elem_of_fmap. simpl.
  assert ((base, 0) :: L = X1 ++ (y, u) :: (X2 ++ (p, sp) :: L2)) as HN'.
  { by rewrite HN, E, <- (assoc_L (++)). }
  pose proof Hseg as Hs. rewrite HN' in Hs. apply lseg_next in Hs as [Hq _].
  pose proof (after_node _ _ _ X1 y u _ Hord eq_refl HN') as Haft.
  assert (y < ptr h y ≤ p) as Hb.
  { assert (0 ≤ u) as Hu.
    { assert ((y, u) ∈ (base, 0) :: L) as Hin by (rewrite HN'; apply elem_of_app; right; by left).
      apply elem_of_cons in Hin as [[= -> ->]|Hin]; [done|]. apply (ordered_in _ _ _ _ _ Hord) in Hin. lia. }
    rewrite Hq. destruct X2 as [|[z v] X2]; simpl in *.
    - destruct (Haft p sp) as (? & _); [by left|]. lia.
    - destruct (Haft z v) as (? & ? & _); [by left|].
      assert (z + v < p); [|lia]. apply (before_node _ _ _ P p sp L2 Hord eq_refl HN z v).
      rewrite E. apply elem_of_app. right. right. by left. }
  unfold stop. rewrite (proj2 (Z.ltb_ge bp (ptr h y))), (proj2 (Z.leb_gt (ptr h y) y)) by lia.
  by rewrite andb_false_r.
Qed.
Lemma skip_after x : x ∈ L2.*1 → stop bp x (ptr h x) = false.
Proof.
  intros ([y u] & -> & Hin)%list_elem_of_fmap. simpl. pose proof (HL2 y u Hin) as Hy.
  apply list_elem_of_split in Hin as (X1 & X2 & E).
  assert ((base, 0) :: L = (P ++ (p, sp) :: X1) ++ (y, u) :: X2) as HN'.
  { by rewrite HN, E, <- (assoc_L (++)). }
  pose proof Hseg as Hs. rewrite HN' in Hs. apply lseg_next in Hs as [Hq _].
  unfold stop. rewrite (proj2 (Z.ltb_ge y bp)) by lia. simpl. rewrite Hq. destruct X2 as [|[z v] X2].
  - rewrite (proj2 (Z.ltb_ge bp base)), andb_false_r; [done|]. pose proof base_bp. lia.
  - destruct (after_node _ _ _ _ y u _ Hord eq_refl HN' z v) as (Hz & Hv & _); [by left|].
    assert (0 < u) as Hu.
    { assert ((y, u) ∈ (base, 0) :: L) as Hin by (rewrite HN'; apply elem_of_app; right; by left).
      apply elem_of_cons in Hin as [[= -> ->]|Hin]; [pose proof base_bp; lia|]. apply (ordered_in _ _ _ _ _ Hord) in Hin. lia. }
    rewrite (proj2 (Z.leb_gt z y)) by lia. done.
Qed.
Lemma stop_here : stop bp p (ptr h p) = true.
Proof.
  pose proof Hseg as Hs. rewrite HN in Hs. apply lseg_next in Hs as [Hq _]. unfold stop.
  rewrite Hq, (proj2 (Z.ltb_lt p bp)) by lia. simpl. destruct L2 as [|[z v] X2] eqn:E.
  - assert (base ≤ p). { apply base_le. rewrite HN, fmap_app. apply elem_of_app. right. by left. }
    rewrite (proj2 (Z.leb_le base p)) by done. by rewrite orb_true_r.
  - rewrite (proj2 (Z.ltb_lt bp z)); [done|]. apply (HL2 z v). by left.
Qed.

Lemma find_ok fuel : freep h ∈ base :: L.*1 → (length L + 2 ≤ fuel)%nat →
  find fuel bp (freep h) h = Ok (p, h).
Proof.
  intros Hf Hfuel. assert (freep h ∈ ((base, 0) :: L).*1) as Hin by done.
  assert (length P + S (length L2) = S (length L))%nat as Hlen.
  { apply (f_equal length) in HN. rewrite length_app in HN. simpl in HN. lia. }
  assert (∀ k, find (S k) bp p h = Ok (p, h)) as Hhere by (intros k; by rewrite find_step, stop_here).
  pose proof Hseg as Hs. rewrite HN in Hin, Hs. apply lseg_app in Hs as (m & HsP & Hm & _ & Hs2). subst m.
  rewrite fmap_app in Hin. apply elem_of_app in Hin as [Hin|[Hin|Hin]%elem_of_cons].
  - apply list_elem_of_fmap in Hin as ([y u] & Ey & Hin). simpl in Ey.
    apply list_elem_of_split in Hin as (X1 & X2 & E). rewrite E in HsP.
    apply lseg_app in HsP as (m & _ & HsX). pose proof HsX as [-> _]. rewrite Ey.
    assert (∃ k, fuel = length ((y, u) :: X2) + S k)%nat as [k ->].
    { exists (fuel - length ((y, u) :: X2) - 1)%nat. rewrite E in Hlen. rewrite length_app in Hlen. simpl in *. lia. }
    rewrite (find_skip bp h _ _ _ _ HsX); [apply Hhere|].
    intros x Hx. apply skip_before. rewrite E, fmap_app. apply elem_of_app. by right.
  - simpl in Hin. rewrite Hin. destruct fuel; [lia|]. apply Hhere.
  - apply list_elem_of_fmap in Hin as ([y u] & Ey & Hin). simpl in Ey.
    apply list_elem_of_split in Hin as (X1 & X2 & E). rewrite E in Hs2.
    apply lseg_app in Hs2 as (m & _ & HsX). pose proof HsX as [-> _]. rewrite Ey.
    assert (∃ k, fuel = length ((y, u) :: X2) + (length P + S k))%nat as [k ->].
    { exists (fuel - length ((y, u) :: X2) - length P - 1)%nat. rewrite E in Hlen. rewrite length_app in Hlen. simpl in *. lia. }
    rewrite (find_skip bp h _ _ _ _ HsX).
    + rewrite (find_skip bp h _ _ _ _ HsP); [apply Hhere|apply skip_before].
    + intros x Hx. apply skip_after. rewrite E, fmap_app. apply elem_of_app. by right.
Qed.
End search.

(** ** Giving a block back *)

Lemma in_units_app L1 L2 u : in_units (L1 ++ L2) u ↔ in_units L1 u ∨ in_units L2 u.
Proof. unfold in_units. setoid_rewrite elem_of_app. naive_solver. Qed.
Lemma in_units_cons a s L u : in_units ((a, s) :: L) u ↔ a ≤ u < a + s ∨ in_units L u.
Proof. clear base. unfold in_units. setoid_rewrite elem_of_cons. naive_solver. Qed.
Lemma in_units_nil u : ¬ in_units [] u.
Proof. intros (a & s & H & _). by apply not_elem_of_nil in H. Qed.

Section give.
Context (h : heap) (P L2 : list (Z * Z)) (p sp bp s : Z).
Context (Hs : 0 < s) (Hsize : size h bp = s) (Hbase : base < bp) (Hp : p < bp) (Hsp : p + sp ≤ bp).
Context (Hcase : p = base ∧ sp = 0 ∨ base < p ∧ 0 < sp).
Context (Hord2 : ordered (p + sp) L2 (brk h)) (HL2 : ∀ a t, (a, t) ∈ L2 → bp < a).
Context (Hdis : ∀ u, bp ≤ u < bp + s → ¬ in_units L2 u) (Hhi : bp + s ≤ brk h).
Context (Hlow : 0 < base) (Hsmall : brk h - base < 2 ^ 32).
Context (HsegP : lseg h base P p) (Hptr : lseg h (ptr h p) L2 base) (Hszp : size h p = sp).
Context (HP : ∀ a t, (a, t) ∈ P → base ≤ a < p).

(** Merging with the next block. *)
Lemma merge_next : ∃ s1 q1 R h1,
  (if bp + size h bp =? ptr h p then
     set_size bp (u32 (size h bp + size h (ptr h p)));; set_ptr bp (ptr h (ptr h p))
   else set_ptr bp (ptr h p)) h = Ok (tt, h1) ∧
  ptr h1 bp = q1 ∧ size h1 bp = s1 ∧ (∀ x, x ≠ bp → ptr h1 x = ptr h x ∧ size h1 x = size h x) ∧
  freep h1 = freep h ∧ brk h1 = brk h ∧
  lseg h1 q1 R base ∧ ordered (bp + s1) R (brk h) ∧ 0 < s1 ∧ bp + s1 ≤ brk h ∧ (∀ a t, (a, t) ∈ R → (a, t) ∈ L2) ∧ (length R ≤ length L2)%nat ∧
  (∀ u, bp ≤ u < bp + s1 ∨ in_units R u ↔ bp ≤ u < bp + s ∨ in_units L2 u).
Proof.
  rewrite Hsize.
  assert (∀ h1, (∀ x, x ≠ bp → ptr h1 x = ptr h x ∧ size h1 x = size h x) → ∀ a T, (∀ b t, (b, t) ∈ T → (b, t) ∈ L2) →
    lseg h a T base → lseg h1 a T base) as Hframe.
  { intros h1 Hx a T HT. apply lseg_frame. intros x ([y t] & -> & Hin)%list_elem_of_fmap. apply Hx.
    simpl. pose proof (HL2 y t (HT y t Hin)). lia. }
  destruct (Z.eqb_spec (bp + s) (ptr h p)) as [E|Hne].
  - destruct L2 as [|[y t] L2'] eqn:EL; [simpl in Hptr; lia|]. destruct Hptr as (Ey & Est & Hl).
    destruct Hord2 as (_ & Ht & Ho).
    pose proof (ordered_le _ _ _ Ho) as Hyt.
    rewrite Ey in E |- *. rewrite Est.
    eexists (s + t), (ptr h y), L2', _. split; [reflexivity|]. simpl. rewrite !fn_lookup_insert.
    assert (∀ x, x ≠ bp → <[bp:=ptr h y]> (ptr h) x = ptr h x ∧ <[bp:=u32 (s + t)]> (size h) x = size h x) as Hx.
    { intros x Hx. by rewrite !fn_lookup_insert_ne. }
    split_and!; try done.
    + apply u32_small. lia.
    + apply Hframe; [done| |done]. intros b u Hb. by right.
    + replace (bp + (s + t)) with (y + t) by lia. done.
    + lia.
    + lia.
    + intros b u Hb. by right.
    + simpl. lia.
    + intros u. rewrite in_units_cons. intuition lia.
  - eexists s, (ptr h p), L2, _. split; [reflexivity|]. simpl. rewrite fn_lookup_insert.
    assert (∀ x, x ≠ bp → <[bp:=ptr h p]> (ptr h) x = ptr h x ∧ size h x = size h x) as Hx.
    { intros x Hx. by rewrite !fn_lookup_insert_ne. }
    split_and!; try done.
    + by apply Hframe.
    + destruct L2 as [|[y t] L2'] eqn:EL; [done|]. destruct Hord2 as (Hy & Ht & Ho).
      split_and!; [|done|done]. destruct Hptr as (Ey & _). rewrite Ey in Hne.
      pose proof (HL2 y t ltac:(by left)) as Hby.
      destruct (Z.lt_ge_cases (bp + s) y); [done|]. destruct (Hdis y); [lia|].
      apply in_units_cons. left. lia.
Qed.

(** Merging with the block before. *)
Lemma insert_ok : ∃ h' s' T, insert bp p h = Ok (tt, h') ∧ freep h' = p ∧ brk h' = brk h ∧
  lseg h' base (P ++ (p, s') :: T) base ∧ (p = base → s' = 0) ∧ (base < p → 0 < s') ∧
  ordered (p + s') T (brk h) ∧ (length T ≤ S (length L2))%nat ∧
  (∀ u, in_units ((p, s') :: T) u ↔ p ≤ u < p + sp ∨ bp ≤ u < bp + s ∨ in_units L2 u) ∧
  (∀ x, x ≠ bp → x ≠ p → size h' x = size h x).
Proof.
  destruct merge_next as (s1 & q1 & R & h1 & E1 & Hq1 & Hs1 & Hx1 & Hf1 & Hb1 & Hl1 & Ho1 & Hpos & Hhi1 & Hsub & Hlen & Hu).
  unfold insert. rewrite (bind_Ok get _ h h h eq_refl), (bind_Ok _ _ _ _ _ E1). rewrite (bind_Ok get _ h1 h1 h1 eq_refl).
  destruct (Hx1 p ltac:(lia)) as [Hp1 Hsp1]. rewrite Hsp1, Hszp, Hs1, Hq1.
  assert (∀ h2, (∀ x, x ≠ p → ptr h2 x = ptr h1 x ∧ size h2 x = size h1 x) →
    lseg h2 base P p ∧ lseg h2 q1 R base) as Hframe.
  { intros h2 Hx2. split.
    - apply (lseg_frame h); [|done]. intros x ([y t] & -> & Hin)%list_elem_of_fmap. simpl. pose proof (HP y t Hin).
      destruct (Hx1 y ltac:(lia)), (Hx2 y ltac:(lia)). split; congruence.
    - apply (lseg_frame h1); [|done]. intros x ([y t] & -> & Hin)%list_elem_of_fmap. simpl.
      pose proof (HL2 y t (Hsub y t Hin)). apply Hx2. lia. }
  destruct (Z.eqb_spec (p + sp) bp) as [E|Hne].
  - eexists _, (sp + s1), R. split; [reflexivity|]. simpl. rewrite Hb1.
    assert (∀ x, x ≠ p → <[p:=q1]> (ptr h1) x = ptr h1 x ∧ <[p:=u32 (sp + s1)]> (size h1) x = size h1 x) as Hx2.
    { intros x Hx. by rewrite !fn_lookup_insert_ne. }
    destruct (Hframe (mk_heap (<[p:=q1]> (ptr h1)) (<[p:=u32 (sp + s1)]> (size h1)) p (brk h)) Hx2) as [HfP HfR].
    split_and!; try done; try lia.
    + apply lseg_app. exists p. split; [done|]. simpl. rewrite !fn_lookup_insert.
      split_and!; [done|apply u32_small; lia|done].
    + replace (p + (sp + s1)) with (bp + s1) by lia. done.
    + intros u. rewrite in_units_cons. rewrite <- (Hu u). intuition lia.
    + intros x Hx Hxp. rewrite fn_lookup_insert_ne by done. by apply Hx1.
  - eexists _, sp, ((bp, s1) :: R). split; [reflexivity|]. simpl. rewrite Hb1.
    assert (∀ x, x ≠ p → <[p:=bp]> (ptr h1) x = ptr h1 x ∧ size h1 x = size h1 x) as Hx2.
    { intros x Hx. by rewrite !fn_lookup_insert_ne. }
    destruct (Hframe (mk_heap (<[p:=bp]> (ptr h1)) (size h1) p (brk h)) Hx2) as [HfP HfR].
    split_and!; try done; try lia.
    + apply lseg_app. exists p. split; [done|]. simpl. rewrite fn_lookup_insert, fn_lookup_insert_ne by lia.
      rewrite Hsp1, Hs1, Hq1. done.
    + intros u. rewrite !in_units_cons. rewrite <- (Hu u). intuition lia.
    + intros x Hx Hxp. by apply Hx1.
Qed.
End give.

(** [free] keeps the list well formed and adds exactly the units of the block. *)
Definition block_free (h : heap) (L : list (Z * Z)) (bp s : Z) : Prop :=
  base < bp ∧ 0 < s ∧ size h bp = s ∧ bp + s ≤ brk h ∧ ∀ u, bp ≤ u < bp + s → ¬ in_units L u.

Lemma node_case h L P p sp L2 : wf h L → (base, 0) :: L = P ++ (p, sp) :: L2 →
  p = base ∧ sp = 0 ∧ P = [] ∨ base < p ∧ 0 < sp ∧ ∃ P', P = (base, 0) :: P'.
Proof.
  intros (_ & Ho & _) E. destruct P as [|x P]; injection E as E1 E2; [by left; simplify_eq|].
  right. destruct (ordered_in _ _ _ p sp Ho) as (? & ? & _).
  { rewrite E2. apply elem_of_app. right. by left. }
  split_and!; [done..|]. exists P. by rewrite E1.
Qed.

Lemma node_parts h L P p sp L2 : wf h L → (base, 0) :: L = P ++ (p, sp) :: L2 →
  lseg h base P p ∧ lseg h (ptr h p) L2 base ∧ size h p = sp ∧
  (∀ a t, (a, t) ∈ P → base ≤ a < p) ∧ ordered (p + sp) L2 (brk h).
Proof.
  intros Hwf HN. pose proof (node_case h L P p sp L2 Hwf HN) as Hcase.
  destruct Hwf as (Hseg & Hord & _). pose proof (before_node (base, 0) L _ _ _ _ _ Hord eq_refl HN) as Hbef.
  rewrite HN in Hseg. apply lseg_app in Hseg as (m & HsegP & Hm & Hszp & Hptr). subst m.
  split_and!; [done..| |].
  - intros a t Hin. pose proof (Hbef a t Hin).
    destruct Hcase as [(_ & _ & ->)|(Hbp & _ & P' & ->)]; [by apply not_elem_of_nil in Hin|].
    apply elem_of_cons in Hin as [[= -> ->]|Hin]; [lia|].
    injection HN as HN. destruct (ordered_in base L (brk h) a t Hord) as (? & ? & _); [|lia].
    rewrite HN. apply elem_of_app. by left.
  - destruct Hcase as [(-> & -> & ->)|(_ & _ & P' & ->)]; injection HN as HN.
    + rewrite Z.add_0_r. by rewrite <- HN.
    + rewrite HN in Hord. by apply ordered_app in Hord as (m & _ & (_ & _ & ?) & _).
Qed.
Lemma in_units_base L u : in_units ((base, 0) :: L) u ↔ in_units L u.
Proof. rewrite in_units_cons. intuition lia. Qed.

(** The list with another tail from the node [p] on. *)
Lemma wf_rebuild h L P p sp L2 h' s' T : wf h L → (base, 0) :: L = P ++ (p, sp) :: L2 →
  lseg h' base (P ++ (p, s') :: T) base → (p = base → s' = 0) → (base < p → 0 < s') →
  ordered (p + s') T (brk h') → freep h' = p → base < brk h' → brk h' - base < 2 ^ 32 →
  ∃ L', (base, 0) :: L' = P ++ (p, s') :: T ∧ wf h' L'.
Proof.
  intros Hwf HN Hl Hs0 Hs1 Ho Hf Hbr Hsm. pose proof (node_case h L P p sp L2 Hwf HN) as Hcase.
  assert (∃ L', (base, 0) :: L' = P ++ (p, s') :: T ∧ ordered base L' (brk h')) as (L' & E & Ho').
  { destruct Hwf as (_ & Hord & _). destruct Hcase as [(-> & _ & ->)|(Hbp & _ & P' & ->)]; injection HN as HN.
    - exists T. rewrite Hs0, Z.add_0_r in Ho by done. by rewrite Hs0.
    - exists (P' ++ (p, s') :: T). split; [done|]. rewrite HN in Hord.
      apply ordered_app in Hord as (m & H1 & (H2 & _) & H3). apply ordered_app. exists m. split_and!; [done| |done].
      split_and!; [done|by apply Hs1|done]. }
  exists L'. split; [done|]. split_and!; [by rewrite E|done| |by destruct Hwf as (_ & _ & _ & ? & _)|done|done].
  change (freep h' ∈ ((base, 0) :: L').*1). rewrite E, Hf, fmap_app. apply elem_of_app. right. by left.
Qed.

Lemma last_node L1 : ∃ P p sp, (base, 0) :: L1 = P ++ [(p, sp)].
Proof.
  destruct (exists_last (l := (base, 0) :: L1)) as (P & [p sp] & E); [done|]. by exists P, p, sp.
Qed.

Lemma free_ok h L bp s fuel : wf h L → block_free h L bp s → (length L + 2 ≤ fuel)%nat →
  ∃ h' L', free fuel (bp + 1) h = Ok (tt, h') ∧ wf h' L' ∧ brk h' = brk h ∧ (length L' ≤ S (length L))%nat ∧
    (∀ u, in_units L' u ↔ in_units L u ∨ bp ≤ u < bp + s) ∧
    (∀ x, x ≠ base → ¬ in_units L x → ¬ bp ≤ x < bp + s → size h' x = size h x).
Proof.
  intros Hwf (Hb & Hs & Hsz & Hhi & Hd) Hfuel.
  pose proof Hwf as (Hseg & Hord & Hfree & Hlow & Hlb & Hsmall).
  destruct (split_at base L (brk h) bp Hord) as (L1 & L2 & EL & HL1 & HL2); [apply Hd; lia|].
  destruct (last_node L1) as (P & p & sp & EP).
  assert ((base, 0) :: L = P ++ (p, sp) :: L2) as HN.
  { rewrite EL, app_comm_cons, EP, <- (assoc_L (++)). done. }
  pose proof (node_case h L P p sp L2 Hwf HN) as Hcase.
  assert (p + sp ≤ bp) as Hsp.
  { assert ((p, sp) ∈ (base, 0) :: L1) as Hin by (rewrite EP; apply elem_of_app; right; by left).
    apply elem_of_cons in Hin as [[= -> ->]|Hin]; [lia|by apply HL1]. }
  assert (p < bp) as Hp by (destruct Hcase as [(-> & -> & _)|(? & ? & _)]; lia).
  unfold free. rewrite Z.add_simpl_r, (bind_Ok get _ h h h eq_refl).
  rewrite (bind_Ok _ _ _ _ _ (find_ok h L P L2 p sp bp Hseg Hord HN Hp HL2 fuel Hfree Hfuel)).
  destruct (node_parts h L P p sp L2 Hwf HN) as (HsegP & Hptr & Hszp & HP & Hord2).
  destruct (insert_ok h P L2 p sp bp s) as (h' & s' & T & E & Hf & Hbrk & Hl & Hs0 & Hs1 & HoT & HlT & Hu & Hx); try done.
  { destruct Hcase as [(? & ? & _)|(? & ? & _)]; [by left|by right]. }
  { intros u Hr Hin. apply (Hd u Hr). rewrite EL. apply in_units_app. by right. }
  rewrite <- Hbrk in HoT.
  destruct (wf_rebuild h L P p sp L2 h' s' T) as (L' & EL' & Hwf'); try done; try (by rewrite Hbrk).
  exists h', L'. split_and!; [done..| | |].
  - apply (f_equal length) in HN, EL'. rewrite length_app in HN, EL'. simpl in *. lia.
  - intros u. rewrite <- (in_units_base L'), <- (in_units_base L), EL', HN, !in_units_app, Hu, in_units_cons. intuition lia.
  - intros x Hxb Hxu Hxr. apply Hx; [lia|]. intros ->.
    destruct Hcase as [(? & _)|(? & ? & _)]; [done|]. apply Hxu. apply in_units_base. rewrite HN, in_units_app, in_units_cons.
    right. left. lia.
Qed.

(** ** More memory *)

(** No block begins where another ends. *)
Lemma ordered_gap lo L hi x t : ordered lo L hi → (x, t) ∈ L → ¬ in_units L (x + t).
Proof.
  intros Ho Hin (y & v & Hin' & Hy). apply list_elem_of_split in Hin as (X1 & X2 & ->).
  apply ordered_app in Ho as (m & H1 & (Hm & Ht & H2) & _).
  apply elem_of_app in Hin' as [Hin'|[[= -> ->]|Hin']%elem_of_cons]; [|lia|].
  - apply (ordered_in _ _ _ _ _ H1) in Hin'. lia.
  - apply (ordered_in _ _ _ _ _ H2) in Hin'. lia.
Qed.

Context (grow : Z → Z → bool) (Hgrow : ∀ b n, grow b n = true → b + n < base + 2 ^ 32).

Definition at_least (nu : Z) : Z := if nu <? 4096 then 4096 else nu.
Lemma morecore_ok fuel nu h L : wf h L → 0 < nu → nu * 16 < 2 ^ 31 → (length L + 2 ≤ fuel)%nat →
  (grow (brk h) (at_least nu) = false ∧ morecore grow fuel nu h = Ok (0, h)) ∨
  ∃ h' L', morecore grow fuel nu h = Ok (freep h', h') ∧ wf h' L' ∧ brk h' = brk h + at_least nu ∧
    (length L' ≤ S (length L))%nat ∧
    (∀ u, in_units L' u ↔ in_units L u ∨ brk h ≤ u < brk h + at_least nu) ∧
    (∀ x, x ≠ base → ¬ in_units L x → x < brk h → size h' x = size h x) ∧
    ∃ x t, (x, t) ∈ L' ∧ nu ≤ t.
Proof.
  intros Hwf Hnu Hint Hfuel. unfold morecore. fold (at_least nu). set (n := at_least nu).
  assert (nu ≤ n ∧ 4096 ≤ n ∧ n * 16 < 2 ^ 31) as (Hn & Hn' & Hn31) by (unfold n, at_least; destruct (Z.ltb_spec nu 4096); lia).
  rewrite i32_small by lia. rewrite Z.div_mul by done.
  pose proof Hwf as (Hseg & Hord & Hfree & Hlow & Hlb & Hsmall).
  destruct (grow (brk h) n) eqn:Eg; [right|left; split; [done|]]; cycle 1.
  { unfold sbrk. unfold mbind, prog_bind. rewrite Eg. done. }
  pose proof (Hgrow _ _ Eg) as Hg.
  set (h1 := mk_heap (ptr h) (<[brk h := n]> (size h)) (freep h) (brk h + n)).
  assert (wf h1 L) as Hwf1.
  { split_and!; [simpl; split_and!; [done|..]|simpl..]; try done; try lia.
    - rewrite fn_lookup_insert_ne by lia. by destruct Hseg as (_ & ? & _).
    - destruct Hseg as (_ & _ & Hl). revert Hl. apply lseg_frame. intros x ([y t] & -> & Hin)%list_elem_of_fmap.
      simpl. apply (ordered_in _ _ _ _ _ Hord) in Hin. rewrite fn_lookup_insert_ne by lia. done.
    - eapply ordered_hi; [done|lia]. }
  assert (∀ u, in_units L u → u < brk h) as Hbelow.
  { intros u (a & t & Hin & Hu). apply (ordered_in _ _ _ _ _ Hord) in Hin. lia. }
  destruct (free_ok h1 L (brk h) n fuel) as (h' & L' & E & Hwf' & Hbrk & Hlen & Hu & Hx); [done| |done|].
  { split_and!; simpl; [lia|lia|by rewrite fn_lookup_insert|lia|]. intros u Hr Hin%Hbelow. lia. }
  exists h', L'. split_and!; [|done|done|done|done|..].
  - rewrite (bind_Ok _ _ h (brk h) (mk_heap (ptr h) (size h) (freep h) (brk h + n))) by (unfold sbrk; by rewrite Eg).
    rewrite (proj2 (Z.eqb_neq (brk h) (-1))) by lia.
    rewrite (bind_Ok _ _ _ tt h1) by done. rewrite (bind_Ok _ _ _ _ _ E). done.
  - intros x Hxb Hxu Hlt. rewrite Hx; [|done|done|lia]. simpl. rewrite fn_lookup_insert_ne by lia. done.
  - destruct (proj2 (Hu (brk h))) as (x & t & Hin & Hr); [right; lia|].
    exists x, t. split; [done|]. destruct Hwf' as (_ & Ho' & _).
    destruct (Z.le_gt_cases nu t) as [|Hlt]; [done|]. destruct (ordered_gap _ _ _ _ _ Ho' Hin).
    apply Hu. right. lia.
Qed.

(** ** Taking a block *)

(** What a successful [malloc] has done, of the list [L] to the list [L']. *)
Definition taken (h : heap) (L : list (Z * Z)) (n : Z) (h' : heap) (L' : list (Z * Z)) (q : Z) : Prop :=
  wf h' L' ∧ brk h' = brk h ∧ size h' q = n ∧ base < q ∧ q + n ≤ brk h ∧ (length L' ≤ length L)%nat ∧
  (∀ u, in_units L u ↔ in_units L' u ∨ q ≤ u < q + n) ∧ (∀ u, in_units L' u → ¬ q ≤ u < q + n) ∧
  (∀ x, x ≠ base → ¬ in_units L x → size h' x = size h x).

Lemma pred_split h L prev x : wf h L → prev ∈ base :: L.*1 → ptr h prev = x → base < x →
  ∃ A sp t B, (base, 0) :: L = A ++ (prev, sp) :: (x, t) :: B ∧ size h x = t.
Proof.
  intros (Hseg & _) Hin Hx Hb. change (prev ∈ ((base, 0) :: L).*1) in Hin.
  apply list_elem_of_fmap in Hin as ([y sp] & -> & (A & B & E)%list_elem_of_split). cbn [fst] in *.
  rewrite E in Hseg. pose proof (lseg_next _ _ _ _ _ _ Hseg) as [Hq _]. rewrite Hx in Hq.
  destruct B as [|[x' t] B]; [lia|]. subst x'. exists A, sp, t, B. split; [done|].
  rewrite (cons_middle (y, sp) A) in Hseg. rewrite (assoc_L (++)) in Hseg. by apply lseg_next in Hseg as [_ ?].
Qed.

Lemma taken_intro h L A p sp x t B n h' T q : wf h L → (base, 0) :: L = A ++ (p, sp) :: (x, t) :: B →
  (∀ y, y ∈ A.*1 → ptr h' y = ptr h y ∧ size h' y = size h y) → size h' p = size h p → lseg h' (ptr h' p) T base →
  freep h' = p → brk h' = brk h → size h' q = n → 0 < n → x ≤ q → q + n ≤ x + t → (length T ≤ S (length B))%nat →
  ordered (p + sp) T (brk h) → (∀ u, in_units T u ↔ in_units B u ∨ x ≤ u < x + t ∧ ¬ q ≤ u < q + n) →
  (∀ y, y ≠ x → y ≠ q → size h' y = size h y) → taken h L n h' (tail (A ++ (p, sp) :: T)) q.
Proof.
  intros Hwf HN HA Hp HT Hf Hb Hq Hn Hxq Hqx Hlen Ho Hu Hsz.
  destruct (node_parts h L A p sp ((x, t) :: B) Hwf HN) as (HsegA & _ & Hszp & _ & (Hpx & Ht & HoB)).
  pose proof (node_case h L A p sp _ Hwf HN) as Hcase. pose proof Hwf as (_ & _ & _ & Hlow & Hlb & Hsm).
  pose proof (ordered_le _ _ _ HoB) as Hxt.
  destruct (wf_rebuild h L A p sp ((x, t) :: B) h' sp T) as (L' & EL' & Hwf'); try done; try (by rewrite Hb).
  { apply lseg_app. exists p. split; [by apply (lseg_frame h)|]. by rewrite <- Hp in Hszp. }
  { destruct Hcase as [(? & ? & _)|(? & ? & _)]; [done|lia]. }
  { destruct Hcase as [(? & ? & _)|(? & ? & _)]; [lia|done]. }
  rewrite <- EL'. simpl tail.
  assert (∀ u, in_units L' u ↔ in_units A u ∨ p ≤ u < p + sp ∨ in_units T u) as HL'.
  { intros u. by rewrite <- in_units_base, EL', in_units_app, in_units_cons. }
  assert (∀ u, in_units L u ↔ in_units A u ∨ p ≤ u < p + sp ∨ x ≤ u < x + t ∨ in_units B u) as HL.
  { intros u. by rewrite <- in_units_base, HN, in_units_app, !in_units_cons. }
  pose proof Hwf as (_ & Hord & _).
  assert (∀ u, in_units A u → u < x) as HuA.
  { intros u (a & v & Hin & Hr). pose proof (before_node (base, 0) L _ _ _ _ _ Hord eq_refl HN a v Hin).
    destruct Hcase as [(? & ? & _)|(? & ? & _)]; lia. }
  assert (∀ u, in_units B u → x + t < u) as HuB.
  { intros u (a & v & Hin & Hr). apply (ordered_in _ _ _ _ _ HoB) in Hin. lia. }
  split_and!; try done.
  - destruct Hcase as [(? & ? & _)|(? & ? & _)]; lia.
  - lia.
  - apply (f_equal length) in HN, EL'. rewrite length_app in HN, EL'. simpl in *. lia.
  - intros u. rewrite HL, HL', Hu. destruct (decide (q ≤ u < q + n)); intuition lia.
  - intros u Hin Hr. apply HL' in Hin as [?%HuA|[?|[?%HuB|[_ ?]]%Hu]]; [lia..|done].
  - intros y Hyb Hyu. apply Hsz; intros ->; apply Hyu, HL; right; right; left; lia.
Qed.

Lemma carve_ok h L prev n : wf h L → prev ∈ base :: L.*1 → base < ptr h prev → 0 < n ≤ size h (ptr h prev) →
  ∃ h' L' q, carve n prev (ptr h prev) h = Ok (q + 1, h') ∧ taken h L n h' L' q.
Proof.
  intros Hwf Hin Hb Hn. destruct (pred_split h L prev _ Hwf Hin eq_refl Hb) as (A & sp & t & B & HN & Ht).
  destruct (node_parts h L A prev sp _ Hwf HN) as (HsegA & (_ & _ & HsegB) & Hszp & HA & (Hpx & Htp & HoB)).
  pose proof (node_case h L A prev sp _ Hwf HN) as Hcase. pose proof Hwf as (_ & _ & _ & Hlow & Hlb & Hsm).
  assert (base ≤ prev ∧ prev < ptr h prev) as [Hbp Hpp] by (destruct Hcase as [(? & ? & _)|(? & ? & _)]; lia).
  pose proof (ordered_le _ _ _ HoB) as Hxt.
  assert (∀ y, y ∈ A.*1 → y < prev) as HAl by (intros y ([z v] & -> & ?%HA)%list_elem_of_fmap; simpl; lia).
  assert (∀ y, y ∈ B.*1 → ptr h prev + t < y) as HBl.
  { intros y ([z v] & -> & Hz)%list_elem_of_fmap. apply (ordered_in _ _ _ _ _ HoB) in Hz. simpl. lia. }
  unfold carve. rewrite (bind_Ok get _ h h h eq_refl). set (x := ptr h prev) in *. rewrite Ht in *.
  destruct (Z.eqb_spec t n) as [->|Hne].
  - eexists _, _, x. split; [reflexivity|]. eapply (taken_intro h L A prev sp x n B n _ B x); try done; simpl; try lia.
    + intros y Hy%HAl. rewrite fn_lookup_insert_ne by lia. done.
    + rewrite fn_lookup_insert. revert HsegB. apply lseg_frame. intros y Hy%HBl. simpl.
      rewrite fn_lookup_insert_ne by lia. done.
    + eapply ordered_lo; [done|lia].
    + intros u. intuition lia.
  - rewrite u32_small by lia. eexists _, _, (x + (t - n)). split.
    { rewrite bind_assoc', (bind_Ok _ _ h tt (mk_heap (ptr h) (<[x := t - n]> (size h)) (freep h) (brk h))) by done.
      rewrite bind_assoc', (bind_Ok get _ _ _ _ eq_refl). cbn [size]. rewrite fn_lookup_insert. reflexivity. }
    eapply (taken_intro h L A prev sp x t B n _ ((x, t - n) :: B)); try done; simpl; try lia.
    + intros y Hy%HAl. rewrite !fn_lookup_insert_ne by lia. done.
    + rewrite !fn_lookup_insert_ne by lia. done.
    + fold x. rewrite fn_lookup_insert_ne, fn_lookup_insert by lia. split_and!; [done..|].
      revert HsegB. apply lseg_frame. intros y Hy%HBl. simpl. rewrite !fn_lookup_insert_ne by lia. done.
    + by rewrite fn_lookup_insert.
    + split_and!; [lia..|]. eapply ordered_lo; [done|lia].
    + intros u. rewrite in_units_cons. intuition lia.
    + intros y Hy Hy'. rewrite !fn_lookup_insert_ne by done. done.
Qed.

(** ** The search of malloc *)

Lemma loop_skip n h S : ∀ k prev a b, lseg h a S b → ptr h prev = a →
  (∀ x t, (x, t) ∈ S → t < n ∧ x ≠ freep h) →
  ∃ prev', malloc_loop grow (length S + k) n prev a h = malloc_loop grow k n prev' b h ∧ ptr h prev' = b ∧
    prev' ∈ prev :: S.*1.
Proof.
  induction S as [|[x t] S IH]; intros k prev a b; cbn [length lseg].
  - intros -> Hp _. exists prev. split_and!; [done..|by left].
  - intros (-> & Ht & Hl) Hp Hsm. destruct (Hsm x t ltac:(by left)) as [Hlt Hne].
    destruct (IH k x (ptr h x) b Hl eq_refl) as (prev' & E & Hp' & Hin).
    { intros y u Hy. apply Hsm. by right. }
    exists prev'. split_and!; [|done|by right].
    change (Datatypes.S (length S) + k)%nat with (Datatypes.S (length S + k)). cbn [malloc_loop].
    rewrite (bind_Ok get _ h h h eq_refl), Ht, (proj2 (Z.leb_gt n t)) by lia.
    rewrite (proj2 (Z.eqb_neq x (freep h))) by done. rewrite (bind_Ok _ _ h x h eq_refl). simpl.
    rewrite (bind_Ok get _ h h h eq_refl). done.
Qed.

(** The circle from [freep] on. *)
Lemma rotation h L : wf h L → ∃ S sf, lseg h (ptr h (freep h)) S (freep h) ∧ length S = length L ∧
  size h (freep h) = sf ∧ (∀ x t, (x, t) ∈ S → x ≠ freep h) ∧
  (∀ x t, (x, t) ∈ (base, 0) :: L ↔ (x, t) = (freep h, sf) ∨ (x, t) ∈ S).
Proof.
  intros Hwf. pose proof Hwf as (_ & Hord & Hf & _). change (freep h ∈ ((base, 0) :: L).*1) in Hf.
  apply list_elem_of_fmap in Hf as ([f sf] & E & (A & B & HN)%list_elem_of_split). cbn [fst] in E. rewrite E in *.
  destruct (node_parts h L A f sf B Hwf HN) as (HA & HB & Hsf & Hlt & Ho).
  exists (B ++ A), sf. split_and!.
  - apply lseg_app. by exists base.
  - apply (f_equal length) in HN. rewrite length_app in HN |- *. simpl in HN. lia.
  - done.
  - intros x t [Hin|Hin]%elem_of_app; [|apply Hlt in Hin; lia].
    apply (ordered_in _ _ _ _ _ Ho) in Hin. pose proof (node_case h L A f sf B Hwf HN). lia.
  - intros x t. rewrite HN, !elem_of_app, elem_of_cons. tauto.
Qed.

Lemma first_fit n (S : list (Z * Z)) : (∀ x t, (x, t) ∈ S → t < n) ∨
  ∃ S1 x t S2, S = S1 ++ (x, t) :: S2 ∧ n ≤ t ∧ ∀ y u, (y, u) ∈ S1 → u < n.
Proof.
  induction S as [|[a s] S IH]; [left; intros x t H; by apply not_elem_of_nil in H|].
  destruct (Z.le_gt_cases n s) as [Hle|Hgt].
  - right. exists [], a, s, S. split_and!; [done..|]. intros y u H. by apply not_elem_of_nil in H.
  - destruct IH as [Hs|(S1 & x & t & S2 & -> & Hle & Hs)].
    + left. intros x t [[= -> ->]|H]%elem_of_cons; [lia|by eapply Hs].
    + right. exists ((a, s) :: S1), x, t, S2. split_and!; [done..|].
      intros y u [[= -> ->]|H]%elem_of_cons; [lia|by eapply Hs].
Qed.

Lemma prefix_sub {A} (C : list A) z S1 x S2 : C ++ [z] = S1 ++ x :: S2 →
  (∀ y, y ∈ S1 → y ∈ C) ∧ (length S1 ≤ length C)%nat.
Proof.
  intros E. induction S2 as [|w S2' _] using rev_ind.
  - apply app_inj_tail in E as [-> _]. done.
  - rewrite app_comm_cons, (assoc_L (++)) in E. apply app_inj_tail in E as [-> _].
    rewrite length_app. split; [|lia]. intros y Hy. apply elem_of_app. by left.
Qed.
(** One round: the first block that is large enough, or [freep] again. *)
Lemma malloc_round h L n k : wf h L → 0 < n →
  (∃ h' L' q, malloc_loop grow (length L + S k) n (freep h) (ptr h (freep h)) h = Ok (q + 1, h') ∧ taken h L n h' L' q) ∨
  ((∀ x t, (x, t) ∈ L → t < n) ∧ size h (freep h) < n ∧
   ∃ prev, malloc_loop grow (length L + S k) n (freep h) (ptr h (freep h)) h = malloc_loop grow (S k) n prev (freep h) h).
Proof.
  intros Hwf Hn. destruct (rotation h L Hwf) as (C & sf & HC & Hlen & Hsf & Hne & Hall).
  destruct (first_fit n (C ++ [(freep h, sf)])) as [Hs|(S1 & x & t & S2 & E & Hle & Hs)].
  - right. split_and!.
    + intros x t Hin. apply (Hs x). apply elem_of_app. destruct (proj1 (Hall x t)) as [->|?]; [by right|right; by left|by left].
    + rewrite Hsf. apply (Hs (freep h)). apply elem_of_app. right. by left.
    + destruct (loop_skip n h C (S k) (freep h) _ _ HC eq_refl) as (prev & E & _).
      { intros x t Hin. split; [|by eapply Hne]. eapply Hs. apply elem_of_app. by left. }
      exists prev. by rewrite <- Hlen.
  - left.
    assert (lseg h (ptr h (freep h)) (C ++ [(freep h, sf)]) (ptr h (freep h))) as HC'.
    { apply lseg_app. exists (freep h). done. }
    rewrite E in HC'. apply lseg_app in HC' as (m & HS1 & -> & Ht & _).
    destruct (prefix_sub C (freep h, sf) S1 (x, t) S2 E) as (Hsub & Hl1).
    destruct (loop_skip n h S1 (S (length L - length S1 + k)) (freep h) _ _ HS1 eq_refl) as (prev & Es & Hp & Hin).
    { intros y u Hy. split; [by eapply Hs|]. eapply Hne. by apply Hsub. }
    replace (length S1 + S (length L - length S1 + k))%nat with (length L + S k)%nat in Es by lia. rewrite Es.
    assert ((x, t) ∈ (base, 0) :: L) as HxL.
    { apply Hall. assert ((x, t) ∈ C ++ [(freep h, sf)]) as [?|?%list_elem_of_singleton]%elem_of_app; [|by right|by left].
      rewrite E. apply elem_of_app. right. by left. }
    assert (base < x) as Hbx.
    { apply elem_of_cons in HxL as [[= -> ->]|HxL]; [lia|]. destruct Hwf as (_ & Ho & _).
      apply (ordered_in _ _ _ _ _ Ho) in HxL. lia. }
    destruct (carve_ok h L prev n Hwf) as (h' & L' & q & Ec & Htk); [|by rewrite Hp|rewrite Hp, Ht; lia|].
    { change (prev ∈ ((base, 0) :: L).*1). apply elem_of_cons in Hin as [->|Hin].
      - apply list_elem_of_fmap. exists (freep h, sf). split; [done|]. apply Hall. by left.
      - apply list_elem_of_fmap in Hin as ([y u] & -> & Hy). apply list_elem_of_fmap. exists (y, u). split; [done|].
        apply Hall. right. by apply Hsub. }
    exists h', L', q. split; [|done]. cbn [malloc_loop].
    rewrite (bind_Ok get _ h h h eq_refl), Ht, (proj2 (Z.leb_le n t)) by lia. by rewrite <- Hp.
Qed.

(** Two rounds are enough. *)
Lemma malloc_loop_ok h L n fuel : wf h L → 0 < n → n * 16 < 2 ^ 31 → (2 * length L + 3 ≤ fuel)%nat →
  (malloc_loop grow fuel n (freep h) (ptr h (freep h)) h = Ok (0, h) ∧
   (∀ x t, (x, t) ∈ L → t < n) ∧ grow (brk h) (at_least n) = false) ∨
  ∃ h' L' q, malloc_loop grow fuel n (freep h) (ptr h (freep h)) h = Ok (q + 1, h') ∧
    wf h' L' ∧ brk h ≤ brk h' ∧ size h' q = n ∧ (length L' ≤ S (length L))%nat ∧
    (∀ u, in_units L u ∨ brk h ≤ u < brk h' ↔ in_units L' u ∨ q ≤ u < q + n) ∧
    (∀ u, in_units L' u → ¬ q ≤ u < q + n) ∧
    (∀ x, x ≠ base → ¬ in_units L x → x < brk h → size h' x = size h x).
Proof.
  intros Hwf Hn Hint Hfuel. set (k := (fuel - length L - 1)%nat).
  replace fuel with (length L + S k)%nat by lia.
  destruct (malloc_round h L n k Hwf Hn) as [(h' & L' & q & E & Htk)|(Hsm & Hsf & prev & E)].
  { right. exists h', L', q. destruct Htk as (Hwf' & Hb & Hs & Hbq & Hqh & Hlen & Hu & Hd & Hsz).
    split_and!; try done; [lia|lia| |]; [|by intros; apply Hsz].
    intros u. rewrite Hb, Hu. intuition lia. }
  rewrite E. cbn [malloc_loop].
  rewrite (bind_Ok get _ h h h eq_refl), (proj2 (Z.leb_gt n _)), Z.eqb_refl by done.
  destruct (morecore_ok (S k) n h L Hwf Hn Hint ltac:(lia)) as [[Hg Em]|(h1 & L1 & Em & Hwf1 & Hb1 & Hl1 & Hu1 & Hs1 & x & t & Hin & Ht)].
  { left. rewrite (bind_Ok _ _ _ _ _ Em). done. }
  right. rewrite (bind_Ok _ _ _ _ _ Em).
  assert (0 < freep h1) as Hpos.
  { destruct Hwf1 as (_ & Ho1 & Hf1 & Hlow & _). apply elem_of_cons in Hf1 as [->|([y u] & -> & Hy)%list_elem_of_fmap]; [done|].
    apply (ordered_in _ _ _ _ _ Ho1) in Hy. simpl. lia. }
  rewrite (proj2 (Z.eqb_neq (freep h1) 0)) by lia. simpl. rewrite (bind_Ok get _ h1 h1 h1 eq_refl).
  replace k with (length L1 + S (k - length L1 - 1))%nat by lia.
  destruct (malloc_round h1 L1 n (k - length L1 - 1) Hwf1 Hn) as [(h' & L' & q & E' & Htk)|(Hsm1 & _)].
  2: { apply Hsm1 in Hin. lia. }
  exists h', L', q. destruct Htk as (Hwf' & Hb & Hs & Hbq & Hqh & Hlen & Hu & Hd & Hsz).
  assert (4096 ≤ at_least n) by (unfold at_least; destruct (Z.ltb_spec n 4096); lia).
  split_and!; try done; [lia|lia| |].
  - intros u. rewrite <- Hu, Hu1, Hb, Hb1. done.
  - intros y Hy Hyu Hlt. rewrite Hsz; [by apply Hs1|done|]. rewrite Hu1. intuition lia.
Qed.

(** ** The heap of a program *)

(** [A]: the blocks the program holds, with their units, header included.
    Between [start], where the heap begins, and the break each unit is in one
    free block or in one held block. *)
Definition owned (A : gmap Z Z) (u : Z) : Prop := ∃ b n, A !! b = Some n ∧ b ≤ u < b + n.
Record heap_inv (start : Z) (h : heap) (L : list (Z * Z)) (A : gmap Z Z) : Prop := {
  hi_list : wf h L ∨ freep h = 0 ∧ L = [] ∧ A = ∅;
  hi_range : 0 < base ∧ base < start ∧ start ≤ brk h ∧ brk h - base < 2 ^ 32;
  hi_block : ∀ b n, A !! b = Some n → 0 < n ∧ size h b = n;
  hi_apart : ∀ b n b' n', A !! b = Some n → A !! b' = Some n' → b ≠ b' → b + n ≤ b' ∨ b' + n' ≤ b;
  hi_separate : ∀ u, in_units L u → ¬ owned A u;
  hi_exact : ∀ u, start ≤ u < brk h ↔ in_units L u ∨ owned A u }.

Lemma wf_freep h L : wf h L → freep h ≠ 0.
Proof.
  intros (_ & Ho & Hf & Hlow & _). apply elem_of_cons in Hf as [->|([y u] & -> & Hy)%list_elem_of_fmap]; [lia|].
  apply (ordered_in _ _ _ _ _ Ho) in Hy. simpl. lia.
Qed.
(** The state [malloc] searches: the empty list is made at the first call. *)
Definition ready (h : heap) : heap :=
  if freep h =? 0 then mk_heap (<[base := base]> (ptr h)) (<[base := 0]> (size h)) base (brk h) else h.
Lemma malloc_ready fuel nbytes h : malloc base grow fuel nbytes h =
  malloc_loop grow fuel (u32 ((nbytes + 16 - 1) `div` 16 + 1)) (freep (ready h)) (ptr (ready h) (freep (ready h))) (ready h).
Proof.
  unfold malloc, ready. rewrite (bind_Ok get _ h h h eq_refl). by destruct (freep h =? 0).
Qed.
Lemma ready_inv start h L A : heap_inv start h L A →
  wf (ready h) L ∧ heap_inv start (ready h) L A ∧ brk (ready h) = brk h.
Proof.
  intros H. pose proof H as [[Hwf|(Hf & -> & ->)] (Hlow & Hb & Hst & Hsm) _ _ _ He]; unfold ready.
  - rewrite (proj2 (Z.eqb_neq (freep h) 0)) by (by eapply wf_freep). done.
  - rewrite Hf. simpl. set (h1 := mk_heap _ _ _ _).
    assert (wf h1 []) as Hwf.
    { split_and!; [|simpl; lia|by left|done|simpl; lia|done]. simpl. rewrite !fn_lookup_insert. done. }
    split_and!; [done| |done]. split; [by left|done|done|done| |done].
    intros u Hu. by apply in_units_nil in Hu.
Qed.

Lemma owned_insert A q n u : A !! q = None → owned (<[q := n]> A) u ↔ owned A u ∨ q ≤ u < q + n.
Proof.
  intros Hq. unfold owned. split.
  - intros (b & m & [[-> ->]|[Hne Hb]]%lookup_insert_Some & Hu); [by right|left; by exists b, m].
  - intros [(b & m & Hb & Hu)|Hu]; [|exists q, n; by rewrite lookup_insert_eq].
    exists b, m. rewrite lookup_insert_ne by congruence. done.
Qed.
Lemma owned_delete start h L A q n u : heap_inv start h L A → A !! q = Some n →
  owned (delete q A) u ↔ owned A u ∧ ¬ q ≤ u < q + n.
Proof.
  intros H Hq. unfold owned. split.
  - intros (b & m & [Hne Hb]%lookup_delete_Some & Hu). split; [by exists b, m|].
    destruct (hi_apart _ _ _ _ H q n b m Hq Hb Hne); lia.
  - intros [(b & m & Hb & Hu) Hn]. exists b, m. split; [|done]. apply lookup_delete_Some. split; [|done].
    intros ->. congruence.
Qed.

Lemma apart_blocks q n b m : 0 < n → 0 < m → (∀ u, q ≤ u < q + n → b ≤ u < b + m → False) → q + n ≤ b ∨ b + m ≤ q.
Proof. intros Hn Hm H. destruct (Z.le_gt_cases (q + n) b), (Z.le_gt_cases (b + m) q); [lia..|]. destruct (H (Z.max q b)); lia. Qed.
Lemma held_in start h L A b m : heap_inv start h L A → A !! b = Some m →
  start ≤ b ∧ b + m ≤ brk h ∧ b ≠ base ∧ ∀ u, b ≤ u < b + m → ¬ in_units L u.
Proof.
  intros H Hb. pose proof (hi_block _ _ _ _ H b m Hb) as [Hm _]. pose proof (hi_range _ _ _ _ H) as (Hlow & Hbs & _).
  assert (∀ u, b ≤ u < b + m → start ≤ u < brk h) as Hr.
  { intros u Hu. apply (hi_exact _ _ _ _ H). right. by exists b, m. }
  pose proof (Hr b ltac:(lia)). pose proof (Hr (b + m - 1) ltac:(lia)). split_and!; [lia..|].
  intros u Hu Hin. apply (hi_separate _ _ _ _ H u Hin). by exists b, m.
Qed.

(** A block taken from the free ones or from new memory. *)
Lemma heap_take start h L A h' L' q n : heap_inv start h L A → wf h' L' → brk h ≤ brk h' → 0 < n → size h' q = n →
  (∀ u, in_units L u ∨ brk h ≤ u < brk h' ↔ in_units L' u ∨ q ≤ u < q + n) → (∀ u, in_units L' u → ¬ q ≤ u < q + n) →
  (∀ x, x ≠ base → ¬ in_units L x → x < brk h → size h' x = size h x) →
  A !! q = None ∧ heap_inv start h' L' (<[q := n]> A).
Proof.
  intros Hinv Hwf' Hb Hn Hs Hu Hd Hsz. pose proof Hinv as [_ (Hlow & Hbs & Hst & Hsm) Hblk Hap Hsep Hex].
  assert (∀ u, in_units L u ∨ brk h ≤ u < brk h' → ¬ owned A u) as Hnew.
  { intros u [Hin|Hin] Ho; [by apply (Hsep u)|]. assert (start ≤ u < brk h); [|lia]. apply Hex. by right. }
  assert (∀ b m u, A !! b = Some m → q ≤ u < q + n → b ≤ u < b + m → False) as Hfree.
  { intros b m u Hb' Hr Ho. apply (Hnew u); [apply Hu; by right|by exists b, m]. }
  assert (A !! q = None) as Hq.
  { destruct (A !! q) as [m|] eqn:Eq; [|done]. pose proof (Hblk q m Eq). exfalso. apply (Hfree q m q Eq); lia. }
  split; [done|]. split.
  - by left.
  - destruct Hwf' as (_ & _ & _ & _ & _ & ?). lia.
  - intros b m [[-> ->]|[Hne Hb']]%lookup_insert_Some; [done|].
    destruct (held_in _ _ _ _ _ _ Hinv Hb') as (? & ? & ? & Hno). pose proof (Hblk b m Hb') as [? ?].
    rewrite Hsz; [done|done|apply Hno; lia|lia].
  - intros b m b' m' [[-> ->]|[_ H1]]%lookup_insert_Some [[-> ->]|[_ H2]]%lookup_insert_Some Hne; [done|..].
    + apply apart_blocks; [done|by eapply Hblk|]. intros u. by apply (Hfree b' m').
    + apply or_comm. apply apart_blocks; [done|by eapply Hblk|]. intros u. by apply (Hfree b m).
    + by eapply Hap.
  - intros u Hin. rewrite owned_insert by done. intros [Ho|Hr]; [|by apply (Hd u)].
    apply (Hnew u); [apply Hu; by left|done].
  - intros u. rewrite owned_insert by done.
    assert (start ≤ u < brk h' ↔ start ≤ u < brk h ∨ brk h ≤ u < brk h') as -> by lia.
    rewrite Hex. pose proof (Hu u). tauto.
Qed.
(** A block given back. *)
Lemma heap_give start h L A h' L' q n : heap_inv start h L A → A !! q = Some n → wf h' L' → brk h' = brk h →
  (∀ u, in_units L' u ↔ in_units L u ∨ q ≤ u < q + n) →
  (∀ x, x ≠ base → ¬ in_units L x → ¬ q ≤ x < q + n → size h' x = size h x) →
  heap_inv start h' L' (delete q A).
Proof.
  intros Hinv Hq Hwf' Hb Hu Hsz. pose proof Hinv as [_ Hr Hblk Hap Hsep Hex].
  pose proof (λ u, owned_delete start h L A q n u Hinv Hq) as Hod. split.
  - by left.
  - by rewrite Hb.
  - intros b m [Hne Hb']%lookup_delete_Some. destruct (held_in _ _ _ _ _ _ Hinv Hb') as (? & ? & ? & Hno).
    pose proof (Hblk b m Hb') as [? ?]. rewrite Hsz; [done|done|apply Hno; lia|].
    destruct (Hap q n b m Hq Hb' Hne); lia.
  - intros b m b' m' [_ H1]%lookup_delete_Some [_ H2]%lookup_delete_Some. by apply Hap.
  - intros u. rewrite Hod, Hu. intros [Hin|Hin] [Ho Hn]; [by apply (Hsep u)|done].
  - intros u. rewrite Hb, Hex, Hu, Hod. destruct (decide (q ≤ u < q + n)); [|tauto].
    assert (owned A u) by (by exists q, n). tauto.
Qed.

(** The program writes what it likes into its blocks behind their headers. *)
Lemma inv_write start h L A h' : heap_inv start h L A → freep h' = freep h → brk h' = brk h →
  (∀ u, ¬ (∃ b n, A !! b = Some n ∧ b < u < b + n) → ptr h' u = ptr h u ∧ size h' u = size h u) →
  heap_inv start h' L A.
Proof.
  intros Hinv Hf Hb Hx. pose proof Hinv as [Hl Hr Hblk Hap Hsep Hex].
  assert (∀ u, in_units L u ∨ u = base → ptr h' u = ptr h u ∧ size h' u = size h u) as Hfr.
  { intros u Hu. apply Hx. intros (b & n & Hb' & Hin). destruct (held_in _ _ _ _ _ _ Hinv Hb') as (? & _ & _ & Hno).
    destruct Hu as [Hu| ->]; [by apply (Hno u); [lia|]|lia]. }
  split; [|by rewrite Hb| |done|done|by rewrite Hb].
  - destruct Hl as [(Hseg & Ho & Hfp & ? & ? & ?)|Hl]; [left|right; by rewrite Hf].
    split_and!; rewrite ?Hb, ?Hf; [|done..]. revert Hseg. apply lseg_frame.
    intros x ([y t] & -> & [[= -> ->]|Hin]%elem_of_cons)%list_elem_of_fmap; apply Hfr; [by right|left].
    apply (ordered_in _ _ _ _ _ Ho) in Hin as Hp. exists y, t. simpl. split; [done|lia].
  - intros b n Hb'. destruct (Hx b) as [_ ->]; [|by apply Hblk].
    intros (b' & n' & H1 & H2). destruct (Hap b n b' n' Hb' H1); [lia|..]; pose proof (Hblk b n Hb'); lia.
Qed.

(** C37: [malloc] returns, and it returns either 0, when no free block is large
    enough and the kernel refuses more memory, with nothing changed; or a
    block of at least the bytes asked for that overlaps no block held and no
    free block, every other unit of the heap staying in the block it was in. *)
Theorem malloc_correct start h L A nbytes fuel : heap_inv start h L A → 0 ≤ nbytes → nbytes + 64 ≤ 2 ^ 31 →
  (2 * length L + 3 ≤ fuel)%nat →
  let n := (nbytes + 15) `div` 16 + 1 in
  (∃ h', malloc base grow fuel nbytes h = Ok (0, h') ∧ heap_inv start h' L A ∧ brk h' = brk h ∧
     (∀ x t, (x, t) ∈ L → t < n) ∧ grow (brk h) (at_least n) = false) ∨
  (∃ h' L' q, malloc base grow fuel nbytes h = Ok (q + 1, h') ∧ A !! q = None ∧ nbytes ≤ 16 * (n - 1) ∧
     heap_inv start h' L' (<[q := n]> A) ∧ brk h ≤ brk h' ∧ (length L' ≤ S (length L))%nat).
Proof.
  intros Hinv0 Hnb Hint Hfuel n. destruct (ready_inv _ _ _ _ Hinv0) as (Hwf & Hinv & Hbr).
  assert (16 * (n - 1) ≤ nbytes + 15 < 16 * n) as Hn by (unfold n; pose proof (Z.div_mod (nbytes + 15) 16); pose proof (Z.mod_pos_bound (nbytes + 15) 16); lia).
  rewrite malloc_ready. replace (nbytes + 16 - 1) with (nbytes + 15) by lia. fold n.
  rewrite u32_small by lia. rewrite <- Hbr. clear Hinv0 Hbr. generalize dependent (ready h). clear h. intros h Hwf Hinv.
  destruct (malloc_loop_ok h L n fuel Hwf ltac:(lia) ltac:(lia) Hfuel) as [(E & Hsm & Hg)|(h' & L' & q & E & Hwf' & Hb & Hs & Hlen & Hu & Hd & Hsz)].
  { left. by exists h. }
  right. exists h', L', q.
  destruct (heap_take start h L A h' L' q n) as [Hq Hinv']; try done; [lia|]. split_and!; try done. lia.
Qed.

(** C36: [free] of a block the program holds returns; the units of the block are
    free, merged with the free blocks it touches, and nothing else changes
    hands. *)
Theorem free_correct start h L A q n fuel : heap_inv start h L A → A !! q = Some n → (length L + 2 ≤ fuel)%nat →
  ∃ h' L', free fuel (q + 1) h = Ok (tt, h') ∧ heap_inv start h' L' (delete q A) ∧ brk h' = brk h ∧
    (length L' ≤ S (length L))%nat ∧ ∀ u, in_units L' u ↔ in_units L u ∨ q ≤ u < q + n.
Proof.
  intros Hinv Hq Hfuel. destruct (held_in _ _ _ _ _ _ Hinv Hq) as (Hst & Hhi & Hne & Hno).
  destruct (hi_list _ _ _ _ Hinv) as [Hwf|(_ & _ & ->)]; [|done].
  destruct (hi_block _ _ _ _ Hinv q n Hq) as [Hn Hs]. pose proof (hi_range _ _ _ _ Hinv) as (? & ? & _).
  destruct (free_ok h L q n fuel Hwf) as (h' & L' & E & Hwf' & Hb & Hlen & Hu & Hsz); [split_and!; try done; lia|done|].
  exists h', L'. split_and!; try done. by eapply heap_give.
Qed.

End proofs.

(** ** The largest request *)

(** [morecore] passes the bytes of the new block to [sbrk] as an int: the first
    call of [malloc], with a request of 2^32 - 1 bytes, moves the break by one
    unit and returns a block of 2^28 + 1 units that begins there. *)
Lemma malloc_overflows base grow (h : heap) fuel : freep h = 0 → 0 < base → base < brk h → grow (brk h) 1 = true →
  ∃ h', malloc base grow (S (S fuel)) (2 ^ 32 - 1) h = Ok (brk h + 1, h') ∧
    brk h' = brk h + 1 ∧ size h' (brk h) = 2 ^ 28 + 1.
Proof.
  intros Hf Hb Hbr Hg. unfold malloc. rewrite (bind_Ok get _ h h h eq_refl), Hf. change (0 =? 0) with true. cbv iota.
  set (h0 := mk_heap (<[base := base]> (ptr h)) (<[base := 0]> (size h)) base (brk h)).
  rewrite (bind_Ok _ _ h base h0) by done. rewrite (bind_Ok get _ h0 h0 h0 eq_refl).
  replace (ptr h0 base) with base by (cbn; by rewrite fn_lookup_insert).
  change (u32 ((2 ^ 32 - 1 + 16 - 1) `div` 16 + 1)) with (2 ^ 28 + 1). cbn [malloc_loop].
  rewrite (bind_Ok get _ h0 h0 h0 eq_refl). replace (size h0 base) with 0 by (cbn; by rewrite fn_lookup_insert).
  change (2 ^ 28 + 1 <=? 0) with false. rewrite Z.eqb_refl. cbv iota.
  set (h1 := mk_heap (ptr h0) (<[brk h := 2 ^ 28 + 1]> (size h0)) base (brk h + 1)).
  set (h2 := mk_heap (<[base := brk h]> (<[brk h := base]> (ptr h0))) (size h1) base (brk h + 1)).
  assert (ptr h0 base = base) as Hp0 by (cbn; apply fn_lookup_insert).
  assert (size h1 (brk h) = 2 ^ 28 + 1) as Hs1 by (cbn; apply fn_lookup_insert).
  assert (size h1 base = 0) as Hs0 by (cbn; rewrite fn_lookup_insert_ne by lia; apply fn_lookup_insert).
  assert (morecore grow (S (S fuel)) (2 ^ 28 + 1) h0 = Ok (base, h2)) as Em.
  { unfold morecore. change (2 ^ 28 + 1 <? 4096) with false. cbv iota. change (i32 ((2 ^ 28 + 1) * 16) `div` 16) with 1.
    rewrite (bind_Ok _ _ h0 (brk h) (mk_heap (ptr h0) (size h0) base (brk h + 1))) by (unfold sbrk; cbn [brk h0]; by rewrite Hg).
    rewrite (proj2 (Z.eqb_neq (brk h) (-1))) by lia. rewrite (bind_Ok _ _ _ tt h1) by done.
    rewrite (bind_Ok _ _ h1 tt h2); [done|]. unfold free. rewrite Z.add_simpl_r, (bind_Ok get _ h1 h1 h1 eq_refl).
    rewrite (bind_Ok _ _ h1 base h1).
    - unfold insert. rewrite (bind_Ok get _ h1 h1 h1 eq_refl), Hs1. cbn [ptr h1]. rewrite Hp0.
      rewrite (proj2 (Z.eqb_neq (brk h + (2 ^ 28 + 1)) base)) by lia.
      rewrite (bind_Ok _ _ h1 tt (mk_heap (<[brk h := base]> (ptr h0)) (size h1) base (brk h + 1))) by done.
      rewrite (bind_Ok get _ _ _ _ eq_refl). cbn [size]. rewrite Hs0, (proj2 (Z.eqb_neq (base + 0) (brk h))) by lia. done.
    - rewrite find_step. cbn [ptr h1 freep]. rewrite Hp0. unfold stop.
      rewrite (proj2 (Z.ltb_lt base (brk h))), (proj2 (Z.leb_le base base)), orb_true_r by lia. done. }
  rewrite (bind_Ok _ _ _ _ _ Em), (proj2 (Z.eqb_neq base 0)) by lia. cbn [andb].
  rewrite (bind_Ok get _ h2 h2 h2 eq_refl). replace (ptr h2 base) with (brk h) by (cbn; by rewrite fn_lookup_insert).
  rewrite (bind_Ok get _ h2 h2 h2 eq_refl). cbn [size h2]. rewrite Hs1, Z.leb_refl. unfold carve.
  rewrite (bind_Ok get _ h2 h2 h2 eq_refl). cbn [size h2]. rewrite Hs1, Z.eqb_refl. eexists. split; [reflexivity|]. done.
Qed.

(** ** Witnesses *)

Definition demo_grow (b n : Z) : bool := b + n <? 100000.
Lemma demo_grow_ok b n : demo_grow b n = true → b + n < 10 + 2 ^ 32.
Proof. unfold demo_grow. intros ?%Z.ltb_lt. lia. Qed.
(** A heap from which nothing has been taken. *)
Definition demo : heap := mk_heap (λ _, 0) (λ _, 0) 0 20.
Lemma demo_inv : heap_inv 10 20 demo [] ∅.
Proof.
  split; [by right|done|intros b n H; by rewrite lookup_empty in H|intros b n b' n' H; by rewrite lookup_empty in H| |].
  - intros u H. by apply in_units_nil in H.
  - intros u. split; [cbn; lia|]. intros [H|(b & n & H & _)]; [by apply in_units_nil in H|by rewrite lookup_empty in H].
Qed.
Lemma malloc_correct_witness : ∃ h' L' q, malloc 10 demo_grow 3 100 demo = Ok (q + 1, h') ∧
  heap_inv 10 20 h' L' {[q := 8]}.
Proof.
  destruct (malloc_correct 10 demo_grow demo_grow_ok 20 demo [] ∅ 100 3 demo_inv ltac:(done) ltac:(done) ltac:(done))
    as [(h' & _ & _ & _ & _ & H)|(h' & L' & q & E & _ & _ & H & _)]; [discriminate H|]. exists h', L', q. exact (conj E H).
Defined.

(** One block is held and one is free. *)
Definition demo2 : heap := mk_heap (λ x, if x =? 10 then 20 else 10) (λ x, if x =? 20 then 5 else if x =? 25 then 3 else 0) 10 28.
Lemma demo2_units u : in_units [(20, 5)] u ↔ 20 ≤ u < 25.
Proof.
  rewrite in_units_cons. split; [intros [?|H]; [lia|by apply in_units_nil in H]|intros ?; left; lia].
Qed.
Lemma demo2_owned u : owned {[25 := 3]} u ↔ 25 ≤ u < 28.
Proof.
  split; [intros (b & n & [<- <-]%lookup_singleton_Some & H); lia|]. intros H. exists 25, 3. by rewrite lookup_singleton_eq.
Qed.
Lemma demo2_inv : heap_inv 10 20 demo2 [(20, 5)] {[25 := 3]}.
Proof.
  split.
  - left. split_and!; try done. by left.
  - done.
  - intros b n [<- <-]%lookup_singleton_Some. done.
  - intros b n b' n' [<- <-]%lookup_singleton_Some [<- <-]%lookup_singleton_Some. done.
  - intros u. rewrite demo2_units, demo2_owned. lia.
  - intros u. rewrite demo2_units, demo2_owned. cbn. lia.
Qed.
Lemma free_correct_witness : ∃ h' L', free 3 26 demo2 = Ok (tt, h') ∧ heap_inv 10 20 h' L' ∅.
Proof.
  destruct (free_correct 10 20 demo2 [(20, 5)] {[25 := 3]} 25 3 3 demo2_inv eq_refl ltac:(done)) as (h' & L' & E & H & _).
  exists h', L'. split; [exact E|]. by rewrite delete_singleton_eq in H.
Defined.
End UmallocProofs.
