(* ===== verification/Virtio.v ===== *)
(** * The disk driver (kernel/virtio_disk.c, kernel/virtio.h)

    The queue of descriptors that the driver shares with the device, and the
    parts of [virtio_disk_rw] between its sleeps.  Arrays of [NUM] entries are
    functions of the index, with the bounds written out; an address in a
    descriptor names the object it points to.  A call of [wakeup] is noted in
    [woken].  The lock [vdisk_lock] is held in each of these parts. *)

From S2P Require Import Prelude.

Module Virtio.

Definition NUM : Z := 8.
Definition BSIZE : Z := 1024.
Definition VRING_DESC_F_NEXT : Z := 1.
Definition VRING_DESC_F_WRITE : Z := 2.
Definition VIRTIO_BLK_T_IN : Z := 0.
Definition VIRTIO_BLK_T_OUT : Z := 1.

(** [0], [&disk.ops[i]], [b->data] and [&disk.info[i].status]. *)
Inductive vaddr : Type := Null | Ops (i : Z) | Data (b : nat) | Status (i : Z).
Record virtq_desc := mk_desc { addr : vaddr; len : Z; flags : Z; next : Z }.
Record virtio_blk_req := mk_req { type : Z; reserved : Z; sector : Z }.
(** The parts of [struct buf] that the driver uses. *)
Record buf := mk_buf { disk_ : Z; blockno : Z; data : list Z }.
Inductive chan : Type := ChFree | ChBuf (b : nat).

Record disk := mk_disk {
  desc : Z → virtq_desc;
  avail_ring : Z → Z; avail_idx : Z;
  used_ring : Z → Z; used_dev_idx : Z;
  free : Z → bool; used_idx : Z;
  info_b : Z → option nat; info_status : Z → Z;
  ops : Z → virtio_blk_req;
  bufs : nat → buf;
  woken : list chan
}.
Definition set_desc f d := mk_disk f (avail_ring d) (avail_idx d) (used_ring d) (used_dev_idx d)
  (free d) (used_idx d) (info_b d) (info_status d) (ops d) (bufs d) (woken d).
Definition set_avail r i d := mk_disk (desc d) r i (used_ring d) (used_dev_idx d)
  (free d) (used_idx d) (info_b d) (info_status d) (ops d) (bufs d) (woken d).
Definition set_used r i d := mk_disk (desc d) (avail_ring d) (avail_idx d) r i
  (free d) (used_idx d) (info_b d) (info_status d) (ops d) (bufs d) (woken d).
Definition set_free f d := mk_disk (desc d) (avail_ring d) (avail_idx d) (used_ring d) (used_dev_idx d)
  f (used_idx d) (info_b d) (info_status d) (ops d) (bufs d) (woken d).
Definition set_used_idx i d := mk_disk (desc d) (avail_ring d) (avail_idx d) (used_ring d) (used_dev_idx d)
  (free d) i (info_b d) (info_status d) (ops d) (bufs d) (woken d).
Definition set_info b s d := mk_disk (desc d) (avail_ring d) (avail_idx d) (used_ring d) (used_dev_idx d)
  (free d) (used_idx d) b s (ops d) (bufs d) (woken d).
Definition set_ops o d := mk_disk (desc d) (avail_ring d) (avail_idx d) (used_ring d) (used_dev_idx d)
  (free d) (used_idx d) (info_b d) (info_status d) o (bufs d) (woken d).
Definition set_bufs b d := mk_disk (desc d) (avail_ring d) (avail_idx d) (used_ring d) (used_dev_idx d)
  (free d) (used_idx d) (info_b d) (info_status d) (ops d) b (woken d).
Definition set_woken w d := mk_disk (desc d) (avail_ring d) (avail_idx d) (used_ring d) (used_dev_idx d)
  (free d) (used_idx d) (info_b d) (info_status d) (ops d) (bufs d) w.
Definition set_bdisk (v : Z) (b : buf) : buf := mk_buf v (blockno b) (data b).
Definition set_data (v : list Z) (b : buf) : buf := mk_buf (disk_ b) (blockno b) v.

(** An access to entry [i] of an array of [NUM]. *)
Definition chk (i : Z) : prog disk unit := if (0 <=? i) && (i <? NUM) then skip else fault.
Definition wakeup (c : chan) : prog disk unit := modify (λ d, set_woken (woken d ++ [c]) d).

(** ** Descriptors *)

(** The loop of [alloc_desc] over the [k] descriptors from [i]. *)
Fixpoint alloc_loop (k : nat) (i : Z) : prog disk Z :=
  match k with
  | O => mret (-1)
  | S k' =>
      d ← get;
      if free d i then modify (set_free (<[i := false]> (free d)));; mret i
      else alloc_loop k' (i + 1)
  end.
Definition alloc_desc : prog disk Z := alloc_loop (Z.to_nat NUM) 0.

Definition free_desc (i : Z) : prog disk unit :=
  if NUM <=? i then panic "free_desc 1"
  else
    chk i;;
    d ← get;
    if free d i then panic "free_desc 2"
    else
      modify (set_desc (<[i := mk_desc Null 0 0 0]> (desc d)));;
      modify (set_free (<[i := true]> (free d)));;
      wakeup ChFree.

Fixpoint free_chain (fuel : nat) (i : Z) : prog disk unit :=
  match fuel with
  | O => spin
  | S fuel' =>
      chk i;;
      d ← get;
      let flag := flags (desc d i) in
      let nxt := next (desc d i) in
      free_desc i;;
      if negb (Z.land flag VRING_DESC_F_NEXT =? 0) then free_chain fuel' nxt else skip
  end.

(** [free_desc(idx[j])] for the [j] below [i]. *)
Fixpoint free_all (idx : list Z) : prog disk unit :=
  match idx with [] => skip | i :: idx' => free_desc i;; free_all idx' end.
(** [None] is the result -1. *)
Fixpoint alloc3_loop (k : nat) (idx : list Z) : prog disk (option (list Z)) :=
  match k with
  | O => mret (Some idx)
  | S k' =>
      i ← alloc_desc;
      if i <? 0 then free_all idx;; mret None
      else alloc3_loop k' (idx ++ [i])
  end.
Definition alloc3_desc : prog disk (option (list Z)) := alloc3_loop 3 [].

(** ** Requests *)

(** [virtio_disk_rw] after the descriptors are allocated, up to the sleep. *)
Definition rw_format (b : nat) (write : bool) (i0 i1 i2 : Z) : prog disk unit :=
  chk i0;; chk i1;; chk i2;;
  d ← get;
  let sector := u32 (blockno (bufs d b) * (BSIZE `div` 512)) in
  modify (set_ops (<[i0 := mk_req (if write then VIRTIO_BLK_T_OUT else VIRTIO_BLK_T_IN) 0 sector]> (ops d)));;
  modify (λ d, set_desc (<[i0 := mk_desc (Ops i0) 16 VRING_DESC_F_NEXT i1]> (desc d)) d);;
  modify (λ d, set_desc (<[i1 := mk_desc (Data b) BSIZE
    (Z.lor (if write then 0 else VRING_DESC_F_WRITE) VRING_DESC_F_NEXT) i2]> (desc d)) d);;
  modify (λ d, set_info (info_b d) (<[i0 := 0xff]> (info_status d)) d);;
  modify (λ d, set_desc (<[i2 := mk_desc (Status i0) 1 VRING_DESC_F_WRITE 0]> (desc d)) d);;
  modify (λ d, set_bufs (<[b := set_bdisk 1 (bufs d b)]> (bufs d)) d);;
  modify (λ d, set_info (<[i0 := Some b]> (info_b d)) (info_status d) d);;
  modify (λ d, set_avail (<[avail_idx d `mod` NUM := i0]> (avail_ring d)) (avail_idx d) d);;
  modify (λ d, set_avail (avail_ring d) (u16 (avail_idx d + 1)) d).
(** One try: [None] when it sleeps for a descriptor, else the first descriptor
    of the request that has been given to the device. *)
Definition rw_start (b : nat) (write : bool) : prog disk (option Z) :=
  r ← alloc3_desc;
  match r with
  | Some [i0; i1; i2] => rw_format b write i0 i1 i2;; mret (Some i0)
  | _ => mret None
  end.
(** [while(b->disk == 1)]: must it sleep? *)
Definition rw_wait (b : nat) : prog disk bool := d ← get; mret (disk_ (bufs d b) =? 1).
Definition rw_finish (i0 : Z) : prog disk unit :=
  chk i0;;
  modify (λ d, set_info (<[i0 := None]> (info_b d)) (info_status d) d);;
  free_chain 3 i0.

(** ** The interrupt *)

Fixpoint intr_loop (fuel : nat) : prog disk unit :=
  d ← get;
  if used_idx d =? used_dev_idx d then skip
  else
    match fuel with
    | O => spin
    | S fuel' =>
        let id := used_ring d (used_idx d `mod` NUM) in
        chk id;;
        if negb (info_status d id =? 0) then panic "virtio_disk_intr status"
        else
          match info_b d id with
          | None => fault
          | Some b =>
              modify (set_bufs (<[b := set_bdisk 0 (bufs d b)]> (bufs d)));;
              wakeup (ChBuf b);;
              modify (λ d, set_used_idx (u16 (used_idx d + 1)) d);;
              intr_loop fuel'
          end
    end.
(** At most [NUM] requests are finished at once. *)
Definition virtio_disk_intr : prog disk unit := intr_loop (Z.to_nat NUM).

(** ** Start *)

(** The queue is zeroed and every descriptor is free. *)
Definition queue_init (bs : nat → buf) : disk :=
  mk_disk (λ _, mk_desc Null 0 0 0) (λ _, 0) 0 (λ _, 0) 0 (λ i, (0 <=? i) && (i <? NUM)) 0
    (λ _, None) (λ _, 0) (λ _, mk_req 0 0 0) bs [].

Definition VIRTIO_MMIO_DRIVER_FEATURES : Z := 0x020.
Definition VIRTIO_MMIO_QUEUE_SEL : Z := 0x030.
Definition VIRTIO_MMIO_QUEUE_NUM : Z := 0x038.
Definition VIRTIO_MMIO_QUEUE_READY : Z := 0x044.
Definition VIRTIO_MMIO_STATUS : Z := 0x070.
Definition VIRTIO_MMIO_QUEUE_DESC_LOW : Z := 0x080.
Definition VIRTIO_MMIO_QUEUE_DESC_HIGH : Z := 0x084.
Definition VIRTIO_MMIO_DRIVER_DESC_LOW : Z := 0x090.
Definition VIRTIO_MMIO_DRIVER_DESC_HIGH : Z := 0x094.
Definition VIRTIO_MMIO_DEVICE_DESC_LOW : Z := 0x0a0.
Definition VIRTIO_MMIO_DEVICE_DESC_HIGH : Z := 0x0a4.
(** The bits of the features that are switched off: RO, SCSI, CONFIG_WCE, MQ,
    ANY_LAYOUT, EVENT_IDX and INDIRECT_DESC. *)
Definition masked : list Z := [5; 7; 11; 12; 27; 29; 28].
Definition negotiate (features : Z) : Z :=
  foldl (λ f k, Z.land f (Z.lnot (Z.shiftl 1 k))) features masked.

(** What the device answers: the registers that are read, in the order of the
    reads. *)
Record regs := mk_regs {
  magic : Z; version : Z; device_id : Z; vendor_id : Z; features : Z;
  status_after : Z; queue_ready : Z; queue_num_max : Z
}.
(** [pd], [pa] and [pu] are the results of [kalloc]; the result is the sequence
    of the writes to registers, and the queue. *)
Definition virtio_disk_init (r : regs) (pd pa pu : Z) (bs : nat → buf) : res (list (Z * Z) * disk) :=
  if negb (magic r =? 0x74726976) || negb (version r =? 2) || negb (device_id r =? 2) ||
     negb (vendor_id r =? 0x554d4551)
  then Panic "could not find virtio disk"
  else if Z.land (status_after r) 8 =? 0 then Panic "virtio disk FEATURES_OK unset"
  else if negb (queue_ready r =? 0) then Panic "virtio disk should not be ready"
  else if queue_num_max r =? 0 then Panic "virtio disk has no queue 0"
  else if queue_num_max r <? NUM then Panic "virtio disk max queue too short"
  else if (pd =? 0) || (pa =? 0) || (pu =? 0) then Panic "virtio disk kalloc"
  else
    Ok ([(VIRTIO_MMIO_STATUS, 0);
         (VIRTIO_MMIO_STATUS, 1);
         (VIRTIO_MMIO_STATUS, Z.lor 1 2);
         (VIRTIO_MMIO_DRIVER_FEATURES, u32 (negotiate (features r)));
         (VIRTIO_MMIO_STATUS, Z.lor (Z.lor 1 2) 8);
         (VIRTIO_MMIO_QUEUE_SEL, 0);
         (VIRTIO_MMIO_QUEUE_NUM, NUM);
         (VIRTIO_MMIO_QUEUE_DESC_LOW, u32 pd); (VIRTIO_MMIO_QUEUE_DESC_HIGH, u32 (Z.shiftr pd 32));
         (VIRTIO_MMIO_DRIVER_DESC_LOW, u32 pa); (VIRTIO_MMIO_DRIVER_DESC_HIGH, u32 (Z.shiftr pa 32));
         (VIRTIO_MMIO_DEVICE_DESC_LOW, u32 pu); (VIRTIO_MMIO_DEVICE_DESC_HIGH, u32 (Z.shiftr pu 32));
         (VIRTIO_MMIO_QUEUE_READY, 1);
         (VIRTIO_MMIO_STATUS, Z.lor (status_after r) 4)], queue_init bs).

End Virtio.
