(* ===== verification/VirtioProofs.v ===== *)
(** * The disk driver and the device

    Processes that call [virtio_disk_rw], the interrupt handler and the device
    take turns.  The device does what the virtio specification and the comments
    of kernel/virtio_disk.c say: it takes chains from the available ring,
    carries them out in any order, writes 0 to the status byte and puts the
    chain into the used ring.  The buffer cache gives every request a buffer,
    and a block, that no other request has. *)

From S2P Require Import Prelude Virtio.

Module VirtioProofs.
Import Virtio.

(** ** The system *)

(** A process in [virtio_disk_rw]; [old] is what a read is to return, the
    contents of the block, and what a write is to store, those of the buffer,
    at the time of the call. *)
Inductive thread : Type :=
| Calling (b : nat) (write : bool) (old : list Z)
| SleepFree (b : nat) (write : bool) (old : list Z)
| Waiting (b : nat) (write : bool) (old : list Z) (i0 : Z)
| SleepBuf (b : nat) (write : bool) (old : list Z) (i0 : Z).
Definition buf_of (t : thread) : nat :=
  match t with Calling b _ _ | SleepFree b _ _ | Waiting b _ _ _ | SleepBuf b _ _ _ => b end.

(** [image] are the sectors of the disk; [dev_avail] is how far the device has
    read the available ring, [accepted] the chains it is working on. *)
Record world := mk_world {
  dk : disk; image : Z → list Z; dev_avail : Z; accepted : list Z; threads : gmap nat thread
}.

(** A block is two sectors. *)
Definition blk (im : Z → list Z) (s : Z) : list Z := im s ++ im (s + 1).
Definition set_blk (s : Z) (v : list Z) (im : Z → list Z) : Z → list Z :=
  <[s := take 512 v]> (<[s + 1 := drop 512 v]> im).
Definition block (w : world) (b : nat) : list Z := blk (image w) (2 * blockno (bufs (dk w) b)).

#[export] Instance chan_eq : EqDecision chan.
Proof. solve_decision. Defined.
(** What the calls of [wakeup] do to a process. *)
Definition wake (cs : list chan) (t : thread) : thread :=
  match t with
  | SleepFree b w o => if bool_decide (ChFree ∈ cs) then Calling b w o else t
  | SleepBuf b w o i => if bool_decide (ChBuf b ∈ cs) then Waiting b w o i else t
  | _ => t
  end.
Definition awake (d : disk) (ts : gmap nat thread) : gmap nat thread := wake (woken d) <$> ts.
Definition quiet (d : disk) : disk := set_woken [] d.

(** The device carries out the chain with head [h]. *)
Definition dev_do (h : Z) (d : disk) (im : Z → list Z) : option (disk * (Z → list Z)) :=
  let d0 := desc d h in
  let d1 := desc d (next d0) in
  let d2 := desc d (next d1) in
  match addr d0, addr d1, addr d2 with
  | Ops k, Data b, Status k' =>
      let r := ops d k in
      let d' := set_info (info_b d) (<[k' := 0]> (info_status d)) d in
      let d' := set_used (<[used_dev_idx d `mod` NUM := h]> (used_ring d)) (u16 (used_dev_idx d + 1)) d' in
      if negb (Z.testbit (flags d0) 0 && Z.testbit (flags d1) 0 && negb (Z.testbit (flags d2) 0)) then None
      else if (type r =? VIRTIO_BLK_T_OUT) && negb (Z.testbit (flags d1) 1)
      then Some (d', set_blk (sector r) (data (bufs d b)) im)
      else if (type r =? VIRTIO_BLK_T_IN) && Z.testbit (flags d1) 1
      then Some (set_bufs (<[b := set_data (blk im (sector r)) (bufs d b)]> (bufs d)) d', im)
      else None
  | _, _, _ => None
  end.

(** The buffer is not in use by any process. *)
Definition unused (w : world) (b : nat) : Prop :=
  ∀ p t, threads w !! p = Some t → buf_of t ≠ b ∧ blockno (bufs (dk w) (buf_of t)) ≠ blockno (bufs (dk w) b).

Inductive step (w : world) : world → Prop :=
| st_call p b write : threads w !! p = None → unused w b → 0 ≤ blockno (bufs (dk w) b) < 2 ^ 31 →
    step w (mk_world (dk w) (image w) (dev_avail w) (accepted w)
      (<[p := Calling b write (if write then data (bufs (dk w) b) else block w b)]> (threads w)))
| st_modify b v : (∀ p t, threads w !! p = Some t → buf_of t ≠ b) →
    step w (mk_world (set_bufs (<[b := v]> (bufs (dk w))) (dk w)) (image w) (dev_avail w) (accepted w) (threads w))
| st_try p b write old i0 d : threads w !! p = Some (Calling b write old) →
    rw_start b write (dk w) = Ok (Some i0, d) →
    step w (mk_world (quiet d) (image w) (dev_avail w) (accepted w)
      (<[p := Waiting b write old i0]> (awake d (threads w))))
| st_try_sleep p b write old d : threads w !! p = Some (Calling b write old) →
    rw_start b write (dk w) = Ok (None, d) →
    step w (mk_world (quiet d) (image w) (dev_avail w) (accepted w)
      (<[p := SleepFree b write old]> (awake d (threads w))))
| st_wait p b write old i0 : threads w !! p = Some (Waiting b write old i0) →
    rw_wait b (dk w) = Ok (true, dk w) →
    step w (mk_world (dk w) (image w) (dev_avail w) (accepted w)
      (<[p := SleepBuf b write old i0]> (threads w)))
| st_return p b write old i0 d : threads w !! p = Some (Waiting b write old i0) →
    rw_wait b (dk w) = Ok (false, dk w) → rw_finish i0 (dk w) = Ok (tt, d) →
    step w (mk_world (quiet d) (image w) (dev_avail w) (accepted w) (awake d (delete p (threads w))))
| st_intr d : virtio_disk_intr (dk w) = Ok (tt, d) →
    step w (mk_world (quiet d) (image w) (dev_avail w) (accepted w) (awake d (threads w)))
| st_dev_take : dev_avail w ≠ avail_idx (dk w) →
    step w (mk_world (dk w) (image w) (u16 (dev_avail w + 1))
      (accepted w ++ [avail_ring (dk w) (dev_avail w `mod` NUM)]) (threads w))
| st_dev_done l1 h l2 d im : accepted w = l1 ++ h :: l2 → dev_do h (dk w) (image w) = Some (d, im) →
    step w (mk_world d im (dev_avail w) (l1 ++ l2) (threads w)).

Definition start (bs : nat → buf) (im : Z → list Z) : world :=
  mk_world (queue_init bs) im 0 [] ∅.
Definition reachable (bs : nat → buf) (im : Z → list Z) (w : world) : Prop := rtc step (start bs im) w.

(** ** The invariant *)

(** A request: its process, its call and its three descriptors. *)
Record rq := mk_rq { rp : nat; rb : nat; rw : bool; ro : list Z; r0 : Z; r1 : Z; r2 : Z }.
#[export] Instance rq_eq : EqDecision rq.
Proof. solve_decision. Defined.
Definition idxs (r : rq) : list Z := [r0 r; r1 r; r2 r].
Definition secs (d : disk) (b : nat) : Z := 2 * blockno (bufs d b).

Definition chain_ok (d : disk) (r : rq) : Prop :=
  desc d (r0 r) = mk_desc (Ops (r0 r)) 16 VRING_DESC_F_NEXT (r1 r) ∧
  desc d (r1 r) = mk_desc (Data (rb r)) BSIZE
    (Z.lor (if rw r then 0 else VRING_DESC_F_WRITE) VRING_DESC_F_NEXT) (r2 r) ∧
  desc d (r2 r) = mk_desc (Status (r0 r)) 1 VRING_DESC_F_WRITE 0 ∧
  ops d (r0 r) = mk_req (if rw r then VIRTIO_BLK_T_OUT else VIRTIO_BLK_T_IN) 0 (secs d (rb r)) ∧
  info_b d (r0 r) = Some (rb r).
(** What a call has to find before the request is carried out. *)
Definition before (d : disk) (im : Z → list Z) (b : nat) (write : bool) (old : list Z) : Prop :=
  if write then data (bufs d b) = old else blk im (secs d b) = old.
Definition after (d : disk) (im : Z → list Z) (b : nat) (old : list Z) : Prop :=
  data (bufs d b) = old ∧ blk im (secs d b) = old.

Definition todo (d : disk) (im : Z → list Z) (r : rq) : Prop :=
  disk_ (bufs d (rb r)) = 1 ∧ before d im (rb r) (rw r) (ro r).
Definition used (d : disk) (im : Z → list Z) (r : rq) : Prop :=
  info_status d (r0 r) = 0 ∧ disk_ (bufs d (rb r)) = 1 ∧ after d im (rb r) (ro r).
Definition finished (d : disk) (im : Z → list Z) (r : rq) : Prop :=
  disk_ (bufs d (rb r)) = 0 ∧ after d im (rb r) (ro r).

(** The entries of a ring from [i] on. *)
Definition ring_has (ring : Z → Z) (i : Z) (rs : list rq) : Prop :=
  ∀ k r, rs !! k = Some r → ring ((i + Z.of_nat k) `mod` NUM) = r0 r.

(** The state of a process and its request. *)
Definition inflight (t : thread) (r : rq) : Prop :=
  t = Waiting (rb r) (rw r) (ro r) (r0 r) ∨ t = SleepBuf (rb r) (rw r) (ro r) (r0 r).
Definition thread_ok (d : disk) (im : Z → list Z) (R : list rq) (p : nat) (t : thread) : Prop :=
  match t with
  | Calling b w o | SleepFree b w o => before d im b w o
  | Waiting b w o i => ∃ r, r ∈ R ∧ rp r = p ∧ inflight t r
  | SleepBuf b w o i => ∃ r, r ∈ R ∧ rp r = p ∧ inflight t r ∧ disk_ (bufs d b) = 1
  end.

Definition all_idx (R : list rq) : list Z := concat (idxs <$> R).
(** What holds of all the requests ... *)
Record core (w : world) (R : list rq) : Prop := mk_core {
  i_nodup : NoDup (all_idx R);
  i_range : ∀ i, i ∈ all_idx R → 0 ≤ i < NUM;
  i_free : ∀ i, 0 ≤ i < NUM → free (dk w) i = bool_decide (i ∉ all_idx R);
  i_chain : Forall (chain_ok (dk w)) R;
  i_threads : ∀ p t, threads w !! p = Some t →
    thread_ok (dk w) (image w) R p t ∧ 0 ≤ blockno (bufs (dk w) (buf_of t)) < 2 ^ 31;
  i_reqs : ∀ r, r ∈ R → ∃ t, threads w !! rp r = Some t ∧ inflight t r;
  i_pids : NoDup (rp <$> R);
  i_distinct : ∀ p q t u, p ≠ q → threads w !! p = Some t → threads w !! q = Some u →
    buf_of t ≠ buf_of u ∧ blockno (bufs (dk w) (buf_of t)) ≠ blockno (bufs (dk w) (buf_of u));
  i_woken : woken (dk w) = [];
  i_sleep : (∃ p b write o, threads w !! p = Some (SleepFree b write o)) → R ≠ []
}.
(** ... and of those in the available ring, in the device, in the used ring, and
    of those that are finished. *)
Record stages (w : world) (RA RB RU RD : list rq) : Prop := mk_stages {
  i_todo : Forall (todo (dk w) (image w)) (RA ++ RB);
  i_used : Forall (used (dk w) (image w)) RU;
  i_done : Forall (finished (dk w) (image w)) RD;
  i_avail : avail_idx (dk w) = u16 (dev_avail w + Z.of_nat (length RA));
  i_avail_ring : ring_has (avail_ring (dk w)) (dev_avail w) RA;
  i_accepted : accepted w = r0 <$> RB;
  i_usedi : used_dev_idx (dk w) = u16 (used_idx (dk w) + Z.of_nat (length RU));
  i_used_ring : ring_has (used_ring (dk w)) (used_idx (dk w)) RU;
  i_idx : 0 ≤ dev_avail w < 2 ^ 16 ∧ 0 ≤ used_idx (dk w) < 2 ^ 16
}.
Definition inv (w : world) : Prop := ∃ RA RB RU RD,
  core w (RA ++ RB ++ RU ++ RD) ∧ stages w RA RB RU RD.

(** ** Descriptors *)

Lemma alloc_loop_ok k : ∀ i d,
  (∃ j, i ≤ j < i + Z.of_nat k ∧ free d j = true ∧
    alloc_loop k i d = Ok (j, set_free (<[j := false]> (free d)) d)) ∨
  ((∀ j, i ≤ j < i + Z.of_nat k → free d j = false) ∧ alloc_loop k i d = Ok (-1, d)).
Proof.
  induction k as [|k IH]; intros i d.
  { right. split; [intros; lia|done]. }
  cbn [alloc_loop]. prog_run. destruct (free d i) eqn:E.
  - left. exists i. split; [lia|]. by split.
  - destruct (IH (i + 1) d) as [(j & Hj & Hf & Ea)|[Hf Ea]].
    + left. exists j. split; [lia|]. by split.
    + right. split; [|done]. intros j Hj. destruct (decide (j = i)) as [->|]; [done|]. apply Hf. lia.
Qed.
Lemma alloc_desc_ok d :
  (∃ j, 0 ≤ j < NUM ∧ free d j = true ∧ alloc_desc d = Ok (j, set_free (<[j := false]> (free d)) d)) ∨
  ((∀ j, 0 ≤ j < NUM → free d j = false) ∧ alloc_desc d = Ok (-1, d)).
Proof. apply (alloc_loop_ok 8 0 d). Qed.

(** Everything but the descriptors. *)
Definition rest (d : disk) :=
  (avail_ring d, avail_idx d, (used_ring d, used_dev_idx d, used_idx d),
   (info_b d, info_status d, ops d, bufs d)).
Lemma rest_inv d d' : rest d = rest d' → avail_ring d = avail_ring d' ∧ avail_idx d = avail_idx d' ∧
  used_ring d = used_ring d' ∧ used_dev_idx d = used_dev_idx d' ∧ used_idx d = used_idx d' ∧
  info_b d = info_b d' ∧ info_status d = info_status d' ∧ ops d = ops d' ∧ bufs d = bufs d'.
Proof. intros H. by injection H. Qed.
(** The descriptors [idx] have been freed. *)
Definition freed (idx : list Z) (d d' : disk) : Prop :=
  (∀ i, free d' i = bool_decide (i ∈ idx) || free d i) ∧
  (∀ i, i ∉ idx → desc d' i = desc d i) ∧ rest d' = rest d ∧
  woken d' = woken d ++ replicate (length idx) ChFree.

Lemma chk_ok i d : 0 ≤ i < NUM → chk i d = Ok (tt, d).
Proof.
  intros H. unfold chk. rewrite (proj2 (Z.leb_le 0 i)), (proj2 (Z.ltb_lt i NUM)) by lia. done.
Qed.
Lemma free_desc_ok i d : 0 ≤ i < NUM → free d i = false →
  ∃ d', free_desc i d = Ok (tt, d') ∧ freed [i] d d'.
Proof.
  intros Hi Hf. unfold free_desc. rewrite (proj2 (Z.leb_gt NUM i)) by lia.
  rewrite (bind_Ok _ _ _ _ _ (chk_ok i d Hi)). prog_run. rewrite Hf.
  eexists. split; [reflexivity|]. split_and!; [|..|done|done].
  - intros j. simpl. destruct (decide (i = j)) as [->|Hn].
    + rewrite fn_lookup_insert, bool_decide_eq_true_2; [done|by apply list_elem_of_singleton].
    + rewrite fn_lookup_insert_ne, bool_decide_eq_false_2; [done|rewrite list_elem_of_singleton; congruence|done].
  - intros j Hj. simpl. apply fn_lookup_insert_ne. intros ->. apply Hj. by apply list_elem_of_singleton.
Qed.
Lemma vfreed_trans i idx d d1 d2 : freed [i] d d1 → freed idx d1 d2 → freed (i :: idx) d d2.
Proof.
  intros (Hf1 & Hd1 & Hr1 & Hw1) (Hf2 & Hd2 & Hr2 & Hw2). split_and!.
  - intros j. rewrite Hf2, Hf1, orb_assoc. f_equal. rewrite orb_comm.
    destruct (decide (j = i)) as [->|Hn].
    + rewrite (bool_decide_eq_true_2 (i ∈ [i])), (bool_decide_eq_true_2 (i ∈ i :: idx)); [done|by left|by left].
    + rewrite bool_decide_eq_false_2 by (by rewrite list_elem_of_singleton). simpl.
      apply bool_decide_ext. rewrite elem_of_cons. naive_solver.
  - intros j [Hn Hj]%not_elem_of_cons. rewrite Hd2 by done. apply Hd1. by rewrite list_elem_of_singleton.
  - congruence.
  - rewrite Hw2, Hw1, <- (assoc_L (++)). done.
Qed.
Lemma freed_nil d : freed [] d d.
Proof.
  split_and!; [intros i; by rewrite bool_decide_eq_false_2 by apply not_elem_of_nil|done|done|].
  simpl. by rewrite (right_id_L [] (++)).
Qed.
Lemma free_all_ok idx : ∀ d, NoDup idx → (∀ i, i ∈ idx → 0 ≤ i < NUM ∧ free d i = false) →
  ∃ d', free_all idx d = Ok (tt, d') ∧ freed idx d d'.
Proof.
  induction idx as [|i idx IH]; intros d Hnd Hi; [exists d; split; [done|apply freed_nil]|].
  apply list.NoDup_cons in Hnd as [Hn Hnd].
  destruct (free_desc_ok i d) as (d1 & E1 & F1); [apply Hi; by left..|].
  destruct (IH d1 Hnd) as (d2 & E2 & F2).
  { intros j Hj. split; [apply Hi; by right|]. rewrite (proj1 F1).
    rewrite bool_decide_eq_false_2; [apply Hi; by right|]. rewrite list_elem_of_singleton. by intros ->. }
  exists d2. split; [|by eapply vfreed_trans]. simpl. by rewrite (bind_Ok _ _ _ _ _ E1).
Qed.

(** The three descriptors have been taken. *)
Definition taken (a b c : Z) (d : disk) : disk :=
  set_free (<[c := false]> (<[b := false]> (<[a := false]> (free d)))) d.

(** A state in which the descriptors are as in [d], but for what is written in
    those that are free. *)
Definition same_free (d d' : disk) : Prop :=
  (∀ i, 0 ≤ i < NUM → free d' i = free d i) ∧ (∀ i, free d i = false → desc d' i = desc d i) ∧
  rest d' = rest d.

Lemma alloc3_undo idx d d1 : NoDup idx → (∀ i, i ∈ idx → 0 ≤ i < NUM ∧ free d i = true) →
  (∀ i, free d1 i = negb (bool_decide (i ∈ idx)) && free d i) → desc d1 = desc d → rest d1 = rest d →
  ∃ d', (free_all idx;; mret (None : option (list Z))) d1 = Ok (None, d') ∧ same_free d d'.
Proof.
  intros Hnd Hi Hf Hd Hr. destruct (free_all_ok idx d1 Hnd) as (d' & E & F1 & F2 & F3 & _).
  { intros i Hin. split; [by apply Hi|]. rewrite Hf, bool_decide_eq_true_2 by done. done. }
  exists d'. split; [by rewrite (bind_Ok _ _ _ _ _ E)|]. split_and!; [| |congruence].
  - intros i _. rewrite F1, Hf. destruct (decide (i ∈ idx)) as [Hin|Hn].
    + rewrite !bool_decide_eq_true_2 by done. simpl. symmetry. by apply Hi.
    + by rewrite !bool_decide_eq_false_2 by done.
  - intros i Hfi. rewrite F2, Hd; [done|]. intros Hin. destruct (Hi i Hin). congruence.
Qed.
Lemma not_free_in (idx : list Z) d d1 : (∀ i, free d1 i = negb (bool_decide (i ∈ idx)) && free d i) →
  (∀ i, 0 ≤ i < NUM → free d1 i = false) → ∀ i, 0 ≤ i < NUM → free d i = true → i ∈ idx.
Proof.
  intros Hf Hn i Hi Ht. specialize (Hn i Hi). rewrite Hf, Ht, andb_true_r in Hn.
  apply negb_false_iff in Hn. by apply bool_decide_eq_true in Hn.
Qed.
(** One more descriptor. *)
Lemma take_one (idx : list Z) d d1 j : (∀ i, free d1 i = negb (bool_decide (i ∈ idx)) && free d i) →
  free d1 j = true → free d j = true ∧ j ∉ idx ∧
  ∀ i, free (set_free (<[j := false]> (free d1)) d1) i = negb (bool_decide (i ∈ idx ++ [j])) && free d i.
Proof.
  intros Hf Hj. rewrite Hf in Hj. apply andb_true_iff in Hj as [Hj Ht]. split; [done|].
  apply negb_true_iff, bool_decide_eq_false in Hj. split; [done|]. intros i. simpl.
  destruct (decide (j = i)) as [->|Hn].
  - rewrite fn_lookup_insert, bool_decide_eq_true_2; [done|]. apply elem_of_app. right. by left.
  - rewrite fn_lookup_insert_ne by done. rewrite Hf. do 2 f_equal. apply bool_decide_ext.
    rewrite elem_of_app, list_elem_of_singleton. naive_solver.
Qed.

Lemma alloc3_loop_ok k : ∀ idx d d1, NoDup idx → (∀ i, i ∈ idx → 0 ≤ i < NUM ∧ free d i = true) →
  (∀ i, free d1 i = negb (bool_decide (i ∈ idx)) && free d i) → desc d1 = desc d → rest d1 = rest d →
  woken d1 = woken d →
  (∃ idx' d', alloc3_loop k idx d1 = Ok (Some idx', d') ∧ length idx' = (length idx + k)%nat ∧ NoDup idx' ∧
    (∀ i, i ∈ idx' → 0 ≤ i < NUM ∧ free d i = true) ∧
    (∀ i, free d' i = negb (bool_decide (i ∈ idx')) && free d i) ∧ desc d' = desc d ∧ rest d' = rest d ∧
    woken d' = woken d) ∨
  (∃ idx' d', alloc3_loop k idx d1 = Ok (None, d') ∧ (length idx' < length idx + k)%nat ∧
    (∀ i, 0 ≤ i < NUM → free d i = true → i ∈ idx') ∧ same_free d d').
Proof.
  induction k as [|k IH]; intros idx d d1 Hnd Hi Hf Hd Hr Hw.
  { left. exists idx, d1. split_and!; try done. }
  cbn [alloc3_loop]. destruct (alloc_desc_ok d1) as [(j & Hj & Hfj & E)|[Hall E]];
    rewrite (bind_Ok _ _ _ _ _ E).
  - rewrite (proj2 (Z.ltb_ge j 0)) by lia.
    destruct (take_one idx d d1 j Hf Hfj) as (Hdj & Hn & Hf').
    destruct (IH (idx ++ [j]) d (set_free (<[j := false]> (free d1)) d1)) as [H|H]; try done.
    + apply list.NoDup_app. split_and!; [done| |apply NoDup_singleton].
      intros x Hx Hx'. apply list_elem_of_singleton in Hx' as ->. done.
    + intros i [Hin| ->%list_elem_of_singleton]%elem_of_app; [by apply Hi|done].
    + left. destruct H as (idx' & d' & H1 & H2 & H3). exists idx', d'. split; [done|]. split; [|done].
      rewrite H2, length_app. simpl. lia.
    + right. destruct H as (idx' & d' & H1 & H2 & H3). exists idx', d'. split; [done|]. split; [|done].
      rewrite length_app in H2. simpl in H2. lia.
  - right. change (-1 <? 0) with true. cbv iota.
    destruct (alloc3_undo idx d d1 Hnd Hi Hf Hd Hr) as (d' & E' & Hs). exists idx, d'.
    split; [done|]. split; [lia|]. split; [|done]. by apply (not_free_in idx d d1).
Qed.
Lemma alloc3_ok d :
  (∃ a b c d', alloc3_desc d = Ok (Some [a; b; c], d') ∧ NoDup [a; b; c] ∧
    (∀ i, i ∈ [a; b; c] → 0 ≤ i < NUM ∧ free d i = true) ∧
    (∀ i, free d' i = negb (bool_decide (i ∈ [a; b; c])) && free d i) ∧ desc d' = desc d ∧
    rest d' = rest d ∧ woken d' = woken d) ∨
  (∃ idx d', alloc3_desc d = Ok (None, d') ∧ (length idx < 3)%nat ∧
    (∀ i, 0 ≤ i < NUM → free d i = true → i ∈ idx) ∧ same_free d d').
Proof.
  destruct (alloc3_loop_ok 3 [] d d) as [(idx & d' & E & Hl & H)|H]; try done.
  - apply NoDup_nil_2.
  - intros i Hi. by apply not_elem_of_nil in Hi.
  - left. destruct idx as [|a [|b [|c [|]]]]; try done. by exists a, b, c, d'.
  - by right.
Qed.

(** ** Requests *)

Lemma all_idx_perm R R' : R ≡ₚ R' → all_idx R ≡ₚ all_idx R'.
Proof.
  unfold all_idx. induction 1 as [|x l l' _ IH|x y l|l l' l'' _ IH1 _ IH2]; [done| | |by transitivity (concat (idxs <$> l'))].
  - rewrite !fmap_cons. simpl. by rewrite IH.
  - rewrite !fmap_cons. cbn [concat]. rewrite !(assoc_L (++)). f_equiv. apply Permutation_app_comm.
Qed.
Lemma core_perm w R R' : R ≡ₚ R' → core w R → core w R'.
Proof.
  intros HP [H1 H2 H3 H4 H5 H6 H7 H8 H9 H10]. pose proof (all_idx_perm R R' HP) as HI.
  constructor; try done.
  - by rewrite <- HI.
  - intros i Hi. apply H2. by rewrite HI.
  - intros i Hi. rewrite H3 by done. apply bool_decide_ext. by rewrite HI.
  - by rewrite <- HP.
  - intros p t Ht. destruct (H5 p t Ht) as [Hok Hb]. split; [|done].
    destruct t; simpl in *; [done|done|..]; destruct Hok as (r & Hr & ?); exists r; by rewrite <- HP.
  - intros r Hr. apply H6. by rewrite HP.
  - by rewrite <- HP.
  - intros He ->. apply Permutation_nil_r in HP. by apply H10.
Qed.

(** There are at most two requests. *)
Lemma core_two w R : core w R → (length R ≤ 2)%nat.
Proof.
  intros HC. assert (length (all_idx R) = 3 * length R)%nat as Hl.
  { unfold all_idx. clear HC. induction R as [|r R IH]; [done|]. rewrite fmap_cons. simpl. rewrite IH. lia. }
  assert (length (all_idx R) ≤ length (seqZ 0 8))%nat as Hle.
  { apply submseteq_length, NoDup_submseteq; [apply (i_nodup _ _ HC)|].
    intros i Hi. apply elem_of_seqZ. pose proof (i_range _ _ HC i Hi). unfold NUM in *. lia. }
  rewrite length_seqZ in Hle. lia.
Qed.
Lemma idx_of R r i : r ∈ R → i ∈ idxs r → i ∈ all_idx R.
Proof.
  intros Hr Hi. apply list_elem_of_In, in_concat. exists (idxs r).
  split; apply list_elem_of_In; [by apply list_elem_of_fmap_2|done].
Qed.
(** Two requests share nothing. *)
Lemma core_disjoint w R r r' i : core w R → r ∈ R → r' ∈ R → r ≠ r' → i ∈ idxs r → i ∉ idxs r'.
Proof.
  intros HC Hr Hr' Hn Hi Hi'. apply elem_of_Permutation in Hr as [R1 HP].
  assert (r' ∈ R1) as Hr1 by (rewrite HP in Hr'; apply elem_of_cons in Hr' as [->|?]; done).
  pose proof (i_nodup _ _ (core_perm _ _ _ HP HC)) as Hnd. unfold all_idx in Hnd.
  rewrite fmap_cons in Hnd. cbn [concat] in Hnd. apply list.NoDup_app in Hnd as (_ & Hd & _).
  apply (Hd i Hi). by apply (idx_of R1 r').
Qed.
Lemma core_bufs w R r r' : core w R → r ∈ R → r' ∈ R → r ≠ r' →
  rb r ≠ rb r' ∧ blockno (bufs (dk w) (rb r)) ≠ blockno (bufs (dk w) (rb r')).
Proof.
  intros HC Hr Hr' Hn. destruct (i_reqs _ _ HC r Hr) as (t & Ht & Hf), (i_reqs _ _ HC r' Hr') as (t' & Ht' & Hf').
  assert (rp r ≠ rp r') as Hp.
  { intros E. apply Hn. pose proof (i_pids _ _ HC) as Hnd.
    apply elem_of_Permutation in Hr as [R1 HP]. rewrite HP in Hnd, Hr'.
    apply elem_of_cons in Hr' as [->|Hr']; [done|]. rewrite fmap_cons in Hnd.
    apply list.NoDup_cons in Hnd as [Hnd _]. destruct Hnd. rewrite E. by apply list_elem_of_fmap_2. }
  pose proof (i_distinct _ _ HC _ _ _ _ Hp Ht Ht') as H.
  by destruct Hf as [->| ->], Hf' as [->| ->].
Qed.
(** A process that is not in flight has another buffer than the requests. *)
Lemma core_caller w R r p t : core w R → r ∈ R → threads w !! p = Some t → rp r ≠ p →
  rb r ≠ buf_of t ∧ blockno (bufs (dk w) (rb r)) ≠ blockno (bufs (dk w) (buf_of t)).
Proof.
  intros HC Hr Ht Hp. destruct (i_reqs _ _ HC r Hr) as (t' & Ht' & Hf).
  pose proof (i_distinct _ _ HC _ _ _ _ Hp Ht' Ht) as H. by destruct Hf as [->| ->].
Qed.

(** What a request needs of the state. *)
Definition keeps (d d' : disk) (r : rq) : Prop :=
  (∀ i, i ∈ idxs r → desc d' i = desc d i) ∧ ops d' (r0 r) = ops d (r0 r) ∧
  info_b d' (r0 r) = info_b d (r0 r) ∧ bufs d' (rb r) = bufs d (rb r).
Lemma in_idxs r : r0 r ∈ idxs r ∧ r1 r ∈ idxs r ∧ r2 r ∈ idxs r.
Proof. split_and!; [by left|by right; left|by right; right; left]. Qed.
Lemma keeps_chain d d' r : keeps d d' r → chain_ok d r → chain_ok d' r.
Proof.
  intros (Hd & Ho & Hb & Hbu) (H1 & H2 & H3 & H4 & H5). destruct (in_idxs r) as (I0 & I1 & I2).
  unfold chain_ok, secs. rewrite !Hd, Ho, Hb, Hbu by done. done.
Qed.
Lemma keeps_before d d' im im' b write old : bufs d' b = bufs d b → blk im' (secs d b) = blk im (secs d b) →
  before d im b write old → before d' im' b write old.
Proof. intros Hb Hi. unfold before, secs in *. by rewrite Hb, Hi. Qed.
Lemma keeps_after d d' im im' b old : bufs d' b = bufs d b → blk im' (secs d b) = blk im (secs d b) →
  after d im b old → after d' im' b old.
Proof. intros Hb Hi. unfold after, secs in *. by rewrite Hb, Hi. Qed.

(** The first entry of a ring, and one more at its end. *)
Lemma ring_has_tail ring i r rs : ring_has ring i (r :: rs) → ring_has ring (u16 (i + 1)) rs.
Proof.
  intros H k x Hx. rewrite <- (H (S k) x Hx). f_equal. unfold u16, NUM.
  rewrite Nat2Z.inj_succ. change 8 with (2 ^ 3). rewrite <- (Zplus_mod_idemp_l (_ `mod` _)).
  rewrite <- Znumtheory.Zmod_div_mod; [|lia|lia|exists (2 ^ 13); lia].
  rewrite Zplus_mod_idemp_l. f_equal. lia.
Qed.
Lemma ring_has_snoc ring i rs r n : n = u16 (i + Z.of_nat (length rs)) → (length rs < 8)%nat →
  ring_has ring i rs → ring_has (<[n `mod` NUM := r0 r]> ring) i (rs ++ [r]).
Proof.
  intros -> Hl H k x Hx. unfold u16, NUM. change 8 with (2 ^ 3).
  rewrite <- Znumtheory.Zmod_div_mod by (lia || exists (2 ^ 13); lia).
  destruct (decide (k = length rs)) as [->|Hn].
  - rewrite list_lookup_middle in Hx by done. injection Hx as ->. by rewrite fn_lookup_insert.
  - assert (k < length rs)%nat as Hk.
    { apply lookup_lt_Some in Hx. rewrite length_app in Hx. simpl in Hx. lia. }
    rewrite lookup_app_l in Hx by done. rewrite fn_lookup_insert_ne; [by apply H|].
    change (2 ^ 3) with 8. intros E.
    pose proof (Z.div_mod (i + Z.of_nat k) 8 ltac:(lia)). pose proof (Z.div_mod (i + Z.of_nat (length rs)) 8 ltac:(lia)). lia.
Qed.

(** ** Steps of processes *)

Lemma wake_buf cs t : buf_of (wake cs t) = buf_of t.
Proof. destruct t; simpl; by try case_bool_decide. Qed.
Lemma wake_inflight cs t r : inflight t r → inflight (wake cs t) r.
Proof. intros [->| ->]; simpl; [by left|]. case_bool_decide; [by left|by right]. Qed.
Lemma wake_ok cs d im R p t : thread_ok d im R p t → thread_ok d im R p (wake cs t).
Proof.
  destruct t as [| |b w o i|b w o i]; simpl; [done| |done|]; case_bool_decide; try done.
  intros (r & Hr & Hp & Hf & _). exists r. split_and!; [done..|].
  destruct Hf as [[=]|[= -> -> -> ->]]. by left.
Qed.
Lemma awake_some d ts p t' : awake d ts !! p = Some t' → ∃ t, ts !! p = Some t ∧ t' = wake (woken d) t.
Proof. unfold awake. rewrite lookup_fmap_Some. naive_solver. Qed.

(** The threads are those of [w], some of them woken, and [p] is [t]. *)
Definition moved (ts ts' : gmap nat thread) (cs : list chan) (p : nat) (t0 : thread) : Prop :=
  ts' !! p = Some t0 ∧ ∀ q, q ≠ p → ts' !! q = wake cs <$> ts !! q.
Lemma moved_insert d ts p t0 : moved ts (<[p := t0]> (awake d ts)) (woken d) p t0.
Proof.
  split; [by rewrite lookup_insert_eq|]. intros q Hq. rewrite lookup_insert_ne by done.
  unfold awake. by rewrite lookup_fmap.
Qed.
Lemma moved_plain ts p t0 : moved ts (<[p := t0]> ts) [] p t0.
Proof.
  split; [by rewrite lookup_insert_eq|]. intros q Hq. rewrite lookup_insert_ne by done.
  destruct (ts !! q) as [t|]; [|done]. simpl. f_equal. destruct t; simpl; try done;
    (rewrite bool_decide_eq_false_2; [done|apply not_elem_of_nil]).
Qed.
Lemma moved_some ts ts' cs p t0 q t' : moved ts ts' cs p t0 → ts' !! q = Some t' →
  (q = p ∧ t' = t0) ∨ (q ≠ p ∧ ∃ t, ts !! q = Some t ∧ t' = wake cs t).
Proof.
  intros [Hp Hq] H. destruct (decide (q = p)) as [->|Hn]; [left; split; [done|congruence]|right].
  split; [done|]. rewrite (Hq q Hn) in H. apply fmap_Some in H as (t & -> & ->). by exists t.
Qed.

(** A step that does not touch the requests, and in which the process [p] goes
    from [t] to [t0] and others are woken. *)
Lemma core_move w R d' da acc ts' cs p t t0 : core w R → threads w !! p = Some t →
  buf_of t0 = buf_of t → thread_ok d' (image w) R p t0 → (∀ r, r ∈ R → rp r = p → inflight t0 r) →
  moved (threads w) ts' cs p t0 → bufs d' = bufs (dk w) → woken d' = [] →
  (∀ i, 0 ≤ i < NUM → free d' i = free (dk w) i) → (∀ r, r ∈ R → keeps (dk w) d' r) →
  ((∃ b write o, t0 = SleepFree b write o) → R ≠ []) →
  core (mk_world d' (image w) da acc ts') R.
Proof.
  intros HC Ht Hbuf Hok0 Hfl Hmv Hb Hw Hfree Hk Hsl. constructor; simpl.
  - apply (i_nodup _ _ HC).
  - apply (i_range _ _ HC).
  - intros i Hi. rewrite Hfree by done. by apply (i_free _ _ HC).
  - apply list.Forall_forall. intros r Hr. apply (keeps_chain (dk w)); [by apply Hk|].
    by apply (list.Forall_forall (chain_ok (dk w)) R) in Hr; [|apply (i_chain _ _ HC)].
  - intros q t' Hq. destruct (moved_some _ _ _ _ _ _ _ Hmv Hq) as [[-> ->]|(Hn & u & Hu & ->)].
    + split; [done|]. rewrite Hb, Hbuf. by apply (i_threads _ _ HC p t).
    + destruct (i_threads _ _ HC q u Hu) as [Hok Hr]. rewrite wake_buf, Hb. split; [|done].
      apply wake_ok. destruct u; simpl in *; try done.
      * by eapply keeps_before; [by rewrite Hb|done|].
      * by eapply keeps_before; [by rewrite Hb|done|].
      * by rewrite Hb.
  - intros r Hr. destruct (i_reqs _ _ HC r Hr) as (u & Hu & Hf).
    destruct (decide (rp r = p)) as [E|Hn].
    + exists t0. rewrite E. split; [apply Hmv|by apply Hfl].
    + exists (wake cs u). rewrite (proj2 Hmv _ Hn), Hu. split; [done|by apply wake_inflight].
  - apply (i_pids _ _ HC).
  - intros q q' u u' Hn Hq Hq'. rewrite Hb.
    assert (∀ x v, ts' !! x = Some v → ∃ v0, threads w !! x = Some v0 ∧ buf_of v = buf_of v0) as Hsame.
    { intros x v Hv. destruct (moved_some _ _ _ _ _ _ _ Hmv Hv) as [[-> ->]|(_ & v0 & Hv0 & ->)].
      - by exists t.
      - exists v0. split; [done|apply wake_buf]. }
    destruct (Hsame q u Hq) as (v & Hv & ->), (Hsame q' u' Hq') as (v' & Hv' & ->).
    by apply (i_distinct _ _ HC q q').
  - done.
  - intros (q & b & wr & o & Hq).
    destruct (moved_some _ _ _ _ _ _ _ Hmv Hq) as [[-> Ht0]|(_ & u & Hu & E)].
    + apply Hsl. by exists b, wr, o.
    + apply (i_sleep _ _ HC). exists q, b, wr, o. rewrite Hu. f_equal.
      destruct u; simpl in E; try case_bool_decide; try discriminate; by symmetry.
Qed.
(** The stages do not depend on the processes. *)
Lemma stages_same w d' ts' RA RB RU RD : stages w RA RB RU RD → rest d' = rest (dk w) →
  stages (mk_world d' (image w) (dev_avail w) (accepted w) ts') RA RB RU RD.
Proof.
  intros HS Hr. destruct (rest_inv _ _ Hr) as (E1 & E2 & E3 & E4 & E5 & E6 & E7 & E8 & E9).
  assert (∀ r, todo (dk w) (image w) r → todo d' (image w) r) as Ht.
  { intros r [H1 H2]. split; [by rewrite E9|]. by eapply keeps_before; [by rewrite E9|..]. }
  assert (∀ r, after (dk w) (image w) (rb r) (ro r) → after d' (image w) (rb r) (ro r)) as Ha.
  { intros r H. by eapply keeps_after; [by rewrite E9|..]. }
  destruct HS as [H1 H2 H3 H4 H5 H6 H7 H8 H9]. constructor; simpl; try congruence.
  - by apply (list.Forall_impl _ _ _ H1).
  - apply (list.Forall_impl _ _ _ H2). intros r (? & ? & ?). unfold used. rewrite E7, E9. auto.
  - apply (list.Forall_impl _ _ _ H3). intros r (? & ?). unfold finished. rewrite E9. auto.
  - by rewrite E1.
  - by rewrite E3, E5.
Qed.

Lemma inv_call w p b write : inv w → threads w !! p = None → unused w b → 0 ≤ blockno (bufs (dk w) b) < 2 ^ 31 →
  inv (mk_world (dk w) (image w) (dev_avail w) (accepted w)
    (<[p := Calling b write (if write then data (bufs (dk w) b) else block w b)]> (threads w))).
Proof.
  intros (RA & RB & RU & RD & HC & HS) Hp Hun Hbl. exists RA, RB, RU, RD. split; [|by apply stages_same].
  constructor; simpl; try apply HC.
  - intros q t Hq. apply lookup_insert_Some in Hq as [[<- <-]|[Hn Hq]].
    + split; [|done]. unfold thread_ok, before. by destruct write.
    + by apply (i_threads _ _ HC).
  - intros r Hr. destruct (i_reqs _ _ HC r Hr) as (t & Ht & Hf). exists t. split; [|done].
    rewrite lookup_insert_ne; [done|]. intros ->. congruence.
  - intros q q' u u' Hn Hq Hq'. apply lookup_insert_Some in Hq as [[<- <-]|[? Hq]], Hq' as [[<- <-]|[? Hq']]; simpl.
    + done.
    + destruct (Hun q' u' Hq'). split; congruence.
    + by destruct (Hun q u Hq).
    + by apply (i_distinct _ _ HC q q').
  - intros (q & b' & wr & o & Hq). apply lookup_insert_Some in Hq as [[_ [=]]|[_ Hq]].
    apply (i_sleep _ _ HC). by exists q, b', wr, o.
Qed.
Lemma inv_wait w p b write old i0 : inv w → threads w !! p = Some (Waiting b write old i0) →
  rw_wait b (dk w) = Ok (true, dk w) →
  inv (mk_world (dk w) (image w) (dev_avail w) (accepted w) (<[p := SleepBuf b write old i0]> (threads w))).
Proof.
  intros (RA & RB & RU & RD & HC & HS) Hp Hw. exists RA, RB, RU, RD. split; [|by apply stages_same].
  injection Hw as Hd. apply Z.eqb_eq in Hd.
  destruct (i_threads _ _ HC p _ Hp) as [(r & Hr & Hrp & Hf) _].
  destruct Hf as [[= -> -> -> ->]|[=]].
  eapply (core_move w _ _ _ _ _ [] p _ (SleepBuf (rb r) (rw r) (ro r) (r0 r))); try done.
  - exists r. split_and!; try done. by right.
  - intros r' Hr' E. destruct (i_reqs _ _ HC r' Hr') as (t & Ht & Hf). rewrite E, Hp in Ht.
    injection Ht as <-. destruct Hf as [[= -> -> -> ->]|[=]]. by right.
  - apply moved_plain.
  - apply HC.
  - intros (? & ? & ? & [=]).
Qed.

(** A step of the state, after which some processes are woken. *)
Lemma core_state w R d' im' da acc cs : core w R →
  (∀ p t, threads w !! p = Some t → blockno (bufs d' (buf_of t)) = blockno (bufs (dk w) (buf_of t)) ∧
    (thread_ok (dk w) (image w) R p t → thread_ok d' im' R p (wake cs t))) →
  (∀ i, 0 ≤ i < NUM → free d' i = free (dk w) i) → Forall (chain_ok d') R → woken d' = [] →
  core (mk_world d' im' da acc (wake cs <$> threads w)) R.
Proof.
  intros HC Ht Hf Hch Hw.
  assert (∀ p t', (wake cs <$> threads w) !! p = Some t' → ∃ t, threads w !! p = Some t ∧ t' = wake cs t) as Hs.
  { intros p t'. rewrite lookup_fmap_Some. naive_solver. }
  constructor; simpl; try apply HC; try done.
  - intros i Hi. rewrite Hf by done. by apply (i_free _ _ HC).
  - intros p t' Hp. destruct (Hs p t' Hp) as (t & Hp' & ->). destruct (Ht p t Hp') as [Hb Hok].
    destruct (i_threads _ _ HC p t Hp') as [Hok' Hr]. rewrite wake_buf, Hb. split; [by apply Hok|done].
  - intros r Hr. destruct (i_reqs _ _ HC r Hr) as (t & Hp & Hfl). exists (wake cs t).
    rewrite lookup_fmap, Hp. split; [done|by apply wake_inflight].
  - intros p q t' u' Hn Hp Hq. destruct (Hs p t' Hp) as (t & Hp' & ->), (Hs q u' Hq) as (u & Hq' & ->).
    rewrite !wake_buf. destruct (Ht p t Hp') as [-> _], (Ht q u Hq') as [-> _].
    by apply (i_distinct _ _ HC p q).
  - intros (p & b & wr & o & Hp). destruct (Hs _ _ Hp) as (t & Hp' & E). apply (i_sleep _ _ HC).
    exists p, b, wr, o. rewrite Hp'. f_equal.
    destruct t; simpl in E; try case_bool_decide; try discriminate; by symmetry.
Qed.
Lemma wake_nil ts : wake [] <$> ts = (ts : gmap nat thread).
Proof.
  rewrite <- (map_fmap_id ts) at 2. apply map_fmap_ext. intros p t _. destruct t; simpl; try done;
    (rewrite bool_decide_eq_false_2; [done|apply not_elem_of_nil]).
Qed.
(** A process whose buffer is not touched. *)
Lemma thread_keeps d d' im im' R p t : bufs d' (buf_of t) = bufs d (buf_of t) →
  blk im' (secs d (buf_of t)) = blk im (secs d (buf_of t)) →
  thread_ok d im R p t → thread_ok d' im' R p t.
Proof.
  intros Hb Hi. destruct t; simpl in *; [by apply keeps_before..|done|by rewrite Hb].
Qed.
Lemma req_thread w R r : core w R → r ∈ R → ∃ t, threads w !! rp r = Some t ∧ buf_of t = rb r.
Proof. intros HC Hr. destruct (i_reqs _ _ HC r Hr) as (t & Ht & [->| ->]); by eexists. Qed.

Lemma Forall_in {A} (P Q : A → Prop) (L : list A) : Forall P L → (∀ x, x ∈ L → P x → Q x) → Forall Q L.
Proof.
  intros HP H. apply list.Forall_forall. intros x Hx. apply H; [done|].
  by apply (list.Forall_forall P L) in Hx.
Qed.
Lemma Forall_at {A} (P : A → Prop) (L : list A) x : Forall P L → x ∈ L → P x.
Proof. intros H Hx. by apply (list.Forall_forall P L) in Hx. Qed.
(** A request that is not touched. *)
Definition intact (d d' : disk) (im im' : Z → list Z) (r : rq) : Prop :=
  bufs d' (rb r) = bufs d (rb r) ∧ info_status d' (r0 r) = info_status d (r0 r) ∧
  blk im' (secs d (rb r)) = blk im (secs d (rb r)).
Lemma intact_stage d d' im im' r : intact d d' im im' r →
  (todo d im r → todo d' im' r) ∧ (used d im r → used d' im' r) ∧ (finished d im r → finished d' im' r).
Proof.
  intros (Hb & Hs & Hi). unfold todo, used, finished. rewrite Hb, Hs. split_and!.
  - intros [? ?]. split; [done|]. by eapply keeps_before.
  - intros (? & ? & ?). split_and!; [done..|]. by eapply keeps_after.
  - intros [? ?]. split; [done|]. by eapply keeps_after.
Qed.
Lemma stages_frame d d' im im' RA RB RU RD :
  (∀ r, r ∈ RA ++ RB ++ RU ++ RD → intact d d' im im' r) →
  Forall (todo d im) (RA ++ RB) → Forall (used d im) RU → Forall (finished d im) RD →
  Forall (todo d' im') (RA ++ RB) ∧ Forall (used d' im') RU ∧ Forall (finished d' im') RD.
Proof.
  intros H H1 H2 H3. split_and!; (eapply Forall_in; [done|]); intros r Hr;
    apply (intact_stage d d' im im'), H; rewrite !elem_of_app in *; naive_solver.
Qed.

Lemma inv_modify w b v : inv w → (∀ p t, threads w !! p = Some t → buf_of t ≠ b) →
  inv (mk_world (set_bufs (<[b := v]> (bufs (dk w))) (dk w)) (image w) (dev_avail w) (accepted w) (threads w)).
Proof.
  intros (RA & RB & RU & RD & HC & HS) Hun. exists RA, RB, RU, RD.
  set (R := RA ++ RB ++ RU ++ RD) in *. set (d' := set_bufs (<[b := v]> (bufs (dk w))) (dk w)).
  assert (∀ p t, threads w !! p = Some t → bufs d' (buf_of t) = bufs (dk w) (buf_of t)) as Hb.
  { intros p t Ht. simpl. rewrite fn_lookup_insert_ne; [done|]. intros E. by apply (Hun p t Ht). }
  assert (∀ r, r ∈ R → bufs d' (rb r) = bufs (dk w) (rb r)) as Hbr.
  { intros r Hr. destruct (req_thread w R r HC Hr) as (t & Ht & <-). by apply (Hb (rp r)). }
  split.
  - rewrite <- (wake_nil (threads w)). apply core_state; try done.
    + intros p t Ht. rewrite (Hb p t Ht). split; [done|]. intros Hok. apply wake_ok.
      by eapply thread_keeps; [by apply (Hb p)|..].
    + apply list.Forall_forall. intros r Hr. apply (keeps_chain (dk w)).
      * split_and!; try done. by apply Hbr.
      * by apply (list.Forall_forall (chain_ok (dk w)) R) in Hr; [|apply (i_chain _ _ HC)].
    + apply HC.
  - destruct HS as [H1 H2 H3 H4 H5 H6 H7 H8 H9].
    destruct (stages_frame (dk w) d' (image w) (image w) RA RB RU RD) as (? & ? & ?); try done.
    intros r Hr. split_and!; [by apply Hbr|done|done].
Qed.

Lemma inv_try_sleep w p b write old d : inv w → threads w !! p = Some (Calling b write old) →
  rw_start b write (dk w) = Ok (None, d) →
  inv (mk_world (quiet d) (image w) (dev_avail w) (accepted w)
    (<[p := SleepFree b write old]> (awake d (threads w)))).
Proof.
  intros (RA & RB & RU & RD & HC & HS) Hp E. exists RA, RB, RU, RD. set (R := RA ++ RB ++ RU ++ RD) in *.
  unfold rw_start in E.
  destruct (alloc3_ok (dk w)) as [(a & b' & c & d' & E' & _)|(idx & d' & E' & Hl & Hall & Hf & Hd & Hr)];
    rewrite (bind_Ok _ _ _ _ _ E') in E.
  { apply bind_inv in E as (? & ? & _ & [=]). }
  injection E as <-. split; [|by apply stages_same].
  destruct (rest_inv _ _ Hr) as (E1 & E2 & E3 & E4 & E5 & E6 & E7 & E8 & E9).
  assert (R ≠ []) as HR.
  { intros ER. assert (length (seqZ 0 8) ≤ length idx)%nat as Hle.
    { apply submseteq_length, NoDup_submseteq; [apply NoDup_seqZ|]. intros i Hi. apply elem_of_seqZ in Hi.
      apply Hall; [unfold NUM; lia|]. rewrite (i_free _ _ HC) by (unfold NUM; lia). rewrite ER.
      apply bool_decide_eq_true_2, not_elem_of_nil. }
    rewrite length_seqZ in Hle. lia. }
  eapply (core_move w _ _ _ _ _ (woken d') p (Calling b write old) (SleepFree b write old)); try done.
  - destruct (i_threads _ _ HC p _ Hp) as [Hok _]. by eapply keeps_before; [simpl; by rewrite E9|..].
  - intros r Hin Hrp. destruct (i_reqs _ _ HC r Hin) as (t & Ht & Hfl). rewrite Hrp, Hp in Ht.
    injection Ht as <-. by destruct Hfl.
  - apply moved_insert.
  - intros r Hin. unfold keeps, quiet. simpl. rewrite E6, E8, E9. split_and!; try done.
    intros i Hi. apply Hd. rewrite (i_free _ _ HC); [|by eapply (i_range _ _ HC), idx_of].
    apply bool_decide_eq_false_2. intros Hn. by eapply Hn, idx_of.
Qed.

(** ** A new request *)

Definition formatted (r : rq) (d : disk) : disk :=
  mk_disk
    (<[r2 r := mk_desc (Status (r0 r)) 1 VRING_DESC_F_WRITE 0]>
      (<[r1 r := mk_desc (Data (rb r)) BSIZE
          (Z.lor (if rw r then 0 else VRING_DESC_F_WRITE) VRING_DESC_F_NEXT) (r2 r)]>
        (<[r0 r := mk_desc (Ops (r0 r)) 16 VRING_DESC_F_NEXT (r1 r)]> (desc d))))
    (<[avail_idx d `mod` NUM := r0 r]> (avail_ring d)) (u16 (avail_idx d + 1))
    (used_ring d) (used_dev_idx d) (free d) (used_idx d)
    (<[r0 r := Some (rb r)]> (info_b d)) (<[r0 r := 0xff]> (info_status d))
    (<[r0 r := mk_req (if rw r then VIRTIO_BLK_T_OUT else VIRTIO_BLK_T_IN) 0
        (u32 (blockno (bufs d (rb r)) * (BSIZE `div` 512)))]> (ops d))
    (<[rb r := set_bdisk 1 (bufs d (rb r))]> (bufs d)) (woken d).
Lemma rw_format_ok r d : (∀ i, i ∈ idxs r → 0 ≤ i < NUM) →
  rw_format (rb r) (rw r) (r0 r) (r1 r) (r2 r) d = Ok (tt, formatted r d).
Proof.
  intros H. destruct (in_idxs r) as (I0 & I1 & I2). unfold rw_format.
  by rewrite (bind_Ok _ _ _ _ _ (chk_ok _ _ (H _ I0))), (bind_Ok _ _ _ _ _ (chk_ok _ _ (H _ I1))),
    (bind_Ok _ _ _ _ _ (chk_ok _ _ (H _ I2))).
Qed.
Lemma rw_start_some p b write old i0 d d' : rw_start b write d = Ok (Some i0, d') →
  ∃ r d1, rp r = p ∧ rb r = b ∧ rw r = write ∧ ro r = old ∧ r0 r = i0 ∧ NoDup (idxs r) ∧
    (∀ i, i ∈ idxs r → 0 ≤ i < NUM ∧ free d i = true) ∧
    (∀ i, free d1 i = negb (bool_decide (i ∈ idxs r)) && free d i) ∧ desc d1 = desc d ∧
    rest d1 = rest d ∧ woken d1 = woken d ∧ d' = formatted r d1.
Proof.
  intros E. unfold rw_start in E.
  destruct (alloc3_ok d) as [(x & y & z & d1 & E' & Hnd & Hi & Hf & Hd & Hr & Hw)|(idx & d1 & E' & _)];
    rewrite (bind_Ok _ _ _ _ _ E') in E; [|by injection E].
  rewrite (bind_Ok _ _ _ _ _ (rw_format_ok (mk_rq p b write old x y z) d1 (λ i Hin, proj1 (Hi i Hin)))) in E.
  injection E as <- <-. exists (mk_rq p b write old x y z), d1. by split_and!.
Qed.

Section add.
Context (w : world) (R : list rq) (r : rq) (d1 : disk).
Context (HC : core w R) (Hp : threads w !! rp r = Some (Calling (rb r) (rw r) (ro r))).
Context (Hnd : NoDup (idxs r)) (Hidx : ∀ i, i ∈ idxs r → 0 ≤ i < NUM ∧ free (dk w) i = true).
Context (Hf1 : ∀ i, free d1 i = negb (bool_decide (i ∈ idxs r)) && free (dk w) i).
Context (Hd1 : desc d1 = desc (dk w)) (Hr1 : rest d1 = rest (dk w)) (Hw1 : woken d1 = woken (dk w)).

Lemma add_new i : i ∈ idxs r → i ∉ all_idx R.
Proof.
  intros Hi Hin. destruct (Hidx i Hi) as [Hrg Hfr]. rewrite (i_free _ _ HC i Hrg) in Hfr.
  by apply bool_decide_eq_true in Hfr.
Qed.
Lemma add_pid x : x ∈ R → rp x ≠ rp r.
Proof.
  intros Hx E. destruct (i_reqs _ _ HC x Hx) as (t & Ht & Hfl). rewrite E, Hp in Ht.
  injection Ht as <-. by destruct Hfl.
Qed.
Lemma add_keeps x : x ∈ R → keeps (dk w) (formatted r d1) x ∧
  intact (dk w) (formatted r d1) (image w) (image w) x.
Proof.
  intros Hx. destruct (rest_inv _ _ Hr1) as (E1 & E2 & E3 & E4 & E5 & E6 & E7 & E8 & E9).
  destruct (in_idxs r) as (I0 & I1 & I2), (in_idxs x) as (J0 & J1 & J2).
  assert (∀ i j, i ∈ idxs x → j ∈ idxs r → j ≠ i) as Hne.
  { intros i j Hi Hj ->. by eapply (add_new i Hj), idx_of. }
  assert (rb r ≠ rb x) as Hb.
  { destruct (core_caller w R x _ _ HC Hx Hp (add_pid x Hx)) as [Hb _]. simpl in Hb. congruence. }
  assert (bufs (formatted r d1) (rb x) = bufs (dk w) (rb x)) as Ebuf.
  { simpl. by rewrite fn_lookup_insert_ne, E9. }
  unfold keeps, intact. rewrite Ebuf. simpl. rewrite !fn_lookup_insert_ne, E6, E7, E8 by (by apply Hne).
  split_and!; try done. intros i Hi. rewrite !fn_lookup_insert_ne by (by apply Hne). by rewrite Hd1.
Qed.
Lemma add_chain : 0 ≤ blockno (bufs (dk w) (rb r)) < 2 ^ 31 → chain_ok (formatted r d1) r.
Proof.
  intros Hb. destruct (rest_inv _ _ Hr1) as (E1 & E2 & E3 & E4 & E5 & E6 & E7 & E8 & E9).
  unfold idxs in Hnd. apply list.NoDup_cons in Hnd as [H0 Hnd']. apply list.NoDup_cons in Hnd' as [H1 _].
  rewrite elem_of_cons, list_elem_of_singleton in H0. rewrite list_elem_of_singleton in H1.
  assert (r2 r ≠ r0 r ∧ r1 r ≠ r0 r ∧ r2 r ≠ r1 r) as (D20 & D10 & D21) by (clear -H0 H1; naive_solver).
  unfold chain_ok, secs. simpl. rewrite !fn_lookup_insert, E9. split_and!; try done.
  - rewrite !fn_lookup_insert_ne by done. by rewrite fn_lookup_insert.
  - rewrite fn_lookup_insert_ne by done. by rewrite fn_lookup_insert.
  - f_equal. simpl. unfold BSIZE. change (1024 `div` 512) with 2. rewrite u32_small; lia.
Qed.
Lemma add_todo : todo (formatted r d1) (image w) r.
Proof.
  destruct (rest_inv _ _ Hr1) as (E1 & E2 & E3 & E4 & E5 & E6 & E7 & E8 & E9).
  destruct (i_threads _ _ HC _ _ Hp) as [Hok _]. simpl in Hok.
  split; [simpl; by rewrite fn_lookup_insert|]. unfold before, secs in *. simpl.
  by rewrite fn_lookup_insert, E9.
Qed.
Lemma add_core da acc :
  core (mk_world (quiet (formatted r d1)) (image w) da acc
    (<[rp r := Waiting (rb r) (rw r) (ro r) (r0 r)]> (threads w))) (r :: R).
Proof.
  destruct (rest_inv _ _ Hr1) as (E1 & E2 & E3 & E4 & E5 & E6 & E7 & E8 & E9).
  assert (all_idx (r :: R) = idxs r ++ all_idx R) as Hai by done.
  assert (∀ x, blockno (bufs (quiet (formatted r d1)) x) = blockno (bufs (dk w) x)) as Hbn.
  { intros x. simpl. destruct (decide (rb r = x)) as [->|]; [by rewrite fn_lookup_insert, E9|].
    by rewrite fn_lookup_insert_ne, E9. }
  constructor; cbn [dk image dev_avail accepted threads].
  - rewrite Hai. apply list.NoDup_app. split_and!; [done|apply add_new|apply (i_nodup _ _ HC)].
  - rewrite Hai. intros i [Hi|Hi]%elem_of_app; [by apply Hidx|by apply (i_range _ _ HC)].
  - intros i Hi. cbn [free quiet set_woken formatted]. rewrite Hf1, (i_free _ _ HC i Hi), Hai, <- bool_decide_not, <- bool_decide_and.
    apply bool_decide_ext. rewrite not_elem_of_app. done.
  - constructor; [by apply add_chain; destruct (i_threads _ _ HC _ _ Hp)|].
    eapply Forall_in; [apply (i_chain _ _ HC)|]. intros x Hx. apply keeps_chain. by apply add_keeps.
  - intros q t Hq. apply lookup_insert_Some in Hq as [[<- <-]|[Hn Hq]].
    + split; [exists r; split_and!; [by left|done|by left]|]. cbn [buf_of]. rewrite Hbn.
      by destruct (i_threads _ _ HC _ _ Hp).
    + destruct (i_threads _ _ HC q t Hq) as [Hok Hbl]. rewrite Hbn. split; [|done].
      assert (bufs (quiet (formatted r d1)) (buf_of t) = bufs (dk w) (buf_of t)) as Hb.
      { destruct (i_distinct _ _ HC _ _ _ _ Hn Hp Hq) as [Hb _]. simpl in Hb. simpl.
        by rewrite fn_lookup_insert_ne, E9. }
      apply (thread_keeps _ (quiet (formatted r d1)) _ (image w)) in Hok; [|done|done].
      destruct t; simpl in *; try done; (destruct Hok as (x & Hx & Hok); exists x; split; [by right|done]).
  - intros x [->|Hx]%elem_of_cons; [eexists; split; [by rewrite lookup_insert_eq|by left]|].
    destruct (i_reqs _ _ HC x Hx) as (t & Ht & Hfl). exists t. split; [|done].
    rewrite lookup_insert_ne; [done|]. intros E. by apply (add_pid x Hx).
  - rewrite fmap_cons. apply list.NoDup_cons. split; [|apply (i_pids _ _ HC)].
    intros (x & E & Hx)%list_elem_of_fmap. by apply (add_pid x Hx).
  - intros q q' t t' Hn Hq Hq'. rewrite !Hbn.
    assert (∀ x v, <[rp r:=Waiting (rb r) (rw r) (ro r) (r0 r)]> (threads w) !! x = Some v →
      ∃ v0, threads w !! x = Some v0 ∧ buf_of v = buf_of v0) as Hs.
    { intros x v [[<- <-]|[_ Hv]]%lookup_insert_Some; [by eexists|by exists v]. }
    destruct (Hs q t Hq) as (v & Hv & ->), (Hs q' t' Hq') as (v' & Hv' & ->).
    by apply (i_distinct _ _ HC q q').
  - done.
  - done.
Qed.
End add.

Lemma inv_try w p b write old i0 d : inv w → threads w !! p = Some (Calling b write old) →
  rw_start b write (dk w) = Ok (Some i0, d) →
  inv (mk_world (quiet d) (image w) (dev_avail w) (accepted w)
    (<[p := Waiting b write old i0]> (awake d (threads w)))).
Proof.
  intros (RA & RB & RU & RD & HC & HS) Hp E.
  destruct (rw_start_some p b write old _ _ _ E) as
    (r & d1 & <- & <- & <- & <- & <- & Hnd & Hidx & Hf1 & Hd1 & Hr1 & Hw1 & ->).
  assert (awake (formatted r d1) (threads w) = threads w) as ->.
  { unfold awake. simpl. rewrite Hw1, (i_woken _ _ HC). apply wake_nil. }
  exists (RA ++ [r]), RB, RU, RD. split.
  - eapply core_perm; [|by apply (add_core w _ r d1 HC)].
    rewrite <- !(assoc_L (++)). apply Permutation_middle.
  - destruct HS as [H1 H2 H3 H4 H5 H6 H7 H8 H9].
    pose proof (core_two _ _ (add_core w _ r d1 HC Hp Hnd Hidx Hf1 Hd1 Hr1 0 [])) as Htwo.
    simpl in Htwo. rewrite !length_app in Htwo.
    destruct (stages_frame (dk w) (formatted r d1) (image w) (image w) RA RB RU RD) as (S1 & S2 & S3); try done.
    { intros x Hx. by apply (add_keeps w _ r d1 HC Hp Hidx Hd1 Hr1). }
    pose proof (add_todo w _ r d1 HC Hp Hr1) as Htd.
    destruct (rest_inv _ _ Hr1) as (E1 & E2 & E3 & E4 & E5 & E6 & E7 & E8 & E9).
    constructor; simpl; try congruence; try exact S2; try exact S3.
    + apply Forall_app in S1 as [SA SB]. by rewrite !Forall_app, Forall_singleton.
    + rewrite E2, H4, length_app, Nat2Z.inj_add. unfold u16. rewrite Zplus_mod_idemp_l. f_equal. simpl. lia.
    + rewrite E1. apply ring_has_snoc; [congruence|lia|done].
    + by rewrite E3, E5.
Qed.

(** ** The end of a request *)

Lemma freed_snoc idx i d d1 d2 : freed idx d d1 → freed [i] d1 d2 → freed (i :: idx) d d2.
Proof.
  intros (Hf1 & Hd1 & Hr1 & Hw1) (Hf2 & Hd2 & Hr2 & Hw2). split_and!.
  - intros j. rewrite Hf2, Hf1, orb_assoc. f_equal. rewrite <- bool_decide_or. apply bool_decide_ext.
    rewrite !elem_of_cons. pose proof (not_elem_of_nil j). naive_solver.
  - intros j [Hn Hj]%not_elem_of_cons. rewrite Hd2 by (by rewrite list_elem_of_singleton). by apply Hd1.
  - congruence.
  - rewrite Hw2, Hw1, <- (assoc_L (++)). f_equal. simpl. by rewrite <- replicate_cons_app.
Qed.
Definition chain_descs (d : disk) (r : rq) : Prop :=
  desc d (r0 r) = mk_desc (Ops (r0 r)) 16 VRING_DESC_F_NEXT (r1 r) ∧
  desc d (r1 r) = mk_desc (Data (rb r)) BSIZE
    (Z.lor (if rw r then 0 else VRING_DESC_F_WRITE) VRING_DESC_F_NEXT) (r2 r) ∧
  desc d (r2 r) = mk_desc (Status (r0 r)) 1 VRING_DESC_F_WRITE 0.
Lemma free_chain_ok r d : chain_descs d r → NoDup (idxs r) →
  (∀ i, i ∈ idxs r → 0 ≤ i < NUM ∧ free d i = false) →
  ∃ d', free_chain 3 (r0 r) d = Ok (tt, d') ∧ freed [r2 r; r1 r; r0 r] d d'.
Proof.
  intros (E0 & E1 & E2) Hnd Hi. destruct (in_idxs r) as (I0 & I1 & I2).
  apply list.NoDup_cons in Hnd as [N0 Hnd]. apply list.NoDup_cons in Hnd as [N1 _].
  rewrite elem_of_cons, list_elem_of_singleton in N0. rewrite list_elem_of_singleton in N1.
  destruct (free_desc_ok (r0 r) d) as (d1 & F1 & G1); [by apply Hi..|].
  destruct (free_desc_ok (r1 r) d1) as (d2 & F2 & G2).
  { by apply Hi. } { rewrite (proj1 G1), bool_decide_eq_false_2; [by apply Hi|]. rewrite list_elem_of_singleton. naive_solver. }
  pose proof (freed_snoc _ _ _ _ _ G1 G2) as G12.
  destruct (free_desc_ok (r2 r) d2) as (d3 & F3 & G3).
  { by apply Hi. } { rewrite (proj1 G12), bool_decide_eq_false_2; [by apply Hi|]. rewrite elem_of_cons, list_elem_of_singleton. naive_solver. }
  exists d3. split; [|by apply (freed_snoc _ _ _ d2)].
  cbn [free_chain]. rewrite (bind_Ok _ _ _ _ _ (chk_ok _ _ (proj1 (Hi _ I0)))). prog_run. rewrite E0.
  rewrite (bind_Ok _ _ _ _ _ F1). cbn [flags next]. change (negb (Z.land VRING_DESC_F_NEXT VRING_DESC_F_NEXT =? 0)) with true.
  cbv iota. rewrite (bind_Ok _ _ _ _ _ (chk_ok _ _ (proj1 (Hi _ I1)))). prog_run.
  rewrite (proj1 (proj2 G1)), E1 by (rewrite list_elem_of_singleton; naive_solver).
  rewrite (bind_Ok _ _ _ _ _ F2). cbn [flags next].
  assert (negb (Z.land (Z.lor (if rw r then 0 else VRING_DESC_F_WRITE) VRING_DESC_F_NEXT) VRING_DESC_F_NEXT =? 0) = true)
    as -> by (by destruct (rw r)).
  rewrite (bind_Ok _ _ _ _ _ (chk_ok _ _ (proj1 (Hi _ I2)))). prog_run.
  rewrite (proj1 (proj2 G12)), E2 by (rewrite elem_of_cons, list_elem_of_singleton; naive_solver).
  rewrite (bind_Ok _ _ _ _ _ F3). done.
Qed.
Lemma core_allocated w R r : core w R → r ∈ R → NoDup (idxs r) ∧
  ∀ i, i ∈ idxs r → 0 ≤ i < NUM ∧ free (dk w) i = false.
Proof.
  intros HC Hr. split.
  - apply elem_of_Permutation in Hr as [R1 HP].
    pose proof (i_nodup _ _ (core_perm _ _ _ HP HC)) as Hnd. unfold all_idx in Hnd.
    rewrite fmap_cons in Hnd. cbn [concat] in Hnd. by apply list.NoDup_app in Hnd as (? & _).
  - intros i Hi. pose proof (idx_of R r i Hr Hi) as Hin. pose proof (i_range _ _ HC i Hin) as Hrg.
    split; [done|]. rewrite (i_free _ _ HC i Hrg). apply bool_decide_eq_false_2. naive_solver.
Qed.
Lemma rw_finish_ok w R r : core w R → r ∈ R →
  ∃ d1 d', rw_finish (r0 r) (dk w) = Ok (tt, d') ∧ freed [r2 r; r1 r; r0 r] d1 d' ∧
    d1 = set_info (<[r0 r := None]> (info_b (dk w))) (info_status (dk w)) (dk w).
Proof.
  intros HC Hr. destruct (core_allocated w R r HC Hr) as [Hnd Hi]. destruct (in_idxs r) as (I0 & _).
  set (d1 := set_info (<[r0 r := None]> (info_b (dk w))) (info_status (dk w)) (dk w)).
  pose proof (i_chain _ _ HC) as Hch. apply (list.Forall_forall (chain_ok (dk w)) R) with (x := r) in Hch; [|done].
  destruct (free_chain_ok r d1) as (d' & E & F); [|done|done|].
  { by destruct Hch as (? & ? & ? & _). }
  exists d1, d'. split; [|done]. unfold rw_finish.
  rewrite (bind_Ok _ _ _ _ _ (chk_ok _ _ (proj1 (Hi _ I0)))). exact E.
Qed.

Section remove.
Context (w : world) (R : list rq) (r : rq) (d' : disk).
Context (HC : core w (r :: R)).
Context (HF : freed [r2 r; r1 r; r0 r] (set_info (<[r0 r := None]> (info_b (dk w))) (info_status (dk w)) (dk w)) d').

Lemma remove_mem i : i ∈ [r2 r; r1 r; r0 r] ↔ i ∈ idxs r.
Proof. unfold idxs. rewrite !elem_of_cons. pose proof (not_elem_of_nil i). tauto. Qed.
Lemma remove_disjoint i : i ∈ idxs r → i ∉ all_idx R.
Proof.
  pose proof (i_nodup _ _ HC) as Hnd. unfold all_idx in Hnd. rewrite fmap_cons in Hnd. cbn [concat] in Hnd.
  apply list.NoDup_app in Hnd as (_ & Hd & _). apply Hd.
Qed.
Lemma remove_pid x : x ∈ R → rp x ≠ rp r.
Proof.
  pose proof (i_pids _ _ HC) as Hnd. rewrite fmap_cons in Hnd. apply list.NoDup_cons in Hnd as [Hn _].
  intros Hx E. apply Hn. rewrite <- E. by apply list_elem_of_fmap_2.
Qed.
Lemma remove_keeps x : x ∈ R → keeps (dk w) (quiet d') x ∧ intact (dk w) (quiet d') (image w) (image w) x.
Proof.
  intros Hx. destruct HF as (_ & Hd & Hr & _). destruct (rest_inv _ _ Hr) as (E1 & E2 & E3 & E4 & E5 & E6 & E7 & E8 & E9).
  assert (∀ i, i ∈ idxs x → i ∉ idxs r) as Hne.
  { intros i Hi Hi'. by eapply (remove_disjoint i Hi'), idx_of. }
  unfold keeps, intact. simpl. rewrite E6, E7, E8, E9. simpl. split_and!; try done.
  - intros i Hi. rewrite Hd; [done|]. rewrite remove_mem. by apply Hne.
  - rewrite fn_lookup_insert_ne; [done|]. intros E. apply (Hne (r0 x)); [apply in_idxs|].
    rewrite <- E. apply in_idxs.
Qed.
Lemma remove_core da acc :
  core (mk_world (quiet d') (image w) da acc (awake d' (delete (rp r) (threads w)))) R.
Proof.
  pose proof HF as (Hfr & _ & Hr & Hwk). destruct (rest_inv _ _ Hr) as (_ & _ & _ & _ & _ & _ & _ & _ & E9). simpl in E9.
  assert (all_idx (r :: R) = idxs r ++ all_idx R) as Hai by done.
  assert (∀ q t', awake d' (delete (rp r) (threads w)) !! q = Some t' →
    ∃ t, q ≠ rp r ∧ threads w !! q = Some t ∧ t' = wake (woken d') t) as Hs.
  { intros q t' (t & Ht & ->)%awake_some. apply lookup_delete_Some in Ht as [Hn Ht]. by exists t. }
  constructor; cbn [dk image dev_avail accepted threads].
  - pose proof (i_nodup _ _ HC) as Hnd. rewrite Hai in Hnd. by apply list.NoDup_app in Hnd as (_ & _ & ?).
  - intros i Hi. apply (i_range _ _ HC). rewrite Hai. apply elem_of_app. by right.
  - intros i Hi. cbn [free quiet set_woken]. rewrite Hfr. cbn [free set_info]. rewrite (i_free _ _ HC i Hi), Hai, <- bool_decide_or.
    apply bool_decide_ext. rewrite remove_mem, not_elem_of_app. pose proof (remove_disjoint i).
    destruct (decide (i ∈ idxs r)); tauto.
  - pose proof (i_chain _ _ HC) as Hch. apply list.Forall_cons in Hch as [_ Hch].
    eapply Forall_in; [done|]. intros x Hx. apply keeps_chain. by apply remove_keeps.
  - intros q t' Hq. destruct (Hs q t' Hq) as (t & Hn & Ht & ->).
    destruct (i_threads _ _ HC q t Ht) as [Hok Hb]. rewrite wake_buf. cbn [bufs quiet set_woken]. rewrite E9.
    split; [|done]. apply wake_ok.
    apply (thread_keeps _ (quiet d') _ (image w)) in Hok; [|simpl; by rewrite E9|done].
    destruct t; simpl in *; try done;
      (destruct Hok as (x & [->|Hx]%elem_of_cons & Hp & Hok); [done|exists x; split; [done|split; [done|exact Hok]]]).
  - intros x Hx. destruct (i_reqs _ _ HC x) as (t & Ht & Hfl); [by right|]. exists (wake (woken d') t).
    unfold awake. rewrite lookup_fmap, lookup_delete_ne, Ht; [|pose proof (remove_pid x Hx); congruence].
    split; [done|by apply wake_inflight].
  - pose proof (i_pids _ _ HC) as Hnd. rewrite fmap_cons in Hnd. by apply list.NoDup_cons in Hnd as [_ ?].
  - intros q q' t t' Hn Hq Hq'. destruct (Hs q t Hq) as (u & _ & Hu & ->), (Hs q' t' Hq') as (u' & _ & Hu' & ->).
    rewrite !wake_buf. cbn [bufs quiet set_woken]. rewrite E9. by apply (i_distinct _ _ HC q q').
  - done.
  - intros (q & b & wr & o & Hq). exfalso. destruct (Hs _ _ Hq) as (t & _ & _ & E).
    assert (ChFree ∈ woken d') as Hin.
    { rewrite Hwk. apply elem_of_app. right. by left. }
    destruct t; simpl in E; try case_bool_decide; try discriminate. done.
Qed.
End remove.

(** The request of a process that does not have to wait is finished. *)
Lemma finished_in w RA RB RU RD r : stages w RA RB RU RD → r ∈ RA ++ RB ++ RU ++ RD →
  disk_ (bufs (dk w) (rb r)) ≠ 1 → r ∈ RD.
Proof.
  intros HS Hr Hd. rewrite (assoc_L (++)) in Hr. apply elem_of_app in Hr as [Hr|Hr].
  - destruct Hd. pose proof (i_todo _ _ _ _ _ HS) as H.
    by apply (list.Forall_forall _ _) with (x := r) in H as [? _].
  - apply elem_of_app in Hr as [Hr|Hr]; [|done]. destruct Hd. pose proof (i_used _ _ _ _ _ HS) as H.
    by apply (list.Forall_forall _ _) with (x := r) in H as (_ & ? & _).
Qed.
Lemma inv_return w p b write old i0 d : inv w → threads w !! p = Some (Waiting b write old i0) →
  rw_wait b (dk w) = Ok (false, dk w) → rw_finish i0 (dk w) = Ok (tt, d) →
  inv (mk_world (quiet d) (image w) (dev_avail w) (accepted w) (awake d (delete p (threads w)))).
Proof.
  intros (RA & RB & RU & RD & HC & HS) Hp Hw Hfin. injection Hw as Hd. apply Z.eqb_neq in Hd.
  destruct (i_threads _ _ HC p _ Hp) as [(r & Hr & <- & [[= -> -> -> ->]|[=]]) _].
  destruct (rw_finish_ok w _ r HC Hr) as (d1 & d2 & E & HF & ->). rewrite Hfin in E. injection E as <-.
  pose proof (finished_in w RA RB RU RD r HS Hr Hd) as HD.
  apply list_elem_of_split in HD as (D1 & D2 & ->).
  exists RA, RB, RU, (D1 ++ D2).
  assert (RA ++ RB ++ RU ++ D1 ++ r :: D2 ≡ₚ r :: (RA ++ RB ++ RU ++ D1 ++ D2)) as HP.
  { rewrite <- Permutation_middle, !Permutation_middle. done. }
  pose proof (core_perm _ _ _ HP HC) as HC'. split; [by apply remove_core|].
  destruct HS as [H1 H2 H3 H4 H5 H6 H7 H8 H9].
  apply Forall_app in H3 as [H3 [_ H3']%list.Forall_cons].
  destruct (stages_frame (dk w) (quiet d) (image w) (image w) RA RB RU (D1 ++ D2)) as (S1 & S2 & S3); try done.
  { intros x Hx. by apply (remove_keeps w _ r d HC'). }
  { by apply Forall_app. }
  destruct HF as (_ & _ & Hre & _). destruct (rest_inv _ _ Hre) as (E1 & E2 & E3 & E4 & E5 & _).
  constructor; simpl; try done.
  - by rewrite E2.
  - by rewrite E1.
  - by rewrite E4, E5.
  - by rewrite E3, E5.
  - by rewrite E5.
Qed.

End VirtioProofs.
