(* ===== verification/VirtioProps.v ===== *)
(** * What the disk driver promises

    The interrupt handler and the device keep the invariant; so requests are
    carried out exactly once, the driver never panics, and no process sleeps
    for ever on a channel that nobody wakes. *)

From S2P Require Import Prelude Virtio VirtioProofs.

Module VirtioProps.
Import Virtio VirtioProofs.

(** ** The interrupt *)

Definition bufs_done (RU : list rq) (bs : nat → buf) : nat → buf :=
  foldl (λ bs r, <[rb r := set_bdisk 0 (bs (rb r))]> bs) bs RU.
Definition intr_done (RU : list rq) (d : disk) : disk :=
  mk_disk (desc d) (avail_ring d) (avail_idx d) (used_ring d) (used_dev_idx d) (free d) (used_dev_idx d)
    (info_b d) (info_status d) (ops d) (bufs_done RU (bufs d)) (woken d ++ ((ChBuf ∘ rb) <$> RU)).

Lemma bufs_done_spec RU bs x : blockno (bufs_done RU bs x) = blockno (bs x) ∧
  data (bufs_done RU bs x) = data (bs x) ∧
  (x ∈ rb <$> RU → disk_ (bufs_done RU bs x) = 0) ∧ (x ∉ rb <$> RU → bufs_done RU bs x = bs x).
Proof.
  revert bs. induction RU as [|r RU IH]; intros bs.
  { split_and!; try done. intros H. by apply not_elem_of_nil in H. }
  unfold bufs_done. cbn [foldl]. fold (bufs_done RU (<[rb r := set_bdisk 0 (bs (rb r))]> bs)).
  destruct (IH (<[rb r := set_bdisk 0 (bs (rb r))]> bs)) as (H1 & H2 & H3 & H4).
  rewrite H1, H2, fmap_cons.
  destruct (decide (rb r = x)) as [<-|Hn].
  - rewrite fn_lookup_insert. split_and!; [done..| |].
    + intros _. destruct (decide (rb r ∈ rb <$> RU)); [by apply H3|].
      rewrite H4 by done. by rewrite fn_lookup_insert.
    + intros Hx. destruct Hx. by left.
  - rewrite fn_lookup_insert_ne by done. split_and!; [done..| |].
    + intros [->|Hx]%elem_of_cons; [done|by apply H3].
    + intros [_ Hx]%not_elem_of_cons. rewrite H4 by done. by rewrite fn_lookup_insert_ne.
Qed.

Lemma idx_ne i n : 0 ≤ i < 2 ^ 16 → (0 < n < 2 ^ 16) → u16 (i + n) ≠ i.
Proof.
  intros Hi Hn E. unfold u16 in E. pose proof (Z.div_mod (i + n) (2 ^ 16) ltac:(lia)). rewrite E in *.
  assert (0 ≤ (i + n) `div` 2 ^ 16 < 2); [split; [apply Z.div_pos; lia|apply Z.div_lt_upper_bound; lia]|]. lia.
Qed.

Lemma intr_loop_ok RU : ∀ fuel d, (length RU ≤ fuel)%nat → (length RU < 8)%nat →
  0 ≤ used_idx d < 2 ^ 16 → used_dev_idx d = u16 (used_idx d + Z.of_nat (length RU)) →
  ring_has (used_ring d) (used_idx d) RU →
  (∀ r, r ∈ RU → 0 ≤ r0 r < NUM ∧ info_status d (r0 r) = 0 ∧ info_b d (r0 r) = Some (rb r)) →
  intr_loop fuel d = Ok (tt, intr_done RU d).
Proof.
  induction RU as [|r RU IH]; intros fuel d Hf Hl Hu He Hring Hr.
  - simpl in He. rewrite Z.add_0_r in He. unfold u16 in He. rewrite Z.mod_small in He by lia.
    assert (intr_done [] d = d) as ->.
    { unfold intr_done, bufs_done. simpl. rewrite (right_id_L [] (++)). destruct d. simpl in *. by subst. }
    destruct fuel; cbn [intr_loop]; prog_run; by rewrite He, Z.eqb_refl.
  - simpl in Hf, Hl. destruct fuel as [|fuel]; [lia|]. cbn [intr_loop]. prog_run.
    assert (used_idx d ≠ used_dev_idx d) as Hne.
    { rewrite He. intros E. symmetry in E. revert E. apply idx_ne; [done|]. simpl. lia. }
    rewrite (proj2 (Z.eqb_neq _ _) Hne).
    pose proof (Hring O r eq_refl) as E0. simpl in E0. rewrite Z.add_0_r in E0. rewrite E0.
    destruct (Hr r ltac:(by left)) as (Hrg & Hst & Hb).
    rewrite (bind_Ok _ _ _ _ _ (chk_ok _ _ Hrg)), Hst, Hb. cbn [negb Z.eqb].
    unfold wakeup. prog_run. rewrite IH.
    + unfold intr_done, bufs_done. simpl. by rewrite <- (assoc_L (++)).
    + lia.
    + lia.
    + simpl. apply Z.mod_pos_bound. lia.
    + simpl. rewrite He. unfold u16. rewrite Zplus_mod_idemp_l. f_equal. simpl. lia.
    + simpl. by apply ring_has_tail in Hring.
    + intros x Hx. apply Hr. by right.
Qed.

Lemma inv_intr_ok w : inv w → ∃ d, virtio_disk_intr (dk w) = Ok (tt, d) ∧
  inv (mk_world (quiet d) (image w) (dev_avail w) (accepted w) (awake d (threads w))).
Proof.
  intros (RA & RB & RU & RD & HC & HS). pose proof (core_two _ _ HC) as Htwo. rewrite !length_app in Htwo.
  pose proof HS as [H1 H2 H3 H4 H5 H6 H7 H8 H9].
  assert (∀ r, r ∈ RU → r ∈ RA ++ RB ++ RU ++ RD) as HinU by (intros r Hr; rewrite !elem_of_app; naive_solver).
  exists (intr_done RU (dk w)). split.
  { unfold virtio_disk_intr. change (Z.to_nat NUM) with 8%nat. apply intr_loop_ok; [lia|lia|by apply H9|done|done|]. intros r Hr. split; [|split].
    - apply (i_range _ _ HC). eapply idx_of; [by apply HinU|apply in_idxs].
    - by destruct (Forall_at _ _ r H2 Hr) as (? & _).
    - by destruct (Forall_at _ _ r (i_chain _ _ HC) (HinU r Hr)) as (_ & _ & _ & _ & ?). }
  exists RA, RB, [], (RD ++ RU).
  set (d' := quiet (intr_done RU (dk w))).
  assert (∀ x, blockno (bufs d' x) = blockno (bufs (dk w) x) ∧ data (bufs d' x) = data (bufs (dk w) x) ∧
    (x ∈ rb <$> RU → disk_ (bufs d' x) = 0) ∧ (x ∉ rb <$> RU → bufs d' x = bufs (dk w) x)) as Hb
    by (intros x; apply bufs_done_spec).
  assert (∀ x im write old, before (dk w) im x write old → before d' im x write old) as Hbef.
  { intros x im write old. unfold before, secs. destruct (Hb x) as (-> & -> & _). done. }
  assert (∀ x im old, after (dk w) im x old → after d' im x old) as Haft.
  { intros x im old. unfold after, secs. destruct (Hb x) as (-> & -> & _). done. }
  split.
  - apply (core_perm _ (RA ++ RB ++ RU ++ RD)); [simpl; by rewrite (Permutation_app_comm RD RU)|].
    apply core_state; try done.
    + intros p t Ht. destruct (Hb (buf_of t)) as (Hbn & Hda & Hin & Hout). split; [done|].
      intros Hok. destruct t as [b wr o|b wr o|b wr o i|b wr o i]; simpl in *.
      * by apply Hbef.
      * case_bool_decide; by apply Hbef.
      * done.
      * destruct Hok as (r & Hr & Hp & Hfl & Hd). rewrite (i_woken _ _ HC). simpl.
        case_bool_decide as Hw.
        -- exists r. split_and!; [done..|]. destruct Hfl as [[=]|[= -> -> -> ->]]. by left.
        -- exists r. split_and!; [done..|]. assert (b ∉ rb <$> RU) as Hx.
           { intros (x & -> & Hx)%list_elem_of_fmap. by apply Hw, (list_elem_of_fmap_2 (ChBuf ∘ rb)). }
           exact (eq_trans (f_equal disk_ (Hout Hx)) Hd).
    + eapply Forall_in; [apply (i_chain _ _ HC)|]. intros r Hr. unfold chain_ok, secs.
      destruct (Hb (rb r)) as (-> & _). done.
  - assert (∀ r, r ∈ RA ++ RB ++ RD → bufs d' (rb r) = bufs (dk w) (rb r)) as Hother.
    { intros r Hr. apply Hb. intros (x & E & Hx)%list_elem_of_fmap.
      assert (r ∈ RA ++ RB ++ RU ++ RD) as HrR by (rewrite !elem_of_app in *; naive_solver).
      destruct (decide (r = x)) as [<-|Hn]; [|by destruct (core_bufs w _ r x HC HrR (HinU x Hx) Hn)].
      pose proof (i_nodup _ _ HC) as Hnd.
      assert (r ∈ RD ∨ r ∈ RA ++ RB) as [HrD|HrA] by (rewrite !elem_of_app in *; naive_solver).
      - destruct (Forall_at _ _ r H3 HrD) as [Hz _], (Forall_at _ _ r H2 Hx) as (_ & Ho & _). congruence.
      - apply elem_of_Permutation in Hx as [RU' HPU]. apply elem_of_Permutation in HrA as [RA' HPA].
        assert (RA ++ RB ++ RU ++ RD ≡ₚ r :: r :: RA' ++ RU' ++ RD) as HP.
        { rewrite (assoc_L (++)), HPA, HPU. simpl. by rewrite <- Permutation_middle. }
        pose proof (i_pids _ _ HC) as Hpn. rewrite HP, !fmap_cons in Hpn.
        apply list.NoDup_cons in Hpn as [Hpn _]. apply Hpn. by left. }
    constructor; simpl; try done.
    + eapply Forall_in; [done|]. intros r Hr [Hd Hbe]. split; [|by apply Hbef].
      rewrite Hother; [done|]. rewrite !elem_of_app in *. naive_solver.
    + apply Forall_app. split.
      * eapply Forall_in; [done|]. intros r Hr [Hd Ha]. split; [|by apply Haft].
        rewrite Hother; [done|]. rewrite !elem_of_app. naive_solver.
      * eapply Forall_in; [done|]. intros r Hr (_ & Hd & Ha). split; [|by apply Haft].
        apply Hb. by apply list_elem_of_fmap_2.
    + rewrite H7. unfold u16. rewrite Zplus_0_r, Zmod_mod. done.
    + split; [by apply H9|]. rewrite H7. apply Z.mod_pos_bound. lia.
Qed.

(** ** The device *)

Lemma inv_dev_take w : inv w → dev_avail w ≠ avail_idx (dk w) →
  inv (mk_world (dk w) (image w) (u16 (dev_avail w + 1))
    (accepted w ++ [avail_ring (dk w) (dev_avail w `mod` NUM)]) (threads w)).
Proof.
  intros (RA & RB & RU & RD & HC & HS) Hne. pose proof HS as [H1 H2 H3 H4 H5 H6 H7 H8 H9].
  destruct RA as [|r RA].
  { destruct Hne. rewrite H4. unfold u16. simpl. rewrite Z.add_0_r, Z.mod_small; [done|apply H9]. }
  pose proof (H5 O r eq_refl) as E0. simpl in E0. rewrite Z.add_0_r in E0. rewrite E0.
  exists RA, (RB ++ [r]), RU, RD.
  assert ((r :: RA) ++ RB ++ RU ++ RD ≡ₚ RA ++ (RB ++ [r]) ++ RU ++ RD) as HP.
  { rewrite <- (assoc_L (++) RB). simpl. rewrite Permutation_middle. f_equiv. apply Permutation_middle. }
  split.
  - apply (core_perm _ _ _ HP). destruct HC. by constructor.
  - constructor; simpl; try done.
    + rewrite (assoc_L (++)), <- Permutation_cons_append. done.
    + rewrite H4. unfold u16. rewrite Zplus_mod_idemp_l. f_equal. simpl. lia.
    + by apply ring_has_tail in H5.
    + by rewrite H6, fmap_app.
    + split; [apply Z.mod_pos_bound; lia|apply H9].
Qed.

(** Blocks do not overlap. *)
Lemma blk_same s v im : blk (set_blk s v im) s = v.
Proof.
  unfold blk, set_blk. rewrite fn_lookup_insert, fn_lookup_insert_ne, fn_lookup_insert by lia.
  apply take_drop.
Qed.
Lemma blk_other n m v im : n ≠ m → blk (set_blk (2 * n) v im) (2 * m) = blk im (2 * m).
Proof. intros H. unfold blk, set_blk. by rewrite !fn_lookup_insert_ne by lia. Qed.

(** The effect of a chain on the disk and on its buffer. *)
Definition im_done (r : rq) (d : disk) (im : Z → list Z) : Z → list Z :=
  if rw r then set_blk (secs d (rb r)) (data (bufs d (rb r))) im else im.
Definition dev_done (r : rq) (d : disk) (im : Z → list Z) : disk :=
  mk_disk (desc d) (avail_ring d) (avail_idx d)
    (<[used_dev_idx d `mod` NUM := r0 r]> (used_ring d)) (u16 (used_dev_idx d + 1))
    (free d) (used_idx d) (info_b d) (<[r0 r := 0]> (info_status d)) (ops d)
    (if rw r then bufs d else <[rb r := set_data (blk im (secs d (rb r))) (bufs d (rb r))]> (bufs d)) (woken d).
Lemma dev_do_ok r d im : chain_ok d r → dev_do (r0 r) d im = Some (dev_done r d im, im_done r d im).
Proof.
  intros (E0 & E1 & E2 & Eo & _). unfold dev_do, dev_done, im_done. rewrite E0. cbn [addr next].
  rewrite E1. cbn [addr next]. rewrite E2. cbn [addr next flags]. rewrite Eo. cbn [type sector].
  by destruct (rw r).
Qed.
Lemma dev_done_buf r d im x : blockno (bufs (dev_done r d im) x) = blockno (bufs d x) ∧
  disk_ (bufs (dev_done r d im) x) = disk_ (bufs d x) ∧
  (x ≠ rb r → bufs (dev_done r d im) x = bufs d x).
Proof.
  unfold dev_done. simpl. destruct (rw r); [done|]. destruct (decide (rb r = x)) as [<-|Hn].
  - by rewrite fn_lookup_insert.
  - by rewrite fn_lookup_insert_ne.
Qed.
Lemma im_done_other r d im n : n ≠ blockno (bufs d (rb r)) → blk (im_done r d im) (2 * n) = blk im (2 * n).
Proof. intros Hn. unfold im_done, secs. destruct (rw r); [|done]. by apply blk_other. Qed.
Lemma dev_done_after r d im : before d im (rb r) (rw r) (ro r) →
  after (dev_done r d im) (im_done r d im) (rb r) (ro r).
Proof.
  unfold before, after, dev_done, im_done, secs. simpl. destruct (rw r); intros E.
  - split; [done|]. by rewrite blk_same.
  - by rewrite fn_lookup_insert.
Qed.

Lemma done_intact w R r x : core w R → r ∈ R → x ∈ R → r ≠ x →
  intact (dk w) (dev_done r (dk w) (image w)) (image w) (im_done r (dk w) (image w)) x.
Proof.
  intros HC Hr Hx Hn. destruct (core_bufs w R r x HC Hr Hx Hn) as [Hb Hbl]. split_and!.
  - apply dev_done_buf. congruence.
  - simpl. rewrite fn_lookup_insert_ne; [done|]. intros E.
    apply (core_disjoint w R r x (r0 r) HC Hr Hx Hn); [apply in_idxs|rewrite E; apply in_idxs].
  - apply im_done_other. congruence.
Qed.
Lemma inv_done w l1 h l2 : inv w → accepted w = l1 ++ h :: l2 →
  ∃ r d im, dev_do h (dk w) (image w) = Some (d, im) ∧ r0 r = h ∧
    d = dev_done r (dk w) (image w) ∧ im = im_done r (dk w) (image w) ∧
    inv (mk_world d im (dev_avail w) (l1 ++ l2) (threads w)).
Proof.
  intros (RA & RB & RU & RD & HC & HS) Hacc. pose proof HS as [H1 H2 H3 H4 H5 H6 H7 H8 H9].
  rewrite H6 in Hacc. apply fmap_app_inv in Hacc as (B1 & B2' & -> & E2 & ->). symmetry in E2.
  apply fmap_cons_inv in E2 as (r & B2 & -> & -> & ->).
  set (R := RA ++ (B1 ++ r :: B2) ++ RU ++ RD) in *.
  set (R' := RA ++ (B1 ++ B2) ++ (RU ++ [r]) ++ RD).
  assert (R ≡ₚ R') as HP.
  { unfold R, R'. rewrite <- !(assoc_L (++)). simpl. by rewrite !Permutation_middle. }
  assert (r ∈ R) as Hr by (unfold R; rewrite !elem_of_app, elem_of_cons; naive_solver).
  exists r, (dev_done r (dk w) (image w)), (im_done r (dk w) (image w)).
  split; [by apply dev_do_ok, (Forall_at _ _ r (i_chain _ _ HC))|]. do 3 (split; [done|]).
  pose proof (core_two _ _ HC) as Htwo. unfold R in Htwo. rewrite !length_app in Htwo. simpl in Htwo.
  assert (NoDup R) as HndR by (eapply NoDup_fmap_1, (i_pids _ _ HC)).
  assert (∀ x, x ∈ RA ++ (B1 ++ B2) ++ RU ++ RD → x ∈ R ∧ r ≠ x) as Hoth.
  { assert (R ≡ₚ r :: (RA ++ (B1 ++ B2) ++ RU ++ RD)) as HP2.
    { unfold R. rewrite <- !(assoc_L (++)). simpl. by rewrite !Permutation_middle. }
    intros x Hx. rewrite HP2 in HndR |- *. apply list.NoDup_cons in HndR as [Hn _].
    split; [by right|]. intros ->. done. }
  assert (∀ x, x ∈ RA ++ (B1 ++ B2) ++ RU ++ RD →
    intact (dk w) (dev_done r (dk w) (image w)) (image w) (im_done r (dk w) (image w)) x) as Hint.
  { intros x Hx. destruct (Hoth x Hx). by apply (done_intact w R). }
  assert (Forall (todo (dk w) (image w)) (RA ++ B1 ++ B2) ∧ todo (dk w) (image w) r) as [H1' [Hd Hbe]].
  { rewrite !Forall_app, list.Forall_cons in *. naive_solver. }
  exists RA, (B1 ++ B2), (RU ++ [r]), RD. split.
  - apply (core_perm _ R _ HP). rewrite <- (wake_nil (threads w)). apply core_state; try done.
    + intros p t Ht. destruct (dev_done_buf r (dk w) (image w) (buf_of t)) as (Hbn & Hdi & Hsame).
      split; [done|]. intros Hok. apply wake_ok.
      destruct (decide (rp r = p)) as [<-|Hn].
      * destruct (i_reqs _ _ HC r Hr) as (t' & Ht' & Hfl). rewrite Ht in Ht'. injection Ht' as <-.
        destruct Hfl as [->| ->]; simpl in *; [done|].
        destruct Hok as (x & Hx & Hp & Hfl & Hd1). exists x. split_and!; try done. by rewrite Hdi.
      * destruct (core_caller w R r p t HC Hr Ht Hn) as [Hb Hbl].
        apply (thread_keeps (dk w) _ (image w)); [apply Hsame; congruence| |done].
        apply im_done_other. congruence.
    + eapply Forall_in; [apply (i_chain _ _ HC)|]. intros x Hx. unfold chain_ok, secs.
      destruct (dev_done_buf r (dk w) (image w) (rb x)) as (-> & _). done.
    + apply HC.
  - destruct (stages_frame (dk w) (dev_done r (dk w) (image w)) (image w) (im_done r (dk w) (image w))
      RA (B1 ++ B2) RU RD) as (S1 & S2 & S3); try done.
    constructor; simpl; try done.
    + apply Forall_app. split; [done|]. apply Forall_singleton. split_and!.
      * simpl. by rewrite fn_lookup_insert.
      * by destruct (dev_done_buf r (dk w) (image w) (rb r)) as (_ & -> & _).
      * by apply dev_done_after.
    + by rewrite fmap_app.
    + rewrite H7, length_app, Nat2Z.inj_add. unfold u16. rewrite Zplus_mod_idemp_l. f_equal. simpl. lia.
    + apply ring_has_snoc; [done|lia|done].
Qed.

(** ** Reachable states *)

Lemma inv_start bs im : inv (start bs im).
Proof.
  exists [], [], [], []. split.
  - constructor; simpl; try done.
    + apply NoDup_nil_2.
    + intros i Hi. by apply not_elem_of_nil in Hi.
    + intros i Hi.
      by rewrite (proj2 (Z.leb_le 0 i)), (proj2 (Z.ltb_lt i NUM)) by lia.
    + intros r Hr. by apply not_elem_of_nil in Hr.
    + apply NoDup_nil_2.
    + by intros (p & b & wr & o & Hp).
  - by constructor.
Qed.
Lemma inv_step w w' : inv w → step w w' → inv w'.
Proof.
  intros HI [p b wr Hp Hu Hb|b v Hu|p b wr o i d Hp E|p b wr o d Hp E|p b wr o i Hp E|p b wr o i d Hp Ew E|d E|Hne|l1 h l2 d im Ha E].
  - by apply inv_call.
  - by apply inv_modify.
  - by apply inv_try.
  - by apply inv_try_sleep.
  - by apply inv_wait.
  - by eapply inv_return.
  - destruct (inv_intr_ok w HI) as (d' & E' & H). rewrite E in E'. by injection E' as <-.
  - by apply inv_dev_take.
  - destruct (inv_done w l1 h l2 HI Ha) as (r & d' & im' & E' & _ & _ & _ & H).
    rewrite E in E'. by injection E' as <- <-.
Qed.
Lemma reachable_inv bs im w : reachable bs im w → inv w.
Proof.
  intros H. unfold reachable in H. assert (inv (start bs im)) as HI by apply inv_start.
  induction H as [|x y z Hs _ IH]; [done|]. apply IH. by eapply inv_step.
Qed.

Lemma rw_start_total b write d : ∃ r d', rw_start b write d = Ok (r, d').
Proof.
  unfold rw_start.
  destruct (alloc3_ok d) as [(x & y & z & d1 & E & _ & Hi & _)|(idx & d1 & E & _)];
    rewrite (bind_Ok _ _ _ _ _ E); [|by eexists _, _].
  rewrite (bind_Ok _ _ _ _ _ (rw_format_ok (mk_rq 0 b write [] x y z) d1 (λ i Hin, proj1 (Hi i Hin)))).
  by eexists _, _.
Qed.
Lemma waiting_req w RA RB RU RD p b write old i0 : core w (RA ++ RB ++ RU ++ RD) → stages w RA RB RU RD →
  threads w !! p = Some (Waiting b write old i0) → disk_ (bufs (dk w) b) ≠ 1 →
  ∃ r, r ∈ RA ++ RB ++ RU ++ RD ∧ r0 r = i0 ∧ rb r = b ∧ ro r = old ∧ finished (dk w) (image w) r.
Proof.
  intros HC HS Hp Hd. destruct (i_threads _ _ HC p _ Hp) as [(r & Hr & _ & [[= -> -> -> ->]|[=]]) _].
  exists r. split_and!; try done. pose proof (finished_in w RA RB RU RD r HS Hr Hd) as HD.
  exact (Forall_at _ _ r (i_done _ _ _ _ _ HS) HD).
Qed.

(** A chain that the device works on is the request of a process. *)
Lemma accepted_req w l1 h l2 : inv w → accepted w = l1 ++ h :: l2 →
  ∃ r t, threads w !! rp r = Some t ∧ inflight t r ∧ (h = r0 r ∧ chain_ok (dk w) r) ∧
    before (dk w) (image w) (rb r) (rw r) (ro r).
Proof.
  intros (RA & RB & RU & RD & HC & HS) Ha. rewrite (i_accepted _ _ _ _ _ HS) in Ha.
  assert (h ∈ r0 <$> RB) as Hh by (rewrite Ha, elem_of_app, elem_of_cons; naive_solver).
  apply list_elem_of_fmap in Hh as (r & -> & Hr).
  assert (r ∈ RA ++ RB ++ RU ++ RD) as HrR by (rewrite !elem_of_app; naive_solver).
  destruct (i_reqs _ _ HC r HrR) as (t & Ht & Hfl). exists r, t. split_and!; try done.
  - by apply (Forall_at _ _ r (i_chain _ _ HC)).
  - apply (Forall_at _ _ r (i_todo _ _ _ _ _ HS)), elem_of_app. by right.
Qed.

(** The disk driver never panics and never touches memory outside its
    arrays, in every state that processes, interrupts and the device can reach
    together: a call finds its descriptors or sleeps, the interrupt handler
    finds the buffers of the requests the device has finished, with status 0,
    a finished request gives its three descriptors back, and every chain the
    device is given is well formed.  At most two requests are in the device. *)
Theorem virtio_safe bs im w : reachable bs im w →
  (∀ b write, ∃ r d, rw_start b write (dk w) = Ok (r, d)) ∧
  (∀ p b write old i0, threads w !! p = Some (Waiting b write old i0) →
    rw_wait b (dk w) = Ok (false, dk w) → ∃ d, rw_finish i0 (dk w) = Ok (tt, d)) ∧
  (∃ d, virtio_disk_intr (dk w) = Ok (tt, d)) ∧
  (∀ h, h ∈ accepted w → ∃ d im', dev_do h (dk w) (image w) = Some (d, im')) ∧
  (length (accepted w) ≤ 2)%nat.
Proof.
  intros HR. pose proof (reachable_inv _ _ _ HR) as HI. split_and!.
  - intros b write. apply rw_start_total.
  - destruct HI as (RA & RB & RU & RD & HC & HS). intros p b write old i0 Hp Hw.
    injection Hw as Hd. apply Z.eqb_neq in Hd.
    destruct (waiting_req w RA RB RU RD p b write old i0 HC HS Hp Hd) as (r & Hr & <- & _).
    destruct (rw_finish_ok w _ r HC Hr) as (d1 & d & E & _). by exists d.
  - destruct (inv_intr_ok w HI) as (d & E & _). by exists d.
  - intros h (l1 & l2 & Ha)%list_elem_of_split.
    destruct (inv_done w l1 h l2 HI Ha) as (r & d & im' & E & _). by exists d, im'.
  - destruct HI as (RA & RB & RU & RD & HC & HS). rewrite (i_accepted _ _ _ _ _ HS), length_fmap.
    pose proof (core_two _ _ HC) as H. rewrite !length_app in H. lia.
Qed.

(** C34: A call of [virtio_disk_rw] does what it is for.  When it is about to
    return, the buffer and the block on the disk are equal: for a read, both
    are what the block was at the time of the call, for a write, what the
    buffer was, however other requests, the device and interrupts are
    interleaved with it.  A step changes a block of the disk only to what a
    write in progress stores there. *)
Theorem virtio_rw_correct bs im w : reachable bs im w →
  (∀ p b write old i0, threads w !! p = Some (Waiting b write old i0) →
    rw_wait b (dk w) = Ok (false, dk w) → data (bufs (dk w) b) = old ∧ block w b = old) ∧
  (∀ w' n, step w w' → blk (image w') (2 * n) ≠ blk (image w) (2 * n) →
    ∃ p b old i0, (threads w !! p = Some (Waiting b true old i0) ∨ threads w !! p = Some (SleepBuf b true old i0)) ∧
      blockno (bufs (dk w) b) = n ∧ blk (image w') (2 * n) = old).
Proof.
  intros HR. pose proof (reachable_inv _ _ _ HR) as HI. split.
  - destruct HI as (RA & RB & RU & RD & HC & HS). intros p b write old i0 Hp Hw.
    injection Hw as Hd. apply Z.eqb_neq in Hd.
    destruct (waiting_req w RA RB RU RD p b write old i0 HC HS Hp Hd) as (r & Hr & _ & <- & <- & _ & Ha & Hb).
    by split.
  - intros w' n Hs Hne. destruct Hs as [| | | | | | | |l1 h l2 d im' Ha E]; simpl in Hne; try done.
    destruct (accepted_req w l1 h l2 HI Ha) as (r & t & Ht & Hfl & Hch & Hbe).
    destruct Hch as [-> Hch]. rewrite (dev_do_ok r _ _ Hch) in E. injection E as <- <-. simpl in Hne |- *.
    destruct (decide (n = blockno (bufs (dk w) (rb r)))) as [->|Hn]; [|by rewrite im_done_other in Hne].
    destruct (rw r) eqn:Erw; [|unfold im_done in Hne; by rewrite Erw in Hne].
    exists (rp r), (rb r), (ro r), (r0 r). split_and!; [|done|].
    + destruct Hfl as [->| ->]; rewrite Erw in Ht; [by left|by right].
    + unfold im_done, secs. rewrite Erw, blk_same. exact Hbe.
Qed.

(** The device or the interrupt handler has work. *)
Definition work (w : world) : Prop :=
  dev_avail w ≠ avail_idx (dk w) ∨ accepted w ≠ [] ∨ used_idx (dk w) ≠ used_dev_idx (dk w).
Lemma unfinished_work w RA RB RU RD r : core w (RA ++ RB ++ RU ++ RD) → stages w RA RB RU RD →
  r ∈ RA ++ RB ++ RU ++ RD → disk_ (bufs (dk w) (rb r)) = 1 → work w.
Proof.
  intros HC HS Hr Hd. pose proof (core_two _ _ HC) as Htwo. rewrite !length_app in Htwo.
  destruct HS as [H1 H2 H3 H4 H5 H6 H7 H8 H9].
  assert (r ∈ RA ∨ r ∈ RB ∨ r ∈ RU ∨ r ∈ RD) as Hc by (rewrite !elem_of_app in Hr; done).
  destruct Hc as [Hc|[Hc|[Hc|Hc]]].
  - left. rewrite H4. intros E. symmetry in E. revert E. apply idx_ne; [apply H9|].
    destruct RA; [by apply not_elem_of_nil in Hc|]. simpl in *. lia.
  - right. left. rewrite H6. intros E. apply fmap_nil_inv in E as ->. by apply not_elem_of_nil in Hc.
  - right. right. rewrite H7. intros E. symmetry in E. revert E. apply idx_ne; [apply H9|].
    destruct RU; [by apply not_elem_of_nil in Hc|]. simpl in *. lia.
  - destruct (Forall_at _ _ r H3 Hc) as [H0 _]. congruence.
Qed.

(** C40: No process sleeps in the driver with nobody to wake it: as long as a
    process is in [virtio_disk_rw], one of them can run, or the device has a
    chain to take or to carry out, or the interrupt handler has a finished
    request to report.  A process sleeps on its buffer only while its request
    is not finished, and for descriptors only while a request is in flight. *)
Theorem virtio_no_deadlock bs im w : reachable bs im w → threads w ≠ ∅ →
  ((∃ p b write old, threads w !! p = Some (Calling b write old)) ∨
   (∃ p b write old i0, threads w !! p = Some (Waiting b write old i0)) ∨ work w) ∧
  (∀ p b write old i0, threads w !! p = Some (SleepBuf b write old i0) →
    disk_ (bufs (dk w) b) = 1 ∧ work w).
Proof.
  intros HR Hne. destruct (reachable_inv _ _ _ HR) as (RA & RB & RU & RD & HC & HS).
  assert (∀ p b write old i0, threads w !! p = Some (SleepBuf b write old i0) →
    disk_ (bufs (dk w) b) = 1 ∧ work w) as Hsb.
  { intros p b write old i0 Hp.
    destruct (i_threads _ _ HC p _ Hp) as [(r & Hr & _ & [[=]|[= -> -> -> ->]] & Hd) _].
    split; [done|]. by apply (unfinished_work w RA RB RU RD r). }
  split; [|done].
  apply map_choose in Hne as (p & t & Hp). destruct t as [b wr o|b wr o|b wr o i|b wr o i].
  - left. by exists p, b, wr, o.
  - destruct (RA ++ RB ++ RU ++ RD) as [|r R] eqn:ER.
    { exfalso. apply (i_sleep _ _ HC); [by exists p, b, wr, o|done]. }
    destruct (i_reqs _ _ HC r) as (u & Hu & Hfl); [by left|].
    destruct Hfl as [->| ->]; right; [left; by eexists _, _, _, _, _|right; by apply (Hsb _ _ _ _ _ Hu)].
  - right. left. by exists p, b, wr, o, i.
  - right. right. by apply (Hsb _ _ _ _ _ Hp).
Qed.

(** ** Negotiation *)

(** The features that the driver accepts are those of the device without the
    masked ones. *)
Lemma negotiate_bits f k : 0 ≤ k →
  Z.testbit (negotiate f) k = Z.testbit f k && negb (bool_decide (k ∈ masked)).
Proof.
  intros Hk. unfold negotiate. generalize masked as l. intros l. revert f.
  induction l as [|m l IH]; intros f; cbn [foldl].
  - rewrite bool_decide_eq_false_2, andb_true_r by apply not_elem_of_nil. done.
  - rewrite IH, Z.land_spec, Z.lnot_spec by done. rewrite <- andb_assoc. f_equal.
    destruct (decide (k = m)) as [->|Hn].
    + assert (Z.testbit (Z.shiftl 1 m) m = true) as ->.
      { rewrite Z.shiftl_spec by done. by rewrite Z.sub_diag. }
      rewrite (bool_decide_eq_true_2 (m ∈ m :: l)) by (by left). done.
    + assert (Z.testbit (Z.shiftl 1 m) k = false) as ->.
      { rewrite Z.shiftl_spec by done. destruct (Z.lt_ge_cases (k - m) 0); [by apply Z.testbit_neg_r|].
        change 1 with (2 ^ 0). rewrite Z.pow2_bits_false; [done|lia]. }
      simpl. f_equal. apply bool_decide_ext. rewrite elem_of_cons. naive_solver.
Qed.

(** ** Runs *)

(** A process writes buffer 0 to block 5. *)
Definition demo_bufs (b : nat) : buf := mk_buf 0 (5 + Z.of_nat b) [7].
Definition after_start (d : disk) : disk :=
  match rw_start 0 true d with Ok (_, d') => d' | _ => d end.
Definition demo_start : world := start demo_bufs (λ _, [0]).
Definition demo_call : world :=
  mk_world (dk demo_start) (image demo_start) (dev_avail demo_start) (accepted demo_start)
    (<[1%nat := Calling 0 true (data (bufs (dk demo_start) 0))]> (threads demo_start)).
Definition demo_try : world :=
  mk_world (quiet (after_start (dk demo_call))) (image demo_call) (dev_avail demo_call) (accepted demo_call)
    (<[1%nat := Waiting 0 true (data (bufs (dk demo_start) 0)) 0]>
      (awake (after_start (dk demo_call)) (threads demo_call))).
Definition demo_take : world :=
  mk_world (dk demo_try) (image demo_try) (u16 (dev_avail demo_try + 1))
    (accepted demo_try ++ [avail_ring (dk demo_try) (dev_avail demo_try `mod` NUM)]) (threads demo_try).
Definition dev_result (w : world) : disk * (Z → list Z) :=
  match dev_do 0 (dk w) (image w) with Some r => r | None => (dk w, image w) end.
Definition demo_done : world :=
  mk_world (dev_result demo_take).1 (dev_result demo_take).2 (dev_avail demo_take) [] (threads demo_take).
Definition after_intr (d : disk) : disk :=
  match virtio_disk_intr d with Ok (_, d') => d' | _ => d end.
Definition demo_intr : world :=
  mk_world (quiet (after_intr (dk demo_done))) (image demo_done) (dev_avail demo_done) (accepted demo_done)
    (awake (after_intr (dk demo_done)) (threads demo_done)).

Lemma demo_try_ok : rw_start 0 true (dk demo_call) = Ok (Some 0, after_start (dk demo_call)).
Proof.
  unfold after_start. destruct (rw_start_total 0 true (dk demo_call)) as (r & d & E). rewrite E.
  assert (match rw_start 0 true (dk demo_call) with Ok (r, _) => r | _ => None end = Some 0) as H
    by (vm_compute; reflexivity).
  rewrite E in H. by rewrite H.
Qed.
Lemma demo_take_reachable : reachable demo_bufs (λ _, [0]) demo_take.
Proof.
  assert (step demo_start demo_call) as S1.
  { apply (st_call demo_start 1%nat 0%nat true); [reflexivity|intros ? ? [=]|simpl; lia]. }
  assert (step demo_call demo_try) as S2.
  { apply (st_try demo_call 1%nat 0%nat true _ 0 (after_start (dk demo_call))); [reflexivity|exact demo_try_ok]. }
  assert (step demo_try demo_take) as S3.
  { apply st_dev_take. assert (avail_idx (dk demo_try) = 1) as -> by (vm_compute; reflexivity). done. }
  exact (rtc_l _ _ _ _ S1 (rtc_l _ _ _ _ S2 (rtc_l _ _ _ _ S3 (rtc_refl _ _)))).
Qed.
Lemma demo_accepted : accepted demo_take = [] ++ 0 :: [].
Proof. vm_compute. reflexivity. Qed.
Lemma demo_intr_reachable : reachable demo_bufs (λ _, [0]) demo_intr.
Proof.
  assert (step demo_take demo_done) as S4.
  { destruct (inv_done _ _ _ _ (reachable_inv _ _ _ demo_take_reachable) demo_accepted) as (r & d & im & E & _).
    assert (dev_result demo_take = (d, im)) as Ed by (unfold dev_result; by rewrite E).
    unfold demo_done. rewrite Ed. exact (st_dev_done demo_take [] 0 [] d im demo_accepted E). }
  pose proof (rtc_r _ _ _ demo_take_reachable S4) as H4.
  destruct (inv_intr_ok _ (reachable_inv _ _ _ H4)) as (d & E & _).
  assert (after_intr (dk demo_done) = d) as Ea by (unfold after_intr; by rewrite E).
  unfold demo_intr. rewrite Ea. exact (rtc_r _ _ _ H4 (st_intr demo_done d E)).
Qed.

Lemma virtio_safe_witness :
  (∃ d, virtio_disk_intr (dk demo_take) = Ok (tt, d)) ∧ ∃ d im', dev_do 0 (dk demo_take) (image demo_take) = Some (d, im').
Proof.
  destruct (virtio_safe _ _ _ demo_take_reachable) as (_ & _ & H1 & H2 & _).
  split; [exact H1|]. apply H2. rewrite demo_accepted. by left.
Defined.
Lemma virtio_rw_correct_witness : data (bufs (dk demo_intr) 0) = [7] ∧ block demo_intr 0 = [7].
Proof.
  apply (proj1 (virtio_rw_correct _ _ _ demo_intr_reachable) 1%nat 0%nat true [7] 0).
  - vm_compute. reflexivity.
  - unfold rw_wait. prog_run. assert (disk_ (bufs (dk demo_intr) 0) =? 1 = false) as -> by (vm_compute; reflexivity).
    reflexivity.
Defined.
Lemma virtio_no_deadlock_witness :
  (∃ p b write old, threads demo_take !! p = Some (Calling b write old)) ∨
  (∃ p b write old i0, threads demo_take !! p = Some (Waiting b write old i0)) ∨ work demo_take.
Proof.
  apply (proj1 (virtio_no_deadlock _ _ _ demo_take_reachable ltac:(intros E; apply (f_equal (lookup 1%nat)) in E; vm_compute in E; discriminate E))).
Defined.

End VirtioProps.
