(* ===== verification/Bytes.v ===== *)
(** * Little-endian fields in blocks of bytes

    Disk blocks, on-disk inodes, directory entries and log headers are byte
    arrays that the C code casts to structures.  A structure's field is read
    with [getn] and written with [putn] at its offset. *)

From S2P Require Import Prelude.

Module Bytes.

Definition byte (x : Z) : Prop := 0 ≤ x < 256.

Fixpoint le_enc (k : nat) (v : Z) : list Z :=
  match k with O => [] | S k' => v `mod` 256 :: le_enc k' (v `div` 256) end.
Fixpoint le_dec (l : list Z) : Z :=
  match l with [] => 0 | b :: l' => b + 256 * le_dec l' end.

Definition getn (k : nat) (b : list Z) (off : nat) : Z := le_dec (take k (drop off b)).
Definition putn (k : nat) (b : list Z) (off : nat) (v : Z) : list Z :=
  take off b ++ le_enc k v ++ drop (off + k) b.

Definition get32 (b : list Z) (off : nat) : Z := getn 4 b off.
Definition put32 (b : list Z) (off : nat) (v : Z) : list Z := putn 4 b off v.
Definition get16 (b : list Z) (off : nat) : Z := getn 2 b off.
Definition put16 (b : list Z) (off : nat) (v : Z) : list Z := putn 2 b off v.

Lemma length_le_enc k : ∀ v, length (le_enc k v) = k.
Proof. induction k as [|k IH]; intros v; cbn; [done|by rewrite IH]. Qed.

Lemma le_dec_enc k : ∀ v, le_dec (le_enc k v) = v `mod` 256 ^ Z.of_nat k.
Proof.
  induction k as [|k IH]; intros v; cbn [le_enc le_dec]; [by rewrite Z.mod_1_r|].
  rewrite IH, Nat2Z.inj_succ, Z.pow_succ_r by lia.
  rewrite Z.rem_mul_r by pow_pos. lia.
Qed.

Lemma le_enc_dec l : Forall byte l → le_enc (length l) (le_dec l) = l.
Proof.
  induction 1 as [|b l Hb _ IH]; [done|]. cbn. unfold byte in Hb.
  rewrite (Z.mul_comm 256), Z.mod_add, Z.div_add, Z.mod_small, Z.div_small by lia.
  by rewrite Z.add_0_l, IH.
Qed.

Lemma length_putn k b off v : (off + k ≤ length b)%nat → length (putn k b off v) = length b.
Proof.
  intros H. unfold putn. rewrite !length_app, length_take, length_drop, length_le_enc. lia.
Qed.

Lemma getn_putn k b off v : (off + k ≤ length b)%nat →
  getn k (putn k b off v) off = v `mod` 256 ^ Z.of_nat k.
Proof.
  intros H. unfold getn, putn.
  rewrite drop_app_length' by (rewrite length_take; lia).
  rewrite take_app_length' by (by rewrite length_le_enc). apply le_dec_enc.
Qed.

Lemma lookup_putn_ne k b off v i : (off + k ≤ length b)%nat → (i < off ∨ off + k ≤ i)%nat →
  putn k b off v !! i = b !! i.
Proof.
  intros H Hi. unfold putn. destruct Hi as [Hi|Hi].
  - rewrite lookup_app_l by (rewrite length_take; lia). by rewrite lookup_take_lt.
  - rewrite lookup_app_r by (rewrite length_take; lia).
    rewrite lookup_app_r by (rewrite length_le_enc, length_take; lia).
    rewrite lookup_drop, length_le_enc, length_take. f_equal. lia.
Qed.

Lemma getn_ext k b b' off : (∀ i, (off ≤ i < off + k)%nat → b !! i = b' !! i) →
  getn k b off = getn k b' off.
Proof.
  intros H. unfold getn. f_equal. apply list_eq. intros i. destruct (decide (i < k)%nat).
  - rewrite !lookup_take_lt, !lookup_drop by done. apply H. lia.
  - by rewrite !lookup_take_ge by lia.
Qed.

Lemma getn_putn_ne k b off v k' off' : (off + k ≤ length b)%nat →
  (off' + k' ≤ off ∨ off + k ≤ off')%nat →
  getn k' (putn k b off v) off' = getn k' b off'.
Proof. intros H Hd. apply getn_ext. intros i Hi. apply lookup_putn_ne; lia. Qed.

Lemma byte_le_enc k : ∀ v, Forall byte (le_enc k v).
Proof.
  induction k as [|k IH]; intros v; cbn; constructor; [|done].
  apply Z.mod_pos_bound. lia.
Qed.
Lemma byte_putn k b off v : Forall byte b → Forall byte (putn k b off v).
Proof.
  intros H. unfold putn. rewrite !Forall_app. split_and!;
    [by apply Forall_take|apply byte_le_enc|by apply Forall_drop].
Qed.
Lemma getn_bounds k b off : Forall byte b → 0 ≤ getn k b off < 256 ^ Z.of_nat k.
Proof.
  intros H. unfold getn. assert (∀ l, Forall byte l → 0 ≤ le_dec l < 256 ^ Z.of_nat (length l)) as Hl.
  { induction 1 as [|x l Hx _ IH]; [cbn; lia|]. unfold byte in Hx. cbn [le_dec length].
    rewrite Nat2Z.inj_succ, Z.pow_succ_r by lia. lia. }
  pose proof (Hl (take k (drop off b)) ltac:(by apply Forall_take, Forall_drop)) as [H1 H2].
  split; [done|]. eapply Z.lt_le_trans; [exact H2|]. apply Z.pow_le_mono_r; [lia|].
  rewrite length_take. lia.
Qed.

End Bytes.
