(* ===== verification/BufCache.v ===== *)
(** * The interface of the buffer cache

    What kernel/bio.c promises to the log and to the file system.  The abstract
    state of the cache gives, for every block of the disk: its contents as the
    kernel sees them ([a_view]), its contents on disk ([a_disk]), how many
    references to it are held ([a_pins]) and the buffer that is locked for it
    ([a_lock]); [a_busy] counts the referenced buffers and [a_writes] lists the
    writes to disk in the order in which they were made.  [Bio.v] implements
    the interface; the log is verified against it. *)

From S2P Require Import Prelude.

Module BufCache.

Abbreviation block := (list Z).
Definition BSIZE : nat := 1024.
Definition ROOTDEV : Z := 1.
Definition NBUF : Z := 30.

Definition zero_blk : block := replicate BSIZE 0.
Definition disk_at (d : gmap Z block) (n : Z) : block := default zero_blk (d !! n).
Definition disk_ok (d : gmap Z block) : Prop := ∀ n, length (disk_at d n) = BSIZE.

Record abs := mkAbs {
  a_view : Z → block;
  a_disk : Z → block;
  a_writes : list (Z * block);
  a_pins : Z → Z;
  a_lock : Z → option nat;
  a_busy : Z }.

(** Abstract states that agree on every block. *)
Record abs_eq (a a' : abs) : Prop := {
  eq_view n : a_view a n = a_view a' n;
  eq_disk n : a_disk a n = a_disk a' n;
  eq_writes : a_writes a = a_writes a';
  eq_pins n : a_pins a n = a_pins a' n;
  eq_lock n : a_lock a n = a_lock a' n;
  eq_busy : a_busy a = a_busy a' }.

(** A machine that has just started with disk [d]. *)
Definition abs_boot (d : gmap Z block) : abs :=
  mkAbs (disk_at d) (disk_at d) [] (λ _, 0) (λ _, None) 0.
Definition abs_read (a : abs) (n : Z) (b : nat) : abs :=
  mkAbs (a_view a) (a_disk a) (a_writes a) (<[n := a_pins a n + 1]> (a_pins a))
    (<[n := Some b]> (a_lock a)) (a_busy a + (if a_pins a n =? 0 then 1 else 0)).
Definition abs_set (a : abs) (n : Z) (v : block) : abs :=
  mkAbs (<[n := v]> (a_view a)) (a_disk a) (a_writes a) (a_pins a) (a_lock a) (a_busy a).
Definition abs_write (a : abs) (n : Z) : abs :=
  mkAbs (a_view a) (<[n := a_view a n]> (a_disk a)) (a_writes a ++ [(n, a_view a n)])
    (a_pins a) (a_lock a) (a_busy a).
Definition abs_pin (a : abs) (n d : Z) : abs :=
  mkAbs (a_view a) (a_disk a) (a_writes a) (<[n := a_pins a n + d]> (a_pins a)) (a_lock a) (a_busy a).
Definition abs_relse (a : abs) (n : Z) : abs :=
  mkAbs (a_view a) (a_disk a) (a_writes a) (<[n := a_pins a n - 1]> (a_pins a))
    (<[n := None]> (a_lock a)) (a_busy a - (if a_pins a n =? 1 then 1 else 0)).

Class BufferCache (S : Type) := {
  bread : Z → Z → prog S nat;
  bdata : nat → prog S block;
  bset : nat → block → prog S unit;
  bblockno : nat → prog S Z;
  bwrite : nat → prog S unit;
  brelse : nat → prog S unit;
  bpin : nat → prog S unit;
  bunpin : nat → prog S unit;
  bc_boot : gmap Z block → S;
  bc_disk : S → gmap Z block;
  bc_inv : S → abs → Prop;
  bc_boot_ok d : disk_ok d → bc_inv (bc_boot d) (abs_boot d);
  bc_disk_ok s a : bc_inv s a → ∀ n, disk_at (bc_disk s) n = a_disk a n;
  bc_eq s a a' : bc_inv s a → abs_eq a a' → bc_inv s a';
  bc_size s a : bc_inv s a → ∀ n, length (a_view a n) = BSIZE ∧ length (a_disk a n) = BSIZE;
  (** A block nobody refers to has its disk contents. *)
  bc_clean s a : bc_inv s a → ∀ n, a_pins a n = 0 → a_view a n = a_disk a n;
  bc_pins s a : bc_inv s a → ∀ n, 0 ≤ a_pins a n ∧ (a_lock a n ≠ None → 1 ≤ a_pins a n);
  bread_ok s a n : bc_inv s a → a_lock a n = None → 0 < a_pins a n ∨ a_busy a < NBUF →
    a_pins a n < 2 ^ 31 →
    ∃ b s', bread ROOTDEV n s = Ok (b, s') ∧ bc_inv s' (abs_read a n b);
  bdata_ok s a n b : bc_inv s a → a_lock a n = Some b → bdata b s = Ok (a_view a n, s);
  bblockno_ok s a n b : bc_inv s a → a_lock a n = Some b → bblockno b s = Ok (n, s);
  bset_ok s a n b v : bc_inv s a → a_lock a n = Some b → length v = BSIZE →
    ∃ s', bset b v s = Ok (tt, s') ∧ bc_inv s' (abs_set a n v);
  bwrite_ok s a n b : bc_inv s a → a_lock a n = Some b →
    ∃ s', bwrite b s = Ok (tt, s') ∧ bc_inv s' (abs_write a n);
  brelse_ok s a n b : bc_inv s a → a_lock a n = Some b →
    (a_pins a n = 1 → a_view a n = a_disk a n) →
    ∃ s', brelse b s = Ok (tt, s') ∧ bc_inv s' (abs_relse a n);
  bpin_ok s a n b : bc_inv s a → a_lock a n = Some b → a_pins a n < 2 ^ 31 →
    ∃ s', bpin b s = Ok (tt, s') ∧ bc_inv s' (abs_pin a n 1);
  bunpin_ok s a n b : bc_inv s a → a_lock a n = Some b → 2 ≤ a_pins a n →
    ∃ s', bunpin b s = Ok (tt, s') ∧ bc_inv s' (abs_pin a n (-1)) }.

End BufCache.
