(* ===== verification/Bio.v ===== *)
(** * The buffer cache (kernel/bio.c)

    [bufs] is the array [bcache.buf]; [next] and [prev] are the links of the
    LRU list, in which the number [HEAD] stands for [bcache.head].  The disk is
    a map from block numbers to blocks; [written] records the writes made by
    [virtio_disk_rw], which transfers one block per call.  A process that waits
    for a sleep-lock held by nobody else never continues: [Spin]. *)

From S2P Require Import Prelude BufCache.
Import BufCache.

Module Bio.

Definition HEAD : nat := 30.

Record buf := mkBuf {
  valid : Z;
  dev : Z;
  blockno : Z;
  locked : bool;
  refcnt : Z;
  data : block }.

Record state := mkState {
  lock : bool;
  bufs : list buf;
  next : gmap nat nat;
  prev : gmap nat nat;
  disk : gmap Z block;
  written : list (Z * block) }.

Definition zero_buf : buf := mkBuf 0 0 0 false 0 zero_blk.
(** The zeroed [bcache] of a machine with disk [d]. *)
Definition zero_state (d : gmap Z block) : state :=
  mkState false (replicate 30 zero_buf) ∅ ∅ d [].

Definition set_lock (v : bool) (s : state) : state :=
  mkState v (bufs s) (next s) (prev s) (disk s) (written s).
Definition set_bufs (v : list buf) (s : state) : state :=
  mkState (lock s) v (next s) (prev s) (disk s) (written s).

Definition acquire : prog state unit := λ s,
  if lock s then Panic "acquire" else Ok (tt, set_lock true s).
Definition release : prog state unit := λ s,
  if lock s then Ok (tt, set_lock false s) else Panic "release".

Definition get_buf (b : nat) : prog state buf := λ s,
  match bufs s !! b with Some x => Ok (x, s) | None => Fault end.
Definition mod_buf (b : nat) (f : buf → buf) : prog state unit := λ s,
  match bufs s !! b with
  | Some x => Ok (tt, set_bufs (<[b := f x]> (bufs s)) s)
  | None => Fault
  end.
Definition get_next (b : nat) : prog state nat := λ s,
  match next s !! b with Some x => Ok (x, s) | None => Fault end.
Definition get_prev (b : nat) : prog state nat := λ s,
  match prev s !! b with Some x => Ok (x, s) | None => Fault end.
Definition set_next (b c : nat) : prog state unit :=
  modify (λ s, mkState (lock s) (bufs s) (<[b := c]> (next s)) (prev s) (disk s) (written s)).
Definition set_prev (b c : nat) : prog state unit :=
  modify (λ s, mkState (lock s) (bufs s) (next s) (<[b := c]> (prev s)) (disk s) (written s)).

Definition with_refcnt (f : Z → Z) (x : buf) : buf :=
  mkBuf (valid x) (dev x) (blockno x) (locked x) (u32 (f (refcnt x))) (data x).
Definition with_locked (v : bool) (x : buf) : buf :=
  mkBuf (valid x) (dev x) (blockno x) v (refcnt x) (data x).
Definition with_data (v : block) (x : buf) : buf :=
  mkBuf (valid x) (dev x) (blockno x) (locked x) (refcnt x) v.
Definition with_valid (v : Z) (x : buf) : buf :=
  mkBuf v (dev x) (blockno x) (locked x) (refcnt x) (data x).

Definition acquiresleep (b : nat) : prog state unit :=
  x ← get_buf b;
  if locked x then spin else mod_buf b (with_locked true).
Definition releasesleep (b : nat) : prog state unit := mod_buf b (with_locked false).
Definition holdingsleep (b : nat) : prog state bool := x ← get_buf b; mret (locked x).

(** One request of [virtio_disk_rw]. *)
Definition virtio_disk_rw (b : nat) (write : bool) : prog state unit :=
  x ← get_buf b;
  if write then
    modify (λ s, mkState (lock s) (bufs s) (next s) (prev s) (<[blockno x := data x]> (disk s))
                   (written s ++ [(blockno x, data x)]))
  else
    d ← gets disk;
    mod_buf b (with_data (disk_at d (blockno x))).

Fixpoint binit_loop (n b : nat) : prog state unit :=
  match n with
  | O => skip
  | S n' =>
      h ← get_next HEAD;
      set_next b h;;
      set_prev b HEAD;;
      mod_buf b (with_locked false);;
      h ← get_next HEAD;
      set_prev h b;;
      set_next HEAD b;;
      binit_loop n' (S b)
  end.
Definition binit : prog state unit :=
  modify (set_lock false);;
  set_prev HEAD HEAD;;
  set_next HEAD HEAD;;
  binit_loop 30 0.

(** The search of [bget] for a cached block, along [next] from [b]. *)
Fixpoint bget_find (fuel : nat) (d n : Z) (b : nat) : prog state (option nat) :=
  match fuel with
  | O => spin
  | S f =>
      if decide (b = HEAD) then mret None
      else
        x ← get_buf b;
        if (dev x =? d) && (blockno x =? n) then mret (Some b)
        else b' ← get_next b; bget_find f d n b'
  end.
(** The search of [bget] for an unused buffer, along [prev] from [b]. *)
Fixpoint bget_lru (fuel : nat) (b : nat) : prog state (option nat) :=
  match fuel with
  | O => spin
  | S f =>
      if decide (b = HEAD) then mret None
      else
        x ← get_buf b;
        if refcnt x =? 0 then mret (Some b)
        else b' ← get_prev b; bget_lru f b'
  end.
(** Fuel for a walk around the whole list. *)
Definition list_fuel : nat := 31.

Definition bget (d n : Z) : prog state nat :=
  acquire;;
  h ← get_next HEAD;
  r ← bget_find list_fuel d n h;
  match r with
  | Some b =>
      mod_buf b (with_refcnt (λ c, c + 1));;
      release;;
      acquiresleep b;;
      mret b
  | None =>
      h ← get_prev HEAD;
      r ← bget_lru list_fuel h;
      match r with
      | Some b =>
          mod_buf b (λ x, mkBuf 0 d n (locked x) 1 (data x));;
          release;;
          acquiresleep b;;
          mret b
      | None => panic "bget: no buffers"
      end
  end.

Definition bread (d n : Z) : prog state nat :=
  b ← bget d n;
  x ← get_buf b;
  (if valid x =? 0 then virtio_disk_rw b false;; mod_buf b (with_valid 1) else skip);;
  mret b.

Definition bwrite (b : nat) : prog state unit :=
  h ← holdingsleep b;
  if negb h then panic "bwrite" else virtio_disk_rw b true.

(** Moving [b] to the front of the list. *)
Definition brelse_mru (b : nat) : prog state unit :=
  bn ← get_next b; bp ← get_prev b; set_prev bn bp;;
  bp ← get_prev b; bn ← get_next b; set_next bp bn;;
  hn ← get_next HEAD; set_next b hn;;
  set_prev b HEAD;;
  hn ← get_next HEAD; set_prev hn b;;
  set_next HEAD b.

Definition brelse (b : nat) : prog state unit :=
  h ← holdingsleep b;
  if negb h then panic "brelse" else
  releasesleep b;;
  acquire;;
  mod_buf b (with_refcnt (λ c, c - 1));;
  x ← get_buf b;
  (if refcnt x =? 0 then brelse_mru b else skip);;
  release.

Definition bpin (b : nat) : prog state unit :=
  acquire;; mod_buf b (with_refcnt (λ c, c + 1));; release.
Definition bunpin (b : nat) : prog state unit :=
  acquire;; mod_buf b (with_refcnt (λ c, c - 1));; release.

(** What the holder of a buffer does with [b->data] and [b->blockno]. *)
Definition bdata (b : nat) : prog state block := x ← get_buf b; mret (data x).
Definition bset (b : nat) (v : block) : prog state unit := mod_buf b (with_data v).
Definition bblockno (b : nat) : prog state Z := x ← get_buf b; mret (blockno x).

End Bio.
