(* ===== verification/BioProofs.v ===== *)
(** * Correctness of the buffer cache

    The LRU list is shown to be a well-formed doubly linked list through every
    operation, and the cache to implement the interface [BufferCache]. *)

From S2P Require Import Prelude BufCache Bio.
Import BufCache.

Module BioProofs.

(** ** Circular lists *)

(** Following [f] from [a] visits [l] and then arrives at [z]. *)
Fixpoint chain (f : gmap nat nat) (a : nat) (l : list nat) (z : nat) : Prop :=
  match l with
  | [] => f !! a = Some z
  | b :: l' => f !! a = Some b ∧ chain f b l' z
  end.
Fixpoint last_of (a : nat) (l : list nat) : nat :=
  match l with [] => a | b :: l' => last_of b l' end.

(** [nx] and [pv] link the elements of [l] in both directions. *)
Record dlist (nx pv : gmap nat nat) (h : nat) (l : list nat) : Prop := {
  dl_next : chain nx h l h;
  dl_prev : chain pv h (reverse l) h;
  dl_nodup : NoDup (h :: l) }.

Lemma chain_insert f a l z c v : c ∉ a :: l → chain (<[c := v]> f) a l z ↔ chain f a l z.
Proof.
  revert a. induction l as [|b l IH]; intros a Hc; cbn [chain].
  - rewrite lookup_insert_ne; [done|]. intros ->. apply Hc. left.
  - rewrite lookup_insert_ne by (intros ->; apply Hc; left).
    rewrite IH; [done|]. intros H. apply Hc. by right.
Qed.

Lemma chain_app f a l1 b l2 z : chain f a (l1 ++ b :: l2) z ↔ chain f a l1 b ∧ chain f b l2 z.
Proof.
  revert a. induction l1 as [|c l1 IH]; intros a; cbn [chain app]; [done|]. rewrite IH. tauto.
Qed.

Lemma chain_first f a l z : chain f a l z → f !! a = Some (hd z l).
Proof. destruct l; cbn; tauto. Qed.

Lemma last_of_in a l : last_of a l ∈ a :: l.
Proof.
  revert a. induction l as [|b l IH]; intros a; [left|]. cbn [last_of]. right. apply IH.
Qed.

Lemma last_of_snoc a l b : last_of a (l ++ [b]) = b.
Proof. revert a. induction l as [|c l IH]; intros a; [done|apply IH]. Qed.
Lemma last_of_reverse a l : last_of a (reverse l) = hd a l.
Proof. destruct l as [|b l]; [done|]. by rewrite reverse_cons, last_of_snoc. Qed.
Lemma hd_reverse a l : hd a (reverse l) = last_of a l.
Proof. by rewrite <- (reverse_involutive l) at 2; rewrite last_of_reverse. Qed.

(** Redirecting the last link of a chain. *)
Lemma chain_relink f a l b q : chain f a l b → NoDup (a :: l) →
  chain (<[last_of a l := q]> f) a l q.
Proof.
  revert a. induction l as [|c l IH]; intros a Hc Hn; cbn [chain].
  - apply lookup_insert_eq.
  - cbn [last_of]. destruct Hc as [Ha Hc]. apply list.NoDup_cons in Hn as [Hn1 Hn2]. split.
    + rewrite lookup_insert_ne; [done|]. intros E. apply Hn1. rewrite <- E. apply last_of_in.
    + by apply IH.
Qed.

Lemma chain_unlink f a l1 b l2 z : chain f a (l1 ++ b :: l2) z → NoDup (a :: l1 ++ b :: l2) →
  chain (<[last_of a l1 := hd z l2]> f) a (l1 ++ l2) z.
Proof.
  intros [H1 H2]%chain_app Hn. rewrite app_comm_cons in Hn.
  apply list.NoDup_app in Hn as (N1 & N2 & N3).
  pose proof (chain_relink f a l1 b (hd z l2) H1 N1) as H3.
  destruct l2 as [|c l2]; [by rewrite app_nil_r|].
  apply chain_app. split; [done|]. apply chain_insert; [|apply H2].
  intros Hin. apply (N2 (last_of a l1)); [apply last_of_in|]. right. done.
Qed.

Lemma chain_push f a l z b : chain f a l z → NoDup (b :: a :: l) →
  chain (<[a := b]> (<[b := hd z l]> f)) a (b :: l) z.
Proof.
  intros Hc Hn. apply list.NoDup_cons in Hn as [Hb Hn]. apply list.NoDup_cons in Hn as [Ha _].
  assert (a ≠ b) by (intros ->; apply Hb; left).
  cbn [chain]. split; [apply lookup_insert_eq|].
  destruct l as [|c l]; cbn [chain hd].
  - rewrite lookup_insert_ne by done. apply lookup_insert_eq.
  - destruct Hc as [_ Hc]. split; [rewrite lookup_insert_ne by done; apply lookup_insert_eq|].
    rewrite chain_insert by done. rewrite chain_insert; [done|]. intros Hin. apply Hb. by right.
Qed.

Lemma chain_snoc f a l z b : chain f a l z → NoDup (b :: a :: l) →
  chain (<[last_of a l := b]> (<[b := z]> f)) a (l ++ [b]) z.
Proof.
  intros Hc Hn. apply list.NoDup_cons in Hn as [Hb Hn]. apply chain_app. split.
  - eapply chain_relink; [|done]. by apply chain_insert.
  - cbn [chain]. rewrite lookup_insert_ne; [apply lookup_insert_eq|].
    intros E. apply Hb. rewrite <- E. apply last_of_in.
Qed.

(** Taking [b] out of the list and putting it at the front. *)
Lemma dlist_unlink nx pv h l1 b l2 : dlist nx pv h (l1 ++ b :: l2) →
  dlist (<[last_of h l1 := hd h l2]> nx) (<[hd h l2 := last_of h l1]> pv) h (l1 ++ l2).
Proof.
  intros [D1 D2 D3]. constructor.
  - eapply chain_unlink; eauto.
  - rewrite reverse_app, reverse_cons, <- app_assoc in D2. cbn in D2.
    rewrite reverse_app. rewrite <- (last_of_reverse h l2), <- (hd_reverse h l1).
    eapply chain_unlink; [exact D2|]. rewrite list.NoDup_cons in *.
    rewrite !elem_of_app, elem_of_cons, !elem_of_reverse in *. split; [set_solver|].
    destruct D3 as [_ D3]. revert D3.
    rewrite (NoDup_Permutation_proper (l1 ++ b :: l2) (reverse l2 ++ b :: reverse l1)); [done|].
    rewrite !reverse_Permutation, <- !Permutation_middle. by rewrite Permutation_app_comm.
  - eapply sublist_NoDup; [exact D3|]. constructor. apply sublist_app; [done|].
    by constructor.
Qed.

Lemma dlist_push nx pv h l b : dlist nx pv h l → b ∉ h :: l →
  dlist (<[h := b]> (<[b := hd h l]> nx)) (<[hd h l := b]> (<[b := h]> pv)) h (b :: l).
Proof.
  intros [D1 D2 D3] Hb. constructor.
  - apply chain_push; [done|]. by constructor.
  - rewrite reverse_cons, <- (last_of_reverse h l). apply chain_snoc; [done|].
    constructor; [by rewrite elem_of_cons, elem_of_reverse, <- elem_of_cons|].
    apply list.NoDup_cons in D3 as [D3 D4]. constructor; [by rewrite elem_of_reverse|].
    by rewrite reverse_Permutation.
  - apply list.NoDup_cons in D3 as [D3 D4]. constructor; [|constructor; [|done]];
      rewrite elem_of_cons in *; naive_solver.
Qed.

(** ** The state of the cache and its abstraction *)

#[local] Abbreviation HEAD := Bio.HEAD.

(** Buffer [i] holding [x] agrees with the abstract state. *)
Definition bufrel (a : abs) (i : nat) (x : Bio.buf) : Prop :=
  0 ≤ Bio.refcnt x < 2 ^ 32 ∧ length (Bio.data x) = BSIZE ∧
  (Bio.locked x = true → Bio.refcnt x ≠ 0) ∧
  if decide (Bio.dev x = ROOTDEV) then
    let n := Bio.blockno x in
    a_pins a n = Bio.refcnt x ∧ a_lock a n = (if Bio.locked x then Some i else None) ∧
    (Bio.refcnt x ≠ 0 → Bio.valid x ≠ 0) ∧
    a_view a n = (if Bio.valid x =? 0 then a_disk a n else Bio.data x) ∧
    (Bio.refcnt x = 0 → a_view a n = a_disk a n)
  else Bio.refcnt x = 0.

(** No buffer is for block [n]. *)
Definition uncached (bs : list Bio.buf) (n : Z) : Prop :=
  ∀ i x, bs !! i = Some x → Bio.dev x = ROOTDEV → Bio.blockno x ≠ n.

Definition used (x : Bio.buf) : Prop := Bio.refcnt x ≠ 0.
#[global] Instance used_dec x : Decision (used x) := _.
Definition nused (bs : list Bio.buf) : Z := Z.of_nat (length (filter used bs)).

Definition lru (nx pv : gmap nat nat) : Prop := ∃ l, dlist nx pv HEAD l ∧ l ≡ₚ seq 0 30.

Record binv (s : Bio.state) (a : abs) : Prop := {
  bi_lock : Bio.lock s = false;
  bi_len : length (Bio.bufs s) = 30%nat;
  bi_lru : lru (Bio.next s) (Bio.prev s);
  bi_uniq i j x y : Bio.bufs s !! i = Some x → Bio.bufs s !! j = Some y →
    Bio.dev x = ROOTDEV → Bio.dev y = ROOTDEV → Bio.blockno x = Bio.blockno y → i = j;
  bi_rel i x : Bio.bufs s !! i = Some x → bufrel a i x;
  bi_unc n : uncached (Bio.bufs s) n → a_pins a n = 0 ∧ a_lock a n = None ∧ a_view a n = a_disk a n;
  bi_disk n : disk_at (Bio.disk s) n = a_disk a n;
  bi_size n : length (a_disk a n) = BSIZE;
  bi_writes : Bio.written s = a_writes a;
  bi_busy : nused (Bio.bufs s) = a_busy a }.

Lemma nused_insert bs b x x' : bs !! b = Some x →
  nused (<[b := x']> bs) = nused bs - (if decide (used x) then 1 else 0) + (if decide (used x') then 1 else 0).
Proof.
  intros Hx. unfold nused. rewrite (insert_take_drop bs b x') by (by eapply lookup_lt_Some).
  rewrite <- (take_drop_middle bs b x Hx) at 3.
  rewrite !list.filter_app, !length_app, !filter_cons. repeat case_decide; cbn [length]; lia.
Qed.

Lemma nused_free bs : nused bs < Z.of_nat (length bs) → ∃ i x, bs !! i = Some x ∧ Bio.refcnt x = 0.
Proof.
  induction bs as [|x bs IH]; intros H; [unfold nused in H; cbn in H; lia|].
  destruct (decide (Bio.refcnt x = 0)); [by exists 0%nat, x|].
  destruct IH as (i & y & H1 & H2); [|by exists (S i), y].
  unfold nused in *. rewrite filter_cons_True in H by done. cbn [length] in H. lia.
Qed.

(** Two abstract states that differ at block [n] only. *)
Definition agree_off (n : Z) (a a' : abs) : Prop := ∀ m, m ≠ n →
  a_view a' m = a_view a m ∧ a_disk a' m = a_disk a m ∧ a_pins a' m = a_pins a m ∧
  a_lock a' m = a_lock a m.

(** Every operation replaces one buffer: the invariant is kept when the new
    contents agree with the new abstract state. *)
Lemma binv_step s a b x s' a' x' : binv s a → Bio.bufs s !! b = Some x →
  Bio.dev x' = ROOTDEV →
  (Bio.dev x = ROOTDEV ∧ Bio.blockno x = Bio.blockno x') ∨
    (uncached (Bio.bufs s) (Bio.blockno x') ∧ Bio.refcnt x = 0) →
  Bio.bufs s' = <[b := x']> (Bio.bufs s) → Bio.lock s' = false →
  lru (Bio.next s') (Bio.prev s') →
  agree_off (Bio.blockno x') a a' → bufrel a' b x' →
  (∀ m, disk_at (Bio.disk s') m = a_disk a' m) → length (a_disk a' (Bio.blockno x')) = BSIZE →
  Bio.written s' = a_writes a' →
  a_busy a' = a_busy a - (if decide (used x) then 1 else 0) + (if decide (used x') then 1 else 0) →
  binv s' a'.
Proof.
  intros HI Hx Hd' Hold Hb Hl Hlru Hag Hrel Hdisk Hsz Hw Hbusy.
  pose proof (lookup_lt_Some _ _ _ Hx) as Hlt.
  assert (Hother : ∀ j y, j ≠ b → Bio.bufs s !! j = Some y → Bio.dev y = ROOTDEV →
    Bio.blockno y ≠ Bio.blockno x').
  { intros j y Hj Hy Hdy Hn. destruct Hold as [[H1 H2]|[H1 _]].
    - apply Hj. apply (bi_uniq _ _ HI j b y x); auto. congruence.
    - by apply (H1 j y). }
  constructor; rewrite ?Hb; auto.
  - by rewrite length_insert, (bi_len _ _ HI).
  - intros i j y z Hy Hz Dy Dz Hn.
    apply list_lookup_insert_Some in Hy as [(<- & -> & _)|[Hi Hy]];
      apply list_lookup_insert_Some in Hz as [(<- & -> & _)|[Hj Hz]]; auto.
    + exfalso. by apply (Hother j z).
    + exfalso. by apply (Hother i y).
    + by apply (bi_uniq _ _ HI i j y z).
  - intros i y Hy. apply list_lookup_insert_Some in Hy as [(<- & -> & _)|[Hi Hy]]; [done|].
    pose proof (bi_rel _ _ HI _ _ Hy) as (R1 & R2 & R3 & R4). split_and!; [lia|lia|done|done|].
    case_decide as Hdy; [|done]. cbv zeta in *.
    destruct (Hag (Bio.blockno y)) as (A1 & A2 & A3 & A4); [by apply (Hother i)|].
    by rewrite A1, A2, A3, A4.
  - intros m Hm. assert (m ≠ Bio.blockno x') as Hmn.
    { intros ->. apply (Hm b x'); [by apply list_lookup_insert_eq|done|done]. }
    destruct (Hag m Hmn) as (-> & -> & -> & ->).
    destruct (decide (Bio.dev x = ROOTDEV ∧ Bio.blockno x = m)) as [[D1 D2]|Hne].
    + destruct Hold as [[_ H2]|[_ H2]]; [congruence|].
      pose proof (bi_rel _ _ HI _ _ Hx) as (R1 & R2 & R3 & R4).
      rewrite decide_True in R4 by done. cbv zeta in R4. rewrite D2 in R4.
      destruct R4 as (Q1 & Q2 & Q3 & Q4 & Q5). split_and!; [by rewrite Q1| |by apply Q5].
      rewrite Q2. destruct (Bio.locked x); [|done]. by exfalso; apply R3.
    + apply (bi_unc _ _ HI). intros j y Hy Dy En. destruct (decide (j = b)) as [->|Hj].
      * simplify_eq. by apply Hne.
      * apply (Hm j y); auto. by rewrite list_lookup_insert_ne.
  - intros m. destruct (decide (m = Bio.blockno x')) as [->|Hmn]; [done|].
    destruct (Hag m Hmn) as (_ & -> & _). apply (bi_size _ _ HI).
  - rewrite (nused_insert _ _ _ _ Hx), (bi_busy _ _ HI). lia.
Qed.

Lemma cached_or bs n :
  (∃ i x, bs !! i = Some x ∧ Bio.dev x = ROOTDEV ∧ Bio.blockno x = n) ∨ uncached bs n.
Proof.
  destruct (list_find (λ x, Bio.dev x = ROOTDEV ∧ Bio.blockno x = n) bs) as [[i x]|] eqn:E.
  - apply list_find_Some in E as (H1 & [H2 H3] & _). left. by exists i, x.
  - apply list_find_None in E. right. intros i x Hx Hd Hn.
    eapply Forall_lookup_1 in E; [|exact Hx]. by apply E.
Qed.

(** The buffer locked for a block. *)
Lemma binv_locked s a n b : binv s a → a_lock a n = Some b →
  ∃ x, Bio.bufs s !! b = Some x ∧ Bio.dev x = ROOTDEV ∧ Bio.blockno x = n ∧
    Bio.locked x = true ∧ Bio.valid x ≠ 0 ∧ Bio.data x = a_view a n ∧ Bio.refcnt x = a_pins a n ∧
    1 ≤ a_pins a n < 2 ^ 32.
Proof.
  intros HI Hl. destruct (cached_or (Bio.bufs s) n) as [(i & x & Hx & Hd & Hn)|Hno].
  - pose proof (bi_rel _ _ HI _ _ Hx) as (R1 & R2 & R3 & R4). rewrite decide_True in R4 by done.
    cbv zeta in R4. rewrite Hn, Hl in R4. destruct R4 as (Q1 & Q2 & Q3 & Q4 & Q5).
    destruct (Bio.locked x) eqn:El; [|done]. injection Q2 as <-.
    pose proof (R3 eq_refl). specialize (Q3 ltac:(done)). exists x.
    destruct (Z.eqb_spec (Bio.valid x) 0); [done|]. split_and!; auto; lia.
  - apply (bi_unc _ _ HI) in Hno as (_ & Hno & _). congruence.
Qed.

(** ** Walking the list *)

Lemma lru_buf nx pv l b : dlist nx pv HEAD l → l ≡ₚ seq 0 30 → b ∈ l → (b < 30)%nat ∧ b ≠ HEAD.
Proof.
  intros _ Hp Hb. rewrite Hp, elem_of_seq in Hb. unfold HEAD, Bio.HEAD. lia.
Qed.

Lemma bget_find_ok s d n l : ∀ fuel a b, length (Bio.bufs s) = 30%nat →
  chain (Bio.next s) a l HEAD → Bio.next s !! a = Some b → (∀ c, c ∈ l → (c < 30)%nat) →
  (length l < fuel)%nat →
  (∃ c x, c ∈ l ∧ Bio.bufs s !! c = Some x ∧ Bio.dev x = d ∧ Bio.blockno x = n ∧
     Bio.bget_find fuel d n b s = Ok (Some c, s)) ∨
  ((∀ c x, c ∈ l → Bio.bufs s !! c = Some x → Bio.dev x = d → Bio.blockno x ≠ n) ∧
     Bio.bget_find fuel d n b s = Ok (None, s)).
Proof.
  induction l as [|c l IH]; intros fuel a b Hlen Hc Ha Hr Hf; (destruct fuel as [|fuel]; [cbn in Hf; lia|]).
  - cbn [chain] in Hc. simplify_eq. right. split; [intros c x Hin; by apply elem_of_nil in Hin|done].
  - destruct Hc as [Ha' Hc]. simplify_eq. cbn [Bio.bget_find].
    assert (c < 30)%nat as Hlt by (apply Hr; left).
    rewrite decide_False by (unfold Bio.HEAD; lia).
    destruct (lookup_lt_is_Some_2 (Bio.bufs s) c) as [x Hx]; [lia|].
    assert (Bio.get_buf c s = Ok (x, s)) as Eb by (unfold Bio.get_buf; by rewrite Hx).
    prog_step Eb.
    destruct (Z.eqb_spec (Bio.dev x) d) as [D1|D1], (Z.eqb_spec (Bio.blockno x) n) as [D2|D2]; cbn [andb];
      [left; exists c, x; split_and!; auto; left|..];
      (pose proof (chain_first _ _ _ _ Hc) as Hn;
       assert (Bio.get_next c s = Ok (hd HEAD l, s)) as En by (unfold Bio.get_next; by rewrite Hn);
       prog_step En;
       destruct (IH fuel c (hd HEAD l)) as [(e & y & H1 & H2)|[H1 H2]];
         [done|done|done|intros; apply Hr; by right|cbn in Hf; lia|left; exists e, y; split; [by right|done]|];
       right; split; [|done]; intros e y [->|He]%elem_of_cons; [congruence|by apply H1]).
Qed.

Lemma bget_lru_ok s l : ∀ fuel a b, length (Bio.bufs s) = 30%nat →
  chain (Bio.prev s) a l HEAD → Bio.prev s !! a = Some b → (∀ c, c ∈ l → (c < 30)%nat) →
  (length l < fuel)%nat →
  (∃ c x, c ∈ l ∧ Bio.bufs s !! c = Some x ∧ Bio.refcnt x = 0 ∧
     Bio.bget_lru fuel b s = Ok (Some c, s)) ∨
  ((∀ c x, c ∈ l → Bio.bufs s !! c = Some x → Bio.refcnt x ≠ 0) ∧
     Bio.bget_lru fuel b s = Ok (None, s)).
Proof.
  induction l as [|c l IH]; intros fuel a b Hlen Hc Ha Hr Hf; (destruct fuel as [|fuel]; [cbn in Hf; lia|]).
  - cbn [chain] in Hc. simplify_eq. right. split; [intros c x Hin; by apply elem_of_nil in Hin|done].
  - destruct Hc as [Ha' Hc]. simplify_eq. cbn [Bio.bget_lru].
    assert (c < 30)%nat as Hlt by (apply Hr; left).
    rewrite decide_False by (unfold Bio.HEAD; lia).
    destruct (lookup_lt_is_Some_2 (Bio.bufs s) c) as [x Hx]; [lia|].
    assert (Bio.get_buf c s = Ok (x, s)) as Eb by (unfold Bio.get_buf; by rewrite Hx).
    prog_step Eb. destruct (Z.eqb_spec (Bio.refcnt x) 0) as [D|D].
    { left. exists c, x. split_and!; auto. left. }
    pose proof (chain_first _ _ _ _ Hc) as Hn.
    assert (Bio.get_prev c s = Ok (hd HEAD l, s)) as En by (unfold Bio.get_prev; by rewrite Hn).
    prog_step En.
    destruct (IH fuel c (hd HEAD l)) as [(e & y & H1 & H2)|[H1 H2]];
      [done|done|done|intros; apply Hr; by right|cbn in Hf; lia|left; exists e, y; split; [by right|done]|].
    right. split; [|done]. intros e y [->|He]%elem_of_cons; [congruence|by apply H1].
Qed.

(** ** The operations *)

Lemma get_buf_ok s b x : Bio.bufs s !! b = Some x → Bio.get_buf b s = Ok (x, s).
Proof. intros H. unfold Bio.get_buf. by rewrite H. Qed.
Lemma mod_buf_ok s b x f : Bio.bufs s !! b = Some x →
  Bio.mod_buf b f s = Ok (tt, Bio.set_bufs (<[b := f x]> (Bio.bufs s)) s).
Proof. intros H. unfold Bio.mod_buf. by rewrite H. Qed.
Lemma mod_buf_again s b x y f : Bio.bufs s !! b = Some x →
  Bio.mod_buf b f (Bio.set_bufs (<[b := y]> (Bio.bufs s)) s) =
  Ok (tt, Bio.set_bufs (<[b := f y]> (Bio.bufs s)) s).
Proof.
  intros H. pose proof (lookup_lt_Some _ _ _ H). unfold Bio.mod_buf. cbn.
  rewrite list_lookup_insert_eq by done. by rewrite list_insert_insert_eq.
Qed.
Lemma get_buf_again s b x y : Bio.bufs s !! b = Some x →
  Bio.get_buf b (Bio.set_bufs (<[b := y]> (Bio.bufs s)) s) =
  Ok (y, Bio.set_bufs (<[b := y]> (Bio.bufs s)) s).
Proof.
  intros H. pose proof (lookup_lt_Some _ _ _ H). apply get_buf_ok. by apply list_lookup_insert_eq.
Qed.
Lemma acquiresleep_ok s b x y : Bio.bufs s !! b = Some x → Bio.locked y = false →
  Bio.acquiresleep b (Bio.set_bufs (<[b := y]> (Bio.bufs s)) s) =
  Ok (tt, Bio.set_bufs (<[b := Bio.with_locked true y]> (Bio.bufs s)) s).
Proof.
  intros H Hl. unfold Bio.acquiresleep. prog_step (get_buf_again s b x y H). rewrite Hl.
  by apply (mod_buf_again s b x).
Qed.
Lemma cache_acquire_ok s : Bio.lock s = false → Bio.acquire s = Ok (tt, Bio.set_lock true s).
Proof. intros H. unfold Bio.acquire. by rewrite H. Qed.
Lemma set_lock_id s : Bio.lock s = false → Bio.set_lock false s = s.
Proof. intros H. destruct s; cbn in *. by rewrite H. Qed.

(** [bget] returns a buffer for the block, locked. *)
Lemma bget_ok s a n : binv s a → a_lock a n = None → 0 < a_pins a n ∨ a_busy a < NBUF →
  a_pins a n < 2 ^ 31 →
  ∃ b x y, Bio.bufs s !! b = Some x ∧
    ((Bio.dev x = ROOTDEV ∧ Bio.blockno x = n ∧ Bio.valid y = Bio.valid x) ∨
     (uncached (Bio.bufs s) n ∧ Bio.refcnt x = 0 ∧ Bio.valid y = 0)) ∧
    y = Bio.mkBuf (Bio.valid y) ROOTDEV n true (a_pins a n + 1) (Bio.data x) ∧
    Bio.bget ROOTDEV n s = Ok (b, Bio.set_bufs (<[b := y]> (Bio.bufs s)) s).
Proof.
  intros HI Hl Hfree Hp. unfold Bio.bget. prog_step (cache_acquire_ok s (bi_lock _ _ HI)).
  set (s1 := Bio.set_lock true s). destruct (bi_lru _ _ HI) as (l & [D1 D2 D3] & Hperm).
  assert (Hin : ∀ c, c ∈ l ↔ (c < 30)%nat).
  { intros c. rewrite Hperm, elem_of_seq. lia. }
  assert (length l = 30%nat) as Hlen by (by rewrite Hperm, length_seq).
  assert (Bio.get_next Bio.HEAD s1 = Ok (hd HEAD l, s1)) as En.
  { unfold Bio.get_next. cbn. by rewrite (chain_first _ _ _ _ D1). }
  prog_step En.
  destruct (bget_find_ok s1 ROOTDEV n l Bio.list_fuel HEAD (hd HEAD l)) as
    [(c & x & Hc & Hx & Hd & Hn & E)|[Hno E]];
    [apply (bi_len _ _ HI)|done|by apply (chain_first _ _ _ _ D1)|intros; by apply Hin|
     rewrite Hlen; unfold Bio.list_fuel; lia| |].
  - prog_step E. cbn [Bio.bufs s1 Bio.set_lock] in Hx.
    pose proof (bi_rel _ _ HI _ _ Hx) as (R1 & R2 & R3 & R4). rewrite decide_True in R4 by done.
    cbv zeta in R4. rewrite Hn, Hl in R4. destruct R4 as (Q1 & Q2 & _).
    assert (Bio.locked x = false) as Hlx by (by destruct (Bio.locked x)).
    prog_step (mod_buf_ok s1 c x (Bio.with_refcnt (λ c, c + 1)) Hx).
    exists c, x, (Bio.mkBuf (Bio.valid x) ROOTDEV n true (a_pins a n + 1) (Bio.data x)).
    split; [done|]. split; [by left|]. split; [done|].
    unfold Bio.release at 1. erewrite bind_Ok by reflexivity.
    change (Bio.set_lock false _) with (Bio.set_lock false (Bio.set_bufs (<[c := Bio.with_refcnt (λ c, c + 1) x]> (Bio.bufs s)) s)).
    rewrite set_lock_id by apply (bi_lock _ _ HI).
    prog_step (acquiresleep_ok s c x (Bio.with_refcnt (λ c0, c0 + 1) x) Hx Hlx). unfold mret, prog_ret. do 3 f_equal.
    unfold Bio.with_locked, Bio.with_refcnt. cbn. by rewrite Hd, Hn, <- Q1, u32_small by lia.
  - prog_step E. assert (Hunc : uncached (Bio.bufs s) n).
    { intros i x Hx Hd. apply (Hno i x); auto. apply Hin. rewrite <- (bi_len _ _ HI). by eapply lookup_lt_Some. }
    destruct (bi_unc _ _ HI n Hunc) as (U1 & U2 & U3).
    assert (Bio.get_prev Bio.HEAD s1 = Ok (hd HEAD (reverse l), s1)) as Ep.
    { unfold Bio.get_prev. cbn. by rewrite (chain_first _ _ _ _ D2). }
    prog_step Ep.
    destruct (bget_lru_ok s1 (reverse l) Bio.list_fuel HEAD (hd HEAD (reverse l))) as
      [(c & x & Hc & Hx & Hr & E2)|[Hno2 _]];
      [apply (bi_len _ _ HI)|done|by apply (chain_first _ _ _ _ D2)|
       intros c Hc; apply Hin; by apply elem_of_reverse|
       rewrite length_reverse, Hlen; unfold Bio.list_fuel; lia| |].
    2:{ exfalso. destruct (nused_free (Bio.bufs s)) as (i & x & Hx & Hr).
        - rewrite (bi_busy _ _ HI), (bi_len _ _ HI). unfold NBUF in Hfree. lia.
        - apply (Hno2 i x); auto. apply elem_of_reverse, Hin. rewrite <- (bi_len _ _ HI).
          by eapply lookup_lt_Some. }
    prog_step E2. cbn [Bio.bufs s1 Bio.set_lock] in Hx.
    pose proof (bi_rel _ _ HI _ _ Hx) as (R1 & R2 & R3 & _).
    assert (Bio.locked x = false) as Hlx.
    { destruct (Bio.locked x); [|done]. by exfalso; apply R3. }
    prog_step (mod_buf_ok s1 c x (λ x, Bio.mkBuf 0 ROOTDEV n (Bio.locked x) 1 (Bio.data x)) Hx).
    exists c, x, (Bio.mkBuf 0 ROOTDEV n true 1 (Bio.data x)).
    split; [done|]. split; [by right|]. cbn. split; [by rewrite U1|].
    unfold Bio.release at 1. erewrite bind_Ok by reflexivity.
    change (Bio.set_lock false _) with (Bio.set_lock false (Bio.set_bufs
      (<[c := Bio.mkBuf 0 ROOTDEV n (Bio.locked x) 1 (Bio.data x)]> (Bio.bufs s)) s)).
    rewrite set_lock_id by apply (bi_lock _ _ HI).
    by prog_step (acquiresleep_ok s c x (Bio.mkBuf 0 ROOTDEV n (Bio.locked x) 1 (Bio.data x)) Hx Hlx).
Qed.

(** When every buffer is referenced, a block that is not cached cannot be read. *)
Lemma bread_full s a n : binv s a → a_pins a n = 0 → a_busy a = NBUF →
  Bio.bread ROOTDEV n s = Panic "bget: no buffers".
Proof.
  intros HI Hp Hb. destruct (bi_lru _ _ HI) as (l & [D1 D2 D3] & Hperm).
  assert (Hin : ∀ c, c ∈ l ↔ (c < 30)%nat) by (intros c; rewrite Hperm, elem_of_seq; lia).
  assert (length l = 30%nat) as Hlen by (by rewrite Hperm, length_seq).
  assert (Hall : ∀ i x, Bio.bufs s !! i = Some x → Bio.refcnt x ≠ 0).
  { intros i x Hx H0. pose proof (nused_insert _ _ _ (Bio.mkBuf 0 0 0 false 1 []) Hx) as Hu.
    rewrite (bi_busy _ _ HI), Hb, decide_False, decide_True in Hu; [|done|by intros H; apply H].
    unfold nused, NBUF in Hu.
    pose proof (length_filter used (<[i := Bio.mkBuf 0 0 0 false 1 []]> (Bio.bufs s))) as Hf.
    rewrite length_insert, (bi_len _ _ HI) in Hf. lia. }
  unfold Bio.bread, Bio.bget. rewrite bind_assoc'. prog_step (cache_acquire_ok s (bi_lock _ _ HI)).
  set (s1 := Bio.set_lock true s).
  assert (Bio.get_next Bio.HEAD s1 = Ok (hd HEAD l, s1)) as En.
  { unfold Bio.get_next. cbn. by rewrite (chain_first _ _ _ _ D1). }
  assert (Bio.get_prev Bio.HEAD s1 = Ok (hd HEAD (reverse l), s1)) as Ep.
  { unfold Bio.get_prev. cbn. by rewrite (chain_first _ _ _ _ D2). }
  prog_go En.
  destruct (bget_find_ok s1 ROOTDEV n l Bio.list_fuel HEAD (hd HEAD l)) as
    [(c & x & _ & Hx & Hd & Hn & _)|[_ E]];
    [apply (bi_len _ _ HI)|done|by apply (chain_first _ _ _ _ D1)|intros; by apply Hin|
     rewrite Hlen; unfold Bio.list_fuel; lia| |].
  { exfalso. apply (Hall c x Hx). pose proof (bi_rel _ _ HI _ _ Hx) as (_ & _ & _ & R4).
    rewrite decide_True in R4 by done. cbv zeta in R4. rewrite Hn, Hp in R4. symmetry. apply R4. }
  prog_go E. cbv iota. prog_go Ep.
  destruct (bget_lru_ok s1 (reverse l) Bio.list_fuel HEAD (hd HEAD (reverse l))) as
    [(c & x & _ & Hx & Hr & _)|[_ E2]];
    [apply (bi_len _ _ HI)|done|by apply (chain_first _ _ _ _ D2)|
     intros c Hc; apply Hin; by apply elem_of_reverse|
     rewrite length_reverse, Hlen; unfold Bio.list_fuel; lia| |].
  { exfalso. by apply (Hall c x Hx). }
  prog_go E2. reflexivity.
Qed.

Lemma used_true x : Bio.refcnt x ≠ 0 → (if decide (used x) then 1 else 0) = 1.
Proof. intros. by rewrite decide_True. Qed.
Lemma used_false x : Bio.refcnt x = 0 → (if decide (used x) then 1 else 0) = 0.
Proof. intros H. rewrite decide_False; [done|]. by intros Hn; apply Hn. Qed.

(** The state with a locked, valid buffer in place is as the interface says. *)
Lemma binv_read s a n b x v : binv s a → v ≠ 0 → Bio.bufs s !! b = Some x → a_lock a n = None →
  a_pins a n < 2 ^ 31 →
  (Bio.dev x = ROOTDEV ∧ Bio.blockno x = n) ∨ (uncached (Bio.bufs s) n ∧ Bio.refcnt x = 0) →
  binv (Bio.set_bufs (<[b := Bio.mkBuf v ROOTDEV n true (a_pins a n + 1) (a_view a n)]> (Bio.bufs s)) s)
    (abs_read a n b).
Proof.
  intros HI Hv Hx Hl Hp Hold.
  assert (Hpos : 0 ≤ a_pins a n ∧ length (a_view a n) = BSIZE ∧
    (if a_pins a n =? 0 then 1 else 0) = 1 - (if decide (used x) then 1 else 0)).
  { pose proof (bi_rel _ _ HI _ _ Hx) as (R1 & R2 & R3 & R4). destruct Hold as [[Hd <-]|[Hu H0]].
    - rewrite decide_True in R4 by done. cbv zeta in R4. destruct R4 as (-> & _ & _ & -> & _).
      split_and!; [lia|by destruct (_ =? _); [apply (bi_size _ _ HI)|]|].
      destruct (Z.eqb_spec (Bio.refcnt x) 0); [by rewrite used_false|by rewrite used_true].
    - apply (bi_unc _ _ HI) in Hu as (-> & _ & ->). rewrite used_false by done.
      split_and!; [lia|apply (bi_size _ _ HI)|done]. }
  destruct Hpos as (P1 & P2 & P3).
  eapply (binv_step s a b x _ _ (Bio.mkBuf v ROOTDEV n true (a_pins a n + 1) (a_view a n)));
    [done|done|done|exact Hold|reflexivity|apply HI|apply HI|..].
  - intros m Hm. cbn in *. by rewrite !fn_lookup_insert_ne.
  - unfold bufrel. cbn [Bio.refcnt Bio.data Bio.locked Bio.dev Bio.blockno Bio.valid abs_read a_pins a_lock a_view a_disk].
    split_and!; [lia|lia|done|lia|]. rewrite decide_True by done. rewrite !fn_lookup_insert.
    destruct (Z.eqb_spec v 0); [done|]. split_and!; [done|done|done|done|lia].
  - apply (bi_disk _ _ HI).
  - apply (bi_size _ _ HI).
  - apply (bi_writes _ _ HI).
  - rewrite (used_true (Bio.mkBuf _ _ _ _ _ _)) by (cbn; lia). cbn. lia.
Qed.

Lemma bread_ok s a n : binv s a → a_lock a n = None → 0 < a_pins a n ∨ a_busy a < NBUF →
  a_pins a n < 2 ^ 31 →
  ∃ b s', Bio.bread ROOTDEV n s = Ok (b, s') ∧ binv s' (abs_read a n b).
Proof.
  intros HI Hl Hfree Hp. destruct (bget_ok s a n HI Hl Hfree Hp) as (b & x & y & Hx & Hold & Hy & E).
  unfold Bio.bread. prog_step E. prog_step (get_buf_again s b x y Hx). exists b.
  pose proof (bi_rel _ _ HI _ _ Hx) as (R1 & R2 & R3 & R4).
  destruct (Z.eqb_spec (Bio.valid y) 0) as [H0|H0].
  - assert (a_view a n = disk_at (Bio.disk s) n) as Ev.
    { rewrite (bi_disk _ _ HI). destruct Hold as [(Hd & Hn & Hvy)|(Hu & _)]; [|by apply (bi_unc _ _ HI)].
      rewrite decide_True in R4 by done. cbv zeta in R4. rewrite Hn in R4.
      rewrite <- Hvy, H0 in R4. by destruct R4 as (_ & _ & _ & R4 & _). }
    unfold Bio.virtio_disk_rw. prog_go (get_buf_again s b x y Hx).
    rewrite !bind_assoc'. prog_run. cbn [Bio.disk Bio.set_bufs].
    prog_go (mod_buf_again s b x y (Bio.with_data (disk_at (Bio.disk s) (Bio.blockno y))) Hx).
    prog_step (mod_buf_again s b x (Bio.with_data (disk_at (Bio.disk s) (Bio.blockno y)) y) (Bio.with_valid 1) Hx).
    eexists. split; [reflexivity|]. rewrite Hy. unfold Bio.with_valid, Bio.with_data. cbn. rewrite <- Ev.
    apply (binv_read s a n b x 1); auto. naive_solver.
  - destruct Hold as [(Hd & Hn & Hvy)|(_ & _ & ?)]; [|done]. eexists. split; [reflexivity|].
    rewrite decide_True in R4 by done. cbv zeta in R4. rewrite Hn, <- Hvy in R4.
    destruct (Z.eqb_spec (Bio.valid y) 0); [done|]. destruct R4 as (_ & _ & _ & Ev & _).
    rewrite Hy, <- Ev. apply (binv_read s a n b x (Bio.valid y)); auto.
Qed.

Lemma bdata_ok s a n b : binv s a → a_lock a n = Some b → Bio.bdata b s = Ok (a_view a n, s).
Proof.
  intros HI Hl. destruct (binv_locked s a n b HI Hl) as (x & Hx & _ & _ & _ & _ & Hd & _).
  unfold Bio.bdata. prog_step (get_buf_ok s b x Hx). by rewrite Hd.
Qed.
Lemma bblockno_ok s a n b : binv s a → a_lock a n = Some b → Bio.bblockno b s = Ok (n, s).
Proof.
  intros HI Hl. destruct (binv_locked s a n b HI Hl) as (x & Hx & _ & Hn & _).
  unfold Bio.bblockno. prog_step (get_buf_ok s b x Hx). by rewrite Hn.
Qed.

(** An operation on a locked buffer that changes its reference count, its lock
    or its data, and the disk contents of its block. *)
Lemma binv_owned s a n b x s' a' lk c v : binv s a → a_lock a n = Some b →
  Bio.bufs s !! b = Some x →
  Bio.bufs s' = <[b := Bio.mkBuf (Bio.valid x) (Bio.dev x) (Bio.blockno x) lk c v]> (Bio.bufs s) →
  Bio.lock s' = false → lru (Bio.next s') (Bio.prev s') → agree_off n a a' →
  0 ≤ c < 2 ^ 32 → length v = BSIZE → (lk = true → c ≠ 0) → (c = 0 → v = a_disk a' n) →
  a_pins a' n = c → a_lock a' n = (if lk then Some b else None) → a_view a' n = v →
  (∀ m, disk_at (Bio.disk s') m = a_disk a' m) → length (a_disk a' n) = BSIZE →
  Bio.written s' = a_writes a' →
  a_busy a' = a_busy a - (if c =? 0 then 1 else 0) →
  binv s' a'.
Proof.
  intros HI Hl Hx Hb Hlk Hlru Hag Hc Hv Hlc Hcl A1 A2 A3 A4 A5 A6 A7.
  destruct (binv_locked s a n b HI Hl) as (x0 & Hx0 & Hd & Hn & _ & Hval & _ & Hr & Hp).
  rewrite Hx in Hx0. injection Hx0 as <-. subst n.
  eapply (binv_step s a b x s' a' (Bio.mkBuf (Bio.valid x) (Bio.dev x) (Bio.blockno x) lk c v));
    [done|done|exact Hd|by left|exact Hb|done|done|done| |done|done|done|].
  - unfold bufrel. cbn. split_and!; [lia|lia|done|done|]. rewrite decide_True by done. rewrite A1, A2, A3.
    destruct (Z.eqb_spec (Bio.valid x) 0); [done|]. split_and!; [done|done|done|done|].
    intros H0. by apply Hcl.
  - rewrite (used_true x) by lia. rewrite A7.
    destruct (Z.eqb_spec c 0); [rewrite used_false by done; lia|].
    rewrite used_true by done. lia.
Qed.

Lemma bset_ok s a n b v : binv s a → a_lock a n = Some b → length v = BSIZE →
  ∃ s', Bio.bset b v s = Ok (tt, s') ∧ binv s' (abs_set a n v).
Proof.
  intros HI Hl Hv. destruct (binv_locked s a n b HI Hl) as (x & Hx & Hd & Hn & Hlx & Hval & _ & Hr & Hp).
  unfold Bio.bset. rewrite (mod_buf_ok s b x _ Hx). eexists. split; [done|].
  eapply (binv_owned s a n b x _ _ true (Bio.refcnt x) v); [done|done|done|unfold Bio.with_data; cbn; by rewrite Hlx|apply HI|apply HI|..];
    cbn; rewrite ?fn_lookup_insert; try done; try lia; try apply HI.
  - intros m Hm. cbn. by rewrite fn_lookup_insert_ne.
  - destruct (Z.eqb_spec (Bio.refcnt x) 0); lia.
Qed.

Lemma holding_ok s b x : Bio.bufs s !! b = Some x → Bio.locked x = true →
  Bio.holdingsleep b s = Ok (true, s).
Proof. intros Hx Hl. unfold Bio.holdingsleep. prog_step (get_buf_ok s b x Hx). by rewrite Hl. Qed.

Lemma bwrite_ok s a n b : binv s a → a_lock a n = Some b →
  ∃ s', Bio.bwrite b s = Ok (tt, s') ∧ binv s' (abs_write a n).
Proof.
  intros HI Hl. destruct (binv_locked s a n b HI Hl) as (x & Hx & Hd & Hn & Hlx & Hval & Hdata & Hr & Hp).
  unfold Bio.bwrite. prog_step (holding_ok s b x Hx Hlx). cbn [negb]. unfold Bio.virtio_disk_rw.
  prog_step (get_buf_ok s b x Hx). eexists. split; [done|].
  pose proof (bi_rel _ _ HI _ _ Hx) as (_ & Hsz & _).
  eapply (binv_owned s a n b x _ _ true (Bio.refcnt x) (Bio.data x)); [done|done|done| |apply HI|apply HI|..];
    cbn; rewrite ?fn_lookup_insert; try done; try lia; try congruence.
  - rewrite list_insert_id; [done|]. destruct x; cbn in *. by rewrite Hx, Hlx.
  - intros m Hm. cbn. by rewrite fn_lookup_insert_ne.
  - intros m. unfold disk_at. destruct (decide (m = n)) as [->|Hm].
    + by rewrite Hn, lookup_insert_eq, fn_lookup_insert.
    + rewrite Hn, lookup_insert_ne, fn_lookup_insert_ne by done. apply (bi_disk _ _ HI).
  - rewrite (bi_writes _ _ HI). by rewrite Hn, Hdata.
  - destruct (Z.eqb_spec (Bio.refcnt x) 0); lia.
Qed.

Lemma bpin_ok s a n b : binv s a → a_lock a n = Some b → a_pins a n < 2 ^ 31 →
  ∃ s', Bio.bpin b s = Ok (tt, s') ∧ binv s' (abs_pin a n 1).
Proof.
  intros HI Hl Hlt. destruct (binv_locked s a n b HI Hl) as (x & Hx & Hd & Hn & Hlx & Hval & Hdata & Hr & Hp).
  pose proof (bi_rel _ _ HI _ _ Hx) as (_ & Hsz & _).
  unfold Bio.bpin. prog_step (cache_acquire_ok s (bi_lock _ _ HI)).
  prog_step (mod_buf_ok (Bio.set_lock true s) b x (Bio.with_refcnt (λ c, c + 1)) Hx).
  eexists. split; [reflexivity|].
  eapply (binv_owned s a n b x _ _ true (a_pins a n + 1) (Bio.data x)); [done|done|done| |done|apply HI|..];
    cbn; rewrite ?fn_lookup_insert; try done; try lia; try apply HI.
  - unfold Bio.with_refcnt. by rewrite Hlx, Hr, u32_small by lia.
  - intros m Hm. cbn. by rewrite fn_lookup_insert_ne.
  - destruct (Z.eqb_spec (a_pins a n + 1) 0); lia.
Qed.

Lemma bunpin_ok s a n b : binv s a → a_lock a n = Some b → 2 ≤ a_pins a n →
  ∃ s', Bio.bunpin b s = Ok (tt, s') ∧ binv s' (abs_pin a n (-1)).
Proof.
  intros HI Hl Hlt. destruct (binv_locked s a n b HI Hl) as (x & Hx & Hd & Hn & Hlx & Hval & Hdata & Hr & Hp).
  pose proof (bi_rel _ _ HI _ _ Hx) as (_ & Hsz & _).
  unfold Bio.bunpin. prog_step (cache_acquire_ok s (bi_lock _ _ HI)).
  prog_step (mod_buf_ok (Bio.set_lock true s) b x (Bio.with_refcnt (λ c, c - 1)) Hx).
  eexists. split; [reflexivity|].
  eapply (binv_owned s a n b x _ _ true (a_pins a n - 1) (Bio.data x)); [done|done|done| |done|apply HI|..];
    cbn; rewrite ?fn_lookup_insert; try done; try lia; try apply HI.
  - unfold Bio.with_refcnt. by rewrite Hlx, Hr, u32_small by lia.
  - intros m Hm. cbn. by rewrite fn_lookup_insert_ne.
  - destruct (Z.eqb_spec (a_pins a n - 1) 0); lia.
Qed.

(** ** Release *)

Lemma get_next_ok s b c : Bio.next s !! b = Some c → Bio.get_next b s = Ok (c, s).
Proof. intros H. unfold Bio.get_next. by rewrite H. Qed.
Lemma get_prev_ok s b c : Bio.prev s !! b = Some c → Bio.get_prev b s = Ok (c, s).
Proof. intros H. unfold Bio.get_prev. by rewrite H. Qed.

Lemma set_next_eq b c s : Bio.set_next b c s =
  Ok (tt, Bio.mkState (Bio.lock s) (Bio.bufs s) (<[b := c]> (Bio.next s)) (Bio.prev s) (Bio.disk s) (Bio.written s)).
Proof. done. Qed.
Lemma set_prev_eq b c s : Bio.set_prev b c s =
  Ok (tt, Bio.mkState (Bio.lock s) (Bio.bufs s) (Bio.next s) (<[b := c]> (Bio.prev s)) (Bio.disk s) (Bio.written s)).
Proof. done. Qed.

Lemma brelse_mru_ok s b : lru (Bio.next s) (Bio.prev s) → (b < 30)%nat →
  ∃ nx pv, Bio.brelse_mru b s =
      Ok (tt, Bio.mkState (Bio.lock s) (Bio.bufs s) nx pv (Bio.disk s) (Bio.written s)) ∧
    lru nx pv.
Proof.
  intros (l & HD & Hperm) Hb. assert (b ∈ l) as Hin by (rewrite Hperm, elem_of_seq; lia).
  apply list_elem_of_split in Hin as (l1 & l2 & ->).
  pose proof (dlist_unlink _ _ _ _ _ _ HD) as HU. destruct HD as [D1 D2 D3].
  pose proof D1 as [_ N]%chain_app. apply chain_first in N.
  rewrite reverse_app, reverse_cons, <- app_assoc in D2.
  pose proof D2 as [_ P]%chain_app. apply chain_first in P. rewrite hd_reverse in P.
  assert (Hbh : b ≠ HEAD) by (unfold Bio.HEAD; lia).
  apply list.NoDup_cons in D3 as [D3 D4]. apply list.NoDup_app in D4 as (_ & D5 & D4).
  apply list.NoDup_cons in D4 as [D4 _].
  assert (b ≠ hd HEAD l2).
  { destruct l2 as [|c l2]; [done|]. cbn. intros ->. apply D4. left. }
  assert (Hnin : b ∉ HEAD :: l1 ++ l2).
  { rewrite elem_of_cons, elem_of_app. intros [?|[Hi|?]]; [done| |done].
    apply (D5 b Hi). left. }
  pose proof (dlist_push _ _ _ _ b HU Hnin) as HP.
  pose proof (chain_first _ _ _ _ (dl_next _ _ _ _ HU)) as HN.
  unfold Bio.brelse_mru.
  prog_step (get_next_ok s b _ N). prog_step (get_prev_ok s b _ P). prog_step (set_prev_eq (hd HEAD l2) (last_of HEAD l1) s).
  erewrite bind_Ok; [|apply get_prev_ok; cbn; rewrite lookup_insert_ne by done; exact P]. cbn beta.
  erewrite bind_Ok; [|apply get_next_ok; exact N]. cbn beta.
  erewrite bind_Ok by apply set_next_eq. cbn beta.
  erewrite bind_Ok; [|apply get_next_ok; exact HN]. cbn beta.
  erewrite bind_Ok by apply set_next_eq. cbn beta.
  erewrite bind_Ok by apply set_prev_eq. cbn beta.
  erewrite bind_Ok; [|apply get_next_ok; cbn; rewrite lookup_insert_ne by done; exact HN]. cbn beta.
  erewrite bind_Ok by apply set_prev_eq. cbn beta.
  rewrite set_next_eq. cbn.
  eexists _, _. split; [reflexivity|]. eexists. split; [exact HP|].
  rewrite <- Hperm. by rewrite Permutation_middle.
Qed.

Lemma brelse_ok s a n b : binv s a → a_lock a n = Some b →
  (a_pins a n = 1 → a_view a n = a_disk a n) →
  ∃ s', Bio.brelse b s = Ok (tt, s') ∧ binv s' (abs_relse a n).
Proof.
  intros HI Hl Hclean.
  destruct (binv_locked s a n b HI Hl) as (x & Hx & Hd & Hn & Hlx & Hval & Hdata & Hr & Hp).
  pose proof (bi_rel _ _ HI _ _ Hx) as (_ & Hsz & _).
  pose proof (lookup_lt_Some _ _ _ Hx) as Hlt. rewrite (bi_len _ _ HI) in Hlt.
  unfold Bio.brelse. prog_step (holding_ok s b x Hx Hlx). cbn [negb]. unfold Bio.releasesleep.
  prog_step (mod_buf_ok s b x (Bio.with_locked false) Hx).
  set (y := Bio.with_refcnt (λ c, c - 1) (Bio.with_locked false x)).
  set (s1 := Bio.set_bufs (<[b := Bio.with_locked false x]> (Bio.bufs s)) s).
  prog_step (cache_acquire_ok s1 (bi_lock _ _ HI)).
  set (s2 := Bio.set_bufs (<[b := y]> (Bio.bufs s)) (Bio.set_lock true s)).
  assert (Bio.mod_buf b (Bio.with_refcnt (λ c, c - 1)) (Bio.set_lock true s1) = Ok (tt, s2)) as E1
    by apply (mod_buf_again (Bio.set_lock true s) b x _ _ Hx).
  prog_step E1. prog_step (get_buf_again (Bio.set_lock true s) b x y Hx). fold s2.
  assert (Bio.refcnt y = a_pins a n - 1) as Hy.
  { unfold y. cbn. by rewrite Hr, u32_small by lia. }
  assert (Hfin : ∀ nx pv, lru nx pv →
    binv (Bio.mkState false (Bio.bufs s2) nx pv (Bio.disk s) (Bio.written s)) (abs_relse a n)).
  { intros nx pv Hlru.
    eapply (binv_owned s a n b x _ _ false (a_pins a n - 1) (Bio.data x)); [done|done|done| |done|done|..];
      cbn; rewrite ?fn_lookup_insert; try done; try lia; try apply HI.
    - unfold y, Bio.with_refcnt. cbn. by rewrite Hr, u32_small by lia.
    - intros m Hm. cbn. by rewrite !fn_lookup_insert_ne.
    - intros Hc. rewrite Hdata. apply Hclean. lia.
    - destruct (Z.eqb_spec (a_pins a n) 1), (Z.eqb_spec (a_pins a n - 1) 0); lia. }
  destruct (Z.eqb_spec (Bio.refcnt y) 0).
  - destruct (brelse_mru_ok s2 b (bi_lru _ _ HI) Hlt) as (nx & pv & E & Hlru). prog_step E.
    eexists. split; [reflexivity|]. by apply Hfin.
  - prog_run. eexists. split; [reflexivity|]. apply Hfin, (bi_lru _ _ HI).
Qed.

(** ** Start *)

Lemma binit_loop_ok n : ∀ b s l, (n + b = 30)%nat →
  dlist (Bio.next s) (Bio.prev s) HEAD l → l ≡ₚ seq 0 b → Bio.bufs s = replicate 30 Bio.zero_buf →
  ∃ nx pv, Bio.binit_loop n b s =
      Ok (tt, Bio.mkState (Bio.lock s) (Bio.bufs s) nx pv (Bio.disk s) (Bio.written s)) ∧ lru nx pv.
Proof.
  induction n as [|n IH]; intros b s l Hn HD Hp Hb; cbn [Bio.binit_loop].
  - exists (Bio.next s), (Bio.prev s). split; [by destruct s|]. exists l. split; [done|].
    by replace 30%nat with b by lia.
  - pose proof (chain_first _ _ _ _ (dl_next _ _ _ _ HD)) as HN.
    assert (Hbh : b ≠ HEAD) by (unfold Bio.HEAD; lia).
    assert (Hnin : b ∉ HEAD :: l).
    { rewrite elem_of_cons, Hp, elem_of_seq. intros [?|?]; [done|lia]. }
    pose proof (dlist_push _ _ _ _ b HD Hnin) as HP.
    prog_step (get_next_ok s HEAD _ HN).
    prog_step (set_next_eq b (hd HEAD l) s).
    erewrite bind_Ok by apply set_prev_eq. cbn beta.
    erewrite bind_Ok; [|apply (mod_buf_ok _ b Bio.zero_buf); cbn; rewrite Hb; apply lookup_replicate_2; lia].
    cbn beta.
    erewrite bind_Ok; [|apply get_next_ok; cbn; rewrite lookup_insert_ne by done; exact HN]. cbn beta.
    erewrite bind_Ok by apply set_prev_eq. cbn beta.
    erewrite bind_Ok by apply set_next_eq. cbn beta.
    change (Bio.with_locked false Bio.zero_buf) with Bio.zero_buf. cbn [Bio.bufs Bio.set_bufs].
    rewrite list_insert_id by (rewrite Hb; apply lookup_replicate_2; lia).
    edestruct IH as (nx & pv & E & Hl); [| | | |exists nx, pv; split; [exact E|exact Hl]].
    + lia.
    + exact HP.
    + rewrite Hp. replace (seq 0 (S b)) with (seq 0 b ++ [b]) by (by rewrite seq_S).
      by rewrite Permutation_app_comm.
    + done.
Qed.

Definition boot (d : gmap Z block) : Bio.state :=
  match Bio.binit (Bio.zero_state d) with Ok (_, s) => s | _ => Bio.zero_state d end.

Lemma binit_ok d : disk_ok d → Bio.binit (Bio.zero_state d) = Ok (tt, boot d) ∧ binv (boot d) (abs_boot d).
Proof.
  intros Hd. unfold boot.
  destruct (binit_loop_ok 30 0 (Bio.mkState false (replicate 30 Bio.zero_buf) {[HEAD := HEAD]} {[HEAD := HEAD]} d []) [])
    as (nx & pv & E & Hl); [lia| |done|done|].
  { constructor; cbn; [done|done|]. apply NoDup_singleton. }
  assert (Bio.binit (Bio.zero_state d) = Ok (tt, Bio.mkState false (replicate 30 Bio.zero_buf) nx pv d [])) as ->.
  { unfold Bio.binit. prog_run. unfold Bio.set_prev. prog_run. unfold Bio.set_next. prog_run. exact E. }
  split; [done|]. constructor; cbn [Bio.bufs Bio.lock Bio.next Bio.prev Bio.disk Bio.written]; auto.
  - intros i j x y Hx _ Hdx. apply lookup_replicate in Hx as [-> _]. done.
  - intros i x Hx. apply lookup_replicate in Hx as [-> _]. unfold bufrel. cbn. split_and!; [lia|lia|done|done|done].
Qed.

Lemma binv_eq s a a' : binv s a → abs_eq a a' → binv s a'.
Proof.
  intros HI [E1 E2 E3 E4 E5 E6]. constructor; try apply HI.
  - intros i x Hx. pose proof (bi_rel _ _ HI i x Hx) as H. unfold bufrel in *. cbv zeta in *.
    by rewrite <- E1, <- E2, <- E4, <- E5.
  - intros n Hn. rewrite <- E1, <- E2, <- E4, <- E5. by apply (bi_unc _ _ HI).
  - intros n. rewrite <- E2. apply (bi_disk _ _ HI).
  - intros n. rewrite <- E2. apply (bi_size _ _ HI).
  - rewrite <- E3. apply (bi_writes _ _ HI).
  - rewrite <- E6. apply (bi_busy _ _ HI).
Qed.

Lemma binv_block s a n : binv s a → length (a_view a n) = BSIZE ∧
  (a_pins a n = 0 → a_view a n = a_disk a n) ∧ 0 ≤ a_pins a n.
Proof.
  intros HI. destruct (cached_or (Bio.bufs s) n) as [(i & x & Hx & Hd & <-)|Hu].
  - pose proof (bi_rel _ _ HI i x Hx) as (R1 & R2 & R3 & R4). rewrite decide_True in R4 by done.
    cbv zeta in R4. destruct R4 as (-> & _ & _ & R4 & R5). split; [|split; [done|lia]].
    rewrite R4. by destruct (_ =? _); [apply (bi_size _ _ HI)|].
  - apply (bi_unc _ _ HI) in Hu as (-> & _ & ->). split; [apply (bi_size _ _ HI)|done].
Qed.

Lemma binv_lock_pins s a n : binv s a → a_lock a n ≠ None → 1 ≤ a_pins a n.
Proof.
  intros HI Hl. destruct (a_lock a n) as [b|] eqn:E; [|done].
  destruct (binv_locked s a n b HI E) as (x & _ & _ & _ & _ & _ & _ & _ & Hp). lia.
Qed.

(** The cache implements the interface that the log uses. *)
#[global] Instance bio_cache : BufferCache Bio.state := {|
  bread := Bio.bread; bdata := Bio.bdata; bset := Bio.bset; bblockno := Bio.bblockno;
  bwrite := Bio.bwrite; brelse := Bio.brelse; bpin := Bio.bpin; bunpin := Bio.bunpin;
  bc_boot := boot; bc_disk := Bio.disk; bc_inv := binv;
  bc_boot_ok d Hd := proj2 (binit_ok d Hd);
  bc_disk_ok s a HI n := bi_disk s a HI n;
  bc_eq := binv_eq;
  bc_size s a HI n := conj (proj1 (binv_block s a n HI)) (bi_size s a HI n);
  bc_clean s a HI n := proj1 (proj2 (binv_block s a n HI));
  bc_pins s a HI n := conj (proj2 (proj2 (binv_block s a n HI))) (binv_lock_pins s a n HI);
  BufCache.bread_ok := bread_ok; BufCache.bdata_ok := bdata_ok; BufCache.bblockno_ok := bblockno_ok; BufCache.bset_ok := bset_ok;
  BufCache.bwrite_ok := bwrite_ok; BufCache.brelse_ok := brelse_ok; BufCache.bpin_ok := bpin_ok; BufCache.bunpin_ok := bunpin_ok |}.

End BioProofs.
