(* ===== verification/Log.v ===== *)
(** * The redo log (kernel/log.c)

    The log works on any buffer cache; the state is the [struct log] together
    with the state of the cache.  A process that would sleep in [begin_op]
    returns [false] from [begin_op_try], one turn of the loop of [begin_op]. *)

From S2P Require Import Prelude Bytes BufCache.
Import Bytes BufCache.

Module Log.

Definition MAXOPBLOCKS : Z := 10.
Definition LOGSIZE : Z := MAXOPBLOCKS * 3.

Record log := mkLog {
  lock : bool;
  start : Z;
  size : Z;
  outstanding : Z;
  committing : Z;
  dev : Z;
  lh_n : Z;
  lh_block : list Z }.

(** The zeroed global. *)
Definition zero_log : log := mkLog false 0 0 0 0 0 0 (replicate (Z.to_nat LOGSIZE) 0).

Definition set_lock (v : bool) (l : log) : log :=
  mkLog v (start l) (size l) (outstanding l) (committing l) (dev l) (lh_n l) (lh_block l).
Definition set_outstanding (v : Z) (l : log) : log :=
  mkLog (lock l) (start l) (size l) v (committing l) (dev l) (lh_n l) (lh_block l).
Definition set_committing (v : Z) (l : log) : log :=
  mkLog (lock l) (start l) (size l) (outstanding l) v (dev l) (lh_n l) (lh_block l).
Definition set_n (v : Z) (l : log) : log :=
  mkLog (lock l) (start l) (size l) (outstanding l) (committing l) (dev l) v (lh_block l).
Definition set_block (v : list Z) (l : log) : log :=
  mkLog (lock l) (start l) (size l) (outstanding l) (committing l) (dev l) (lh_n l) v.

Section log.
Context {S : Type} `{BC : BufferCache S}.

Definition st : Type := log * S.

Definition cache {A} (m : prog S A) : prog st A := λ '(l, s),
  match m s with
  | Ok (a, s') => Ok (a, (l, s'))
  | Panic e => Panic e
  | Fault => Fault
  | Spin => Spin
  end.
Definition glog : prog st log := gets fst.
Definition mlog (f : log → log) : prog st unit := modify (λ '(l, s), (f l, s)).

Definition acquire : prog st unit :=
  l ← glog; if lock l then panic "acquire" else mlog (set_lock true).
Definition release : prog st unit :=
  l ← glog; if lock l then mlog (set_lock false) else panic "release".

(** [log.lh.block[i]] *)
Definition get_block (i : Z) : prog st Z :=
  l ← glog;
  match lh_block l !! Z.to_nat i with Some b => mret b | None => fault end.
Definition put_block (i v : Z) : prog st unit :=
  l ← glog;
  match lh_block l !! Z.to_nat i with
  | Some _ => mlog (set_block (<[Z.to_nat i := v]> (lh_block l)))
  | None => fault
  end.

Fixpoint install_loop (k : nat) (tail : Z) (recovering : bool) : prog st unit :=
  match k with
  | O => skip
  | Datatypes.S k' =>
      l ← glog;
      lbuf ← cache (bread (dev l) (u32 (start l + tail + 1)));
      bno ← get_block tail;
      dbuf ← cache (bread (dev l) (u32 bno));
      d ← cache (bdata lbuf);
      cache (bset dbuf d);;
      cache (bwrite dbuf);;
      when (negb recovering) (cache (bunpin dbuf));;
      cache (brelse lbuf);;
      cache (brelse dbuf);;
      install_loop k' (tail + 1) recovering
  end.
Definition install_trans (recovering : bool) : prog st unit :=
  l ← glog; install_loop (Z.to_nat (lh_n l)) 0 recovering.

Fixpoint read_head_loop (k : nat) (i : Z) (lh : block) : prog st unit :=
  match k with
  | O => skip
  | Datatypes.S k' =>
      put_block i (i32 (get32 lh (Z.to_nat (4 + 4 * i))));;
      read_head_loop k' (i + 1) lh
  end.
Definition read_head : prog st unit :=
  l ← glog;
  buf ← cache (bread (dev l) (u32 (start l)));
  lh ← cache (bdata buf);
  mlog (set_n (i32 (get32 lh 0)));;
  l ← glog;
  read_head_loop (Z.to_nat (lh_n l)) 0 lh;;
  cache (brelse buf).

(** The stores of [write_head] into the header block. *)
Fixpoint head_blocks (k : nat) (i : Z) (block : list Z) (hb : list Z) : list Z :=
  match k with
  | O => hb
  | Datatypes.S k' =>
      head_blocks k' (i + 1) block
        (put32 hb (Z.to_nat (4 + 4 * i)) (default 0 (block !! Z.to_nat i)))
  end.
Definition head_data (n : Z) (block hb : list Z) : list Z :=
  head_blocks (Z.to_nat n) 0 block (put32 hb 0 n).
Definition write_head : prog st unit :=
  l ← glog;
  buf ← cache (bread (dev l) (u32 (start l)));
  hb ← cache (bdata buf);
  cache (bset buf (head_data (lh_n l) (lh_block l) hb));;
  cache (bwrite buf);;
  cache (brelse buf).

Definition recover_from_log : prog st unit :=
  read_head;;
  install_trans true;;
  mlog (set_n 0);;
  write_head.

(** [logstart] and [nlog] are the fields of the superblock. *)
Definition initlog (d logstart nlog : Z) : prog st unit :=
  (if Z.of_nat BSIZE <=? 4 + 4 * LOGSIZE then panic "initlog: too big logheader" else skip);;
  mlog (λ l, mkLog false (i32 logstart) (i32 nlog) (outstanding l) (committing l) d (lh_n l) (lh_block l));;
  recover_from_log.

(** One turn of the loop of [begin_op]: [true] when the operation is admitted,
    [false] when the process goes to sleep. *)
Definition begin_op_try : prog st bool :=
  acquire;;
  l ← glog;
  if negb (committing l =? 0) then release;; mret false
  else if LOGSIZE <? i32 (lh_n l + i32 (i32 (outstanding l + 1) * MAXOPBLOCKS)) then release;; mret false
  else mlog (set_outstanding (i32 (outstanding l + 1)));; release;; mret true.

Fixpoint write_log_loop (k : nat) (tail : Z) : prog st unit :=
  match k with
  | O => skip
  | Datatypes.S k' =>
      l ← glog;
      to ← cache (bread (dev l) (u32 (start l + tail + 1)));
      bno ← get_block tail;
      from ← cache (bread (dev l) (u32 bno));
      d ← cache (bdata from);
      cache (bset to d);;
      cache (bwrite to);;
      cache (brelse from);;
      cache (brelse to);;
      write_log_loop k' (tail + 1)
  end.
Definition write_log : prog st unit :=
  l ← glog; write_log_loop (Z.to_nat (lh_n l)) 0.

Definition commit : prog st unit :=
  l ← glog;
  if 0 <? lh_n l then
    write_log;;
    write_head;;
    install_trans false;;
    mlog (set_n 0);;
    write_head
  else skip.

Definition end_op : prog st unit :=
  acquire;;
  l ← glog;
  mlog (set_outstanding (i32 (outstanding l - 1)));;
  l ← glog;
  if negb (committing l =? 0) then panic "log.committing"
  else if outstanding l =? 0 then
    mlog (set_committing 1);;
    release;;
    commit;;
    acquire;;
    mlog (set_committing 0);;
    release
  else release.

(** The search of [log_write]: the index of [bno], or [n]. *)
Fixpoint find_block (k : nat) (i : Z) (block : list Z) (bno : Z) : Z :=
  match k with
  | O => i
  | Datatypes.S k' =>
      if u32 (default 0 (block !! Z.to_nat i)) =? bno then i else find_block k' (i + 1) block bno
  end.
Definition log_write (b : nat) : prog st unit :=
  acquire;;
  l ← glog;
  if (LOGSIZE <=? lh_n l) || (size l - 1 <=? lh_n l) then panic "too big a transaction"
  else if outstanding l <? 1 then panic "log_write outside of trans"
  else
    bno ← cache (bblockno b);
    let i := find_block (Z.to_nat (lh_n l)) 0 (lh_block l) bno in
    put_block i (i32 bno);;
    (if i =? lh_n l then cache (bpin b);; mlog (set_n (i32 (lh_n l + 1))) else skip);;
    release.
End log.

End Log.
