(* ===== verification/LogProofs.v ===== *)
(** * Crash safety of the log

    The commit of a transaction writes a fixed sequence of blocks.  Recovery
    from the disk as it is after any prefix of these writes produces either
    the contents before the transaction or all its updates; the write of the
    header decides which. *)

From S2P Require Import Prelude Bytes BufCache Log.
Import Bytes BufCache Log.

Module LogProofs.

(** Disk contents after a list of writes. *)
Definition upd (f : Z → block) (ws : list (Z * block)) : Z → block :=
  foldl (λ f '(n, v), <[n := v]> f) f ws.
(** One reference to every block of the list. *)
Definition pinsf (l : list Z) : Z → Z := λ n, if decide (n ∈ l) then 1 else 0.

Ltac fsimp := cbn [abs_read abs_set abs_write abs_pin abs_relse a_view a_disk a_writes a_pins a_lock a_busy];
  repeat (rewrite fn_lookup_insert || rewrite fn_lookup_insert_ne by congruence).
Ltac fcase n := repeat match goal with
  | |- context [<[?k := _]> _ n] => destruct (decide (n = k)) as [->|?]; fsimp
  end.

Lemma upd_app f ws1 ws2 : upd f (ws1 ++ ws2) = upd (upd f ws1) ws2.
Proof. apply foldl_app. Qed.
Lemma upd_one f n v : upd f [(n, v)] = <[n := v]> f.
Proof. done. Qed.
Lemma upd_ext f g ws : (∀ n, f n = g n) → ∀ n, upd f ws n = upd g ws n.
Proof.
  revert f g. induction ws as [|[k v] ws IH]; intros f g H n; cbn [upd foldl]; [done|].
  apply IH. intros m. fcase m; done.
Qed.
Lemma upd_notin f ws n : n ∉ ws.*1 → upd f ws n = f n.
Proof.
  revert f. induction ws as [|[k v] ws IH]; intros f H; cbn [upd foldl fmap list_fmap] in *; [done|].
  apply not_elem_of_cons in H as [H1 H2]. cbn in H1.
  change (upd (<[k := v]> f) ws n = f n). rewrite IH by done. by rewrite fn_lookup_insert_ne.
Qed.

Lemma upd_self f (v : Z → block) xs n : upd f (zip xs (v <$> xs)) n = if decide (n ∈ xs) then v n else f n.
Proof.
  revert f. induction xs as [|x xs IH]; intros f; cbn [fmap list_fmap zip zip_with upd foldl].
  - by rewrite decide_False by apply not_elem_of_nil.
  - change (upd (<[x := v x]> f) (zip xs (v <$> xs)) n = if decide (n ∈ x :: xs) then v n else f n).
    rewrite IH. destruct (decide (n ∈ xs)) as [Hn|Hn].
    + rewrite decide_True by (by right). done.
    + destruct (decide (n = x)) as [->|Hx].
      * rewrite decide_True by left. apply fn_lookup_insert.
      * rewrite decide_False by (rewrite elem_of_cons; naive_solver). by apply fn_lookup_insert_ne.
Qed.
Lemma seqZ_S a n : seqZ a (Z.of_nat (S n)) = a :: seqZ (a + 1) (Z.of_nat n).
Proof. rewrite seqZ_cons by lia. do 2 f_equal; lia. Qed.
Lemma upd_seq ys : ∀ f a, upd f (zip (seqZ a (Z.of_nat (length ys))) ys) <$> seqZ a (Z.of_nat (length ys)) = ys.
Proof.
  induction ys as [|y ys IH]; intros f a; [done|]. cbn [length].
  rewrite seqZ_S.
  cbn [zip zip_with upd foldl fmap list_fmap].
  change (upd (<[a := y]> f) (zip (seqZ (a + 1) (Z.of_nat (length ys))) ys) a ::
    (upd (<[a := y]> f) (zip (seqZ (a + 1) (Z.of_nat (length ys))) ys) <$>
      seqZ (a + 1) (Z.of_nat (length ys))) = y :: ys).
  rewrite IH. f_equal. rewrite upd_notin; [apply fn_lookup_insert|].
  rewrite fst_zip by (rewrite length_seqZ; lia). rewrite elem_of_seqZ. lia.
Qed.
Lemma keys_zip_seq a (ys : list block) n : n ∈ (zip (seqZ a (Z.of_nat (length ys))) ys).*1 ↔
  a ≤ n < a + Z.of_nat (length ys).
Proof. rewrite fst_zip by (rewrite length_seqZ; lia). apply elem_of_seqZ. Qed.
Lemma keys_zip_self (v : Z → block) xs : (zip xs (v <$> xs)).*1 = xs.
Proof. apply fst_zip. by rewrite length_fmap. Qed.
Lemma keys_take (ws : list (Z * block)) k n : n ∈ (take k ws).*1 → n ∈ ws.*1.
Proof. rewrite fmap_take, elem_of_take. intros (i & Hi & _). by eapply list_elem_of_lookup_2. Qed.

(** ** The header block *)

Lemma head_blocks_ok bl k : ∀ i hb, length hb = BSIZE → 0 ≤ i → 4 + 4 * (i + Z.of_nat k) ≤ 1024 →
  length (head_blocks k i bl hb) = BSIZE ∧
  (∀ j, 0 ≤ j < Z.of_nat k → get32 (head_blocks k i bl hb) (Z.to_nat (4 + 4 * (i + j))) =
     u32 (default 0 (bl !! Z.to_nat (i + j)))) ∧
  (∀ off, (off + 4 ≤ Z.to_nat (4 + 4 * i))%nat → get32 (head_blocks k i bl hb) off = get32 hb off).
Proof.
  unfold BSIZE. induction k as [|k IH]; intros i hb Hl Hi Hb; cbn [head_blocks]; [split_and!; [done|lia|done]|].
  set (hb' := put32 _ _ _).
  assert (length hb' = 1024%nat) as Hl' by (unfold hb', put32; rewrite length_putn; lia).
  destruct (IH (i + 1) hb' Hl' ltac:(lia) ltac:(lia)) as (I1 & I2 & I3). split_and!; [done| |].
  - intros j Hj. destruct (decide (j = 0)) as [->|Hj0].
    + rewrite I3 by lia. rewrite Z.add_0_r. unfold hb', get32, put32. rewrite getn_putn by lia. done.
    + replace (i + j) with (i + 1 + (j - 1)) by lia. apply I2. lia.
  - intros off Ho. rewrite I3 by lia. unfold hb', get32, put32. apply getn_putn_ne; lia.
Qed.

Lemma head_data_ok n bl hb : length hb = BSIZE → 0 ≤ n ≤ 30 →
  length (head_data n bl hb) = BSIZE ∧ get32 (head_data n bl hb) 0 = n ∧
  ∀ j, 0 ≤ j < n → get32 (head_data n bl hb) (Z.to_nat (4 + 4 * j)) = u32 (default 0 (bl !! Z.to_nat j)).
Proof.
  intros Hl Hn. unfold head_data.
  assert (length (put32 hb 0 n) = BSIZE) as Hl' by (unfold put32; rewrite length_putn; unfold BSIZE in *; lia).
  destruct (head_blocks_ok bl (Z.to_nat n) 0 (put32 hb 0 n) Hl' ltac:(lia) ltac:(lia)) as (I1 & I2 & I3).
  split_and!; [done| |].
  - rewrite I3 by lia. unfold get32, put32. rewrite getn_putn by (unfold BSIZE in *; lia).
    apply Z.mod_small. lia.
  - intros j Hj. apply I2. lia.
Qed.

(** The header [h] records the blocks [xs]. *)
Definition header_is (h : block) (xs : list Z) : Prop :=
  get32 h 0 = Z.of_nat (length xs) ∧
  ∀ j x, xs !! j = Some x → get32 h (4 + 4 * j) = x.

Lemma header_zero bl h : length h = BSIZE → header_is (head_data 0 bl h) [].
Proof.
  intros Hl. split; [|done]. destruct (head_data_ok 0 bl h Hl ltac:(lia)) as (_ & -> & _). done.
Qed.
Lemma header_data xs bl h : length h = BSIZE → (length xs ≤ 30)%nat → take (length xs) bl = xs →
  (∀ x, x ∈ xs → 0 ≤ x < 2 ^ 31) → header_is (head_data (Z.of_nat (length xs)) bl h) xs.
Proof.
  intros Hl Hn Ht Hr.
  destruct (head_data_ok (Z.of_nat (length xs)) bl h Hl ltac:(lia)) as (_ & H1 & H2). split; [done|].
  intros j x Hx. pose proof (lookup_lt_Some _ _ _ Hx) as Hj. specialize (H2 (Z.of_nat j) ltac:(lia)).
  replace (Z.to_nat (4 + 4 * Z.of_nat j)) with (4 + 4 * j)%nat in H2 by lia. rewrite H2, Nat2Z.id.
  rewrite <- Ht, lookup_take_lt in Hx by lia. rewrite Hx. cbn. unfold u32. apply Z.mod_small.
  specialize (Hr x). rewrite <- Ht in Hr. apply list_elem_of_lookup_2 in Hx as Hin.
  assert (0 ≤ x < 2 ^ 31); [|lia]. apply Hr. apply elem_of_take. exists j. done.
Qed.

(** ** Configuration and transaction *)

Record cfg (l : log) : Prop := {
  cfg_dev : dev l = ROOTDEV;
  cfg_start : 0 ≤ start l;
  cfg_size : 1 ≤ size l;
  cfg_end : start l + size l < 2 ^ 31;
  cfg_len : length (lh_block l) = 30%nat }.
(** The blocks of the log: the header and the copies. *)
Definition in_log (l : log) (n : Z) : Prop := start l ≤ n < start l + size l.

(** The transaction in memory updates the blocks [xs]. *)
Record txn (l : log) (xs : list Z) : Prop := {
  txn_n : lh_n l = Z.of_nat (length xs);
  txn_list : take (length xs) (lh_block l) = xs;
  txn_nodup : NoDup xs;
  txn_fits : Z.of_nat (length xs) < size l;
  txn_home x : x ∈ xs → 0 ≤ x < 2 ^ 31 ∧ ¬ in_log l x }.

Section log_proofs.
Context {S : Type} `{BC : BufferCache S}.
#[local] Abbreviation st := (@st S).

Definition Quiet (s : S) (v d : Z → block) (w : list (Z * block)) (p : Z → Z) (k : Z) : Prop :=
  bc_inv s (mkAbs v d w p (λ _, None) k).

Lemma cache_ok {A} (m : prog S A) l s a s' : m s = Ok (a, s') → cache m (l, s) = Ok (a, (l, s')).
Proof. intros H. unfold cache. by rewrite H. Qed.

Lemma Quiet_ext s v d w p k v' d' p' : Quiet s v d w p k →
  (∀ n, v n = v' n) → (∀ n, d n = d' n) → (∀ n, p n = p' n) → Quiet s v' d' w p' k.
Proof. intros H H1 H2 H3. eapply bc_eq; [exact H|]. by constructor. Qed.

(** The buffer operations of one turn of [write_log]. *)
Lemma write_log_turn s v d w p k dst src : Quiet s v d w p k → dst ≠ src →
  p dst = 0 → p src = 1 → k < NBUF →
  ∃ b1 s1 b2 s2 s3 s4 s5 s6,
    bread ROOTDEV dst s = Ok (b1, s1) ∧ bread ROOTDEV src s1 = Ok (b2, s2) ∧
    bdata b2 s2 = Ok (v src, s2) ∧ bset b1 (v src) s2 = Ok (tt, s3) ∧
    bwrite b1 s3 = Ok (tt, s4) ∧ brelse b2 s4 = Ok (tt, s5) ∧ brelse b1 s5 = Ok (tt, s6) ∧
    Quiet s6 (<[dst := v src]> v) (<[dst := v src]> d) (w ++ [(dst, v src)]) p k.
Proof.
  intros HQ Hne Hp1 Hp2 Hk. unfold Quiet in HQ. pose proof (bc_size _ _ HQ src) as [Hsz _].
  destruct (bread_ok _ _ dst HQ) as (b1 & s1 & E1 & H1); [done|by right|cbn; lia|].
  destruct (bread_ok _ _ src H1) as (b2 & s2 & E2 & H2); [by fsimp|left; fsimp; lia|fsimp; lia|].
  pose proof (bdata_ok _ _ src b2 H2 ltac:(by fsimp)) as E3.
  destruct (bset_ok _ _ dst b1 (v src) H2) as (s3 & E4 & H3); [by fsimp|done|].
  destruct (bwrite_ok _ _ dst b1 H3) as (s4 & E5 & H4); [by fsimp|].
  destruct (brelse_ok _ _ src b2 H4) as (s5 & E6 & H5); [by fsimp|fsimp; lia|].
  destruct (brelse_ok _ _ dst b1 H5) as (s6 & E7 & H6); [by fsimp|by fsimp|].
  exists b1, s1, b2, s2, s3, s4, s5, s6. split_and!; auto.
  eapply bc_eq; [exact H6|]. constructor; intros; fsimp; try done.
  - fcase n; lia.
  - by fcase n.
  - rewrite Hp1, Hp2. eval_ifs. lia.
Qed.

(** The buffer operations of one turn of [install_trans]. *)
Lemma install_turn (rec : bool) s v d w p k dst src : Quiet s v d w p k → dst ≠ src →
  p src = 0 → p dst = (if rec then 0 else 1) → k + (if rec then 1 else 0) < NBUF →
  ∃ b1 s1 b2 s2 s3 s4 s5 s6 s7,
    bread ROOTDEV src s = Ok (b1, s1) ∧ bread ROOTDEV dst s1 = Ok (b2, s2) ∧
    bdata b1 s2 = Ok (v src, s2) ∧ bset b2 (v src) s2 = Ok (tt, s3) ∧
    bwrite b2 s3 = Ok (tt, s4) ∧ (if rec then s5 = s4 else bunpin b2 s4 = Ok (tt, s5)) ∧
    brelse b1 s5 = Ok (tt, s6) ∧ brelse b2 s6 = Ok (tt, s7) ∧
    Quiet s7 (<[dst := v src]> v) (<[dst := v src]> d) (w ++ [(dst, v src)]) (<[dst := 0]> p)
      (k - (if rec then 0 else 1)).
Proof.
  intros HQ Hne Hp1 Hp2 Hk. unfold Quiet in HQ. pose proof (bc_size _ _ HQ src) as [Hsz _].
  pose proof (bc_clean _ _ HQ src Hp1) as Hcl. cbn in Hcl.
  destruct (bread_ok _ _ src HQ) as (b1 & s1 & E1 & H1);
    [done|right; cbn; destruct rec; lia|cbn; lia|].
  destruct (bread_ok _ _ dst H1) as (b2 & s2 & E2 & H2);
    [by fsimp|fsimp; rewrite Hp1, Hp2; eval_ifs; destruct rec; lia|fsimp; destruct rec; lia|].
  pose proof (bdata_ok _ _ src b1 H2 ltac:(by fsimp)) as E3.
  destruct (bset_ok _ _ dst b2 (v src) H2) as (s3 & E4 & H3); [by fsimp|done|].
  destruct (bwrite_ok _ _ dst b2 H3) as (s4 & E5 & H4); [by fsimp|].
  destruct rec.
  - destruct (brelse_ok _ _ src b1 H4) as (s6 & E6 & H6); [by fsimp|by fsimp|].
    destruct (brelse_ok _ _ dst b2 H6) as (s7 & E7 & H7); [by fsimp|by fsimp|].
    exists b1, s1, b2, s2, s3, s4, s4, s6, s7. split_and!; auto.
    eapply bc_eq; [exact H7|]. constructor; intros; fsimp; try done.
    + fcase n; lia.
    + by fcase n.
    + rewrite Hp1, Hp2. eval_ifs. lia.
  - destruct (bunpin_ok _ _ dst b2 H4) as (s5 & E6 & H5); [by fsimp|fsimp; lia|].
    destruct (brelse_ok _ _ src b1 H5) as (s6 & E7 & H6); [by fsimp|by fsimp|].
    destruct (brelse_ok _ _ dst b2 H6) as (s7 & E8 & H7); [by fsimp|by fsimp|].
    exists b1, s1, b2, s2, s3, s4, s5, s6, s7. split_and!; auto.
    eapply bc_eq; [exact H7|]. constructor; intros; fsimp; try done.
    + fcase n; lia.
    + by fcase n.
    + rewrite Hp1, Hp2. eval_ifs. lia.
Qed.

(** Overwriting one unreferenced block. *)
Lemma overwrite_turn s v d w p k n f : Quiet s v d w p k → p n = 0 → k < NBUF →
  (∀ x, length x = BSIZE → length (f x) = BSIZE) →
  ∃ b s1 s2 s3 s4,
    bread ROOTDEV n s = Ok (b, s1) ∧ bdata b s1 = Ok (v n, s1) ∧
    bset b (f (v n)) s1 = Ok (tt, s2) ∧ bwrite b s2 = Ok (tt, s3) ∧ brelse b s3 = Ok (tt, s4) ∧
    Quiet s4 (<[n := f (v n)]> v) (<[n := f (v n)]> d) (w ++ [(n, f (v n))]) p k.
Proof.
  intros HQ Hp Hk Hf. unfold Quiet in HQ. pose proof (bc_size _ _ HQ n) as [Hsz _].
  destruct (bread_ok _ _ n HQ) as (b & s1 & E1 & H1); [done|by right|cbn; lia|].
  pose proof (bdata_ok _ _ n b H1 ltac:(by fsimp)) as E2.
  destruct (bset_ok _ _ n b (f (v n)) H1) as (s2 & E3 & H2); [by fsimp|by apply Hf|].
  destruct (bwrite_ok _ _ n b H2) as (s3 & E4 & H3); [by fsimp|].
  destruct (brelse_ok _ _ n b H3) as (s4 & E5 & H4); [by fsimp|by fsimp|].
  exists b, s1, s2, s3, s4. split_and!; auto.
  eapply bc_eq; [exact H4|]. constructor; intros; fsimp; try done.
  - fcase n0; lia.
  - by fcase n0.
  - rewrite Hp. eval_ifs. lia.
Qed.

(** Reading one unreferenced block. *)
Lemma read_turn s v d w p k n : Quiet s v d w p k → p n = 0 → k < NBUF →
  ∃ b s1 s2, bread ROOTDEV n s = Ok (b, s1) ∧ bdata b s1 = Ok (v n, s1) ∧
    brelse b s1 = Ok (tt, s2) ∧ Quiet s2 v d w p k.
Proof.
  intros HQ Hp Hk. unfold Quiet in HQ. pose proof (bc_clean _ _ HQ n Hp) as Hcl. cbn in Hcl.
  destruct (bread_ok _ _ n HQ) as (b & s1 & E1 & H1); [done|by right|cbn; lia|].
  pose proof (bdata_ok _ _ n b H1 ltac:(by fsimp)) as E2.
  destruct (brelse_ok _ _ n b H1) as (s2 & E5 & H4); [by fsimp|by fsimp|].
  exists b, s1, s2. split_and!; auto.
  eapply bc_eq; [exact H4|]. constructor; intros; fsimp; try done.
  - fcase n0; lia.
  - by fcase n0.
  - rewrite Hp. eval_ifs. lia.
Qed.

(** ** The loops *)

Lemma glog_eq (l : log) (s : S) : glog (l, s) = Ok (l, (l, s)).
Proof. done. Qed.
Lemma mlog_eq f (l : log) (s : S) : mlog f (l, s) = Ok (tt, (f l, s)).
Proof. done. Qed.
Lemma lh_get_block_ok (l : log) (s : S) i x : lh_block l !! Z.to_nat i = Some x →
  get_block i (l, s) = Ok (x, (l, s)).
Proof. intros H. unfold get_block. prog_step (glog_eq l s). by rewrite H. Qed.

Lemma drop_cons_lookup (bl : list Z) t x xs : take (Datatypes.S (length xs)) (drop t bl) = x :: xs →
  bl !! t = Some x ∧ take (length xs) (drop (Datatypes.S t) bl) = xs.
Proof.
  intros H. destruct (drop t bl) as [|y r] eqn:E; [done|]. cbn [take] in H. injection H as -> H.
  assert (bl !! t = Some x) as Hx.
  { rewrite <- (Nat.add_0_r t), <- lookup_drop, E. done. }
  split; [done|]. rewrite (drop_S _ _ _ Hx) in E. by injection E as ->.
Qed.

Lemma write_log_loop_ok l xs : cfg l → ∀ tail s v d w p k,
  Quiet s v d w p k → 0 ≤ tail → take (length xs) (drop (Z.to_nat tail) (lh_block l)) = xs →
  start l + tail + Z.of_nat (length xs) + 1 < 2 ^ 31 → k < NBUF →
  (∀ x, x ∈ xs → p x = 1 ∧ 0 ≤ x < 2 ^ 31) →
  (∀ j, 0 ≤ j < Z.of_nat (length xs) → p (start l + tail + 1 + j) = 0) →
  ∃ s', write_log_loop (length xs) tail (l, s) = Ok (tt, (l, s')) ∧
    let ws := zip (seqZ (start l + tail + 1) (Z.of_nat (length xs))) (v <$> xs) in
    Quiet s' (upd v ws) (upd d ws) (w ++ ws) p k.
Proof.
  intros Hc. induction xs as [|x xs IH]; intros tail s v d w p k HQ Ht Hl Hend Hk Hp Hz;
    cbn [write_log_loop length].
  { exists s. split; [done|]. cbn. by rewrite app_nil_r. }
  destruct Hc as [C1 C2 C3 C4 C5]. cbn [length] in Hl, Hend, Hz.
  apply drop_cons_lookup in Hl as [Hx Hl].
  destruct (Hp x ltac:(left)) as [Px Rx]. pose proof (Hz 0 ltac:(lia)) as Pd. rewrite Z.add_0_r in Pd.
  destruct (write_log_turn s v d w p k (start l + tail + 1) x HQ) as
    (b1 & s1 & b2 & s2 & s3 & s4 & s5 & s6 & E1 & E2 & E3 & E4 & E5 & E6 & E7 & HQ'); [congruence|done|done|done|].
  prog_step (glog_eq l s). rewrite C1, (u32_id (start l + tail + 1)) by lia.
  prog_step (cache_ok _ l _ _ _ E1). prog_step (lh_get_block_ok l s1 tail x Hx). rewrite u32_id by done.
  prog_step (cache_ok _ l _ _ _ E2). prog_step (cache_ok _ l _ _ _ E3). prog_step (cache_ok _ l _ _ _ E4).
  prog_step (cache_ok _ l _ _ _ E5). prog_step (cache_ok _ l _ _ _ E6). prog_step (cache_ok _ l _ _ _ E7).
  destruct (IH (tail + 1) s6 _ _ _ p k HQ') as (s' & E & HQ'').
  { lia. }
  { by replace (Z.to_nat (tail + 1)) with (Datatypes.S (Z.to_nat tail)) by lia. }
  { lia. }
  { done. }
  { intros y Hy. apply Hp. by right. }
  { intros j Hj. rewrite <- (Hz (j + 1)) by lia. f_equal. lia. }
  exists s'. split; [exact E|]. cbv zeta in *. rewrite seqZ_S. cbn [fmap list_fmap zip zip_with].
  assert (<[start l + tail + 1 := v x]> v <$> xs = v <$> xs) as Ev.
  { apply list_fmap_ext. intros i y Hy. apply list_elem_of_lookup_2 in Hy.
    destruct (Hp y ltac:(by right)) as [Py _]. apply fn_lookup_insert_ne. congruence. }
  rewrite Ev in HQ''. replace (start l + tail + 1 + 1) with (start l + (tail + 1) + 1) by lia.
  cbn [upd foldl]. rewrite (cons_middle _ w), app_assoc. exact HQ''.
Qed.

Lemma install_loop_ok (rec : bool) l xs : cfg l → ∀ tail s v d w p k,
  Quiet s v d w p k → 0 ≤ tail → take (length xs) (drop (Z.to_nat tail) (lh_block l)) = xs →
  tail + Z.of_nat (length xs) < size l →
  k + (if rec then 1 else 0) < NBUF → NoDup xs →
  (∀ x, x ∈ xs → p x = (if rec then 0 else 1) ∧ 0 ≤ x < 2 ^ 31 ∧ ¬ in_log l x) →
  (∀ n, in_log l n → p n = 0) →
  ∃ s', install_loop (length xs) tail rec (l, s) = Ok (tt, (l, s')) ∧
    let ws := zip xs (v <$> seqZ (start l + tail + 1) (Z.of_nat (length xs))) in
    Quiet s' (upd v ws) (upd d ws) (w ++ ws) (λ n, if decide (n ∈ xs) then 0 else p n)
      (k - (if rec then 0 else Z.of_nat (length xs))).
Proof.
  intros Hc. induction xs as [|x xs IH]; intros tail s v d w p k HQ Ht Hl Hend Hk Hnd Hp Hz;
    cbn [install_loop length].
  { exists s. split; [done|]. cbn. rewrite app_nil_r.
    replace (k - _) with k by (destruct rec; lia). eapply Quiet_ext; [exact HQ|done|done|].
    intros n. by rewrite decide_False by apply not_elem_of_nil. }
  pose proof Hc as [C1 C2 C3 C4 C5]. cbn [length] in Hl, Hend.
  apply drop_cons_lookup in Hl as [Hx Hl]. apply list.NoDup_cons in Hnd as [Hnx Hnd].
  destruct (Hp x ltac:(left)) as (Px & Rx & Lx). unfold in_log in *.
  destruct (install_turn rec s v d w p k x (start l + tail + 1) HQ) as
    (b1 & s1 & b2 & s2 & s3 & s4 & s5 & s6 & s7 & E1 & E2 & E3 & E4 & E5 & E6 & E7 & E8 & HQ');
    [lia|apply Hz; lia|done|done|].
  prog_step (glog_eq l s). rewrite C1, (u32_id (start l + tail + 1)) by lia.
  prog_step (cache_ok _ l _ _ _ E1). prog_step (lh_get_block_ok l s1 tail x Hx). rewrite u32_id by done.
  prog_step (cache_ok _ l _ _ _ E2). prog_step (cache_ok _ l _ _ _ E3). prog_step (cache_ok _ l _ _ _ E4).
  prog_step (cache_ok _ l _ _ _ E5).
  assert (when (negb rec) (cache (bunpin b2)) (l, s4) = Ok (tt, (l, s5))) as Ew.
  { destruct rec; cbn; [by subst s5|by rewrite E6]. }
  prog_step Ew. prog_step (cache_ok _ l _ _ _ E7). prog_step (cache_ok _ l _ _ _ E8).
  destruct (IH (tail + 1) s7 _ _ _ _ _ HQ') as (s' & E & HQ'').
  { lia. }
  { by replace (Z.to_nat (tail + 1)) with (Datatypes.S (Z.to_nat tail)) by lia. }
  { lia. }
  { destruct rec; lia. }
  { done. }
  { intros y Hy. rewrite fn_lookup_insert_ne by (intros ->; done). apply Hp. by right. }
  { intros n Hn. fcase n; [done|]. by apply Hz. }
  exists s'. split; [exact E|]. cbv zeta in *. rewrite seqZ_S. cbn [fmap list_fmap zip zip_with].
  assert (<[x := v (start l + tail + 1)]> v <$> seqZ (start l + tail + 1 + 1) (Z.of_nat (length xs)) =
    v <$> seqZ (start l + tail + 1 + 1) (Z.of_nat (length xs))) as Ev.
  { apply list_fmap_ext. intros i y Hy. apply list_elem_of_lookup_2, elem_of_seqZ in Hy.
    apply fn_lookup_insert_ne. lia. }
  replace (start l + (tail + 1) + 1) with (start l + tail + 1 + 1) in HQ'' by lia.
  rewrite Ev in HQ''. cbn [upd foldl]. rewrite (cons_middle _ w), app_assoc.
  replace (k - (if rec then 0 else Z.of_nat (Datatypes.S (length xs))))
    with (k - (if rec then 0 else 1) - (if rec then 0 else Z.of_nat (length xs))) by (destruct rec; lia).
  eapply Quiet_ext; [exact HQ''|done|done|].
  intros n. cbn beta. destruct (decide (n = x)) as [->|Hn].
  - rewrite fn_lookup_insert, (decide_True (P := x ∈ x :: xs)) by left. by destruct (decide _).
  - rewrite fn_lookup_insert_ne by done. apply decide_ext. rewrite elem_of_cons. naive_solver.
Qed.

(** ** Header, commit and recovery *)

Lemma write_head_ok l s v d w p k : cfg l → 0 ≤ lh_n l ≤ 30 → Quiet s v d w p k →
  p (start l) = 0 → k < NBUF →
  let h := head_data (lh_n l) (lh_block l) (v (start l)) in
  ∃ s', write_head (l, s) = Ok (tt, (l, s')) ∧
    Quiet s' (<[start l := h]> v) (<[start l := h]> d) (w ++ [(start l, h)]) p k.
Proof.
  intros [C1 C2 C3 C4 C5] Hn HQ Hp Hk.
  destruct (overwrite_turn s v d w p k (start l) (head_data (lh_n l) (lh_block l)) HQ Hp Hk) as
    (b & s1 & s2 & s3 & s4 & E1 & E2 & E3 & E4 & E5 & HQ').
  { intros x Hx. by apply head_data_ok. }
  exists s4. split; [|done]. unfold write_head. prog_step (glog_eq l s).
  rewrite C1, u32_id by lia. prog_step (cache_ok _ l _ _ _ E1). prog_step (cache_ok _ l _ _ _ E2).
  prog_step (cache_ok _ l _ _ _ E3). prog_step (cache_ok _ l _ _ _ E4). by apply cache_ok.
Qed.

(** The writes of a commit of the blocks [xs] with contents [v]. *)
Definition commit_writes (l : log) (v : Z → block) (xs : list Z) : list (Z * block) :=
  let h1 := head_data (Z.of_nat (length xs)) (lh_block l) (v (start l)) in
  zip (seqZ (start l + 1) (Z.of_nat (length xs))) (v <$> xs) ++ [(start l, h1)] ++
  zip xs (v <$> xs) ++ [(start l, head_data 0 (lh_block l) h1)].

Lemma commit_ok l s v d w xs : cfg l → txn l xs → (0 < length xs ≤ 29)%nat →
  Quiet s v d w (pinsf xs) (Z.of_nat (length xs)) →
  ∃ s' v', commit (l, s) = Ok (tt, (set_n 0 l, s')) ∧
    Quiet s' v' (upd d (commit_writes l v xs)) (w ++ commit_writes l v xs) (λ _, 0) 0.
Proof.
  intros Hc [T1 T2 T3 T4 T5] Hlen HQ. pose proof Hc as [C1 C2 C3 C4 C5].
  assert (Hpin : ∀ n, in_log l n → pinsf xs n = 0).
  { intros n Hn. unfold pinsf. rewrite decide_False; [done|]. intros Hin. by apply (T5 n). }
  assert (Hpin1 : ∀ x, x ∈ xs → pinsf xs x = 1) by (intros x Hx; unfold pinsf; by rewrite decide_True).
  unfold commit. prog_step (glog_eq l s). destruct (Z.ltb_spec 0 (lh_n l)); [|lia].
  destruct (write_log_loop_ok l xs Hc 0 s v d w _ _ HQ) as (s1 & E1 & H1).
  { lia. } { done. } { lia. } { unfold NBUF. lia. }
  { intros x Hx. split; [by apply Hpin1|by apply T5]. }
  { intros j Hj. apply Hpin. unfold in_log. lia. }
  assert (write_log (l, s) = Ok (tt, (l, s1))) as E1'.
  { unfold write_log. prog_step (glog_eq l s). by rewrite T1, Nat2Z.id. }
  prog_step E1'. cbv zeta in H1. rewrite Z.add_0_r in H1. set (wl := zip _ _) in H1.
  destruct (write_head_ok l s1 _ _ _ _ _ Hc ltac:(lia) H1) as (s2 & E2 & H2).
  { apply Hpin. unfold in_log. lia. } { unfold NBUF. lia. }
  prog_step E2. cbv zeta in H2.
  assert (upd v wl (start l) = v (start l)) as Es.
  { apply upd_notin. unfold wl. rewrite <- (length_fmap v xs), keys_zip_seq, length_fmap. lia. }
  rewrite Es, T1 in H2. set (h1 := head_data _ _ _) in H2.
  destruct (install_loop_ok false l xs Hc 0 s2 _ _ _ _ _ H2) as (s3 & E3 & H3).
  { lia. } { done. } { lia. } { unfold NBUF. lia. } { done. }
  { intros x Hx. destruct (T5 x Hx). split; [by apply Hpin1|done]. } { done. }
  assert (install_trans false (l, s2) = Ok (tt, (l, s3))) as E3'.
  { unfold install_trans. prog_step (glog_eq l s2). by rewrite T1, Nat2Z.id. }
  prog_step E3'. prog_step (mlog_eq (set_n 0) l s3). cbv zeta in H3. rewrite Z.add_0_r, Z.sub_diag in H3.
  assert ((<[start l := h1]> (upd v wl) <$> seqZ (start l + 1) (Z.of_nat (length xs))) = v <$> xs) as Ei.
  { etrans; [|exact (upd_seq (v <$> xs) v (start l + 1))]. rewrite length_fmap. fold wl.
    apply list_fmap_ext. intros i y Hy. apply list_elem_of_lookup_2, elem_of_seqZ in Hy.
    apply fn_lookup_insert_ne. lia. }
  rewrite Ei in H3. set (il := zip xs (v <$> xs)) in H3.
  assert (upd (<[start l := h1]> (upd v wl)) il (start l) = h1) as Es3.
  { unfold il. rewrite upd_notin; [apply fn_lookup_insert|]. rewrite keys_zip_self. intros Hin.
    apply (T5 _ Hin). unfold in_log. lia. }
  destruct (write_head_ok (set_n 0 l) s3 _ _ _ _ _ ltac:(by constructor) ltac:(cbn; lia) H3) as (s4 & E4 & H4).
  { cbn. case_decide as Hin; [done|]. apply Hpin. unfold in_log. lia. } { unfold NBUF. lia. }
  cbn [start set_n lh_n lh_block] in H4. rewrite Es3 in H4.
  exists s4. eexists. split; [exact E4|]. unfold commit_writes. fold h1 wl il.
  rewrite !app_assoc, !upd_app. rewrite !upd_one.
  eapply Quiet_ext; [exact H4|done|done|].
  intros n. cbn. unfold pinsf. by destruct (decide (n ∈ xs)).
Qed.

Lemma lh_put_block_ok (l : log) (s : S) i x : (Z.to_nat i < length (lh_block l))%nat →
  put_block i x (l, s) = Ok (tt, (set_block (<[Z.to_nat i := x]> (lh_block l)) l, s)).
Proof.
  intros H. unfold put_block. prog_step (glog_eq l s).
  destruct (lookup_lt_is_Some_2 _ _ H) as [y ->]. apply mlog_eq.
Qed.

Lemma read_head_loop_ok h xs : (∀ j x, xs !! j = Some x → get32 h (4 + 4 * j) = x) →
  (∀ x, x ∈ xs → 0 ≤ x < 2 ^ 31) → ∀ k i l (s : S), (i + k = length xs)%nat → (length xs ≤ length (lh_block l))%nat →
  take i (lh_block l) = take i xs →
  ∃ bl, read_head_loop k (Z.of_nat i) h (l, s) = Ok (tt, (set_block bl l, s)) ∧
    length bl = length (lh_block l) ∧ take (length xs) bl = xs.
Proof.
  intros Hh Hr. induction k as [|k IH]; intros i l s Hk Hlen Ht; cbn [read_head_loop].
  - exists (lh_block l). split; [by destruct l|]. split; [done|]. replace (length xs) with i by lia.
    rewrite Ht. apply take_ge. lia.
  - destruct (lookup_lt_is_Some_2 xs i) as [x Hx]; [lia|].
    replace (Z.to_nat (4 + 4 * Z.of_nat i)) with (4 + 4 * i)%nat by lia. rewrite (Hh _ _ Hx).
    rewrite i32_small by (pose proof (Hr x (list_elem_of_lookup_2 _ _ _ Hx)); lia).
    prog_step (lh_put_block_ok l s (Z.of_nat i) x ltac:(lia)). rewrite Nat2Z.id.
    replace (Z.of_nat i + 1) with (Z.of_nat (Datatypes.S i)) by lia.
    destruct (IH (Datatypes.S i) (set_block (<[i := x]> (lh_block l)) l) s) as (bl & E & L & T).
    + lia.
    + cbn. rewrite length_insert. lia.
    + cbn. rewrite (take_S_r _ _ x) by (rewrite list_lookup_insert_eq; [done|lia]).
      rewrite (take_S_r xs _ x) by done. by rewrite take_insert_ge, Ht by lia.
    + exists bl. split; [exact E|]. split; [|done]. by rewrite L; cbn; rewrite length_insert.
Qed.

(** The writes of a recovery from the disk contents [D]. *)
Definition recovery_writes (sta : Z) (D : Z → block) (xs : list Z) : list (Z * block) :=
  zip xs (D <$> seqZ (sta + 1) (Z.of_nat (length xs))).

Definition recovery_log (l : log) (bl : list Z) : log := set_n 0 (set_block bl l).

Lemma recover_ok l s D xs : cfg l → Quiet s D D [] (λ _, 0) 0 → header_is (D (start l)) xs →
  NoDup xs → (length xs ≤ 30)%nat → Z.of_nat (length xs) < size l →
  (∀ x, x ∈ xs → 0 ≤ x < 2 ^ 31 ∧ ¬ in_log l x) →
  ∃ bl s' h, recover_from_log (l, s) = Ok (tt, (recovery_log l bl, s')) ∧ length bl = 30%nat ∧
    header_is h [] ∧
    let ws := recovery_writes (start l) D xs ++ [(start l, h)] in
    Quiet s' (upd D ws) (upd D ws) ws (λ _, 0) 0.
Proof.
  intros Hc HQ [Hh0 Hh] Hnd Hlen Hsz Hhome. pose proof Hc as [C1 C2 C3 C4 C5].
  unfold recover_from_log, read_head.
  destruct (read_turn s D D [] _ 0 (start l) HQ ltac:(done) ltac:(unfold NBUF; lia)) as
    (b & s1 & s2 & E1 & E2 & E3 & HQ2).
  rewrite bind_assoc'. prog_step (glog_eq l s). rewrite C1, u32_id by lia.
  prog_go (cache_ok _ l _ _ _ E1). prog_go (cache_ok _ l _ _ _ E2). prog_go (mlog_eq (set_n (i32 (get32 (D (start l)) 0))) l s1).
  prog_go (glog_eq (set_n (i32 (get32 (D (start l)) 0)) l) s1). cbn [lh_n set_n].
  rewrite Hh0, i32_small, Nat2Z.id by lia.
  destruct (read_head_loop_ok (D (start l)) xs Hh ltac:(intros; by apply Hhome) (length xs) 0
    (set_n (Z.of_nat (length xs)) l) s1) as (bl & Eb & Lb & Tb); [lia|cbn; lia|done|].
  prog_go Eb. cbn [lh_block set_n] in Lb. set (l1 := set_block bl (set_n (Z.of_nat (length xs)) l)).
  prog_go (cache_ok _ l1 _ _ _ E3).
  assert (Hc1 : cfg l1) by (constructor; cbn; [done..|lia]).
  destruct (install_loop_ok true l1 xs Hc1 0 s2 D D [] _ 0 HQ2) as (s3 & E4 & H3).
  { lia. } { done. } { cbn. lia. } { unfold NBUF. lia. } { done. }
  { intros x Hx. split; [done|]. apply (Hhome x Hx). } { done. }
  assert (install_trans true (l1, s2) = Ok (tt, (l1, s3))) as E4'.
  { unfold install_trans. prog_step (glog_eq l1 s2). cbn [lh_n l1 set_block set_n]. by rewrite Nat2Z.id. }
  prog_go E4'. prog_go (mlog_eq (set_n 0) l1 s3). cbv zeta in H3. rewrite Z.add_0_r in H3.
  change (start l1) with (start l) in H3. fold (recovery_writes (start l) D xs) in H3.
  destruct (write_head_ok (set_n 0 l1) s3 _ _ _ _ _ ltac:(by constructor; apply Hc1) ltac:(cbn; lia) H3) as (s4 & E5 & H4).
  { cbn. by case_decide. } { unfold NBUF. lia. }
  cbv zeta in H4. cbn [start l1 set_n set_block lh_n] in H4. set (h := head_data _ _ _) in H4.
  exists bl, s4, h. split; [exact E5|]. split; [lia|]. split.
  { apply header_zero. pose proof (bc_size _ _ H3 (start l)) as [Hs _]. exact Hs. }
  cbv zeta. rewrite upd_app, upd_one. eapply Quiet_ext; [exact H4|done|done|].
  intros n. cbn. by case_decide.
Qed.

(** ** Crashes *)

(** Recovery of a disk whose header records [ys]. *)
Definition recovered (sta : Z) (D : Z → block) (ys : list Z) (h : block) : Z → block :=
  upd D (recovery_writes sta D ys ++ [(sta, h)]).

Lemma home_not_log l n : cfg l → ¬ in_log l n → ∀ m, in_log l m → n ≠ m.
Proof. intros _ H m Hm ->. done. Qed.

Lemma log_keys l v xs n : cfg l → txn l xs →
  n ∈ (zip (seqZ (start l + 1) (Z.of_nat (length xs))) ((v : Z → block) <$> xs)).*1 →
  in_log l n ∧ n ≠ start l.
Proof.
  intros Hc HT Hn. rewrite <- (length_fmap v xs), keys_zip_seq, length_fmap in Hn.
  pose proof (txn_fits _ _ HT). unfold in_log. lia.
Qed.

Lemma commit_writes_take l v xs k : 
  (k ≤ length xs)%nat ∧ take k (commit_writes l v xs) =
     take k (zip (seqZ (start l + 1) (Z.of_nat (length xs))) (v <$> xs)) ∨
  (length xs < k)%nat ∧ ∃ h1 tl, h1 = head_data (Z.of_nat (length xs)) (lh_block l) (v (start l)) ∧
     take k (commit_writes l v xs) =
       zip (seqZ (start l + 1) (Z.of_nat (length xs))) (v <$> xs) ++ (start l, h1) :: tl ∧
     ((∃ m, tl = take m (zip xs (v <$> xs))) ∨
      tl = zip xs (v <$> xs) ++ [(start l, head_data 0 (lh_block l) h1)]).
Proof.
  set (wl := zip (seqZ _ _) _). assert (length wl = length xs) as Hw.
  { unfold wl. rewrite length_zip_with, length_seqZ, length_fmap. lia. }
  unfold commit_writes. fold wl. cbv zeta. set (h1 := head_data _ _ _).
  destruct (decide (k ≤ length xs)%nat) as [Hk|Hk]; [left|right]; split; [lia| |lia|].
  - rewrite take_app_le by lia. done.
  - exists h1. set (il := zip xs (v <$> xs)).
    assert (length il = length xs) as Hi by (unfold il; rewrite length_zip_with, length_fmap; lia).
    exists (take (k - length xs - 1) (il ++ [(start l, head_data 0 (lh_block l) h1)])).
    split; [done|]. split.
    + rewrite take_app, Hw, take_ge by lia. f_equal. cbn [app].
      replace (k - length xs)%nat with (Datatypes.S (k - length xs - 1)) by lia. cbn [take].
      do 3 f_equal. lia.
    + destruct (decide (k - length xs - 1 ≤ length xs)%nat).
      * left. exists (k - length xs - 1)%nat. by rewrite take_app_le by lia.
      * right. apply take_ge. rewrite length_app. cbn. lia.
Qed.

Lemma crash_point l v d xs k : cfg l → txn l xs → (length xs ≤ 30)%nat →
  header_is (d (start l)) [] → (∀ n, n ∉ xs → v n = d n) → length (v (start l)) = BSIZE →
  let D := upd d (take k (commit_writes l v xs)) in
  ∃ ys, (ys = [] ∨ ys = xs) ∧ header_is (D (start l)) ys ∧
    ∀ n h, ¬ in_log l n → recovered (start l) D ys h n = if decide (k ≤ length xs)%nat then d n else v n.
Proof.
  intros Hc HT Hlen Hhd Hv Hsz. pose proof Hc as [C1 C2 C3 C4 C5]. pose proof HT as [T1 T2 T3 T4 T5].
  assert (Hst : in_log l (start l)) by (unfold in_log; lia).
  assert (Hxs : start l ∉ xs) by (intros Hin; by apply (T5 _ Hin)).
  destruct (commit_writes_take l v xs k) as [[Hk ->]|(Hk & h1 & tl & Hh1 & -> & Htl)]; cbv zeta.
  - set (wl := zip _ _).
    assert (Hn : ∀ n, ¬ in_log l n ∨ n = start l → upd d (take k wl) n = d n).
    { intros n Hn. apply upd_notin. intros [Hl1 Hl2]%keys_take%log_keys; [|done|done]. tauto. }
    exists []. split; [by left|]. split; [by rewrite Hn by (by right)|].
    intros n h Hnl. rewrite decide_True by done. unfold recovered, recovery_writes. cbn.
    rewrite fn_lookup_insert_ne by (intros <-; done). apply Hn. by left.
  - set (wl := zip (seqZ _ _) _).
    rewrite upd_app. cbn [upd foldl]. change (foldl _ (<[start l := h1]> (upd d wl)) tl) with (upd (<[start l := h1]> (upd d wl)) tl).
    set (D1 := <[start l := h1]> (upd d wl)).
    assert (Hn1 : ∀ n, ¬ in_log l n → D1 n = d n).
    { intros n Hn. unfold D1. rewrite fn_lookup_insert_ne by (intros <-; done).
      apply upd_notin. intros [Hl _]%log_keys; done. }
    destruct Htl as [[m ->]| ->].
    + set (il := take m _).
      assert (Hi : ∀ n, n ∉ xs → upd D1 il n = D1 n).
      { intros n Hn. apply upd_notin. intros Hin%keys_take. by rewrite keys_zip_self in Hin. }
      exists xs. split; [by right|]. split.
      { rewrite Hi by done. unfold D1. rewrite fn_lookup_insert, Hh1. apply header_data; auto.
        intros x Hx. by apply T5. }
      intros n h Hnl. rewrite decide_False by lia. unfold recovered, recovery_writes.
      assert ((upd D1 il <$> seqZ (start l + 1) (Z.of_nat (length xs))) = v <$> xs) as ->.
      { etrans; [|exact (upd_seq (v <$> xs) d (start l + 1))]. rewrite length_fmap. fold wl.
        apply list_fmap_ext. intros i y Hy. apply list_elem_of_lookup_2, elem_of_seqZ in Hy.
        rewrite Hi by (intros Hin; apply (T5 _ Hin); unfold in_log; lia).
        unfold D1. apply fn_lookup_insert_ne. lia. }
      rewrite upd_app, upd_one, fn_lookup_insert_ne, upd_self by (intros <-; done).
      case_decide as Hin; [done|]. by rewrite Hi, Hn1, Hv.
    + exists []. split; [by left|]. rewrite upd_app, upd_one. split.
      { rewrite fn_lookup_insert, Hh1. apply header_zero, head_data_ok; [done|lia]. }
      intros n h Hnl. rewrite decide_False by lia. unfold recovered, recovery_writes. cbn. rewrite !fn_lookup_insert_ne by (intros <-; done).
      rewrite upd_self. case_decide as Hin; [done|]. by rewrite Hn1, Hv.
Qed.

End log_proofs.
End LogProofs.
