(* ===== verification/LogSpec.v ===== *)
(** * Properties of the log

    Crash safety of commit and of recovery, recording of blocks by [log_write],
    and the reservation of log space by [begin_op]. *)

From S2P Require Import Prelude Bytes BufCache Log LogProofs.
Import Bytes BufCache Log LogProofs.

Module LogSpec.

Lemma upd_size f ws : (∀ n, length (f n) = BSIZE) → Forall (λ p, length p.2 = BSIZE) ws →
  ∀ n, length (upd f ws n) = BSIZE.
Proof.
  intros Hf Hw. revert f Hf. induction Hw as [|[k x] ws Hx _ IH]; intros f Hf n; [apply Hf|].
  cbn [upd foldl]. apply IH. intros m. fcase m; [done|apply Hf].
Qed.

Lemma Forall_zip_snd {A} (P : A → Prop) (ks : list Z) ys : Forall P ys → Forall (λ p, P p.2) (zip ks ys).
Proof.
  intros H. revert ks. induction H as [|y ys Hy _ IH]; intros [|k ks]; cbn; constructor; auto.
Qed.

Lemma upd_base ws : ∀ f g n, n ∈ ws.*1 ∨ f n = g n → upd f ws n = upd g ws n.
Proof.
  induction ws as [|[k x] ws IH]; intros f g n H; [destruct H as [H|H]; [by apply elem_of_nil in H|done]|].
  cbn [upd foldl]. apply IH. destruct (decide (n = k)) as [->|Hk]; [right; by rewrite !fn_lookup_insert|].
  rewrite !fn_lookup_insert_ne by done. destruct H as [H|H]; [|by right].
  apply elem_of_cons in H as [H|H]; [done|by left].
Qed.

Lemma upd_zip_lookup f ks (ys : list block) i k y : NoDup ks → ks !! i = Some k → ys !! i = Some y →
  upd f (zip ks ys) k = y.
Proof.
  revert f ys i. induction ks as [|a ks IH]; intros f ys i Hnd Hk Hy; [done|].
  destruct ys as [|b ys]; [done|]. apply list.NoDup_cons in Hnd as [Ha Hnd].
  destruct i as [|i]; cbn in Hk, Hy; simplify_eq; cbn [zip zip_with upd foldl].
  - change (upd (<[k := y]> f) (zip ks ys) k = y). rewrite upd_notin; [apply fn_lookup_insert|].
    intros Hin. apply Ha. apply list_elem_of_fmap in Hin as ([k' y'] & -> & Hin).
    by apply elem_of_zip_l in Hin.
  - by apply (IH _ ys i).
Qed.

Section spec.
Context {S : Type} `{BC : BufferCache S}.

Lemma commit_writes_size l v xs : (∀ n, length (v n) = BSIZE) → (length xs ≤ 30)%nat →
  Forall (λ p, length p.2 = BSIZE) (commit_writes l v xs).
Proof.
  intros Hv Hl. unfold commit_writes. cbv zeta.
  destruct (head_data_ok (Z.of_nat (length xs)) (lh_block l) (v (start l)) (Hv _) ltac:(lia)) as [L1 _].
  destruct (head_data_ok 0 (lh_block l) _ L1 ltac:(lia)) as [L2 _].
  assert (Forall (λ x, length x = BSIZE) (v <$> xs)) as Hvx by (apply Forall_fmap, Forall_true; intros; apply Hv).
  rewrite !Forall_app. split_and!;
    [by apply (Forall_zip_snd (λ x, length x = BSIZE))|by repeat constructor|
     by apply (Forall_zip_snd (λ x, length x = BSIZE))|by repeat constructor].
Qed.

Lemma i32_nonneg x : 0 ≤ x < 2 ^ 31 → i32 x = x.
Proof. intros. apply i32_small. lia. Qed.

(** Start of the machine with a disk whose log header records [ys]. *)
Lemma initlog_ok d sta siz ys : disk_ok d → 0 ≤ sta → 1 ≤ siz → sta + siz < 2 ^ 31 →
  header_is (disk_at d sta) ys → NoDup ys → (length ys ≤ 30)%nat → Z.of_nat (length ys) < siz →
  (∀ x, x ∈ ys → 0 ≤ x < 2 ^ 31 ∧ ¬ sta ≤ x < sta + siz) →
  ∃ l s h, initlog ROOTDEV sta siz (zero_log, bc_boot d) = Ok (tt, (l, s)) ∧
    cfg l ∧ txn l [] ∧ outstanding l = 0 ∧ start l = sta ∧ size l = siz ∧ header_is h [] ∧
    (let ws := recovery_writes sta (disk_at d) ys ++ [(sta, h)] in
     Quiet s (upd (disk_at d) ws) (upd (disk_at d) ws) ws (λ _, 0) 0) ∧
    ∀ n, disk_at (bc_disk s) n = recovered sta (disk_at d) ys h n.
Proof.
  intros Hd Hs Hz He Hh Hnd Hlen Hf Hhome. unfold initlog.
  change (Z.of_nat BSIZE <=? 4 + 4 * LOGSIZE) with false. cbv iota. prog_run. unfold mlog. prog_run.
  rewrite !i32_nonneg by lia. set (l0 := mkLog _ _ _ _ _ _ _ _).
  assert (Hc : cfg l0) by (constructor; cbn; done || lia).
  destruct (recover_ok l0 (bc_boot d) (disk_at d) ys Hc (bc_boot_ok d Hd)) as (bl & s & h & E & Lb & H0 & HQ);
    [done|done|done|done|done|].
  exists (recovery_log l0 bl), s, h. split; [exact E|]. split; [by constructor|].
  split; [constructor; cbn; [done|done|constructor|lia|intros x Hx; by apply elem_of_nil in Hx]|].
  split_and!; [done|done|done|done|exact HQ|].
  intros n. rewrite (bc_disk_ok _ _ HQ n). done.
Qed.

(** C3: crash safety of the log.  A commit of up to 29 blocks returns, and the
    list [ws] of the disk writes it makes is such that a machine that starts
    with the disk as it is after any number [k] of these writes recovers to the
    contents before the transaction, when the header had not been written yet
    ([k] at most the number of blocks), and to all the updates of the
    transaction otherwise; never to a mixture. *)
Theorem commit_crash_safe l s v d w xs : cfg l → txn l xs → (0 < length xs ≤ 29)%nat →
  Quiet s v d w (pinsf xs) (Z.of_nat (length xs)) → header_is (d (start l)) [] →
  ∃ s' v' ws, commit (l, s) = Ok (tt, (set_n 0 l, s')) ∧
    Quiet s' v' (upd d ws) (w ++ ws) (λ _, 0) 0 ∧
    ∀ k dk, (∀ n, disk_at dk n = upd d (take k ws) n) →
      ∃ l1 s1, initlog ROOTDEV (start l) (size l) (zero_log, bc_boot dk) = Ok (tt, (l1, s1)) ∧
        txn l1 [] ∧
        ∀ n, ¬ in_log l n →
          disk_at (bc_disk s1) n = if decide (k ≤ length xs)%nat then d n else v n.
Proof.
  intros Hc HT Hlen HQ Hh. pose proof Hc as [C1 C2 C3 C4 C5]. pose proof HT as [T1 T2 T3 T4 T5].
  destruct (commit_ok l s v d w xs Hc HT Hlen HQ) as (s' & v' & E & HQ').
  exists s', v', (commit_writes l v xs). split; [done|]. split; [done|]. intros k dk Hdk.
  assert (Hv : ∀ n, n ∉ xs → v n = d n).
  { intros n Hn. apply (bc_clean _ _ HQ n). unfold pinsf. cbn. by rewrite decide_False. }
  assert (Hsz : ∀ n, length (v n) = BSIZE ∧ length (d n) = BSIZE) by (intros n; apply (bc_size _ _ HQ n)).
  destruct (crash_point l v d xs k Hc HT ltac:(lia) Hh Hv (proj1 (Hsz _))) as (ys & Hys & Hhd & Hrec).
  assert (disk_ok dk) as Hdok.
  { intros n. rewrite Hdk. apply upd_size; [apply Hsz|]. apply Forall_take, commit_writes_size; [apply Hsz|lia]. }
  destruct (initlog_ok dk (start l) (size l) ys Hdok) as (l1 & s1 & h & E1 & _ & HT1 & _ & _ & _ & _ & _ & Hd1);
    [done|done|done|by rewrite Hdk|destruct Hys as [->| ->]; [constructor|done]|
     destruct Hys as [->| ->]; cbn; lia|destruct Hys as [->| ->]; cbn; lia|
     destruct Hys as [->| ->]; [intros x Hx; by apply elem_of_nil in Hx|done]|].
  exists l1, s1. split; [exact E1|]. split; [done|]. intros n Hn. rewrite Hd1, <- (Hrec n h Hn).
  unfold recovered, recovery_writes.
  replace (disk_at dk <$> seqZ (start l + 1) (Z.of_nat (length ys)))
    with (upd d (take k (commit_writes l v xs)) <$> seqZ (start l + 1) (Z.of_nat (length ys)))
    by (apply list_fmap_ext; intros; by rewrite Hdk).
  apply upd_ext. intros m. apply Hdk.
Qed.

(** Recovery started again after some of its own writes. *)
Lemma recovery_point sta siz D ys h k : NoDup ys → Z.of_nat (length ys) < siz →
  (∀ x, x ∈ ys → 0 ≤ x < 2 ^ 31 ∧ ¬ sta ≤ x < sta + siz) →
  header_is (D sta) ys → header_is h [] →
  let Dk := upd D (take k (recovery_writes sta D ys ++ [(sta, h)])) in
  ∃ zs, (zs = [] ∨ zs = ys) ∧ header_is (Dk sta) zs ∧
    ∀ n h', ¬ sta ≤ n < sta + siz → recovered sta Dk zs h' n = recovered sta D ys h n.
Proof.
  intros Hnd Hf Hhome Hh H0. cbv zeta.
  assert (Hk0 : (recovery_writes sta D ys).*1 = ys).
  { unfold recovery_writes. apply fst_zip. rewrite length_fmap, length_seqZ. lia. }
  assert (Hsta : sta ∉ ys) by (intros Hin; apply Hhome in Hin; lia).
  destruct (decide (k ≤ length ys)%nat) as [Hk|Hk].
  - assert (length (recovery_writes sta D ys) = length ys) as Hlen by (by rewrite <- Hk0 at 2; rewrite length_fmap).
    rewrite take_app_le by lia. set (Dk := upd D (take k _)).
    assert (Hoff : ∀ n, n ∉ ys → Dk n = D n).
    { intros n Hn. apply upd_notin. intros Hin%keys_take. by rewrite Hk0 in Hin. }
    exists ys. split; [by right|]. split; [by rewrite Hoff|]. intros n h' Hn.
    unfold recovered. rewrite !upd_app, !upd_one, !fn_lookup_insert_ne by (intros <-; lia).
    assert (recovery_writes sta Dk ys = recovery_writes sta D ys) as ->.
    { unfold recovery_writes. f_equal. apply list_fmap_ext. intros i y Hy.
      apply list_elem_of_lookup_2, elem_of_seqZ in Hy. apply Hoff. intros Hin. apply Hhome in Hin. lia. }
    apply upd_base. rewrite Hk0. destruct (decide (n ∈ ys)); [by left|right; by apply Hoff].
  - rewrite take_ge.
    2:{ rewrite length_app, <- (length_fmap fst (recovery_writes sta D ys)), Hk0. cbn. lia. }
    exists []. split; [by left|]. split.
    + by rewrite upd_app, upd_one, fn_lookup_insert.
    + intros n h' Hn. unfold recovered at 1, recovery_writes at 1. cbn.
      by rewrite fn_lookup_insert_ne by (intros <-; lia).
Qed.

(** C19: recovery is idempotent under crashes.  Starting the machine on a disk
    whose header records the blocks [ys] installs them; if the machine stops
    again after any number of the writes of that recovery, the next start leaves
    the same contents outside the log. *)
Theorem recovery_crash_safe d sta siz ys : disk_ok d → 0 ≤ sta → 1 ≤ siz → sta + siz < 2 ^ 31 →
  header_is (disk_at d sta) ys → NoDup ys → (length ys ≤ 30)%nat → Z.of_nat (length ys) < siz →
  (∀ x, x ∈ ys → 0 ≤ x < 2 ^ 31 ∧ ¬ sta ≤ x < sta + siz) →
  ∃ l s v D ws, initlog ROOTDEV sta siz (zero_log, bc_boot d) = Ok (tt, (l, s)) ∧
    Quiet s v D ws (λ _, 0) 0 ∧
    (∀ i x, ys !! i = Some x → D x = disk_at d (sta + 1 + Z.of_nat i)) ∧
    ∀ k dk, (∀ n, disk_at dk n = upd (disk_at d) (take k ws) n) →
      ∃ l1 s1, initlog ROOTDEV sta siz (zero_log, bc_boot dk) = Ok (tt, (l1, s1)) ∧
        ∀ n, ¬ sta ≤ n < sta + siz → disk_at (bc_disk s1) n = D n.
Proof.
  intros Hd Hs Hz He Hh Hnd Hlen Hf Hhome.
  destruct (initlog_ok d sta siz ys Hd Hs Hz He Hh Hnd Hlen Hf Hhome)
    as (l & s & h & E & _ & _ & _ & _ & _ & H0 & HQ & HD). cbv zeta in HQ.
  exists l, s. eexists _, (recovered sta (disk_at d) ys h), _. split; [exact E|]. split; [exact HQ|]. split.
  { intros i x Hx. pose proof (lookup_lt_Some _ _ _ Hx) as Hi. unfold recovered.
    rewrite upd_app, upd_one. pose proof (list_elem_of_lookup_2 _ _ _ Hx) as Hin.
    rewrite fn_lookup_insert_ne by (intros <-; apply Hhome in Hin; lia).
    unfold recovery_writes. eapply upd_zip_lookup; [done|exact Hx|].
    rewrite list_lookup_fmap, lookup_seqZ_lt by lia. done. }
  intros k dk Hdk.
  destruct (recovery_point sta siz (disk_at d) ys h k Hnd Hf Hhome Hh H0) as (zs & Hzs & Hhd & Hrec).
  assert (disk_ok dk) as Hdok.
  { intros n. rewrite Hdk. apply upd_size; [apply Hd|]. apply Forall_take, Forall_app.
    split; [|constructor; [|constructor]].
    - apply (Forall_zip_snd (λ x, length x = BSIZE)), Forall_fmap, Forall_true. intros. apply Hd.
    - pose proof (bc_size _ _ HQ sta) as [L _]. cbn in L. by rewrite upd_app, upd_one, fn_lookup_insert in L. }
  destruct (initlog_ok dk sta siz zs Hdok) as (l1 & s1 & h1 & E1 & _ & _ & _ & _ & _ & _ & _ & Hd1);
    [done|done|done|by rewrite Hdk|destruct Hzs as [->| ->]; [constructor|done]|
     destruct Hzs as [->| ->]; cbn; lia|destruct Hzs as [->| ->]; cbn; lia|
     destruct Hzs as [->| ->]; [intros x Hx; by apply elem_of_nil in Hx|done]|].
  exists l1, s1. split; [exact E1|]. intros n Hn. rewrite Hd1, <- (Hrec n h1 Hn).
  unfold recovered, recovery_writes.
  replace (disk_at dk <$> seqZ (sta + 1) (Z.of_nat (length zs)))
    with (upd (disk_at d) (take k (recovery_writes sta (disk_at d) ys ++ [(sta, h)])) <$> seqZ (sta + 1) (Z.of_nat (length zs)))
    by (apply list_fmap_ext; intros; by rewrite Hdk).
  apply upd_ext. intros m. apply Hdk.
Qed.

(** ** Recording a block *)

Lemma find_block_ok bl bno ys : ∀ i, take (length ys) (drop i bl) = ys →
  (∀ y, y ∈ ys → 0 ≤ y < 2 ^ 31) →
  find_block (length ys) (Z.of_nat i) bl bno =
    Z.of_nat (i + match list_find (bno =.) ys with Some (j, _) => j | None => length ys end).
Proof.
  induction ys as [|y ys IH]; intros i Ht Hr; cbn [find_block length]; [by rewrite Nat.add_0_r|].
  apply drop_cons_lookup in Ht as [Hy Ht]. rewrite Nat2Z.id, Hy. cbn [default from_option id].
  rewrite u32_id by (apply Hr; left). cbn [list_find]. destruct (Z.eqb_spec y bno) as [->|Hne].
  - rewrite decide_True by done. cbn. lia.
  - rewrite decide_False by done. replace (Z.of_nat i + 1) with (Z.of_nat (Datatypes.S i)) by lia.
    rewrite IH; [|done|intros z Hz; apply Hr; by right].
    destruct (list_find _ ys) as [[j z]|]; cbn; lia.
Qed.

Definition same_log (l l' : log) : Prop :=
  lock l' = false ∧ outstanding l' = outstanding l ∧ committing l' = committing l ∧
  start l' = start l ∧ size l' = size l ∧ dev l' = dev l.

Lemma log_write_ok l s a n b xs : cfg l → txn l xs → lock l = false → 1 ≤ outstanding l →
  (length xs < 30)%nat → Z.of_nat (length xs) < size l - 1 →
  bc_inv s a → a_lock a n = Some b → 0 ≤ n < 2 ^ 31 → ¬ in_log l n → a_pins a n < 2 ^ 31 →
  ∃ l' s', log_write b (l, s) = Ok (tt, (l', s')) ∧ same_log l l' ∧ cfg l' ∧
    if decide (n ∈ xs) then l' = l ∧ bc_inv s' a
    else txn l' (xs ++ [n]) ∧ bc_inv s' (abs_pin a n 1).
Proof.
  intros Hc HT Hlk Ho Hlen Hsz HI Ha Hn Hnl Hp. pose proof Hc as [C1 C2 C3 C4 C5].
  pose proof HT as [T1 T2 T3 T4 T5].
  assert (acquire (l, s) = Ok (tt, (set_lock true l, s))) as Ea.
  { unfold acquire. prog_step (glog_eq l s). rewrite Hlk. apply mlog_eq. }
  unfold log_write. prog_step Ea. set (l1 := set_lock true l). prog_step (glog_eq l1 s).
  cbn [lh_n size outstanding l1 set_lock]. unfold LOGSIZE, MAXOPBLOCKS.
  destruct (Z.leb_spec (10 * 3) (lh_n l)); [lia|]. destruct (Z.leb_spec (size l - 1) (lh_n l)); [lia|].
  cbn [orb]. destruct (Z.ltb_spec (outstanding l) 1); [lia|].
  prog_step (cache_ok _ l1 _ _ _ (bblockno_ok s a n b HI Ha)). cbn [lh_block l1 set_lock].
  rewrite T1, Nat2Z.id. change 0 with (Z.of_nat 0).
  rewrite find_block_ok; [|by rewrite drop_0|intros y Hy; by apply T5]. rewrite Nat.add_0_l, (i32_nonneg n) by done.
  destruct (list_find (n =.) xs) as [[j y]|] eqn:Ef.
  - apply list_find_Some in Ef as (Hj & <- & _). pose proof (lookup_lt_Some _ _ _ Hj) as Hjl.
    assert (Hin : n ∈ xs) by (by eapply list_elem_of_lookup_2).
    prog_step (lh_put_block_ok l1 s (Z.of_nat j) n ltac:(cbn; lia)). rewrite Nat2Z.id.
    destruct (Z.eqb_spec (Z.of_nat j) (Z.of_nat (length xs))); [lia|]. prog_run.
    cbn [lh_block l1 set_lock]. rewrite list_insert_id.
    2:{ rewrite <- T2, lookup_take_lt in Hj by lia. done. }
    exists l, s. rewrite decide_True by done. split; [|by split].
    destruct l; cbn in *. by rewrite Hlk.
  - apply list_find_None in Ef. assert (Hnin : n ∉ xs).
    { intros [i Hi]%list_elem_of_lookup. by eapply Forall_lookup_1 in Ef; [|exact Hi]. }
    prog_step (lh_put_block_ok l1 s (Z.of_nat (length xs)) n ltac:(cbn; lia)). rewrite Nat2Z.id, Z.eqb_refl.
    destruct (bpin_ok s a n b HI Ha Hp) as (s' & Ep & HI').
    set (l2 := set_block _ l1).
    prog_go (cache_ok _ l2 _ _ _ Ep). prog_go (mlog_eq (set_n (i32 (Z.of_nat (length xs) + 1))) l2 s').
    eexists _, s'. rewrite decide_False by done. split; [reflexivity|]. rewrite i32_nonneg by lia.
    split; [done|]. split; [constructor; cbn; try done; by rewrite length_insert|].
    split; [|done]. constructor; cbn.
    + rewrite length_app. cbn. lia.
    + rewrite length_app. cbn. replace (length xs + 1)%nat with (Datatypes.S (length xs)) by lia.
      rewrite (take_S_r _ _ n) by (rewrite list_lookup_insert_eq; [done|lia]).
      by rewrite take_insert_ge, T2 by lia.
    + apply list.NoDup_app. split; [done|]. split; [|apply NoDup_singleton].
      intros x Hx ->%list_elem_of_singleton. done.
    + rewrite length_app. cbn. lia.
    + intros x [Hx|Hx]%elem_of_app; [by apply T5|]. by apply list_elem_of_singleton in Hx as ->.
Qed.

(** [log_write] of a locked buffer inside an operation records its block
    exactly once: a block that the transaction already holds is absorbed and
    nothing changes, a new one is appended to the header and its buffer pinned. *)
Theorem log_write_correct l s a n b xs : cfg l → txn l xs → lock l = false → 1 ≤ outstanding l →
  (length xs < 30)%nat → Z.of_nat (length xs) < size l - 1 →
  bc_inv s a → a_lock a n = Some b → 0 ≤ n < 2 ^ 31 → ¬ in_log l n → a_pins a n < 2 ^ 31 →
  ∃ l' s', log_write b (l, s) = Ok (tt, (l', s')) ∧ same_log l l' ∧
    if decide (n ∈ xs) then l' = l ∧ bc_inv s' a
    else txn l' (xs ++ [n]) ∧ bc_inv s' (abs_pin a n 1).
Proof.
  intros. destruct (log_write_ok l s a n b xs) as (l' & s' & E & H' & _ & R); auto.
  by exists l', s'.
Qed.

(** ** Log space *)

(** A program that does not change the [struct log]. *)
Definition keeps {A} (m : prog (@st S) A) : Prop :=
  ∀ l s a l' s', m (l, s) = Ok (a, (l', s')) → l' = l.
Lemma keeps_bind {A B} (m : prog (@st S) A) (f : A → prog (@st S) B) :
  keeps m → (∀ a, keeps (f a)) → keeps (m ≫= f).
Proof.
  intros Hm Hf l s b l' s' H. apply bind_inv in H as (a & [l1 s1] & H1 & H2).
  apply Hm in H1 as ->. by apply Hf in H2.
Qed.
Lemma keeps_cache {A} (m : prog S A) : keeps (cache m).
Proof. intros l s a l' s' H. unfold cache in H. destruct (m s) as [[? ?]| | |]; by simplify_eq. Qed.
Lemma keeps_glog : keeps glog.
Proof. intros l s a l' s' H. by injection H. Qed.
Lemma keeps_skip : keeps skip.
Proof. intros l s a l' s' H. by injection H. Qed.
Lemma keeps_get_block i : keeps (get_block i).
Proof.
  apply keeps_bind; [apply keeps_glog|]. intros l0 l s a l' s' H.
  destruct (lh_block l0 !! _); [by injection H|discriminate H].
Qed.
Lemma bblockno_eq b l s bno l1 s1 : cache (bblockno b) (l, s) = Ok (bno, (l1, s1)) → bblockno b s = Ok (bno, s1).
Proof. cbn. destruct (bblockno b s) as [[]| | |]; intros H; by inversion H. Qed.
Ltac keeps := repeat first
  [ apply keeps_cache | apply keeps_glog | apply keeps_skip | apply keeps_get_block
  | apply keeps_bind; [|intros ?] ].

Lemma keeps_write_log_loop k : ∀ t, keeps (write_log_loop k t).
Proof. induction k as [|k IH]; intros t; cbn [write_log_loop]; keeps. apply IH. Qed.
Lemma keeps_install_loop k rec : ∀ t, keeps (install_loop k t rec).
Proof.
  induction k as [|k IH]; intros t; cbn [install_loop]; keeps; [|apply IH].
  unfold when. destruct (negb rec); keeps.
Qed.
Lemma keeps_write_head : keeps write_head.
Proof. unfold write_head. keeps. Qed.

Lemma commit_log l s l' s' : 0 ≤ lh_n l → commit (l, s) = Ok (tt, (l', s')) → l' = set_n 0 l.
Proof.
  intros Hn H. unfold commit in H. apply bind_inv in H as (l0 & [l1 s1] & H1 & H).
  injection H1 as <- <- <-. destruct (Z.ltb_spec 0 (lh_n l)) as [Hlt|Hlt].
  - apply bind_inv in H as (? & [l2 s2] & H1 & H). unfold write_log in H1.
    apply bind_inv in H1 as (? & [l3 s3] & [= <- <- <-] & H1). apply keeps_write_log_loop in H1 as ->.
    apply bind_inv in H as (? & [l4 s4] & H1 & H). apply keeps_write_head in H1 as ->.
    apply bind_inv in H as (? & [l5 s5] & H1 & H). unfold install_trans in H1.
    apply bind_inv in H1 as (? & [l6 s6] & [= <- <- <-] & H1). apply keeps_install_loop in H1 as ->.
    apply bind_inv in H as (? & [l7 s7] & [= <- <- <-] & H). by apply keeps_write_head in H.
  - injection H as <- <-. unfold set_n. destruct l; cbn in *. f_equal. lia.
Qed.

(** ** The space of the log

    Operations in progress: of each, the blocks it has logged.  Between their
    [begin_op] and their [end_op] they log in any order, a block as often as they
    like, and at most [MAXOPBLOCKS] different ones each. *)
Definition lstate : Type := log * S * list (gset Z).
Inductive lstep : lstate → lstate → Prop :=
| step_begin l s Ds l' s' : begin_op_try (l, s) = Ok (true, (l', s')) →
    lstep (l, s, Ds) (l', s', ∅ :: Ds)
| step_wait l s Ds l' s' : begin_op_try (l, s) = Ok (false, (l', s')) → lstep (l, s, Ds) (l', s', Ds)
| step_cache l s Ds s' : lstep (l, s, Ds) (l, s', Ds)
| step_write l s Ds1 D Ds2 b bno s1 l' s' : bblockno b s = Ok (bno, s1) → 0 ≤ bno < 2 ^ 32 →
    Z.of_nat (base.size ({[bno]} ∪ D)) ≤ MAXOPBLOCKS → log_write b (l, s) = Ok (tt, (l', s')) →
    lstep (l, s, Ds1 ++ D :: Ds2) (l', s', Ds1 ++ ({[bno]} ∪ D) :: Ds2)
| step_end l s Ds1 D Ds2 l' s' : end_op (l, s) = Ok (tt, (l', s')) →
    lstep (l, s, Ds1 ++ D :: Ds2) (l', s', Ds1 ++ Ds2).

(** What the operations may still log. *)
Definition left_of (D : gset Z) : Z := MAXOPBLOCKS - Z.of_nat (base.size D).
Definition total (Ds : list (gset Z)) : Z := foldr (λ D t, left_of D + t) 0 Ds.
Definition in_header (l : log) (x : Z) : Prop :=
  ∃ i, 0 ≤ i < lh_n l ∧ u32 (default 0 (lh_block l !! Z.to_nat i)) = x.

Lemma total_app Ds1 Ds2 : total (Ds1 ++ Ds2) = total Ds1 + total Ds2.
Proof. induction Ds1 as [|b Ds1 IH]; cbn; [done|]. unfold total in *. lia. Qed.
Lemma total_nonneg Ds : Forall (λ D, 0 ≤ left_of D) Ds → 0 ≤ total Ds.
Proof. induction 1; cbn [total foldr]; [lia|]. unfold total in *. lia. Qed.
Lemma total_le Ds : total Ds ≤ 10 * Z.of_nat (length Ds).
Proof. induction Ds as [|D Ds IH]; cbn [total foldr length]; [lia|]. unfold total, left_of, MAXOPBLOCKS in *. lia. Qed.

Record linv (x : lstate) : Prop := {
  li_lock : lock x.1.1 = false;
  li_committing : committing x.1.1 = 0;
  li_n : 0 ≤ lh_n x.1.1;
  li_space : lh_n x.1.1 + total x.2 ≤ LOGSIZE;
  li_out : outstanding x.1.1 = Z.of_nat (length x.2);
  li_each : Forall (λ D, 0 ≤ left_of D) x.2;
  li_many : Z.of_nat (length x.2) ≤ 3;
  li_header : Forall (λ D, ∀ b, b ∈ D → in_header x.1.1 b) x.2 }.

Lemma find_block_spec k : ∀ i bl bno, let r := find_block k i bl bno in
  i ≤ r ≤ i + Z.of_nat k ∧ (r < i + Z.of_nat k → u32 (default 0 (bl !! Z.to_nat r)) = bno) ∧
  ∀ j, i ≤ j < r → u32 (default 0 (bl !! Z.to_nat j)) ≠ bno.
Proof.
  induction k as [|k IH]; intros i bl bno; cbn [find_block]; cbv zeta; [split_and!; lia|].
  destruct (Z.eqb_spec (u32 (default 0 (bl !! Z.to_nat i))) bno) as [E|E]; [split_and!; [lia|lia|done|lia]|].
  destruct (IH (i + 1) bl bno) as (H1 & H2 & H3). split_and!; [lia|lia|intros Hr; apply H2; lia|].
  intros j Hj. destruct (decide (j = i)) as [->|]; [done|]. apply H3. lia.
Qed.

Lemma header_put l l' i bno : 0 ≤ lh_n l → i = find_block (Z.to_nat (lh_n l)) 0 (lh_block l) bno → 0 ≤ bno < 2 ^ 32 →
  is_Some (lh_block l !! Z.to_nat i) → lh_block l' = <[Z.to_nat i := i32 bno]> (lh_block l) →
  lh_n l' = (if i =? lh_n l then lh_n l + 1 else lh_n l) →
  (lh_n l' = lh_n l ↔ in_header l bno) ∧ in_header l' bno ∧ ∀ x, in_header l x → in_header l' x.
Proof.
  intros Hn Hi Hb [v Hv] Hbl Hn'. destruct (find_block_spec (Z.to_nat (lh_n l)) 0 (lh_block l) bno) as (Hr & Hf & Hb').
  rewrite <- Hi in Hr, Hf, Hb'. assert (0 ≤ i ≤ lh_n l) as Hir by lia.
  assert (u32 (default 0 (lh_block l' !! Z.to_nat i)) = bno) as Hat.
  { rewrite Hbl, list_lookup_insert_eq by (by eapply lookup_lt_Some). cbn. unfold u32. rewrite i32_mod. by apply Z.mod_small. }
  assert (i < lh_n l') as Hlt by (rewrite Hn'; destruct (Z.eqb_spec i (lh_n l)); lia).
  split_and!.
  - rewrite Hn'. destruct (Z.eqb_spec i (lh_n l)) as [E|E].
    + split; [lia|]. intros (j & Hj & Hx). destruct (Hb' j); [lia|done].
    + split; [|done]. intros _. exists i. split; [lia|]. apply Hf. lia.
  - exists i. split; [lia|done].
  - intros x (j & Hj & Hx). exists j. split; [destruct (Z.eqb_spec i (lh_n l)); lia|]. destruct (decide (j = i)) as [->|Hne].
    + rewrite Hat, <- Hx. symmetry. apply Hf. lia.
    + rewrite Hbl, list_lookup_insert_ne by lia. done.
Qed.

Lemma log_write_inv l s b l' s' : lock l = false → 0 ≤ lh_n l → log_write b (l, s) = Ok (tt, (l', s')) →
  1 ≤ outstanding l ∧ same_log l l' ∧ lh_n l ≤ lh_n l' ≤ lh_n l + 1 ∧
  ∀ bno s1, bblockno b s = Ok (bno, s1) → 0 ≤ bno < 2 ^ 32 →
    (lh_n l' = lh_n l ↔ in_header l bno) ∧ in_header l' bno ∧ ∀ x, in_header l x → in_header l' x.
Proof.
  intros Hl Hn H. unfold log_write, acquire in H. rewrite bind_assoc' in H.
  apply bind_inv in H as (? & ? & [= <- <-] & H). rewrite Hl in H.
  apply bind_inv in H as (? & ? & [= <- <-] & H). apply bind_inv in H as (? & ? & [= <- <-] & H).
  cbn [lh_n size outstanding set_lock lh_block] in H.
  destruct (Z.leb_spec LOGSIZE (lh_n l)) as [G1|G1]; [done|]. destruct (_ <=? _); [done|].
  destruct (Z.ltb_spec (outstanding l) 1) as [G2|G2]; [done|]. unfold LOGSIZE, MAXOPBLOCKS in *.
  apply bind_inv in H as (bno & [l1 s1] & H1 & H). pose proof (bblockno_eq _ _ _ _ _ _ H1) as Hbno. apply keeps_cache in H1 as ->.
  set (i := find_block (Z.to_nat (lh_n l)) 0 (lh_block l) bno) in *.
  apply bind_inv in H as (? & [l2 s2] & H1 & H). unfold put_block in H1.
  apply bind_inv in H1 as (? & ? & [= <- <-] & H1). cbn [lh_block set_lock] in H1. destruct (_ !! _) as [v|] eqn:Ev; [|done]. injection H1 as <- <-.
  apply bind_inv in H as (? & [l3 s3] & H1 & H).
  assert (same_log l l' ∧ lh_block l' = <[Z.to_nat i := i32 bno]> (lh_block l) ∧
    lh_n l' = if i =? lh_n l then lh_n l + 1 else lh_n l) as (HS & HB & HN).
  { destruct (i =? lh_n l).
    - apply bind_inv in H1 as (? & [l4 s4] & H2 & H1). apply keeps_cache in H2 as ->. injection H1 as <- <-.
      injection H as <- <-. cbn. rewrite i32_nonneg by lia. done.
    - injection H1 as <- <-. by injection H as <- <-. }
  split_and!; [done|apply HS..|destruct (i =? lh_n l); lia|destruct (i =? lh_n l); lia|]. intros bno' s1' E Hr. rewrite E in Hbno. injection Hbno as -> <-.
  by eapply (header_put l l' i).
Qed.

Lemma begin_op_inv l (s : S) r l' s' : lock l = false → committing l = 0 → 0 ≤ lh_n l ≤ 30 →
  0 ≤ outstanding l ≤ 3 → begin_op_try (l, s) = Ok (r, (l', s')) →
  lock l' = false ∧ committing l' = 0 ∧ lh_n l' = lh_n l ∧ lh_block l' = lh_block l ∧
  if r then lh_n l + (outstanding l + 1) * 10 ≤ 30 ∧ outstanding l' = outstanding l + 1
  else outstanding l' = outstanding l.
Proof.
  intros Hl Hc Hn Ho H. unfold begin_op_try, acquire in H. rewrite bind_assoc' in H.
  apply bind_inv in H as (? & ? & [= <- <-] & H). rewrite Hl in H.
  apply bind_inv in H as (? & ? & [= <- <-] & H). apply bind_inv in H as (? & ? & [= <- <-] & H).
  cbn [committing lh_n outstanding set_lock] in H. rewrite Hc in H. cbn [Z.eqb negb] in H.
  unfold LOGSIZE, MAXOPBLOCKS in H. rewrite (i32_nonneg (outstanding l + 1)) in H by lia.
  rewrite (i32_nonneg ((outstanding l + 1) * 10)) in H by lia. rewrite i32_nonneg in H by lia.
  destruct (Z.ltb_spec (10 * 3) (lh_n l + (outstanding l + 1) * 10)) as [G|G];
    injection H as <- <- <-; cbn; repeat split; lia.
Qed.

Lemma end_op_inv l (s : S) l' s' : lock l = false → 0 ≤ lh_n l → 1 ≤ outstanding l ≤ 3 →
  end_op (l, s) = Ok (tt, (l', s')) →
  lock l' = false ∧ committing l' = 0 ∧ outstanding l' = outstanding l - 1 ∧ lh_block l' = lh_block l ∧
  (lh_n l' = lh_n l ∨ lh_n l' = 0 ∧ outstanding l = 1).
Proof.
  intros Hl Hn Ho H. unfold end_op, acquire in H. rewrite bind_assoc' in H.
  apply bind_inv in H as (? & ? & [= <- <-] & H). rewrite Hl in H.
  apply bind_inv in H as (? & ? & [= <- <-] & H). apply bind_inv in H as (? & ? & [= <- <-] & H).
  apply bind_inv in H as (? & ? & [= <- <-] & H). apply bind_inv in H as (? & ? & [= <- <-] & H).
  cbn [committing outstanding set_lock set_outstanding] in H. rewrite i32_nonneg in H by lia.
  destruct (Z.eqb_spec (committing l) 0) as [G|G]; cbn [negb] in H; [|done].
  destruct (Z.eqb_spec (outstanding l - 1) 0) as [G2|G2].
  - apply bind_inv in H as (? & ? & [= <- <-] & H). apply bind_inv in H as (? & ? & [= <- <-] & H).
    apply bind_inv in H as ([] & [l2 s2] & H1 & H). apply commit_log in H1; [|done]. subst l2.
    injection H as <- <-. cbn. repeat split; try lia.
  - injection H as <- <-. cbn. repeat split; try lia.
Qed.

Lemma linv_begin l s Ds l' s' : linv (l, s, Ds) → begin_op_try (l, s) = Ok (true, (l', s')) → linv (l', s', ∅ :: Ds).
Proof.
  intros [I1 I2 I3 I4 I5 I6 I7 I8] H. cbn [fst snd] in *. pose proof (total_nonneg _ I6) as It. unfold LOGSIZE, MAXOPBLOCKS in *.
  apply begin_op_inv in H as (J1 & J2 & J3 & Jb & J4 & J5); try lia; try done. pose proof (total_le Ds).
  assert (left_of ∅ = 10) as E0 by (unfold left_of; by rewrite size_empty).
  constructor; cbn [fst snd total foldr length]; unfold LOGSIZE, MAXOPBLOCKS, total in *; rewrite ?E0; try lia; try done.
  - constructor; [lia|done].
  - constructor; [set_solver|]. eapply list.Forall_impl; [exact I8|]. intros D HD b (i & Hi & Hb)%HD. exists i. by rewrite J3, Jb.
Qed.
Lemma linv_write l s Ds1 D Ds2 b bno s1 l' s' : linv (l, s, Ds1 ++ D :: Ds2) → bblockno b s = Ok (bno, s1) → 0 ≤ bno < 2 ^ 32 →
  Z.of_nat (base.size ({[bno]} ∪ D)) ≤ MAXOPBLOCKS → log_write b (l, s) = Ok (tt, (l', s')) →
  linv (l', s', Ds1 ++ ({[bno]} ∪ D) :: Ds2).
Proof.
  intros [I1 I2 I3 I4 I5 I6 I7 I8] Hb Hr Hsz H. cbn [fst snd] in *.
  apply log_write_inv in H as (J1 & (J2 & J3 & J4 & _) & J5 & J6); [|done|done]. destruct (J6 _ _ Hb Hr) as (K1 & K2 & K3).
  apply Forall_app in I6 as [F1 F2], I8 as [G1 G2]. apply Forall_cons_iff in F2 as [F2 F3], G2 as [G2 G3].
  assert (lh_n l' + left_of ({[bno]} ∪ D) ≤ lh_n l + left_of D) as Hle.
  { unfold left_of. destruct (decide (bno ∈ D)) as [Hin|Hin].
    - assert ({[bno]} ∪ D = D) as -> by set_solver. enough (lh_n l' = lh_n l) by lia. apply K1. by apply G2.
    - rewrite size_union by set_solver. rewrite size_singleton. lia. }
  unfold LOGSIZE, MAXOPBLOCKS in *. rewrite total_app, length_app in *. cbn [total foldr length] in *. fold (total Ds2) in *.
  assert (∀ Ds : list (gset Z), Forall (λ D, ∀ b, b ∈ D → in_header l b) Ds → Forall (λ D, ∀ b, b ∈ D → in_header l' b) Ds) as Hmono.
  { intros Ds HF. eapply list.Forall_impl; [exact HF|]. intros E HE x Hx. by apply K3, HE. }
  constructor; cbn [fst snd]; rewrite ?total_app, ?length_app; cbn [total foldr length]; try fold (total Ds2); unfold LOGSIZE, MAXOPBLOCKS; try lia; try congruence.
  - apply Forall_app. split; [done|]. constructor; [unfold left_of, MAXOPBLOCKS in *; lia|done].
  - apply Forall_app. split; [by apply Hmono|]. constructor; [|by apply Hmono].
    intros x [->%elem_of_singleton|Hx]%elem_of_union; [done|]. by apply K3, G2.
Qed.
Lemma linv_step x y : linv x → lstep x y → linv y.
Proof.
  intros I Hs. destruct Hs as [l s Ds l' s' H|l s Ds l' s' H|l s Ds s'|l s Ds1 D Ds2 b bno s1 l' s' Hb Hr Hsz H|l s Ds1 D Ds2 l' s' H].
  - by eapply linv_begin.
  - destruct I as [I1 I2 I3 I4 I5 I6 I7 I8]; cbn [fst snd] in *. pose proof (total_nonneg _ I6). unfold LOGSIZE, MAXOPBLOCKS in *.
    apply begin_op_inv in H as (J1 & J2 & J3 & Jb & J4); try lia; try done.
    constructor; cbn [fst snd]; unfold LOGSIZE, MAXOPBLOCKS in *; rewrite ?J3, ?J4; try done.
    eapply list.Forall_impl; [exact I8|]. intros D HD b (i & Hi & Hb)%HD. exists i. by rewrite J3, Jb.
  - by destruct I; constructor.
  - by eapply linv_write.
  - destruct I as [I1 I2 I3 I4 I5 I6 I7 I8]; cbn [fst snd] in *. rewrite total_app, length_app in *. cbn [total foldr length] in *. fold (total Ds2) in *.
    apply Forall_app in I6 as [F1 F2], I8 as [G1 G2]. apply Forall_cons_iff in F2 as [F2 F3], G2 as [G2 G3].
    apply end_op_inv in H as (J1 & J2 & J3 & Jb & J4); try lia; try done. unfold LOGSIZE, MAXOPBLOCKS in *.
    constructor; cbn [fst snd]; rewrite ?total_app, ?length_app; unfold LOGSIZE, MAXOPBLOCKS; try lia; try done; [by apply Forall_app|].
    destruct J4 as [J4|J4].
    + assert (Forall (λ D, ∀ b, b ∈ D → in_header l b) (Ds1 ++ Ds2)) as HF by (by apply Forall_app).
      eapply list.Forall_impl; [exact HF|]. intros E HE b (i & Hi & Hb)%HE. exists i. by rewrite J4, Jb.
    + destruct Ds1, Ds2; [constructor|cbn in *; lia..].
Qed.

(** C13: the reservation of [begin_op] is sufficient.  Operations log in any
    interleaving, each at most [MAXOPBLOCKS] different blocks.  The header never
    holds more than [LOGSIZE] blocks; and while an operation that has logged the
    blocks [D] is in progress, at most [LOGSIZE - MAXOPBLOCKS] and those.  So a
    [log_write] of this operation passes the tests for a full log and for an
    operation outstanding, as long as these are fewer than [LOGSIZE] and than
    the [size - 1] that the test wants: always for the first ten blocks of an
    operation on a log of 31 blocks, for the first nine on one of 30. *)
Theorem log_space l s l' s' Ds : linv (l, s, []) → rtc lstep (l, s, []) (l', s', Ds) →
  lh_n l' ≤ LOGSIZE ∧
  ∀ D, D ∈ Ds → let n := LOGSIZE - MAXOPBLOCKS + Z.of_nat (base.size D) in
    lh_n l' ≤ n ∧ (∀ b, b ∈ D → in_header l' b) ∧
    (n < LOGSIZE → n < size l' - 1 →
     ((LOGSIZE <=? lh_n l') || (size l' - 1 <=? lh_n l')) = false ∧ (outstanding l' <? 1) = false).
Proof.
  intros H0 Hr. assert (linv (l', s', Ds)) as [I1 I2 I3 I4 I5 I6 I7 I8].
  { clear -H0 Hr. remember (l, s, []) as y. clear Heqy. induction Hr; [done|].
    apply IHHr. by eapply linv_step. }
  cbn [fst snd] in *. pose proof (total_nonneg _ I6) as It. split; [lia|].
  intros D Hin. set (n := LOGSIZE - MAXOPBLOCKS + Z.of_nat (base.size D)). pose proof (proj1 (list.Forall_forall _ _) I8 D Hin) as HD. apply list_elem_of_split in Hin as (Ds1 & Ds2 & ->).
  apply Forall_app in I6 as [F1 F2]. apply Forall_cons_iff in F2 as [F2 F3].
  apply total_nonneg in F1, F3. rewrite total_app, length_app in *. cbn [total foldr length] in *. fold (total Ds2) in *.
  assert (lh_n l' ≤ n) as Hn by (unfold n, left_of in *; lia). split_and!; [done..|]. intros H1 H2. split.
  - apply orb_false_iff. rewrite !Z.leb_gt. lia.
  - apply Z.ltb_ge. lia.
Qed.

End spec.
End LogSpec.
