(* ===== verification/Journal.v ===== *)
(** * The interface of the log to the file system

    What [bread], [log_write] and [brelse] promise inside a transaction.  The
    abstract state has the contents of every block as the kernel sees them, the
    blocks the transaction has logged, and the buffers that are held, the last
    one taken first; the file system takes and releases them in that order.

    [Txn]: what [begin_op] and [end_op] promise to the callers of the file
    system.  With no other operation in progress, the blocks that an operation
    updates between them are, once [end_op] returns, the contents of the disk. *)

From S2P Require Import Prelude BufCache Log.
Import BufCache.

Module Journal.

Record jabs := mkJ {
  j_view : Z → block;
  j_disk : Z → block;
  j_dirty : list Z;
  j_held : list (Z * nat);
  j_cap : Z;
  j_log : Z → Prop }.

Definition j_set (a : jabs) (n : Z) (v : block) : jabs :=
  mkJ (<[n := v]> (j_view a)) (j_disk a) (j_dirty a) (j_held a) (j_cap a) (j_log a).
Definition j_push (a : jabs) (n : Z) (b : nat) : jabs :=
  mkJ (j_view a) (j_disk a) (j_dirty a) ((n, b) :: j_held a) (j_cap a) (j_log a).
Definition j_pop (a : jabs) : jabs :=
  mkJ (j_view a) (j_disk a) (j_dirty a) (tail (j_held a)) (j_cap a) (j_log a).
Definition j_add (a : jabs) (n : Z) : jabs :=
  mkJ (j_view a) (j_disk a) (if bool_decide (n ∈ j_dirty a) then j_dirty a else j_dirty a ++ [n]) (j_held a) (j_cap a) (j_log a).

(** Room for one more buffer. *)
Definition j_room (a : jabs) : Prop := Z.of_nat (length (j_dirty a) + length (j_held a)) < NBUF.
(** A block of the file system. *)
Definition j_home (a : jabs) (n : Z) : Prop := 0 ≤ n < 2 ^ 31 ∧ ¬ j_log a n.

Class Journaled (S : Type) := {
  bread : Z → Z → prog S nat;
  bdata : nat → prog S block;
  bset : nat → block → prog S unit;
  log_write : nat → prog S unit;
  brelse : nat → prog S unit;
  jinv : S → jabs → Prop;
  jinv_ext s a v : jinv s a → (∀ n, v n = j_view a n) →
    jinv s (mkJ v (j_disk a) (j_dirty a) (j_held a) (j_cap a) (j_log a));
  jinv_size s a : jinv s a → ∀ n, length (j_view a n) = BSIZE;
  jinv_nodup s a : jinv s a → NoDup (j_dirty a);
  (** A block that is neither logged nor held is as on disk. *)
  jinv_clean s a n : jinv s a → n ∉ j_dirty a → n ∉ (j_held a).*1 → j_view a n = j_disk a n;
  bread_ok s a n : jinv s a → n ∉ (j_held a).*1 → j_room a →
    ∃ b s', bread ROOTDEV n s = Ok (b, s') ∧ jinv s' (j_push a n b);
  bdata_ok s a n b h : jinv s a → j_held a = (n, b) :: h → bdata b s = Ok (j_view a n, s);
  bset_ok s a n b h v : jinv s a → j_held a = (n, b) :: h → length v = BSIZE →
    ∃ s', bset b v s = Ok (tt, s') ∧ jinv s' (j_set a n v);
  log_write_ok s a n b h : jinv s a → j_held a = (n, b) :: h → j_home a n → Z.of_nat (length (j_dirty a)) < j_cap a →
    ∃ s', log_write b s = Ok (tt, s') ∧ jinv s' (j_add a n);
  brelse_ok s a n b h : jinv s a → j_held a = (n, b) :: h → n ∈ j_dirty a ∨ j_view a n = j_disk a n →
    ∃ s', brelse b s = Ok (tt, s') ∧ jinv s' (j_pop a) }.

End Journal.

Import Journal.
Import Log (LOGSIZE).

Module Txn.

(** An operation that has not logged a block yet, over the contents [v] of the
    disk; the blocks of [L] are the log. *)
Definition fresh_op (v : Z → block) (L : Z → Prop) : jabs := mkJ v v [] [] (LOGSIZE - 1) L.
(** A process that only reads: it can log no block. *)
Definition reader (v : Z → block) (L : Z → Prop) : jabs := mkJ v v [] [] 0 L.

Class Transactions (S : Type) := {
  tx_journal :: Journaled S;
  begin_op : prog S unit;
  end_op : prog S unit;
  (** No operation is in progress and the disk has the contents [v]. *)
  jidle : S → (Z → block) → (Z → Prop) → Prop;
  begin_op_ok s v L : jidle s v L → ∃ s', begin_op s = Ok (tt, s') ∧ jinv s' (fresh_op v L);
  end_op_ok s a : jinv s a → j_held a = [] → j_cap a = LOGSIZE - 1 → Z.of_nat (length (j_dirty a)) ≤ LOGSIZE - 1 →
    ∃ s' v, end_op s = Ok (tt, s') ∧ jidle s' v (j_log a) ∧ ∀ n, ¬ j_log a n → v n = j_view a n;
  (** Blocks are read outside of an operation, too. *)
  read_idle s v L : jidle s v L → jinv s (reader v L);
  idle_read s v L : jinv s (reader v L) → jidle s v L }.

End Txn.
