(* ===== verification/LogJournal.v ===== *)
(** * The log implements the interface of the file system

    The functions of kernel/log.c and kernel/bio.c, inside an operation, keep
    the laws of [Journal]. *)

From S2P Require Import Prelude Bytes BufCache Log LogProofs LogSpec Journal.
Import Journal BufCache Log LogProofs LogSpec.

Module LogJournal.

(** The buffer held for a block. *)
Fixpoint held_for (h : list (Z * nat)) (n : Z) : option nat :=
  match h with
  | [] => None
  | (m, b) :: h' => if bool_decide (m = n) then Some b else held_for h' n
  end.
Lemma held_None h n : held_for h n = None ↔ n ∉ h.*1.
Proof.
  induction h as [|[m b] h IH]; cbn; [split; [intros _; apply not_elem_of_nil|done]|]. rewrite not_elem_of_cons.
  case_bool_decide; [split; [done|intros [? _]; congruence]|]. rewrite IH. naive_solver.
Qed.
Lemma held_cons h m b n : held_for ((m, b) :: h) n = (<[m := Some b]> (held_for h) : Z → option nat) n.
Proof. cbn. case_bool_decide as E; [subst; by rewrite fn_lookup_insert|by rewrite fn_lookup_insert_ne]. Qed.

Definition one (P : Prop) `{Decision P} : Z := b2z (bool_decide P).

(** Buffers in use: those the log has pinned, and those that are only held. *)
Definition busy (dirty : list Z) (h : list (Z * nat)) : Z :=
  Z.of_nat (length dirty + length (filter (λ p : Z * nat, p.1 ∉ dirty) h)).
Lemma busy_le dirty h : busy dirty h ≤ Z.of_nat (length dirty + length h).
Proof. unfold busy. pose proof (length_filter (λ p : Z * nat, p.1 ∉ dirty) h). lia. Qed.
Lemma busy_cons dirty n b h : busy dirty ((n, b) :: h) = busy dirty h + one (n ∉ dirty).
Proof. unfold busy, one. rewrite filter_cons. cbn [fst]. case_decide; case_bool_decide; try done; cbn [length b2z]; lia. Qed.
(** Logging a block pins a buffer that was already in use. *)
Lemma busy_log dirty n b h : n ∉ dirty → n ∉ h.*1 → busy (dirty ++ [n]) ((n, b) :: h) = busy dirty ((n, b) :: h).
Proof.
  intros Hn Hh. rewrite !busy_cons. unfold one. rewrite (bool_decide_true (n ∉ dirty)) by done.
  rewrite (bool_decide_false (n ∉ dirty ++ [n])) by (intros H; apply H; apply elem_of_app; right; apply list_elem_of_here).
  unfold busy. cbn [b2z]. rewrite length_app. cbn [length].
  assert (filter (λ p : Z * nat, p.1 ∉ dirty ++ [n]) h = filter (λ p : Z * nat, p.1 ∉ dirty) h) as ->; [|lia].
  revert Hh. induction h as [|[m c] h IH]; [done|]. cbn [fmap list_fmap]. rewrite not_elem_of_cons. intros [Hm Hh].
  rewrite !filter_cons. cbn [fst] in *. rewrite IH by done.
  destruct (decide (m ∉ dirty)), (decide (m ∉ dirty ++ [n])) as [|H]; try done.
  - exfalso. apply H. rewrite not_elem_of_app. split; [done|]. intros E%list_elem_of_singleton. congruence.
  - exfalso. set_solver.
Qed.

Section instance.
Context {S : Type} `{BC : BufferCache S}.

Record linked (x : @Log.st S) (a : jabs) : Prop := {
  lk_cfg : cfg x.1;
  lk_txn : txn x.1 (j_dirty a);
  lk_lock : lock x.1 = false;
  lk_open : 0 < j_cap a → 1 ≤ outstanding x.1;
  lk_cap : j_cap a ≤ Z.min 30 (size x.1 - 1);
  lk_log n : j_log a n ↔ in_log x.1 n;
  lk_nodup : NoDup (j_held a).*1;
  lk_cache : ∃ w, bc_inv x.2 (mkAbs (j_view a) (j_disk a) w (λ n, one (n ∈ j_dirty a) + one (n ∈ (j_held a).*1))
    (held_for (j_held a)) (busy (j_dirty a) (j_held a))) }.

Lemma one_range P `{Decision P} : 0 ≤ one P ≤ 1.
Proof. unfold one. by case_bool_decide. Qed.
Lemma one_ext P Q `{Decision P, Decision Q} : (P ↔ Q) → one P = one Q.
Proof. intros HPQ. unfold one. f_equal. by apply bool_decide_ext. Qed.

Lemma linked_ext x a v : linked x a → (∀ n, v n = j_view a n) → linked x (mkJ v (j_disk a) (j_dirty a) (j_held a) (j_cap a) (j_log a)).
Proof.
  intros [] Hv. constructor; try done. cbn. destruct lk_cache0 as [w H]. exists w. eapply bc_eq; [exact H|]. by constructor; cbn.
Qed.
Lemma linked_size x a : linked x a → ∀ n, length (j_view a n) = BSIZE.
Proof. intros [] n. destruct lk_cache0 as [w H]. apply (bc_size _ _ H n). Qed.

Lemma linked_nodup x a : linked x a → NoDup (j_dirty a).
Proof. intros []. by destruct lk_txn0. Qed.

Lemma linked_clean x a n : linked x a → n ∉ j_dirty a → n ∉ (j_held a).*1 → j_view a n = j_disk a n.
Proof.
  intros [] H1 H2. destruct lk_cache0 as [w H]. apply (bc_clean _ _ H n). cbn. unfold one. by rewrite !bool_decide_false.
Qed.
Lemma linked_read x a n : linked x a → n ∉ (j_held a).*1 → j_room a →
  ∃ b x', cache (bread ROOTDEV n) x = Ok (b, x') ∧ linked x' (j_push a n b).
Proof.
  intros H Hn Hr. destruct x as [l s]. destruct H as [H1 H2 H3 H4 H5 H6 H7 [w H]]. cbn in *.
  destruct (bread_ok s _ n H) as (b & s' & E & I').
  - cbn. by apply held_None.
  - right. cbn. pose proof (busy_le (j_dirty a) (j_held a)). unfold j_room in Hr. lia.
  - cbn. pose proof (one_range (n ∈ j_dirty a)). pose proof (one_range (n ∈ (j_held a).*1)). lia.
  - exists b, (l, s'). split; [by apply cache_ok|]. constructor; try done.
    + cbn. apply list.NoDup_cons. done.
    + exists w. eapply bc_eq; [exact I'|]. constructor; cbn; try done.
      * intros m. destruct (decide (m = n)) as [->|Hne].
        -- rewrite fn_lookup_insert. unfold one. rewrite (bool_decide_false (n ∈ (j_held a).*1)) by done.
           rewrite (bool_decide_true (n ∈ n :: _)) by apply list_elem_of_here. cbn. lia.
        -- rewrite fn_lookup_insert_ne by done. f_equal. apply one_ext. rewrite elem_of_cons. naive_solver.
      * intros m. rewrite <- held_cons. done.
      * rewrite busy_cons. f_equal. unfold one. rewrite (bool_decide_false (n ∈ (j_held a).*1)) by done.
        destruct (decide (n ∈ j_dirty a)); [rewrite bool_decide_true, bool_decide_false by (done || tauto); done|].
        rewrite bool_decide_false, bool_decide_true by done. done.
Qed.

Lemma linked_head x a n b h : linked x a → j_held a = (n, b) :: h → held_for (j_held a) n = Some b ∧ n ∉ h.*1.
Proof.
  intros [] E. rewrite E in *. cbn. rewrite bool_decide_true by done. split; [done|]. by apply list.NoDup_cons in lk_nodup0 as [? _].
Qed.

Lemma linked_log x a n b h : linked x a → j_held a = (n, b) :: h → j_home a n → Z.of_nat (length (j_dirty a)) < j_cap a →
  ∃ x', Log.log_write b x = Ok (tt, x') ∧ linked x' (j_add a n).
Proof.
  intros HLK E [Hn Hnl] Hc. destruct (linked_head x a n b h HLK E) as [Hb Hnh]. destruct x as [l s].
  destruct HLK as [H1 H2 H3 H4 H5 H6 H7 [w H]]. cbn in *.
  destruct (log_write_ok l s _ n b (j_dirty a) H1 H2 H3 (H4 ltac:(lia)) ltac:(lia) ltac:(lia) H Hb Hn) as (l' & s' & Ew & (L1 & L2 & L3 & L4 & L5 & L6) & Hcfg & HR).
  { by rewrite <- H6. } { cbn. pose proof (one_range (n ∈ j_dirty a)). pose proof (one_range (n ∈ (j_held a).*1)). lia. }
  exists (l', s'). split; [done|]. destruct (decide (n ∈ j_dirty a)) as [Hd|Hd].
  - destruct HR as [-> I']. constructor; unfold j_add; cbn; rewrite ?(bool_decide_true (n ∈ j_dirty a)) by done; try done. by exists w.
  - destruct HR as [HT I']. constructor; unfold j_add; cbn; rewrite ?(bool_decide_false (n ∈ j_dirty a)) by done; try done.
    + lia. + by rewrite L5. + intros m. rewrite H6. unfold in_log. by rewrite L4, L5.
    + exists w. eapply bc_eq; [exact I'|]. constructor; cbn; try done.
      * intros m. destruct (decide (m = n)) as [->|Hne].
        -- rewrite fn_lookup_insert. unfold one. rewrite (bool_decide_false (n ∈ j_dirty a)) by done.
           rewrite (bool_decide_true (n ∈ _ ++ [n])) by (apply elem_of_app; right; apply list_elem_of_here). cbn. lia.
        -- rewrite fn_lookup_insert_ne by done. f_equal. apply one_ext. rewrite elem_of_app, list_elem_of_singleton. naive_solver.
      * rewrite E. symmetry. by apply busy_log.
Qed.

Lemma linked_relse x a n b h : linked x a → j_held a = (n, b) :: h → n ∈ j_dirty a ∨ j_view a n = j_disk a n →
  ∃ x', cache (brelse b) x = Ok (tt, x') ∧ linked x' (j_pop a).
Proof.
  intros HLK E Hor. destruct (linked_head x a n b h HLK E) as [Hb Hnh]. destruct x as [l s].
  destruct HLK as [H1 H2 H3 H4 H5 H6 H7 [w H]]. cbn in *.
  destruct (brelse_ok s _ n b H Hb) as (s' & Er & I').
  { cbn. rewrite E. unfold one. rewrite (bool_decide_true (n ∈ ((n, b) :: h).*1)) by apply list_elem_of_here.
    destruct Hor as [Hd|?]; [rewrite bool_decide_true by done; cbn; lia|done]. }
  exists (l, s'). split; [by apply cache_ok|]. constructor; unfold j_pop; cbn; rewrite ?E; try done.
  - rewrite E in H7. by apply list.NoDup_cons in H7 as [_ ?].
  - exists w. eapply bc_eq; [exact I'|]. rewrite E. constructor; cbn [a_view a_disk a_writes a_pins a_lock a_busy abs_relse tail]; try done.
    + intros m. destruct (decide (m = n)) as [->|Hne].
      * rewrite fn_lookup_insert. unfold one. rewrite (bool_decide_true (n ∈ ((n, b) :: h).*1)) by apply list_elem_of_here.
        rewrite (bool_decide_false (n ∈ h.*1)) by done. cbn. lia.
      * rewrite fn_lookup_insert_ne by done. f_equal. apply one_ext. cbn. rewrite elem_of_cons. naive_solver.
    + intros m. destruct (decide (m = n)) as [->|Hne].
      * rewrite fn_lookup_insert. symmetry. by apply held_None.
      * rewrite fn_lookup_insert_ne by done. rewrite held_cons. by rewrite fn_lookup_insert_ne.
    + rewrite busy_cons. unfold one. rewrite (bool_decide_true (n ∈ ((n, b) :: h).*1)) by apply list_elem_of_here.
      destruct (decide (n ∈ j_dirty a)); [rewrite (bool_decide_true (n ∈ j_dirty a)), (bool_decide_false (n ∉ j_dirty a)) by (done || tauto); cbn [b2z]; case_z; lia|].
      rewrite (bool_decide_false (n ∈ j_dirty a)), (bool_decide_true (n ∉ j_dirty a)) by done. cbn [b2z]. case_z; lia.
Qed.

Lemma linked_set x a n b h v : linked x a → j_held a = (n, b) :: h → length v = BSIZE →
  ∃ x', cache (bset b v) x = Ok (tt, x') ∧ linked x' (j_set a n v).
Proof.
  intros HLK E Hv. destruct (linked_head x a n b h HLK E) as [Hb Hnh]. destruct x as [l s].
  destruct HLK as [H1 H2 H3 H4 H5 H6 H7 [w H]]. cbn in *. destruct (bset_ok s _ n b v H Hb Hv) as (s' & Es & I').
  exists (l, s'). split; [by apply cache_ok|]. constructor; try done. by exists w.
Qed.
Lemma linked_data x a n b h : linked x a → j_held a = (n, b) :: h → cache (bdata b) x = Ok (j_view a n, x).
Proof.
  intros HLK E. destruct (linked_head x a n b h HLK E) as [Hb _]. destruct x as [l s]. destruct HLK as [_ _ _ _ _ _ _ [w H]].
  apply cache_ok. by apply (bdata_ok s _ n b H Hb).
Qed.

#[export] Instance log_journal : Journaled (@Log.st S) := {|
  Journal.bread dev n := cache (bread dev n); Journal.bdata b := cache (bdata b); Journal.bset b v := cache (bset b v);
  Journal.log_write := Log.log_write; Journal.brelse b := cache (brelse b); jinv := linked;
  jinv_ext := linked_ext; jinv_size := linked_size; jinv_nodup := linked_nodup; jinv_clean := linked_clean; Journal.bread_ok := linked_read; Journal.bdata_ok := linked_data;
  Journal.bset_ok := linked_set; Journal.log_write_ok := linked_log; Journal.brelse_ok := linked_relse |}.
End instance.
End LogJournal.
