(* ===== verification/LogTxn.v ===== *)
(** * The log implements transactions

    The functions of kernel/log.c over any buffer cache, with at most one
    operation in progress, keep the laws of [Txn]. *)

From S2P Require Import Prelude Bytes BufCache Log LogProofs LogSpec Journal LogJournal.
Import Txn Journal BufCache Log LogProofs LogSpec LogJournal.

Module LogTxn.

Section instance.
Context {S : Type} `{BC : BufferCache S}.

(** The operation is the only one; a process that only reads is in none. *)
Definition alone (x : @Log.st S) (a : jabs) : Prop :=
  linked x a ∧ size x.1 = LOGSIZE ∧ outstanding x.1 = (if 0 <? j_cap a then 1 else 0) ∧ committing x.1 = 0.

Lemma alone_keep x x' a a' {A} (m : prog S A) r : alone x a → j_cap a' = j_cap a → cache m x = Ok (r, x') → linked x' a' → alone x' a'.
Proof. intros (_ & H1 & H2) Hc E L. destruct x as [l s], x' as [l' s']. apply keeps_cache in E. unfold alone. rewrite Hc. cbn in *. by subst. Qed.

Lemma alone_read x a n : alone x a → n ∉ (j_held a).*1 → j_room a → ∃ b x', cache (bread ROOTDEV n) x = Ok (b, x') ∧ alone x' (j_push a n b).
Proof. intros H Hn Hr. destruct (linked_read x a n (proj1 H) Hn Hr) as (b & x' & E & L). exists b, x'. split; [done|]. by eapply alone_keep. Qed.
Lemma alone_set x a n b h v : alone x a → j_held a = (n, b) :: h → length v = BSIZE → ∃ x', cache (bset b v) x = Ok (tt, x') ∧ alone x' (j_set a n v).
Proof. intros H Hb Hv. destruct (linked_set x a n b h v (proj1 H) Hb Hv) as (x' & E & L). exists x'. split; [done|]. by eapply alone_keep. Qed.
Lemma alone_relse x a n b h : alone x a → j_held a = (n, b) :: h → n ∈ j_dirty a ∨ j_view a n = j_disk a n →
  ∃ x', cache (brelse b) x = Ok (tt, x') ∧ alone x' (j_pop a).
Proof. intros H Hb Hd. destruct (linked_relse x a n b h (proj1 H) Hb Hd) as (x' & E & L). exists x'. split; [done|]. by eapply alone_keep. Qed.
Lemma alone_log x a n b h : alone x a → j_held a = (n, b) :: h → j_home a n → Z.of_nat (length (j_dirty a)) < j_cap a →
  ∃ x', Log.log_write b x = Ok (tt, x') ∧ alone x' (j_add a n).
Proof.
  intros (L & H0 & H1 & H2) Hb Hh Hc. destruct (linked_log x a n b h L Hb Hh Hc) as (x' & E & L'). exists x'. split; [done|]. split; [done|].
  destruct x as [l s], x' as [l' s']. apply log_write_inv in E as (_ & (_ & K1 & K2 & _ & K3 & _) & _); [|apply L|pose proof (txn_n _ _ (lk_txn _ _ L)); cbn in *; lia].
  cbn [fst j_cap j_add] in *. split_and!; congruence.
Qed.

#[local] Instance alone_journal : Journaled (@Log.st S).
Proof.
  refine {| Journal.bread dev n := cache (bread dev n); Journal.bdata b := cache (bdata b); Journal.bset b v := cache (bset b v);
    Journal.log_write := Log.log_write; Journal.brelse b := cache (brelse b); jinv := alone;
    Journal.bread_ok := alone_read; Journal.bset_ok := alone_set; Journal.log_write_ok := alone_log; Journal.brelse_ok := alone_relse |}.
  - intros x a v [L H] Hv. split; [by apply linked_ext|done].
  - intros x a [L _]. by apply linked_size with x.
  - intros x a [L _]. by apply linked_nodup with x.
  - intros x a n [L _]. by apply linked_clean with x.
  - intros x a n b h [L _]. by apply linked_data.
Defined.

(** [begin_op]: a process that is not admitted sleeps until another wakes it. *)
Definition begin_op : prog (@Log.st S) unit := admitted ← begin_op_try; if admitted : bool then skip else spin.

Record idle (x : @Log.st S) (v : Z → block) (L : Z → Prop) : Prop := {
  id_cfg : cfg x.1;
  id_txn : txn x.1 [];
  id_lock : lock x.1 = false;
  id_out : outstanding x.1 = 0;
  id_committing : committing x.1 = 0;
  id_size : size x.1 = LOGSIZE;
  id_log n : L n ↔ in_log x.1 n;
  id_cache : ∃ w, Quiet x.2 v v w (λ _, 0) 0 }.

Lemma begin_ok x v L : idle x v L → ∃ x', begin_op x = Ok (tt, x') ∧ alone x' (fresh_op v L).
Proof.
  destruct x as [l s]. intros [C [T1 T2 T3 T4 T5] H1 H2 H3 H4 H5 [w Q]]. cbn in *. pose proof C as [C1 C2 C3 C4 C5].
  assert (begin_op_try (l, s) = Ok (true, (set_lock false (set_outstanding 1 (set_lock true l)), s))) as E.
  { unfold begin_op_try, acquire. rewrite bind_assoc'. prog_step (glog_eq l s). rewrite H1. prog_step (mlog_eq (set_lock true) l s).
    prog_step (glog_eq (set_lock true l) s). cbn [committing lh_n outstanding set_lock]. rewrite H2, H3, T1. done. }
  exists (set_lock false (set_outstanding 1 (set_lock true l)), s). split; [unfold begin_op; by rewrite (bind_Ok _ _ _ _ _ E)|].
  split; [|by cbn]. constructor; try done; [cbn; by rewrite H4|]. exists w. exact Q.
Qed.

(** The blocks outside the log after a commit. *)
Lemma commit_home l v d xs n : cfg l → txn l xs → (∀ m, m ∉ xs → v m = d m) → ¬ in_log l n → upd d (commit_writes l v xs) n = v n.
Proof.
  intros C [T1 T2 T3 T4 T5] Hc Hn. pose proof C as [C1 C2 C3 C4 C5]. unfold commit_writes. rewrite !upd_app, !upd_one.
  assert (n ≠ start l) as Hs by (intros ->; apply Hn; unfold in_log; lia). rewrite fn_lookup_insert_ne by done. rewrite upd_self. case_decide; [done|].
  rewrite fn_lookup_insert_ne by done. rewrite upd_notin; [symmetry; by apply Hc|].
  rewrite <- (length_fmap v xs), keys_zip_seq, length_fmap. intros Hin. apply Hn. unfold in_log. lia.
Qed.

Lemma end_ok x a : alone x a → j_held a = [] → j_cap a = LOGSIZE - 1 → Z.of_nat (length (j_dirty a)) ≤ LOGSIZE - 1 →
  ∃ x' v, end_op x = Ok (tt, x') ∧ idle x' v (j_log a) ∧ ∀ n, ¬ j_log a n → v n = j_view a n.
Proof.
  destruct x as [l s]. intros (L & Hsz & Ho & Hm) Hh Hcap Hd. rewrite Hcap in Ho. cbn [Z.ltb Z.compare LOGSIZE MAXOPBLOCKS] in Ho. pose proof L as [C T H1 H2 H3 H4 H5 [w Q]]. cbn [fst snd] in *. rewrite Hh in Q.
  pose proof C as [C1 C2 C3 C4 C5].
  assert (Quiet s (j_view a) (j_disk a) w (pinsf (j_dirty a)) (Z.of_nat (length (j_dirty a)))) as Q'.
  { eapply bc_eq; [exact Q|]. constructor; cbn; try done; [|unfold busy; cbn; lia]. intros n. unfold one, pinsf.
    rewrite (bool_decide_false (n ∈ [])) by apply not_elem_of_nil. case_bool_decide; [by rewrite decide_True|by rewrite decide_False]. }
  set (l1 := set_lock false (set_committing 1 (set_outstanding 0 (set_lock true l)))).
  assert (∀ l2 s2 y, commit (l1, s) = Ok (y, (l2, s2)) → lock l2 = false → end_op (l, s) = Ok (tt, (set_lock false (set_committing 0 (set_lock true l2)), s2))) as Hend.
  { intros l2 s2 [] E H2'. unfold end_op, acquire. rewrite bind_assoc'. prog_step (glog_eq l s). rewrite H1. prog_step (mlog_eq (set_lock true) l s).
    prog_step (glog_eq (set_lock true l) s). cbn [outstanding set_lock]. rewrite Ho. prog_step (mlog_eq (set_outstanding (i32 (1 - 1))) (set_lock true l) s).
    prog_step (glog_eq (set_outstanding (i32 (1 - 1)) (set_lock true l)) s). cbn [committing outstanding set_lock set_outstanding]. rewrite Hm. cbn [Z.eqb negb].
    change (i32 (1 - 1)) with 0. cbn [Z.eqb]. prog_step (mlog_eq (set_committing 1) (set_outstanding 0 (set_lock true l)) s).
    unfold release at 1. prog_step (mlog_eq (set_lock false) (set_committing 1 (set_outstanding 0 (set_lock true l))) s). fold l1. prog_step E.
    rewrite bind_assoc'. prog_step (glog_eq l2 s2). rewrite H2'. done. }
  assert (cfg l1) as C' by by constructor. assert (txn l1 (j_dirty a)) as T' by (destruct T; by constructor).
  assert (∀ m, m ∉ j_dirty a → j_view a m = j_disk a m) as Hcl by (intros m Hm'; apply (linked_clean (l, s) a m L Hm'); rewrite Hh; apply not_elem_of_nil).
  destruct (decide (j_dirty a = [])) as [Ed|Ed].
  - assert (commit (l1, s) = Ok (tt, (l1, s))) as E.
    { unfold commit. prog_step (glog_eq l1 s). change (lh_n l1) with (lh_n l). rewrite (txn_n _ _ T), Ed. done. }
    eexists _, (j_view a). split; [by apply (Hend _ _ _ E)|]. split; [|done]. rewrite Ed in T, Q'. constructor; try done; cbn [fst snd].
    + by destruct T; constructor. + exists w. eapply Quiet_ext; [exact Q'|done| |done]. intros m. symmetry. apply Hcl. rewrite Ed. apply not_elem_of_nil.
  - assert (0 < length (j_dirty a) ≤ 29)%nat as Hl by (unfold LOGSIZE, MAXOPBLOCKS in Hd; destruct (j_dirty a); [done|]; cbn [length] in *; lia).
    destruct (commit_ok l1 s _ _ w _ C' T' Hl Q') as (s2 & v2 & E & Q2).
    eexists _, (upd (j_disk a) (commit_writes l1 (j_view a) (j_dirty a))). split; [by apply (Hend _ _ _ E)|]. split.
    + constructor; try done; cbn [fst snd].
      * constructor; try done; [constructor|cbn; lia|]. intros x Hx. by apply not_elem_of_nil in Hx.
      * eexists. eapply Quiet_ext; [exact Q2| |done|done]. intros m. by apply (bc_clean _ _ Q2).
    + intros n Hn. apply commit_home; try done. rewrite H4 in Hn. done.
Qed.

Lemma idle_alone x v L : idle x v L → alone x (reader v L).
Proof.
  intros [C T H1 H2 H3 H4 H5 [w Q]]. split; [|done]. constructor; try done; [cbn; rewrite H4; done|apply NoDup_nil_2|]. exists w. exact Q.
Qed.
Lemma alone_idle x v L : alone x (reader v L) → idle x v L.
Proof. intros ([C T H1 H2 H3 H4 H5 [w Q]] & K1 & K2 & K3). constructor; try done. exists w. exact Q. Qed.

#[export] Instance log_txn : Transactions (@Log.st S) := {|
  tx_journal := alone_journal; Txn.begin_op := begin_op; Txn.end_op := end_op; jidle := idle;
  Txn.begin_op_ok := begin_ok; Txn.end_op_ok := end_ok;
  read_idle := idle_alone; idle_read := alone_idle |}.
End instance.
End LogTxn.
