(* ===== verification/UserMem.v ===== *)
(** * The interface of virtual memory to the file system

    What [copyout] and [copyin] promise on the address space of the current
    process, whose abstract state has the byte at every accessible address. *)

From S2P Require Import Prelude.

Module UserMem.

(** User memory after the bytes [l] are stored from [va] on. *)
Fixpoint ustore (mem : Z → option Z) (va : Z) (l : list Z) : Z → option Z :=
  match l with
  | [] => mem
  | c :: l' => ustore (<[va := Some c]> mem) (va + 1) l'
  end.
Definition umapped (mem : Z → option Z) (va n : Z) : Prop := ∀ p, va ≤ p < va + n → mem p ≠ None.

Class UserMemory (M : Type) := {
  copyout : Z → list Z → prog M Z;
  copyin : Z → Z → prog M (Z * list Z);
  uinv : M → (Z → option Z) → Prop;
  uinv_ext u mem mem' : uinv u mem → (∀ p, mem p = mem' p) → uinv u mem';
  (** The copy stops at the first page that is not accessible. *)
  copyout_ok u mem va l : uinv u mem → 0 ≤ va → va + Z.of_nat (length l) ≤ 2 ^ 64 →
    ∃ r n u', copyout va l u = Ok (r, u') ∧ uinv u' (ustore mem va (take n l)) ∧ umapped mem va (Z.of_nat n) ∧
      (r = 0 ∧ n = length l ∨ r = -1 ∧ (n < length l)%nat ∧ mem (va + Z.of_nat n) = None);
  copyin_ok u mem va n : uinv u mem → 0 ≤ va → 0 ≤ n → va + n ≤ 2 ^ 64 →
    ∃ r l, copyin va n u = Ok ((r, l), u) ∧ (∀ i x, l !! i = Some x → mem (va + Z.of_nat i) = Some x) ∧
      (r = 0 ∧ Z.of_nat (length l) = n ∨ r = -1 ∧ Z.of_nat (length l) < n ∧ mem (va + Z.of_nat (length l)) = None) }.

Lemma ustore_app l1 : ∀ mem va l2, ustore mem va (l1 ++ l2) = ustore (ustore mem va l1) (va + Z.of_nat (length l1)) l2.
Proof.
  induction l1 as [|c l1 IH]; intros mem va l2; cbn [ustore app length]; [by rewrite Z.add_0_r|]. rewrite IH. f_equal. lia.
Qed.
Lemma ustore_before l : ∀ mem va p, p < va → ustore mem va l p = mem p.
Proof. induction l as [|c l IH]; intros mem va p Hp; cbn [ustore]; [done|]. rewrite IH by lia. apply fn_lookup_insert_ne. lia. Qed.
Lemma ustore_out l : ∀ mem va p, ¬ (va ≤ p < va + Z.of_nat (length l)) → ustore mem va l p = mem p.
Proof.
  induction l as [|c l IH]; intros mem va p Hp; cbn [ustore length] in *; [done|]. rewrite IH by lia. apply fn_lookup_insert_ne. lia.
Qed.
Lemma ustore_in l : ∀ mem va i x, l !! i = Some x → ustore mem va l (va + Z.of_nat i) = Some x.
Proof.
  induction l as [|c l IH]; intros mem va i x Hi; [by rewrite lookup_nil in Hi|]. destruct i as [|i]; cbn [ustore lookup list_lookup] in *.
  - injection Hi as ->. rewrite ustore_before by lia. rewrite Z.add_0_r. apply fn_lookup_insert.
  - replace (va + Z.of_nat (Datatypes.S i)) with (va + 1 + Z.of_nat i) by lia. by apply IH.
Qed.
Lemma ustore_mapped l mem va p n : umapped (ustore mem va l) p n → umapped mem va (Z.of_nat (length l)) → umapped mem p n.
Proof.
  intros H1 H2 q Hq. specialize (H1 q Hq). destruct (decide (va ≤ q < va + Z.of_nat (length l))); [by apply H2|]. by rewrite ustore_out in H1.
Qed.
End UserMem.
