(* ===== verification/Fs.v ===== *)
(** * The file system (kernel/fs.c)

    Blocks, inodes, directories and path names, over any log that keeps the laws
    of [Journal] and any user memory that keeps those of [UserMem].  The state has the superblock, the inode table, the log and the
    memory of the user process.  A sleep lock that is held makes the caller wait
    for ever, as there is one process; messages to the console are left out. *)

From S2P Require Import Prelude Bytes BufCache Journal UserMem.
Import Bytes.
Import BufCache (block, BSIZE, ROOTDEV, zero_blk).
Import Journal UserMem.

Module Fs.

Definition ROOTINO : Z := 1.
Definition NDIRECT : Z := 12.
Definition NINDIRECT : Z := 256.
Definition MAXFILE : Z := NDIRECT + NINDIRECT.
Definition FSMAGIC : Z := 270544960.
Definition IPB : Z := 16.
Definition BPB : Z := 8192.
Definition DIRSIZ : nat := 14.
Definition NINODE : Z := 50.
Definition T_DIR : Z := 1.
Definition T_FILE : Z := 2.
Definition T_DEVICE : Z := 3.
Abbreviation BS := (Z.of_nat BSIZE).

Record superblock := mkSb {
  magic : Z;
  size : Z;
  nblocks : Z;
  ninodes : Z;
  nlog : Z;
  logstart : Z;
  inodestart : Z;
  bmapstart : Z }.

(** [struct inode]; [ilocked] is its sleep lock. *)
Record inode := mkInode {
  dev : Z;
  inum : Z;
  ref : Z;
  ilocked : bool;
  valid : bool;
  type : Z;
  major : Z;
  minor : Z;
  nlink : Z;
  isize : Z;
  addrs : list Z }.

Definition set_ref v i := mkInode (dev i) (inum i) v (ilocked i) (valid i) (type i) (major i) (minor i) (nlink i) (isize i) (addrs i).
Definition set_ilocked v i := mkInode (dev i) (inum i) (ref i) v (valid i) (type i) (major i) (minor i) (nlink i) (isize i) (addrs i).
Definition set_valid v i := mkInode (dev i) (inum i) (ref i) (ilocked i) v (type i) (major i) (minor i) (nlink i) (isize i) (addrs i).
Definition set_type v i := mkInode (dev i) (inum i) (ref i) (ilocked i) (valid i) v (major i) (minor i) (nlink i) (isize i) (addrs i).
Definition set_nlink v i := mkInode (dev i) (inum i) (ref i) (ilocked i) (valid i) (type i) (major i) (minor i) v (isize i) (addrs i).
Definition set_major v i := mkInode (dev i) (inum i) (ref i) (ilocked i) (valid i) (type i) v (minor i) (nlink i) (isize i) (addrs i).
Definition set_minor v i := mkInode (dev i) (inum i) (ref i) (ilocked i) (valid i) (type i) (major i) v (nlink i) (isize i) (addrs i).
Definition set_isize v i := mkInode (dev i) (inum i) (ref i) (ilocked i) (valid i) (type i) (major i) (minor i) (nlink i) v (addrs i).
Definition set_addrs v i := mkInode (dev i) (inum i) (ref i) (ilocked i) (valid i) (type i) (major i) (minor i) (nlink i) (isize i) v.

(** [IBLOCK(i, sb)], [BBLOCK(b, sb)] *)
Definition IBLOCK (i : Z) (sb : superblock) : Z := u32 (i `div` IPB + inodestart sb).
Definition BBLOCK (b : Z) (sb : superblock) : Z := u32 (b `div` BPB + bmapstart sb).

(** The offset of the [i]-th on-disk inode in its block. *)
Definition dinode_off (i : Z) : nat := Z.to_nat (64 * (i `mod` IPB)).

(** The fields of a [struct dinode] at offset [o]. *)
Definition dip_type (d : block) (o : nat) : Z := i16 (get16 d o).
Definition dip_addr (d : block) (o j : nat) : Z := get32 d (o + 12 + 4 * j).
Fixpoint put_addrs (d : block) (o : nat) (l : list Z) : block :=
  match l with [] => d | a :: l' => put_addrs (put32 d o a) (o + 4) l' end.
Definition dinode_put (d : block) (o : nat) (i : inode) : block :=
  let d := put16 d o (type i) in
  let d := put16 d (o + 2) (major i) in
  let d := put16 d (o + 4) (minor i) in
  let d := put16 d (o + 6) (nlink i) in
  let d := put32 d (o + 8) (isize i) in
  put_addrs d (o + 12) (addrs i).
Definition dinode_get (d : block) (o : nat) (i : inode) : inode :=
  mkInode (dev i) (inum i) (ref i) (ilocked i) (valid i) (dip_type d o) (i16 (get16 d (o + 2))) (i16 (get16 d (o + 4)))
    (i16 (get16 d (o + 6))) (get32 d (o + 8)) (map (dip_addr d o) (seq 0 13)).
(** [memset(dip, 0, sizeof( *dip)); dip->type = type;] *)
Definition dinode_init (d : block) (o : nat) (t : Z) : block := put16 (take o d ++ replicate 64 0 ++ drop (o + 64) d) o t.

(** [m = 1 << (bi % 8)], the test and the updates of a bitmap. *)
Definition bit (d : block) (bi : Z) : bool := Z.testbit (default 0 (d !! Z.to_nat (bi `div` 8))) (bi `mod` 8).
Definition bit_set (d : block) (bi : Z) : block :=
  alter (λ x, Z.lor x (Z.shiftl 1 (bi `mod` 8))) (Z.to_nat (bi `div` 8)) d.
Definition bit_clear (d : block) (bi : Z) : block :=
  alter (λ x, Z.ldiff x (Z.shiftl 1 (bi `mod` 8))) (Z.to_nat (bi `div` 8)) d.

(** [strncmp(s, t, DIRSIZ)] on two arrays; a missing byte is the terminator. *)
Fixpoint strncmp (n : nat) (p q : list Z) : Z :=
  match n with
  | O => 0
  | S n' =>
      let a := hd 0 p in
      let b := hd 0 q in
      if negb (a =? 0) && (a =? b) then strncmp n' (tail p) (tail q) else a - b
  end.
Definition namecmp (s t : list Z) : Z := strncmp DIRSIZ s t.
(** [strncpy(de.name, name, DIRSIZ)] *)
Fixpoint name_pad (n : nat) (s : list Z) : list Z :=
  match n with
  | O => []
  | S n' => match s with
            | [] => replicate n 0
            | c :: s' => if c =? 0 then replicate n 0 else c :: name_pad n' s'
            end
  end.

(** ** Path elements

    A path is the list of its characters before the terminator; '/' is 47. *)

Fixpoint skip_slashes (path : list Z) : list Z :=
  match path with c :: p => if c =? 47 then skip_slashes p else path | [] => [] end.
(** The characters up to the next '/' and the rest. *)
Fixpoint element (path : list Z) : list Z * list Z :=
  match path with
  | [] => ([], [])
  | c :: p => if c =? 47 then ([], path) else let '(e, r) := element p in (c :: e, r)
  end.
(** The bytes of [name] after the copy: a long element is cut to [DIRSIZ] bytes
    without a terminator. *)
Definition store_name (name e : list Z) : list Z :=
  if (DIRSIZ <=? length e)%nat then take DIRSIZ e
  else e ++ 0 :: drop (length e + 1) name.
Definition skipelem (path name : list Z) : option (list Z * list Z) :=
  match skip_slashes path with
  | [] => None
  | p => let '(e, r) := element p in Some (skip_slashes r, store_name name e)
  end.

Section fs.
Context {S M : Type} `{JN : Journaled S} `{UM : UserMemory M}.

Record fst_ := mkFs {
  sb : superblock;
  inodes : list inode;
  itlock : bool;
  jn : S;
  um : M }.

Definition on_log {A} (m : prog S A) : prog fst_ A := λ s,
  match m (jn s) with
  | Ok (a, j) => Ok (a, mkFs (sb s) (inodes s) (itlock s) j (um s))
  | Panic e => Panic e | Fault => Fault | Spin => Spin
  end.
Definition on_user {A} (m : prog M A) : prog fst_ A := λ s,
  match m (um s) with
  | Ok (a, u) => Ok (a, mkFs (sb s) (inodes s) (itlock s) (jn s) u)
  | Panic e => Panic e | Fault => Fault | Spin => Spin
  end.
Definition get_sb : prog fst_ superblock := gets sb.
Definition get_inode (i : nat) : prog fst_ inode := λ s,
  match inodes s !! i with Some x => Ok (x, s) | None => Fault end.
Definition mod_inode (i : nat) (f : inode → inode) : prog fst_ unit := λ s,
  match inodes s !! i with
  | Some x => Ok (tt, mkFs (sb s) (<[i := f x]> (inodes s)) (itlock s) (jn s) (um s))
  | None => Fault
  end.
Definition acquire_it : prog fst_ unit := λ s,
  if itlock s then Panic "acquire" else Ok (tt, mkFs (sb s) (inodes s) true (jn s) (um s)).
Definition release_it : prog fst_ unit := λ s,
  if itlock s then Ok (tt, mkFs (sb s) (inodes s) false (jn s) (um s)) else Panic "release".
Definition acquiresleep (i : nat) : prog fst_ unit :=
  x ← get_inode i; if ilocked x then spin else mod_inode i (set_ilocked true).
Definition releasesleep (i : nat) : prog fst_ unit := mod_inode i (set_ilocked false).

(** ** Blocks *)

Definition readsb (d : Z) : prog fst_ superblock :=
  bp ← on_log (bread d 1);
  x ← on_log (bdata bp);
  on_log (brelse bp);;
  mret (mkSb (get32 x 0) (get32 x 4) (get32 x 8) (get32 x 12) (get32 x 16) (get32 x 20) (get32 x 24) (get32 x 28)).

(** [fsinit]; [initlog] is the log's. *)
Definition fsinit (initlog : Z → superblock → prog S unit) (d : Z) : prog fst_ unit :=
  x ← readsb d;
  modify (λ s, mkFs x (inodes s) (itlock s) (jn s) (um s));;
  if negb (magic x =? FSMAGIC) then panic "invalid file system"
  else on_log (initlog d x).

Definition bzero (d bno : Z) : prog fst_ unit :=
  bp ← on_log (bread d bno);
  on_log (bset bp zero_blk);;
  on_log (log_write bp);;
  on_log (brelse bp).

(** The inner loop of [balloc]: the first free bit from [bi] on. *)
Fixpoint free_bit (k : nat) (d : block) (sz b bi : Z) : option Z :=
  match k with
  | O => None
  | Datatypes.S k' =>
      if b + bi <? sz then
        if bit d bi then free_bit k' d sz b (bi + 1) else Some bi
      else None
  end.
Fixpoint balloc_loop (fuel : nat) (d b : Z) : prog fst_ Z :=
  s ← get_sb;
  if b <? size s then
    match fuel with
    | O => spin
    | Datatypes.S fuel' =>
        bp ← on_log (bread d (BBLOCK b s));
        x ← on_log (bdata bp);
        match free_bit (Z.to_nat BPB) x (size s) b 0 with
        | Some bi =>
            on_log (bset bp (bit_set x bi));;
            on_log (log_write bp);;
            on_log (brelse bp);;
            bzero d (b + bi);;
            mret (b + bi)
        | None =>
            on_log (brelse bp);;
            balloc_loop fuel' d (b + BPB)
        end
    end
  else mret 0.
(** One turn for every bitmap block. *)
Definition balloc (d : Z) : prog fst_ Z :=
  s ← get_sb; balloc_loop (Z.to_nat (size s `div` BPB) + 1) d 0.

Definition bfree (d b : Z) : prog fst_ unit :=
  s ← get_sb;
  bp ← on_log (bread d (BBLOCK b s));
  x ← on_log (bdata bp);
  let bi := b `mod` BPB in
  if negb (bit x bi) then panic "freeing free block"
  else
    on_log (bset bp (bit_clear x bi));;
    on_log (log_write bp);;
    on_log (brelse bp).

(** ** Inodes *)

Definition iinit : prog fst_ unit :=
  modify (λ s, mkFs (sb s) (map (set_ilocked false) (inodes s)) false (jn s) (um s)).

(** The loop of [iget]: an entry for the inode, or the first empty one. *)
Fixpoint iget_scan (k i : nat) (d n : Z) (l : list inode) (empty : option nat) : nat + option nat :=
  match k with
  | O => inr empty
  | Datatypes.S k' =>
      match l !! i with
      | None => inr empty
      | Some x =>
          if (0 <? ref x) && (dev x =? d) && (inum x =? n) then inl i
          else iget_scan k' (i + 1) d n l
                 (match empty with None => if ref x =? 0 then Some i else None | Some _ => empty end)
      end
  end.
Definition iget (d n : Z) : prog fst_ nat :=
  acquire_it;;
  l ← gets inodes;
  match iget_scan (Z.to_nat NINODE) 0 d n l None with
  | inl i =>
      mod_inode i (λ x, set_ref (i32 (ref x + 1)) x);;
      release_it;;
      mret i
  | inr None => panic "iget: no inodes"
  | inr (Some i) =>
      mod_inode i (λ x, mkInode d n 1 (ilocked x) false (type x) (major x) (minor x) (nlink x) (isize x) (addrs x));;
      release_it;;
      mret i
  end.

Fixpoint ialloc_loop (k : nat) (n d t : Z) : prog fst_ (option nat) :=
  match k with
  | O => mret None
  | Datatypes.S k' =>
      s ← get_sb;
      bp ← on_log (bread d (IBLOCK n s));
      x ← on_log (bdata bp);
      if dip_type x (dinode_off n) =? 0 then
        on_log (bset bp (dinode_init x (dinode_off n) t));;
        on_log (log_write bp);;
        on_log (brelse bp);;
        i ← iget d n;
        mret (Some i)
      else
        on_log (brelse bp);;
        ialloc_loop k' (n + 1) d t
  end.
Definition ialloc (d t : Z) : prog fst_ (option nat) :=
  s ← get_sb; ialloc_loop (Z.to_nat (ninodes s - 1)) 1 d t.

Definition iupdate (i : nat) : prog fst_ unit :=
  x ← get_inode i;
  s ← get_sb;
  bp ← on_log (bread (dev x) (IBLOCK (inum x) s));
  d ← on_log (bdata bp);
  on_log (bset bp (dinode_put d (dinode_off (inum x)) x));;
  on_log (log_write bp);;
  on_log (brelse bp).

Definition idup (i : nat) : prog fst_ nat :=
  acquire_it;;
  mod_inode i (λ x, set_ref (i32 (ref x + 1)) x);;
  release_it;;
  mret i.

Definition ilock (ip : option nat) : prog fst_ unit :=
  match ip with
  | None => panic "ilock"
  | Some i =>
      x ← get_inode i;
      if ref x <? 1 then panic "ilock"
      else
        acquiresleep i;;
        if valid x then skip
        else
          s ← get_sb;
          bp ← on_log (bread (dev x) (IBLOCK (inum x) s));
          d ← on_log (bdata bp);
          mod_inode i (dinode_get d (dinode_off (inum x)));;
          on_log (brelse bp);;
          mod_inode i (set_valid true);;
          y ← get_inode i;
          if type y =? 0 then panic "ilock: no type" else skip
  end.

Definition iunlock (ip : option nat) : prog fst_ unit :=
  match ip with
  | None => panic "iunlock"
  | Some i =>
      x ← get_inode i;
      if negb (ilocked x) || (ref x <? 1) then panic "iunlock"
      else releasesleep i
  end.

(** [ip->addrs[j]] *)
Definition get_addr (i : nat) (j : Z) : prog fst_ Z :=
  x ← get_inode i;
  match addrs x !! Z.to_nat j with Some a => mret a | None => fault end.
Definition put_addr (i : nat) (j v : Z) : prog fst_ unit :=
  mod_inode i (λ x, set_addrs (<[Z.to_nat j := v]> (addrs x)) x).

Definition bmap (i : nat) (bn : Z) : prog fst_ Z :=
  x ← get_inode i;
  if bn <? NDIRECT then
    a ← get_addr i bn;
    if a =? 0 then
      a ← balloc (dev x);
      if a =? 0 then mret 0
      else put_addr i bn a;; mret a
    else mret a
  else
    let bn := bn - NDIRECT in
    if bn <? NINDIRECT then
      a ← get_addr i NDIRECT;
      a ← (if a =? 0 then
             a ← balloc (dev x);
             if a =? 0 then mret 0
             else put_addr i NDIRECT a;; mret a
           else mret a);
      if a =? 0 then mret 0
      else
        bp ← on_log (bread (dev x) a);
        d ← on_log (bdata bp);
        let v := get32 d (Z.to_nat (4 * bn)) in
        v ← (if v =? 0 then
               v ← balloc (dev x);
               (if negb (v =? 0) then
                  d ← on_log (bdata bp);
                  on_log (bset bp (put32 d (Z.to_nat (4 * bn)) v));;
                  on_log (log_write bp)
                else skip);;
               mret v
             else mret v);
        on_log (brelse bp);;
        mret v
    else panic "bmap: out of range".

(** The two loops of [itrunc]. *)
Fixpoint trunc_direct (k : nat) (j : Z) (i : nat) : prog fst_ unit :=
  match k with
  | O => skip
  | Datatypes.S k' =>
      x ← get_inode i;
      a ← get_addr i j;
      (if negb (a =? 0) then bfree (dev x) a;; put_addr i j 0 else skip);;
      trunc_direct k' (j + 1) i
  end.
Fixpoint trunc_indirect (k : nat) (j d : Z) (a : block) : prog fst_ unit :=
  match k with
  | O => skip
  | Datatypes.S k' =>
      let v := get32 a (Z.to_nat (4 * j)) in
      (if negb (v =? 0) then bfree d v else skip);;
      trunc_indirect k' (j + 1) d a
  end.
Definition itrunc (i : nat) : prog fst_ unit :=
  trunc_direct (Z.to_nat NDIRECT) 0 i;;
  x ← get_inode i;
  a ← get_addr i NDIRECT;
  (if negb (a =? 0) then
     bp ← on_log (bread (dev x) a);
     d ← on_log (bdata bp);
     trunc_indirect (Z.to_nat NINDIRECT) 0 (dev x) d;;
     on_log (brelse bp);;
     bfree (dev x) a;;
     put_addr i NDIRECT 0
   else skip);;
  mod_inode i (set_isize 0);;
  iupdate i.

Definition iput (i : nat) : prog fst_ unit :=
  acquire_it;;
  x ← get_inode i;
  (if (ref x =? 1) && valid x && (nlink x =? 0) then
     acquiresleep i;;
     release_it;;
     itrunc i;;
     mod_inode i (set_type 0);;
     iupdate i;;
     mod_inode i (set_valid false);;
     releasesleep i;;
     acquire_it
   else skip);;
  mod_inode i (λ x, set_ref (i32 (ref x - 1)) x);;
  release_it.

Definition iunlockput (ip : option nat) : prog fst_ unit :=
  iunlock ip;;
  match ip with Some i => iput i | None => fault end.

(** ** Contents *)

Record stat := mkStat { st_dev : Z; st_ino : Z; st_type : Z; st_nlink : Z; st_size : Z }.
Definition stati (i : nat) : prog fst_ stat :=
  x ← get_inode i; mret (mkStat (i32 (dev x)) (inum x) (type x) (nlink x) (isize x)).

(** The destination of [readi] and the source of [writei]: an address of the
    user, or a buffer of the kernel, whose bytes are returned or given. *)
Inductive place := User (va : Z) | Kernel (l : list Z).

Fixpoint readi_loop (fuel : nat) (i : nat) (dst : place) (off n tot : Z) : prog fst_ (Z * place) :=
  if tot <? n then
    match fuel with
    | O => spin
    | Datatypes.S fuel' =>
        x ← get_inode i;
        a ← bmap i (off `div` BS);
        if a =? 0 then mret (tot, dst)
        else
          bp ← on_log (bread (dev x) a);
          d ← on_log (bdata bp);
          let m := Z.min (n - tot) (BS - off `mod` BS) in
          let l := take (Z.to_nat m) (drop (Z.to_nat (off `mod` BS)) d) in
          r ← (match dst with
               | User va => r ← on_user (copyout va l); mret (r, User (u64 (va + m)))
               | Kernel k => mret (0, Kernel (k ++ l))
               end);
          on_log (brelse bp);;
          if fst r =? -1 then mret (-1, snd r)
          else readi_loop fuel' i (snd r) (u32 (off + m)) n (u32 (tot + m))
    end
  else mret (tot, dst).
(** The result is an [int]; each turn moves at least one byte. *)
Definition readi (i : nat) (dst : place) (off n : Z) : prog fst_ (Z * place) :=
  x ← get_inode i;
  if (isize x <? off) || (u32 (off + n) <? off) then mret (0, dst)
  else
    let n := if isize x <? u32 (off + n) then isize x - off else n in
    r ← readi_loop (Z.to_nat n) i dst off n 0;
    mret (i32 (fst r), snd r).

Fixpoint writei_loop (fuel : nat) (i : nat) (src : place) (off n tot : Z) : prog fst_ (Z * Z) :=
  if tot <? n then
    match fuel with
    | O => spin
    | Datatypes.S fuel' =>
        x ← get_inode i;
        a ← bmap i (off `div` BS);
        if a =? 0 then mret (tot, off)
        else
          bp ← on_log (bread (dev x) a);
          d ← on_log (bdata bp);
          let m := Z.min (n - tot) (BS - off `mod` BS) in
          let o := Z.to_nat (off `mod` BS) in
          r ← (match src with
               | User va => r ← on_user (copyin va m); mret (r, User (u64 (va + m)))
               | Kernel k => mret ((0, take (Z.to_nat m) k), Kernel (drop (Z.to_nat m) k))
               end);
          on_log (bset bp (take o d ++ snd (fst r) ++ drop (o + length (snd (fst r))) d));;
          if fst (fst r) =? -1 then
            on_log (brelse bp);;
            mret (tot, off)
          else
            on_log (log_write bp);;
            on_log (brelse bp);;
            writei_loop fuel' i (snd r) (u32 (off + m)) n (u32 (tot + m))
    end
  else mret (tot, off).
Definition writei (i : nat) (src : place) (off n : Z) : prog fst_ Z :=
  x ← get_inode i;
  if (isize x <? off) || (u32 (off + n) <? off) then mret (-1)
  else if MAXFILE * BS <? u32 (off + n) then mret (-1)
  else
    r ← writei_loop (Z.to_nat n) i src off n 0;
    x ← get_inode i;
    (if isize x <? snd r then mod_inode i (set_isize (snd r)) else skip);;
    iupdate i;;
    mret (i32 (fst r)).

(** ** Directories *)

(** [struct dirent]: the inode number and 14 bytes of name. *)
Definition de_inum (e : list Z) : Z := get16 e 0.
Definition de_name (e : list Z) : list Z := drop 2 e.
Definition dirent_of (n : Z) (name : list Z) : list Z := le_enc 2 n ++ name.

(** The result of [dirlookup] and the offset stored at [poff]. *)
Fixpoint dirlookup_loop (fuel : nat) (dp : nat) (name : list Z) (off : Z) : prog fst_ (option (nat * Z)) :=
  x ← get_inode dp;
  if off <? isize x then
    match fuel with
    | O => spin
    | Datatypes.S fuel' =>
        r ← readi dp (Kernel []) off 16;
        match r with
        | (n, Kernel de) =>
            if negb (n =? 16) then panic "dirlookup read"
            else if de_inum de =? 0 then dirlookup_loop fuel' dp name (u32 (off + 16))
            else if namecmp name (de_name de) =? 0 then
              i ← iget (dev x) (de_inum de);
              mret (Some (i, off))
            else dirlookup_loop fuel' dp name (u32 (off + 16))
        | _ => fault
        end
    end
  else mret None.
Definition dirlookup (dp : nat) (name : list Z) : prog fst_ (option (nat * Z)) :=
  x ← get_inode dp;
  if negb (type x =? T_DIR) then panic "dirlookup not DIR"
  else dirlookup_loop (Z.to_nat (isize x `div` 16 + 1)) dp name 0.

(** The search of [dirlink] for an empty entry. *)
Fixpoint dirlink_loop (fuel : nat) (dp : nat) (off : Z) : prog fst_ Z :=
  x ← get_inode dp;
  if off <? isize x then
    match fuel with
    | O => spin
    | Datatypes.S fuel' =>
        r ← readi dp (Kernel []) off 16;
        match r with
        | (n, Kernel de) =>
            if negb (n =? 16) then panic "dirlink read"
            else if de_inum de =? 0 then mret off
            else dirlink_loop fuel' dp (u32 (off + 16))
        | _ => fault
        end
    end
  else mret off.
Definition dirlink (dp : nat) (name : list Z) (n : Z) : prog fst_ Z :=
  r ← dirlookup dp name;
  match r with
  | Some (i, _) =>
      iput i;;
      mret (-1)
  | None =>
      x ← get_inode dp;
      off ← dirlink_loop (Z.to_nat (isize x `div` 16 + 1)) dp 0;
      r ← writei dp (Kernel (dirent_of (u16 n) (name_pad DIRSIZ name))) off 16;
      if negb (r =? 16) then mret (-1) else mret 0
  end.

(** ** Path names *)

(** [namex] without its first step: the walk from the inode [ip]. *)
Fixpoint namex_loop (fuel : nat) (ip : nat) (nameiparent : bool) (path name : list Z) : prog fst_ (option nat * list Z) :=
  match fuel with
  | O => spin
  | Datatypes.S fuel' =>
      match skipelem path name with
      | None =>
          if nameiparent then
            iput ip;;
            mret (None, name)
          else mret (Some ip, name)
      | Some (path, name) =>
          ilock (Some ip);;
          x ← get_inode ip;
          if negb (type x =? T_DIR) then
            iunlockput (Some ip);;
            mret (None, name)
          else if nameiparent && bool_decide (path = []) then
            iunlock (Some ip);;
            mret (Some ip, name)
          else
            r ← dirlookup ip name;
            match r with
            | None =>
                iunlockput (Some ip);;
                mret (None, name)
            | Some (next, _) =>
                iunlockput (Some ip);;
                namex_loop fuel' next nameiparent path name
            end
      end
  end.
(** [cwd] is the current directory of the process.  Each turn consumes at least
    one character of the path. *)
Definition namex (cwd : nat) (path : list Z) (nameiparent : bool) (name : list Z) : prog fst_ (option nat * list Z) :=
  ip ← (if hd 0 path =? 47 then iget ROOTDEV ROOTINO else idup cwd);
  namex_loop (Datatypes.S (length path)) ip nameiparent path name.
Definition namei (cwd : nat) (path : list Z) : prog fst_ (option nat) :=
  r ← namex cwd path false (replicate DIRSIZ 0); mret (fst r).
Definition nameiparent (cwd : nat) (path name : list Z) : prog fst_ (option nat * list Z) :=
  namex cwd path true name.
End fs.
End Fs.
