(* ===== verification/FsBlocks.v ===== *)
(** * The block allocator of the file system

    [balloc] and [bfree] as operations on the set of blocks that the bitmap
    marks as used. *)

From S2P Require Import Prelude Bytes BufCache Journal Fs.
Import Bytes Journal Fs.
Import BufCache (block, BSIZE, ROOTDEV, zero_blk, NBUF).

Module FsBlocks.

(** ** Bits *)

Lemma bit_set_length d bi : length (bit_set d bi) = length d.
Proof. apply length_alter. Qed.
Lemma bit_clear_length d bi : length (bit_clear d bi) = length d.
Proof. apply length_alter. Qed.

Lemma bit_pos bi bj : 0 ≤ bi → 0 ≤ bj → bi `div` 8 = bj `div` 8 → bi `mod` 8 = bj `mod` 8 → bi = bj.
Proof. intros. rewrite (Z.div_mod bi 8), (Z.div_mod bj 8) by lia. lia. Qed.

Lemma bit_set_spec d bi bj : 0 ≤ bi → 0 ≤ bj → (Z.to_nat (bi `div` 8) < length d)%nat →
  bit (bit_set d bi) bj = bool_decide (bj = bi) || bit d bj.
Proof.
  intros Hi Hj Hl. unfold bit, bit_set. pose proof (Z.mod_pos_bound bi 8). pose proof (Z.mod_pos_bound bj 8).
  destruct (decide (bj `div` 8 = bi `div` 8)) as [E|Hne].
  - rewrite E, list_lookup_alter_eq. destruct (lookup_lt_is_Some_2 d _ Hl) as [x Hx]. rewrite Hx. cbn.
    rewrite Z.lor_spec, Z.shiftl_spec by lia. destruct (decide (bj = bi)) as [->|Hb].
    + rewrite Z.sub_diag, bool_decide_true by done. cbn. apply orb_true_r.
    + rewrite bool_decide_false by done. cbn. assert (bj `mod` 8 ≠ bi `mod` 8) by (intros Em; by apply Hb, bit_pos).
      destruct (Z.ltb_spec (bj `mod` 8) (bi `mod` 8)).
      * rewrite (Z.testbit_neg_r 1) by lia. apply orb_false_r.
      * rewrite (Z.bits_above_log2 1) by (cbn; lia). apply orb_false_r.
  - rewrite list_lookup_alter_ne by (pose proof (Z.div_pos bi 8); pose proof (Z.div_pos bj 8); lia).
    rewrite bool_decide_false by congruence. done.
Qed.
Lemma bit_clear_spec d bi bj : 0 ≤ bi → 0 ≤ bj → (Z.to_nat (bi `div` 8) < length d)%nat →
  bit (bit_clear d bi) bj = negb (bool_decide (bj = bi)) && bit d bj.
Proof.
  intros Hi Hj Hl. unfold bit, bit_clear. pose proof (Z.mod_pos_bound bi 8). pose proof (Z.mod_pos_bound bj 8).
  destruct (decide (bj `div` 8 = bi `div` 8)) as [E|Hne].
  - rewrite E, list_lookup_alter_eq. destruct (lookup_lt_is_Some_2 d _ Hl) as [x Hx]. rewrite Hx. cbn.
    rewrite Z.ldiff_spec, Z.shiftl_spec by lia. destruct (decide (bj = bi)) as [->|Hb].
    + rewrite Z.sub_diag, bool_decide_true by done. cbn. apply andb_false_r.
    + rewrite bool_decide_false by done. cbn. assert (bj `mod` 8 ≠ bi `mod` 8) by (intros Em; by apply Hb, bit_pos).
      destruct (Z.ltb_spec (bj `mod` 8) (bi `mod` 8)).
      * rewrite (Z.testbit_neg_r 1) by lia. apply andb_true_r.
      * rewrite (Z.bits_above_log2 1) by (cbn; lia). apply andb_true_r.
  - rewrite list_lookup_alter_ne by (pose proof (Z.div_pos bi 8); pose proof (Z.div_pos bj 8); lia).
    rewrite bool_decide_false by congruence. done.
Qed.

(** The scan of a bitmap block finds the first free bit. *)
Lemma free_bit_ok d sz b k : ∀ bi, 
  match free_bit k d sz b bi with
  | Some r => bi ≤ r < bi + Z.of_nat k ∧ b + r < sz ∧ bit d r = false ∧ ∀ j, bi ≤ j < r → bit d j = true
  | None => ∀ j, bi ≤ j < bi + Z.of_nat k → b + j < sz → bit d j = true
  end.
Proof.
  induction k as [|k IH]; intros bi; cbn [free_bit]; [lia|]. destruct (Z.ltb_spec (b + bi) sz); [|lia].
  destruct (bit d bi) eqn:E; [|split_and!; [lia..|done|lia]]. specialize (IH (bi + 1)). destruct (free_bit k d sz b (bi + 1)) as [r|].
  - destruct IH as (H1 & H2 & H3 & H4). split_and!; [lia|lia|lia|done|]. intros j Hj. destruct (decide (j = bi)) as [->|]; [done|]. apply H4. lia.
  - intros j Hj Hs. destruct (decide (j = bi)) as [->|]; [done|]. apply IH; lia.
Qed.

Lemma pop_push a n b : j_pop (j_push a n b) = a.
Proof. by destruct a. Qed.

(** ** The bitmap *)

(** Block [b] is marked as used. *)
Definition used_blk (sb : superblock) (v : Z → block) (b : Z) : bool := bit (v (BBLOCK b sb)) (b `mod` BPB).

(** The bitmap and the free blocks are blocks the log can hold; the bitmap is
    not in its own free blocks. *)
Record layout (sb : superblock) (a : jabs) : Prop := {
  ly_size : 0 < size sb < 2 ^ 31;
  ly_start : 0 ≤ bmapstart sb;
  ly_end : bmapstart sb + size sb `div` BPB < 2 ^ 31;
  ly_bmap b : 0 ≤ b < size sb → ¬ j_log a (BBLOCK b sb);
  ly_free b : 0 ≤ b < size sb → used_blk sb (j_view a) b = false → ¬ j_log a b ∧ ∀ c, 0 ≤ c < size sb → b ≠ BBLOCK c sb }.

Lemma BBLOCK_eq sb a b : layout sb a → 0 ≤ b < size sb → BBLOCK b sb = b `div` BPB + bmapstart sb.
Proof.
  intros [] Hb. unfold BBLOCK. rewrite u32_small; [done|]. pose proof (Z.div_pos b BPB). pose proof (Z.div_le_mono b (size sb) BPB). unfold BPB in *. lia.
Qed.
Lemma BBLOCK_home sb a b : layout sb a → 0 ≤ b < size sb → j_home a (BBLOCK b sb).
Proof.
  intros L Hb. split; [|by apply (ly_bmap _ _ L)]. rewrite (BBLOCK_eq sb a) by done. destruct L.
  pose proof (Z.div_pos b BPB). pose proof (Z.div_le_mono b (size sb) BPB). unfold BPB in *. lia.
Qed.
(** The block and the offset of a bit determine it. *)
Lemma BBLOCK_inj sb a b c : layout sb a → 0 ≤ b < size sb → 0 ≤ c < size sb → BBLOCK b sb = BBLOCK c sb → b `mod` BPB = c `mod` BPB → b = c.
Proof.
  intros L Hb Hc E Em. rewrite !(BBLOCK_eq sb a) in E by done. rewrite (Z.div_mod b BPB), (Z.div_mod c BPB) by done. lia.
Qed.
Lemma mod_byte b : (Z.to_nat (b `mod` BPB `div` 8) < BSIZE)%nat.
Proof.
  pose proof (Z.mod_pos_bound b BPB). assert (b `mod` BPB `div` 8 < 1024) by (apply Z.div_lt_upper_bound; unfold BPB in *; lia).
  pose proof (Z.div_pos (b `mod` BPB) 8). unfold BSIZE, BPB in *. lia.
Qed.

(** The blocks after [b] is marked, or unmarked. *)
Definition mark (sb : superblock) (v : Z → block) (b : Z) : Z → block := <[BBLOCK b sb := bit_set (v (BBLOCK b sb)) (b `mod` BPB)]> v.
Definition unmark (sb : superblock) (v : Z → block) (b : Z) : Z → block := <[BBLOCK b sb := bit_clear (v (BBLOCK b sb)) (b `mod` BPB)]> v.
Lemma used_mark sb a b c : layout sb a → (∀ n, length (j_view a n) = BSIZE) → 0 ≤ b < size sb → 0 ≤ c < size sb →
  used_blk sb (mark sb (j_view a) b) c = bool_decide (c = b) || used_blk sb (j_view a) c.
Proof.
  intros L HS Hb Hc. unfold used_blk, mark. destruct (decide (BBLOCK c sb = BBLOCK b sb)) as [E|Hne].
  - rewrite E, fn_lookup_insert. rewrite bit_set_spec; [|apply Z.mod_pos_bound; done..|rewrite HS; apply mod_byte].
    f_equal. apply bool_decide_ext. split; [|congruence]. intros Em. by apply (BBLOCK_inj sb a).
  - rewrite fn_lookup_insert_ne by done. rewrite bool_decide_false by congruence. done.
Qed.
Lemma used_unmark sb a b c : layout sb a → (∀ n, length (j_view a n) = BSIZE) → 0 ≤ b < size sb → 0 ≤ c < size sb →
  used_blk sb (unmark sb (j_view a) b) c = negb (bool_decide (c = b)) && used_blk sb (j_view a) c.
Proof.
  intros L HS Hb Hc. unfold used_blk, unmark. destruct (decide (BBLOCK c sb = BBLOCK b sb)) as [E|Hne].
  - rewrite E, fn_lookup_insert. rewrite bit_clear_spec; [|apply Z.mod_pos_bound; done..|rewrite HS; apply mod_byte].
    do 2 f_equal. apply bool_decide_ext. split; [|congruence]. intros Em. by apply (BBLOCK_inj sb a).
  - rewrite fn_lookup_insert_ne by done. rewrite bool_decide_false by congruence. done.
Qed.

(** ** Space in the transaction

    [R] has the blocks that count as logged from the start, the bitmap among
    them; then an allocation needs room for the new block only. *)

Definition logged (a : jabs) : gset Z := list_to_set (j_dirty a).
Definition charge (R : gset Z) (a : jabs) : Z := Z.of_nat (base.size (logged a ∪ R)).
(** Room for [n] more blocks, and for the buffers they need. *)
Record room (sb : superblock) (R : gset Z) (a : jabs) (n : Z) : Prop := {
  rm_bitmap c : 0 ≤ c < size sb → BBLOCK c sb ∈ R;
  rm_cap : charge R a + n ≤ j_cap a;
  rm_buf : charge R a + Z.of_nat (length (j_held a)) + n < NBUF }.

Lemma charge_ge R a : NoDup (j_dirty a) → Z.of_nat (length (j_dirty a)) ≤ charge R a.
Proof. intros H. unfold charge, logged. rewrite <- (size_list_to_set (C := gset Z) (j_dirty a)) by done. apply inj_le, subseteq_size. set_solver. Qed.
Lemma charge_mono R a a' N : logged a' ⊆ logged a ∪ N → charge R a' ≤ charge (R ∪ N) a.
Proof. intros H. unfold charge. apply inj_le, subseteq_size. set_solver. Qed.
Lemma size_union_le (X Y : gset Z) : (base.size (X ∪ Y) ≤ base.size X + base.size Y)%nat.
Proof. rewrite size_union_alt. pose proof (subseteq_size (Y ∖ X) Y ltac:(set_solver)). lia. Qed.
Lemma charge_split R N a : charge (R ∪ N) a ≤ charge R a + Z.of_nat (base.size N).
Proof.
  unfold charge. assert (logged a ∪ (R ∪ N) = (logged a ∪ R) ∪ N) as -> by set_solver.
  pose proof (size_union_le (logged a ∪ R) N). lia.
Qed.
(** Blocks that are in [R] are not counted again. *)
Lemma charge_in R a a' N n : logged a' ⊆ logged a ∪ R ∪ N → Z.of_nat (base.size N) ≤ n → charge R a' ≤ charge R a + n.
Proof.
  intros H Hn. pose proof (charge_split R N a). pose proof (charge_mono R a a' (R ∪ N) ltac:(set_solver)).
  assert (R ∪ (R ∪ N) = R ∪ N) as E by set_solver. rewrite E in *. lia.
Qed.

Section blocks.
Context {S M : Type} `{JN : Journaled S}.
#[local] Abbreviation fst_ := (@fst_ S M).

Definition with_jn (j : S) (s : fst_) : fst_ := mkFs (sb s) (inodes s) (itlock s) j (um s).
Lemma on_log_ok {A} (m : prog S A) (s : fst_) x j : m (jn s) = Ok (x, j) → on_log m s = Ok (x, with_jn j s).
Proof. intros H. unfold on_log. by rewrite H. Qed.

(** The journal [a'] is [a] with other contents and the blocks [N] logged. *)
Record wrote (a a' : jabs) (v : Z → block) (N : gset Z) : Prop := {
  wr_view m : j_view a' m = v m;
  wr_held : j_held a' = j_held a;
  wr_cap : j_cap a' = j_cap a;
  wr_log : j_log a' = j_log a;
  wr_disk : j_disk a' = j_disk a;
  wr_logged : logged a' = logged a ∪ N }.

Lemma wrote_trans a b c v w N K : wrote a b v N → wrote b c w K → wrote a c w (N ∪ K).
Proof. intros [] []. constructor; [done|congruence..|]. rewrite wr_logged1, wr_logged0. set_solver. Qed.
Lemma logged_add a n : logged (j_add a n) = logged a ∪ {[n]}.
Proof. unfold logged, j_add. cbn. case_bool_decide; set_solver. Qed.
Lemma dirty_add a n : n ∈ j_dirty (j_add a n).
Proof. cbn. case_bool_decide; [done|]. apply elem_of_app. right. apply list_elem_of_here. Qed.

Lemma room_bread sb R a n : room sb R a n → NoDup (j_dirty a) → 0 ≤ n → j_room a.
Proof. intros [_ H1 H2] Hnd Hn. pose proof (charge_ge R a Hnd). unfold j_room. lia. Qed.
(** One block can be read and logged. *)
Definition slot (a : jabs) : Prop := j_room a ∧ Z.of_nat (length (j_dirty a)) < j_cap a.
Lemma room_slot sb R a n : room sb R a n → NoDup (j_dirty a) → 0 < n → slot a.
Proof. intros H Hnd Hn. split; [eapply room_bread; [done|done|lia]|]. destruct H as [_ H1 H2]. pose proof (charge_ge R a Hnd). lia. Qed.
(** The room that is left when the blocks [N] are logged. *)
Lemma room_logged sb R a a' n m N : room sb R a n → logged a' ⊆ logged a ∪ R ∪ N → Z.of_nat (base.size N) ≤ n - m →
  j_cap a' = j_cap a → j_held a' = j_held a → room sb R a' m.
Proof. intros [H0 H1 H2] Hl Hn Hc Hh. pose proof (charge_in R a a' N _ Hl Hn). constructor; [done|rewrite Hc; lia|rewrite Hh; lia]. Qed.
Lemma room_mono sb R a n m : room sb R a n → m ≤ n → room sb R a m.
Proof. intros [] H. constructor; [done|lia..]. Qed.

(** Read a block, change it by [f], log it and release it. *)
Lemma update_block (j0 : S) a n (f : block → block) : jinv j0 a →
  n ∉ (j_held a).*1 → slot a → j_home a n → length (f (j_view a n)) = BSIZE →
  ∃ j a', jinv j a' ∧ wrote a a' (<[n := f (j_view a n)]> (j_view a)) {[n]} ∧
    ∀ A (s : fst_) (g : block → prog fst_ A), jn s = j0 →
      (bp ← on_log (bread ROOTDEV n); x ← on_log (bdata bp);
       on_log (bset bp (f x));; on_log (log_write bp);; on_log (brelse bp);; g x) s = g (j_view a n) (with_jn j s).
Proof.
  intros I Hn [Hr Hc] Hh Hl. destruct (bread_ok j0 a n I Hn Hr) as (b & j1 & E1 & I1).
  pose proof (bdata_ok j1 _ n b (j_held a) I1 eq_refl) as E2. cbn in E2.
  destruct (bset_ok j1 _ n b (j_held a) (f (j_view a n)) I1 eq_refl Hl) as (j3 & E3 & I3).
  destruct (log_write_ok j3 _ n b (j_held a) I3 eq_refl Hh) as (j4 & E4 & I4); [done|].
  destruct (brelse_ok j4 _ n b (j_held a) I4 eq_refl (or_introl (dirty_add _ n))) as (j5 & E5 & I5).
  exists j5, (j_pop (j_add (j_set (j_push a n b) n (f (j_view a n))) n)). split; [done|]. split.
  - constructor; try done. exact (logged_add a n).
  - intros A s g <-. rewrite (bind_Ok _ _ _ _ _ (on_log_ok _ s b j1 E1)), (bind_Ok _ _ _ _ _ (on_log_ok _ (with_jn j1 s) _ j1 E2)).
    rewrite (bind_Ok _ _ _ _ _ (on_log_ok _ (with_jn j1 s) _ j3 E3)), (bind_Ok _ _ _ _ _ (on_log_ok _ (with_jn j3 s) _ j4 E4)).
    by rewrite (bind_Ok _ _ _ _ _ (on_log_ok _ (with_jn j4 s) _ j5 E5)).
Qed.
(** Read a block and release it. *)
Lemma peek_block {A} (s : fst_) a n (g : block → prog fst_ A) : jinv (jn s) a → n ∉ (j_held a).*1 → j_room a →
  ∃ j, jinv j a ∧
    (bp ← on_log (bread ROOTDEV n); x ← on_log (bdata bp); on_log (brelse bp);; g x) s = g (j_view a n) (with_jn j s).
Proof.
  intros I Hn Hr. destruct (bread_ok (jn s) a n I Hn Hr) as (b & j1 & E1 & I1).
  pose proof (bdata_ok j1 _ n b (j_held a) I1 eq_refl) as E2. cbn in E2.
  destruct (brelse_ok j1 _ n b (j_held a) I1 eq_refl) as (j5 & E5 & I5).
  { cbn. destruct (decide (n ∈ j_dirty a)); [by left|]. right. by eapply jinv_clean. }
  exists j5. split; [by rewrite pop_push in I5|].
  rewrite (bind_Ok _ _ _ _ _ (on_log_ok _ s b j1 E1)), (bind_Ok _ _ _ _ _ (on_log_ok _ (with_jn j1 s) _ j1 E2)).
  by rewrite (bind_Ok _ _ _ _ _ (on_log_ok _ (with_jn j1 s) _ j5 E5)).
Qed.

(** What is done with a block that has been read depends on its contents only. *)
Lemma read_cong {A} (s : fst_) a n (f g : nat → block → prog fst_ A) : jinv (jn s) a → n ∉ (j_held a).*1 → j_room a →
  (∀ bp j, f bp (j_view a n) (with_jn j s) = g bp (j_view a n) (with_jn j s)) →
  (bp ← on_log (bread ROOTDEV n); x ← on_log (bdata bp); f bp x) s = (bp ← on_log (bread ROOTDEV n); x ← on_log (bdata bp); g bp x) s.
Proof.
  intros I Hn Hr H. destruct (bread_ok (jn s) a n I Hn Hr) as (b & j1 & E1 & I1).
  pose proof (bdata_ok j1 _ n b (j_held a) I1 eq_refl) as E2. cbn in E2.
  rewrite !(bind_Ok _ _ _ _ _ (on_log_ok _ s b j1 E1)), !(bind_Ok _ _ _ _ _ (on_log_ok _ (with_jn j1 s) _ j1 E2)). apply H.
Qed.

Lemma bzero_ok (s : fst_) a n : jinv (jn s) a → n ∉ (j_held a).*1 → slot a → j_home a n →
  ∃ j a', jinv j a' ∧ wrote a a' (<[n := zero_blk]> (j_view a)) {[n]} ∧ bzero ROOTDEV n s = Ok (tt, with_jn j s).
Proof.
  intros I Hn [Hr Hc] Hh. unfold bzero. destruct (bread_ok (jn s) a n I Hn Hr) as (b & j1 & E1 & I1).
  destruct (bset_ok j1 _ n b (j_held a) zero_blk I1 eq_refl eq_refl) as (j3 & E3 & I3).
  destruct (log_write_ok j3 _ n b (j_held a) I3 eq_refl Hh) as (j4 & E4 & I4); [done|].
  destruct (brelse_ok j4 _ n b (j_held a) I4 eq_refl (or_introl (dirty_add _ n))) as (j5 & E5 & I5).
  exists j5, (j_pop (j_add (j_set (j_push a n b) n zero_blk) n)). split; [done|]. split.
  - constructor; try done. exact (logged_add a n).
  - rewrite (bind_Ok _ _ _ _ _ (on_log_ok _ s b j1 E1)), (bind_Ok _ _ _ _ _ (on_log_ok _ (with_jn j1 s) _ j3 E3)).
    rewrite (bind_Ok _ _ _ _ _ (on_log_ok _ (with_jn j3 s) _ j4 E4)). exact (on_log_ok _ (with_jn j4 s) _ j5 E5).
Qed.

(** No buffer of the bitmap is held; nor is one of a free block. *)
Definition clear_of (sb : superblock) (a : jabs) : Prop := ∀ c, 0 ≤ c < size sb → BBLOCK c sb ∉ (j_held a).*1.
Definition apart (sb : superblock) (a : jabs) : Prop :=
  clear_of sb a ∧
  (∀ c, 0 ≤ c < size sb → used_blk sb (j_view a) c = false → c ∉ (j_held a).*1).

(** A turn of [balloc] that finds the free bit [bi] of the block of [b]. *)
Lemma balloc_take (s : fst_) R a b bi : jinv (jn s) a → layout (sb s) a → apart (sb s) a → room (sb s) R a 1 →
  let r := b + bi in 0 ≤ r < size (sb s) → BBLOCK b (sb s) = BBLOCK r (sb s) → bi = r `mod` BPB → used_blk (sb s) (j_view a) r = false →
  ∃ j a', jinv j a' ∧ wrote a a' (<[r := zero_blk]> (mark (sb s) (j_view a) r)) {[BBLOCK r (sb s); r]} ∧
    (bp ← on_log (bread ROOTDEV (BBLOCK b (sb s))); x ← on_log (bdata bp);
     on_log (bset bp (bit_set x bi));; on_log (log_write bp);; on_log (brelse bp);; bzero ROOTDEV r;; mret r) s = Ok (r, with_jn j s).
Proof.
  intros I L [Hb Hf] Hr r Hrs EB Ebi Hu. rewrite EB.
  destruct (update_block (jn s) a (BBLOCK r (sb s)) (λ x, bit_set x bi) I) as (j1 & a1 & I1 & W1 & E1).
  { by apply Hb. } { by apply (room_slot (sb s) R a 1); [|eapply jinv_nodup|]. } { by apply BBLOCK_home. } { rewrite bit_set_length. by eapply jinv_size. }
  rewrite (E1 _ s (λ _, bzero ROOTDEV r;; mret r) eq_refl). pose proof W1 as [V1 H1 C1 L1 _ N1].
  destruct (bzero_ok (with_jn j1 s) a1 r) as (j2 & a2 & I2 & W2 & E2).
  - done.
  - rewrite H1. by apply Hf.
  - apply (room_slot (sb s) R a1 1); [|by eapply jinv_nodup|done]. eapply (room_logged _ _ a _ 1 1 ∅); [done| |done|done|done].
    rewrite N1. pose proof (rm_bitmap _ _ _ _ Hr r Hrs). set_solver.
  - split; [destruct L; lia|]. rewrite L1. by apply (ly_free _ _ L r).
  - exists j2, a2. split; [done|]. split.
    + pose proof (wrote_trans _ _ _ _ _ _ _ W1 W2) as [V H C LG D N]. constructor; try done. intros m. rewrite V.
      unfold mark. rewrite <- Ebi. destruct (decide (m = r)) as [->|Hne]; [by rewrite !fn_lookup_insert|].
      rewrite !(fn_lookup_insert_ne _ r) by done. apply V1.
    + rewrite (bind_Ok _ _ _ _ _ E2). done.
Qed.

Lemma balloc_loop_ok fuel : ∀ k (s : fst_) R a, jinv (jn s) a → layout (sb s) a → apart (sb s) a → room (sb s) R a 1 →
  0 ≤ k → size (sb s) < (k + Z.of_nat fuel) * BPB → (∀ c, 0 ≤ c < size (sb s) → c < k * BPB → used_blk (sb s) (j_view a) c = true) →
  ∃ r j a', jinv j a' ∧ balloc_loop fuel ROOTDEV (k * BPB) s = Ok (r, with_jn j s) ∧
    ((r = 0 ∧ a' = a ∧ ∀ c, 0 ≤ c < size (sb s) → used_blk (sb s) (j_view a) c = true) ∨
     (0 ≤ r < size (sb s) ∧ used_blk (sb s) (j_view a) r = false ∧ wrote a a' (<[r := zero_blk]> (mark (sb s) (j_view a) r)) {[BBLOCK r (sb s); r]})).
Proof.
  induction fuel as [|fuel IH]; intros k s R a I L HA Hr Hk Hsz Hused; cbn [balloc_loop];
    change (get_sb s) with (Ok (sb s, s)); rewrite (bind_Ok get_sb _ s (sb s) s) by done.
  - destruct (Z.ltb_spec (k * BPB) (size (sb s))); [lia|]. exists 0, (jn s), a. split; [done|]. split; [by destruct s|].
    left. split_and!; [done|done|]. intros c Hc. apply Hused; lia.
  - destruct (Z.ltb_spec (k * BPB) (size (sb s))) as [Hlt|Hge].
    2: { exists 0, (jn s), a. split; [done|]. split; [by destruct s|]. left. split_and!; [done|done|]. intros c Hc. apply Hused; lia. }
    assert (∀ j, 0 ≤ j < BPB → k * BPB + j < size (sb s) → BBLOCK (k * BPB) (sb s) = BBLOCK (k * BPB + j) (sb s) ∧ j = (k * BPB + j) `mod` BPB) as Hpos.
    { intros j Hj Hjs. rewrite !(BBLOCK_eq (sb s) a) by (done || unfold BPB in *; lia). rewrite Z.div_mul by done.
      rewrite Z.div_add_l, Z.div_small by (done || lia). split; [lia|]. by rewrite Z.add_comm, Z.mod_add, Z.mod_small. }
    assert (0 ≤ k * BPB < size (sb s)) as Hkb by (unfold BPB in *; lia).
    pose proof (free_bit_ok (j_view a (BBLOCK (k * BPB) (sb s))) (size (sb s)) (k * BPB) (Z.to_nat BPB) 0) as Hfb.
    assert (BBLOCK (k * BPB) (sb s) ∉ (j_held a).*1) as Hnh by by apply (proj1 HA).
    assert (j_room a) as Hjr by (by apply (room_bread (sb s) R a 1); [|eapply jinv_nodup|]).
    destruct (free_bit (Z.to_nat BPB) (j_view a (BBLOCK (k * BPB) (sb s))) (size (sb s)) (k * BPB) 0) as [bi|] eqn:Efb.
    + destruct Hfb as (Hbi & Hbs & Hbit & _). destruct (Hpos bi) as [EB Em]; [unfold BPB in *; lia|done|].
      rewrite (read_cong s a _ _ (λ bp x, on_log (bset bp (bit_set x bi));; on_log (log_write bp);; on_log (brelse bp);;
        bzero ROOTDEV (k * BPB + bi);; mret (k * BPB + bi)) I Hnh Hjr) by (intros bp s'; by rewrite Efb).
      assert (used_blk (sb s) (j_view a) (k * BPB + bi) = false) as Hu by (unfold used_blk; by rewrite <- EB, <- Em).
      destruct (balloc_take s R a (k * BPB) bi I L HA Hr) as (j & a' & I' & W & E); [unfold BPB in *; lia|done..|].
      exists (k * BPB + bi), j, a'. split; [done|]. split; [done|]. right. split; [unfold BPB in *; lia|done].
    + rewrite (read_cong s a _ _ (λ bp x, on_log (brelse bp);; balloc_loop fuel ROOTDEV (k * BPB + BPB)) I Hnh Hjr) by (intros bp s'; by rewrite Efb).
      destruct (peek_block s a _ (λ _, balloc_loop fuel ROOTDEV (k * BPB + BPB)) I Hnh Hjr) as (j & I' & E). rewrite E.
      replace (k * BPB + BPB) with ((k + 1) * BPB) by lia.
      apply (IH (k + 1) (with_jn j s) R a); cbn [sb jn with_jn]; [done..|lia|unfold BPB in *; lia|].
      intros c Hc Hck. destruct (Z.ltb_spec c (k * BPB)); [by apply Hused|]. unfold used_blk.
      destruct (Hpos (c - k * BPB)) as [EB Em]; [lia|lia|]. replace (k * BPB + (c - k * BPB)) with c in * by lia. rewrite <- EB, <- Em.
      apply Hfb; [unfold BPB in *; lia|lia].
Qed.

Lemma balloc_ok (s : fst_) R a : jinv (jn s) a → layout (sb s) a → apart (sb s) a → room (sb s) R a 1 →
  ∃ r j a', jinv j a' ∧ balloc ROOTDEV s = Ok (r, with_jn j s) ∧
    ((r = 0 ∧ a' = a ∧ ∀ c, 0 ≤ c < size (sb s) → used_blk (sb s) (j_view a) c = true) ∨
     (0 ≤ r < size (sb s) ∧ used_blk (sb s) (j_view a) r = false ∧ wrote a a' (<[r := zero_blk]> (mark (sb s) (j_view a) r)) {[BBLOCK r (sb s); r]})).
Proof.
  intros I L HA Hr. unfold balloc. rewrite (bind_Ok get_sb _ s (sb s) s) by done.
  destruct (balloc_loop_ok (Z.to_nat (size (sb s) `div` BPB) + 1) 0 s R a I L HA Hr) as (r & j & a' & ?); [done| |lia|by exists r, j, a'].
  destruct L. pose proof (Z.div_pos (size (sb s)) BPB). pose proof (Z.mod_pos_bound (size (sb s)) BPB).
  rewrite (Z.div_mod (size (sb s)) BPB) at 1 by done. unfold BPB in *. lia.
Qed.

(** What [balloc] leaves in the bitmap and in the other blocks. *)
Lemma balloc_view sb a a' r n : layout sb a → (∀ m, length (j_view a m) = BSIZE) → 0 ≤ r < size sb → used_blk sb (j_view a) r = false →
  wrote a a' (<[r := zero_blk]> (mark sb (j_view a) r)) n →
  (∀ c, 0 ≤ c < size sb → used_blk sb (j_view a') c = bool_decide (c = r) || used_blk sb (j_view a) c) ∧
  j_view a' r = zero_blk ∧ (∀ m, m ≠ r → m ≠ BBLOCK r sb → j_view a' m = j_view a m).
Proof.
  intros L HS Hr Hu [V _ _ _ _ _]. destruct (ly_free _ _ L r Hr Hu) as [_ Hrb]. split_and!.
  - intros c Hc. rewrite <- (used_mark sb a) by done. unfold used_blk at 1 2. rewrite V, fn_lookup_insert_ne by (by apply Hrb). done.
  - rewrite V. by rewrite fn_lookup_insert.
  - intros m Hm1 Hm2. rewrite V, fn_lookup_insert_ne by done. unfold mark. by rewrite fn_lookup_insert_ne.
Qed.

(** With room for one more block in the transaction, [balloc] returns a
    block that was free, zeroed and now marked as used, all other marks and
    blocks being as before; or 0, when every block of the disk is in use. *)
Theorem balloc_correct (s : fst_) R a : jinv (jn s) a → layout (sb s) a → apart (sb s) a → room (sb s) R a 1 → used_blk (sb s) (j_view a) 0 = true →
  ∃ r j a', balloc ROOTDEV s = Ok (r, with_jn j s) ∧ jinv j a' ∧ j_held a' = j_held a ∧
    if r =? 0 then a' = a ∧ ∀ c, 0 ≤ c < size (sb s) → used_blk (sb s) (j_view a) c = true
    else 0 < r < size (sb s) ∧ used_blk (sb s) (j_view a) r = false ∧ j_view a' r = zero_blk ∧
      (∀ c, 0 ≤ c < size (sb s) → used_blk (sb s) (j_view a') c = bool_decide (c = r) || used_blk (sb s) (j_view a) c) ∧
      (∀ m, m ≠ r → m ≠ BBLOCK r (sb s) → j_view a' m = j_view a m) ∧ charge R a' ≤ charge R a + 1.
Proof.
  intros I L HA Hr H0. destruct (balloc_ok s R a I L HA Hr) as (r & j & a' & I' & E & [(-> & -> & Hall)|(Hrs & Hu & W)]).
  - by exists 0, j, a.
  - destruct (balloc_view (sb s) a a' r _ L (jinv_size _ _ I) Hrs Hu W) as (H1 & H2 & H3).
    destruct (Z.eqb_spec r 0) as [->|Hne]; [congruence|]. destruct W as [_ Wh _ _ _ Wn]. exists r, j, a'. rewrite (proj2 (Z.eqb_neq r 0) Hne).
    split_and!; try done; [lia|lia|]. apply (charge_in R a a' {[r]}); [|by rewrite size_singleton].
    rewrite Wn. pose proof (rm_bitmap _ _ _ _ Hr r Hrs). set_solver.
Qed.

Lemma bfree_ok (s : fst_) R a b : jinv (jn s) a → layout (sb s) a → clear_of (sb s) a → room (sb s) R a 1 → 0 ≤ b < size (sb s) →
  used_blk (sb s) (j_view a) b = true →
  ∃ j a', jinv j a' ∧ bfree ROOTDEV b s = Ok (tt, with_jn j s) ∧ wrote a a' (unmark (sb s) (j_view a) b) {[BBLOCK b (sb s)]}.
Proof.
  intros I L HA Hr Hb Hu. unfold bfree. rewrite (bind_Ok get_sb _ s (sb s) s) by done.
  assert (BBLOCK b (sb s) ∉ (j_held a).*1) as Hnh by by apply HA. assert (j_room a) as Hjr by (by apply (room_bread (sb s) R a 1); [|eapply jinv_nodup|]).
  rewrite (read_cong s a _ _ (λ bp x, on_log (bset bp (bit_clear x (b `mod` BPB)));; on_log (log_write bp);; on_log (brelse bp);; skip) I Hnh Hjr).
  - destruct (update_block (jn s) a (BBLOCK b (sb s)) (λ x, bit_clear x (b `mod` BPB)) I Hnh) as (j & a' & I' & W & E).
    { by apply (room_slot (sb s) R a 1); [|eapply jinv_nodup|]. } { by apply BBLOCK_home. } { rewrite bit_clear_length. by eapply jinv_size. }
    exists j, a'. rewrite (E _ s (λ _, skip) eq_refl). done.
  - intros bp j. generalize (with_jn j s). intros s'. unfold used_blk in Hu. rewrite Hu. cbn [negb]. unfold mbind, prog_bind.
    destruct (on_log (bset _ _) s') as [[? s1]| | |]; [|done..]. destruct (on_log (log_write bp) s1) as [[? s2]| | |]; [|done..].
    by destruct (on_log (brelse bp) s2) as [[[] s3]| | |].
Qed.

(** [bfree] of a block that is in use clears its mark and changes nothing
    else; of a block that is free, it panics. *)
Theorem bfree_correct (s : fst_) R a b : jinv (jn s) a → layout (sb s) a → clear_of (sb s) a → room (sb s) R a 1 → 0 ≤ b < size (sb s) →
  if used_blk (sb s) (j_view a) b then
    ∃ j a', bfree ROOTDEV b s = Ok (tt, with_jn j s) ∧ jinv j a' ∧ j_held a' = j_held a ∧
      (∀ c, 0 ≤ c < size (sb s) → used_blk (sb s) (j_view a') c = negb (bool_decide (c = b)) && used_blk (sb s) (j_view a) c) ∧
      (∀ m, m ≠ BBLOCK b (sb s) → j_view a' m = j_view a m)
  else bfree ROOTDEV b s = Panic "freeing free block".
Proof.
  intros I L HA Hr Hb. destruct (used_blk (sb s) (j_view a) b) eqn:Hu.
  - destruct (bfree_ok s R a b I L HA Hr Hb Hu) as (j & a' & I' & E & [V H _ _ _ _]). exists j, a'. split_and!; try done.
    + intros c Hc. rewrite <- (used_unmark (sb s) a) by (done || by eapply jinv_size). unfold used_blk. by rewrite V.
    + intros m Hm. rewrite V. unfold unmark. by rewrite fn_lookup_insert_ne.
  - unfold bfree. rewrite (bind_Ok get_sb _ s (sb s) s) by done.
    destruct (bread_ok (jn s) a (BBLOCK b (sb s)) I) as (bp & j1 & E1 & I1).
    { by apply HA. } { by apply (room_bread (sb s) R a 1); [|eapply jinv_nodup|]. }
    pose proof (bdata_ok j1 _ _ bp (j_held a) I1 eq_refl) as E2. cbn in E2.
    rewrite (bind_Ok _ _ _ _ _ (on_log_ok _ s bp j1 E1)), (bind_Ok _ _ _ _ _ (on_log_ok _ (with_jn j1 s) _ j1 E2)).
    unfold used_blk in Hu. by rewrite Hu.
Qed.
End blocks.
End FsBlocks.
