(* ===== verification/FsMap.v ===== *)
(** * The blocks of a file

    The block pointers of an inode, direct and indirect, as a function from
    slots to blocks, and [bmap] as an operation on it. *)

From S2P Require Import Prelude Bytes BufCache Journal Fs FsBlocks.
Import Bytes Journal Fs FsBlocks.
Import BufCache (block, BSIZE, ROOTDEV, zero_blk, NBUF).

Module FsMap.

(** Arithmetic with the constants of the file system. *)
Ltac fs_lia := unfold MAXFILE, NDIRECT, NINDIRECT, BSIZE, BPB in *; lia.

(** Slots 0 to 267 are the blocks of the contents, 268 is the indirect block. *)
Definition ind (l : list Z) : Z := l !!! 12%nat.
Definition ptr (v : Z → block) (l : list Z) (t : Z) : Z :=
  if t <? NDIRECT then l !!! Z.to_nat t
  else if t =? MAXFILE then ind l
  else if ind l =? 0 then 0 else get32 (v (ind l)) (Z.to_nat (4 * (t - NDIRECT))).

(** Every pointer is to a block of its own, which is in use and neither in the
    log nor in the bitmap. *)
Record inode_wf (sb : superblock) (a : jabs) (l : list Z) : Prop := {
  iw_len : length l = 13%nat;
  iw_range t : 0 ≤ t ≤ MAXFILE → ptr (j_view a) l t ≠ 0 →
    0 < ptr (j_view a) l t < size sb ∧ used_blk sb (j_view a) (ptr (j_view a) l t) = true ∧
    ¬ j_log a (ptr (j_view a) l t) ∧ ∀ c, 0 ≤ c < size sb → ptr (j_view a) l t ≠ BBLOCK c sb;
  iw_inj t1 t2 : 0 ≤ t1 ≤ MAXFILE → 0 ≤ t2 ≤ MAXFILE → ptr (j_view a) l t1 ≠ 0 →
    ptr (j_view a) l t1 = ptr (j_view a) l t2 → t1 = t2 }.

Lemma ptr_direct v l t : 0 ≤ t < NDIRECT → ptr v l t = l !!! Z.to_nat t.
Proof. intros H. unfold ptr. by rewrite (proj2 (Z.ltb_lt t NDIRECT)) by lia. Qed.
Lemma ptr_ind v l : ptr v l MAXFILE = ind l.
Proof. done. Qed.
Lemma ptr_indirect v l t : NDIRECT ≤ t < MAXFILE → ptr v l t = if ind l =? 0 then 0 else get32 (v (ind l)) (Z.to_nat (4 * (t - NDIRECT))).
Proof. intros H. unfold ptr. rewrite (proj2 (Z.ltb_ge t NDIRECT)), (proj2 (Z.eqb_neq t MAXFILE)) by lia. done. Qed.
Lemma ptr_cases t : 0 ≤ t ≤ MAXFILE → 0 ≤ t < NDIRECT ∨ t = MAXFILE ∨ NDIRECT ≤ t < MAXFILE.
Proof. fs_lia. Qed.

(** Pointers depend on the contents of the indirect block only. *)
Lemma ptr_ext v w l t : (ind l ≠ 0 → v (ind l) = w (ind l)) → ptr v l t = ptr w l t.
Proof. intros H. unfold ptr. repeat case_z; try done. by rewrite H. Qed.

Lemma get32_zero o : get32 zero_blk o = 0.
Proof.
  unfold get32, getn, zero_blk. rewrite drop_replicate, take_replicate. remember (_ `min` _)%nat as m. clear. by induction m as [|m IH]; [|cbn; rewrite IH].
Qed.

(** Slot [t] gets the block [r]; all other slots keep theirs. *)
Definition adds (v : Z → block) (l : list Z) (v' : Z → block) (l' : list Z) (t r : Z) : Prop :=
  ∀ u, 0 ≤ u ≤ MAXFILE → ptr v' l' u = if bool_decide (u = t) then r else ptr v l u.

Lemma adds_direct v l v' t r : length l = 13%nat → 0 ≤ t < NDIRECT → (ind l ≠ 0 → v' (ind l) = v (ind l)) →
  adds v l v' (<[Z.to_nat t := r]> l) t r.
Proof.
  intros Hl Ht Hv u Hu. assert (Z.to_nat t ≠ 12%nat) as Ht12 by (fs_lia).
  assert (ind (<[Z.to_nat t := r]> l) = ind l) as Ei by (unfold ind; by rewrite list_lookup_total_insert_ne).
  destruct (ptr_cases u Hu) as [Hd|[->|Hi]].
  - rewrite !ptr_direct by done. destruct (decide (u = t)) as [->|Hne].
    + rewrite bool_decide_true by done. rewrite list_lookup_total_insert_eq; [done|]. fs_lia.
    + rewrite bool_decide_false by done. rewrite list_lookup_total_insert_ne by lia. done.
  - rewrite !ptr_ind, bool_decide_false by (fs_lia). done.
  - rewrite !ptr_indirect, Ei, bool_decide_false by (done || lia). case_z; [done|]. by rewrite Hv.
Qed.
Lemma adds_ind v l v' r : length l = 13%nat → ind l = 0 → v' r = zero_blk → r ≠ 0 → adds v l v' (<[12%nat := r]> l) MAXFILE r.
Proof.
  intros Hl H0 Hz Hr u Hu. assert (ind (<[12%nat := r]> l) = r) as Ei by (unfold ind; by rewrite list_lookup_total_insert_eq by lia).
  destruct (ptr_cases u Hu) as [Hd|[->|Hi]].
  - rewrite !ptr_direct, bool_decide_false by (done || fs_lia).
    rewrite list_lookup_total_insert_ne by (fs_lia). done.
  - by rewrite ptr_ind, bool_decide_true.
  - rewrite !ptr_indirect, Ei, H0, bool_decide_false by (done || lia). rewrite (proj2 (Z.eqb_neq r 0)) by done.
    by rewrite Hz, get32_zero.
Qed.
Lemma adds_indirect v l v' t r : ind l ≠ 0 → NDIRECT ≤ t < MAXFILE → length (v (ind l)) = BSIZE → 0 ≤ r < 2 ^ 32 →
  v' (ind l) = put32 (v (ind l)) (Z.to_nat (4 * (t - NDIRECT))) r → adds v l v' l t r.
Proof.
  intros Hi Ht Hl Hr Hv u Hu. destruct (ptr_cases u Hu) as [Hd|[->|Hn]].
  - rewrite !ptr_direct, bool_decide_false by (done || lia). done.
  - rewrite !ptr_ind, bool_decide_false by lia. done.
  - rewrite !ptr_indirect by done. rewrite (proj2 (Z.eqb_neq (ind l) 0)) by done. rewrite Hv. unfold get32, put32.
    assert (Z.to_nat (4 * (t - NDIRECT)) + 4 ≤ length (v (ind l)))%nat by (rewrite Hl; fs_lia).
    destruct (decide (u = t)) as [->|Hne].
    + rewrite bool_decide_true, getn_putn by done. apply Z.mod_small. done.
    + rewrite bool_decide_false by done. apply getn_putn_ne; [done|]. fs_lia.
Qed.

(** A block that was free joins the file. *)
Lemma inode_wf_add sb a a' l l' t r : inode_wf sb a l → layout sb a → length l' = 13%nat → 0 ≤ t ≤ MAXFILE → 0 < r < size sb →
  used_blk sb (j_view a) r = false → ptr (j_view a) l t = 0 → adds (j_view a) l (j_view a') l' t r →
  (∀ c, 0 ≤ c < size sb → used_blk sb (j_view a') c = bool_decide (c = r) || used_blk sb (j_view a) c) → j_log a' = j_log a →
  inode_wf sb a' l'.
Proof.
  intros [W1 W2 W3] L Hl' Ht Hr Hu H0 HA HU HL. destruct (ly_free _ _ L r ltac:(lia) Hu) as [Hnl Hnb].
  assert (∀ u, 0 ≤ u ≤ MAXFILE → ptr (j_view a) l u ≠ r) as Hfresh.
  { intros u Hu' E. destruct (W2 u Hu' ltac:(lia)) as (_ & Hus & _). rewrite E in Hus. congruence. }
  constructor; [done|..].
  - intros u Hu'. rewrite (HA u Hu'). case_bool_decide; intros Hne.
    + split; [done|]. split; [rewrite HU by lia; by rewrite bool_decide_true|]. rewrite HL. done.
    + destruct (W2 u Hu' Hne) as (R1 & R2 & R3 & R4). split; [done|]. rewrite HU, R2, orb_true_r, HL by lia. done.
  - intros t1 t2 Ht1 Ht2. rewrite (HA t1 Ht1), (HA t2 Ht2). repeat case_bool_decide; intros Hne E; subst; try done.
    + by specialize (Hfresh t2 Ht2).
    + by specialize (Hfresh t1 Ht1).
    + by apply W3.
Qed.

(** The number of a block, if there is one. *)
Definition nz (r : Z) : gset Z := if r =? 0 then ∅ else {[r]}.
Lemma nz_size r : Z.of_nat (base.size (nz r)) ≤ 1.
Proof. unfold nz. case_z; [by rewrite size_empty|by rewrite size_singleton]. Qed.

(** The [t]-th block of the file; one that is not there reads as zeros. *)
Definition contents (v : Z → block) (l : list Z) (t : Z) : block := if ptr v l t =? 0 then zero_blk else v (ptr v l t).

(** What an allocation for the file leaves as it was. *)
Record grown (sb : superblock) (a : jabs) (l : list Z) (a' : jabs) (l' : list Z) (N : gset Z) : Prop := {
  gr_wf : inode_wf sb a' l';
  gr_layout : layout sb a';
  gr_keep t : 0 ≤ t ≤ MAXFILE → ptr (j_view a) l t ≠ 0 → ptr (j_view a') l' t = ptr (j_view a) l t;
  gr_used c : 0 ≤ c < size sb → used_blk sb (j_view a) c = true → used_blk sb (j_view a') c = true;
  gr_data m : 0 ≤ m < size sb → used_blk sb (j_view a) m = true → (ind l ≠ 0 → m ≠ ind l) → (∀ c, 0 ≤ c < size sb → m ≠ BBLOCK c sb) →
    j_view a' m = j_view a m;
  gr_file t : 0 ≤ t < MAXFILE → contents (j_view a') l' t = contents (j_view a) l t;
  gr_ind : ind l' = ind l ∨ (0 ≤ ind l' < size sb ∧ used_blk sb (j_view a) (ind l') = false);
  gr_fresh t : 0 ≤ t ≤ MAXFILE → ptr (j_view a) l t = 0 → ptr (j_view a') l' t ≠ 0 →
    0 ≤ ptr (j_view a') l' t < size sb ∧ used_blk sb (j_view a) (ptr (j_view a') l' t) = false;
  gr_held : j_held a' = j_held a;
  gr_cap : j_cap a' = j_cap a;
  gr_log : j_log a' = j_log a;
  gr_disk : j_disk a' = j_disk a;
  gr_more : logged a ⊆ logged a';
  gr_logged : logged a' ⊆ logged a ∪ N }.

Lemma grown_refl sb a l N : inode_wf sb a l → layout sb a → grown sb a l a l N.
Proof. intros W L. constructor; try done; [by left|set_solver]. Qed.
Lemma grown_trans sb a l b m c k N1 N2 : grown sb a l b m N1 → grown sb b m c k N2 → grown sb a l c k (N1 ∪ N2).
Proof.
  intros G1 G2. constructor; [apply (gr_wf _ _ _ _ _ _ G2)|apply (gr_layout _ _ _ _ _ _ G2)|..].
  - intros t Ht Hne. pose proof (gr_keep _ _ _ _ _ _ G1 t Ht Hne) as E. rewrite (gr_keep _ _ _ _ _ _ G2 t Ht); congruence.
  - intros x Hx Hu. apply (gr_used _ _ _ _ _ _ G2 x Hx), (gr_used _ _ _ _ _ _ G1 x Hx Hu).
  - intros x Hx Hu Hi Hb. rewrite (gr_data _ _ _ _ _ _ G2 x Hx).
    + by apply (gr_data _ _ _ _ _ _ G1 x).
    + by apply (gr_used _ _ _ _ _ _ G1 x).
    + destruct (gr_ind _ _ _ _ _ _ G1) as [->|[_ Hf]]; [done|]. intros _. congruence.
    + done.
  - intros t Ht. by rewrite (gr_file _ _ _ _ _ _ G2 t Ht), (gr_file _ _ _ _ _ _ G1 t Ht).
  - destruct (gr_ind _ _ _ _ _ _ G2) as [->|[Hr Hf]]; [apply (gr_ind _ _ _ _ _ _ G1)|]. right. split; [done|].
    destruct (used_blk sb (j_view a) (ind k)) eqn:E; [|done]. pose proof (gr_used _ _ _ _ _ _ G1 _ Hr E). congruence.
  - intros t Ht Ha Hc. destruct (decide (ptr (j_view b) m t = 0)) as [Hb|Hb].
    + destruct (gr_fresh _ _ _ _ _ _ G2 t Ht Hb Hc) as [Hr Hf]. split; [done|].
      destruct (used_blk sb (j_view a) _) eqn:E; [|done]. pose proof (gr_used _ _ _ _ _ _ G1 _ Hr E). congruence.
    + rewrite (gr_keep _ _ _ _ _ _ G2 t Ht Hb). by apply (gr_fresh _ _ _ _ _ _ G1 t).
  - by rewrite (gr_held _ _ _ _ _ _ G2), (gr_held _ _ _ _ _ _ G1).
  - by rewrite (gr_cap _ _ _ _ _ _ G2), (gr_cap _ _ _ _ _ _ G1).
  - by rewrite (gr_log _ _ _ _ _ _ G2), (gr_log _ _ _ _ _ _ G1).
  - by rewrite (gr_disk _ _ _ _ _ _ G2), (gr_disk _ _ _ _ _ _ G1).
  - etrans; [apply (gr_more _ _ _ _ _ _ G1)|apply (gr_more _ _ _ _ _ _ G2)].
  - pose proof (gr_logged _ _ _ _ _ _ G1). pose proof (gr_logged _ _ _ _ _ _ G2). set_solver.
Qed.
Lemma grown_mono sb a l a' l' N K : grown sb a l a' l' N → N ⊆ K → grown sb a l a' l' K.
Proof. intros [] H. constructor; try done. etrans; [done|]. by apply union_mono_l. Qed.

(** The layout survives when blocks are marked as used. *)
Lemma layout_used sb a a' : layout sb a → j_log a' = j_log a →
  (∀ c, 0 ≤ c < size sb → used_blk sb (j_view a) c = true → used_blk sb (j_view a') c = true) → layout sb a'.
Proof.
  intros [] HL HU. constructor; try done.
  - intros b Hb. rewrite HL. by apply ly_bmap0.
  - intros b Hb Hu. rewrite HL. apply ly_free0; [done|]. destruct (used_blk sb (j_view a) b) eqn:E; [|done]. rewrite (HU b Hb E) in Hu. done.
Qed.

(** One allocation: block [r] was free and goes to slot [t]. *)
Lemma grown_add sb a a' l l' t r N : inode_wf sb a l → layout sb a → length l' = 13%nat → 0 ≤ t ≤ MAXFILE → 0 < r < size sb →
  used_blk sb (j_view a) r = false → ptr (j_view a) l t = 0 → adds (j_view a) l (j_view a') l' t r →
  (∀ c, 0 ≤ c < size sb → used_blk sb (j_view a') c = bool_decide (c = r) || used_blk sb (j_view a) c) →
  (∀ m, m ≠ r → m ≠ BBLOCK r sb → (ind l ≠ 0 → m ≠ ind l) → j_view a' m = j_view a m) → j_view a' r = zero_blk →
  j_held a' = j_held a → j_cap a' = j_cap a → j_log a' = j_log a → j_disk a' = j_disk a → logged a ⊆ logged a' → logged a' ⊆ logged a ∪ N →
  grown sb a l a' l' N.
Proof.
  intros W L Hl' Ht Hr Hu H0 HA HU HD Hz Hh Hc HL Hk Hn1 Hn2.
  assert (∀ c, 0 ≤ c < size sb → used_blk sb (j_view a) c = true → used_blk sb (j_view a') c = true) as Hmono.
  { intros c Hc' E. rewrite HU, E by done. apply orb_true_r. }
  constructor; try done.
  - by eapply inode_wf_add.
  - by eapply layout_used.
  - intros u Hu' Hne. rewrite (HA u Hu'). case_bool_decide; congruence.
  - intros m Hm Hum Hi Hb. apply HD; [congruence|apply Hb; lia|done].
  - intros u Hu'. unfold contents. rewrite (HA u) by lia. case_bool_decide as Eu.
    + subst u. rewrite H0, (proj2 (Z.eqb_neq r 0)) by lia. done.
    + destruct (Z.eqb_spec (ptr (j_view a) l u) 0) as [|Hne]; [done|].
      destruct (iw_range _ _ _ W u ltac:(lia) Hne) as (R1 & R2 & _ & R4).
      apply HD; [congruence|apply R4; lia|]. intros _ E. rewrite <- (ptr_ind (j_view a) l) in E.
      pose proof (iw_inj _ _ _ W u MAXFILE ltac:(lia) ltac:(fs_lia) Hne E). lia.
  - specialize (HA MAXFILE ltac:(fs_lia)). rewrite !ptr_ind in HA. case_bool_decide; [|by left]. right. rewrite HA. split; [lia|done].
  - intros u Hu' Ha. rewrite (HA u Hu'). case_bool_decide; [|done]. intros _. split; [lia|done].
Qed.

Section bmap.
Context {S M : Type} `{JN : Journaled S}.
#[local] Abbreviation fst_ := (@fst_ S M).

Definition with_inode (i : nat) (x : inode) (s : fst_) : fst_ := mkFs (sb s) (<[i := x]> (inodes s)) (itlock s) (jn s) (um s).
Lemma get_inode_ok (s : fst_) i x : inodes s !! i = Some x → get_inode i s = Ok (x, s).
Proof. intros H. unfold get_inode. by rewrite H. Qed.
Lemma mod_inode_ok (s : fst_) i x f : inodes s !! i = Some x → mod_inode i f s = Ok (tt, with_inode i (f x) s).
Proof. intros H. unfold mod_inode. by rewrite H. Qed.
Lemma get_addr_ok (s : fst_) i x t : inodes s !! i = Some x → length (addrs x) = 13%nat → 0 ≤ t ≤ 12 →
  get_addr i t s = Ok (addrs x !!! Z.to_nat t, s).
Proof.
  intros H Hl Ht. unfold get_addr. rewrite (bind_Ok _ _ _ _ _ (get_inode_ok s i x H)).
  rewrite (list_lookup_lookup_total_lt (addrs x) (Z.to_nat t)) by lia. done.
Qed.

Definition set_list (l : list Z) (x : inode) : inode := set_addrs l x.

(** [balloc], then the block is stored at a slot of the inode itself. *)
Lemma grow_inode (s : fst_) R a i x t : jinv (jn s) a → layout (sb s) a → apart (sb s) a → room (sb s) R a 1 →
  used_blk (sb s) (j_view a) 0 = true → inodes s !! i = Some x → inode_wf (sb s) a (addrs x) →
  0 ≤ t < NDIRECT ∨ t = MAXFILE → ptr (j_view a) (addrs x) t = 0 →
  let o := if bool_decide (t = MAXFILE) then NDIRECT else t in
  ∃ r j a', balloc ROOTDEV s = Ok (r, with_jn j s) ∧ jinv j a' ∧
    if r =? 0 then a' = a ∧ ∀ c, 0 ≤ c < size (sb s) → used_blk (sb s) (j_view a) c = true
    else let l' := <[Z.to_nat o := r]> (addrs x) in
      grown (sb s) a (addrs x) a' l' (R ∪ {[r]}) ∧ ptr (j_view a') l' t = r ∧ j_view a' r = zero_blk.
Proof.
  intros I L HA HR H0 Hx W Ht Hp o. destruct (balloc_ok s R a I L HA HR) as (r & j & a' & I' & E & [(-> & -> & Hall)|(Hrs & Hu & Hw)]).
  - by exists 0, j, a.
  - exists r, j, a'. split; [done|]. split; [done|]. destruct (Z.eqb_spec r 0) as [->|Hr0]; [congruence|].
    destruct (balloc_view (sb s) a a' r _ L (jinv_size _ _ I) Hrs Hu Hw) as (HU & Hz & HD).
    pose proof (iw_len _ _ _ W) as Hlen. assert (length (<[Z.to_nat o := r]> (addrs x)) = 13%nat) as Hlen' by by rewrite length_insert.
    assert (adds (j_view a) (addrs x) (j_view a') (<[Z.to_nat o := r]> (addrs x)) t r) as Hadd.
    { destruct Ht as [Ht| ->].
      - unfold o. rewrite bool_decide_false by fs_lia. apply adds_direct; [done|done|]. intros Hi.
        destruct (iw_range _ _ _ W MAXFILE ltac:(fs_lia) Hi) as (R1 & R2 & _ & R4). rewrite ptr_ind in *.
        apply HD; [congruence|by apply R4].
      - unfold o. rewrite bool_decide_true by done. by apply adds_ind. }
    destruct Hw as [_ Hh Hc HL Hk Hn]. split_and!; [|rewrite (Hadd t) by fs_lia; by rewrite bool_decide_true|done].
    pose proof (rm_bitmap _ _ _ _ HR r Hrs).
    eapply (grown_add _ _ _ _ _ t r); try done; [fs_lia|lia| |rewrite Hn; clear; set_solver|rewrite Hn; clear -H; set_solver]. intros m Hm1 Hm2 _. by apply HD.
Qed.

Lemma with_inode_id (s : fst_) i x : inodes s !! i = Some x → with_inode i (set_addrs (addrs x) x) s = s.
Proof. intros H. unfold with_inode. rewrite list_insert_id by (rewrite H; by destruct x). by destruct s. Qed.
Lemma with_jn_id (s : fst_) : with_jn (jn s) s = s.
Proof. by destruct s. Qed.

(** A block that is already there. *)
Lemma bmap_get (s : fst_) a i x bn : jinv (jn s) a → j_held a = [] → j_room a → inodes s !! i = Some x → dev x = ROOTDEV →
  length (addrs x) = 13%nat → 0 ≤ bn < MAXFILE → ptr (j_view a) (addrs x) bn ≠ 0 →
  ∃ j, bmap i bn s = Ok (ptr (j_view a) (addrs x) bn, with_jn j s) ∧ jinv j a.
Proof.
  intros I Hh Hr Hx Hdev Hl Hbn Hp. unfold bmap. rewrite (bind_Ok _ _ _ _ _ (get_inode_ok s i x Hx)).
  destruct (ptr_cases bn ltac:(lia)) as [Hd|[->|Hi]]; [|lia|].
  - rewrite (proj2 (Z.ltb_lt bn NDIRECT)) by lia. rewrite (bind_Ok _ _ _ _ _ (get_addr_ok s i x bn Hx Hl ltac:(fs_lia))).
    rewrite ptr_direct in * by done. rewrite (proj2 (Z.eqb_neq _ 0) Hp). exists (jn s). by rewrite with_jn_id.
  - rewrite (proj2 (Z.ltb_ge bn NDIRECT)) by lia. rewrite (proj2 (Z.ltb_lt (bn - NDIRECT) NINDIRECT)) by fs_lia.
    rewrite (bind_Ok _ _ _ _ _ (get_addr_ok s i x NDIRECT Hx Hl ltac:(fs_lia))).
    rewrite ptr_indirect in * by done. change (addrs x !!! Z.to_nat NDIRECT) with (ind (addrs x)).
    destruct (Z.eqb_spec (ind (addrs x)) 0) as [E|Hind]; [done|]. prog_run. rewrite (proj2 (Z.eqb_neq _ 0) Hind), Hdev.
    destruct (peek_block s a (ind (addrs x)) (λ d, mret (get32 d (Z.to_nat (4 * (bn - NDIRECT))))) I) as (j & I' & E); [by rewrite Hh; apply not_elem_of_nil|done|].
    exists j. split; [|done]. etrans; [|exact E]. apply (read_cong s a); [done|by rewrite Hh; apply not_elem_of_nil|done|].
    intros bp s'. rewrite (proj2 (Z.eqb_neq _ 0) Hp). by prog_run.
Qed.

(** The block [r] for slot [bn] of the indirect block, which is held. *)
Lemma indirect_alloc (s : fst_) R a l bn bp : jinv (jn s) a → layout (sb s) a → room (sb s) R a 2 → used_blk (sb s) (j_view a) 0 = true →
  inode_wf (sb s) a l → j_held a = [(ind l, bp)] → ind l ≠ 0 → NDIRECT ≤ bn < MAXFILE → ptr (j_view a) l bn = 0 →
  ∃ r j a', jinv j a' ∧
    (v ← balloc ROOTDEV;
     (if negb (v =? 0) then
        d ← on_log (bdata bp); on_log (bset bp (put32 d (Z.to_nat (4 * (bn - NDIRECT))) v));; on_log (log_write bp)
      else skip);; mret v) s = Ok (r, with_jn j s) ∧
    if r =? 0 then a' = a ∧ ∀ c, 0 ≤ c < size (sb s) → used_blk (sb s) (j_view a) c = true
    else grown (sb s) a l a' l (R ∪ {[r; ind l]}) ∧ ptr (j_view a') l bn = r ∧ j_view a' r = zero_blk ∧ ind l ∈ j_dirty a'.
Proof.
  intros I L HR H0 W Hh Hi Hbn Hp. destruct (iw_range _ _ _ W MAXFILE ltac:(fs_lia) Hi) as (R1 & R2 & R3 & R4). rewrite ptr_ind in *.
  assert (apart (sb s) a) as HA.
  { unfold apart, clear_of. rewrite Hh. split; intros c Hc; [|intros Hf]; intros E%list_elem_of_singleton; [by apply (R4 c)|]. cbn in E. congruence. }
  destruct (balloc_ok s R a I L HA ltac:(by eapply room_mono)) as (r & j & a1 & I1 & E & [(-> & -> & Hall)|(Hrs & Hu & Hw)]).
  { exists 0, j, a. split; [done|]. split; [|done]. by rewrite (bind_Ok _ _ _ _ _ E). }
  destruct (Z.eqb_spec r 0) as [->|Hr0]; [congruence|].
  destruct (balloc_view (sb s) a a1 r _ L (jinv_size _ _ I) Hrs Hu Hw) as (HU & Hz & HD). destruct Hw as [_ Wh Wc Wl Wk Wn]. pose proof (rm_bitmap _ _ _ _ HR r Hrs) as HBr.
  assert (j_view a1 (ind l) = j_view a (ind l)) as Hvi by (apply HD; [congruence|by apply R4; lia]).
  pose proof (jinv_size _ _ I1 (ind l)) as Hsz. rewrite Hh in Wh.
  set (d' := put32 (j_view a1 (ind l)) (Z.to_nat (4 * (bn - NDIRECT))) r).
  assert (length d' = BSIZE) as Hd' by (unfold d', put32; rewrite length_putn; [done|]; rewrite Hsz; fs_lia).
  pose proof (bdata_ok j a1 _ bp [] I1 Wh) as E2. destruct (bset_ok j a1 _ bp [] d' I1 Wh Hd') as (j3 & E3 & I3).
  destruct (log_write_ok j3 _ (ind l) bp [] I3 Wh) as (j4 & E4 & I4).
  { split; [destruct L; cbn; lia|]. cbn. by rewrite Wl. } 
  { eapply (room_slot (sb s) R a1 1); [|by eapply jinv_nodup|done]. eapply (room_logged _ _ a _ 2 1 {[r]}); [done| |by rewrite size_singleton|done|by rewrite Wh].
    rewrite Wn. set_solver. }
  set (a4 := j_add (j_set a1 (ind l) d') (ind l)).
  exists r, j4, a4. split; [done|]. rewrite (proj2 (Z.eqb_neq r 0) Hr0). split.
  { rewrite (bind_Ok _ _ _ _ _ E). rewrite (proj2 (Z.eqb_neq r 0) Hr0). cbn [negb]. rewrite bind_assoc'.
    rewrite (bind_Ok _ _ _ _ _ (on_log_ok _ (with_jn j s) _ j E2)), bind_assoc', (bind_Ok _ _ _ _ _ (on_log_ok _ (with_jn j s) _ j3 E3)).
    by rewrite (bind_Ok _ _ _ _ _ (on_log_ok _ (with_jn j3 s) _ j4 E4)). }
  assert (adds (j_view a) l (j_view a4) l bn r) as Hadd.
  { apply adds_indirect; [done|done|by eapply jinv_size|destruct L; lia|]. cbn. rewrite fn_lookup_insert. unfold d'. by rewrite Hvi. }
  assert (r ≠ ind l) as Hri by congruence.
  split_and!; [|rewrite (Hadd bn) by fs_lia; by rewrite bool_decide_true|cbn; by rewrite fn_lookup_insert_ne|].
  - eapply (grown_add _ _ _ _ _ bn r); try done; [apply (iw_len _ _ _ W)|fs_lia|fs_lia| |..].
    + intros c Hc. unfold used_blk. cbn. rewrite fn_lookup_insert_ne by (intros Ec; by apply (R4 c)). apply HU. done.
    + intros m Hm1 Hm2 Hm3. cbn. rewrite fn_lookup_insert_ne by (apply not_eq_sym; by apply Hm3). by apply HD.
    + cbn. by rewrite fn_lookup_insert_ne.
    + cbn. by rewrite Hh.
    + unfold a4. rewrite logged_add. change (logged (j_set a1 (ind l) d')) with (logged a1). rewrite Wn. clear -HBr. set_solver.
    + unfold a4. rewrite logged_add. change (logged (j_set a1 (ind l) d')) with (logged a1). rewrite Wn. clear -HBr. set_solver.
  - apply dirty_add.
Qed.

(** The buffer that was held is given back. *)
Lemma grown_pop sb a l a' l' m b n : grown sb (j_push a m b) l a' l' n → grown sb a l (j_pop a') l' n.
Proof.
  intros G. pose proof (gr_held _ _ _ _ _ _ G) as Hh. destruct G as [[] [] ? ? ? ? ? ? _ ? ? ? ?].
  constructor; try done; cbn; by rewrite Hh.
Qed.
Lemma inode_wf_push sb a l m b : inode_wf sb a l → inode_wf sb (j_push a m b) l.
Proof. by intros []. Qed.
Lemma layout_push sb a m b : layout sb a → layout sb (j_push a m b).
Proof. by intros []. Qed.

(** [bmap] once the indirect block is there. *)
Lemma bmap_indirect (s : fst_) R a x bn : jinv (jn s) a → layout (sb s) a → j_held a = [] → room (sb s) R a 3 → used_blk (sb s) (j_view a) 0 = true →
  inode_wf (sb s) a (addrs x) → ind (addrs x) ≠ 0 → NDIRECT ≤ bn < MAXFILE → ptr (j_view a) (addrs x) bn = 0 →
  ∃ r j a', jinv j a' ∧
    (bp ← on_log (bread ROOTDEV (ind (addrs x))); d ← on_log (bdata bp);
     let v := get32 d (Z.to_nat (4 * (bn - NDIRECT))) in
     v ← (if v =? 0 then
            v ← balloc ROOTDEV;
            (if negb (v =? 0) then
               d ← on_log (bdata bp); on_log (bset bp (put32 d (Z.to_nat (4 * (bn - NDIRECT))) v));; on_log (log_write bp)
             else skip);; mret v
          else mret v);
     on_log (brelse bp);; mret v) s = Ok (r, with_jn j s) ∧
    grown (sb s) a (addrs x) a' (addrs x) (R ∪ {[ind (addrs x)]} ∪ nz r) ∧
    if r =? 0 then ∀ c, 0 ≤ c < size (sb s) → used_blk (sb s) (j_view a') c = true else ptr (j_view a') (addrs x) bn = r.
Proof.
  intros I L Hh HR H0 W Hi Hbn Hp. destruct (bread_ok (jn s) a (ind (addrs x)) I) as (bp & j1 & E1 & I1).
  { rewrite Hh. apply not_elem_of_nil. } { by eapply room_bread; [|eapply jinv_nodup|]. }
  pose proof (bdata_ok j1 _ _ bp (j_held a) I1 eq_refl) as E2. cbn in E2.
  destruct (indirect_alloc (with_jn j1 s) R (j_push a (ind (addrs x)) bp) (addrs x) bn bp) as (r & j & a1 & Ia & E & HC); try done.
  { by apply layout_push. } { destruct HR as [? H1 H2]. constructor; [done|..]; cbn [j_cap j_held j_push length]; change (charge R (j_push a (ind (addrs x)) bp)) with (charge R a); lia. } { by apply inode_wf_push. } { cbn. by rewrite Hh. }
  assert (j_held a1 = [(ind (addrs x), bp)] ∧ grown (sb s) (j_push a (ind (addrs x)) bp) (addrs x) a1 (addrs x) (R ∪ {[ind (addrs x)]} ∪ nz r) ∧
    (ind (addrs x) ∈ j_dirty a1 ∨ j_view a1 (ind (addrs x)) = j_disk a1 (ind (addrs x))) ∧
    if r =? 0 then ∀ c, 0 ≤ c < size (sb s) → used_blk (sb s) (j_view a1) c = true else ptr (j_view a1) (addrs x) bn = r) as (Hh1 & G & Hd & HC').
  { unfold nz. destruct (r =? 0).
    - destruct HC as [-> Hall]. cbn. rewrite Hh. split_and!; [done|by apply grown_refl; [apply inode_wf_push|apply layout_push]| |done].
      destruct (decide (ind (addrs x) ∈ j_dirty a)); [by left|]. right. eapply jinv_clean; [done..|]. rewrite Hh. apply not_elem_of_nil.
    - destruct HC as (G & HP & _ & Hd). rewrite (gr_held _ _ _ _ _ _ G). cbn. rewrite Hh. split_and!; [done|eapply grown_mono; [exact G|set_solver]|by left|done]. }
  destruct (brelse_ok j a1 _ bp [] Ia Hh1 Hd) as (j5 & E5 & I5). exists r, j5, (j_pop a1). split; [done|]. split.
  { rewrite (bind_Ok _ _ _ _ _ (on_log_ok _ s bp j1 E1)), (bind_Ok _ _ _ _ _ (on_log_ok _ (with_jn j1 s) _ j1 E2)). cbv zeta.
    rewrite ptr_indirect, (proj2 (Z.eqb_neq _ 0) Hi) in Hp by done. rewrite Hp. cbn [Z.eqb].
    rewrite (bind_Ok _ _ _ _ _ E). by rewrite (bind_Ok _ _ _ _ _ (on_log_ok _ (with_jn j (with_jn j1 s)) _ j5 E5)). }
  split; [by eapply grown_pop|done].
Qed.

Lemma put_addr_ok (s : fst_) i x t v : inodes s !! i = Some x → put_addr i t v s = Ok (tt, with_inode i (set_addrs (<[Z.to_nat t := v]> (addrs x)) x) s).
Proof. intros H. unfold put_addr. by rewrite (mod_inode_ok s i x). Qed.

(** What [bmap] returns, with the inode [x] and the journal [a] before. *)
Definition mapped (sb : superblock) (R : gset Z) (a : jabs) (l : list Z) (a' : jabs) (l' : list Z) (bn r : Z) : Prop :=
  grown sb a l a' l' (R ∪ nz (ind l') ∪ nz r) ∧
  if r =? 0 then ∀ c, 0 ≤ c < size sb → used_blk sb (j_view a') c = true else ptr (j_view a') l' bn = r.

(** The two places where [bmap] allocates for the inode itself. *)
Lemma bmap_inode (s : fst_) R a i x t o : jinv (jn s) a → layout (sb s) a → j_held a = [] → room (sb s) R a 1 →
  used_blk (sb s) (j_view a) 0 = true → inodes s !! i = Some x → inode_wf (sb s) a (addrs x) →
  (0 ≤ t < NDIRECT ∧ o = t) ∨ (t = MAXFILE ∧ o = NDIRECT) → ptr (j_view a) (addrs x) t = 0 →
  ∃ r j a' l', jinv j a' ∧
    (v ← balloc ROOTDEV; if v =? 0 then mret 0 else put_addr i o v;; mret v) s = Ok (r, with_jn j (with_inode i (set_addrs l' x) s)) ∧
    grown (sb s) a (addrs x) a' l' (R ∪ nz r) ∧
    if r =? 0 then l' = addrs x ∧ ∀ c, 0 ≤ c < size (sb s) → used_blk (sb s) (j_view a') c = true
    else ptr (j_view a') l' t = r ∧ j_view a' r = zero_blk.
Proof.
  intros I L Hh HR H0 Hx W Ho Hp.
  assert (o = if bool_decide (t = MAXFILE) then NDIRECT else t) as Eo by (case_bool_decide; fs_lia).
  destruct (grow_inode s R a i x t I L) as (r & j & a' & E & I' & HC); try done.
  { unfold apart, clear_of. rewrite Hh. split; intros; apply not_elem_of_nil. } { destruct Ho as [[? _]|[? _]]; auto. }
  rewrite <- Eo in HC. destruct (Z.eqb_spec r 0) as [->|Hr].
  - destruct HC as [-> Hall]. exists 0, j, a, (addrs x). rewrite (bind_Ok _ _ _ _ _ E). rewrite with_inode_id by done.
    split; [done|]. split; [done|]. split; [by apply grown_refl|done].
  - destruct HC as (G & HP & HZ). exists r, j, a', (<[Z.to_nat o := r]> (addrs x)). rewrite (bind_Ok _ _ _ _ _ E).
    rewrite (proj2 (Z.eqb_neq r 0) Hr). rewrite (bind_Ok _ _ _ _ _ (put_addr_ok (with_jn j s) i x o r Hx)). unfold nz. by rewrite (proj2 (Z.eqb_neq r 0) Hr).
Qed.

Lemma bmap_ok (s : fst_) R a i x bn : jinv (jn s) a → layout (sb s) a → j_held a = [] → room (sb s) R a (if ind (addrs x) =? 0 then 4 else 3) →
  used_blk (sb s) (j_view a) 0 = true → inodes s !! i = Some x → dev x = ROOTDEV → inode_wf (sb s) a (addrs x) → 0 ≤ bn < MAXFILE →
  ∃ r j a' l', bmap i bn s = Ok (r, with_jn j (with_inode i (set_addrs l' x) s)) ∧ jinv j a' ∧ mapped (sb s) R a (addrs x) a' l' bn r.
Proof.
  intros I L Hh HR H0 Hx Hdev W Hbn. pose proof (iw_len _ _ _ W) as Hlen. pose proof (jinv_nodup _ _ I) as Hnd.
  destruct (decide (ptr (j_view a) (addrs x) bn = 0)) as [Hp|Hp].
  2: { destruct (bmap_get s a i x bn) as (j & E & I'); [done..| |done|done|done|done|done|].
       { eapply room_bread; [done|done|]. case_z; lia. }
       exists (ptr (j_view a) (addrs x) bn), j, a, (addrs x). rewrite with_inode_id by done. split; [done|]. split; [done|].
       split; [by apply grown_refl|]. by rewrite (proj2 (Z.eqb_neq _ 0) Hp). }
  unfold bmap. rewrite (bind_Ok _ _ _ _ _ (get_inode_ok s i x Hx)), Hdev.
  assert (room (sb s) R a 1) as HR1 by (eapply room_mono; [done|]; case_z; lia).
  destruct (ptr_cases bn ltac:(lia)) as [Hd|[->|Hi]]; [|lia|].
  - rewrite (proj2 (Z.ltb_lt bn NDIRECT)) by lia. rewrite (bind_Ok _ _ _ _ _ (get_addr_ok s i x bn Hx Hlen ltac:(fs_lia))).
    rewrite <- (ptr_direct (j_view a)), Hp by done. cbn [Z.eqb].
    destruct (bmap_inode s R a i x bn bn I L Hh HR1) as (r & j & a' & l' & I' & E & G & HC); try done; [by left|].
    exists r, j, a', l'. split; [exact E|]. split; [done|]. split; [eapply grown_mono; [exact G|set_solver]|]. destruct (r =? 0); apply HC.
  - rewrite (proj2 (Z.ltb_ge bn NDIRECT)) by lia. rewrite (proj2 (Z.ltb_lt (bn - NDIRECT) NINDIRECT)) by fs_lia.
    rewrite (bind_Ok _ _ _ _ _ (get_addr_ok s i x NDIRECT Hx Hlen ltac:(fs_lia))).
    change (addrs x !!! Z.to_nat NDIRECT) with (ind (addrs x)). destruct (Z.eqb_spec (ind (addrs x)) 0) as [Hi0|Hi0].
    + destruct (bmap_inode s R a i x MAXFILE NDIRECT I L Hh HR1) as (r & j & a' & l' & I' & E & G & HC); try done; [by right|].
      rewrite (bind_Ok _ _ _ _ _ E). destruct (Z.eqb_spec r 0) as [->|Hr].
      * destruct HC as [-> Hall]. exists 0, j, a', (addrs x). split; [done|]. split; [done|]. split; [eapply grown_mono; [exact G|set_solver]|done].
      * destruct HC as [HP HZ]. rewrite ptr_ind in HP.
        destruct (bmap_indirect (with_jn j (with_inode i (set_addrs l' x) s)) R a' (set_addrs l' x) bn) as (r2 & j2 & a2 & I2 & E2 & G2 & HC2); cbn [sb jn with_jn with_inode addrs set_addrs] in *.
        { done. } { apply (gr_layout _ _ _ _ _ _ G). } { by rewrite (gr_held _ _ _ _ _ _ G). }
        { eapply (room_logged _ _ a _ 4 3 (nz r)); [done|rewrite <- union_assoc_L; apply (gr_logged _ _ _ _ _ _ G)|apply nz_size|
            by apply (gr_cap _ _ _ _ _ _ G)|by apply (gr_held _ _ _ _ _ _ G)]. }
        { apply (gr_used _ _ _ _ _ _ G); [destruct L; lia|done]. } { apply (gr_wf _ _ _ _ _ _ G). } { congruence. } { done. }
        { rewrite ptr_indirect by done. rewrite HP, (proj2 (Z.eqb_neq r 0) Hr), HZ. apply get32_zero. }
        rewrite HP in E2. exists r2, j2, a2, l'. split; [exact E2|]. split; [done|]. split; [|done].
        eapply grown_mono; [exact (grown_trans _ _ _ _ _ _ _ _ _ G G2)|]. unfold nz at 1 3. rewrite HP, (proj2 (Z.eqb_neq r 0) Hr). set_solver.
    + prog_run. rewrite (proj2 (Z.eqb_neq _ 0) Hi0).
      destruct (bmap_indirect s R a x bn) as (r & j & a' & I' & E & G & HC); try done.
      exists r, j, a', (addrs x). split; [|split; [done|split; [|done]]].
      * etrans; [exact E|]. do 2 f_equal. change (with_jn j s = with_jn j (with_inode i (set_addrs (addrs x) x) s)). by rewrite with_inode_id.
      * eapply grown_mono; [exact G|]. unfold nz at 2. rewrite (proj2 (Z.eqb_neq _ 0) Hi0). set_solver.
Qed.
End bmap.
End FsMap.
