(* ===== verification/FsFile.v ===== *)
(** * The contents of a file

    A file as a sequence of bytes: [readi] returns a slice of it, [writei]
    overwrites one and extends the file. *)

From S2P Require Import Prelude Bytes BufCache Journal UserMem Fs FsBlocks FsMap.
Import Bytes Journal UserMem Fs FsBlocks FsMap.
Import BufCache (block, BSIZE, ROOTDEV, zero_blk, NBUF).

Module FsFile.

(** The byte at offset [o], and [n] bytes from offset [off] on. *)
Definition byte (v : Z → block) (l : list Z) (o : Z) : Z := contents v l (o `div` BS) !!! Z.to_nat (o `mod` BS).
Definition bytes (v : Z → block) (l : list Z) (off n : Z) : list Z := byte v l <$> seqZ off n.

(** An inode in memory that can be read and written: its pointers are in order,
    and every block below the size is there. *)
Record file_ok (sb : superblock) (a : jabs) (x : inode) : Prop := {
  fo_dev : dev x = ROOTDEV;
  fo_wf : inode_wf sb a (addrs x);
  fo_size : 0 ≤ isize x ≤ MAXFILE * BS;
  fo_dense t : 0 ≤ t → t * BS < isize x → ptr (j_view a) (addrs x) t ≠ 0 }.

Lemma BS_pos : 0 < BS.
Proof. done. Qed.
#[local] Hint Resolve BS_pos : core.

Lemma bytes_length v l off n : length (bytes v l off n) = Z.to_nat n.
Proof. unfold bytes. by rewrite length_fmap, length_seqZ. Qed.
Lemma file_bytes_app v l off n m : 0 ≤ n → 0 ≤ m → bytes v l off (n + m) = bytes v l off n ++ bytes v l (off + n) m.
Proof. intros Hn Hm. unfold bytes. by rewrite seqZ_app, fmap_app by done. Qed.
Lemma file_bytes_lookup v l off n i : (i < Z.to_nat n)%nat → bytes v l off n !! i = Some (byte v l (off + Z.of_nat i)).
Proof. intros Hi. unfold bytes. rewrite list_lookup_fmap, lookup_seqZ_lt by lia. done. Qed.
Lemma file_bytes_ext v l v' l' off n : (∀ o, off ≤ o < off + n → byte v l o = byte v' l' o) → bytes v l off n = bytes v' l' off n.
Proof. intros H. unfold bytes. apply list_fmap_ext. intros i o Hi%lookup_seqZ. apply H. lia. Qed.

(** Offsets within a block. *)
Lemma off_in off i : 0 ≤ off → 0 ≤ i < BS - off `mod` BS → (off + i) `div` BS = off `div` BS ∧ (off + i) `mod` BS = off `mod` BS + i.
Proof.
  intros Ho Hi. pose proof (Z.mod_pos_bound off BS BS_pos). rewrite (Z.div_mod off BS) at 1 3 by done.
  replace (BS * (off `div` BS) + off `mod` BS + i) with (off `mod` BS + i + off `div` BS * BS) by lia.
  rewrite Z.div_add, Z.mod_add, Z.div_small, Z.mod_small by lia. lia.
Qed.
Lemma contents_length v l t : (∀ n, length (v n) = BSIZE) → length (contents v l t) = BSIZE.
Proof. intros H. unfold contents. by case_z. Qed.
Lemma chunk_bytes v l off m : (∀ n, length (v n) = BSIZE) → 0 ≤ off → 0 ≤ m ≤ BS - off `mod` BS →
  take (Z.to_nat m) (drop (Z.to_nat (off `mod` BS)) (contents v l (off `div` BS))) = bytes v l off m.
Proof.
  intros HS Ho Hm. pose proof (Z.mod_pos_bound off BS BS_pos). pose proof (contents_length v l (off `div` BS) HS) as HL. apply list_eq. intros i.
  destruct (decide (i < Z.to_nat m)%nat) as [Hi|Hi].
  - rewrite file_bytes_lookup, lookup_take_lt, lookup_drop by done. unfold byte.
    destruct (off_in off (Z.of_nat i)) as [-> ->]; [done|lia|]. rewrite Z2Nat.inj_add, Nat2Z.id by lia.
    rewrite list_lookup_lookup_total_lt; [done|]. rewrite HL. unfold BSIZE in *. lia.
  - rewrite !lookup_ge_None_2; [done|rewrite bytes_length; lia|]. rewrite length_take. lia.
Qed.

(** ** Chunks

    The pieces in which a range of the file is copied, one for each block. *)

Fixpoint chunks (fuel : nat) (f : Z → Z → list Z) (off n : Z) : list (list Z) :=
  match fuel with
  | O => []
  | S fuel' => if 0 <? n then let m := Z.min n (BS - off `mod` BS) in f off m :: chunks fuel' f (off + m) (n - m) else []
  end.

Lemma chunk_pos off n : 0 < n → 0 < Z.min n (BS - off `mod` BS) ≤ n.
Proof. intros H. pose proof (Z.mod_pos_bound off BS BS_pos). lia. Qed.
Lemma chunks_concat fuel v l : ∀ off n, 0 ≤ n ≤ Z.of_nat fuel → concat (chunks fuel (bytes v l) off n) = bytes v l off n.
Proof.
  induction fuel as [|fuel IH]; intros off n Hn; cbn [chunks].
  - by replace n with 0 by lia.
  - destruct (Z.ltb_spec 0 n); [|by replace n with 0 by lia]. pose proof (chunk_pos off n ltac:(lia)). cbn [concat].
    rewrite IH by lia. rewrite <- file_bytes_app by lia. f_equal. lia.
Qed.

Section read.
Context {S M : Type} `{JN : Journaled S} `{UM : UserMemory M}.
#[local] Abbreviation fst_ := (@fst_ S M).

Definition with_um (u : M) (s : fst_) : fst_ := mkFs (sb s) (inodes s) (itlock s) (jn s) u.
(** The file system after the user memory did what [r] says. *)
Definition lift {A} (j : S) (s : fst_) (r : res (A * M)) : res (A * fst_) :=
  match r with
  | Ok (x, u) => Ok (x, with_um u (with_jn j s))
  | Panic e => Panic e | Fault => Fault | Spin => Spin
  end.

Lemma bind_run {T A B} (m : prog T A) (f : A → prog T B) s :
  (m ≫= f) s = match m s with Ok (x, s') => f x s' | Panic e => Panic e | Fault => Fault | Spin => Spin end.
Proof. done. Qed.

(** One piece is copied, all pieces are. *)
Definition give (dst : place) (l : list Z) : prog M (Z * place) :=
  match dst with
  | User va => r ← copyout va l; mret (r, User (u64 (va + Z.of_nat (length l))))
  | Kernel k => mret (0, Kernel (k ++ l))
  end.
Fixpoint feed (dst : place) (cs : list (list Z)) (tot : Z) : prog M (Z * place) :=
  match cs with
  | [] => mret (tot, dst)
  | c :: cs' =>
      r ← give dst c;
      if fst r =? -1 then mret (-1, snd r) else feed (snd r) cs' (tot + Z.of_nat (length c))
  end.

Lemma feed_kernel cs : ∀ k tot u, feed (Kernel k) cs tot u = Ok ((tot + Z.of_nat (length (concat cs)), Kernel (k ++ concat cs)), u).
Proof.
  induction cs as [|c cs IH]; intros k tot u; cbn [feed concat]; [by rewrite app_nil_r, Z.add_0_r|].
  rewrite (bind_Ok _ _ _ _ _ (eq_refl : give (Kernel k) c u = Ok ((0, Kernel (k ++ c)), u))). cbn [fst snd Z.eqb]. rewrite IH.
  rewrite <- app_assoc, length_app, Nat2Z.inj_add, Z.add_assoc. done.
Qed.

(** The copy of a piece as [readi] writes it. *)
Lemma give_ok dst c m (s : fst_) : Z.of_nat (length c) = m →
  (match dst with User va => r ← on_user (copyout va c); mret (r, User (u64 (va + m))) | Kernel k => mret (0, Kernel (k ++ c)) end) s =
  lift (jn s) s (give dst c (um s)).
Proof.
  intros <-. destruct dst as [va|k]; [|by destruct s]. unfold give, mbind, prog_bind, on_user.
  by destruct (copyout va c (um s)) as [[r u]| | |]; destruct s.
Qed.
Lemma readi_loop_ok fuel : ∀ (s : fst_) a i x dst off n tot, jinv (jn s) a → j_held a = [] → j_room a →
  inodes s !! i = Some x → file_ok (sb s) a x → 0 ≤ tot ≤ n → n < 2 ^ 32 → 0 ≤ off → off + (n - tot) ≤ isize x → n - tot ≤ Z.of_nat fuel →
  ∃ j, jinv j a ∧ readi_loop fuel i dst off n tot s =
    lift j s (feed dst (chunks fuel (bytes (j_view a) (addrs x)) off (n - tot)) tot (um s)).
Proof.
  induction fuel as [|fuel IH]; intros s a i x dst off n tot I Hh Hr Hx F Ht Hn Ho Hs Hf; cbn [readi_loop chunks].
  { rewrite (proj2 (Z.ltb_ge tot n)) by lia. exists (jn s). split; [done|]. by destruct s. }
  destruct (Z.ltb_spec tot n) as [Hlt|Hge].
  2: { rewrite (proj2 (Z.ltb_ge 0 (n - tot))) by lia. exists (jn s). split; [done|]. by destruct s. }
  rewrite (proj2 (Z.ltb_lt 0 (n - tot))) by lia. pose proof (chunk_pos off (n - tot) ltac:(lia)) as Hm.
  set (m := Z.min (n - tot) (BS - off `mod` BS)) in *. pose proof F as [Fd Fw Fs Fp].
  rewrite (bind_Ok _ _ _ _ _ (get_inode_ok s i x Hx)). set (t := off `div` BS).
  assert (t * BS ≤ off < (t + 1) * BS) as Ht' by (unfold t; pose proof (Z.mul_div_le off BS BS_pos); pose proof (Z.mul_succ_div_gt off BS BS_pos); lia).
  assert (0 ≤ t) as Ht0 by (apply Z.div_pos; lia).
  destruct (bmap_get s a i x t) as (j1 & E1 & I1); try done; [apply (iw_len _ _ _ Fw)|nia|apply Fp; lia|].
  rewrite (bind_Ok _ _ _ _ _ E1). assert (ptr (j_view a) (addrs x) t ≠ 0) as Hp by (apply Fp; lia).
  rewrite (proj2 (Z.eqb_neq _ 0) Hp), Fd.
  destruct (bread_ok j1 a (ptr (j_view a) (addrs x) t) I1) as (bp & j2 & E2 & I2); [rewrite Hh; apply not_elem_of_nil|done|].
  rewrite (bind_Ok _ _ _ _ _ (on_log_ok _ (with_jn j1 s) bp j2 E2)).
  pose proof (bdata_ok j2 _ _ bp (j_held a) I2 eq_refl) as E3. cbn in E3.
  rewrite (bind_Ok _ _ _ _ _ (on_log_ok _ (with_jn j2 s) _ j2 E3)).
  destruct (brelse_ok j2 _ _ bp (j_held a) I2 eq_refl) as (j4 & E4 & I4).
  { cbn. destruct (decide (ptr (j_view a) (addrs x) t ∈ j_dirty a)); [by left|]. right. eapply jinv_clean; [done..|]. rewrite Hh. apply not_elem_of_nil. }
  rewrite pop_push in I4.
  assert (take (Z.to_nat m) (drop (Z.to_nat (off `mod` BS)) (j_view a (ptr (j_view a) (addrs x) t))) = bytes (j_view a) (addrs x) off m) as ->.
  { rewrite <- (chunk_bytes (j_view a)) by (try lia; by eapply jinv_size). unfold contents. fold t. by rewrite (proj2 (Z.eqb_neq _ 0) Hp). }
  set (c := bytes (j_view a) (addrs x) off m). assert (Z.of_nat (length c) = m) as Hc by (unfold c; rewrite bytes_length; lia).
  cbn [feed]. pose proof (give_ok dst c m (with_jn j2 (with_jn j2 s)) Hc) as E5. cbn [jn um with_jn] in E5. rewrite !bind_run, E5.
  destruct (give dst c (um s)) as [[r u]| | |]; [|by exists (jn s)..]. cbn [lift].
  rewrite (bind_Ok _ _ _ _ _ (on_log_ok _ (with_um u (with_jn j2 (with_jn j2 (with_jn j2 s)))) _ j4 E4)).
  destruct (fst r =? -1); [by exists j4|]. assert (isize x < 2 ^ 32) by fs_lia. rewrite !u32_small by lia.
  destruct (IH (with_um u (with_jn j4 s)) a i x (snd r) (off + m) n (tot + m)) as (j & Ij & E); try done; [lia..|].
  exists j. split; [done|]. etrans; [exact E|]. replace (n - (tot + m)) with (n - tot - m) by lia. rewrite Hc. done.
Qed.

(** The number of bytes that can be read. *)
Definition available (x : inode) (off n : Z) : Z :=
  if (isize x <? off) || (u32 (off + n) <? off) then 0 else Z.min n (isize x - off).
Lemma available_range sb a x off n : file_ok sb a x → 0 ≤ off < 2 ^ 32 → 0 ≤ n < 2 ^ 32 →
  0 ≤ available x off n ≤ n ∧ available x off n < 2 ^ 31 ∧ (0 < available x off n → off + available x off n ≤ isize x).
Proof.
  intros [_ _ Hs _] Ho Hn. unfold available. destruct (Z.ltb_spec (isize x) off), (Z.ltb_spec (u32 (off + n)) off); cbn [orb]; [lia..|]. fs_lia.
Qed.
(** Without overflow, it is what is left of the file. *)
Lemma available_eq x off n : 0 ≤ off → 0 ≤ n → off + n < 2 ^ 32 → 0 ≤ isize x → available x off n = Z.max 0 (Z.min n (isize x - off)).
Proof.
  intros Ho Hn Hm Hs. unfold available. rewrite u32_small by lia. rewrite (proj2 (Z.ltb_ge (off + n) off)) by lia.
  rewrite orb_false_r. case_z; lia.
Qed.

Lemma readi_ok (s : fst_) a i x dst off n : jinv (jn s) a → j_held a = [] → j_room a → inodes s !! i = Some x → file_ok (sb s) a x →
  0 ≤ off < 2 ^ 32 → 0 ≤ n < 2 ^ 32 →
  let m := available x off n in
  ∃ j, jinv j a ∧ readi i dst off n s =
    lift j s ((r ← feed dst (chunks (Z.to_nat m) (bytes (j_view a) (addrs x)) off m) 0; mret (i32 (fst r), snd r)) (um s)).
Proof.
  intros I Hh Hr Hx F Ho Hn m. pose proof (available_range _ _ _ off n F Ho Hn) as (Hm1 & Hm2 & Hm3). fold m in Hm1, Hm2, Hm3.
  unfold readi. rewrite (bind_Ok _ _ _ _ _ (get_inode_ok s i x Hx)). unfold m, available in *.
  destruct ((isize x <? off) || (u32 (off + n) <? off)) eqn:Eb; [exists (jn s); split; [done|]; by destruct s|].
  apply orb_false_iff in Eb as [E1%Z.ltb_ge E2%Z.ltb_ge].
  assert (off + n < 2 ^ 32) as Hov.
  { destruct (Z.ltb_spec (off + n) (2 ^ 32)); [done|]. unfold u32 in E2.
    assert ((off + n) `mod` 2 ^ 32 = off + n - 2 ^ 32) by (symmetry; apply Z.mod_unique with 1; lia). lia. }
  rewrite (u32_small (off + n)) in * by lia.
  assert ((if isize x <? off + n then isize x - off else n) = Z.min n (isize x - off)) as -> by (case_z; lia).
  set (k := Z.min n (isize x - off)) in *.
  destruct (readi_loop_ok (Z.to_nat k) s a i x dst off k 0 I Hh Hr Hx F) as (j & Ij & E); [lia..|]. rewrite Z.sub_0_r in E.
  exists j. split; [done|]. rewrite !bind_run, E. by destruct (feed _ _ _ _) as [[[r d] u]| | |].
Qed.

Lemma readi_kernel (s : fst_) a i x k off n : jinv (jn s) a → j_held a = [] → j_room a → inodes s !! i = Some x → file_ok (sb s) a x →
  0 ≤ off < 2 ^ 32 → 0 ≤ n < 2 ^ 32 →
  let m := available x off n in
  ∃ j, jinv j a ∧ readi i (Kernel k) off n s = Ok ((m, Kernel (k ++ bytes (j_view a) (addrs x) off m)), with_jn j s).
Proof.
  intros I Hh Hr Hx F Ho Hn m. pose proof (available_range _ _ _ off n F Ho Hn) as (Hm1 & Hm2 & _). fold m in Hm1, Hm2.
  destruct (readi_ok s a i x (Kernel k) off n I Hh Hr Hx F Ho Hn) as (j & Ij & E). fold m in E. exists j. split; [done|].
  rewrite E, bind_run, feed_kernel, chunks_concat, bytes_length by lia. cbn [fst snd lift mret prog_ret]. rewrite i32_small by lia.
  rewrite Z.add_0_l, Z2Nat.id by lia. by destruct s.
Qed.

(** The copy to user memory succeeds if the whole range is mapped. *)
Lemma feed_user cs : ∀ va tot u mem, uinv u mem → 0 ≤ va → va + Z.of_nat (length (concat cs)) < 2 ^ 64 →
  ∃ r va' u' n, feed (User va) cs tot u = Ok ((r, User va'), u') ∧ uinv u' (ustore mem va (take n (concat cs))) ∧
    (r = tot + Z.of_nat (length (concat cs)) ∧ n = length (concat cs) ∧ umapped mem va (Z.of_nat (length (concat cs))) ∨
     r = -1 ∧ ¬ umapped mem va (Z.of_nat (length (concat cs)))).
Proof.
  induction cs as [|c cs IH]; intros va tot u mem U Hva Hmax; cbn [feed concat] in *.
  { exists tot, va, u, 0%nat. split; [done|]. split; [done|]. left. cbn. split_and!; [lia|done|]. intros p Hp. lia. }
  rewrite length_app in *. destruct (copyout_ok u mem va c U Hva) as (r & n & u' & E & U' & Hm & Hc); [lia|].
  rewrite bind_run. unfold give at 1. rewrite bind_run, E. cbn [mret prog_ret fst snd]. destruct Hc as [[-> ->]|(-> & Hn & Hnone)].
  - cbn [Z.eqb]. rewrite firstn_all in U'. unfold u64. rewrite Z.mod_small by lia.
    destruct (IH (va + Z.of_nat (length c)) (tot + Z.of_nat (length c)) u' _ U') as (r2 & va2 & u2 & n2 & E2 & U2 & HC2); [lia|lia|].
    exists r2, va2, u2, (length c + n2)%nat. split; [done|]. split.
    { rewrite firstn_app_2, ustore_app. done. }
    destruct HC2 as [(-> & -> & Hm2)|[-> Hm2]]; [left|right].
    + split_and!; [lia|done|]. intros p Hp. destruct (decide (p < va + Z.of_nat (length c))); [by apply Hm; lia|].
      specialize (Hm2 p ltac:(lia)). by rewrite ustore_out in Hm2 by lia.
    + split; [done|]. intros H. apply Hm2. intros p Hp. rewrite ustore_out by lia. apply H. lia.
  - exists (-1), (u64 (va + Z.of_nat (length c))), u', n. split; [done|]. split; [rewrite take_app_le by lia; done|].
    right. split; [done|]. intros H. apply (H (va + Z.of_nat n)); [lia|done].
Qed.
End read.
End FsFile.
