(* ===== verification/FsWrite.v ===== *)
(** * Writing to a file

    [writei] puts the given bytes at an offset, allocates the blocks they need
    and updates the inode on disk; all other files are as before. *)

From S2P Require Import Prelude Bytes BufCache Journal UserMem Fs FsBlocks FsMap FsFile.
Import Bytes Journal UserMem Fs FsBlocks FsMap FsFile.
Import BufCache (block, BSIZE, ROOTDEV, zero_blk, NBUF).

Module FsWrite.

(** The bytes [data] replace those of [f] from [off] on. *)
Definition overlay (f : Z → Z) (off : Z) (data : list Z) (o : Z) : Z :=
  if bool_decide (off ≤ o < off + Z.of_nat (length data)) then data !!! Z.to_nat (o - off) else f o.

Lemma overlay_nil f off o : overlay f off [] o = f o.
Proof. unfold overlay. rewrite bool_decide_false; [done|]. cbn. lia. Qed.
Lemma overlay_app f off d1 d2 o : overlay (overlay f off d1) (off + Z.of_nat (length d1)) d2 o = overlay f off (d1 ++ d2) o.
Proof.
  unfold overlay. rewrite length_app. repeat case_bool_decide; try lia.
  - rewrite lookup_total_app_r by lia. f_equal. lia.
  - rewrite lookup_total_app_l by lia. done.
Qed.
Lemma overlay_ext f g off d o : f o = g o → overlay f off d o = overlay g off d o.
Proof. intros H. unfold overlay. by case_bool_decide. Qed.

(** From [a] and the pointers [l] to [a'] and [l'], the bytes [data] were
    written at [off], and nothing else happened. *)
Record wrote_at (sb : superblock) (a : jabs) (l : list Z) (a' : jabs) (l' : list Z) (off : Z) (data : list Z) : Prop := {
  wa_wf : inode_wf sb a' l';
  wa_layout : layout sb a';
  wa_byte o : 0 ≤ o < MAXFILE * BS → byte (j_view a') l' o = overlay (byte (j_view a) l) off data o;
  wa_there o : off ≤ o < off + Z.of_nat (length data) → ptr (j_view a') l' (o `div` BS) ≠ 0;
  wa_keep t : 0 ≤ t ≤ MAXFILE → ptr (j_view a) l t ≠ 0 → ptr (j_view a') l' t = ptr (j_view a) l t;
  wa_fresh t : 0 ≤ t ≤ MAXFILE → ptr (j_view a) l t = 0 → ptr (j_view a') l' t ≠ 0 →
    0 ≤ ptr (j_view a') l' t < size sb ∧ used_blk sb (j_view a) (ptr (j_view a') l' t) = false;
  wa_used c : 0 ≤ c < size sb → used_blk sb (j_view a) c = true → used_blk sb (j_view a') c = true;
  wa_other m : 0 ≤ m < size sb → used_blk sb (j_view a) m = true → (∀ t, 0 ≤ t ≤ MAXFILE → ptr (j_view a) l t ≠ 0 → m ≠ ptr (j_view a) l t) →
    (∀ c, 0 ≤ c < size sb → m ≠ BBLOCK c sb) → j_view a' m = j_view a m;
  wa_held : j_held a' = j_held a;
  wa_cap : j_cap a' = j_cap a;
  wa_log : j_log a' = j_log a;
  wa_disk : j_disk a' = j_disk a;
  wa_more : logged a ⊆ logged a' }.

Lemma byte_contents v l v' l' o : contents v' l' (o `div` BS) = contents v l (o `div` BS) → byte v' l' o = byte v l o.
Proof. intros H. unfold byte. by rewrite H. Qed.
Lemma off_slot o : 0 ≤ o < MAXFILE * BS → 0 ≤ o `div` BS < MAXFILE.
Proof. intros H. split; [apply Z.div_pos; [lia|done]|]. apply Z.div_lt_upper_bound; [done|lia]. Qed.

(** Allocation changes no byte. *)
Lemma wrote_grown sb a l a' l' N off : grown sb a l a' l' N → wrote_at sb a l a' l' off [].
Proof.
  intros []. constructor; try done.
  - intros o Ho. rewrite overlay_nil. apply byte_contents, gr_file0. by apply off_slot.
  - cbn. lia.
  - intros m Hm Hu Hp Hb. apply gr_data0; try done. intros Hi ->. by apply (Hp MAXFILE); [fs_lia|..].
Qed.
Lemma wrote_at_refl sb a l off : inode_wf sb a l → layout sb a → wrote_at sb a l a l off [].
Proof. intros W L. by apply (wrote_grown _ _ _ _ _ ∅), grown_refl. Qed.
Lemma wrote_at_trans sb a l b k c q off d1 d2 : wrote_at sb a l b k off d1 → wrote_at sb b k c q (off + Z.of_nat (length d1)) d2 → 0 ≤ off →
  off + Z.of_nat (length d1 + length d2) ≤ MAXFILE * BS →
  wrote_at sb a l c q off (d1 ++ d2).
Proof.
  intros A B Ho Hmax. constructor; [apply (wa_wf _ _ _ _ _ _ _ B)|apply (wa_layout _ _ _ _ _ _ _ B)|..].
  - intros o Hr. rewrite (wa_byte _ _ _ _ _ _ _ B o Hr), <- overlay_app. apply overlay_ext, (wa_byte _ _ _ _ _ _ _ A o Hr).
  - intros o. rewrite length_app. intros Hr. destruct (decide (o < off + Z.of_nat (length d1))) as [Hlt|Hge].
    + pose proof (wa_there _ _ _ _ _ _ _ A o ltac:(lia)) as H1. pose proof (off_slot o ltac:(lia)). rewrite (wa_keep _ _ _ _ _ _ _ B) by (done || lia). done.
    + apply (wa_there _ _ _ _ _ _ _ B o). lia.
  - intros t Ht Hne. pose proof (wa_keep _ _ _ _ _ _ _ A t Ht Hne) as E. rewrite (wa_keep _ _ _ _ _ _ _ B t Ht); congruence.
  - intros t Ht Ha Hc. destruct (decide (ptr (j_view b) k t = 0)) as [Hb|Hb].
    + destruct (wa_fresh _ _ _ _ _ _ _ B t Ht Hb Hc) as [Hr Hf]. split; [done|].
      destruct (used_blk sb (j_view a) _) eqn:E; [|done]. pose proof (wa_used _ _ _ _ _ _ _ A _ Hr E). congruence.
    + rewrite (wa_keep _ _ _ _ _ _ _ B t Ht Hb). by apply (wa_fresh _ _ _ _ _ _ _ A t).
  - intros x Hx Hu. apply (wa_used _ _ _ _ _ _ _ B x Hx), (wa_used _ _ _ _ _ _ _ A x Hx Hu).
  - intros m Hm Hu Hp Hb. rewrite (wa_other _ _ _ _ _ _ _ B m Hm); [by apply (wa_other _ _ _ _ _ _ _ A m)|by apply (wa_used _ _ _ _ _ _ _ A)| |done].
    intros t Ht Hne E. destruct (decide (ptr (j_view a) l t = 0)) as [Ha|Ha].
    + destruct (wa_fresh _ _ _ _ _ _ _ A t Ht Ha Hne) as [_ Hf]. congruence.
    + apply (Hp t Ht Ha). rewrite E. by apply (wa_keep _ _ _ _ _ _ _ A).
  - by rewrite (wa_held _ _ _ _ _ _ _ B), (wa_held _ _ _ _ _ _ _ A).
  - by rewrite (wa_cap _ _ _ _ _ _ _ B), (wa_cap _ _ _ _ _ _ _ A).
  - by rewrite (wa_log _ _ _ _ _ _ _ B), (wa_log _ _ _ _ _ _ _ A).
  - by rewrite (wa_disk _ _ _ _ _ _ _ B), (wa_disk _ _ _ _ _ _ _ A).
  - etrans; [apply (wa_more _ _ _ _ _ _ _ A)|apply (wa_more _ _ _ _ _ _ _ B)].
Qed.

(** A block of the file gets other contents. *)
Definition splice (d : block) (o : nat) (c : list Z) : block := take o d ++ c ++ drop (o + length c) d.
Lemma splice_length d o c : (o + length c ≤ length d)%nat → length (splice d o c) = length d.
Proof. intros H. unfold splice. rewrite !length_app, length_take, length_drop. lia. Qed.
Lemma splice_lookup d o c i : (o + length c ≤ length d)%nat → (i < length d)%nat →
  splice d o c !!! i = if bool_decide (o ≤ i < o + length c)%nat then c !!! (i - o)%nat else d !!! i.
Proof.
  intros H Hi. unfold splice. case_bool_decide.
  - rewrite lookup_total_app_r by (rewrite length_take; lia). rewrite length_take, Nat.min_l by lia. by rewrite lookup_total_app_l by lia.
  - destruct (decide (i < o)%nat).
    + rewrite lookup_total_app_l by (rewrite length_take; lia). by rewrite lookup_total_take_lt.
    + rewrite lookup_total_app_r by (rewrite length_take; lia). rewrite length_take, Nat.min_l by lia.
      rewrite lookup_total_app_r by lia. rewrite lookup_total_drop. f_equal. lia.
Qed.

Lemma write_block sb a a' l off c : inode_wf sb a l → layout sb a → (∀ n, length (j_view a n) = BSIZE) →
  0 ≤ off < MAXFILE * BS → (0 < length c)%nat → Z.of_nat (length c) ≤ BS - off `mod` BS →
  let r := ptr (j_view a) l (off `div` BS) in r ≠ 0 →
  wrote a a' (<[r := splice (j_view a r) (Z.to_nat (off `mod` BS)) c]> (j_view a)) {[r]} →
  wrote_at sb a l a' l off c.
Proof.
  intros W L HS Ho Hc0 Hc r Hr [V Wh Wc Wl Wd Wg]. pose proof (off_slot off Ho) as Hsl. pose proof (Z.mod_pos_bound off BS ltac:(done)) as Hmod.
  destruct (iw_range _ _ _ W (off `div` BS) ltac:(lia) Hr) as (R1 & R2 & R3 & R4). fold r in R1, R2, R3, R4.
  assert (r ≠ ind l) as Hri.
  { intros E. rewrite <- (ptr_ind (j_view a) l) in E. pose proof (iw_inj _ _ _ W (off `div` BS) MAXFILE ltac:(lia) ltac:(fs_lia) Hr E). lia. }
  assert (∀ t, ptr (j_view a') l t = ptr (j_view a) l t) as HP.
  { intros t. apply ptr_ext. intros _. rewrite V. by apply fn_lookup_insert_ne. }
  assert (∀ x, 0 ≤ x < size sb → used_blk sb (j_view a') x = used_blk sb (j_view a) x) as HU.
  { intros x Hx. unfold used_blk. rewrite V, fn_lookup_insert_ne; [done|]. by apply R4. }
  assert (∀ t, 0 ≤ t ≤ MAXFILE → t ≠ off `div` BS → contents (j_view a') l t = contents (j_view a) l t) as HC.
  { intros t Ht Hne. unfold contents. rewrite HP. destruct (Z.eqb_spec (ptr (j_view a) l t) 0) as [|Hp]; [done|].
    rewrite V. apply fn_lookup_insert_ne. intros E. apply Hne. symmetry. apply (iw_inj _ _ _ W); [lia|lia|done|done]. }
  constructor; try done.
  - destruct W. constructor; [done|..].
    + intros t Ht. rewrite HP, Wl. intros Hne. destruct (iw_range0 t Ht Hne) as (? & ? & ? & ?). rewrite HU by lia. done.
    + intros t1 t2. rewrite !HP. apply iw_inj0.
  - eapply layout_used; [done|done|]. intros x Hx. by rewrite HU.
  - intros o Hor. unfold overlay. destruct (decide (o `div` BS = off `div` BS)) as [Eo|Hne].
    + unfold byte. rewrite Eo. unfold contents. rewrite HP. fold r. rewrite (proj2 (Z.eqb_neq r 0) Hr), V, fn_lookup_insert.
      pose proof (Z.mod_pos_bound o BS ltac:(done)). rewrite splice_lookup by (rewrite HS; unfold BSIZE in *; lia).
      assert (o - off = o `mod` BS - off `mod` BS) as Ed by (pose proof (Z.div_mod o BS ltac:(done)); pose proof (Z.div_mod off BS ltac:(done)); rewrite Eo in *; lia).
      destruct (decide (off ≤ o < off + Z.of_nat (length c))).
      * rewrite !bool_decide_true by (unfold BSIZE in *; lia). f_equal. lia.
      * rewrite !bool_decide_false by (unfold BSIZE in *; lia). done.
    + rewrite bool_decide_false.
      * apply byte_contents, HC; [pose proof (off_slot o Hor); lia|done].
      * intros Hin. apply Hne. destruct (off_in off (o - off)) as [E _]; [lia|lia|]. rewrite <- E. f_equal. lia.
  - intros o Hin. rewrite HP. destruct (off_in off (o - off)) as [E _]; [lia|lia|]. replace (off + (o - off)) with o in E by lia. by rewrite E.
  - intros t Ht E. rewrite HP. congruence.
  - intros x Hx. by rewrite HU.
  - intros m Hm Hu Hp Hb. rewrite V. apply fn_lookup_insert_ne. intros <-. by apply (Hp (off `div` BS)); [lia|..].
  - rewrite Wg. set_solver.
Qed.

(** ** The loop *)

(** The number of blocks that a range of [n] bytes at [off] touches. *)
Definition span (off n : Z) : Z := if n <=? 0 then 0 else (off + n - 1) `div` BS - off `div` BS + 1.
Lemma span_step off n : 0 ≤ off → 0 < n → let m := Z.min n (BS - off `mod` BS) in span off n = 1 + span (off + m) (n - m).
Proof.
  intros Ho Hn m. pose proof (Z.mod_pos_bound off BS ltac:(done)) as Hmod. unfold span. rewrite (proj2 (Z.leb_gt n 0)) by lia.
  destruct (Z.leb_spec (n - m) 0) as [Hle|Hgt].
  - destruct (off_in off (n - 1)) as [E _]; [done|lia|]. replace (off + n - 1) with (off + (n - 1)) by lia. rewrite E. lia.
  - assert (m = BS - off `mod` BS) as Em by lia. assert (off + m = (off `div` BS + 1) * BS) as E.
    { rewrite Em. pose proof (Z.div_mod off BS ltac:(done)). lia. }
    rewrite E, Z.div_mul by done. replace ((off `div` BS + 1) * BS + (n - m) - 1) with (off + n - 1) by lia. lia.
Qed.
Lemma span_nonneg off n : 0 ≤ off → 0 ≤ span off n.
Proof. intros Ho. unfold span. case_z; [done|]. pose proof (Z.div_le_mono off (off + n - 1) BS ltac:(done) ltac:(lia)). lia. Qed.
(** At most one block more than the bytes fill. *)
Lemma span_le off n k : 0 ≤ off → n ≤ k * BS → 0 ≤ k → span off n ≤ k + 1.
Proof.
  intros Ho Hn Hk. unfold span. case_z; [lia|]. assert ((off + n - 1) `div` BS ≤ off `div` BS + k); [|lia].
  rewrite <- (Z.div_add off k BS) by done. apply Z.div_le_mono; [done|lia].
Qed.

Section write.
Context {S M : Type} `{JN : Journaled S} `{UM : UserMemory M}.
#[local] Abbreviation fst_ := (@fst_ S M).

(** The source has the bytes [data]. *)
Definition gives (src : place) (data : list Z) (u : M) : Prop :=
  match src with
  | Kernel k => data `prefix_of` k
  | User va => 0 ≤ va ∧ va + Z.of_nat (length data) < 2 ^ 64 ∧
      ∃ mem, uinv u mem ∧ ∀ i x, data !! i = Some x → mem (va + Z.of_nat i) = Some x
  end.
(** One piece is fetched. *)
Definition pull (src : place) (m : Z) : prog fst_ ((Z * list Z) * place) :=
  match src with
  | User va => r ← on_user (copyin va m); mret (r, User (u64 (va + m)))
  | Kernel k => mret ((0, take (Z.to_nat m) k), Kernel (drop (Z.to_nat m) k))
  end.
Definition advance (src : place) (m : Z) : place :=
  match src with User va => User (u64 (va + m)) | Kernel k => Kernel (drop (Z.to_nat m) k) end.
Lemma pull_ok u src data m : gives src data u → 0 ≤ m ≤ Z.of_nat (length data) →
  (∀ s, um s = u → pull src m s = Ok (((0, take (Z.to_nat m) data), advance src m), s)) ∧ gives (advance src m) (drop (Z.to_nat m) data) u.
Proof.
  intros G Hm. destruct src as [va|k]; unfold gives, pull in *.
  - destruct G as (Hva & Hmax & mem & U & HD). destruct (copyin_ok u mem va m U Hva) as (r & l & E & Hl & Hc); [lia|lia|].
    assert (r = 0 ∧ l = take (Z.to_nat m) data) as [-> ->].
    { destruct Hc as [[-> HL]|(-> & HL & Hnone)].
      - split; [done|]. apply list_eq_same_length with (Z.to_nat m); [rewrite length_take; lia|lia|].
        intros i x y Hi H1 H2. rewrite lookup_take_lt in H2 by done. apply Hl in H1. apply HD in H2. congruence.
      - exfalso. destruct (lookup_lt_is_Some_2 data (length l)) as [x Hx]; [lia|]. apply HD in Hx. congruence. }
    cbn [advance]. split; [intros s <-; unfold mbind, prog_bind, on_user; rewrite E; by destruct s|].
    unfold u64. rewrite Z.mod_small by lia. rewrite length_drop. split_and!; [lia|lia|]. exists mem. split; [done|].
    intros i x. rewrite lookup_drop. intros Hx%HD. rewrite <- Hx. f_equal. lia.
  - cbn [advance]. destruct G as [q ->]. rewrite take_app_le by lia. split; [done|].
    exists q. by rewrite drop_app_le by lia.
Qed.

(** The source has, of the [n] bytes wanted for the offset [off], the bytes
    [data]: all of them; or it is in user memory, the byte after them is not
    accessible, and it would be the first of the bytes or of a block. *)
Definition supplies (src : place) (data : list Z) (n off : Z) (u : M) : Prop :=
  gives src data u ∧
  (Z.of_nat (length data) = n ∨
   Z.of_nat (length data) < n ∧ (data = [] ∨ (off + Z.of_nat (length data)) `mod` BS = 0) ∧
   ∃ va mem, src = User va ∧ va + n < 2 ^ 64 ∧ uinv u mem ∧ mem (va + Z.of_nat (length data)) = None).
Lemma gives_supplies src data off u : gives src data u → supplies src data (Z.of_nat (length data)) off u.
Proof. intros G. split; [done|by left]. Qed.

Lemma pull_none u src off n m : supplies src [] n off u → 0 < m ≤ n →
  ∀ s, um s = u → pull src m s = Ok (((-1, []), advance src m), s).
Proof.
  intros [G [Hn|(_ & _ & va & mem & -> & Hmax & U & Hno)]] Hm; [cbn in Hn; lia|]. cbn [length] in Hno. rewrite Z.add_0_r in Hno.
  destruct G as (Hva & _). unfold pull. destruct (copyin_ok u mem va m U Hva) as (r & l & E & Hl & Hc); [lia|lia|].
  assert (l = []) as ->.
  { destruct l as [|c l]; [done|]. specialize (Hl O c eq_refl). rewrite Z.add_0_r in Hl. congruence. }
  destruct Hc as [[_ Hc]|(-> & _)]; [cbn in Hc; lia|].
  intros s <-. unfold mbind, prog_bind, on_user. rewrite E. by destruct s.
Qed.
(** The next piece: it is there, or nothing more is. *)
Lemma pull_some u src data n off m : supplies src data n off u → 0 ≤ off → 0 < n → m = Z.min n (BS - off `mod` BS) →
  (data = [] ∧ ∀ s, um s = u → pull src m s = Ok (((-1, []), advance src m), s)) ∨
  m ≤ Z.of_nat (length data) ∧ (∀ s, um s = u → pull src m s = Ok (((0, take (Z.to_nat m) data), advance src m), s)) ∧
    supplies (advance src m) (drop (Z.to_nat m) data) (n - m) (off + m) u.
Proof.
  intros GS Ho Hn Em. pose proof (Z.mod_pos_bound off BS ltac:(done)) as Hmod.
  destruct (decide (m ≤ Z.of_nat (length data))) as [Hm|Hm].
  - right. split; [done|]. destruct GS as [G GS]. destruct (pull_ok u src data m G) as [Ep G']; [lia|]. split; [done|].
    split; [done|]. rewrite length_drop. destruct GS as [GS|(GS & Hb & va & mem & -> & Hmax & U & Hno)]; [left; lia|right].
    split; [lia|]. split.
    + destruct Hb as [->|Hb]; [cbn in Hm; lia|]. right. rewrite <- Hb. f_equal. lia.
    + destruct G as (Hva & _). exists (va + m), mem. split_and!; [|lia|done|].
      * cbn. by rewrite u64_small by lia.
      * rewrite <- Hno. f_equal. lia.
  - left. assert (data = []) as ->.
    { destruct GS as [_ [GS|(_ & Hb & _)]]; [lia|]. destruct Hb as [Hb|Hb]; [done|]. apply length_zero_iff_nil.
      pose proof (Z.div_mod off BS ltac:(done)) as Hdm.
      rewrite <- Z.add_mod_idemp_l, Z.mod_small in Hb by (done || lia). lia. }
    split; [done|]. apply (pull_none u src off n); [done|lia].
Qed.

(** The room the loop needs: one block for each that it touches, one for the
    indirect block, and two to spare. *)
Definition need (l : list Z) (k : Z) : Z := k + (if ind l =? 0 then 3 else 2).

Lemma mapped_room sb R a l a' l' b bn r k : mapped sb (R ∪ nz (ind l)) a l a' l' bn r →
  logged b ⊆ logged a' ∪ nz r → j_cap b = j_cap a' → j_held b = j_held a' →
  room sb (R ∪ nz (ind l)) a (need l k) → room sb (R ∪ nz (ind l')) b (need l' (k - 1)).
Proof.
  intros [G _] HLb Hcb Hhb [H0 H1 H2]. unfold need in *.
  assert (logged b ⊆ logged a ∪ (R ∪ nz (ind l) ∪ nz (ind l') ∪ nz r)) as HL by (pose proof (gr_logged _ _ _ _ _ _ G) as HL; clear -HL HLb; set_solver).
  enough (charge (R ∪ nz (ind l')) b + (k - 1 + (if ind l' =? 0 then 3 else 2)) ≤ charge (R ∪ nz (ind l)) a + (k + (if ind l =? 0 then 3 else 2)) ∧ nz (ind l) ⊆ nz (ind l')) as [Hc Hs].
  { constructor; [intros c Hc'; specialize (H0 c Hc'); clear -H0 Hs; set_solver|rewrite Hcb, (gr_cap _ _ _ _ _ _ G); lia|rewrite Hhb, (gr_held _ _ _ _ _ _ G); lia]. }
  destruct (Z.eqb_spec (ind l) 0) as [E|E].
  - pose proof (charge_mono (R ∪ nz (ind l')) a b _ HL) as Hm. rewrite E in *. change (nz 0) with (∅ : gset Z) in *. split; [|set_solver].
    pose proof (charge_split (R ∪ ∅) (nz (ind l') ∪ nz r) a) as Hs.
    assert (R ∪ nz (ind l') ∪ (R ∪ ∅ ∪ nz (ind l') ∪ nz r) = R ∪ ∅ ∪ (nz (ind l') ∪ nz r)) as Es by (clear; set_solver). rewrite Es in Hm.
    pose proof (size_union_le (nz (ind l')) (nz r)). pose proof (nz_size r).
    assert (Z.of_nat (base.size (nz (ind l'))) = if ind l' =? 0 then 0 else 1) as En by (unfold nz; case_z; [by rewrite size_empty|by rewrite size_singleton]).
    case_z; lia.
  - pose proof (gr_keep _ _ _ _ _ _ G MAXFILE ltac:(fs_lia) E) as El. rewrite !ptr_ind in El. rewrite El in *. split; [|done].
    rewrite (proj2 (Z.eqb_neq _ 0) E). enough (charge (R ∪ nz (ind l)) b ≤ charge (R ∪ nz (ind l)) a + 1) by lia.
    apply (charge_in _ a b (nz r)); [|apply nz_size]. clear -HL. set_solver.
Qed.

(** One turn of the loop: the block is there, or the disk is full. *)
Lemma write_turn (s : fst_) R a i x off c : jinv (jn s) a → layout (sb s) a → j_held a = [] → used_blk (sb s) (j_view a) 0 = true →
  inodes s !! i = Some x → dev x = ROOTDEV → inode_wf (sb s) a (addrs x) → 0 ≤ off < MAXFILE * BS → (0 < length c)%nat →
  Z.of_nat (length c) ≤ BS - off `mod` BS → ∀ k, 1 ≤ k → room (sb s) (R ∪ nz (ind (addrs x))) a (need (addrs x) k) →
  ∃ r j a' l', bmap i (off `div` BS) s = Ok (r, with_jn j (with_inode i (set_addrs l' x) s)) ∧ jinv j a' ∧
    room (sb s) (R ∪ nz (ind l')) a' (need l' (k - 1)) ∧ wrote_at (sb s) a (addrs x) a' l' off [] ∧
    if r =? 0 then ∀ c, 0 ≤ c < size (sb s) → used_blk (sb s) (j_view a') c = true
    else ∃ j2 b, jinv j2 b ∧ wrote_at (sb s) a (addrs x) b l' off c ∧ room (sb s) (R ∪ nz (ind l')) b (need l' (k - 1)) ∧
      r ∉ (j_held a').*1 ∧ j_room a' ∧ ∀ A (s' : fst_) (g : block → prog fst_ A), jn s' = j →
        (bp ← on_log (bread ROOTDEV r); d ← on_log (bdata bp);
         on_log (bset bp (splice d (Z.to_nat (off `mod` BS)) c));; on_log (log_write bp);; on_log (brelse bp);; g d) s' =
        g (j_view a' r) (with_jn j2 s').
Proof.
  intros I L Hh H0 Hx Hdev W Ho Hc0 Hc k Hk HR. pose proof (off_slot off Ho) as Hsl. pose proof (Z.mod_pos_bound off BS ltac:(done)) as Hmod.
  destruct (bmap_ok s (R ∪ nz (ind (addrs x))) a i x (off `div` BS) I L Hh) as (r & j & a' & l' & E & I' & HM); try done.
  { eapply room_mono; [done|]. unfold need. case_z; lia. }
  exists r, j, a', l'. split; [done|]. split; [done|]. split; [eapply mapped_room; [done|set_solver|done|done|done]|].
  pose proof HM as [G HC]. split; [by eapply wrote_grown|]. destruct (Z.eqb_spec r 0) as [->|Hr]; [done|].
  destruct (iw_range _ _ _ (gr_wf _ _ _ _ _ _ G) (off `div` BS) ltac:(lia) ltac:(congruence)) as (R1 & R2 & R3 & R4). rewrite HC in R1, R2, R3, R4.
  pose proof (mapped_room _ _ _ _ _ _ a' _ _ _ HM ltac:(set_solver) eq_refl eq_refl HR) as HR'.
  assert (slot a') as Hslot by (eapply room_slot; [exact HR'|by eapply jinv_nodup|unfold need; case_z; lia]).
  assert (r ∉ (j_held a').*1) as Hnh by (rewrite (gr_held _ _ _ _ _ _ G), Hh; apply not_elem_of_nil).
  destruct (update_block (M := M) j a' r (λ d, splice d (Z.to_nat (off `mod` BS)) c) I' Hnh Hslot) as (j2 & b & Ib & Wb & E2).
  { split; [|by rewrite (gr_log _ _ _ _ _ _ G) in *]. destruct L; lia. }
  { rewrite splice_length; rewrite (jinv_size _ _ I'); [done|]. unfold BSIZE in *. lia. }
  exists j2, b. split; [done|]. split; [|split].
  - apply (wrote_at_trans _ _ _ a' l' _ _ off [] c); [by eapply wrote_grown| |lia|cbn; pose proof (Z.div_mod off BS ltac:(done)); nia].
    rewrite Z.add_0_r. eapply write_block; rewrite ?HC; try done; [apply (gr_wf _ _ _ _ _ _ G)|apply (gr_layout _ _ _ _ _ _ G)|by eapply jinv_size].
  - eapply mapped_room; [exact HM| |apply Wb|apply Wb|exact HR]. rewrite (wr_logged _ _ _ _ Wb). unfold nz. rewrite (proj2 (Z.eqb_neq r 0) Hr). done.
  - split; [done|]. split; [apply Hslot|]. exact E2.
Qed.

Lemma with_inode_twice (s : fst_) i y z : with_inode i z (with_inode i y s) = with_inode i z s.
Proof. unfold with_inode. cbn. by rewrite list_insert_insert_eq. Qed.
Lemma with_inode_lookup (s : fst_) i x y : inodes s !! i = Some x → inodes (with_inode i y s) !! i = Some y.
Proof. intros H. cbn. apply list_lookup_insert_eq. by eapply lookup_lt_Some. Qed.

(** A block is read, its contents are stored again and it is released. *)
Lemma touch_block {A} (s : fst_) a n src m (f : (Z * list Z) * place → block → block) (g : prog fst_ A) (h : nat → (Z * list Z) * place → prog fst_ A) : jinv (jn s) a → n ∉ (j_held a).*1 → j_room a →
  (∀ s', um s' = um s → pull src m s' = Ok (((-1, []), advance src m), s')) → f ((-1, []), advance src m) (j_view a n) = j_view a n →
  ∃ j, jinv j a ∧
    (bp ← on_log (bread ROOTDEV n); d ← on_log (bdata bp); r ← pull src m; on_log (bset bp (f r d));;
     if fst (fst r) =? -1 then on_log (brelse bp);; g else h bp r) s = g (with_jn j s).
Proof.
  intros I Hn Hr Hp Hf. destruct (bread_ok (jn s) a n I Hn Hr) as (b & j1 & E1 & I1).
  pose proof (bdata_ok j1 _ n b (j_held a) I1 eq_refl) as E2. cbn in E2.
  destruct (bset_ok j1 _ n b (j_held a) (j_view a n) I1 eq_refl ltac:(by eapply (jinv_size _ _ I))) as (j3 & E3 & I3).
  destruct (brelse_ok j3 _ n b (j_held a) I3 eq_refl) as (j5 & E5 & I5).
  { cbn. rewrite fn_lookup_insert. destruct (decide (n ∈ j_dirty a)); [by left|right]. by eapply (jinv_clean _ _ n I). }
  exists j5. split.
  - destruct a as [v dk di he ca lo]. apply (jinv_ext _ _ v I5). intros q. cbn. destruct (decide (q = n)) as [->|]; [by rewrite fn_lookup_insert|].
    by rewrite fn_lookup_insert_ne.
  - rewrite (bind_Ok _ _ _ _ _ (on_log_ok _ s b j1 E1)), (bind_Ok _ _ _ _ _ (on_log_ok _ (with_jn j1 s) _ j1 E2)).
    rewrite (bind_Ok _ _ _ _ _ (Hp (with_jn j1 s) eq_refl)), Hf. cbn [fst snd]. rewrite Z.eqb_refl.
    rewrite (bind_Ok _ _ _ _ _ (on_log_ok _ (with_jn j1 s) _ j3 E3)).
    by rewrite (bind_Ok _ _ _ _ _ (on_log_ok _ (with_jn j3 s) _ j5 E5)).
Qed.

Lemma writei_loop_ok fuel : ∀ (s : fst_) R a i x src data off n tot, jinv (jn s) a → layout (sb s) a → j_held a = [] →
  used_blk (sb s) (j_view a) 0 = true → inodes s !! i = Some x → dev x = ROOTDEV → inode_wf (sb s) a (addrs x) →
  supplies src data (n - tot) off (um s) → 0 ≤ tot ≤ n → n < 2 ^ 32 → 0 ≤ off → off + (n - tot) ≤ MAXFILE * BS →
  n - tot ≤ Z.of_nat fuel → room (sb s) (R ∪ nz (ind (addrs x))) a (need (addrs x) (span off (n - tot))) →
  ∃ m j a' l', writei_loop fuel i src off n tot s = Ok ((tot + m, off + m), with_jn j (with_inode i (set_addrs l' x) s)) ∧
    0 ≤ m ≤ Z.of_nat (length data) ∧ jinv j a' ∧ wrote_at (sb s) a (addrs x) a' l' off (take (Z.to_nat m) data) ∧
    room (sb s) (R ∪ nz (ind l')) a' 2 ∧
    (m < Z.of_nat (length data) → (m = 0 ∨ (off + m) `mod` BS = 0) ∧ ∀ c, 0 ≤ c < size (sb s) → used_blk (sb s) (j_view a') c = true).
Proof.
  induction fuel as [|fuel IH]; intros s R a i x src data off n tot I L Hh H0 Hx Hdev W G Ht Hn Ho Hmax Hf HR; cbn [writei_loop].
  all: assert (Z.of_nat (length data) ≤ n - tot) as HD by (destruct G as [_ [G|(G & _)]]; lia).
  all: assert (n ≤ tot → ∃ m j a' l', Ok ((tot, off), s) = Ok ((tot + m, off + m), with_jn j (with_inode i (set_addrs l' x) s)) ∧
    0 ≤ m ≤ Z.of_nat (length data) ∧ jinv j a' ∧ wrote_at (sb s) a (addrs x) a' l' off (take (Z.to_nat m) data) ∧
    room (sb s) (R ∪ nz (ind l')) a' 2 ∧
    (m < Z.of_nat (length data) → (m = 0 ∨ (off + m) `mod` BS = 0) ∧ ∀ c, 0 ≤ c < size (sb s) → used_blk (sb s) (j_view a') c = true)) as Hend.
  1, 3: intros Hle; exists 0, (jn s), a, (addrs x); rewrite with_inode_id, with_jn_id, !Z.add_0_r by done; split_and!; [done|lia|lia|done| | |lia];
    [change (take (Z.to_nat 0) data) with ([] : list Z); by apply wrote_at_refl|
     eapply room_mono; [exact HR|]; unfold need; pose proof (span_nonneg off (n - tot) Ho); case_z; lia].
  { rewrite (proj2 (Z.ltb_ge tot n)) by lia. apply Hend. lia. }
  destruct (Z.ltb_spec tot n) as [Hlt|Hge]; [|by apply Hend]. clear Hend.
  pose proof (chunk_pos off (n - tot) ltac:(lia)) as Hm. pose proof (span_step off (n - tot) Ho ltac:(lia)) as Hsp. cbv zeta in Hsp.
  set (m := Z.min (n - tot) (BS - off `mod` BS)) in *. pose proof (span_nonneg (off + m) (n - tot - m) ltac:(lia)) as Hsn.
  rewrite (bind_Ok _ _ _ _ _ (get_inode_ok s i x Hx)).
  pose proof (pull_some (um s) src data (n - tot) off m G Ho ltac:(lia) eq_refl) as Hpull.
  (* the piece, or any piece of this size when there is none *)
  set (c := if decide (m ≤ Z.of_nat (length data)) then take (Z.to_nat m) data else replicate (Z.to_nat m) 0).
  assert (Z.of_nat (length c) = m) as Hc by (unfold c; case_decide; [rewrite length_take; lia|rewrite length_replicate; lia]).
  destruct (write_turn s R a i x off c I L Hh H0 Hx Hdev W ltac:(lia) ltac:(lia) ltac:(lia) (span off (n - tot)) ltac:(lia) HR) as (r & j & a1 & l1 & E1 & I1 & HR1 & HW1 & HC).
  assert (room (sb s) (R ∪ nz (ind l1)) a1 2) as HR2 by (eapply room_mono; [exact HR1|]; unfold need; rewrite Hsp; case_z; lia).
  rewrite (bind_Ok _ _ _ _ _ E1). destruct (Z.eqb_spec r 0) as [->|Hr].
  { exists 0, j, a1, l1. rewrite !Z.add_0_r. split_and!; [done|lia|lia|done|done|done|intros _; split; [by left|done]]. }
  destruct HC as (j2 & b & Ib & HW & HRb & Hnh & Hjr & E2). rewrite Hdev.
  set (s1 := with_jn j (with_inode i (set_addrs l1 x) s)) in *.
  destruct Hpull as [[-> Ep]|(Hmd & Ep & G')].
  { set (o := Z.to_nat (off `mod` BS)).
    destruct (touch_block s1 a1 r src m (λ p d, take o d ++ snd (fst p) ++ drop (o + length (snd (fst p))) d) (mret (tot, off))
      (λ bp p, on_log (log_write bp);; on_log (brelse bp);; writei_loop fuel i (snd p) (u32 (off + m)) n (u32 (tot + m))) I1 Hnh Hjr)
      as (j3 & I3 & E3); [done|cbn; rewrite Nat.add_0_r; apply take_drop|].
    exists 0, j3, a1, l1. rewrite !Z.add_0_r. split_and!; [exact E3|lia|cbn; lia|done|done|done|cbn; lia]. }
  assert (c = take (Z.to_nat m) data) as Ec by (unfold c; by rewrite decide_True).
  assert (∃ m2 j3 a3 l3, writei_loop fuel i (advance src m) (u32 (off + m)) n (u32 (tot + m)) (with_jn j2 s1) =
      Ok ((tot + m2, off + m2), with_jn j3 (with_inode i (set_addrs l3 x) s)) ∧
    0 ≤ m2 ≤ Z.of_nat (length data) ∧ jinv j3 a3 ∧ wrote_at (sb s) a (addrs x) a3 l3 off (take (Z.to_nat m2) data) ∧ room (sb s) (R ∪ nz (ind l3)) a3 2 ∧
    (m2 < Z.of_nat (length data) → (m2 = 0 ∨ (off + m2) `mod` BS = 0) ∧ ∀ c, 0 ≤ c < size (sb s) → used_blk (sb s) (j_view a3) c = true)) as (m2 & j3 & a3 & l3 & E3 & H3).
  { rewrite !u32_small by fs_lia. replace (n - tot - m) with (n - (tot + m)) in * by lia.
    destruct (IH (with_jn j2 s1) R b i (set_addrs l1 x) (advance src m) (drop (Z.to_nat m) data) (off + m) n (tot + m)) as (m2 & j3 & a3 & l3 & E3 & Hm2 & I3 & W3 & R3 & F3);
      cbn [sb jn inodes um with_jn with_inode s1 addrs dev set_addrs] in *; try done.
    - apply (wa_layout _ _ _ _ _ _ _ HW).
    - by rewrite (wa_held _ _ _ _ _ _ _ HW).
    - apply (wa_used _ _ _ _ _ _ _ HW); [destruct L; lia|done].
    - apply list_lookup_insert_eq. by eapply lookup_lt_Some.
    - apply (wa_wf _ _ _ _ _ _ _ HW).
    - lia.
    - lia.
    - lia.
    - lia.
    - eapply room_mono; [exact HRb|]. unfold need. lia.
    - rewrite length_drop in Hm2, F3. exists (m + m2), j3, a3, l3. split_and!; [|lia|lia|done| |done|].
      + etrans; [exact E3|]. rewrite !Z.add_assoc. do 2 f_equal. unfold with_jn. cbn. by rewrite list_insert_insert_eq.
      + assert (take (Z.to_nat (m + m2)) data = c ++ take (Z.to_nat m2) (drop (Z.to_nat m) data)) as ->.
        { rewrite Ec. rewrite Z2Nat.inj_add by lia. symmetry. apply take_take_drop. }
        eapply wrote_at_trans; [exact HW|by rewrite Hc|done|]. rewrite length_take, length_drop. lia.
      + intros Hlt2. destruct (F3 ltac:(lia)) as [Hs Hall]. split; [|done]. right. rewrite Z.add_assoc. destruct Hs as [->|]; [|done].
        assert (m = BS - off `mod` BS) as -> by lia. rewrite Z.add_0_r. pose proof (Z.div_mod off BS ltac:(done)).
        replace (off + (BS - off `mod` BS)) with ((off `div` BS + 1) * BS) by lia. by apply Z.mod_mul. }
  exists m2, j3, a3, l3. split; [|exact H3]. rewrite <- E3.
  rewrite <- (E2 _ s1 (λ _, writei_loop fuel i (advance src m) (u32 (off + m)) n (u32 (tot + m))) eq_refl).
  eapply (read_cong s1 a1); [done|done|done|]. intros bp j'.
  etrans; [apply (bind_Ok (pull src m) _ _ _ _ (Ep (with_jn j' s1) eq_refl))|]. cbn [fst snd Z.eqb]. by rewrite Ec.
Qed.
End write.
End FsWrite.
