(* ===== verification/FsInode.v ===== *)
(** * Inodes on disk

    The codec of [struct dinode], and [iupdate] and [ilock], which write and
    read it. *)

From S2P Require Import Prelude Bytes BufCache Journal UserMem Fs FsBlocks FsMap.
Import Bytes Journal UserMem Fs FsBlocks FsMap.
Import BufCache (block, BSIZE, ROOTDEV, zero_blk, NBUF).

Module FsInode.

(** ** The codec *)

(** The fields fit the widths of [struct dinode]. *)
Record inode_fits (i : inode) : Prop := {
  if_type : -2 ^ 15 ≤ type i < 2 ^ 15;
  if_major : -2 ^ 15 ≤ major i < 2 ^ 15;
  if_minor : -2 ^ 15 ≤ minor i < 2 ^ 15;
  if_nlink : -2 ^ 15 ≤ nlink i < 2 ^ 15;
  if_size : 0 ≤ isize i < 2 ^ 32;
  if_len : length (addrs i) = 13%nat;
  if_addrs : Forall (λ v, 0 ≤ v < 2 ^ 32) (addrs i) }.

Lemma i16_mod v : -2 ^ 15 ≤ v < 2 ^ 15 → i16 (v `mod` 256 ^ 2) = v.
Proof.
  intros H. unfold i16. change (256 ^ 2) with (2 ^ 16). rewrite Zplus_mod_idemp_l, Z.mod_small by lia. lia.
Qed.

Lemma put_addrs_length l : ∀ d o, (o + 4 * length l ≤ length d)%nat → length (put_addrs d o l) = length d.
Proof.
  induction l as [|v l IH]; intros d o H; cbn [put_addrs length] in *; [done|]. unfold put32.
  rewrite IH; rewrite length_putn; lia.
Qed.
Lemma put_addrs_ne l : ∀ d o i, (o + 4 * length l ≤ length d)%nat → (i < o ∨ o + 4 * length l ≤ i)%nat → put_addrs d o l !! i = d !! i.
Proof.
  induction l as [|v l IH]; intros d o i H Hi; cbn [put_addrs length] in *; [done|]. unfold put32.
  rewrite IH; [|rewrite length_putn; lia|lia]. apply lookup_putn_ne; lia.
Qed.
Lemma put_addrs_get l : ∀ d o j v, (o + 4 * length l ≤ length d)%nat → l !! j = Some v → get32 (put_addrs d o l) (o + 4 * j) = v `mod` 2 ^ 32.
Proof.
  induction l as [|w l IH]; intros d o j v H Hj; [by rewrite lookup_nil in Hj|]. cbn [put_addrs length] in *. unfold put32.
  destruct j as [|j]; cbn in Hj.
  - injection Hj as ->. rewrite Nat.mul_0_r, Nat.add_0_r. unfold get32.
    rewrite (getn_ext 4 _ (putn 4 d o v)); [rewrite getn_putn by lia; done|].
    intros i Hi. apply put_addrs_ne; [rewrite length_putn; lia|lia].
  - replace (o + 4 * Datatypes.S j)%nat with (o + 4 + 4 * j)%nat by lia. apply IH; [rewrite length_putn; lia|done].
Qed.

(** [dinode_put] changes the 64 bytes of its inode only. *)
Lemma dinode_put_length d o i : length (addrs i) = 13%nat → (o + 64 ≤ length d)%nat → length (dinode_put d o i) = length d.
Proof.
  intros Hl H. unfold dinode_put, put16, put32. rewrite put_addrs_length; rewrite ?Hl; repeat rewrite length_putn; lia.
Qed.
Lemma dinode_put_ne d o i j : length (addrs i) = 13%nat → (o + 64 ≤ length d)%nat → (j < o ∨ o + 64 ≤ j)%nat → dinode_put d o i !! j = d !! j.
Proof.
  intros Hl H Hj. unfold dinode_put, put16, put32. rewrite put_addrs_ne; [|rewrite Hl; repeat rewrite length_putn; lia|rewrite Hl; lia].
  repeat rewrite lookup_putn_ne by (repeat rewrite length_putn; lia). done.
Qed.

(** What is read back. *)
Lemma dinode_get_put d o i x : inode_fits i → (o + 64 ≤ length d)%nat →
  dinode_get (dinode_put d o i) o x = mkInode (dev x) (inum x) (ref x) (ilocked x) (valid x) (type i) (major i) (minor i) (nlink i) (isize i) (addrs i).
Proof.
  intros [] H. unfold dinode_get, dip_type, dinode_put.
  assert (∀ k off d', (12 ≤ length d')%nat → (o + 64 ≤ length d')%nat → (off + k ≤ o + 12)%nat →
    getn k (put_addrs d' (o + 12) (addrs i)) off = getn k d' off) as HA.
  { intros k off d' H1 H2 H3. apply getn_ext. intros j Hj. apply put_addrs_ne; rewrite if_len0; lia. }
  unfold get16, get32 at 1, put16, put32.
  rewrite !HA by (repeat rewrite length_putn; lia).
  repeat (rewrite getn_putn_ne by (repeat rewrite length_putn; lia)).
  repeat (first [rewrite getn_putn by (repeat rewrite length_putn; lia)|rewrite getn_putn_ne by (repeat rewrite length_putn; lia)]).
  change (Z.of_nat 2) with 2. rewrite !i16_mod by done. change (256 ^ Z.of_nat 4) with (2 ^ 32). rewrite (Z.mod_small (isize i)) by done.
  f_equal. apply list_eq. intros j. rewrite list_lookup_fmap. destruct (decide (j < 13)%nat) as [Hj|Hj].
  - rewrite lookup_seq_lt by done. cbn [fmap option_fmap option_map Nat.add]. unfold dip_addr. destruct (lookup_lt_is_Some_2 (addrs i) j) as [v Hv]; [lia|].
    rewrite (put_addrs_get _ _ _ _ v) by (done || rewrite if_len0; repeat rewrite length_putn; lia). rewrite Hv. f_equal.
    apply Z.mod_small. by eapply (Forall_lookup_1 _ _ j) in if_addrs0.
  - rewrite (lookup_ge_None_2 (seq 0 13)) by (rewrite length_seq; lia). by rewrite lookup_ge_None_2 by lia.
Qed.
Lemma dinode_get_ext d d' o x : (∀ j, (o ≤ j < o + 64)%nat → d !! j = d' !! j) → dinode_get d o x = dinode_get d' o x.
Proof.
  intros H. unfold dinode_get, dip_type, get16, get32. f_equal; [f_equal; apply getn_ext; intros j Hj; apply H; lia..|apply getn_ext; intros j Hj; apply H; lia|].
  apply list_fmap_ext. intros k v [-> Hk]%lookup_seq. unfold dip_addr, get32. apply getn_ext. intros j Hj. apply H. lia.
Qed.

(** [ialloc] writes an inode that has a type and nothing else. *)
Definition fresh (t : Z) : inode := mkInode 0 0 0 false false t 0 0 0 0 (replicate 13 0).
Lemma putn_snoc k d o l v : (o + length l + k ≤ length d)%nat →
  putn k (take o d ++ l ++ drop (o + length l) d) (o + length l) v = take o d ++ (l ++ le_enc k v) ++ drop (o + length (l ++ le_enc k v)) d.
Proof.
  intros H. unfold putn. rewrite !length_app, length_le_enc.
  rewrite (app_assoc (take o d) l), take_app_length' by (rewrite length_app, length_take; lia).
  rewrite <- !app_assoc. do 3 f_equal. rewrite app_assoc, drop_app_ge by (rewrite length_app, length_take; lia).
  rewrite length_app, length_take, drop_drop. f_equal. lia.
Qed.
Lemma put_addrs_zero k : ∀ d o l, (o + length l + 4 * k ≤ length d)%nat →
  put_addrs (take o d ++ l ++ drop (o + length l) d) (o + length l) (replicate k 0) = take o d ++ (l ++ replicate (4 * k) 0) ++ drop (o + (length l + 4 * k)) d.
Proof.
  induction k as [|k IH]; intros d o l H; cbn [put_addrs replicate].
  - rewrite Nat.mul_0_r, Nat.add_0_r. cbn. by rewrite app_nil_r.
  - unfold put32. rewrite putn_snoc by lia. change (le_enc 4 0) with (replicate 4 0%Z).
    replace (o + length l + 4)%nat with (o + length (l ++ replicate 4 0%Z))%nat by (rewrite length_app, length_replicate; lia).
    rewrite IH by (rewrite length_app, length_replicate; lia). rewrite length_app, length_replicate, <- !app_assoc. do 2 f_equal.
    rewrite (app_assoc (replicate 4 0%Z)), <- replicate_add. f_equal; [f_equal; lia|f_equal; lia].
Qed.
Lemma dinode_init_put d o t : (o + 64 ≤ length d)%nat → dinode_init d o t = dinode_put d o (fresh t).
Proof.
  intros H. unfold dinode_init, dinode_put, put16, put32. cbn [type major minor nlink isize addrs fresh].
  assert (∀ k v, (o + k ≤ length d)%nat → putn k d o v = take o d ++ le_enc k v ++ drop (o + length (le_enc k v)) d) as H0 by (intros k v Hk; unfold putn; by rewrite length_le_enc).
  rewrite (H0 2%nat t) by lia.
  assert (∀ l k v n, n = length l → (o + n + k ≤ length d)%nat → putn k (take o d ++ l ++ drop (o + length l) d) (o + n) v =
    take o d ++ (l ++ le_enc k v) ++ drop (o + length (l ++ le_enc k v)) d) as HS by (intros l k v n -> Hn; by apply putn_snoc).
  rewrite (HS _ 2%nat 0 2%nat) by (done || lia). rewrite (HS _ 2%nat 0 4%nat) by (done || lia). rewrite (HS _ 2%nat 0 6%nat) by (done || lia).
  rewrite (HS _ 4%nat 0 8%nat) by (done || lia).
  set (l := (_ ++ le_enc 4 0)). replace (o + 12)%nat with (o + length l)%nat by done. rewrite put_addrs_zero by (change (length l) with 12%nat; lia).
  change (length l) with 12%nat. unfold putn. rewrite take_app_length' by (rewrite length_take; lia).
  replace (o + (12 + 4 * 13))%nat with (o + 64)%nat by lia. rewrite drop_app_ge by (rewrite length_take; lia). rewrite length_take, Nat.min_l by lia.
  replace (o + 2 - o)%nat with 2%nat by lia. rewrite drop_app_le by (rewrite length_replicate; lia).
  unfold l. rewrite <- !app_assoc. do 2 f_equal.
Qed.

Lemma dinode_off_range n : 0 ≤ n → (dinode_off n + 64 ≤ BSIZE)%nat.
Proof. intros H. unfold dinode_off, IPB, BSIZE. pose proof (Z.mod_pos_bound n 16). lia. Qed.
(** Two inodes of a block do not overlap. *)
Lemma dinode_off_ne n m : 0 ≤ n → 0 ≤ m → dinode_off n = dinode_off m ∨ (dinode_off n + 64 ≤ dinode_off m ∨ dinode_off m + 64 ≤ dinode_off n)%nat.
Proof. intros Hn Hm. unfold dinode_off, IPB. pose proof (Z.mod_pos_bound n 16). pose proof (Z.mod_pos_bound m 16). lia. Qed.
Lemma dinode_off_inj sb n m : 0 ≤ n → 0 ≤ m → 0 ≤ inodestart sb → n `div` IPB + inodestart sb < 2 ^ 32 → m `div` IPB + inodestart sb < 2 ^ 32 →
  IBLOCK n sb = IBLOCK m sb → dinode_off n = dinode_off m → n = m.
Proof.
  intros Hn Hm Hs H1 H2 HB HO. unfold IBLOCK in HB. pose proof (Z.div_pos n IPB Hn ltac:(done)). pose proof (Z.div_pos m IPB Hm ltac:(done)).
  rewrite !u32_small in HB by lia. unfold dinode_off in HO. pose proof (Z.mod_pos_bound n IPB ltac:(done)). pose proof (Z.mod_pos_bound m IPB ltac:(done)).
  rewrite (Z.div_mod n IPB), (Z.div_mod m IPB) by done. lia.
Qed.

(** An inode written by [iupdate] reads back as it was, and the other
    inodes of the block are as before. *)
Theorem dinode_codec d n i x m y : inode_fits i → length d = BSIZE → 0 ≤ n → 0 ≤ m → dinode_off m ≠ dinode_off n →
  let d' := dinode_put d (dinode_off n) i in
  dinode_get d' (dinode_off n) x = mkInode (dev x) (inum x) (ref x) (ilocked x) (valid x) (type i) (major i) (minor i) (nlink i) (isize i) (addrs i) ∧
  dinode_get d' (dinode_off m) y = dinode_get d (dinode_off m) y ∧ length d' = BSIZE.
Proof.
  intros F Hd Hn Hm Hne d'. pose proof (dinode_off_range n Hn). split_and!.
  - apply dinode_get_put; [done|lia].
  - apply dinode_get_ext. intros j Hj. apply dinode_put_ne; [apply F|lia|]. destruct (dinode_off_ne m n Hm Hn); [done|lia].
  - unfold d'. rewrite dinode_put_length; [done|apply F|lia].
Qed.
End FsInode.
