(* ===== verification/FsState.v ===== *)
(** * The state of the file system

    The files of a disk, as the inodes and the blocks describe them; the
    invariant that the blocks of all files are distinct and in use; and what a
    change to one file leaves of it. *)

From S2P Require Import Prelude Bytes BufCache Journal UserMem Fs FsBlocks FsMap FsFile FsWrite FsInode.
Import Bytes Journal UserMem Fs FsBlocks FsMap FsFile FsWrite FsInode.
Import BufCache (block, BSIZE, ROOTDEV, zero_blk, NBUF).

Module FsState.

Definition blank : inode := mkInode 0 0 0 false false 0 0 0 0 0 [].
(** Inode [n] on disk, its pointers and its bytes. *)
Definition dn (sb : superblock) (v : Z → block) (n : Z) : inode := dinode_get (v (IBLOCK n sb)) (dinode_off n) blank.
Definition fptr (sb : superblock) (v : Z → block) (n t : Z) : Z := ptr v (addrs (dn sb v n)) t.
Definition fbyte (sb : superblock) (v : Z → block) (n o : Z) : Z := byte v (addrs (dn sb v n)) o.
Definition live (sb : superblock) (v : Z → block) (n : Z) : Prop := 0 < n < ninodes sb ∧ type (dn sb v n) ≠ 0.

(** A block with inodes, or any block that is fixed by the layout. *)
Record fixed_block (sb : superblock) (a : jabs) (b : Z) : Prop := {
  fb_range : 0 ≤ b < size sb;
  fb_used : used_blk sb (j_view a) b = true;
  fb_log : ¬ j_log a b;
  fb_bitmap c : 0 ≤ c < size sb → b ≠ BBLOCK c sb }.

(** The inode [x] describes a file whose blocks are in order. *)
Record node_ok (sb : superblock) (a : jabs) (x : inode) : Prop := {
  no_fits : inode_fits x;
  no_wf : inode_wf sb a (addrs x);
  no_size : isize x ≤ MAXFILE * BS;
  no_dense t : 0 ≤ t → t * BS < isize x → ptr (j_view a) (addrs x) t ≠ 0;
  no_inode t n : 0 ≤ t ≤ MAXFILE → 0 ≤ n < ninodes sb → ptr (j_view a) (addrs x) t ≠ IBLOCK n sb }.

Record fs_wf (sb : superblock) (a : jabs) : Prop := {
  fw_layout : layout sb a;
  fw_zero : used_blk sb (j_view a) 0 = true;
  fw_start : 0 ≤ inodestart sb;
  fw_ninodes : ninodes sb < 2 ^ 16;
  fw_end n : 0 ≤ n < ninodes sb → n `div` IPB + inodestart sb < 2 ^ 32;
  fw_iblock n : 0 ≤ n < ninodes sb → fixed_block sb a (IBLOCK n sb) ∧ IBLOCK n sb ≠ 0;
  fw_node n : live sb (j_view a) n → node_ok sb a (dn sb (j_view a) n);
  fw_disj n m t u : live sb (j_view a) n → live sb (j_view a) m → n ≠ m → 0 ≤ t ≤ MAXFILE → 0 ≤ u ≤ MAXFILE →
    fptr sb (j_view a) n t ≠ 0 → fptr sb (j_view a) n t ≠ fptr sb (j_view a) m u }.

(** The file [n] is the same in both. *)
Record same_file (sb : superblock) (v w : Z → block) (n : Z) : Prop := {
  sf_node : dn sb w n = dn sb v n;
  sf_ptr t : 0 ≤ t ≤ MAXFILE → fptr sb w n t = fptr sb v n t;
  sf_byte o : 0 ≤ o < MAXFILE * BS → fbyte sb w n o = fbyte sb v n o }.

Lemma same_file_refl sb v n : same_file sb v v n.
Proof. done. Qed.
Lemma same_file_trans sb u v w n : same_file sb u v n → same_file sb v w n → same_file sb u w n.
Proof.
  intros [] []. constructor; [congruence|..].
  - intros t Ht. by rewrite sf_ptr1, sf_ptr0.
  - intros o Ho. by rewrite sf_byte1, sf_byte0.
Qed.

(** A file depends on its inode, its indirect block and its blocks. *)
Lemma same_file_intro sb a w n : node_ok sb a (dn sb (j_view a) n) → dn sb w n = dn sb (j_view a) n →
  (∀ t, 0 ≤ t ≤ MAXFILE → fptr sb (j_view a) n t ≠ 0 → w (fptr sb (j_view a) n t) = j_view a (fptr sb (j_view a) n t)) →
  same_file sb (j_view a) w n.
Proof.
  intros N E H. assert (∀ t, fptr sb w n t = fptr sb (j_view a) n t) as HP.
  { intros t. unfold fptr. rewrite E. apply ptr_ext. intros Hi. apply (H MAXFILE); [fs_lia|done]. }
  constructor; [done|by intros t _|]. intros o Ho. unfold fbyte. rewrite E. apply byte_contents. unfold contents.
  pose proof (HP (o `div` BS)) as Hp. unfold fptr in Hp. rewrite E in Hp. rewrite Hp. case_z; [done|].
  pose proof (off_slot o Ho). by apply (H (o `div` BS)); [lia|].
Qed.

(** The order of pointers is the same when the blocks they are read from are. *)
Lemma node_ok_frame sb a a' x : node_ok sb a x → j_log a' = j_log a →
  (∀ c, 0 ≤ c < size sb → used_blk sb (j_view a) c = true → used_blk sb (j_view a') c = true) →
  (ind (addrs x) ≠ 0 → j_view a' (ind (addrs x)) = j_view a (ind (addrs x))) → node_ok sb a' x.
Proof.
  intros [F [W1 W2 W3] Hs Hd Hi] HL HU HP. assert (∀ t, ptr (j_view a') (addrs x) t = ptr (j_view a) (addrs x) t) as E by (intros t; by apply ptr_ext).
  constructor; try done.
  - constructor; [done|..].
    + intros t Ht. rewrite E, HL. intros Hne. destruct (W2 t Ht Hne) as (R1 & R2 & R3 & R4). split_and!; try lia; [by apply HU; [lia|]|done..].
    + intros t1 t2. rewrite !E. apply W3.
  - intros t. rewrite E. apply Hd.
  - intros t n. rewrite E. apply Hi.
Qed.

Lemma fixed_frame sb a a' b : fixed_block sb a b → j_log a' = j_log a →
  (∀ c, 0 ≤ c < size sb → used_blk sb (j_view a) c = true → used_blk sb (j_view a') c = true) → fixed_block sb a' b.
Proof. intros [] HL HU. constructor; try done; [by apply HU|by rewrite HL]. Qed.

Lemma node_file_ok sb a x : node_ok sb a x → dev x = ROOTDEV → file_ok sb a x.
Proof. intros [] Hd. constructor; try done. destruct no_fits0. lia. Qed.

(** The part of an inode that is on disk. *)
Definition core (x : inode) := (type x, major x, minor x, nlink x, isize x, addrs x).
Lemma core_eq x y : core x = core y →
  type x = type y ∧ major x = major y ∧ minor x = minor y ∧ nlink x = nlink y ∧ isize x = isize y ∧ addrs x = addrs y.
Proof. unfold core. by intros [= -> -> -> -> -> ->]. Qed.
Lemma core_node sb a x y : core x = core y → node_ok sb a x → node_ok sb a y.
Proof.
  intros (E1 & E2 & E3 & E4 & E5 & E6)%core_eq [[] ? ? ? ?]. constructor; rewrite <- ?E5, <- ?E6; try done.
  constructor; by rewrite <- ?E1, <- ?E2, <- ?E3, <- ?E4, <- ?E5, <- ?E6.
Qed.
(** The inode in memory has what the disk has. *)
Record synced (sb : superblock) (v : Z → block) (x : inode) : Prop := {
  sy_dev : dev x = ROOTDEV;
  sy_live : live sb v (inum x);
  sy_core : core (dn sb v (inum x)) = core x }.

Lemma synced_node sb a x : fs_wf sb a → synced sb (j_view a) x → node_ok sb a x.
Proof. intros F [Sd Sl Sc]. eapply core_node; [done|]. by apply (fw_node _ _ F). Qed.

(** Block [b] belongs to file [n]. *)
Definition own (sb : superblock) (v : Z → block) (n b : Z) : Prop :=
  live sb v n ∧ b ≠ 0 ∧ ∃ t, 0 ≤ t ≤ MAXFILE ∧ b = fptr sb v n t.

(** Inode [n] and its blocks changed; it may have taken free blocks and given
    up its own. *)
Record file_step (sb : superblock) (a a' : jabs) (n : Z) : Prop := {
  fs_range : 0 < n < ninodes sb;
  fs_log : j_log a' = j_log a;
  fs_used c : 0 ≤ c < size sb → used_blk sb (j_view a) c = true → own sb (j_view a) n c ∨ used_blk sb (j_view a') c = true;
  fs_view m : 0 ≤ m < size sb → used_blk sb (j_view a) m = true → (∀ k, 0 ≤ k < ninodes sb → m ≠ IBLOCK k sb) →
    (∀ c, 0 ≤ c < size sb → m ≠ BBLOCK c sb) → own sb (j_view a) n m ∨ j_view a' m = j_view a m;
  fs_dn k : 0 ≤ k < ninodes sb → k ≠ n → dn sb (j_view a') k = dn sb (j_view a) k;
  fs_new : live sb (j_view a') n → node_ok sb a' (dn sb (j_view a') n) ∧
    ∀ t, 0 ≤ t ≤ MAXFILE → let p := fptr sb (j_view a') n t in p ≠ 0 → own sb (j_view a) n p ∨ used_blk sb (j_view a) p = false }.

Lemma own_range sb a n b : fs_wf sb a → own sb (j_view a) n b →
  0 < b < size sb ∧ used_blk sb (j_view a) b = true ∧ ¬ j_log a b ∧ (∀ c, 0 ≤ c < size sb → b ≠ BBLOCK c sb) ∧ ∀ k, 0 ≤ k < ninodes sb → b ≠ IBLOCK k sb.
Proof.
  intros F (HL & Hb & t & Ht & ->). destruct (fw_node _ _ F n HL) as [_ W _ _ Hi]. destruct (iw_range _ _ _ W t Ht Hb) as (? & ? & ? & ?).
  split_and!; try done; try apply H. intros k Hk. by apply Hi.
Qed.
Lemma own_disj sb a n m b : fs_wf sb a → own sb (j_view a) n b → own sb (j_view a) m b → n = m.
Proof.
  intros F (HL & Hb & t & Ht & ->) (HL' & _ & u & Hu & E). destruct (decide (n = m)) as [|Hne]; [done|]. by destruct (fw_disj _ _ F n m t u).
Qed.

Section step.
Context (sb : superblock) (a a' : jabs) (n : Z) (F : fs_wf sb a) (St : file_step sb a a' n).
#[local] Set Default Proof Using "All".

Lemma step_live k : k ≠ n → live sb (j_view a') k ↔ live sb (j_view a) k.
Proof. intros Hne. unfold live. split; intros [Hk HT]; (split; [done|]); [rewrite <- (fs_dn _ _ _ _ St k)|rewrite (fs_dn _ _ _ _ St k)]; (done || lia). Qed.

(** A block of another file. *)
Lemma step_block k b : k ≠ n → own sb (j_view a) k b → used_blk sb (j_view a') b = true ∧ j_view a' b = j_view a b.
Proof.
  intros Hne HO. destruct (own_range _ _ _ _ F HO) as (R1 & R2 & R3 & R4 & R5). split.
  - destruct (fs_used _ _ _ _ St b) as [HO'|]; [lia|done| |done]. destruct Hne. by eapply own_disj.
  - destruct (fs_view _ _ _ _ St b) as [HO'|]; [lia|done..| |done]. destruct Hne. by eapply own_disj.
Qed.
Lemma step_same k : live sb (j_view a) k → k ≠ n → same_file sb (j_view a) (j_view a') k.
Proof.
  intros HL Hne. apply same_file_intro.
  - by apply (fw_node _ _ F).
  - apply (fs_dn _ _ _ _ St); [destruct HL; lia|done].
  - intros t Ht Hp. apply (step_block k); [done|]. split_and!; [done..|]. by exists t.
Qed.
Lemma step_fixed b : fixed_block sb a b → (∀ t, 0 ≤ t ≤ MAXFILE → live sb (j_view a) n → fptr sb (j_view a) n t ≠ 0 → b ≠ fptr sb (j_view a) n t) → fixed_block sb a' b.
Proof.
  intros [H1 H2 H3 H4] Ho. constructor; [done| |by rewrite (fs_log _ _ _ _ St)|done].
  destruct (fs_used _ _ _ _ St b H1 H2) as [(HL & Hb & t & Ht & E)|]; [|done]. exfalso. apply (Ho t Ht HL); congruence.
Qed.
Lemma step_layout : layout sb a'.
Proof.
  pose proof (fw_layout _ _ F) as L. destruct L as [L1 L2 L3 L4 L5]. constructor; try done.
  - intros b Hb. rewrite (fs_log _ _ _ _ St). by apply L4.
  - intros b Hb Hu. rewrite (fs_log _ _ _ _ St). destruct (used_blk sb (j_view a) b) eqn:E; [|by apply L5].
    destruct (fs_used _ _ _ _ St b Hb E) as [HO|]; [|congruence]. destruct (own_range _ _ _ _ F HO) as (_ & _ & ? & ? & _). done.
Qed.
Lemma step_node k : live sb (j_view a) k → k ≠ n → node_ok sb a' (dn sb (j_view a') k).
Proof.
  intros HL Hne. pose proof (fw_node _ _ F k HL) as N. rewrite (fs_dn _ _ _ _ St k) by (destruct HL; lia || done).
  assert (∀ t, 0 ≤ t ≤ MAXFILE → fptr sb (j_view a) k t ≠ 0 → own sb (j_view a) k (fptr sb (j_view a) k t)) as HO.
  { intros t Ht Hp. split_and!; [done..|]. by exists t. }
  destruct N as [N1 [W1 W2 W3] N3 N4 N5].
  assert (∀ t, ptr (j_view a') (addrs (dn sb (j_view a) k)) t = ptr (j_view a) (addrs (dn sb (j_view a) k)) t) as E.
  { intros t. apply ptr_ext. intros Hi. apply (step_block k); [done|]. apply (HO MAXFILE); [fs_lia|done]. }
  constructor; try done.
  - constructor; [done|..].
    + intros t Ht. rewrite E, (fs_log _ _ _ _ St). intros Hne'. destruct (W2 t Ht Hne') as (R1 & R2 & R3 & R4).
      split; [done|]. split; [|done]. by apply (step_block k), HO.
    + intros t1 t2. rewrite !E. apply W3.
  - intros t. rewrite E. apply N4.
  - intros t m. rewrite E. apply N5.
Qed.
Lemma step_fptr k t : live sb (j_view a) k → k ≠ n → 0 ≤ t ≤ MAXFILE → fptr sb (j_view a') k t = fptr sb (j_view a) k t.
Proof. intros HL Hne Ht. by apply (sf_ptr _ _ _ _ (step_same k HL Hne)). Qed.
(** The blocks of the file are in no other file. *)
Lemma step_disj m t u : live sb (j_view a') n → live sb (j_view a') m → m ≠ n → 0 ≤ t ≤ MAXFILE → 0 ≤ u ≤ MAXFILE →
  fptr sb (j_view a') n t ≠ 0 → fptr sb (j_view a') n t ≠ fptr sb (j_view a') m u.
Proof.
  intros HL HLm Hne Ht Hu Hp E. apply step_live in HLm; [|done]. rewrite (step_fptr m u HLm Hne Hu) in E. rewrite E in Hp.
  assert (own sb (j_view a) m (fptr sb (j_view a) m u)) as HO by (split_and!; [done..|]; by exists u).
  destruct (fs_new _ _ _ _ St HL) as [_ HN]. destruct (HN t Ht ltac:(congruence)) as [HO'|Hf]; rewrite E in *.
  - apply Hne. by eapply own_disj.
  - destruct (own_range _ _ _ _ F HO) as (_ & Hus & _). congruence.
Qed.

Lemma step_wf : fs_wf sb a'.
Proof.
  pose proof F as [FL F0 F1 F2 F3 F4 F5 F6]. assert (∀ n', 0 ≤ n' < ninodes sb → fixed_block sb a' (IBLOCK n' sb)) as HF.
  { intros k Hk. destruct (F4 k Hk) as [HB _]. apply step_fixed; [done|]. intros t Ht HL Hp E. destruct (F5 n HL) as [_ _ _ _ Hi]. by apply (Hi t k Ht Hk). }
  constructor; try done.
  - apply step_layout.
  - destruct (fs_used _ _ _ _ St 0) as [(_ & ? & _)|]; [destruct FL; lia|done|done|done].
  - intros k Hk. split; [by apply HF|by apply F4].
  - intros k HL. destruct (decide (k = n)) as [->|Hne]; [by apply (fs_new _ _ _ _ St)|]. apply step_node; [by apply step_live|done].
  - intros k m t u HLk HLm Hne Ht Hu Hp. destruct (decide (k = n)) as [->|Hk]; [by apply step_disj|].
    destruct (decide (m = n)) as [->|Hm].
    + intros E. rewrite E in Hp. symmetry in E. revert E. by apply step_disj.
    + apply step_live in HLk, HLm; [|done..]. rewrite (step_fptr k t), (step_fptr m u) in * by done. by apply F6.
Qed.
End step.

(** ** Writing an inode back *)

(** The blocks of file [n] are those of the inode [x], which is not on disk yet. *)
Record pending (sb : superblock) (a a' : jabs) (n : Z) (x : inode) : Prop := {
  pd_range : 0 < n < ninodes sb;
  pd_log : j_log a' = j_log a;
  pd_used c : 0 ≤ c < size sb → used_blk sb (j_view a) c = true → own sb (j_view a) n c ∨ used_blk sb (j_view a') c = true;
  pd_view m : 0 ≤ m < size sb → used_blk sb (j_view a) m = true → (∀ k, 0 ≤ k < ninodes sb → m ≠ IBLOCK k sb) →
    (∀ c, 0 ≤ c < size sb → m ≠ BBLOCK c sb) → own sb (j_view a) n m ∨ j_view a' m = j_view a m;
  pd_iblock k : 0 ≤ k < ninodes sb → j_view a' (IBLOCK k sb) = j_view a (IBLOCK k sb);
  pd_fits : inode_fits x;
  pd_node : type x ≠ 0 → node_ok sb a' x;
  pd_ptr t : type x ≠ 0 → 0 ≤ t ≤ MAXFILE → let p := ptr (j_view a') (addrs x) t in p ≠ 0 →
    own sb (j_view a) n p ∨ used_blk sb (j_view a) p = false }.

Section commit.
Context (sb : superblock) (a b c : jabs) (n : Z) (x : inode) (N : gset Z) (F : fs_wf sb a) (P : pending sb a b n x)
  (HS : length (j_view b (IBLOCK n sb)) = BSIZE)
  (W : wrote b c (<[IBLOCK n sb := dinode_put (j_view b (IBLOCK n sb)) (dinode_off n) x]> (j_view b)) N).
#[local] Set Default Proof Using "All".

Lemma commit_view m : m ≠ IBLOCK n sb → j_view c m = j_view b m.
Proof. intros Hm. rewrite (wr_view _ _ _ _ W). by apply fn_lookup_insert_ne. Qed.
Lemma commit_dn : core (dn sb (j_view c) n) = core x.
Proof.
  unfold dn. rewrite (wr_view _ _ _ _ W), fn_lookup_insert. rewrite dinode_get_put; [done|apply P|].
  rewrite HS. apply dinode_off_range. pose proof (pd_range _ _ _ _ _ P). lia.
Qed.
Lemma commit_dn_ne k : 0 ≤ k < ninodes sb → k ≠ n → dn sb (j_view c) k = dn sb (j_view a) k.
Proof.
  intros Hk Hne. pose proof (pd_range _ _ _ _ _ P) as Hn. unfold dn. rewrite <- (pd_iblock _ _ _ _ _ P k Hk).
  destruct (decide (IBLOCK k sb = IBLOCK n sb)) as [E|Hb]; [|by rewrite commit_view].
  rewrite E, (wr_view _ _ _ _ W), fn_lookup_insert. apply dinode_get_ext. intros j Hj.
  apply dinode_put_ne; [apply P|rewrite HS; apply dinode_off_range; lia|].
  destruct (dinode_off_ne k n) as [Eo|Ho]; [lia|lia| |lia]. exfalso. apply Hne.
  apply (dinode_off_inj sb); [lia|lia|apply F|by apply F|by apply F; lia|done|done].
Qed.
Lemma commit_used k : 0 ≤ k < size sb → used_blk sb (j_view c) k = used_blk sb (j_view b) k.
Proof.
  intros Hk. unfold used_blk. rewrite commit_view; [done|]. pose proof (pd_range _ _ _ _ _ P). 
  destruct (fw_iblock _ _ F n ltac:(lia)) as [[_ _ _ Hb] _]. intros E. by apply (Hb k).
Qed.
Lemma commit_iblock k : 0 ≤ k < ninodes sb → used_blk sb (j_view a) (IBLOCK k sb) = true ∧ ∀ t, 0 ≤ t ≤ MAXFILE → type x ≠ 0 →
  ptr (j_view b) (addrs x) t ≠ IBLOCK k sb.
Proof. intros Hk. split; [by apply (fw_iblock _ _ F k Hk)|]. intros t Ht HT. by apply (no_inode _ _ _ (pd_node _ _ _ _ _ P HT) t k). Qed.
Lemma commit_ptr t : type x ≠ 0 → ptr (j_view c) (addrs x) t = ptr (j_view b) (addrs x) t.
Proof.
  intros HT. apply ptr_ext. intros _. apply commit_view. pose proof (pd_range _ _ _ _ _ P).
  destruct (commit_iblock n ltac:(lia)) as [_ Hp]. apply (Hp MAXFILE); [fs_lia|done].
Qed.
Lemma commit_byte o : type x ≠ 0 → 0 ≤ o < MAXFILE * BS → byte (j_view c) (addrs x) o = byte (j_view b) (addrs x) o.
Proof.
  intros HT Ho. apply byte_contents. unfold contents. rewrite commit_ptr by done. case_z; [done|]. apply commit_view.
  pose proof (pd_range _ _ _ _ _ P). pose proof (off_slot o Ho). destruct (commit_iblock n ltac:(lia)) as [_ Hp]. apply Hp; [lia|done].
Qed.
Lemma commit_node : type x ≠ 0 → node_ok sb c x.
Proof.
  intros HT. apply (node_ok_frame sb b); [by apply P|apply W|intros k Hk; by rewrite commit_used|].
  intros Hi. apply commit_view. pose proof (pd_range _ _ _ _ _ P). destruct (commit_iblock n ltac:(lia)) as [_ Hp]. apply (Hp MAXFILE); [fs_lia|done].
Qed.
Lemma commit_step : file_step sb a c n.
Proof.
  pose proof commit_dn as E. pose proof (core_eq _ _ E) as (E1 & _ & _ & _ & _ & E6). constructor; [apply P|rewrite (wr_log _ _ _ _ W); apply P|..].
  - intros k Hk Hu. rewrite commit_used by done. by apply P.
  - intros m Hm Hu Hi Hb. pose proof (pd_range _ _ _ _ _ P). rewrite commit_view; [by apply P|apply Hi; lia].
  - apply commit_dn_ne.
  - intros [Hr HT]. rewrite E1 in HT. split; [eapply core_node; [symmetry; exact E|by apply commit_node]|].
    intros t Ht p. unfold p, fptr. rewrite E6, commit_ptr by done. by apply P.
Qed.
Lemma commit_synced y : type x ≠ 0 → dev y = ROOTDEV → inum y = n → core y = core x → synced sb (j_view c) y.
Proof.
  intros HT Hd Hn Hc. pose proof (core_eq _ _ commit_dn) as (E1 & _). constructor; [done| |].
  - rewrite Hn. split; [apply P|]. by rewrite E1.
  - by rewrite Hn, commit_dn.
Qed.
End commit.

Section iupdate.
Context {S M : Type} `{JN : Journaled S} `{UM : UserMemory M}.
#[local] Abbreviation fst_ := (@fst_ S M).

Lemma iupdate_ok (s : fst_) a i x : jinv (jn s) a → IBLOCK (inum x) (sb s) ∉ (j_held a).*1 → slot a → j_home a (IBLOCK (inum x) (sb s)) →
  inodes s !! i = Some x → dev x = ROOTDEV → length (addrs x) = 13%nat → 0 ≤ inum x →
  let B := IBLOCK (inum x) (sb s) in
  ∃ j a', jinv j a' ∧ wrote a a' (<[B := dinode_put (j_view a B) (dinode_off (inum x)) x]> (j_view a)) {[B]} ∧ iupdate i s = Ok (tt, with_jn j s).
Proof.
  intros I Hh Hs Hj Hx Hd Hl Hn B. destruct (update_block (M := M) (jn s) a B (λ d, dinode_put d (dinode_off (inum x)) x) I Hh Hs Hj) as (j & a' & I' & W & E).
  { pose proof (jinv_size _ _ I B) as HB. rewrite dinode_put_length; [done|done|]. rewrite HB. by apply dinode_off_range. }
  exists j, a'. split; [done|]. split; [done|]. unfold iupdate. rewrite (bind_Ok _ _ _ _ _ (get_inode_ok s i x Hx)).
  rewrite (bind_Ok get_sb _ s (sb s) s) by done. rewrite Hd. specialize (E _ s (λ _, skip) eq_refl). etrans; [|exact E]. fold B.
  rewrite !bind_run. destruct (on_log (bread ROOTDEV B) s) as [[bp s1]| | |]; [|done..].
  rewrite !bind_run. destruct (on_log (bdata bp) s1) as [[d s2]| | |]; [|done..].
  rewrite !bind_run. destruct (on_log (bset bp _) s2) as [[[] s3]| | |]; [|done..].
  rewrite !bind_run. destruct (on_log (log_write bp) s3) as [[[] s4]| | |]; [|done..].
  rewrite bind_run. by destruct (on_log (brelse bp) s4) as [[[] s5]| | |].
Qed.
End iupdate.
End FsState.
