(* ===== verification/FsOps.v ===== *)
(** * Operations on files

    [readi] and [writei] on the files of the disk. *)

From S2P Require Import Prelude Bytes BufCache Journal UserMem Fs FsBlocks FsMap FsFile FsWrite FsInode FsState.
Import Bytes Journal UserMem Fs FsBlocks FsMap FsFile FsWrite FsInode FsState.
Import BufCache (block, BSIZE, ROOTDEV, zero_blk, NBUF).

Module FsOps.

(** The inode after bytes up to [off] were written and its pointers are [l]. *)
Definition extended (x : inode) (l : list Z) (off : Z) : inode := set_isize (Z.max (isize x) off) (set_addrs l x).

Lemma ptr_u32 sb a l v : inode_wf sb a l → layout sb a → v ∈ l → 0 ≤ v < 2 ^ 32.
Proof.
  intros W L [t Ht]%list_elem_of_lookup_1. pose proof (lookup_lt_Some _ _ _ Ht) as Hlt. rewrite (iw_len _ _ _ W) in Hlt.
  assert (∃ u, 0 ≤ u ≤ MAXFILE ∧ ptr (j_view a) l u = v) as (u & Hu & E).
  { destruct (decide (t = 12%nat)) as [->|Hne].
    - exists MAXFILE. split; [fs_lia|]. rewrite ptr_ind. unfold ind. by apply list_lookup_total_correct.
    - exists (Z.of_nat t). split; [fs_lia|]. rewrite ptr_direct by fs_lia. rewrite Nat2Z.id. by apply list_lookup_total_correct. }
  destruct (decide (v = 0)) as [->|Hv]; [lia|]. destruct (iw_range _ _ _ W u Hu ltac:(congruence)) as (R1 & _). destruct L. lia.
Qed.

Lemma slot_dec (f : Z → Z) m : (∃ t, 0 ≤ t ≤ MAXFILE ∧ f t = m) ∨ ∀ t, 0 ≤ t ≤ MAXFILE → f t ≠ m.
Proof.
  destruct (decide (Exists (λ t, f t = m) (seqZ 0 (MAXFILE + 1)))) as [H|H]; [left|right].
  - apply Exists_exists in H as (t & Ht & E). apply list_elem_of_In, elem_of_seqZ in Ht. exists t. split; [lia|done].
  - intros t Ht E. apply H, Exists_exists. exists t. split; [apply list_elem_of_In, elem_of_seqZ; lia|done].
Qed.
Lemma extended_fits x l off : inode_fits x → length l = 13%nat → (∀ v, v ∈ l → 0 ≤ v < 2 ^ 32) → off ≤ MAXFILE * BS →
  inode_fits (extended x l off).
Proof. intros [] Hl Hv Ho. constructor; cbn; try done; [|by apply list.Forall_forall]. assert (MAXFILE * BS < 2 ^ 32) by done. lia. Qed.

(** The blocks written to the file [x] are ready for [iupdate]. *)
Lemma wrote_pending sb a a' x l' off data : fs_wf sb a → synced sb (j_view a) x → wrote_at sb a (addrs x) a' l' off data →
  0 ≤ off ≤ isize x → off + Z.of_nat (length data) ≤ MAXFILE * BS →
  pending sb a a' (inum x) (extended x l' (off + Z.of_nat (length data))).
Proof.
  intros F Sy W Ho Hmax. pose proof (synced_node sb a x F Sy) as [Nf Nw Ns Nd Ni]. destruct Sy as [Sd Sl Sc].
  pose proof (core_eq _ _ Sc) as (_ & _ & _ & _ & _ & Ea).
  assert (∀ t, 0 ≤ t ≤ MAXFILE → ptr (j_view a) (addrs x) t ≠ 0 → own sb (j_view a) (inum x) (ptr (j_view a) (addrs x) t)) as Hold.
  { intros t Ht Hp. split_and!; [done..|]. exists t. unfold fptr. by rewrite Ea. }
  assert (∀ t, 0 ≤ t ≤ MAXFILE → ptr (j_view a') l' t ≠ 0 →
    own sb (j_view a) (inum x) (ptr (j_view a') l' t) ∨ used_blk sb (j_view a) (ptr (j_view a') l' t) = false) as Hown.
  { intros t Ht Hp. destruct (decide (ptr (j_view a) (addrs x) t = 0)) as [E|Hne].
    - right. by apply (wa_fresh _ _ _ _ _ _ _ W t).
    - left. rewrite (wa_keep _ _ _ _ _ _ _ W t Ht Hne). by apply Hold. }
  assert (inode_fits (extended x l' (off + Z.of_nat (length data)))) as Hfits.
  { apply extended_fits; [done|apply (iw_len _ _ _ (wa_wf _ _ _ _ _ _ _ W))| |done].
    intros v. eapply ptr_u32; [apply (wa_wf _ _ _ _ _ _ _ W)|apply (wa_layout _ _ _ _ _ _ _ W)]. }
  constructor; [apply Sl|apply W|..]; try done.
  - intros c Hc Hu. right. by apply W.
  - intros m Hm Hu Hi Hb. destruct (slot_dec (ptr (j_view a) (addrs x)) m) as [(t & Ht & E)|Hno].
    + destruct (decide (m = 0)) as [->|Hm0]; [|left; rewrite <- E; apply Hold; [done|congruence]].
      right. by apply (wa_other _ _ _ _ _ _ _ W).
    + right. apply (wa_other _ _ _ _ _ _ _ W); try done. intros u Hu' Hp. apply not_eq_sym. by apply Hno.
  - intros k Hk. destruct (fw_iblock _ _ F k Hk) as [[B1 B2 B3 B4] _]. apply (wa_other _ _ _ _ _ _ _ W); try done.
    intros t Ht _. apply not_eq_sym. by apply Ni.
  - intros _. constructor; [done|apply W|cbn; lia|..].
    + intros t Ht. cbn. intros Hlt. destruct (decide (t * BS < isize x)) as [Hin|Hout].
      * rewrite (wa_keep _ _ _ _ _ _ _ W); [by apply Nd|unfold MAXFILE, NDIRECT, NINDIRECT in *; nia|by apply Nd].
      * rewrite <- (Z.div_mul t BS) by done. apply (wa_there _ _ _ _ _ _ _ W). lia.
    + intros t k Ht Hk. cbn. intros E. destruct (fw_iblock _ _ F k Hk) as [[B1 B2 B3 B4] B0]. destruct (Hown t Ht ltac:(congruence)) as [HO|Hf].
      * destruct (own_range _ _ _ _ F HO) as (_ & _ & _ & _ & Hk'). by apply (Hk' k).
      * congruence.
  - intros t _ Ht. by apply Hown.
Qed.

Section ops.
Context {S M : Type} `{JN : Journaled S} `{UM : UserMemory M}.
#[local] Abbreviation fst_ := (@fst_ S M).

(** The range is refused: behind the end of the file, too long, or wrapped. *)
Definition refused (x : inode) (off n : Z) : bool :=
  (isize x <? off) || (u32 (off + n) <? off) || (MAXFILE * BS <? u32 (off + n)).
Lemma refused_spec x off n : 0 ≤ off < 2 ^ 32 → 0 ≤ n < 2 ^ 32 → isize x ≤ MAXFILE * BS →
  refused x off n = bool_decide (¬ (off ≤ isize x ∧ off + n ≤ MAXFILE * BS)).
Proof.
  intros Ho Hn Hs. assert (MAXFILE * BS < 2 ^ 31) as HM by done. unfold refused. destruct (Z.ltb_spec (isize x) off) as [H1|H1].
  { rewrite bool_decide_true by lia. done. }
  destruct (Z.ltb_spec (off + n) (2 ^ 32)) as [H2|H2].
  - rewrite u32_small by lia. rewrite (proj2 (Z.ltb_ge (off + n) off)) by lia. cbn [orb].
    destruct (Z.ltb_spec (MAXFILE * BS) (off + n)); [by rewrite bool_decide_true by lia|by rewrite bool_decide_false by lia].
  - assert (u32 (off + n) = off + n - 2 ^ 32) as -> by (unfold u32; symmetry; apply Z.mod_unique with 1; lia).
    rewrite (proj2 (Z.ltb_lt (off + n - 2 ^ 32) off)) by lia. cbn [orb]. rewrite bool_decide_true by lia. done.
Qed.

Lemma writei_refused (s : fst_) i x src off n : inodes s !! i = Some x → refused x off n = true → writei i src off n s = Ok (-1, s).
Proof.
  intros Hx Hr. unfold writei. rewrite (bind_Ok _ _ _ _ _ (get_inode_ok s i x Hx)). unfold refused in Hr.
  destruct ((isize x <? off) || (u32 (off + n) <? off)); [done|]. cbn [orb] in Hr. by rewrite Hr.
Qed.

Lemma iblock_home sb a x : fs_wf sb a → 0 ≤ inum x < ninodes sb → j_home a (IBLOCK (inum x) sb).
Proof. intros F Hx. destruct (fw_iblock _ _ F _ Hx) as [[] _]. split; [|done]. destruct (fw_layout _ _ F). lia. Qed.

Lemma writei_ok (s : fst_) R a i x src data off n : jinv (jn s) a → j_held a = [] → fs_wf (sb s) a → inodes s !! i = Some x →
  synced (sb s) (j_view a) x → supplies src data n off (um s) → 0 ≤ off < 2 ^ 32 → 0 ≤ n < 2 ^ 32 →
  IBLOCK (inum x) (sb s) ∈ R → room (sb s) (R ∪ nz (ind (addrs x))) a (need (addrs x) (span off n)) → refused x off n = false →
  ∃ m j a' l', let x' := extended x l' (off + m) in
    writei i src off n s = Ok (m, with_jn j (with_inode i x' s)) ∧ 0 ≤ m ≤ Z.of_nat (length data) ∧ jinv j a' ∧
    file_step (sb s) a a' (inum x) ∧ synced (sb s) (j_view a') x' ∧
    (∀ o, 0 ≤ o < MAXFILE * BS → fbyte (sb s) (j_view a') (inum x) o = overlay (fbyte (sb s) (j_view a) (inum x)) off (take (Z.to_nat m) data) o) ∧
    (m < Z.of_nat (length data) → (m = 0 ∨ (off + m) `mod` BS = 0) ∧ ∀ c, 0 ≤ c < size (sb s) → used_blk (sb s) (j_view a') c = true) ∧
    j_held a' = [] ∧ j_cap a' = j_cap a ∧ j_disk a' = j_disk a ∧ room (sb s) (R ∪ nz (ind l')) a' 2.
Proof.
  intros I Hh F Hx Sy G Ho Hn HR HRm Hr. assert (Z.of_nat (length data) ≤ n) as Hlen by (destruct G as [_ [G|(G & _)]]; lia). pose proof (synced_node _ _ _ F Sy) as N. pose proof Sy as [Sd Sl Sc].
  rewrite refused_spec in Hr by (lia || apply N). apply bool_decide_eq_false, dec_stable in Hr as [Hr1 Hr2].
  assert (MAXFILE * BS < 2 ^ 31) as HM by done. unfold writei. rewrite (bind_Ok _ _ _ _ _ (get_inode_ok s i x Hx)).
  rewrite u32_small by lia. rewrite (proj2 (Z.ltb_ge (isize x) off)), (proj2 (Z.ltb_ge (off + n) off)), (proj2 (Z.ltb_ge _ (off + n))) by lia. cbn [orb].
  destruct (writei_loop_ok (Z.to_nat n) s R a i x src data off n 0 I) as (m & j & a1 & l' & E & Hm & I1 & W & HR1 & Hfull);
    rewrite ?Z.sub_0_r; try done; try lia; try apply F; [apply N|]. rewrite (bind_Ok _ _ _ _ _ E). cbn [fst snd].
  set (s1 := with_jn j (with_inode i (set_addrs l' x) s)). assert (inodes s1 !! i = Some (set_addrs l' x)) as Hx1 by (apply list_lookup_insert_eq; by eapply lookup_lt_Some).
  rewrite (bind_Ok _ _ _ _ _ (get_inode_ok s1 i _ Hx1)). cbn [isize set_addrs].
  set (x' := extended x l' (off + m)).
  assert ((if isize x <? off + m then mod_inode i (set_isize (off + m)) else skip) s1 = Ok (tt, with_jn j (with_inode i x' s))) as E2.
  { destruct (Z.ltb_spec (isize x) (off + m)).
    - rewrite (mod_inode_ok s1 i _ _ Hx1). unfold s1, x', extended. rewrite Z.max_r by lia. unfold with_jn, with_inode. cbn. by rewrite list_insert_insert_eq.
    - unfold skip, s1, x', extended. rewrite Z.max_l by lia. by destruct x. }
  rewrite (bind_Ok _ _ _ _ _ E2).
  assert (length (take (Z.to_nat m) data) = Z.to_nat m) as Htl by (rewrite length_take; lia).
  pose proof (wrote_pending _ _ _ x l' off _ F Sy W ltac:(lia) ltac:(rewrite Htl; lia)) as P. rewrite Htl, Z2Nat.id in P by lia. fold x' in P.
  destruct (iupdate_ok (with_jn j (with_inode i x' s)) a1 i x') as (j2 & a2 & I2 & W2 & E3); cbn [sb jn inodes with_jn with_inode] in *.
  { done. } { rewrite (wa_held _ _ _ _ _ _ _ W), Hh. apply not_elem_of_nil. } { eapply room_slot; [exact HR1|by eapply jinv_nodup|lia]. }
  { assert (j_home a (IBLOCK (inum x) (sb s))) as [H1 H2] by (apply iblock_home; [done|destruct Sl; lia]). split; [done|]. by rewrite (wa_log _ _ _ _ _ _ _ W). }
  { apply list_lookup_insert_eq. by eapply lookup_lt_Some. } { done. } { apply P. } { destruct Sl; cbn; lia. }
  rewrite (bind_Ok _ _ _ _ _ E3). cbv zeta in W2. pose proof (jinv_size _ _ I1 (IBLOCK (inum x) (sb s))) as HS.
  assert (type x' ≠ 0) as HT by (destruct Sl as [_ HT]; apply core_eq in Sc as (Et & _); change (type x ≠ 0); by rewrite <- Et).
  pose proof (commit_step _ _ _ _ _ _ _ F P HS W2) as St. pose proof (core_eq _ _ (commit_dn _ _ _ _ _ _ _ F P HS W2)) as (_ & _ & _ & _ & _ & E6).
  exists m, j2, a2, l'. cbv zeta. fold x'. split_and!; [|lia|lia|done|done| | | |..].
  - unfold mret, prog_ret. rewrite i32_small by lia. done.
  - eapply (commit_synced _ _ _ _ _ _ _ F P HS W2); done.
  - intros o Hor. unfold fbyte at 1. rewrite E6. rewrite (commit_byte _ _ _ _ _ _ _ F P HS W2) by done. cbn [addrs x' extended set_isize set_addrs].
    rewrite (wa_byte _ _ _ _ _ _ _ W o Hor). apply overlay_ext. unfold fbyte. apply core_eq in Sc as (_ & _ & _ & _ & _ & ->). done.
  - intros Hlt. destruct (Hfull Hlt) as [Hs Hall]. split; [done|]. intros c Hc. rewrite (commit_used _ _ _ _ _ _ _ F P HS W2) by done. by apply Hall.
  - by rewrite (wr_held _ _ _ _ W2), (wa_held _ _ _ _ _ _ _ W).
  - by rewrite (wr_cap _ _ _ _ W2), (wa_cap _ _ _ _ _ _ _ W).
  - by rewrite (wr_disk _ _ _ _ W2), (wa_disk _ _ _ _ _ _ _ W).
  - eapply (room_logged _ _ a1 _ 2 2 ∅); [done| |done|apply W2|apply W2]. rewrite (wr_logged _ _ _ _ W2). cbn. clear -HR. set_solver.
Qed.
End ops.
End FsOps.
