(* ===== verification/FsTrunc.v ===== *)
(** * Truncating a file

    [itrunc] gives back every block of a file. *)

From S2P Require Import Prelude Bytes BufCache Journal UserMem Fs FsBlocks FsMap FsFile FsWrite FsInode FsState FsOps.
Import Bytes Journal UserMem Fs FsBlocks FsMap FsFile FsWrite FsInode FsState FsOps.
Import BufCache (block, BSIZE, ROOTDEV, zero_blk, NBUF).

Module FsTrunc.

(** The blocks [D] were freed. *)
Record freed (sb : superblock) (R : gset Z) (a a' : jabs) (D : gset Z) : Prop := {
  fr_used c : 0 ≤ c < size sb → used_blk sb (j_view a') c = negb (bool_decide (c ∈ D)) && used_blk sb (j_view a) c;
  fr_view m : (∀ c, 0 ≤ c < size sb → m ≠ BBLOCK c sb) → j_view a' m = j_view a m;
  fr_held : j_held a' = j_held a;
  fr_cap : j_cap a' = j_cap a;
  fr_log : j_log a' = j_log a;
  fr_disk : j_disk a' = j_disk a;
  fr_more : logged a ⊆ logged a';
  fr_logged : logged a' ⊆ logged a ∪ R }.

Lemma freed_refl sb R a : freed sb R a a ∅.
Proof. constructor; try done. set_solver. Qed.
Lemma freed_trans sb R a b c D E : freed sb R a b D → freed sb R b c E → freed sb R a c (D ∪ E).
Proof.
  intros A B. constructor.
  - intros x Hx. rewrite (fr_used _ _ _ _ _ B x Hx), (fr_used _ _ _ _ _ A x Hx). rewrite andb_assoc, <- negb_orb. do 2 f_equal.
    rewrite orb_comm, <- bool_decide_or. apply bool_decide_ext. set_solver.
  - intros m Hm. by rewrite (fr_view _ _ _ _ _ B m Hm), (fr_view _ _ _ _ _ A m Hm).
  - by rewrite (fr_held _ _ _ _ _ B), (fr_held _ _ _ _ _ A).
  - by rewrite (fr_cap _ _ _ _ _ B), (fr_cap _ _ _ _ _ A).
  - by rewrite (fr_log _ _ _ _ _ B), (fr_log _ _ _ _ _ A).
  - by rewrite (fr_disk _ _ _ _ _ B), (fr_disk _ _ _ _ _ A).
  - etrans; [apply A|apply B].
  - pose proof (fr_logged _ _ _ _ _ A). pose proof (fr_logged _ _ _ _ _ B). set_solver.
Qed.
Lemma freed_room sb R a a' D n : freed sb R a a' D → room sb R a n → room sb R a' n.
Proof.
  intros A H. eapply (room_logged _ _ a _ n n ∅); [done| |rewrite size_empty; lia|apply A|apply A].
  rewrite union_empty_r_L. apply A.
Qed.
(** The freed blocks are not those of the log or the bitmap. *)
Lemma freed_layout sb R a a' D : freed sb R a a' D → layout sb a → (∀ b, b ∈ D → ¬ j_log a b ∧ ∀ c, 0 ≤ c < size sb → b ≠ BBLOCK c sb) → layout sb a'.
Proof.
  intros A [L1 L2 L3 L4 L5] HD. constructor; try done; rewrite (fr_log _ _ _ _ _ A); [done|].
  intros b Hb. rewrite (fr_used _ _ _ _ _ A b Hb). case_bool_decide as E; [intros _; by apply HD|]. cbn. by apply L5.
Qed.

Section trunc.
Context {S M : Type} `{JN : Journaled S} `{UM : UserMemory M}.
#[local] Abbreviation fst_ := (@fst_ S M).

Lemma bfree_one (s : fst_) R a b : jinv (jn s) a → layout (sb s) a → clear_of (sb s) a → room (sb s) R a 1 → 0 ≤ b < size (sb s) →
  used_blk (sb s) (j_view a) b = true →
  ∃ j a', jinv j a' ∧ bfree ROOTDEV b s = Ok (tt, with_jn j s) ∧ freed (sb s) R a a' {[b]}.
Proof.
  intros I L HA HR Hb Hu. destruct (bfree_ok s R a b I L HA HR Hb Hu) as (j & a' & I' & E & [V Wh Wc Wl Wd Wg]).
  exists j, a'. split; [done|]. split; [done|]. constructor; try done.
  - intros c Hc. unfold used_blk at 1. rewrite V. fold (used_blk (sb s) (unmark (sb s) (j_view a) b) c).
    rewrite (used_unmark (sb s) a) by (done || by eapply jinv_size). do 2 f_equal. apply bool_decide_ext. set_solver.
  - intros m Hm. rewrite V. unfold unmark. apply fn_lookup_insert_ne. apply not_eq_sym. by apply Hm.
  - rewrite Wg. set_solver.
  - rewrite Wg. pose proof (rm_bitmap _ _ _ _ HR b Hb). set_solver.
Qed.

(** A block that can be freed. *)
Definition freeable (sb : superblock) (a : jabs) (b : Z) : Prop :=
  0 < b < size sb ∧ used_blk sb (j_view a) b = true ∧ ¬ j_log a b ∧ ∀ c, 0 ≤ c < size sb → b ≠ BBLOCK c sb.
Lemma freeable_after sb R a a' D b : freed sb R a a' D → b ∉ D → freeable sb a b → freeable sb a' b.
Proof.
  intros A HD (H1 & H2 & H3 & H4). split_and!; [lia|lia| |by rewrite (fr_log _ _ _ _ _ A)|done].
  rewrite (fr_used _ _ _ _ _ A) by lia. by rewrite bool_decide_false, H2.
Qed.
Lemma freeable_layout sb R a a' D : freed sb R a a' D → layout sb a → (∀ b, b ∈ D → freeable sb a b) → layout sb a'.
Proof. intros A L HD. eapply freed_layout; [done..|]. intros b Hb. destruct (HD b Hb) as (_ & _ & ? & ?). done. Qed.

(** The nonzero entries of a list of pointers. *)
Definition nzs (l : list Z) : gset Z := list_to_set l ∖ {[0]}.
Lemma nzs_cons v l : nzs (v :: l) = (if v =? 0 then ∅ else {[v]}) ∪ nzs l.
Proof. unfold nzs. cbn. case_z; set_solver. Qed.

(** The loop over the entries of the indirect block. *)
Lemma trunc_indirect_ok k : ∀ t (s : fst_) R a d, jinv (jn s) a → layout (sb s) a → clear_of (sb s) a → room (sb s) R a 1 →
  let l := (λ i, get32 d (Z.to_nat (4 * i))) <$> seqZ t (Z.of_nat k) in
  (∀ b, b ∈ nzs l → freeable (sb s) a b) → (∀ i1 i2 v, l !! i1 = Some v → l !! i2 = Some v → v ≠ 0 → i1 = i2) →
  ∃ j a', jinv j a' ∧ trunc_indirect k t ROOTDEV d s = Ok (tt, with_jn j s) ∧ freed (sb s) R a a' (nzs l).
Proof.
  induction k as [|k IH]; intros t s R a d I L HA HR l Hf Hinj; cbn [trunc_indirect].
  { exists (jn s), a. split; [done|]. rewrite with_jn_id. split; [done|]. unfold l. cbn. apply freed_refl. }
  assert (l = get32 d (Z.to_nat (4 * t)) :: ((λ i, get32 d (Z.to_nat (4 * i))) <$> seqZ (t + 1) (Z.of_nat k))) as El.
  { unfold l. rewrite seqZ_cons by lia. cbn. do 3 f_equal; lia. }
  set (v := get32 d (Z.to_nat (4 * t))) in *. set (l' := _ <$> seqZ (t + 1) (Z.of_nat k)) in *. rewrite El, nzs_cons in *. clearbody l.
  assert (∀ i1 i2 w, l' !! i1 = Some w → l' !! i2 = Some w → w ≠ 0 → i1 = i2) as Hinj'.
  { intros i1 i2 w H1 H2 Hw. pose proof (Hinj (Datatypes.S i1) (Datatypes.S i2) w H1 H2 Hw). lia. }
  destruct (Z.eqb_spec v 0) as [Ev|Hv]; cbn [negb].
  - destruct (IH (t + 1) s R a d I L HA HR) as (j & a' & I' & E & A); [intros b Hb; apply Hf; set_solver|done|].
    exists j, a'. split; [done|]. split; [exact E|]. by rewrite union_empty_l_L.
  - destruct (Hf v ltac:(set_solver)) as (V1 & V2 & V3 & V4).
    destruct (bfree_one s R a v I L HA HR ltac:(lia) V2) as (j & a1 & I1 & E1 & A1). rewrite (bind_Ok _ _ _ _ _ E1).
    assert (v ∉ nzs l') as Hvl.
    { unfold nzs. rewrite elem_of_difference, elem_of_list_to_set. intros [[i Hi]%list_elem_of_lookup_1 _].
      pose proof (Hinj 0%nat (Datatypes.S i) v eq_refl Hi Hv). lia. }
    destruct (IH (t + 1) (with_jn j s) R a1 d I1) as (j2 & a2 & I2 & E2 & A2); cbn [sb jn with_jn].
    + eapply freeable_layout; [done..|]. intros b Hb. apply Hf. set_solver.
    + unfold clear_of. by rewrite (fr_held _ _ _ _ _ A1).
    + by eapply freed_room.
    + intros b Hb. eapply freeable_after; [done| |apply Hf; set_solver]. intros ->%elem_of_singleton. done.
    + done.
    + exists j2, a2. split; [done|]. split; [exact E2|]. by eapply freed_trans.
Qed.

(** The entries from [t] on are cleared. *)
Fixpoint zero_from (k t : nat) (l : list Z) : list Z :=
  match k with O => l | Datatypes.S k' => zero_from k' (t + 1) (<[t := 0]> l) end.
Lemma zero_from_length k : ∀ t l, length (zero_from k t l) = length l.
Proof. induction k as [|k IH]; intros t l; cbn; [done|]. by rewrite IH, length_insert. Qed.
Lemma zero_from_lookup k : ∀ t l i, (i < length l)%nat → zero_from k t l !!! i = if bool_decide (t ≤ i < t + k)%nat then 0 else l !!! i.
Proof.
  induction k as [|k IH]; intros t l i Hi; cbn [zero_from]; [by rewrite bool_decide_false by lia|]. rewrite IH by by rewrite length_insert.
  destruct (decide (i = t)) as [->|Hne].
  - rewrite bool_decide_false, bool_decide_true by lia. by rewrite list_lookup_total_insert_eq.
  - rewrite list_lookup_total_insert_ne by done. repeat case_bool_decide; try lia; done.
Qed.

Lemma trunc_direct_ok k : ∀ t (s : fst_) R a i x, jinv (jn s) a → layout (sb s) a → clear_of (sb s) a → room (sb s) R a 1 →
  inodes s !! i = Some x → dev x = ROOTDEV → length (addrs x) = 13%nat → (t + k ≤ 12)%nat →
  let l := take k (drop t (addrs x)) in
  (∀ b, b ∈ nzs l → freeable (sb s) a b) → (∀ i1 i2 v, l !! i1 = Some v → l !! i2 = Some v → v ≠ 0 → i1 = i2) →
  ∃ j a', jinv j a' ∧ trunc_direct k (Z.of_nat t) i s = Ok (tt, with_jn j (with_inode i (set_addrs (zero_from k t (addrs x)) x) s)) ∧
    freed (sb s) R a a' (nzs l).
Proof.
  induction k as [|k IH]; intros t s R a i x I L HA HR Hx Hd Hl Ht l Hf Hinj; cbn [trunc_direct zero_from].
  { exists (jn s), a. split; [done|]. rewrite with_inode_id, with_jn_id by done. split; [done|]. unfold l. cbn. apply freed_refl. }
  rewrite (bind_Ok _ _ _ _ _ (get_inode_ok s i x Hx)). rewrite (bind_Ok _ _ _ _ _ (get_addr_ok s i x (Z.of_nat t) Hx Hl ltac:(lia))).
  rewrite Nat2Z.id, Hd. set (v := addrs x !!! t).
  assert (addrs x !! t = Some v) as Hv by (apply list_lookup_lookup_total_lt; lia).
  set (x1 := set_addrs (<[t := 0]> (addrs x)) x).
  assert (drop (t + 1) (addrs x1) = drop (t + 1) (addrs x)) as Edr by (cbn; apply drop_insert_lt; lia).
  assert (l = v :: take k (drop (t + 1) (addrs x))) as El.
  { unfold l. rewrite (drop_S _ _ _ Hv). cbn. by rewrite Nat.add_1_r. }
  set (l' := take k (drop (t + 1) (addrs x))) in *. rewrite El, nzs_cons in *. clearbody l.
  assert (∀ i1 i2 w, l' !! i1 = Some w → l' !! i2 = Some w → w ≠ 0 → i1 = i2) as Hinj'.
  { intros i1 i2 w H1 H2 Hw. pose proof (Hinj (Datatypes.S i1) (Datatypes.S i2) w H1 H2 Hw). lia. }
  replace (Z.of_nat t + 1) with (Z.of_nat (t + 1)) by lia. destruct (Z.eqb_spec v 0) as [Ev|Hne]; cbn [negb].
  - assert (<[t := 0]> (addrs x) = addrs x) as Ez by (apply list_insert_id; congruence).
    destruct (IH (t + 1)%nat s R a i x I L HA HR Hx Hd Hl) as (j & a' & I' & E & A); [lia|intros b Hb; apply Hf, elem_of_union; by right|done|].
    exists j, a'. split; [done|]. split; [|by rewrite union_empty_l_L]. rewrite Ez. exact E.
  - destruct (Hf v ltac:(set_solver)) as (V1 & V2 & V3 & V4).
    destruct (bfree_one s R a v I L HA HR ltac:(lia) V2) as (j & a1 & I1 & E1 & A1). rewrite bind_assoc', (bind_Ok _ _ _ _ _ E1).
    rewrite (bind_Ok _ _ _ _ _ (put_addr_ok (with_jn j s) i x (Z.of_nat t) 0 Hx)). rewrite Nat2Z.id. fold x1.
    assert (v ∉ nzs l') as Hvl.
    { unfold nzs. rewrite elem_of_difference, elem_of_list_to_set. intros [[i' Hi]%list_elem_of_lookup_1 _].
      pose proof (Hinj 0%nat (Datatypes.S i') v eq_refl Hi Hne). lia. }
    destruct (IH (t + 1)%nat (with_inode i x1 (with_jn j s)) R a1 i x1) as (j2 & a2 & I2 & E2 & A2); rewrite ?Edr; fold l'; cbn [sb jn with_jn with_inode].
    + done.
    + eapply freeable_layout; [done..|]. intros b Hb. apply Hf. set_solver.
    + unfold clear_of. by rewrite (fr_held _ _ _ _ _ A1).
    + by eapply freed_room.
    + apply list_lookup_insert_eq. by eapply lookup_lt_Some.
    + done.
    + cbn. by rewrite length_insert.
    + lia.
    + intros b Hb. eapply freeable_after; [done| |apply Hf; set_solver]. intros ->%elem_of_singleton. done.
    + done.
    + rewrite Edr in A2. exists j2, a2. split; [done|]. split; [|by eapply freed_trans]. etrans; [exact E2|]. do 2 f_equal. unfold with_jn, with_inode. cbn. by rewrite list_insert_insert_eq.
Qed.

Lemma freed_push sb R a a' D n b : freed sb R (j_push a n b) a' D → freed sb R a (j_pop a') D.
Proof. intros [F1 F2 F3 F4 F5 F6 F7 F8]. constructor; try done. cbn. by rewrite F3. Qed.
Lemma room_push sb R a n m b : room sb R a (n + 1) → room sb R (j_push a m b) n.
Proof. intros [H1 H2 H3]. constructor; [done|..]; change (charge R (j_push a m b)) with (charge R a); cbn; lia. Qed.
Lemma elem_logged a n : n ∈ j_dirty a ↔ n ∈ logged a.
Proof. unfold logged. by rewrite elem_of_list_to_set. Qed.

(** The pointers in the indirect block [B]. *)
Definition entries (d : block) : list Z := (λ i, get32 d (Z.to_nat (4 * i))) <$> seqZ 0 NINDIRECT.

Lemma trunc_ind_ok (s : fst_) R a i x : jinv (jn s) a → layout (sb s) a → j_held a = [] → room (sb s) R a 2 →
  inodes s !! i = Some x → dev x = ROOTDEV → length (addrs x) = 13%nat → ind (addrs x) ≠ 0 →
  let l := entries (j_view a (ind (addrs x))) in
  freeable (sb s) a (ind (addrs x)) → (∀ b, b ∈ nzs l → freeable (sb s) a b) → ind (addrs x) ∉ nzs l →
  (∀ i1 i2 v, l !! i1 = Some v → l !! i2 = Some v → v ≠ 0 → i1 = i2) →
  ∃ j a', jinv j a' ∧
    (bp ← on_log (bread ROOTDEV (ind (addrs x)));
     d ← on_log (bdata bp);
     trunc_indirect (Z.to_nat NINDIRECT) 0 ROOTDEV d;;
     on_log (brelse bp);;
     bfree ROOTDEV (ind (addrs x));;
     put_addr i NDIRECT 0) s = Ok (tt, with_jn j (with_inode i (set_addrs (<[12%nat := 0]> (addrs x)) x) s)) ∧
    freed (sb s) R a a' (nzs l ∪ {[ind (addrs x)]}).
Proof.
  intros I L Hh HR Hx Hd Hl Hi l Hfi Hf Hni Hinj. set (B := ind (addrs x)) in *. pose proof Hfi as (B1 & B2 & B3 & B4).
  assert (B ∉ (j_held a).*1) as Hnh by (rewrite Hh; apply not_elem_of_nil).
  destruct (bread_ok (jn s) a B I Hnh) as (bp & j1 & E1 & I1); [eapply room_bread; [done|by eapply jinv_nodup|lia]|].
  pose proof (bdata_ok j1 _ _ bp (j_held a) I1 eq_refl) as E2. cbn in E2.
  rewrite (bind_Ok _ _ _ _ _ (on_log_ok _ s bp j1 E1)), (bind_Ok _ _ _ _ _ (on_log_ok _ (with_jn j1 s) _ j1 E2)).
  destruct (trunc_indirect_ok (Z.to_nat NINDIRECT) 0 (with_jn j1 (with_jn j1 s)) R (j_push a B bp) (j_view a B)) as (j3 & a3 & I3 & E3 & A3); cbn [sb jn with_jn].
  { done. } { by apply layout_push. } { intros c Hc. cbn. rewrite Hh. intros E%list_elem_of_singleton. by apply (B4 c). }
  { by apply room_push. } { intros b Hb. destruct (Hf b Hb) as (? & ? & ? & ?). done. } { done. }
  rewrite (bind_Ok _ _ _ _ _ E3). change (Z.of_nat (Z.to_nat NINDIRECT)) with NINDIRECT in A3. fold (entries (j_view a B)) in A3. fold l in A3.
  pose proof (fr_held _ _ _ _ _ A3) as Hh3. cbn in Hh3. rewrite Hh in Hh3.
  destruct (brelse_ok j3 a3 B bp [] I3 Hh3) as (j4 & E4 & I4).
  { destruct (decide (B ∈ j_dirty a)) as [Hdi|Hcl].
    - left. apply elem_logged, (fr_more _ _ _ _ _ A3). by apply elem_logged.
    - right. rewrite (fr_view _ _ _ _ _ A3 B B4), (fr_disk _ _ _ _ _ A3). cbn. by eapply jinv_clean. }
  apply freed_push in A3. rewrite (bind_Ok _ _ _ _ _ (on_log_ok _ (with_jn j3 s) _ j4 E4)).
  destruct (bfree_one (with_jn j4 s) R (j_pop a3) B) as (j5 & a5 & I5 & E5 & A5); cbn [sb jn with_jn].
  { done. } { by eapply freeable_layout. } { intros c Hc. rewrite (fr_held _ _ _ _ _ A3), Hh. apply not_elem_of_nil. }
  { eapply freed_room; [done|]. by eapply room_mono. } { lia. }
  { by destruct (freeable_after _ _ _ _ _ _ A3 Hni Hfi) as (_ & ? & _). }
  change (with_jn j4 (with_jn j3 s)) with (with_jn j4 s). rewrite (bind_Ok _ _ _ _ _ E5).
  exists j5, a5. split; [done|]. split; [|by eapply freed_trans]. by rewrite (put_addr_ok _ i x).
Qed.

Lemma nzs_elem l b : b ∈ nzs l ↔ b ≠ 0 ∧ ∃ t, l !! t = Some b.
Proof. unfold nzs. rewrite elem_of_difference, elem_of_list_to_set, elem_of_singleton, list_elem_of_lookup. tauto. Qed.
(** The direct pointers, and those of the indirect block, as slots. *)
Lemma direct_slot v l t b : take 12 l !! t = Some b → (length l = 13)%nat → (t < 12)%nat ∧ ptr v l (Z.of_nat t) = b.
Proof.
  intros H Hl. pose proof (lookup_lt_Some _ _ _ H) as Ht. rewrite length_take in Ht. rewrite lookup_take_lt in H by lia. split; [lia|].
  rewrite ptr_direct by fs_lia. rewrite Nat2Z.id. by apply list_lookup_total_correct.
Qed.
Lemma entry_slot v l t b : entries (v (ind l)) !! t = Some b → ind l ≠ 0 → (t < 256)%nat ∧ ptr v l (NDIRECT + Z.of_nat t) = b.
Proof.
  unfold entries. rewrite list_lookup_fmap. intros H Hi. destruct (seqZ 0 NINDIRECT !! t) as [z|] eqn:Ez; [|done]. apply lookup_seqZ in Ez as [-> Ht].
  injection H as <-. split; [fs_lia|]. rewrite ptr_indirect by fs_lia. rewrite (proj2 (Z.eqb_neq _ 0) Hi). do 3 f_equal. lia.
Qed.
Lemma slot_nzs v l u : (length l = 13)%nat → 0 ≤ u ≤ MAXFILE → ptr v l u ≠ 0 →
  ptr v l u ∈ nzs (take 12 l) ∨ ind l ≠ 0 ∧ (ptr v l u ∈ nzs (entries (v (ind l))) ∨ ptr v l u = ind l).
Proof.
  intros Hl Hu Hp. destruct (ptr_cases u Hu) as [Hd|[->|Hi]].
  - left. apply nzs_elem. split; [done|]. exists (Z.to_nat u). rewrite lookup_take_lt by fs_lia. rewrite ptr_direct by done.
    apply list_lookup_lookup_total_lt. fs_lia.
  - right. split; [done|]. by right.
  - right. rewrite ptr_indirect in * by done. destruct (Z.eqb_spec (ind l) 0) as [|Hne]; [done|]. split; [done|]. left.
    apply nzs_elem. split; [done|]. exists (Z.to_nat (u - NDIRECT)). unfold entries. rewrite list_lookup_fmap, lookup_seqZ_lt by fs_lia.
    cbn. do 3 f_equal. lia.
Qed.

(** All that [itrunc] frees, in the two phases. *)
Definition blocks_of (v : Z → block) (l : list Z) : gset Z :=
  nzs (take 12 l) ∪ (if ind l =? 0 then ∅ else nzs (entries (v (ind l))) ∪ {[ind l]}).
Lemma blocks_of_elem v l b : (length l = 13)%nat → b ∈ blocks_of v l ↔ b ≠ 0 ∧ ∃ t, 0 ≤ t ≤ MAXFILE ∧ b = ptr v l t.
Proof.
  intros Hl. unfold blocks_of. rewrite elem_of_union. split.
  - intros [[Hb [t Ht]]%nzs_elem|H].
    + destruct (direct_slot v l t b Ht Hl) as [? <-]. split; [done|]. exists (Z.of_nat t). split; [fs_lia|done].
    + destruct (Z.eqb_spec (ind l) 0) as [|Hi]; [by apply elem_of_empty in H|]. apply elem_of_union in H as [[Hb [t Ht]]%nzs_elem|Hs%elem_of_singleton]; [|subst b].
      * destruct (entry_slot v l t b Ht Hi) as [? <-]. split; [done|]. exists (NDIRECT + Z.of_nat t). split; [fs_lia|done].
      * split; [done|]. exists MAXFILE. split; [fs_lia|done].
  - intros (Hb & t & Ht & ->). destruct (slot_nzs v l t Hl Ht Hb) as [|[Hi Hor]]; [by left|]. right. rewrite (proj2 (Z.eqb_neq _ 0) Hi).
    apply elem_of_union. destruct Hor as [Hor|Hor]; [by left|]. right. rewrite Hor. by apply elem_of_singleton.
Qed.

Lemma zero_all l : length l = 13%nat → <[12%nat := 0]> (zero_from 12 0 l) = replicate 13 0.
Proof.
  intros Hl. apply list_eq_same_length with 13%nat; [by rewrite length_replicate|by rewrite length_insert, zero_from_length|].
  intros t x y Ht Hx Hy. apply lookup_replicate in Hy as [-> _]. destruct (decide (t = 12%nat)) as [->|Hne].
  - rewrite list_lookup_insert_eq in Hx by (rewrite zero_from_length; lia). congruence.
  - rewrite list_lookup_insert_ne in Hx by done. apply list_lookup_total_correct in Hx. rewrite zero_from_lookup in Hx by lia.
    rewrite bool_decide_true in Hx by lia. congruence.
Qed.
Lemma zero_ind l : length l = 13%nat → ind (zero_from 12 0 l) = ind l.
Proof. intros Hl. unfold ind. rewrite zero_from_lookup by lia. by rewrite bool_decide_false by lia. Qed.

(** The two phases of [itrunc]. *)
Lemma trunc_blocks (s : fst_) R a i x : jinv (jn s) a → layout (sb s) a → j_held a = [] → room (sb s) R a 2 →
  inodes s !! i = Some x → dev x = ROOTDEV → inode_wf (sb s) a (addrs x) →
  ∃ j a', jinv j a' ∧ freed (sb s) R a a' (blocks_of (j_view a) (addrs x)) ∧
    itrunc i s = (mod_inode i (set_isize 0);; iupdate i) (with_jn j (with_inode i (set_addrs (replicate 13 0) x) s)).
Proof.
  intros I L Hh HR Hx Hd W. pose proof (iw_len _ _ _ W) as Hl. remember (addrs x) as l eqn:El.
  assert (∀ t, 0 ≤ t ≤ MAXFILE → ptr (j_view a) l t ≠ 0 → freeable (sb s) a (ptr (j_view a) l t)) as Hfr by (intros t Ht Hp; exact (iw_range _ _ _ W t Ht Hp)).
  assert (clear_of (sb s) a) as HA by (intros c Hc; rewrite Hh; apply not_elem_of_nil).
  destruct (trunc_direct_ok 12 0 s R a i x I L HA ltac:(by eapply room_mono) Hx Hd ltac:(by rewrite <- El) ltac:(lia)) as (j & a1 & I1 & E1 & A1); rewrite <- ?El.
  { rewrite drop_0. intros b [Hb [t Ht]]%nzs_elem. destruct (direct_slot (j_view a) _ t b Ht Hl) as [? <-]. apply Hfr; [fs_lia|done]. }
  { rewrite drop_0. intros i1 i2 w H1 H2 Hw. destruct (direct_slot (j_view a) _ _ _ H1 Hl) as [? E1], (direct_slot (j_view a) _ _ _ H2 Hl) as [? E2].
    pose proof (iw_inj _ _ _ W (Z.of_nat i1) (Z.of_nat i2) ltac:(fs_lia) ltac:(fs_lia) ltac:(by rewrite E1) (eq_trans E1 (eq_sym E2))). lia. }
  rewrite <- El in E1, A1. rewrite drop_0 in A1. set (x1 := set_addrs (zero_from 12 0 l) x). set (s1 := with_jn j (with_inode i x1 s)).
  assert (∀ t, NDIRECT ≤ t ≤ MAXFILE → ptr (j_view a) l t ≠ 0 → ptr (j_view a) l t ∉ nzs (take 12 l)) as Hout.
  { intros t Ht Hp [_ [u Hu]]%nzs_elem. destruct (direct_slot (j_view a) l u _ Hu Hl) as [? E].
    pose proof (iw_inj _ _ _ W (Z.of_nat u) t ltac:(fs_lia) ltac:(fs_lia) ltac:(by rewrite E) E). fs_lia. }
  assert (inodes s1 !! i = Some x1) as Hx1 by (apply list_lookup_insert_eq; by eapply lookup_lt_Some).
  assert (length (addrs x1) = 13%nat) as Hl1 by (change (length (zero_from 12 0 l) = 13%nat); by rewrite zero_from_length).
  unfold itrunc. change 0 with (Z.of_nat 0) at 1. rewrite (bind_Ok _ _ _ _ _ E1). fold s1 x1.
  rewrite (bind_Ok _ _ _ _ _ (get_inode_ok s1 i x1 Hx1)), (bind_Ok _ _ _ _ _ (get_addr_ok s1 i x1 NDIRECT Hx1 Hl1 ltac:(fs_lia))).
  change (addrs x1 !!! Z.to_nat NDIRECT) with (ind (addrs x1)). assert (ind (addrs x1) = ind l) as Ei by (by apply zero_ind). rewrite Ei.
  change (dev x1) with (dev x). rewrite Hd. unfold blocks_of. destruct (Z.eqb_spec (ind l) 0) as [Hi|Hi]; cbn [negb].
  - exists j, a1. split; [done|]. split; [by rewrite union_empty_r_L|]. unfold s1, x1. do 2 f_equal.
    assert (zero_from 12 0 l = replicate 13 0) as ->; [|done]. rewrite <- (zero_all l Hl). symmetry. apply list_insert_id.
    rewrite list_lookup_lookup_total_lt by (rewrite zero_from_length; lia). f_equal. change (ind (zero_from 12 0 l) = 0). by rewrite zero_ind.
  - assert (ptr (j_view a) l MAXFILE = ind l) as Em by done. pose proof (Hfr MAXFILE ltac:(fs_lia) Hi) as Hfi. rewrite Em in Hfi.
    assert (j_view a1 (ind l) = (j_view a) (ind l)) as Ev by (apply (fr_view _ _ _ _ _ A1); apply Hfi).
    assert (∀ b, b ∈ nzs (entries (j_view a (ind l))) → ∃ t, NDIRECT ≤ t < MAXFILE ∧ b = ptr (j_view a) l t ∧ b ≠ 0) as Hen.
    { intros b [Hb [t Ht]]%nzs_elem. destruct (entry_slot (j_view a) l t b Ht Hi) as [? <-]. exists (NDIRECT + Z.of_nat t). split_and!; [fs_lia|fs_lia|done|done]. }
    destruct (trunc_ind_ok s1 R a1 i x1 I1) as (j2 & a2 & I2 & E2 & A2); rewrite ?Ei, ?Ev; try done.
    { eapply freeable_layout; [done..|]. intros b [Hb [t Ht]]%nzs_elem. destruct (direct_slot (j_view a) l t b Ht Hl) as [? <-]. apply Hfr; [fs_lia|done]. }
    { by rewrite (fr_held _ _ _ _ _ A1). } { by eapply freed_room. }
    { eapply freeable_after; [done| |done]. rewrite <- Em. apply Hout; [fs_lia|done]. }
    { intros b (t & Ht & -> & Hb)%Hen. eapply freeable_after; [done| |apply Hfr; [fs_lia|done]]. apply Hout; [fs_lia|done]. }
    { intros (t & Ht & E & Hb)%Hen. rewrite <- Em in E. pose proof (iw_inj _ _ _ W MAXFILE t ltac:(fs_lia) ltac:(fs_lia) Hi E). fs_lia. }
    { intros i1 i2 w H1 H2 Hw. destruct (entry_slot (j_view a) l _ _ H1 Hi) as [? X1], (entry_slot (j_view a) l _ _ H2 Hi) as [? X2].
      pose proof (iw_inj _ _ _ W (NDIRECT + Z.of_nat i1) (NDIRECT + Z.of_nat i2) ltac:(fs_lia) ltac:(fs_lia) ltac:(by rewrite X1) (eq_trans X1 (eq_sym X2))). lia. }
    rewrite Ei in E2. rewrite Ei, Ev in A2. exists j2, a2. split; [done|]. split; [by eapply freed_trans|].
    rewrite (bind_Ok _ _ _ _ _ E2). set (k := mod_inode i (set_isize 0);; iupdate i). change (addrs x1) with (zero_from 12 0 l). rewrite zero_all by done.
    f_equal. change (with_jn j2 (with_inode i (set_addrs (replicate 13 0) x) (with_inode i x1 s)) = with_jn j2 (with_inode i (set_addrs (replicate 13 0) x) s)).
    by rewrite with_inode_twice.
Qed.

Definition truncated (x : inode) : inode := set_isize 0 (set_addrs (replicate 13 0) x).
Lemma ptr_zero v t : 0 ≤ t ≤ MAXFILE → ptr v (replicate 13 0) t = 0.
Proof.
  intros Ht. destruct (ptr_cases t Ht) as [Hd|[->|Hi]]; [|done|by rewrite ptr_indirect].
  rewrite ptr_direct by done. apply lookup_total_replicate_2. fs_lia.
Qed.
Lemma zero_wf sb a : inode_wf sb a (replicate 13 0).
Proof. constructor; [done|intros t Ht; by rewrite ptr_zero|]. intros t1 t2 H1 H2. by rewrite ptr_zero. Qed.
Lemma truncated_fits x : inode_fits x → inode_fits (truncated x).
Proof. intros []. constructor; cbn; try done. by repeat constructor. Qed.
Lemma truncated_node sb a x : inode_fits x → (∀ n, 0 ≤ n < ninodes sb → IBLOCK n sb ≠ 0) → node_ok sb a (truncated x).
Proof.
  intros F HB. constructor; [by apply truncated_fits|apply zero_wf|done|cbn; lia|].
  intros t n Ht Hn. cbn. rewrite ptr_zero by done. apply not_eq_sym. by apply HB.
Qed.

Lemma own_blocks sb v x b : synced sb v x → length (addrs x) = 13%nat → own sb v (inum x) b ↔ b ∈ blocks_of v (addrs x).
Proof.
  intros [_ Sl Sc] Hl. apply core_eq in Sc as (_ & _ & _ & _ & _ & Ea). rewrite blocks_of_elem by done. unfold own, fptr. rewrite Ea. tauto.
Qed.

Lemma trunc_pending sb R a a' x : fs_wf sb a → synced sb (j_view a) x → freed sb R a a' (blocks_of (j_view a) (addrs x)) →
  pending sb a a' (inum x) (truncated x).
Proof.
  intros F Sy A. pose proof (synced_node _ _ _ F Sy) as N. pose proof (iw_len _ _ _ (no_wf _ _ _ N)) as Hl. constructor.
  - apply Sy.
  - apply A.
  - intros c Hc Hu. rewrite (fr_used _ _ _ _ _ A c Hc), Hu. rewrite (own_blocks sb (j_view a) x c Sy Hl). case_bool_decide; [by left|by right].
  - intros m Hm Hu Hi Hb. right. by apply A.
  - intros k Hk. apply A. apply (fw_iblock _ _ F k Hk).
  - apply truncated_fits, N.
  - intros _. apply truncated_node; [apply N|]. intros n Hn. by apply (fw_iblock _ _ F n Hn).
  - intros t _ Ht. cbn. by rewrite ptr_zero.
Qed.

Lemma itrunc_ok (s : fst_) R a i x : jinv (jn s) a → j_held a = [] → fs_wf (sb s) a → room (sb s) R a 2 → IBLOCK (inum x) (sb s) ∈ R →
  inodes s !! i = Some x → synced (sb s) (j_view a) x →
  ∃ j a', itrunc i s = Ok (tt, with_jn j (with_inode i (truncated x) s)) ∧ jinv j a' ∧ file_step (sb s) a a' (inum x) ∧
    synced (sb s) (j_view a') (truncated x) ∧ j_held a' = [] ∧ j_cap a' = j_cap a ∧ j_disk a' = j_disk a ∧ room (sb s) R a' 2 ∧
    ∀ c, 0 ≤ c < size (sb s) → used_blk (sb s) (j_view a') c = negb (bool_decide (c ∈ blocks_of (j_view a) (addrs x))) && used_blk (sb s) (j_view a) c.
Proof.
  intros I Hh F HR HB Hx Sy. pose proof (synced_node _ _ _ F Sy) as N. pose proof Sy as [Sd Sl Sc].
  destruct (trunc_blocks s R a i x I (fw_layout _ _ F) Hh HR Hx Sd (no_wf _ _ _ N)) as (j & a1 & I1 & A & E). rewrite E.
  set (x1 := set_addrs (replicate 13 0) x). pose proof (trunc_pending _ _ _ _ x F Sy A) as P.
  set (s1 := with_jn j (with_inode i x1 s)).
  assert (inodes s1 !! i = Some x1) as Hx1 by (apply list_lookup_insert_eq; by eapply lookup_lt_Some).
  rewrite (bind_Ok _ _ _ _ _ (mod_inode_ok s1 i x1 _ Hx1)).
  change (with_inode i (set_isize 0 x1) s1) with (with_jn j (with_inode i (truncated x) (with_inode i x1 s))). rewrite with_inode_twice.
  pose proof (freed_room _ _ _ _ _ _ A HR) as HR1.
  destruct (iupdate_ok (with_jn j (with_inode i (truncated x) s)) a1 i (truncated x)) as (j2 & a2 & I2 & W2 & E3); cbn [sb jn inodes with_jn with_inode] in *.
  { done. } { rewrite (fr_held _ _ _ _ _ A), Hh. apply not_elem_of_nil. } { eapply room_slot; [exact HR1|by eapply jinv_nodup|lia]. }
  { assert (j_home a (IBLOCK (inum x) (sb s))) as [H1 H2] by (apply iblock_home; [done|destruct Sl; lia]). split; [done|]. by rewrite (fr_log _ _ _ _ _ A). }
  { apply list_lookup_insert_eq. by eapply lookup_lt_Some. } { done. } { apply P. } { destruct Sl; cbn; lia. }
  rewrite E3. cbv zeta in W2. pose proof (jinv_size _ _ I1 (IBLOCK (inum x) (sb s))) as HS.
  assert (type (truncated x) ≠ 0) as HT by (destruct Sl as [_ HT]; apply core_eq in Sc as (Et & _); change (type x ≠ 0); by rewrite <- Et).
  exists j2, a2. split_and!.
  - done.
  - done.
  - apply (commit_step _ _ _ _ _ _ _ F P HS W2).
  - by apply (commit_synced _ _ _ _ _ _ _ F P HS W2).
  - by rewrite (wr_held _ _ _ _ W2), (fr_held _ _ _ _ _ A).
  - by rewrite (wr_cap _ _ _ _ W2), (fr_cap _ _ _ _ _ A).
  - by rewrite (wr_disk _ _ _ _ W2), (fr_disk _ _ _ _ _ A).
  - eapply (room_logged _ _ a1 _ 2 2 ∅); [done| |done|apply W2|apply W2]. rewrite (wr_logged _ _ _ _ W2). cbn. clear -HB. set_solver.
  - intros c Hc. rewrite (commit_used _ _ _ _ _ _ _ F P HS W2) by done. by apply A.
Qed.
End trunc.
End FsTrunc.
