(* ===== verification/FsTable.v ===== *)
(** * The inode table

    [iget], [idup] and [iput] as reference counting on a table with at most one
    entry for each inode; [ilock] reads an inode, [ialloc] makes one, and [iput]
    of the last reference to an inode without links frees it. *)

From S2P Require Import Prelude Bytes BufCache Journal UserMem Fs FsBlocks FsMap FsFile FsWrite FsInode FsState FsOps FsTrunc.
Import Bytes Journal UserMem Fs FsBlocks FsMap FsFile FsWrite FsInode FsState FsOps FsTrunc.
Import BufCache (block, BSIZE, ROOTDEV, zero_blk, NBUF).

Module FsTable.

(** The entry refers to inode [n] of device [d]. *)
Definition holds (x : inode) (d n : Z) : bool := (0 <? ref x) && (dev x =? d) && (inum x =? n).

Record table_ok (sb : superblock) (v : Z → block) (l : list inode) : Prop := {
  tb_len : length l = Z.to_nat NINODE;
  tb_ref i x : l !! i = Some x → 0 ≤ ref x < 2 ^ 31 - 1;
  tb_one i j x y : l !! i = Some x → l !! j = Some y → 0 < ref x → 0 < ref y → dev x = dev y → inum x = inum y → i = j;
  tb_sync i x : l !! i = Some x → 0 < ref x → valid x = true → synced sb v x;
  tb_dev i x : l !! i = Some x → 0 < ref x → dev x = ROOTDEV ∧ 0 < inum x < ninodes sb;
  tb_lock i x : l !! i = Some x → ilocked x = true → 0 < ref x }.

(** The scan of [iget]. *)
Lemma iget_scan_ok d n l : ∀ k i e, (i + k = length l)%nat →
  match iget_scan k i d n l e with
  | inl j => (i ≤ j < i + k)%nat ∧ ∃ x, l !! j = Some x ∧ holds x d n = true
  | inr e' => (∀ j x, (i ≤ j)%nat → l !! j = Some x → holds x d n = false) ∧
      match e with
      | Some _ => e' = e
      | None => match e' with
                | Some j => (i ≤ j)%nat ∧ (∃ x, l !! j = Some x ∧ ref x = 0) ∧ ∀ m x, (i ≤ m < j)%nat → l !! m = Some x → ref x ≠ 0
                | None => ∀ j x, (i ≤ j)%nat → l !! j = Some x → ref x ≠ 0
                end
      end
  end.
Proof.
  induction k as [|k IH]; intros i e Hk; cbn [iget_scan].
  - split; [|destruct e; [done|]]; intros j x Hj Hx; apply lookup_lt_Some in Hx; lia.
  - destruct (lookup_lt_is_Some_2 l i ltac:(lia)) as [x Hx]. rewrite Hx. fold (holds x d n). destruct (holds x d n) eqn:Eh; [split; [lia|by exists x]|].
    specialize (IH (i + 1)%nat (match e with None => if ref x =? 0 then Some i else None | Some _ => e end) ltac:(lia)).
    destruct (iget_scan _ _ _ _ _ _) as [j|e'].
    + destruct IH as [H1 H2]. split; [lia|done].
    + destruct IH as [H1 H2]. split.
      { intros j y Hj Hy. destruct (decide (j = i)) as [->|]; [congruence|]. apply (H1 j y); [lia|done]. }
      destruct e as [e|]; [done|]. destruct (Z.eqb_spec (ref x) 0) as [E0|E0].
      * subst e'. split; [lia|]. split; [by exists x|]. lia.
      * destruct e' as [j|].
        -- destruct H2 as (Hj & Hz & Hf). split; [lia|]. split; [done|]. intros m y Hm Hy. destruct (decide (m = i)) as [->|]; [congruence|]. apply (Hf m y); [lia|done].
        -- intros j y Hj Hy. destruct (decide (j = i)) as [->|]; [congruence|]. apply (H2 j y); [lia|done].
Qed.

Section table.
Context {S M : Type} `{JN : Journaled S} `{UM : UserMemory M}.
#[local] Abbreviation fst_ := (@fst_ S M).

(** One entry changes. *)
Lemma table_update sb v l i x y : table_ok sb v l → l !! i = Some x → 0 ≤ ref y < 2 ^ 31 - 1 →
  (0 < ref y → dev y = ROOTDEV ∧ 0 < inum y < ninodes sb) → (ilocked y = true → 0 < ref y) →
  (0 < ref y → valid y = true → synced sb v y) →
  (0 < ref y → ∀ j z, l !! j = Some z → j ≠ i → holds z (dev y) (inum y) = false) → table_ok sb v (<[i := y]> l).
Proof.
  intros [T1 T2 T3 T4 T5 T6] Hx Hr Hd Hk Hs Hf. pose proof (lookup_lt_Some _ _ _ Hx) as Hi.
  assert (∀ j z, <[i := y]> l !! j = Some z → j = i ∧ z = y ∨ j ≠ i ∧ l !! j = Some z) as Hcase.
  { intros j z Hz. apply list_lookup_insert_Some in Hz as [(<- & <- & _)|[? ?]]; [by left|by right]. }
  assert (∀ j z, l !! j = Some z → j ≠ i → 0 < ref z → 0 < ref y → ¬ (dev z = dev y ∧ inum z = inum y)) as Hne.
  { intros j z Hz Hj Hz0 Hy0 [E1 E2]. specialize (Hf Hy0 j z Hz Hj). unfold holds in Hf. rewrite E1, E2, !Z.eqb_refl, (proj2 (Z.ltb_lt 0 (ref z)) Hz0) in Hf. done. }
  constructor; [by rewrite length_insert|..].
  - intros j z [[-> ->]|[_ Hz]]%Hcase; [done|by eapply T2].
  - intros j k z w Hz Hw Hz0 Hw0 E1 E2. apply Hcase in Hz as [[-> ->]|[Hj Hz]], Hw as [[-> ->]|[Hk' Hw]]; [done|..].
    + destruct (Hne k w Hw Hk' Hw0 Hz0). done.
    + destruct (Hne j z Hz Hj Hz0 Hw0). done.
    + by eapply T3.
  - intros j z [[-> ->]|[_ Hz]]%Hcase; [done|by eapply T4].
  - intros j z [[-> ->]|[_ Hz]]%Hcase; [done|by eapply T5].
  - intros j z [[-> ->]|[_ Hz]]%Hcase; [done|by eapply T6].
Qed.
(** Another entry does not hold the same inode. *)
Lemma table_other sb v l i x j z : table_ok sb v l → l !! i = Some x → 0 < ref x → l !! j = Some z → j ≠ i → holds z (dev x) (inum x) = false.
Proof.
  intros T Hx Hr Hz Hj. unfold holds. destruct (Z.ltb_spec 0 (ref z)) as [Hz0|]; [|done]. destruct (Z.eqb_spec (dev z) (dev x)) as [E1|]; [|done].
  destruct (Z.eqb_spec (inum z) (inum x)) as [E2|]; [|done]. exfalso. apply Hj. by eapply (tb_one _ _ _ T).
Qed.

(** ** References *)

(** What [iget] finds: the entry of the inode, or the first free one. *)
Lemma iget_ok (s : fst_) v n : itlock s = false → table_ok (sb s) v (inodes s) → 0 < n < ninodes (sb s) →
  (∀ i x, inodes s !! i = Some x → ref x < 2 ^ 31 - 2) → (∃ i x, inodes s !! i = Some x ∧ (ref x = 0 ∨ holds x ROOTDEV n = true)) →
  ∃ i x, let y := if holds x ROOTDEV n then set_ref (ref x + 1) x
                  else mkInode ROOTDEV n 1 (ilocked x) false (type x) (major x) (minor x) (nlink x) (isize x) (addrs x) in
    inodes s !! i = Some x ∧ (holds x ROOTDEV n = true ∨ ref x = 0 ∧ ∀ j z, inodes s !! j = Some z → holds z ROOTDEV n = false) ∧
    iget ROOTDEV n s = Ok (i, with_inode i y s) ∧ table_ok (sb s) v (inodes (with_inode i y s)).
Proof.
  intros HL T Hn Hmax Hex. unfold iget, acquire_it. rewrite (bind_Ok _ _ s tt (mkFs (sb s) (inodes s) true (jn s) (um s))) by by rewrite HL.
  set (s1 := mkFs _ _ true _ _). rewrite (bind_Ok (gets inodes) _ s1 (inodes s) s1) by done.
  pose proof (iget_scan_ok ROOTDEV n (inodes s) (Z.to_nat NINODE) 0 None ltac:(rewrite (tb_len _ _ _ T); lia)) as Hscan.
  destruct (iget_scan _ _ _ _ _ _) as [i|[i|]].
  - destruct Hscan as (Hi & x & Hx & Hh). exists i, x. cbv zeta. rewrite Hh. split; [done|]. split; [by left|].
    pose proof (tb_ref _ _ _ T i x Hx) as Hr. pose proof (Hmax i x Hx). pose proof Hh as Hh'. unfold holds in Hh'.
    apply andb_true_iff in Hh' as [[H1%Z.ltb_lt H2%Z.eqb_eq]%andb_true_iff H3%Z.eqb_eq]. split.
    + rewrite (bind_Ok _ _ _ _ _ (mod_inode_ok s1 i x _ Hx)). rewrite i32_small by lia. unfold with_inode. rewrite HL. done.
    + cbn. apply (table_update _ _ _ _ x); try done; cbn; [lia|by intros _; apply (tb_dev _ _ _ T i x)|by intros _; lia|..].
      * intros _ Hv. destruct (tb_sync _ _ _ T i x Hx H1 Hv). done.
      * intros _ j z Hz Hj. by eapply (table_other _ _ _ i x).
  - destruct Hscan as [Hno (Hi & (x & Hx & Hr0) & Hfirst)]. exists i, x. cbv zeta. pose proof (Hno i x ltac:(lia) Hx) as Hh. rewrite Hh.
    split; [done|]. split; [right; split; [done|intros j z Hz; by apply (Hno j z); [lia|]]|]. split.
    + rewrite (bind_Ok _ _ _ _ _ (mod_inode_ok s1 i x _ Hx)). unfold with_inode. rewrite HL. done.
    + cbn. apply (table_update _ _ _ _ x); try done; cbn; try lia. intros _ j z Hz Hj. apply (Hno j z); [lia|done].
  - destruct Hscan as [Hno Hz]. destruct Hex as (i & x & Hx & [H0|H1]); exfalso; [by apply (Hz i x ltac:(lia) Hx)|].
    rewrite (Hno i x ltac:(lia) Hx) in H1. done.
Qed.

(** ** Locking *)

(** The entry once it is locked and read. *)
Definition loaded (sb : superblock) (v : Z → block) (x : inode) : inode :=
  if valid x then set_ilocked true x
  else let d := dn sb v (inum x) in
       mkInode (dev x) (inum x) (ref x) true true (type d) (major d) (minor d) (nlink d) (isize d) (addrs d).

Lemma loaded_synced sb v x : (valid x = true → synced sb v x) → dev x = ROOTDEV → live sb v (inum x) → synced sb v (loaded sb v x).
Proof.
  intros Hv Hd Hl. unfold loaded. destruct (valid x) eqn:E; [by destruct (Hv eq_refl)|]. by constructor.
Qed.
Lemma loaded_fields sb v x : dev (loaded sb v x) = dev x ∧ inum (loaded sb v x) = inum x ∧ ref (loaded sb v x) = ref x ∧
  ilocked (loaded sb v x) = true ∧ valid (loaded sb v x) = true.
Proof. unfold loaded. by destruct (valid x) eqn:E. Qed.
Lemma loaded_core sb v x : (valid x = true → synced sb v x) → core (loaded sb v x) = core (dn sb v (inum x)).
Proof. intros Hv. unfold loaded. destruct (valid x) eqn:E; [|done]. symmetry. by apply (sy_core _ _ _ (Hv eq_refl)). Qed.

Lemma ilock_ok (s : fst_) a i x : jinv (jn s) a → j_held a = [] → j_room a → table_ok (sb s) (j_view a) (inodes s) →
  inodes s !! i = Some x → 0 < ref x → ilocked x = false → live (sb s) (j_view a) (inum x) →
  ∃ j, let y := loaded (sb s) (j_view a) x in
    ilock (Some i) s = Ok (tt, with_jn j (with_inode i y s)) ∧ jinv j a ∧ synced (sb s) (j_view a) y ∧
    table_ok (sb s) (j_view a) (<[i := y]> (inodes s)).
Proof.
  intros I Hh Hr T Hx Href Hl Hlive. set (y := loaded (sb s) (j_view a) x).
  assert (synced (sb s) (j_view a) y) as Sy by (apply loaded_synced; [by apply (tb_sync _ _ _ T i x)|by apply (tb_dev _ _ _ T i x)|done]).
  assert (table_ok (sb s) (j_view a) (<[i := y]> (inodes s))) as T'.
  { destruct (loaded_fields (sb s) (j_view a) x) as (Ed & En & Er & El & Ev). fold y in Ed, En, Er, El, Ev. apply (table_update _ _ _ i x); try done; rewrite ?Er, ?Ed, ?En.
    - by eapply (tb_ref _ _ _ T). - intros _. by eapply (tb_dev _ _ _ T). - done. - intros _ k z Hz Hk. by eapply table_other. }
  unfold ilock. rewrite (bind_Ok _ _ _ _ _ (get_inode_ok s i x Hx)). rewrite (proj2 (Z.ltb_ge (ref x) 1)) by lia.
  assert (acquiresleep i s = Ok (tt, with_inode i (set_ilocked true x) s)) as Ea.
  { unfold acquiresleep. rewrite (bind_Ok _ _ _ _ _ (get_inode_ok s i x Hx)), Hl. by apply mod_inode_ok. }
  rewrite (bind_Ok _ _ _ _ _ Ea). set (s1 := with_inode i (set_ilocked true x) s). cbv zeta. fold y. destruct (valid x) eqn:Ev.
  { exists (jn s). split; [|done]. unfold y, loaded. rewrite Ev. by destruct s. }
  rewrite (bind_Ok get_sb _ s1 (sb s) s1) by done. destruct (tb_dev _ _ _ T i x Hx Href) as [Hdev Hn]. rewrite Hdev.
  assert (∀ z w, inodes (with_inode i z s) !! i = Some z ∧ with_inode i w (with_inode i z s) = with_inode i w s) as Hw.
  { intros z w. split; [apply list_lookup_insert_eq; by eapply lookup_lt_Some|apply with_inode_twice]. }
  destruct (bread_ok (jn s) a (IBLOCK (inum x) (sb s)) I) as (bp & j1 & E1 & I1); [rewrite Hh; apply not_elem_of_nil|done|].
  pose proof (bdata_ok j1 _ _ bp (j_held a) I1 eq_refl) as E2. cbn in E2.
  destruct (brelse_ok j1 _ _ bp (j_held a) I1 eq_refl) as (j5 & E5 & I5).
  { cbn. destruct (decide (IBLOCK (inum x) (sb s) ∈ j_dirty a)); [by left|]. right. eapply jinv_clean; [done|done|]. rewrite Hh. apply not_elem_of_nil. }
  rewrite pop_push in I5. exists j5. split; [|done]. unfold y, loaded. rewrite Ev.
  rewrite (bind_Ok _ _ _ _ _ (on_log_ok _ s1 bp j1 E1)), (bind_Ok _ _ _ _ _ (on_log_ok _ (with_jn j1 s1) _ j1 E2)).
  set (d := j_view a (IBLOCK (inum x) (sb s))). set (x1 := set_ilocked true x).
  rewrite (bind_Ok _ _ _ _ _ (mod_inode_ok (with_jn j1 (with_jn j1 s1)) i x1 _ (proj1 (Hw x1 x1)))).
  rewrite (bind_Ok _ _ _ _ _ (on_log_ok _ (with_jn j1 (with_inode i (dinode_get d (dinode_off (inum x)) x1) s1)) _ j5 E5)).
  change (with_jn j5 (with_jn j1 (with_inode i (dinode_get d (dinode_off (inum x)) x1) s1)))
    with (with_jn j5 (with_inode i (dinode_get d (dinode_off (inum x)) x1) s1)). unfold s1. rewrite (proj2 (Hw _ _)).
  rewrite (bind_Ok _ _ _ _ _ (mod_inode_ok (with_jn j5 (with_inode i (dinode_get d (dinode_off (inum x)) x1) s)) i _ _ (proj1 (Hw _ x1)))).
  change (with_inode i (set_valid true (dinode_get d (dinode_off (inum x)) x1)) (with_jn j5 (with_inode i (dinode_get d (dinode_off (inum x)) x1) s)))
    with (with_jn j5 (with_inode i (set_valid true (dinode_get d (dinode_off (inum x)) x1)) (with_inode i (dinode_get d (dinode_off (inum x)) x1) s))).
  rewrite (proj2 (Hw _ _)). rewrite (bind_Ok _ _ _ _ _ (get_inode_ok (with_jn j5 (with_inode i _ s)) i _ (proj1 (Hw _ x1)))).
  destruct Hlive as [_ HT]. unfold dn, d in *. cbn [type set_valid dinode_get] in *. rewrite (proj2 (Z.eqb_neq _ 0)) by done. done.
Qed.

(** ** Freeing *)

(** A change to file [n] keeps the other entries. *)
Lemma synced_step sb a a' n y : file_step sb a a' n → synced sb (j_view a) y → inum y ≠ n → synced sb (j_view a') y.
Proof.
  intros St [Sd [Sr Sl] Sc] Hne. assert (dn sb (j_view a') (inum y) = dn sb (j_view a) (inum y)) as E by (apply (fs_dn _ _ _ _ St); [lia|done]).
  constructor; [done| |by rewrite E]. split; [done|by rewrite E].
Qed.
Lemma table_step sb a a' n l : file_step sb a a' n → table_ok sb (j_view a) l →
  (∀ j y, l !! j = Some y → 0 < ref y → valid y = true → inum y = n → synced sb (j_view a') y) → table_ok sb (j_view a') l.
Proof.
  intros St [T1 T2 T3 T4 T5 T6] H. constructor; try done. intros j y Hy Hr Hv. destruct (decide (inum y = n)); [by eapply H|].
  eapply synced_step; [done| |done]. by eapply T4.
Qed.
Lemma pending_dead sb a n x : fs_wf sb a → 0 < n < ninodes sb → inode_fits x → type x = 0 → pending sb a a n x.
Proof. intros F Hn Hf HT. constructor; try done; [intros c Hc Hu; by right|intros; by right]. Qed.

Lemma release_it_ok (s : fst_) : itlock s = true → release_it s = Ok (tt, mkFs (sb s) (inodes s) false (jn s) (um s)).
Proof. intros H. unfold release_it. by rewrite H. Qed.
Lemma acquire_it_ok (s : fst_) : itlock s = false → acquire_it s = Ok (tt, mkFs (sb s) (inodes s) true (jn s) (um s)).
Proof. intros H. unfold acquire_it. by rewrite H. Qed.
Definition with_lock (b : bool) (s : fst_) : fst_ := mkFs (sb s) (inodes s) b (jn s) (um s).

(** A reference is dropped. *)
Lemma iput_drop (s : fst_) v i x : itlock s = false → table_ok (sb s) v (inodes s) → inodes s !! i = Some x → 0 < ref x →
  (ilocked x = true → 1 < ref x) → (ref x =? 1) && valid x && (nlink x =? 0) = false →
  iput i s = Ok (tt, with_inode i (set_ref (ref x - 1) x) s) ∧ table_ok (sb s) v (<[i := set_ref (ref x - 1) x]> (inodes s)).
Proof.
  intros HL T Hx Hr Hlk Hc. pose proof (tb_ref _ _ _ T i x Hx) as Hb. split.
  - unfold iput. rewrite (bind_Ok _ _ _ _ _ (acquire_it_ok s HL)). set (s1 := mkFs _ _ true _ _).
    rewrite (bind_Ok _ _ _ _ _ (get_inode_ok s1 i x Hx)), Hc. rewrite (bind_Ok skip _ s1 tt s1) by done.
    rewrite (bind_Ok _ _ _ _ _ (mod_inode_ok s1 i x _ Hx)). rewrite i32_small by lia. unfold with_inode. by rewrite HL.
  - apply (table_update _ _ _ i x); try done; cbn; [lia|by intros; eapply (tb_dev _ _ _ T)|intros E; specialize (Hlk E); lia|..].
    + intros H1 H2. destruct (tb_sync _ _ _ T i x Hx Hr H2). done.
    + intros _ j z Hz Hj. by eapply table_other.
Qed.

(** The inode of a file that is gone. *)
Definition dead (x : inode) : inode := set_type 0 (truncated x).
Lemma dead_fits x : inode_fits x → inode_fits (dead x).
Proof. intros H%truncated_fits. destruct H. by constructor. Qed.

Lemma free_inode_ok (s : fst_) R a i x : jinv (jn s) a → j_held a = [] → fs_wf (sb s) a → room (sb s) R a 2 → IBLOCK (inum x) (sb s) ∈ R →
  inodes s !! i = Some x → synced (sb s) (j_view a) x →
  ∃ j a1 a', (itrunc i;; mod_inode i (set_type 0);; iupdate i) s = Ok (tt, with_jn j (with_inode i (dead x) s)) ∧ jinv j a' ∧
    file_step (sb s) a a1 (inum x) ∧ file_step (sb s) a1 a' (inum x) ∧ type (dn (sb s) (j_view a') (inum x)) = 0 ∧
    j_held a' = [] ∧ j_cap a' = j_cap a ∧ j_disk a' = j_disk a ∧ room (sb s) R a' 2 ∧
    ∀ c, 0 ≤ c < size (sb s) → used_blk (sb s) (j_view a') c = negb (bool_decide (c ∈ blocks_of (j_view a) (addrs x))) && used_blk (sb s) (j_view a) c.
Proof.
  intros I Hh F HR HB Hx Sy. pose proof (synced_node _ _ _ F Sy) as N.
  destruct (itrunc_ok s R a i x I Hh F HR HB Hx Sy) as (j & a1 & E1 & I1 & St1 & Sy1 & Hh1 & Hc1 & Hd1 & HR1 & Hu1). rewrite (bind_Ok _ _ _ _ _ E1).
  pose proof (step_wf _ _ _ _ F St1) as F1. set (s1 := with_jn j (with_inode i (truncated x) s)).
  assert (inodes s1 !! i = Some (truncated x)) as Hx1 by (apply list_lookup_insert_eq; by eapply lookup_lt_Some).
  rewrite (bind_Ok _ _ _ _ _ (mod_inode_ok s1 i _ _ Hx1)). fold (dead x).
  change (with_inode i (dead x) s1) with (with_jn j (with_inode i (dead x) (with_inode i (truncated x) s))). rewrite with_inode_twice.
  pose proof Sy as [Sd [Sl1 Sl2] Sc].
  assert (pending (sb s) a1 a1 (inum x) (dead x)) as P by (apply pending_dead; [done|done|apply dead_fits, N|done]).
  destruct (iupdate_ok (with_jn j (with_inode i (dead x) s)) a1 i (dead x)) as (j2 & a2 & I2 & W2 & E3); cbn [sb jn inodes with_jn with_inode] in *.
  { done. } { rewrite Hh1. apply not_elem_of_nil. } { eapply room_slot; [exact HR1|by eapply jinv_nodup|lia]. } { apply iblock_home; [done|cbn; lia]. }
  { apply list_lookup_insert_eq. by eapply lookup_lt_Some. } { done. } { done. } { cbn; lia. }
  cbv zeta in W2. pose proof (jinv_size _ _ I1 (IBLOCK (inum x) (sb s))) as HS. exists j2, a1, a2. split_and!; try done.
  - apply (commit_step _ _ _ _ _ _ _ F1 P HS W2).
  - by apply (core_eq _ _ (commit_dn _ _ _ _ _ _ _ F1 P HS W2)).
  - by rewrite (wr_held _ _ _ _ W2).
  - by rewrite (wr_cap _ _ _ _ W2).
  - by rewrite (wr_disk _ _ _ _ W2).
  - eapply (room_logged _ _ a1 _ 2 2 ∅); [done| |done|apply W2|apply W2]. rewrite (wr_logged _ _ _ _ W2). cbn. clear -HB. set_solver.
  - intros c Hc. rewrite (commit_used _ _ _ _ _ _ _ F1 P HS W2) by done. by apply Hu1.
Qed.

(** The last reference to an inode without links. *)
Lemma iput_free (s : fst_) R a i x : jinv (jn s) a → j_held a = [] → fs_wf (sb s) a → room (sb s) R a 2 → IBLOCK (inum x) (sb s) ∈ R →
  itlock s = false → table_ok (sb s) (j_view a) (inodes s) → inodes s !! i = Some x →
  ref x = 1 → valid x = true → nlink x = 0 → ilocked x = false →
  ∃ j a', let y := set_ref 0 (set_ilocked false (set_valid false (dead x))) in
    iput i s = Ok (tt, with_jn j (with_inode i y s)) ∧ jinv j a' ∧ fs_wf (sb s) a' ∧ table_ok (sb s) (j_view a') (<[i := y]> (inodes s)) ∧
    type (dn (sb s) (j_view a') (inum x)) = 0 ∧ (∀ k, live (sb s) (j_view a) k → k ≠ inum x → same_file (sb s) (j_view a) (j_view a') k) ∧
    j_held a' = [] ∧ j_cap a' = j_cap a ∧ (j_disk a' = j_disk a ∧ j_log a' = j_log a) ∧ room (sb s) R a' 2 ∧
    ∀ c, 0 ≤ c < size (sb s) → used_blk (sb s) (j_view a') c = negb (bool_decide (c ∈ blocks_of (j_view a) (addrs x))) && used_blk (sb s) (j_view a) c.
Proof.
  intros I Hh F HR HB HL T Hx Hr Hv Hn Hlk. assert (synced (sb s) (j_view a) x) as Sy by (eapply (tb_sync _ _ _ T); [done|lia|done]).
  assert (∀ z w, inodes (with_inode i z s) !! i = Some z ∧ with_inode i w (with_inode i z s) = with_inode i w s) as Hw.
  { intros z w. split; [apply list_lookup_insert_eq; by eapply lookup_lt_Some|apply with_inode_twice]. }
  set (x1 := set_ilocked true x). assert (synced (sb s) (j_view a) x1) as Sy1 by (by destruct Sy). cbv zeta.
  destruct (free_inode_ok (with_inode i x1 s) R a i x1 I Hh F HR HB (proj1 (Hw x1 x1)) Sy1) as (j & a1 & a2 & E & I2 & St1 & St2 & HT & Hh2 & Hc2 & Hd2 & HR2 & Hu2).
  change (sb (with_inode i x1 s)) with (sb s) in *. change (inum x1) with (inum x) in *. rewrite (proj2 (Hw _ _)) in E.
  pose proof (step_wf _ _ _ _ F St1) as F1. pose proof (step_wf _ _ _ _ F1 St2) as F2.
  exists j, a2. split_and!; try done.
  - unfold iput. rewrite (bind_Ok _ _ _ _ _ (acquire_it_ok s HL)). set (s1 := mkFs _ _ true _ _).
    rewrite (bind_Ok _ _ _ _ _ (get_inode_ok s1 i x Hx)), Hr, Hv, Hn. cbn [Z.eqb andb Pos.eqb].
    assert (acquiresleep i s1 = Ok (tt, with_inode i x1 s1)) as Ea.
    { unfold acquiresleep. rewrite (bind_Ok _ _ _ _ _ (get_inode_ok s1 i x Hx)), Hlk. by apply mod_inode_ok. }
    assert ((acquiresleep i;; release_it;; itrunc i;; mod_inode i (set_type 0);; iupdate i;; mod_inode i (set_valid false);; releasesleep i;; acquire_it) s1 =
      Ok (tt, with_lock true (with_jn j (with_inode i (set_ilocked false (set_valid false (dead x1))) s)))) as E1.
    { rewrite (bind_Ok _ _ _ _ _ Ea), (bind_Ok _ _ _ _ _ (release_it_ok (with_inode i x1 s1) eq_refl)).
      replace (mkFs (sb (with_inode i x1 s1)) _ _ _ _) with (with_inode i x1 s) by (unfold with_inode; cbn; by rewrite HL).
      rewrite bind_run in E. destruct (itrunc i (with_inode i x1 s)) as [[[] s2]| | |] eqn:E2; try done. rewrite (bind_Ok _ _ _ _ _ E2).
      rewrite bind_run in E. destruct (mod_inode i (set_type 0) s2) as [[[] s3]| | |] eqn:E3; try done. rewrite (bind_Ok _ _ _ _ _ E3).
      rewrite (bind_Ok _ _ _ _ _ E). rewrite (bind_Ok _ _ _ _ _ (mod_inode_ok (with_jn j (with_inode i (dead x1) s)) i _ _ (proj1 (Hw (dead x1) x1)))).
      change (with_inode i ?z (with_jn j (with_inode i (dead x1) s))) with (with_jn j (with_inode i z (with_inode i (dead x1) s))). rewrite (proj2 (Hw _ _)).
      unfold releasesleep. rewrite (bind_Ok _ _ _ _ _ (mod_inode_ok (with_jn j (with_inode i (set_valid false (dead x1)) s)) i _ _ (proj1 (Hw _ x1)))).
      change (with_inode i ?z (with_jn j (with_inode i (set_valid false (dead x1)) s))) with (with_jn j (with_inode i z (with_inode i (set_valid false (dead x1)) s))).
      rewrite (proj2 (Hw _ _)). by rewrite acquire_it_ok. }
    rewrite (bind_Ok _ _ _ _ _ E1). set (x2 := set_ilocked false (set_valid false (dead x1))).
    rewrite (bind_Ok _ _ _ _ _ (mod_inode_ok (with_lock true (with_jn j (with_inode i x2 s))) i x2 _ (proj1 (Hw x2 x2)))).
    change (with_inode i ?z (with_lock true (with_jn j (with_inode i x2 s)))) with (with_lock true (with_jn j (with_inode i z (with_inode i x2 s)))).
    rewrite (proj2 (Hw _ _)). rewrite release_it_ok by done. cbn [ref x2 set_ilocked set_valid dead truncated set_type set_isize set_addrs x1]. rewrite Hr.
    unfold with_lock, with_jn, with_inode. cbn. by rewrite HL.
  - assert (table_ok (sb s) (j_view a) (<[i := set_ref 0 (set_ilocked false (set_valid false (dead x)))]> (inodes s))) as T1.
    { apply (table_update _ _ _ i x); try done; cbn; lia. }
    eapply table_step; [exact St2|eapply table_step; [exact St1|exact T1|]|]; intros k y Hy Hy0 Hyv Hyn; exfalso.
    all: apply list_lookup_insert_Some in Hy as [(_ & <- & _)|[Hk Hy]]; [cbn in Hy0; lia|].
    all: pose proof (table_other _ _ _ i x k y T Hx ltac:(lia) Hy ltac:(done)) as Ho; unfold holds in Ho.
    all: destruct (tb_dev _ _ _ T k y Hy Hy0) as [D1 _], (tb_dev _ _ _ T i x Hx ltac:(lia)) as [D2 _].
    all: rewrite D1, D2, Hyn, !Z.eqb_refl, (proj2 (Z.ltb_lt 0 (ref y)) Hy0) in Ho; done.
  - intros k Hk Hne. eapply same_file_trans; [by eapply step_same|]. apply (step_same _ _ _ _ F1 St2); [|done]. by apply (step_live _ _ _ _ F St1 k Hne).
  - by rewrite (fs_log _ _ _ _ St2), (fs_log _ _ _ _ St1).
Qed.

(** ** Allocation *)

Lemma fresh_fits t : -2 ^ 15 ≤ t < 2 ^ 15 → inode_fits (fresh t).
Proof. intros H. constructor; cbn; try done. by repeat constructor. Qed.
Lemma pending_fresh sb a n t : fs_wf sb a → 0 < n < ninodes sb → -2 ^ 15 ≤ t < 2 ^ 15 → pending sb a a n (fresh t).
Proof.
  intros F Hn Ht. pose proof (fresh_fits t Ht) as Hf. constructor; try done; [intros c Hc Hu; by right|intros; by right|..].
  - intros _. constructor; [done|apply zero_wf|done|cbn; lia|]. intros u k Hu Hk. cbn. rewrite ptr_zero by done.
    apply not_eq_sym. by apply (fw_iblock _ _ F k Hk).
  - intros u _ Hu. cbn. by rewrite ptr_zero.
Qed.

(** The scan for a free inode from [n] on. *)
Lemma ialloc_loop_ok k : ∀ n (s : fst_) R a t, jinv (jn s) a → j_held a = [] → fs_wf (sb s) a → room (sb s) R a 1 →
  0 < n → n + Z.of_nat k = ninodes (sb s) → -2 ^ 15 ≤ t < 2 ^ 15 →
  (∃ j, jinv j a ∧ ialloc_loop k n ROOTDEV t s = Ok (None, with_jn j s) ∧ ∀ m, n ≤ m < ninodes (sb s) → type (dn (sb s) (j_view a) m) ≠ 0) ∨
  (∃ m j a', n ≤ m < ninodes (sb s) ∧ type (dn (sb s) (j_view a) m) = 0 ∧ (∀ k, n ≤ k < m → type (dn (sb s) (j_view a) k) ≠ 0) ∧ jinv j a' ∧ file_step (sb s) a a' m ∧
    core (dn (sb s) (j_view a') m) = core (fresh t) ∧ (∀ c, 0 ≤ c < size (sb s) → used_blk (sb s) (j_view a') c = used_blk (sb s) (j_view a) c) ∧
    j_held a' = [] ∧ j_cap a' = j_cap a ∧ j_disk a' = j_disk a ∧ logged a' = logged a ∪ {[IBLOCK m (sb s)]} ∧
    ialloc_loop k n ROOTDEV t s = (i ← iget ROOTDEV m; mret (Some i)) (with_jn j s)).
Proof.
  induction k as [|k IH]; intros n s R a t I Hh F HR Hn Hk Ht; cbn [ialloc_loop].
  { left. exists (jn s). rewrite with_jn_id. split_and!; [done|done|lia]. }
  rewrite (bind_Ok get_sb _ s (sb s) s) by done. pose proof (jinv_nodup _ _ I) as Hnd.
  assert (IBLOCK n (sb s) ∉ (j_held a).*1) as Hnh by (rewrite Hh; apply not_elem_of_nil).
  assert (j_room a) as Hjr by (eapply room_bread; [done|done|lia]).
  set (B := IBLOCK n (sb s)) in *. pose proof (jinv_size _ _ I B) as HS. pose proof (dinode_off_range n ltac:(lia)) as Ho.
  destruct (decide (type (dn (sb s) (j_view a) n) = 0)) as [HT|HT]; unfold dn in HT; cbn [type dinode_get] in HT; fold B in HT.
  - right. rewrite (read_cong s a B _ (λ bp x, on_log (bset bp (dinode_put x (dinode_off n) (fresh t)));; on_log (log_write bp);; on_log (brelse bp);;
      i ← iget ROOTDEV n; mret (Some i)) I Hnh Hjr).
    2: { intros bp j. rewrite HT. cbn [Z.eqb]. rewrite dinode_init_put by (rewrite HS; done). done. }
    destruct (update_block (M := M) (jn s) a B (λ x, dinode_put x (dinode_off n) (fresh t)) I Hnh) as (j & a' & I' & W & E).
    { by eapply room_slot. } { apply (iblock_home _ _ (mkInode 0 n 0 false false 0 0 0 0 0 [])); [done|cbn; lia]. }
    { rewrite dinode_put_length; [done|done|]. by rewrite HS. }
    pose proof (pending_fresh (sb s) a n t F ltac:(lia) Ht) as P. exists n, j, a'. split_and!; [lia|lia|done|intros; lia|done|..].
    + apply (commit_step _ _ _ _ _ _ _ F P HS W).
    + apply (commit_dn _ _ _ _ _ _ _ F P HS W).
    + intros c Hc. by apply (commit_used _ _ _ _ _ _ _ F P HS W).
    + by rewrite (wr_held _ _ _ _ W).
    + apply W.
    + apply W.
    + apply W.
    + by rewrite (E _ s (λ _, i ← iget ROOTDEV n; mret (Some i)) eq_refl).
  - rewrite (read_cong s a B _ (λ bp x, on_log (brelse bp);; ialloc_loop k (n + 1) ROOTDEV t) I Hnh Hjr) by (intros bp j; by rewrite (proj2 (Z.eqb_neq _ 0) HT)).
    destruct (peek_block s a B (λ _, ialloc_loop k (n + 1) ROOTDEV t) I Hnh Hjr) as (j & Ij & E). rewrite E.
    destruct (IH (n + 1) (with_jn j s) R a t Ij Hh F HR ltac:(lia)) as [(j2 & I2 & E2 & Hall)|(m & j2 & a2 & Hm & HT2 & Hmin & H)]; [cbn; lia|done|left|right].
    + exists j2. split; [done|]. split; [done|]. intros m Hm. destruct (decide (m = n)) as [->|]; [done|]. apply Hall. cbn. lia.
    + exists m, j2, a2. split; [cbn in Hm; lia|]. split; [done|]. split; [|done].
      intros q Hq. destruct (decide (q = n)) as [->|]; [done|]. apply Hmin. lia.
Qed.

(** A free inode is taken and referenced. *)
Lemma ialloc_ok (s : fst_) R a t : jinv (jn s) a → j_held a = [] → fs_wf (sb s) a → room (sb s) R a 1 → 1 ≤ ninodes (sb s) →
  -2 ^ 15 ≤ t < 2 ^ 15 → itlock s = false → table_ok (sb s) (j_view a) (inodes s) → (∀ i x, inodes s !! i = Some x → ref x < 2 ^ 31 - 2) →
  (∃ i x, inodes s !! i = Some x ∧ ref x = 0) →
  (∃ j, ialloc ROOTDEV t s = Ok (None, with_jn j s) ∧ jinv j a ∧ ∀ m, 1 ≤ m < ninodes (sb s) → type (dn (sb s) (j_view a) m) ≠ 0) ∨
  (∃ m j a' i y, 1 ≤ m < ninodes (sb s) ∧ type (dn (sb s) (j_view a) m) = 0 ∧ (∀ k, 1 ≤ k < m → type (dn (sb s) (j_view a) k) ≠ 0) ∧
    jinv j a' ∧ j_held a' = [] ∧ file_step (sb s) a a' m ∧ core (dn (sb s) (j_view a') m) = core (fresh t) ∧
    ialloc ROOTDEV t s = Ok (Some i, with_jn j (with_inode i y s)) ∧ table_ok (sb s) (j_view a') (<[i := y]> (inodes s)) ∧
    (i < length (inodes s))%nat ∧ dev y = ROOTDEV ∧ inum y = m ∧ 0 < ref y).
Proof.
  intros I Hh F HR Hni Ht HL T Hmax (k & z & Hz & Hr). unfold ialloc. rewrite (bind_Ok get_sb _ s (sb s) s) by done.
  destruct (ialloc_loop_ok (Z.to_nat (ninodes (sb s) - 1)) 1 s R a t I Hh F HR ltac:(lia) ltac:(lia) ltac:(lia))
    as [(j & I' & E & Hall)|(m & j & a' & Hm & HT & Hmin & I' & St & Hc & _ & Hh' & _ & _ & _ & E)]; [left; by exists j|right].
  assert (table_ok (sb s) (j_view a') (inodes s)) as T1.
  { eapply table_step; [done|done|]. intros k' y Hy Hry Hv En. destruct (tb_sync _ _ _ T k' y Hy Hry Hv) as [_ [_ Hl] _]. by rewrite En in Hl. }
  destruct (iget_ok (with_jn j s) (j_view a') m HL T1 ltac:(cbn; lia) Hmax) as (i & x & Hx & Hor & Ei & T2); [exists k, z; by split; [|left]|].
  rewrite (bind_Ok _ _ _ _ _ Ei) in E. eexists m, j, a', i, _. repeat (split; [done|]). split; [exact E|]. split; [exact T2|].
  split; [by eapply lookup_lt_Some|]. destruct (holds x ROOTDEV m) eqn:Eh; [|by cbn].
  unfold holds in Eh. apply andb_true_iff in Eh as [[H1%Z.ltb_lt H2%Z.eqb_eq]%andb_true_iff H3%Z.eqb_eq]. cbn. split_and!; (done || lia).
Qed.
End table.
End FsTable.
