(* ===== verification/FsDir.v ===== *)
(** * Directories

    A directory as a list of entries: [dirlookup] finds the first entry with a
    name, [dirlink] puts an entry in the first free place. *)

From S2P Require Import Prelude Bytes BufCache Journal UserMem Fs FsBlocks FsMap FsFile FsWrite FsInode FsState FsOps FsTrunc FsTable.
Import Bytes Journal UserMem Fs FsBlocks FsMap FsFile FsWrite FsInode FsState FsOps FsTrunc FsTable.
Import BufCache (block, BSIZE, ROOTDEV, zero_blk, NBUF).

Module FsDir.

(** ** Names *)

(** [strncmp] compares the strings up to their terminators. *)
Lemma name_pad_length n : ∀ s, length (name_pad n s) = n.
Proof.
  induction n as [|n IH]; intros [|c s]; cbn [name_pad length]; [done..|by rewrite length_replicate|]. case_z; [by rewrite length_replicate|]. cbn. by rewrite IH.
Qed.
Lemma name_pad_cons n c s : name_pad (S n) (c :: s) = c :: (if c =? 0 then replicate n 0 else name_pad n s).
Proof. cbn [name_pad]. destruct (Z.eqb_spec c 0) as [->|]; done. Qed.
Lemma name_pad_hd n s : name_pad (S n) s = hd 0 s :: (if hd 0 s =? 0 then replicate n 0 else name_pad n (tail s)).
Proof. destruct s as [|c s]; [done|]. by rewrite name_pad_cons. Qed.
Lemma strncmp_pad n : ∀ p q, strncmp n p q = 0 ↔ name_pad n p = name_pad n q.
Proof.
  induction n as [|n IH]; intros p q; [done|]. rewrite !name_pad_hd. cbn [strncmp]. set (a := hd 0 p). set (b := hd 0 q).
  destruct (Z.eqb_spec a 0) as [Ea|Ha]; cbn [negb andb].
  - split; [intros E; assert (b = 0) as -> by lia; by rewrite Ea|]. intros [= E _]. lia.
  - destruct (Z.eqb_spec a b) as [Eab|Hab].
    + rewrite IH, <- Eab, (proj2 (Z.eqb_neq a 0) Ha). split; [by intros ->|by intros [= ->]].
    + split; [lia|]. by intros [= E _].
Qed.
Lemma name_pad_idem n : ∀ s, name_pad n (name_pad n s) = name_pad n s.
Proof.
  induction n as [|n IH]; intros s; [done|]. rewrite (name_pad_hd n s). rewrite name_pad_cons. destruct (hd 0 s =? 0); [done|]. by rewrite IH.
Qed.

(** ** Entries *)

(** The entry is in use and has the name. *)
Definition matches (name e : list Z) : bool := negb (de_inum e =? 0) && (namecmp name (de_name e) =? 0).
(** The first entry with the name, with its number and place. *)
Fixpoint find_from (k : Z) (name : list Z) (l : list (list Z)) : option (Z * Z) :=
  match l with
  | [] => None
  | e :: l' => if matches name e then Some (de_inum e, k) else find_from (k + 1) name l'
  end.
(** The place of the first free entry. *)
Fixpoint free_from (k : Z) (l : list (list Z)) : Z :=
  match l with [] => k | e :: l' => if de_inum e =? 0 then k else free_from (k + 1) l' end.

(** What the directory has under a name. *)
Definition lookup_name (l : list (list Z)) (name : list Z) : option Z := fst <$> find_from 0 name l.
Lemma find_from_fst k k' name l : fst <$> find_from k name l = fst <$> find_from k' name l.
Proof. revert k k'. induction l as [|e l IH]; intros k k'; cbn [find_from]; [done|]. by destruct (matches name e). Qed.

Lemma lookup_name_cons e l name : lookup_name (e :: l) name = if matches name e then Some (de_inum e) else lookup_name l name.
Proof. unfold lookup_name. cbn [find_from]. destruct (matches name e); [done|]. apply find_from_fst. Qed.
Lemma lookup_name_app l1 l2 name : lookup_name (l1 ++ l2) name = match lookup_name l1 name with Some n => Some n | None => lookup_name l2 name end.
Proof. induction l1 as [|e l1 IH]; [done|]. cbn [app]. rewrite !lookup_name_cons, IH. by destruct (matches name e). Qed.

Lemma matches_ext name name' e : name_pad DIRSIZ name = name_pad DIRSIZ name' → matches name e = matches name' e.
Proof.
  intros E. unfold matches, namecmp. f_equal. apply Bool.eq_true_iff_eq. rewrite !Z.eqb_eq, !strncmp_pad. by rewrite E.
Qed.
Lemma lookup_name_ext l name name' : name_pad DIRSIZ name = name_pad DIRSIZ name' → lookup_name l name = lookup_name l name'.
Proof. intros E. induction l as [|e l IH]; [done|]. by rewrite !lookup_name_cons, (matches_ext _ _ e E), IH. Qed.

(** The entry that [dirlink] writes. *)
Definition new_entry (name : list Z) (n : Z) : list Z := dirent_of (u16 n) (name_pad DIRSIZ name).
Lemma new_entry_length name n : length (new_entry name n) = 16%nat.
Proof. unfold new_entry, dirent_of. rewrite length_app, length_le_enc, name_pad_length. done. Qed.
Lemma new_entry_inum name n : de_inum (new_entry name n) = u16 n.
Proof.
  unfold de_inum, new_entry, dirent_of, get16, getn. rewrite drop_0, take_app_length' by by rewrite length_le_enc.
  rewrite le_dec_enc. unfold u16. change (256 ^ Z.of_nat 2) with (2 ^ 16). by rewrite Z.mod_mod.
Qed.
Lemma new_entry_matches name name' n : u16 n ≠ 0 → matches name' (new_entry name n) = bool_decide (name_pad DIRSIZ name' = name_pad DIRSIZ name).
Proof.
  intros Hn. unfold matches. rewrite new_entry_inum, (proj2 (Z.eqb_neq _ 0) Hn). cbn [negb andb].
  unfold de_name, new_entry, dirent_of. rewrite drop_app_length' by by rewrite length_le_enc.
  apply Bool.eq_true_iff_eq. unfold namecmp. rewrite Z.eqb_eq, strncmp_pad, name_pad_idem, bool_decide_eq_true. done.
Qed.

(** The entry is added at the end, or in a free place. *)
Definition put_entry (l : list (list Z)) (e : list Z) : list (list Z) :=
  let k := Z.to_nat (free_from 0 l) in if (k <? length l)%nat then <[k := e]> l else l ++ [e].
Lemma free_from_range l : ∀ k, k ≤ free_from k l ≤ k + Z.of_nat (length l).
Proof. induction l as [|e l IH]; intros k; cbn [free_from length]; [lia|]. case_z; [lia|]. specialize (IH (k + 1)). lia. Qed.
Lemma free_from_shift l : ∀ k, free_from k l = k + free_from 0 l.
Proof. induction l as [|e l IH]; intros k; cbn [free_from]; [lia|]. case_z; [lia|]. rewrite (IH (k + 1)), (IH (0 + 1)). lia. Qed.
Lemma put_entry_cons e l d : put_entry (e :: l) d = if de_inum e =? 0 then d :: l else e :: put_entry l d.
Proof.
  unfold put_entry. cbn [free_from length]. case_z; [done|]. rewrite free_from_shift. pose proof (free_from_range l 0).
  rewrite Z.add_0_l, Z2Nat.inj_add by lia. change (Z.to_nat 1 + Z.to_nat (free_from 0 l))%nat with (Datatypes.S (Z.to_nat (free_from 0 l))).
  destruct (Nat.ltb_spec (Z.to_nat (free_from 0 l)) (length l)), (Nat.ltb_spec (Datatypes.S (Z.to_nat (free_from 0 l))) (Datatypes.S (length l))); try lia; done.
Qed.
(** The directory gets the name, and keeps all others. *)
Lemma lookup_put_entry l name n nm : u16 n ≠ 0 → lookup_name l name = None →
  lookup_name (put_entry l (new_entry name n)) nm =
  if bool_decide (name_pad DIRSIZ nm = name_pad DIRSIZ name) then Some (u16 n) else lookup_name l nm.
Proof.
  intros Hn. induction l as [|e l IH]; intros Hno.
  - change (put_entry [] (new_entry name n)) with [new_entry name n]. rewrite lookup_name_cons, new_entry_matches, new_entry_inum by done. done.
  - rewrite lookup_name_cons in Hno. destruct (matches name e) eqn:Em; [done|]. rewrite put_entry_cons. destruct (Z.eqb_spec (de_inum e) 0) as [E0|E0].
    + rewrite !lookup_name_cons, new_entry_matches, new_entry_inum by done.
      assert (matches nm e = false) as -> by (unfold matches; by rewrite E0). case_bool_decide as Eb; done.
    + rewrite !lookup_name_cons, IH by done. case_bool_decide as Eb; [|done]. by rewrite (matches_ext nm name e Eb), Em.
Qed.

(** ** The operations *)

(** The entries of a directory. *)
Definition dirents (v : Z → block) (l : list Z) (sz : Z) : list (list Z) := (λ k, bytes v l (16 * k) 16) <$> seqZ 0 (sz `div` 16).

Section dir.
Context {S M : Type} `{JN : Journaled S} `{UM : UserMemory M}.
#[local] Abbreviation fst_ := (@fst_ S M).

Record dir_ok (sb : superblock) (a : jabs) (x : inode) : Prop := {
  do_file : file_ok sb a x;
  do_type : type x = T_DIR;
  do_size : isize x `mod` 16 = 0 }.

(** One entry is read. *)
Lemma read_entry (s : fst_) a i x k : jinv (jn s) a → j_held a = [] → j_room a → inodes s !! i = Some x → dir_ok (sb s) a x →
  0 ≤ k → 16 * k < isize x →
  ∃ j, jinv j a ∧ readi i (Kernel []) (16 * k) 16 s = Ok ((16, Kernel (bytes (j_view a) (addrs x) (16 * k) 16)), with_jn j s).
Proof.
  intros I Hh Hr Hx [F _ Hm] Hk Hs. assert (isize x < 2 ^ 31) as Hmax by (destruct F as [_ _ Fs _]; fs_lia).
  destruct (readi_kernel s a i x [] (16 * k) 16 I Hh Hr Hx F) as (j & Ij & E); [lia|lia|].
  assert (available x (16 * k) 16 = 16) as Ea.
  { rewrite available_eq by lia. pose proof (Z.div_mod (isize x) 16 ltac:(lia)). lia. }
  exists j. split; [done|]. rewrite E, Ea. done.
Qed.

(** The entries from [k] on. *)
Lemma dirents_cons v l sz k : 0 ≤ k → 16 * k < sz → sz `mod` 16 = 0 →
  drop (Z.to_nat k) (dirents v l sz) = bytes v l (16 * k) 16 :: drop (Z.to_nat (k + 1)) (dirents v l sz).
Proof.
  intros Hk Hs Hm. assert (k < sz `div` 16) by (pose proof (Z.div_mod sz 16 ltac:(lia)); lia).
  replace (Z.to_nat (k + 1)) with (Datatypes.S (Z.to_nat k)) by lia. apply drop_S. unfold dirents.
  rewrite list_lookup_fmap, lookup_seqZ_lt by lia. cbn. do 3 f_equal. lia.
Qed.
Lemma dirents_end v l sz k : sz ≤ 16 * k → drop (Z.to_nat k) (dirents v l sz) = [].
Proof.
  intros H. apply drop_ge. unfold dirents. rewrite length_fmap, length_seqZ. pose proof (Z.div_le_mono sz (16 * k) 16 ltac:(lia) H).
  rewrite Z.mul_comm, Z.div_mul in H0 by lia. lia.
Qed.

Lemma dirlookup_loop_ok fuel : ∀ k (s : fst_) a i x name, jinv (jn s) a → j_held a = [] → j_room a → inodes s !! i = Some x →
  dir_ok (sb s) a x → 0 ≤ k → isize x `div` 16 < k + Z.of_nat fuel →
  ∃ j, jinv j a ∧ dirlookup_loop fuel i name (16 * k) s =
    match find_from k name (drop (Z.to_nat k) (dirents (j_view a) (addrs x) (isize x))) with
    | None => Ok (None, with_jn j s)
    | Some (n, k') => (q ← iget ROOTDEV n; mret (Some (q, 16 * k'))) (with_jn j s)
    end.
Proof.
  induction fuel as [|fuel IH]; intros k s a i x name I Hh Hr Hx D Hk Hf; cbn [dirlookup_loop];
    rewrite (bind_Ok _ _ _ _ _ (get_inode_ok s i x Hx)); pose proof (Z.div_mod (isize x) 16 ltac:(lia)) as Hdm; pose proof (do_size _ _ _ D) as Hm.
  { rewrite (proj2 (Z.ltb_ge (16 * k) (isize x))) by lia. rewrite dirents_end by lia. exists (jn s). by rewrite with_jn_id. }
  destruct (Z.ltb_spec (16 * k) (isize x)) as [Hlt|Hge].
  2: { rewrite dirents_end by lia. exists (jn s). by rewrite with_jn_id. }
  destruct (read_entry s a i x k I Hh Hr Hx D Hk Hlt) as (j & Ij & E). rewrite (bind_Ok _ _ _ _ _ E). cbn [Z.eqb negb Pos.eqb].
  rewrite dirents_cons by done. cbn [find_from]. set (e := bytes (j_view a) (addrs x) (16 * k) 16).
  assert (isize x < 2 ^ 31) as Hmax by (destruct D as [[_ _ Fs _] _ _]; fs_lia).
  destruct (IH (k + 1) (with_jn j s) a i x name Ij Hh Hr Hx D ltac:(lia) ltac:(lia)) as (j2 & Ij2 & E2).
  assert (16 * (k + 1) = u32 (16 * k + 16)) as Eu by (rewrite u32_small by lia; lia). rewrite Eu in E2.
  unfold matches. destruct (Z.eqb_spec (de_inum e) 0) as [E0|E0]; cbn [negb andb]; [by exists j2|].
  destruct (Z.eqb_spec (namecmp name (de_name e)) 0) as [En|En]; [|by exists j2].
  exists j. split; [done|]. destruct D as [[-> _ _ _] _ _]. done.
Qed.
Lemma dirlookup_ok (s : fst_) a i x name : jinv (jn s) a → j_held a = [] → j_room a → inodes s !! i = Some x → dir_ok (sb s) a x →
  ∃ j, jinv j a ∧ dirlookup i name s =
    match find_from 0 name (dirents (j_view a) (addrs x) (isize x)) with
    | None => Ok (None, with_jn j s)
    | Some (n, k) => (q ← iget ROOTDEV n; mret (Some (q, 16 * k))) (with_jn j s)
    end.
Proof.
  intros I Hh Hr Hx D. unfold dirlookup. rewrite (bind_Ok _ _ _ _ _ (get_inode_ok s i x Hx)), (do_type _ _ _ D). cbn [Z.eqb T_DIR negb Pos.eqb].
  assert (0 ≤ isize x) by (destruct D as [[_ _ Fs _] _ _]; lia). pose proof (Z.div_pos (isize x) 16 ltac:(lia) ltac:(lia)).
  destruct (dirlookup_loop_ok (Z.to_nat (isize x `div` 16 + 1)) 0 s a i x name I Hh Hr Hx D) as (j & Ij & E); [lia|lia|]. exists j. split; [done|]. exact E.
Qed.

Lemma dirlink_loop_ok fuel : ∀ k (s : fst_) a i x, jinv (jn s) a → j_held a = [] → j_room a → inodes s !! i = Some x →
  dir_ok (sb s) a x → 0 ≤ k → 16 * k ≤ isize x → isize x `div` 16 < k + Z.of_nat fuel →
  ∃ j, jinv j a ∧ dirlink_loop fuel i (16 * k) s =
    Ok (16 * free_from k (drop (Z.to_nat k) (dirents (j_view a) (addrs x) (isize x))), with_jn j s).
Proof.
  induction fuel as [|fuel IH]; intros k s a i x I Hh Hr Hx D Hk Hks Hf; cbn [dirlink_loop];
    rewrite (bind_Ok _ _ _ _ _ (get_inode_ok s i x Hx)); pose proof (Z.div_mod (isize x) 16 ltac:(lia)) as Hdm; pose proof (do_size _ _ _ D) as Hm.
  { rewrite (proj2 (Z.ltb_ge (16 * k) (isize x))) by lia. rewrite dirents_end by lia. exists (jn s). by rewrite with_jn_id. }
  destruct (Z.ltb_spec (16 * k) (isize x)) as [Hlt|Hge].
  2: { rewrite dirents_end by lia. exists (jn s). by rewrite with_jn_id. }
  destruct (read_entry s a i x k I Hh Hr Hx D Hk Hlt) as (j & Ij & E). rewrite (bind_Ok _ _ _ _ _ E). cbn [Z.eqb negb Pos.eqb].
  rewrite dirents_cons by done. cbn [free_from]. set (e := bytes (j_view a) (addrs x) (16 * k) 16).
  assert (isize x < 2 ^ 31) as Hmax by (destruct D as [[_ _ Fs _] _ _]; fs_lia).
  destruct (IH (k + 1) (with_jn j s) a i x Ij Hh Hr Hx D ltac:(lia) ltac:(lia) ltac:(lia)) as (j2 & Ij2 & E2).
  assert (16 * (k + 1) = u32 (16 * k + 16)) as Eu by (rewrite u32_small by lia; lia). rewrite Eu in E2.
  destruct (Z.eqb_spec (de_inum e) 0); [by exists j|by exists j2].
Qed.

(** The entries after 16 bytes are written at a place. *)
Lemma dirents_write f v' l' v l sz k e : (∀ o, 0 ≤ o < MAXFILE * BS → byte v' l' o = overlay f (16 * k) e o) →
  (∀ o, 0 ≤ o < MAXFILE * BS → f o = byte v l o) → length e = 16%nat → 0 ≤ sz → sz `mod` 16 = 0 → 0 ≤ k ≤ sz `div` 16 → 16 * k + 16 ≤ MAXFILE * BS → sz ≤ MAXFILE * BS →
  dirents v' l' (Z.max sz (16 * k + 16)) = if (Z.to_nat k <? length (dirents v l sz))%nat then <[Z.to_nat k := e]> (dirents v l sz) else dirents v l sz ++ [e].
Proof.
  intros Hb Hf He Hsz Hm Hk Hk2 Hmax. pose proof (Z.div_mod sz 16 ltac:(lia)) as Hdm. set (N := sz `div` 16) in *.
  assert (∀ i, 0 ≤ i → 16 * i + 16 ≤ MAXFILE * BS → bytes v' l' (16 * i) 16 = if bool_decide (i = k) then e else bytes v l (16 * i) 16) as Hi.
  { intros i Hi0 Hi1. case_bool_decide as E.
    - subst i. apply list_eq. intros q. destruct (decide (q < 16)%nat) as [Hq|Hq].
      + rewrite file_bytes_lookup by lia. rewrite Hb by lia. unfold overlay. rewrite bool_decide_true by lia.
        replace (Z.to_nat (16 * k + Z.of_nat q - 16 * k)) with q by lia. symmetry. apply list_lookup_lookup_total_lt. lia.
      + rewrite !lookup_ge_None_2; [done|lia|rewrite bytes_length; lia].
    - apply file_bytes_ext. intros o Ho. rewrite Hb by lia. unfold overlay. rewrite bool_decide_false by lia. apply Hf. lia. }
  assert (length (dirents v l sz) = Z.to_nat N) as HL by (unfold dirents; by rewrite length_fmap, length_seqZ).
  rewrite HL. destruct (Nat.ltb_spec (Z.to_nat k) (Z.to_nat N)) as [Hlt|Hge].
  - rewrite Z.max_l by lia. apply list_eq. intros q. destruct (decide (q < Z.to_nat N)%nat) as [Hq|Hq].
    + unfold dirents at 1. rewrite list_lookup_fmap, lookup_seqZ_lt by lia. cbn [fmap option_fmap option_map]. rewrite Hi by lia.
      case_bool_decide as E.
      * replace q with (Z.to_nat k) by lia. rewrite list_lookup_insert_eq by (rewrite HL; lia). done.
      * rewrite list_lookup_insert_ne by lia. unfold dirents. rewrite list_lookup_fmap, lookup_seqZ_lt by lia. done.
    + rewrite !lookup_ge_None_2; [done|rewrite length_insert, HL; lia|unfold dirents; rewrite length_fmap, length_seqZ; fold N; lia].
  - assert (k = N) as -> by lia. rewrite Z.max_r by lia. unfold dirents at 1. replace ((16 * N + 16) `div` 16) with (N + 1) by (rewrite (Z.mul_comm 16), Z.div_add_l by lia; done).
    rewrite seqZ_app by lia. rewrite fmap_app. f_equal.
    + unfold dirents. apply list_fmap_ext. intros q z [-> Hz]%lookup_seqZ. rewrite Hi by lia. rewrite bool_decide_false by lia. done.
    + rewrite Z.add_0_l, seqZ_cons, seqZ_nil by lia. cbn [fmap list_fmap]. rewrite Hi by lia. by rewrite bool_decide_true by lia.
Qed.

Lemma with_inode_self (s : fst_) i x : inodes s !! i = Some x → with_inode i x s = s.
Proof. intros H. unfold with_inode. rewrite list_insert_id by done. by destruct s. Qed.

(** The directory of an inode in memory. *)
Definition entries_of (v : Z → block) (x : inode) : list (list Z) := dirents v (addrs x) (isize x).
Lemma synced_dir sb a x : fs_wf sb a → synced sb (j_view a) x → type x = T_DIR → isize x `mod` 16 = 0 → dir_ok sb a x.
Proof. intros F Sy HT Hm. constructor; [|done..]. apply node_file_ok; [by apply synced_node|apply Sy]. Qed.
Lemma synced_byte sb v x o : synced sb v x → fbyte sb v (inum x) o = byte v (addrs x) o.
Proof. intros [_ _ Sc]. unfold fbyte. by apply core_eq in Sc as (_ & _ & _ & _ & _ & ->). Qed.

Lemma span_entry k : 0 ≤ k → span (16 * k) 16 = 1.
Proof.
  intros Hk. unfold span. cbn [Z.leb Z.compare]. assert ((16 * k) `mod` BS ≤ BS - 16) as H.
  { unfold BSIZE. change (Z.of_nat 1024) with (16 * 64). rewrite Z.mul_mod_distr_l by lia. pose proof (Z.mod_pos_bound k 64). lia. }
  destruct (off_in (16 * k) 15) as [E _]; [lia|lia|]. replace (16 * k + 16 - 1) with (16 * k + 15) by lia. rewrite E. lia.
Qed.
(** A short write of an entry writes nothing. *)
Lemma entry_short k m : 0 ≤ k → 0 ≤ m < 16 → (m = 0 ∨ (16 * k + m) `mod` BS = 0) → m = 0.
Proof.
  intros Hk Hm [|E]; [done|]. apply Z.mod_divide in E as [q Eq]; [|done]. unfold BSIZE in Eq. change (Z.of_nat 1024) with 1024 in Eq.
  assert (m = 16 * (q * 64 - k)) by lia. lia.
Qed.

Lemma dirlink_ok (s : fst_) R a i x name n : jinv (jn s) a → j_held a = [] → fs_wf (sb s) a → inodes s !! i = Some x →
  synced (sb s) (j_view a) x → type x = T_DIR → isize x `mod` 16 = 0 → u16 n ≠ 0 → IBLOCK (inum x) (sb s) ∈ R →
  room (sb s) (R ∪ nz (ind (addrs x))) a (need (addrs x) 1) → lookup_name (entries_of (j_view a) x) name = None →
  ∃ r j a' x', dirlink i name n s = Ok (r, with_jn j (with_inode i x' s)) ∧ jinv j a' ∧ (a' = a ∨ file_step (sb s) a a' (inum x)) ∧
    synced (sb s) (j_view a') x' ∧ inum x' = inum x ∧ ref x' = ref x ∧ ilocked x' = ilocked x ∧ valid x' = valid x ∧
    type x' = T_DIR ∧ isize x' `mod` 16 = 0 ∧ j_held a' = [] ∧ j_cap a' = j_cap a ∧ j_disk a' = j_disk a ∧
    (r = 0 ∧ entries_of (j_view a') x' = put_entry (entries_of (j_view a) x) (new_entry name n) ∨
     r = -1 ∧ entries_of (j_view a') x' = entries_of (j_view a) x ∧
       (MAXFILE * BS < isize x + 16 ∨ ∀ c, 0 ≤ c < size (sb s) → used_blk (sb s) (j_view a') c = true)).
Proof.
  intros I Hh F Hx Sy HT Hm16 Hn HB HR Hno. pose proof (synced_dir _ _ _ F Sy HT Hm16) as D. pose proof (synced_node _ _ _ F Sy) as N.
  assert (0 ≤ need (addrs x) 1) as Hneed by (unfold need; case_z; lia).
  assert (j_room a) as Hjr by (eapply room_bread; [done|by eapply jinv_nodup|done]).
  unfold dirlink. destruct (dirlookup_ok s a i x name I Hh Hjr Hx D) as (j & Ij & E). fold (entries_of (j_view a) x) in E.
  unfold lookup_name in Hno. destruct (find_from 0 name (entries_of (j_view a) x)); [done|]. rewrite (bind_Ok _ _ _ _ _ E).
  rewrite (bind_Ok _ _ _ _ _ (get_inode_ok (with_jn j s) i x Hx)). assert (0 ≤ isize x ≤ MAXFILE * BS) as Hsz by (destruct D as [[_ _ Fs _] _ _]; done).
  pose proof (Z.div_pos (isize x) 16 ltac:(lia) ltac:(lia)) as Hdp. pose proof (Z.div_mod (isize x) 16 ltac:(lia)) as Hdm.
  destruct (dirlink_loop_ok (Z.to_nat (isize x `div` 16 + 1)) 0 (with_jn j s) a i x Ij Hh Hjr Hx D) as (j2 & Ij2 & E2); [lia|lia|lia|].
  rewrite (bind_Ok _ _ _ _ _ E2). rewrite drop_0. fold (entries_of (j_view a) x). set (es := entries_of (j_view a) x). set (k := free_from 0 es).
  assert (0 ≤ k ≤ isize x `div` 16) as Hk.
  { unfold k. pose proof (free_from_range es 0) as Hk. unfold es at 3, entries_of, dirents in Hk. rewrite length_fmap, length_seqZ in Hk. lia. }
  set (e := new_entry name n). pose proof (new_entry_length name n) as He. fold e in He. set (s2 := with_jn j2 (with_jn j s)).
  assert (MAXFILE * BS < 2 ^ 31) as HM by done.
  destruct (refused x (16 * k) 16) eqn:Er.
  - rewrite (bind_Ok _ _ _ _ _ (writei_refused s2 i x _ _ _ Hx Er)). cbn [Z.eqb negb]. exists (-1), j2, a, x.
    rewrite refused_spec in Er by (lia || apply N). apply bool_decide_eq_true in Er.
    split; [by rewrite (with_inode_self s i x Hx)|]. split_and!; try done; [by left|]. right. split_and!; [done..|]. left. lia.
  - rewrite refused_spec in Er by (lia || apply N). apply bool_decide_eq_false, dec_stable in Er as [Er1 Er2].
    destruct (writei_ok s2 R a i x (Kernel e) e (16 * k) 16) as (m & j3 & a3 & l3 & E3 & Hm & I3 & St & Sy3 & Hby & Hshort & Hh3 & Hc3 & Hd3 & _); try done.
    { replace 16 with (Z.of_nat (length e)) by (by rewrite He). apply gives_supplies. by exists []; rewrite app_nil_r. } { lia. } { rewrite span_entry by lia. done. } { rewrite refused_spec by (lia || apply N). apply bool_decide_eq_false. lia. }
    rewrite (bind_Ok _ _ _ _ _ E3). set (x3 := extended x l3 (16 * k + m)) in *.
    assert (∀ o, 0 ≤ o < MAXFILE * BS → byte (j_view a3) l3 o = overlay (byte (j_view a) (addrs x)) (16 * k) (take (Z.to_nat m) e) o) as Hby'.
    { intros o Ho. etrans; [symmetry; exact (synced_byte (sb s) (j_view a3) x3 o Sy3)|]. etrans; [exact (Hby o Ho)|]. apply overlay_ext. by apply synced_byte. }
    exists (if negb (m =? 16) then -1 else 0), j3, a3, x3. split; [by destruct (negb (m =? 16))|]. split; [done|]. split; [by right|].
    assert (isize x3 = Z.max (isize x) (16 * k + m)) as Esz by done.
    destruct (Z.eqb_spec m 16) as [->|Hne]; cbn [negb].
    + split_and!; try done; [rewrite Esz; destruct (Z.max_spec (isize x) (16 * k + 16)) as [[_ ->]|[_ ->]]; [|done]|].
      { replace (16 * k + 16) with ((k + 1) * 16) by lia. by apply Z.mod_mul. }
      left. split; [done|]. unfold put_entry. fold es k. unfold entries_of at 1. rewrite Esz. change (addrs x3) with l3. unfold es, entries_of.
      eapply dirents_write; [|reflexivity|done|lia|done|lia|lia|lia]. intros o Ho. rewrite Hby' by done. by rewrite firstn_all2 by lia.
    + destruct (Hshort ltac:(lia)) as [Hst Hall]. assert (m = 0) as -> by (eapply entry_short; [|lia|done]; lia).
      assert (isize x3 = isize x) as Esz' by lia. split_and!; try done; [by rewrite Esz'|]. right. split_and!; [done| |by right].
      unfold es, entries_of. rewrite Esz'. unfold dirents. apply list_fmap_ext. intros q z [-> Hz]%lookup_seqZ. apply file_bytes_ext. intros o Ho.
      rewrite Hby' by lia. apply overlay_nil.
Qed.
End dir.
End FsDir.
