(* ===== verification/FsPath.v ===== *)
(** * Path names

    [namei] and [nameiparent] walk the tree of directories: the inode they
    return is the one that the names of the path lead to on the disk, with one
    more reference to it, and no other reference count changed. *)

From S2P Require Import Prelude Bytes BufCache Journal UserMem Fs FsBlocks FsMap FsFile FsWrite FsInode FsState FsOps FsTrunc FsTable FsDir.
Import Bytes Journal UserMem Fs FsBlocks FsMap FsFile FsWrite FsInode FsState FsOps FsTrunc FsTable FsDir.
Import BufCache (block, BSIZE, ROOTDEV, zero_blk, NBUF).

Module FsPath.

(** ** The elements of a path *)

(** The maximal runs of characters other than '/'. *)
Fixpoint split_path (path : list Z) : list (list Z) :=
  match path with
  | [] => [[]]
  | c :: p =>
      if c =? 47 then [] :: split_path p
      else match split_path p with e :: r => (c :: e) :: r | [] => [[c]] end
  end.
Definition components (path : list Z) : list (list Z) := filter (λ e, e ≠ []) (split_path path).

Lemma split_ne path : split_path path ≠ [].
Proof. destruct path as [|c p]; cbn; [done|]. case_z; [done|]. by destruct (split_path p). Qed.
Lemma components_skip path : components (skip_slashes path) = components path.
Proof.
  induction path as [|c p IH]; cbn [skip_slashes]; [done|]. case_z; [|done]. rewrite IH. unfold components at 2. subst. cbn [split_path Z.eqb Pos.eqb].
  by rewrite filter_cons_False by (intros H; by apply H).
Qed.
Lemma skip_head path : match skip_slashes path with [] => True | c :: _ => c ≠ 47 end.
Proof. induction path as [|c p IH]; cbn [skip_slashes]; [done|]. case_z; done. Qed.
Lemma skip_length path : (length (skip_slashes path) ≤ length path)%nat.
Proof. induction path as [|c p IH]; cbn [skip_slashes length]; [lia|]. case_z; cbn [length]; lia. Qed.

(** The first element and the rest. *)
Lemma element_split path : let '(e, r) := element path in
  path = e ++ r ∧ 47 ∉ e ∧ match r with [] => True | c :: _ => c = 47 end ∧
  split_path path = e :: match r with [] => [] | _ :: r' => split_path r' end.
Proof.
  induction path as [|c p IH]; cbn [element]; [by split_and!; [|apply not_elem_of_nil|..]|].
  destruct (Z.eqb_spec c 47) as [->|Hc].
  - split_and!; [done|apply not_elem_of_nil|done|done].
  - destruct (element p) as [e r]. destruct IH as (-> & Hn & Hr & Es). split_and!; [done|by apply not_elem_of_cons|done|].
    cbn [split_path]. rewrite (proj2 (Z.eqb_neq c 47) Hc), Es. done.
Qed.

Lemma components_element path c p : path = c :: p → c ≠ 47 →
  let '(e, r) := element path in e ≠ [] ∧ components path = e :: components r.
Proof.
  intros -> Hc. pose proof (element_split (c :: p)) as H. destruct (element (c :: p)) as [e r]. destruct H as (E & Hn & Hr & Es).
  assert (e ≠ []) as He by (intros ->; cbn in E; subst r; done). split; [done|]. unfold components at 1. rewrite Es, filter_cons_True by done. f_equal.
  destruct r as [|d r]; [done|]. subst d. unfold components. cbn [split_path Z.eqb Pos.eqb]. by rewrite filter_cons_False by (intros H; by apply H).
Qed.
Lemma components_nil path : match path with [] => True | c :: _ => c ≠ 47 end → path = [] ↔ components path = [].
Proof.
  intros H. split; [by intros ->|]. destruct path as [|c p]; [done|]. pose proof (components_element (c :: p) c p eq_refl H) as HC.
  destruct (element (c :: p)). destruct HC as [_ ->]. done.
Qed.

Lemma name_pad_take n : ∀ s, name_pad n (take n s) = name_pad n s.
Proof. induction n as [|n IH]; intros [|c s]; cbn [take name_pad]; [done..|]. by rewrite IH. Qed.
Lemma name_pad_term n : ∀ e l, name_pad n (e ++ 0 :: l) = name_pad n e.
Proof. induction n as [|n IH]; intros [|c e] l; cbn [app name_pad]; [done..|]. by rewrite IH. Qed.
Lemma store_name_pad name e : name_pad DIRSIZ (store_name name e) = name_pad DIRSIZ e.
Proof. unfold store_name. case (_ <=? _)%nat; [apply name_pad_take|apply name_pad_term]. Qed.
Lemma store_name_length name e : length name = DIRSIZ → length (store_name name e) = DIRSIZ.
Proof.
  intros H. unfold store_name. destruct (Nat.leb_spec DIRSIZ (length e)); [rewrite length_take; lia|].
  rewrite length_app. cbn [length]. rewrite length_drop. lia.
Qed.

Lemma skipelem_ok path name : match skipelem path name with
  | None => components path = []
  | Some (rest, nm) => ∃ e, nm = store_name name e ∧ components path = e :: components rest ∧ e ≠ [] ∧ 47 ∉ e ∧
      (length rest < length path)%nat ∧ (rest = [] ↔ components rest = [])
  end.
Proof.
  unfold skipelem. pose proof (skip_head path) as Hh. pose proof (skip_length path) as Hl. rewrite <- (components_skip path).
  destruct (skip_slashes path) as [|c p] eqn:Ep; [done|]. pose proof (components_element (c :: p) c p eq_refl Hh) as HC.
  pose proof (element_split (c :: p)) as HE. destruct (element (c :: p)) as [e r]. destruct HC as [He HC], HE as (E & Hn & _ & _).
  exists e. rewrite components_skip. split_and!; try done.
  - pose proof (skip_length r). assert (length (c :: p) = length e + length r)%nat as Hlen by by rewrite E, length_app. destruct e; [done|]. cbn in *. lia.
  - rewrite <- (components_skip r). apply components_nil, skip_head.
Qed.

(** [skipelem] takes the first element off a path: it returns 0 exactly when
    there is none, otherwise the name (cut to [DIRSIZ] bytes) and the path of
    the elements that follow, without leading slashes and shorter. *)
Theorem skipelem_correct path name :
  match skipelem path name with
  | None => components path = []
  | Some (rest, nm) => ∃ e, components path = e :: components rest ∧ e ≠ [] ∧ 47 ∉ e ∧
      name_pad DIRSIZ nm = name_pad DIRSIZ e ∧ (length name = DIRSIZ → length nm = DIRSIZ) ∧
      (length rest < length path)%nat ∧ (rest = [] ↔ components rest = [])
  end.
Proof.
  pose proof (skipelem_ok path name) as H. destruct (skipelem path name) as [[rest nm]|]; [|done].
  destruct H as (e & -> & HC & He & Hn & Hl & Hr). exists e. split_and!; try done; [apply store_name_pad|apply store_name_length].
Qed.

(** ** Counting in the table *)

Fixpoint tally (f : inode → Z) (l : list inode) : Z := match l with [] => 0 | x :: l' => f x + tally f l' end.
Lemma tally_insert f l : ∀ i x y, l !! i = Some x → tally f (<[i := y]> l) = tally f l - f x + f y.
Proof.
  induction l as [|z l IH]; intros i x y Hx; [by rewrite lookup_nil in Hx|]. destruct i as [|i]; cbn in Hx.
  - injection Hx as ->. cbn. lia.
  - change (<[Datatypes.S i := y]> (z :: l)) with (z :: <[i := y]> l). cbn [tally]. rewrite (IH i x y Hx). lia.
Qed.
Lemma tally_nonneg f l : (∀ i x, l !! i = Some x → 0 ≤ f x) → 0 ≤ tally f l ∧ ∀ i x, l !! i = Some x → f x ≤ tally f l.
Proof.
  induction l as [|z l IH]; intros H; cbn [tally].
  - split; [done|]. intros i x Hx. by rewrite lookup_nil in Hx.
  - destruct IH as [H1 H2]; [intros i x Hx; by apply (H (Datatypes.S i) x)|]. pose proof (H 0%nat z eq_refl). split; [lia|].
    intros [|i] x Hx; cbn in Hx; [injection Hx as ->; lia|]. specialize (H2 i x Hx). lia.
Qed.
Lemma tally_pos f l : 0 < tally f l → ∃ i x, l !! i = Some x ∧ f x ≠ 0.
Proof.
  induction l as [|z l IH]; cbn [tally]; intros H; [lia|]. destruct (decide (f z = 0)) as [E|Hne]; [|by exists 0%nat, z].
  destruct IH as (i & x & Hx & Hf); [lia|]. by exists (Datatypes.S i), x.
Qed.

(** References to inode [n], and free entries. *)
Definition refs (l : list inode) (n : Z) : Z := tally (λ x, if inum x =? n then ref x else 0) l.
Definition spare (l : list inode) : Z := tally (λ x, if ref x =? 0 then 1 else 0) l.

(** ** Where a path leads *)

Section tree.
Context (sb : superblock) (v : Z → block).
Definition dir_of (n : Z) : list (list Z) := dirents v (addrs (dn sb v n)) (isize (dn sb v n)).
(** The inode that the names lead to from inode [n]. *)
Fixpoint resolve (n : Z) (cs : list (list Z)) : option Z :=
  match cs with
  | [] => Some n
  | c :: cs' =>
      if type (dn sb v n) =? T_DIR then
        match lookup_name (dir_of n) c with Some m => resolve m cs' | None => None end
      else None
  end.
(** The last directory and the last name. *)
Fixpoint resolve_parent (n : Z) (cs : list (list Z)) : option (Z * list Z) :=
  match cs with
  | [] => None
  | c :: cs' =>
      if type (dn sb v n) =? T_DIR then
        match cs' with
        | [] => Some (n, c)
        | _ => match lookup_name (dir_of n) c with Some m => resolve_parent m cs' | None => None end
        end
      else None
  end.

(** Directories have whole entries, which name inodes in use; every inode in use
    has a link. *)
Record tree_ok : Prop := {
  tr_size n : live sb v n → type (dn sb v n) = T_DIR → isize (dn sb v n) `mod` 16 = 0;
  tr_entry n nm m : live sb v n → type (dn sb v n) = T_DIR → lookup_name (dir_of n) nm = Some m → live sb v m;
  tr_link n : live sb v n → nlink (dn sb v n) ≠ 0 }.
End tree.

(** ** The walk *)

Section walk.
Context {S M : Type} `{JN : Journaled S} `{UM : UserMemory M}.
#[local] Abbreviation fst_ := (@fst_ S M).

(** The state during a walk; entry [L] is locked. *)
Record walk_ok (L : option nat) (s : fst_) (a : jabs) : Prop := {
  wk_jinv : jinv (jn s) a;
  wk_held : j_held a = [];
  wk_room : j_room a;
  wk_fs : fs_wf (sb s) a;
  wk_tree : tree_ok (sb s) (j_view a);
  wk_table : table_ok (sb s) (j_view a) (inodes s);
  wk_itlock : itlock s = false;
  wk_locked i x : inodes s !! i = Some x → ilocked x = true ↔ L = Some i;
  wk_live i x : inodes s !! i = Some x → 0 < ref x → live (sb s) (j_view a) (inum x) }.

(** What is the same after a step. *)
Record walked (s s' : fst_) (δ : Z → Z) : Prop := {
  wd_sb : sb s' = sb s;
  wd_um : um s' = um s;
  wd_refs n : refs (inodes s') n = refs (inodes s) n + δ n }.
Definition at_inode (n m : Z) : Z := if m =? n then 1 else 0.

Lemma walk_jn L s a j : walk_ok L s a → jinv j a → walk_ok L (with_jn j s) a.
Proof. by intros [] I. Qed.

Lemma refs_ref (l : list inode) i x : (∀ i x, l !! i = Some x → 0 ≤ ref x) → l !! i = Some x → ref x ≤ refs l (inum x).
Proof.
  intros H Hx. destruct (tally_nonneg (λ y, if inum y =? inum x then ref y else 0) l) as [_ Hle].
  - intros j y Hy. case_z; [by eapply H|done].
  - specialize (Hle i x Hx). by rewrite Z.eqb_refl in Hle.
Qed.

(** A reference is taken. *)
Lemma walk_get L s a n : walk_ok L s a → live (sb s) (j_view a) n → 0 < spare (inodes s) → (∀ m, refs (inodes s) m < 2 ^ 31 - 2) →
  ∃ i s' y, iget ROOTDEV n s = Ok (i, s') ∧ walk_ok L s' a ∧ walked s s' (at_inode n) ∧ inodes s' !! i = Some y ∧ inum y = n ∧ 0 < ref y ∧
    (1 < ref y ∧ spare (inodes s') = spare (inodes s) ∨ ref y = 1 ∧ spare (inodes s') = spare (inodes s) - 1) ∧
    (∀ k x, inodes s !! k = Some x → 0 < ref x → ∃ x', inodes s' !! k = Some x' ∧ (k ≠ i ∧ x' = x ∨ k = i ∧ x' = set_ref (ref x + 1) x)).
Proof.
  intros W Hn Hsp Hmax. pose proof (wk_table _ _ _ W) as T.
  destruct (iget_ok s (j_view a) n (wk_itlock _ _ _ W) T) as (i & x & Hx & Hcase & E & T'); [apply Hn| | |].
  { intros k z Hz. pose proof (refs_ref (inodes s) k z ltac:(intros; by eapply (tb_ref _ _ _ T)) Hz). specialize (Hmax (inum z)). lia. }
  { destruct (tally_pos _ _ Hsp) as (k & z & Hz & Hf). exists k, z. split; [done|]. left. revert Hf. by case_z. }
  pose proof (lookup_lt_Some _ _ _ Hx) as Hi. set (y := if holds x ROOTDEV n then _ else _) in *. exists i, (with_inode i y s), y.
  assert (inum y = n ∧ ref y = ref x + 1 ∧ ilocked y = ilocked x ∧ (if inum x =? n then ref x else 0) = (if ref x =? 0 then 0 else ref x)) as (En & Er & El & Ec).
  { unfold y. destruct (holds x ROOTDEV n) eqn:Eh.
    - unfold holds in Eh. apply andb_true_iff in Eh as [[H1%Z.ltb_lt H2%Z.eqb_eq]%andb_true_iff H3%Z.eqb_eq]. subst n. rewrite Z.eqb_refl. cbn. case_z; [lia|done].
    - destruct Hcase as [|[Hr0 _]]; [done|]. cbn. rewrite Hr0. by destruct (inum x =? n). }
  pose proof (tb_ref _ _ _ T i x Hx) as Hr.
  split; [done|]. split; [|split; [|split; [|split; [|split; [|split]]]]].
  - destruct W. constructor; try done.
    + intros k z Hz. apply list_lookup_insert_Some in Hz as [(<- & <- & _)|[_ Hz]]; [rewrite El; by apply wk_locked0|by apply wk_locked0].
    + intros k z Hz. apply list_lookup_insert_Some in Hz as [(<- & <- & _)|[_ Hz]]; [by rewrite En|by eapply wk_live0].
  - constructor; try done. intros m. unfold refs. cbn [inodes with_inode]. rewrite (tally_insert _ _ i x y Hx), En, Er. unfold at_inode.
    destruct (Z.eqb_spec m n) as [->|Hmn].
    + rewrite Z.eqb_refl, Ec. case_z; lia.
    + rewrite (proj2 (Z.eqb_neq n m)) by done. destruct (Z.eqb_spec (inum x) m) as [Em|]; [|lia]. subst m. destruct (Z.eqb_spec (inum x) n); [congruence|].
      destruct (Z.eqb_spec (ref x) 0); lia.
  - by apply list_lookup_insert_eq.
  - done.
  - lia.
  - unfold spare. cbn [inodes with_inode]. rewrite (tally_insert _ _ i x y Hx), Er. rewrite (proj2 (Z.eqb_neq (ref x + 1) 0)) by lia.
    destruct (Z.eqb_spec (ref x) 0); [right|left]; lia.
  - intros k z Hz Hz0. destruct (decide (k = i)) as [->|Hk].
    + assert (z = x) as -> by congruence. exists y. split; [by apply list_lookup_insert_eq|]. right. split; [done|]. unfold y.
      destruct (holds x ROOTDEV n); [done|]. destruct Hcase as [|[? _]]; [done|lia].
    + exists z. split; [|by left]. cbn [inodes with_inode]. by rewrite list_lookup_insert_ne.
Qed.

Lemma walked_trans s1 s2 s3 δ ε : walked s1 s2 δ → walked s2 s3 ε → walked s1 s3 (λ n, δ n + ε n).
Proof. intros [A1 A2 A3] [B1 B2 B3]. constructor; [congruence|congruence|]. intros n. rewrite B3, A3. lia. Qed.
Lemma walked_ext s1 s2 δ ε : walked s1 s2 δ → (∀ n, δ n = ε n) → walked s1 s2 ε.
Proof. intros [] H. constructor; try done. intros n. by rewrite <- H. Qed.

(** An entry changes that keeps its inode and its references. *)
Lemma walked_same (s : fst_) i x y : inodes s !! i = Some x → inum y = inum x → ref y = ref x →
  walked s (with_inode i y s) (λ _, 0) ∧ spare (inodes (with_inode i y s)) = spare (inodes s).
Proof.
  intros Hx En Er. split; [constructor; [done|done|]|]; intros; unfold refs, spare; cbn [inodes with_inode]; rewrite (tally_insert _ _ i x y Hx), ?En, Er; lia.
Qed.

(** An inode is locked, and is then as on disk. *)
Lemma walk_lock s a i x : walk_ok None s a → inodes s !! i = Some x → 0 < ref x →
  ∃ s' y, ilock (Some i) s = Ok (tt, s') ∧ walk_ok (Some i) s' a ∧ walked s s' (λ _, 0) ∧ spare (inodes s') = spare (inodes s) ∧
    inodes s' !! i = Some y ∧ inum y = inum x ∧ ref y = ref x ∧ synced (sb s) (j_view a) y ∧ core y = core (dn (sb s) (j_view a) (inum x)).
Proof.
  intros W Hx Hr. pose proof W as [I Hh Hrm F Tr T HL Hlk Hlv].
  assert (ilocked x = false) as Hul by (destruct (ilocked x) eqn:E; [by apply (Hlk i x Hx) in E|done]).
  destruct (ilock_ok s a i x I Hh Hrm T Hx Hr Hul (Hlv i x Hx Hr)) as (j & E & Ij & Sy & T'). set (y := loaded (sb s) (j_view a) x) in *.
  destruct (loaded_fields (sb s) (j_view a) x) as (Ed & En & Er & El & Ev). fold y in Ed, En, Er, El, Ev.
  destruct (walked_same s i x y Hx En Er) as [Wd Hsp]. exists (with_jn j (with_inode i y s)), y.
  pose proof (lookup_lt_Some _ _ _ Hx) as Hi. split_and!; try done.
  - constructor; try done.
    + intros k z Hz. apply list_lookup_insert_Some in Hz as [(<- & <- & _)|[Hk Hz]]; [by rewrite El|].
      split; [intros Hl; by apply (Hlk k z Hz) in Hl|by intros [= <-]].
    + intros k z Hz. apply list_lookup_insert_Some in Hz as [(<- & <- & _)|[Hk Hz]]; [by rewrite En, Er; eauto|by eauto].
  - by destruct Wd.
  - by apply list_lookup_insert_eq.
  - apply loaded_core. by apply (tb_sync _ _ _ T i x).
Qed.

Lemma walk_unlock s a i y : walk_ok (Some i) s a → inodes s !! i = Some y → 0 < ref y →
  ∃ s', iunlock (Some i) s = Ok (tt, s') ∧ walk_ok None s' a ∧ walked s s' (λ _, 0) ∧ spare (inodes s') = spare (inodes s) ∧
    (∀ k z, inodes s !! k = Some z → inodes s' !! k = Some (if bool_decide (k = i) then set_ilocked false z else z)).
Proof.
  intros W Hy Hr. pose proof W as [I Hh Hrm F Tr T HL Hlk Hlv].
  assert (ilocked y = true) as Hly by by apply (Hlk i y Hy). set (z := set_ilocked false y).
  destruct (walked_same s i y z Hy eq_refl eq_refl) as [Wd Hsp]. exists (with_inode i z s). pose proof (lookup_lt_Some _ _ _ Hy) as Hi. split_and!; try done.
  - unfold iunlock. rewrite (bind_Ok _ _ _ _ _ (get_inode_ok s i y Hy)), Hly. rewrite (proj2 (Z.ltb_ge (ref y) 1)) by lia. cbn [negb orb].
    unfold releasesleep. by apply mod_inode_ok.
  - constructor; try done.
    + apply (table_update _ _ _ i y); try done; cbn; [by eapply (tb_ref _ _ _ T)|intros _; by eapply (tb_dev _ _ _ T)| |intros _ k w Hw Hk; by eapply table_other].
      intros _ Hv. by destruct (tb_sync _ _ _ T i y Hy Hr Hv).
    + intros k w Hw. apply list_lookup_insert_Some in Hw as [(<- & <- & _)|[Hk Hw]]; [done|].
      split; [intros Hl; apply (Hlk k w Hw) in Hl; congruence|done].
    + intros k w Hw. apply list_lookup_insert_Some in Hw as [(<- & <- & _)|[Hk Hw]]; [intros _; exact (Hlv i y Hy Hr)|by eauto].
  - intros k w Hw. cbn [inodes with_inode]. case_bool_decide as Ek; [subst k|by rewrite list_lookup_insert_ne].
    rewrite list_lookup_insert_eq by done. unfold z. congruence.
Qed.

(** A reference is given back. *)
Lemma walk_put s a i x : walk_ok None s a → inodes s !! i = Some x → 0 < ref x →
  ∃ s', iput i s = Ok (tt, s') ∧ walk_ok None s' a ∧ walked s s' (λ m, - at_inode (inum x) m) ∧
    spare (inodes s') = spare (inodes s) + (if ref x =? 1 then 1 else 0) ∧
    (∀ k z, inodes s !! k = Some z → inodes s' !! k = Some (if bool_decide (k = i) then set_ref (ref z - 1) z else z)).
Proof.
  intros W Hx Hr. pose proof W as [I Hh Hrm F Tr T HL Hlk Hlv]. pose proof (lookup_lt_Some _ _ _ Hx) as Hi.
  destruct (iput_drop s (j_view a) i x HL T Hx Hr) as [E T'].
  { intros Hl. by apply (Hlk i x Hx) in Hl. }
  { destruct (valid x) eqn:Ev; [|by rewrite andb_false_r]. destruct (tb_sync _ _ _ T i x Hx Hr Ev) as [_ Hlive Hc].
    pose proof (tr_link _ _ Tr _ Hlive) as Hn. apply core_eq in Hc as (_ & _ & _ & <- & _). rewrite (proj2 (Z.eqb_neq _ 0) Hn). by rewrite andb_false_r. }
  set (y := set_ref (ref x - 1) x) in *. exists (with_inode i y s). split_and!; try done.
  - constructor; try done.
    + intros k w Hw. apply list_lookup_insert_Some in Hw as [(<- & <- & _)|[Hk Hw]]; [by apply (Hlk i x)|by apply Hlk].
    + intros k w Hw. apply list_lookup_insert_Some in Hw as [(<- & <- & _)|[Hk Hw]]; [intros _; exact (Hlv i x Hx Hr)|exact (Hlv k w Hw)].
  - constructor; try done. intros m. unfold refs, at_inode. cbn [inodes with_inode]. rewrite (tally_insert _ _ i x y Hx). cbn [inum ref y set_ref].
    rewrite (Z.eqb_sym m). case_z; lia.
  - unfold spare. cbn [inodes with_inode]. rewrite (tally_insert _ _ i x y Hx). cbn [ref y set_ref].
    destruct (Z.eqb_spec (ref x) 0), (Z.eqb_spec (ref x - 1) 0), (Z.eqb_spec (ref x) 1); lia.
  - intros k w Hw. cbn [inodes with_inode]. case_bool_decide as Ek; [subst k|by rewrite list_lookup_insert_ne].
    rewrite list_lookup_insert_eq by done. unfold y. congruence.
Qed.

Lemma walk_unlockput s a i y : walk_ok (Some i) s a → inodes s !! i = Some y → 0 < ref y →
  ∃ s', iunlockput (Some i) s = Ok (tt, s') ∧ walk_ok None s' a ∧ walked s s' (λ m, - at_inode (inum y) m) ∧
    spare (inodes s') = spare (inodes s) + (if ref y =? 1 then 1 else 0) ∧
    (∀ k z, inodes s !! k = Some z → ∃ z', inodes s' !! k = Some z' ∧ inum z' = inum z ∧ ref z' = ref z - (if bool_decide (k = i) then 1 else 0)).
Proof.
  intros W Hy Hr. destruct (walk_unlock s a i y W Hy Hr) as (s1 & E1 & W1 & D1 & S1 & F1).
  pose proof (F1 i y Hy) as Hy1. rewrite bool_decide_true in Hy1 by done.
  destruct (walk_put s1 a i _ W1 Hy1 Hr) as (s2 & E2 & W2 & D2 & S2 & F2). exists s2. split_and!.
  - unfold iunlockput. by rewrite (bind_Ok _ _ _ _ _ E1).
  - done.
  - eapply walked_ext; [exact (walked_trans _ _ _ _ _ D1 D2)|]. done.
  - by rewrite S2, S1.
  - intros k z Hz. eexists. split; [apply F2, F1, Hz|]. case_bool_decide; cbn; [done|]. split; [done|lia].
Qed.

(** What [namex] looks for. *)
Definition target (sb : superblock) (v : Z → block) (np : bool) (n : Z) (cs : list (list Z)) : option Z :=
  if np then fst <$> resolve_parent sb v n cs else resolve sb v n cs.
(** The inode that is returned has one more reference, the one that the walk
    came from one less. *)
Definition arrived (s : fst_) (n0 : Z) (np : bool) (cs : list (list Z)) (a : jabs) (res : option nat) (nm : list Z) (s' : fst_) : Prop :=
  match target (sb s) (j_view a) np n0 cs with
  | None => res = None ∧ walked s s' (λ m, - at_inode n0 m)
  | Some n => walked s s' (λ m, at_inode n m - at_inode n0 m) ∧
      (np = true → ∃ c, resolve_parent (sb s) (j_view a) n0 cs = Some (n, c) ∧ name_pad DIRSIZ nm = name_pad DIRSIZ c) ∧
      ∃ i y, res = Some i ∧ inodes s' !! i = Some y ∧ inum y = n ∧ 0 < ref y
  end.

Lemma arrived_trans s s1 n0 m np c cs a res nm s2 : walked s s1 (λ k, at_inode m k - at_inode n0 k) → (np = true → cs ≠ []) →
  type (dn (sb s) (j_view a) n0) = T_DIR → lookup_name (dir_of (sb s) (j_view a) n0) c = Some m →
  arrived s1 m np cs a res nm s2 → arrived s n0 np (c :: cs) a res nm s2.
Proof.
  intros D Hnp HT Hl. unfold arrived. rewrite (wd_sb _ _ _ D).
  assert (target (sb s) (j_view a) np n0 (c :: cs) = target (sb s) (j_view a) np m cs) as ->.
  { unfold target. destruct np; cbn [resolve resolve_parent]; rewrite HT; cbn [Z.eqb T_DIR Pos.eqb]; rewrite Hl; [|done]. destruct cs; [by destruct Hnp|done]. }
  destruct (target (sb s) (j_view a) np m cs) as [n|].
  - intros (D2 & Hp & H). split_and!; [eapply walked_ext; [exact (walked_trans _ _ _ _ _ D D2)|]; intros k; cbn; lia| |done].
    intros Enp. destruct (Hp Enp) as (c' & E & Hc). exists c'. split; [|done]. cbn [resolve_parent]. rewrite HT. cbn [Z.eqb T_DIR Pos.eqb]. rewrite Hl.
    destruct cs; [by destruct Hnp|done].
  - intros [-> D2]. split; [done|]. eapply walked_ext; [exact (walked_trans _ _ _ _ _ D D2)|]. intros k; cbn; lia.
Qed.
Lemma target_none sb v np n c cs : (type (dn sb v n) ≠ T_DIR ∨ lookup_name (dir_of sb v n) c = None ∧ (np = true → cs ≠ [])) → target sb v np n (c :: cs) = None.
Proof.
  intros H. unfold target. destruct np; cbn [resolve resolve_parent].
  - case_z; [|done]. destruct H as [|[-> Hc]]; [done|]. by destruct cs; [destruct Hc|].
  - case_z; [|done]. by destruct H as [|[-> _]].
Qed.

(** What the walk needs of the table: room for one more entry at every step,
    and counts that do not overflow. *)
Definition fits (s : fst_) (n r : Z) : Prop :=
  2 ≤ spare (inodes s) + (if r =? 1 then 1 else 0) ∧ ∀ m, refs (inodes s) m - at_inode n m < 2 ^ 31 - 3.

(** From a directory that is locked to the next inode. *)
Lemma walk_next s a ip y m : walk_ok (Some ip) s a → inodes s !! ip = Some y → 0 < ref y → fits s (inum y) (ref y) →
  live (sb s) (j_view a) m →
  ∃ q s1 s2 z, iget ROOTDEV m s = Ok (q, s1) ∧ iunlockput (Some ip) s1 = Ok (tt, s2) ∧ walk_ok None s2 a ∧
    walked s s2 (λ k, at_inode m k - at_inode (inum y) k) ∧ inodes s2 !! q = Some z ∧ inum z = m ∧ 0 < ref z ∧ fits s2 m (ref z).
Proof.
  intros W Hy Hr [Hsp Hmax] Hm. assert (∀ n, at_inode (inum y) n ≤ 1) as Hat by (intros n; unfold at_inode; case_z; lia).
  destruct (walk_get (Some ip) s a m W Hm) as (q & s1 & z & E1 & W1 & D1 & Hz & En & Hrz & Hcase & HF).
  { destruct (ref y =? 1); lia. } { intros n. specialize (Hmax n). specialize (Hat n). lia. }
  destruct (HF ip y Hy Hr) as (y1 & Hy1 & Hcy).
  assert (inum y1 = inum y ∧ 0 < ref y1) as [En1 Hr1] by (destruct Hcy as [[_ ->]|[_ ->]]; cbn; split; [done|lia|done|lia]).
  destruct (walk_unlockput s1 a ip y1 W1 Hy1 Hr1) as (s2 & E2 & W2 & D2 & S2 & F2). rewrite En1 in D2.
  destruct (F2 q z Hz) as (z2 & Hz2 & En2 & Hr2).
  exists q, s1, s2, z2. split_and!; try done.
  - eapply walked_ext; [exact (walked_trans _ _ _ _ _ D1 D2)|]. intros k. cbn. lia.
  - congruence.
  - destruct Hcy as [[Hne ->]|[-> ->]].
    + rewrite bool_decide_false in Hr2 by congruence. lia.
    + rewrite bool_decide_true in Hr2 by done. rewrite Hz in Hy1. injection Hy1 as Ez. rewrite Hr2, Ez. cbn. lia.
  - split; [rewrite S2; destruct Hcy as [[Hne ->]|[-> ->]]|].
    + rewrite bool_decide_false in Hr2 by congruence. rewrite Hr2, Z.sub_0_r. destruct Hcase as [[? ->]|[-> ->]]; [|cbn [Z.eqb Pos.eqb]; lia].
      destruct (Z.eqb_spec (ref z) 1); lia.
    + rewrite bool_decide_true in Hr2 by done. rewrite Hz in Hy1. injection Hy1 as Ez. rewrite Hr2, Ez. cbn [ref set_ref].
      rewrite (proj2 (Z.eqb_neq (ref y + 1) 1)) by lia. replace (ref y + 1 - 1) with (ref y) by lia. rewrite Ez in Hcase. cbn in Hcase. lia.
    + intros n. rewrite (wd_refs _ _ _ D2), (wd_refs _ _ _ D1). specialize (Hmax n). lia.
Qed.

Lemma namex_loop_ok fuel : ∀ s a ip x np path name, walk_ok None s a → inodes s !! ip = Some x → 0 < ref x → fits s (inum x) (ref x) →
  (length path < fuel)%nat →
  ∃ res nm s', namex_loop fuel ip np path name s = Ok ((res, nm), s') ∧ walk_ok None s' a ∧ arrived s (inum x) np (components path) a res nm s'.
Proof.
  induction fuel as [|fuel IH]; intros s a ip x np path name W Hx Hr Hfit Hf; [lia|]. cbn [namex_loop].
  pose proof (skipelem_ok path name) as Hsk. destruct (skipelem path name) as [[rest nm]|].
  2: { rewrite Hsk. destruct np.
       - destruct (walk_put s a ip x W Hx Hr) as (s1 & E & W1 & D1 & _). rewrite (bind_Ok _ _ _ _ _ E). by exists None, name, s1.
       - exists (Some ip), name, s. split; [done|]. split; [done|]. cbn. split_and!; [constructor; [done|done|]; intros n; cbn; lia|done|]. by exists ip, x. }
  destruct Hsk as (e & Enm & HC & He & Hne & Hlen & Hrest). rewrite HC.
  destruct (walk_lock s a ip x W Hx Hr) as (s1 & y & E1 & W1 & D1 & S1 & Hy & Eny & Ery & Sy & Ec). rewrite (bind_Ok _ _ _ _ _ E1).
  rewrite (bind_Ok _ _ _ _ _ (get_inode_ok s1 ip y Hy)). pose proof (core_eq _ _ Ec) as (Et & _ & _ & _ & Es & Ea).
  assert (∀ c s3 δ, walked s1 s3 δ → target (sb s) (j_view a) np (inum x) (e :: components rest) = None → (∀ m, δ m = - at_inode (inum y) m) →
    arrived s (inum x) np (e :: components rest) a None c s3) as Hnone.
  { intros c s3 δ D3 HT Hδ. unfold arrived. rewrite HT. split; [done|]. eapply walked_ext; [exact (walked_trans _ _ _ _ _ D1 D3)|].
    intros m. cbn. by rewrite Hδ, Eny. }
  destruct (walk_unlockput s1 a ip y W1 Hy ltac:(lia)) as (s2 & E2 & W2 & D2 & _). destruct (Z.eqb_spec (type y) T_DIR) as [HT|HT]; cbn [negb].
  2: { rewrite (bind_Ok _ _ _ _ _ E2). exists None, nm, s2. split; [done|]. split; [done|]. eapply Hnone; [exact D2| |done].
       apply target_none. left. congruence. }
  destruct (np && bool_decide (rest = [])) eqn:Enp.
  { apply andb_true_iff in Enp as [-> Hr0%bool_decide_eq_true]. destruct (walk_unlock s1 a ip y W1 Hy ltac:(lia)) as (s3 & E3 & W3 & D3 & _ & F3).
    rewrite (bind_Ok _ _ _ _ _ E3). exists (Some ip), nm, s3. split; [done|]. split; [done|]. unfold arrived, target.
    rewrite (proj1 Hrest Hr0). cbn [resolve_parent]. rewrite <- Et, HT. cbn [Z.eqb T_DIR Pos.eqb fmap option_fmap option_map fst]. split_and!.
    - eapply walked_ext; [exact (walked_trans _ _ _ _ _ D1 D3)|]. intros m. cbn. lia.
    - intros _. exists e. split; [done|]. rewrite Enm. apply store_name_pad.
    - eexists ip, _. split; [done|]. split; [apply F3, Hy|]. rewrite bool_decide_true by done. cbn. split; [done|lia]. }
  assert (np = true → components rest ≠ []) as Hnp by (intros -> E0; apply Hrest in E0; by rewrite bool_decide_true in Enp).
  assert (sb s1 = sb s) as Esb by apply D1. pose proof W1 as [I1 Hh1 Hrm1 F1 Tr1 T1 HL1 Hlk1 Hlv1].
  assert (live (sb s) (j_view a) (inum x)) as Hlive by (eapply (wk_live _ _ _ W); done).
  destruct (dirlookup_ok s1 a ip y nm I1 Hh1 Hrm1 Hy) as (j & Ij & E3).
  { apply synced_dir; [done|by rewrite Esb|done|]. rewrite Es. apply (tr_size _ _ (wk_tree _ _ _ W)); [done|congruence]. }
  assert (dirents (j_view a) (addrs y) (isize y) = dir_of (sb s) (j_view a) (inum x)) as Ed by (unfold dir_of; by rewrite Ea, Es). rewrite Ed in E3.
  assert (lookup_name (dir_of (sb s) (j_view a) (inum x)) e = fst <$> find_from 0 nm (dir_of (sb s) (j_view a) (inum x))) as El.
  { rewrite (lookup_name_ext _ e nm); [done|]. rewrite Enm. by rewrite store_name_pad. }
  destruct (find_from 0 nm (dir_of (sb s) (j_view a) (inum x))) as [[m k]|]; cbn in El.
  2: { rewrite (bind_Ok _ _ _ _ _ E3). pose proof (walk_jn _ _ _ j W1 Ij) as W1'.
       destruct (walk_unlockput (with_jn j s1) a ip y W1' Hy ltac:(lia)) as (s4 & E4 & W4 & D4 & _). rewrite (bind_Ok _ _ _ _ _ E4).
       exists None, nm, s4. split; [done|]. split; [done|]. eapply Hnone; [|apply target_none; right; split; [exact El|done]|done].
       destruct D4. constructor; try done. }
  pose proof (walk_jn _ _ _ j W1 Ij) as W1'.
  destruct (walk_next (with_jn j s1) a ip y m W1' Hy ltac:(lia)) as (q & s3 & s4 & z & E4 & E5 & W4 & D4 & Hz & Enz & Hrz & Hfit4).
  { destruct Hfit as [Hf1 Hf2]. split; [rewrite Ery; cbn [inodes with_jn]; rewrite S1; done|]. intros n. cbn [inodes with_jn]. rewrite (wd_refs _ _ _ D1), Eny, Z.add_0_r. apply Hf2. }
  { cbn [sb with_jn]. rewrite Esb. eapply (tr_entry _ _ (wk_tree _ _ _ W)); [done|congruence|exact El]. }
  assert (dirlookup ip nm s1 = Ok (Some (q, 16 * k), s3)) as E3' by (rewrite E3, (bind_Ok _ _ _ _ _ E4); done).
  rewrite (bind_Ok _ _ _ _ _ E3'). rewrite (bind_Ok _ _ _ _ _ E5).
  destruct (IH s4 a q z np rest nm W4 Hz Hrz) as (res & nm2 & s5 & E6 & W5 & A5); [by rewrite Enz|lia|].
  exists res, nm2, s5. split; [done|]. split; [done|]. rewrite Enz in A5. eapply arrived_trans; [|exact Hnp|congruence|exact El|exact A5].
  assert (walked s1 s4 (λ k, at_inode m k - at_inode (inum y) k)) as D4' by (destruct D4; constructor; done).
  eapply walked_ext; [exact (walked_trans _ _ _ _ _ D1 D4')|]. intros n. cbn. by rewrite Eny.
Qed.

(** A second reference to an inode. *)
Lemma walk_dup s a i x : walk_ok None s a → inodes s !! i = Some x → 0 < ref x → (∀ m, refs (inodes s) m < 2 ^ 31 - 3) →
  ∃ s' y, idup i s = Ok (i, s') ∧ walk_ok None s' a ∧ walked s s' (at_inode (inum x)) ∧ inodes s' !! i = Some y ∧ inum y = inum x ∧
    ref y = ref x + 1 ∧ spare (inodes s') = spare (inodes s).
Proof.
  intros W Hx Hr Hmax. pose proof W as [I Hh Hrm F Tr T HL Hlk Hlv]. pose proof (lookup_lt_Some _ _ _ Hx) as Hi.
  pose proof (refs_ref (inodes s) i x ltac:(intros; by eapply (tb_ref _ _ _ T)) Hx). specialize (Hmax (inum x)).
  set (y := set_ref (ref x + 1) x). exists (with_inode i y s), y. split_and!; try done.
  - unfold idup. rewrite (bind_Ok _ _ _ _ _ (acquire_it_ok s HL)). set (s1 := mkFs _ _ true _ _).
    rewrite (bind_Ok _ _ _ _ _ (mod_inode_ok s1 i x _ Hx)). rewrite i32_small by lia. unfold with_inode. by rewrite HL.
  - constructor; try done.
    + apply (table_update _ _ _ i x); try done; cbn; [lia|intros _; by eapply (tb_dev _ _ _ T)|lia| |intros _ k w Hw Hk; by eapply table_other].
      intros _ Hv. by destruct (tb_sync _ _ _ T i x Hx Hr Hv).
    + intros k w Hw. apply list_lookup_insert_Some in Hw as [(<- & <- & _)|[Hk Hw]]; [by apply (Hlk i x)|by apply Hlk].
    + intros k w Hw. apply list_lookup_insert_Some in Hw as [(<- & <- & _)|[Hk Hw]]; [intros _; exact (Hlv i x Hx Hr)|exact (Hlv k w Hw)].
  - constructor; try done. intros m. unfold refs, at_inode. cbn [inodes with_inode]. rewrite (tally_insert _ _ i x y Hx). cbn [inum ref y set_ref].
    rewrite (Z.eqb_sym m). case_z; lia.
  - by apply list_lookup_insert_eq.
  - unfold spare. cbn [inodes with_inode]. rewrite (tally_insert _ _ i x y Hx). cbn [ref y set_ref].
    destruct (Z.eqb_spec (ref x) 0), (Z.eqb_spec (ref x + 1) 0); lia.
Qed.

(** Where the walk starts. *)
Definition start (path : list Z) (x : inode) : Z := if hd 0 path =? 47 then ROOTINO else inum x.

Lemma namex_ok s a cwd x np path name : walk_ok None s a → inodes s !! cwd = Some x → 0 < ref x → 2 ≤ spare (inodes s) →
  (∀ m, refs (inodes s) m < 2 ^ 31 - 3) → live (sb s) (j_view a) ROOTINO →
  ∃ res nm s', namex cwd path np name s = Ok ((res, nm), s') ∧ walk_ok None s' a ∧
    match target (sb s) (j_view a) np (start path x) (components path) with
    | None => res = None ∧ walked s s' (λ _, 0)
    | Some n => walked s s' (at_inode n) ∧
        (np = true → ∃ c, resolve_parent (sb s) (j_view a) (start path x) (components path) = Some (n, c) ∧ name_pad DIRSIZ nm = name_pad DIRSIZ c) ∧
        ∃ i y, res = Some i ∧ inodes s' !! i = Some y ∧ inum y = n ∧ 0 < ref y
    end.
Proof.
  intros W Hx Hr Hsp Hmax Hroot. set (n0 := start path x).
  assert (∃ i s1 y, (if hd 0 path =? 47 then iget ROOTDEV ROOTINO else idup cwd) s = Ok (i, s1) ∧ walk_ok None s1 a ∧ walked s s1 (at_inode n0) ∧
    inodes s1 !! i = Some y ∧ inum y = n0 ∧ 0 < ref y ∧ fits s1 n0 (ref y)) as (i & s1 & y & E1 & W1 & D1 & Hy & En & Hry & Hfit).
  { assert (∀ s1, walked s s1 (at_inode n0) → ∀ m, refs (inodes s1) m - at_inode n0 m < 2 ^ 31 - 3) as Hb.
    { intros s1 D m. rewrite (wd_refs _ _ _ D). specialize (Hmax m). lia. }
    assert (n0 = inum x → ∃ i s1 y, idup cwd s = Ok (i, s1) ∧ walk_ok None s1 a ∧ walked s s1 (at_inode n0) ∧
      inodes s1 !! i = Some y ∧ inum y = n0 ∧ 0 < ref y ∧ fits s1 n0 (ref y)) as Hdup.
    { intros E0. destruct (walk_dup s a cwd x W Hx Hr Hmax) as (s1 & y & E1 & W1 & D1 & Hy & En & Ery & S1). rewrite <- E0 in *.
      exists cwd, s1, y. split_and!; try done; [lia|]. split; [|by apply Hb]. rewrite S1, Ery. case_z; lia. }
    assert (n0 = ROOTINO → ∃ i s1 y, iget ROOTDEV ROOTINO s = Ok (i, s1) ∧ walk_ok None s1 a ∧ walked s s1 (at_inode n0) ∧
      inodes s1 !! i = Some y ∧ inum y = n0 ∧ 0 < ref y ∧ fits s1 n0 (ref y)) as Hget.
    { intros E0. destruct (walk_get None s a ROOTINO W Hroot ltac:(lia)) as (i & s1 & y & E1 & W1 & D1 & Hy & En & Hry & Hcase & _).
      { intros m. specialize (Hmax m). lia. }
      rewrite <- E0 in *. exists i, s1, y. split_and!; try done. split; [|by apply Hb]. destruct Hcase as [[? ->]|[-> ->]]; [case_z; lia|cbn [Z.eqb Pos.eqb]; lia]. }
    unfold n0, start in *. destruct (hd 0 path =? 47); [by apply Hget|by apply Hdup]. }
  destruct (namex_loop_ok (Datatypes.S (length path)) s1 a i y np path name W1 Hy Hry) as (res & nm & s2 & E2 & W2 & A2); [by rewrite En|lia|].
  exists res, nm, s2. split; [unfold namex; by rewrite (bind_Ok _ _ _ _ _ E1)|]. split; [done|]. rewrite En in A2. unfold arrived in A2. rewrite (wd_sb _ _ _ D1) in A2.
  destruct (target (sb s) (j_view a) np n0 (components path)) as [n|].
  - destruct A2 as (D2 & H). split; [|done]. eapply walked_ext; [exact (walked_trans _ _ _ _ _ D1 D2)|]. intros m. cbn. lia.
  - destruct A2 as [-> D2]. split; [done|]. eapply walked_ext; [exact (walked_trans _ _ _ _ _ D1 D2)|]. intros m. cbn. lia.
Qed.

(** C9: [namei] returns the inode that the elements of the path lead to from the
    root or the current directory, through the directories on disk, or 0 when
    they lead nowhere; the inode has one more reference, and every other
    reference taken on the way is given back. *)
Theorem namei_correct s a cwd x path : walk_ok None s a → inodes s !! cwd = Some x → 0 < ref x → 2 ≤ spare (inodes s) →
  (∀ m, refs (inodes s) m < 2 ^ 31 - 3) → live (sb s) (j_view a) ROOTINO →
  ∃ res s', namei cwd path s = Ok (res, s') ∧ walk_ok None s' a ∧
    match resolve (sb s) (j_view a) (start path x) (components path) with
    | None => res = None ∧ ∀ m, refs (inodes s') m = refs (inodes s) m
    | Some n => (∀ m, refs (inodes s') m = refs (inodes s) m + at_inode n m) ∧
        ∃ i y, res = Some i ∧ inodes s' !! i = Some y ∧ inum y = n ∧ 0 < ref y
    end.
Proof.
  intros W Hx Hr Hsp Hmax Hroot.
  destruct (namex_ok s a cwd x false path (replicate DIRSIZ 0) W Hx Hr Hsp Hmax Hroot) as (res & nm & s' & E & W' & H). exists res, s'.
  split; [unfold namei; by rewrite (bind_Ok _ _ _ _ _ E)|]. split; [done|]. cbn [target] in H. destruct (resolve _ _ _ _) as [n|].
  - destruct H as (D & _ & H). split; [apply D|done].
  - destruct H as [-> D]. split; [done|]. intros m. rewrite (wd_refs _ _ _ D). lia.
Qed.

(** [nameiparent] returns the directory of the last element and the name. *)
Theorem nameiparent_correct s a cwd x path name : walk_ok None s a → inodes s !! cwd = Some x → 0 < ref x → 2 ≤ spare (inodes s) →
  (∀ m, refs (inodes s) m < 2 ^ 31 - 3) → live (sb s) (j_view a) ROOTINO →
  ∃ res nm s', nameiparent cwd path name s = Ok ((res, nm), s') ∧ walk_ok None s' a ∧
    match resolve_parent (sb s) (j_view a) (start path x) (components path) with
    | None => res = None ∧ ∀ m, refs (inodes s') m = refs (inodes s) m
    | Some (n, c) => (∀ m, refs (inodes s') m = refs (inodes s) m + at_inode n m) ∧ name_pad DIRSIZ nm = name_pad DIRSIZ c ∧
        ∃ i y, res = Some i ∧ inodes s' !! i = Some y ∧ inum y = n ∧ 0 < ref y
    end.
Proof.
  intros W Hx Hr Hsp Hmax Hroot. destruct (namex_ok s a cwd x true path name W Hx Hr Hsp Hmax Hroot) as (res & nm & s' & E & W' & H).
  exists res, nm, s'. split; [done|]. split; [done|]. cbn [target] in H. destruct (resolve_parent _ _ _ _) as [[n c]|]; cbn in H.
  - destruct H as (D & Hp & H). destruct (Hp eq_refl) as (c' & [= <-] & Hc). split; [apply D|done].
  - destruct H as [-> D]. split; [done|]. intros m. rewrite (wd_refs _ _ _ D). lia.
Qed.
End walk.
End FsPath.
