(* ===== verification/FsProps.v ===== *)
(** * What the file system guarantees

    The theorems about files, directories and inodes, for any log that keeps the
    laws of [Journal] and any user memory that keeps those of [UserMem]. *)

From S2P Require Import Prelude Bytes BufCache Log Journal UserMem Fs FsBlocks FsMap FsFile FsWrite FsInode FsState FsOps FsTrunc FsTable FsDir.
Import Bytes Journal UserMem Fs FsBlocks FsMap FsFile FsWrite FsInode FsState FsOps FsTrunc FsTable FsDir.
Import BufCache (block, BSIZE, ROOTDEV, zero_blk, NBUF).
Import Log (MAXOPBLOCKS, LOGSIZE).

Module FsProps.

Section props.
Context {S M : Type} `{JN : Journaled S} `{UM : UserMemory M}.
#[local] Abbreviation fst_ := (@fst_ S M).

(** [readi] into user memory copies exactly the bytes of the file from the
    offset on, as many as were asked for and the file has; when part of the
    destination is not mapped it returns -1.  Neither the file system nor the
    transaction changes. *)
Lemma readi_user_ok (s : fst_) a i x va mem off n : jinv (jn s) a → j_held a = [] → j_room a → fs_wf (sb s) a → inodes s !! i = Some x →
  synced (sb s) (j_view a) x → 0 ≤ off < 2 ^ 32 → 0 ≤ n < 2 ^ 32 → uinv (um s) mem → 0 ≤ va → va + n < 2 ^ 64 →
  let m := available x off n in
  ∃ r va' j u', readi i (User va) off n s = Ok ((r, User va'), with_um u' (with_jn j s)) ∧ jinv j a ∧
    (umapped mem va m → r = m ∧ uinv u' (ustore mem va (fbyte (sb s) (j_view a) (inum x) <$> seqZ off m))) ∧
    (¬ umapped mem va m → r = -1).
Proof.
  intros I Hh Hr F Hx Sy Ho Hn U Hva Hmax m. pose proof (node_file_ok _ _ _ (synced_node _ _ _ F Sy) (sy_dev _ _ _ Sy)) as FO.
  destruct (readi_ok s a i x (User va) off n I Hh Hr Hx FO Ho Hn) as (j & Ij & E). fold m in E.
  destruct (available_range _ _ _ off n FO Ho Hn) as (Hm1 & Hm2 & _). fold m in Hm1, Hm2.
  set (cs := chunks (Z.to_nat m) (bytes (j_view a) (addrs x)) off m) in *.
  assert (concat cs = bytes (j_view a) (addrs x) off m) as Ecs by (apply chunks_concat; lia).
  assert (length (concat cs) = Z.to_nat m) as Hl by (rewrite Ecs; apply bytes_length).
  destruct (feed_user cs va 0 (um s) mem U Hva ltac:(lia)) as (r & va' & u' & k & Ef & U' & HC). rewrite E, bind_run, Ef. cbn [fst snd mret prog_ret lift].
  exists (i32 r), va', j, u'. split; [done|]. split; [done|]. rewrite Hl, Z2Nat.id in HC by lia. split.
  - intros Hmap. destruct HC as [(-> & -> & _)|[_ Hno]]; [|done]. rewrite i32_small by lia. split; [lia|].
    rewrite <- Hl, firstn_all, Ecs in U'. unfold bytes in U'.
    assert (fbyte (sb s) (j_view a) (inum x) <$> seqZ off m = byte (j_view a) (addrs x) <$> seqZ off m) as ->; [|done].
    apply list_fmap_ext. intros q o _. by apply synced_byte.
  - intros Hno. by destruct HC as [(_ & _ & ?)|[-> _]].
Qed.

(** C6: [writei] refuses a range that starts behind the end of the file, wraps
    around or is longer than a file can be.  Otherwise it writes a prefix of what
    the source has, all of it unless the disk is full: exactly these bytes of the
    file change, the size grows to hold them, the inode on disk has it, no other
    file changes, and the blocks of all files stay distinct and in use.  The
    source has all [n] bytes; or it is in user memory and ends early, before its
    first byte or before the first byte of a block of the file ([supplies]). *)
Theorem writei_correct (s : fst_) R a i x src data off n : jinv (jn s) a → j_held a = [] → fs_wf (sb s) a → inodes s !! i = Some x →
  synced (sb s) (j_view a) x → supplies src data n off (um s) → 0 ≤ off < 2 ^ 32 → 0 ≤ n < 2 ^ 32 →
  IBLOCK (inum x) (sb s) ∈ R → room (sb s) (R ∪ nz (ind (addrs x))) a (need (addrs x) (span off n)) →
  if bool_decide (off ≤ isize x ∧ off + n ≤ MAXFILE * BS) then
    ∃ m j a' x', writei i src off n s = Ok (m, with_jn j (with_inode i x' s)) ∧ jinv j a' ∧ fs_wf (sb s) a' ∧
      synced (sb s) (j_view a') x' ∧ isize x' = Z.max (isize x) (off + m) ∧ 0 ≤ m ≤ Z.of_nat (length data) ∧ Z.of_nat (length data) ≤ n ∧
      (∀ o, 0 ≤ o < MAXFILE * BS → fbyte (sb s) (j_view a') (inum x) o = overlay (fbyte (sb s) (j_view a) (inum x)) off (take (Z.to_nat m) data) o) ∧
      (∀ k, live (sb s) (j_view a) k → k ≠ inum x → same_file (sb s) (j_view a) (j_view a') k) ∧
      (m < Z.of_nat (length data) → ∀ c, 0 ≤ c < size (sb s) → used_blk (sb s) (j_view a') c = true)
  else writei i src off n s = Ok (-1, s).
Proof.
  intros I Hh F Hx Sy G Ho Hn HB HR. assert (Z.of_nat (length data) ≤ n) as Hl by (destruct G as [_ [G|(G & _)]]; lia). pose proof (synced_node _ _ _ F Sy) as N.
  pose proof (refused_spec x off n Ho ltac:(lia) ltac:(apply N)) as Hr.
  destruct (decide (off ≤ isize x ∧ off + n ≤ MAXFILE * BS)) as [Hb|Hb].
  - rewrite bool_decide_eq_true_2 by done. rewrite bool_decide_eq_false_2 in Hr by tauto.
    destruct (writei_ok s R a i x src data off n I Hh F Hx Sy G Ho Hn HB HR Hr) as (m & j & a' & l' & E & Hm & I' & St & Sy' & Hby & Hf & _).
    exists m, j, a', (extended x l' (off + m)). split_and!; try done; try lia.
    + by eapply step_wf.
    + intros k Hk Hne. by apply (step_same _ _ _ _ F St).
    + intros Hlt. by apply Hf.
  - rewrite bool_decide_eq_false_2 by done. apply (writei_refused s i x); [done|]. rewrite Hr. by apply bool_decide_eq_true.
Qed.

(** The transactions of the file system: one block of bitmap, [MAXOPBLOCKS]
    reserved blocks of the log. *)

Lemma one_bitmap sb c : size sb ≤ BPB → 0 ≤ bmapstart sb < 2 ^ 32 → 0 ≤ c < size sb → BBLOCK c sb = bmapstart sb.
Proof. intros Hs Hb Hc. unfold BBLOCK. rewrite Z.div_small by lia. by rewrite u32_small. Qed.
Lemma logged_size a : NoDup (j_dirty a) → Z.of_nat (base.size (logged a)) = Z.of_nat (length (j_dirty a)).
Proof. intros H. unfold logged. by rewrite size_list_to_set. Qed.

(** A write of at most three blocks fits in what [begin_op] reserves. *)
Lemma chunk_room sb a l B off n : NoDup (j_dirty a) → j_held a = [] → size sb ≤ BPB → 0 ≤ bmapstart sb < 2 ^ 32 →
  Z.of_nat (length (j_dirty a)) + MAXOPBLOCKS ≤ LOGSIZE → j_cap a = LOGSIZE - 1 → 0 ≤ off → n ≤ 3 * BS →
  room sb ({[bmapstart sb; B]} ∪ nz (ind l)) a (need l (span off n)).
Proof.
  intros Hnd Hh Hs Hb Hd Hc Ho Hn. pose proof (span_le off n 3 Ho Hn ltac:(lia)) as Hsp.
  assert (charge ({[bmapstart sb; B]} ∪ nz (ind l)) a ≤ Z.of_nat (length (j_dirty a)) + 2 + Z.of_nat (base.size (nz (ind l)))) as Hch.
  { pose proof (charge_split {[bmapstart sb; B]} (nz (ind l)) a). pose proof (charge_split ∅ {[bmapstart sb; B]} a) as H2.
    assert (base.size ({[bmapstart sb; B]} : gset Z) ≤ 2)%nat by (pose proof (size_union_le {[bmapstart sb]} {[B]}) as Hu; rewrite !size_singleton in Hu; done).
    unfold charge in *. rewrite !union_empty_r_L in H2. rewrite union_empty_l_L in H2. pose proof (logged_size a Hnd). lia. }
  assert (Z.of_nat (base.size (nz (ind l))) = if ind l =? 0 then 0 else 1) as En by (unfold nz; case_z; [by rewrite size_empty|by rewrite size_singleton]).
  unfold need, LOGSIZE, MAXOPBLOCKS in *. constructor.
  - intros c Hc'. rewrite (one_bitmap sb) by done. set_solver.
  - rewrite Hc. revert En. case_z; lia.
  - rewrite Hh. cbn. unfold NBUF. revert En. case_z; lia.
Qed.

(** C14: the chunks in which [filewrite] cuts a write fit in a transaction: with
    at most [LOGSIZE - MAXOPBLOCKS] blocks in the log, as [begin_op] ensures, a
    [writei] of up to three blocks at any offset, from a source that has all bytes
    or ends before a block of the file, returns, logs every block it changed, and
    leaves at most [LOGSIZE - 3] blocks in the log. *)
Theorem write_chunk_fits (s : fst_) a i x src data off n : jinv (jn s) a → j_held a = [] → fs_wf (sb s) a → inodes s !! i = Some x →
  synced (sb s) (j_view a) x → supplies src data n off (um s) → 0 ≤ off < 2 ^ 32 →
  size (sb s) ≤ BPB → Z.of_nat (length (j_dirty a)) + MAXOPBLOCKS ≤ LOGSIZE → j_cap a = LOGSIZE - 1 → 0 ≤ n ≤ 3 * BS →
  ∃ r s' a', writei i src off n s = Ok (r, s') ∧ jinv (jn s') a' ∧ j_held a' = [] ∧
    Z.of_nat (length (j_dirty a')) ≤ LOGSIZE - 3 ∧ (∀ b, b ∉ j_dirty a' → j_view a' b = j_disk a' b).
Proof.
  intros I Hh F Hx Sy G Ho Hs Hd Hc Hn. pose proof (synced_node _ _ _ F Sy) as N. pose proof (jinv_nodup _ _ I) as Hnd.
  assert (0 ≤ bmapstart (sb s) < 2 ^ 32) as Hb.
  { destruct (fw_layout _ _ F) as [_ L2 L3 _ _]. pose proof (Z.div_pos (size (sb s)) BPB ltac:(destruct (fw_layout _ _ F); lia) ltac:(done)). lia. }
  set (B := IBLOCK (inum x) (sb s)). pose proof (chunk_room (sb s) a (addrs x) B off n Hnd Hh Hs Hb Hd Hc ltac:(lia) (proj2 Hn)) as HR.
  destruct (refused x off n) eqn:Er.
  - exists (-1), s, a. split; [by eapply writei_refused|]. split; [done|]. split; [done|]. split; [unfold LOGSIZE, MAXOPBLOCKS in *; lia|].
    intros b Hb'. eapply jinv_clean; [done..|]. rewrite Hh. apply not_elem_of_nil.
  - assert (3 * BS < 2 ^ 32) by done.
    destruct (writei_ok s {[bmapstart (sb s); B]} a i x src data off n I Hh F Hx Sy G Ho ltac:(lia) ltac:(set_solver) HR Er)
      as (m & j & a' & l' & E & Hm & I' & _ & _ & _ & _ & Hh' & Hc' & _ & HR').
    eexists m, _, a'. split; [exact E|]. split; [done|]. split; [done|]. split.
    + destruct HR' as [_ HR' _]. pose proof (charge_ge ({[bmapstart (sb s); B]} ∪ nz (ind l')) a' ltac:(by eapply jinv_nodup)). unfold LOGSIZE, MAXOPBLOCKS in *. lia.
    + intros b Hb'. eapply jinv_clean; [done..|]. rewrite Hh'. apply not_elem_of_nil.
Qed.

(** C23: [dirlink] of a name the directory does not have gives it the name, with
    the inode number, and keeps every other name; when there is no room for the
    entry it returns -1 and the directory is as before. *)
Theorem dirlink_correct (s : fst_) R a i x name n : jinv (jn s) a → j_held a = [] → fs_wf (sb s) a → inodes s !! i = Some x →
  synced (sb s) (j_view a) x → type x = T_DIR → isize x `mod` 16 = 0 → 0 < n < 2 ^ 16 → IBLOCK (inum x) (sb s) ∈ R →
  room (sb s) (R ∪ nz (ind (addrs x))) a (need (addrs x) 1) → lookup_name (entries_of (j_view a) x) name = None →
  ∃ r j a' x', dirlink i name n s = Ok (r, with_jn j (with_inode i x' s)) ∧ jinv j a' ∧ fs_wf (sb s) a' ∧ synced (sb s) (j_view a') x' ∧
    (∀ k, live (sb s) (j_view a) k → k ≠ inum x → same_file (sb s) (j_view a) (j_view a') k) ∧
    (r = 0 ∧ (∀ nm, lookup_name (entries_of (j_view a') x') nm =
        if bool_decide (name_pad DIRSIZ nm = name_pad DIRSIZ name) then Some n else lookup_name (entries_of (j_view a) x) nm) ∨
     r = -1 ∧ entries_of (j_view a') x' = entries_of (j_view a) x ∧
       (MAXFILE * BS < isize x + 16 ∨ ∀ c, 0 ≤ c < size (sb s) → used_blk (sb s) (j_view a') c = true)).
Proof.
  intros I Hh F Hx Sy HT Hm Hn HB HR Hno. assert (u16 n = n) as Eu by (unfold u16; rewrite Z.mod_small; lia).
  destruct (dirlink_ok s R a i x name n I Hh F Hx Sy HT Hm ltac:(lia) HB HR Hno) as (r & j & a' & x' & E & I' & St & Sy' & _ & _ & _ & _ & _ & _ & _ & _ & _ & HC).
  exists r, j, a', x'. split; [done|]. split; [done|]. split; [|split; [done|split]].
  - destruct St as [->|St]; [done|]. by eapply step_wf.
  - intros k Hk Hne. destruct St as [->|St]; [done|]. by apply (step_same _ _ _ _ F St).
  - destruct HC as [[-> Ee]|HC]; [left|by right]. split; [done|]. intros nm. rewrite Ee, lookup_put_entry by (done || lia). by rewrite Eu.
Qed.

(** [iget] returns the entry of the inode, with one more reference, or takes
    the first free entry for it; when there is neither it panics.  No inode gets
    a second entry. *)
Theorem iget_correct (s : fst_) v n : itlock s = false → table_ok (sb s) v (inodes s) → 0 < n < ninodes (sb s) →
  (∀ i x, inodes s !! i = Some x → ref x < 2 ^ 31 - 2) →
  if bool_decide (Exists (λ x, ref x = 0 ∨ holds x ROOTDEV n = true) (inodes s)) then
    ∃ i x y, inodes s !! i = Some x ∧ iget ROOTDEV n s = Ok (i, with_inode i y s) ∧ table_ok (sb s) v (inodes (with_inode i y s)) ∧
      dev y = ROOTDEV ∧ inum y = n ∧ ref y = ref x + 1 ∧
      (holds x ROOTDEV n = true ∧ core y = core x ∧ valid y = valid x ∨
       ref x = 0 ∧ valid y = false ∧ ∀ j z, inodes s !! j = Some z → holds z ROOTDEV n = false)
  else iget ROOTDEV n s = Panic "iget: no inodes".
Proof.
  intros HL T Hn Hmax. case_bool_decide as Hex.
  - apply list.Exists_exists in Hex as (x0 & [i0 Hx0]%list_elem_of_lookup_1 & Hor).
    destruct (iget_ok s v n HL T Hn Hmax) as (i & x & Hx & Hcase & E & T'); [by exists i0, x0|]. eexists i, x, _. split; [done|]. split; [exact E|]. split; [exact T'|].
    destruct (holds x ROOTDEV n) eqn:Eh.
    + unfold holds in Eh. apply andb_true_iff in Eh as [[H1%Z.ltb_lt H2%Z.eqb_eq]%andb_true_iff H3%Z.eqb_eq]. split_and!; try done. by left.
    + destruct Hcase as [|[Hr Hno]]; [done|]. cbn. split_and!; [done|done|lia|]. right. done.
  - unfold iget. rewrite (bind_Ok _ _ _ _ _ (acquire_it_ok s HL)). set (s1 := mkFs _ _ true _ _). rewrite (bind_Ok (gets inodes) _ s1 (inodes s) s1) by done.
    pose proof (iget_scan_ok ROOTDEV n (inodes s) (Z.to_nat NINODE) 0 None ltac:(rewrite (tb_len _ _ _ T); lia)) as Hscan.
    assert (∀ j x, inodes s !! j = Some x → ref x ≠ 0 ∧ holds x ROOTDEV n ≠ true) as Hno.
    { intros j x Hx. split; intros E; apply Hex, list.Exists_exists; exists x; (split; [by eapply list_elem_of_lookup_2|]); [by left|by right]. }
    destruct (iget_scan _ _ _ _ _ _) as [i|[i|]]; [| |done].
    + destruct Hscan as (_ & x & Hx & Hh). by destruct (Hno i x Hx).
    + destruct Hscan as (_ & _ & (x & Hx & Hr) & _). by destruct (Hno i x Hx).
Qed.

(** C21: [iput] of the last reference to an inode without links frees it and
    every block it had, and no other block; all other files and the inode table
    are intact.  Otherwise it only drops the reference. *)
Theorem iput_correct (s : fst_) R a i x : jinv (jn s) a → j_held a = [] → fs_wf (sb s) a → room (sb s) R a 2 → IBLOCK (inum x) (sb s) ∈ R →
  itlock s = false → table_ok (sb s) (j_view a) (inodes s) → inodes s !! i = Some x → 0 < ref x → ilocked x = false →
  ∃ j a' y, iput i s = Ok (tt, with_jn j (with_inode i y s)) ∧ jinv j a' ∧ fs_wf (sb s) a' ∧ table_ok (sb s) (j_view a') (<[i := y]> (inodes s)) ∧
    ref y = ref x - 1 ∧ (∀ k, live (sb s) (j_view a) k → k ≠ inum x → same_file (sb s) (j_view a) (j_view a') k) ∧
    if (ref x =? 1) && valid x && (nlink x =? 0) then
      ¬ live (sb s) (j_view a') (inum x) ∧
      ∀ c, 0 ≤ c < size (sb s) → (own (sb s) (j_view a) (inum x) c → used_blk (sb s) (j_view a') c = false) ∧
        (¬ own (sb s) (j_view a) (inum x) c → used_blk (sb s) (j_view a') c = used_blk (sb s) (j_view a) c)
    else a' = a.
Proof.
  intros I Hh F HR HB HL T Hx Hr Hlk. destruct ((ref x =? 1) && valid x && (nlink x =? 0)) eqn:Ec.
  - apply andb_true_iff in Ec as [[E1%Z.eqb_eq E2]%andb_true_iff E3%Z.eqb_eq].
    destruct (iput_free s R a i x I Hh F HR HB HL T Hx E1 E2 E3 Hlk) as (j & a' & E & I' & F' & T' & HT & Hs & _ & _ & _ & _ & Hu).
    eexists j, a', _. split; [exact E|]. split; [done|]. split; [done|]. split; [exact T'|]. split; [cbn; lia|]. split; [done|].
    assert (synced (sb s) (j_view a) x) as Sy by (eapply (tb_sync _ _ _ T); done). pose proof (iw_len _ _ _ (no_wf _ _ _ (synced_node _ _ _ F Sy))) as Hl.
    split; [by intros [_ Hne]|]. intros c Hc. rewrite Hu by done. rewrite (own_blocks (sb s) (j_view a) x c Sy Hl).
    split; intros Ho; [by rewrite bool_decide_true|by rewrite bool_decide_false].
  - destruct (iput_drop s (j_view a) i x HL T Hx Hr) as [E T']; [by rewrite Hlk|done|].
    exists (jn s), a, (set_ref (ref x - 1) x). split_and!; try done.
Qed.

(** [ialloc] marks the first free inode of the disk with the type, with no
    blocks and size 0, and returns an entry for it; it returns 0 exactly when no
    inode is free.  No other inode and no file changes. *)
Theorem ialloc_correct (s : fst_) R a t : jinv (jn s) a → j_held a = [] → fs_wf (sb s) a → room (sb s) R a 1 → 1 ≤ ninodes (sb s) →
  0 < t < 2 ^ 15 → itlock s = false → table_ok (sb s) (j_view a) (inodes s) → (∀ i x, inodes s !! i = Some x → ref x < 2 ^ 31 - 2) →
  Exists (λ x, ref x = 0) (inodes s) →
  ∃ r j s', ialloc ROOTDEV t s = Ok (r, s') ∧ jn s' = j ∧
    match r with
    | None => jinv j a ∧ inodes s' = inodes s ∧ ∀ m, 0 < m < ninodes (sb s) → live (sb s) (j_view a) m
    | Some i => ∃ m a' y, 0 < m < ninodes (sb s) ∧ ¬ live (sb s) (j_view a) m ∧ (∀ k, 0 < k < m → live (sb s) (j_view a) k) ∧
        jinv j a' ∧ fs_wf (sb s) a' ∧ core (dn (sb s) (j_view a') m) = core (fresh t) ∧
        table_ok (sb s) (j_view a') (inodes s') ∧ inodes s' !! i = Some y ∧ inum y = m ∧ dev y = ROOTDEV ∧ 0 < ref y ∧
        (∀ k, live (sb s) (j_view a) k → same_file (sb s) (j_view a) (j_view a') k)
    end.
Proof.
  intros I Hh F HR Hni Ht HL T Hmax [z [[k Hz]%list_elem_of_lookup_1 Hr]]%list.Exists_exists.
  destruct (ialloc_ok s R a t I Hh F HR Hni ltac:(lia) HL T Hmax ltac:(by exists k, z)) as [(j & E & I' & Hall)|(m & j & a' & i & y & Hm & HT & Hmin & I' & _ & St & Hc & E & T' & Hi & Hy1 & Hy2 & Hy3)].
  { exists None, j, (with_jn j s). split_and!; try done. intros m Hm. split; [done|]. apply Hall. lia. }
  eexists (Some i), j, _. split; [exact E|]. split; [done|]. exists m, a', y. split_and!; try (done || lia).
  - by intros [_ ?].
  - intros k' Hk. split; [lia|]. apply Hmin. lia.
  - by eapply step_wf.
  - by apply list_lookup_insert_eq.
  - intros k' Hk. apply (step_same _ _ _ _ F St); [done|]. by intros ->; destruct Hk.
Qed.
End props.
End FsProps.
