(* ===== verification/FsSafe.v ===== *)
(** * The file system stays well formed

    Every operation of kernel/fs.c on inodes, run in a state that satisfies the
    invariant and within its documented conditions, returns and leaves a state
    that satisfies the invariant: the disk under the log is a well-formed file
    system and the inode table agrees with it. *)

From S2P Require Import Prelude Bytes BufCache Journal UserMem Fs FsBlocks FsMap FsFile FsWrite FsInode FsState FsOps FsTrunc FsTable FsDir.
Import Bytes Journal UserMem Fs FsBlocks FsMap FsFile FsWrite FsInode FsState FsOps FsTrunc FsTable FsDir.
Import BufCache (block, BSIZE, ROOTDEV, zero_blk, NBUF).

Module FsSafe.

Section safe.
Context {S M : Type} `{JN : Journaled S} `{UM : UserMemory M}.
#[local] Abbreviation fst_ := (@fst_ S M).
Implicit Types (a : jabs) (s : fst_).

(** The invariant between two operations of a process in a transaction. *)
Record fs_inv s a : Prop := {
  fi_log : jinv (jn s) a;
  fi_held : j_held a = [];
  fi_lock : itlock s = false;
  fi_wf : fs_wf (sb s) a;
  fi_table : table_ok (sb s) (j_view a) (inodes s) }.

Inductive op :=
  | Iget (n : Z) | Ilock (i : nat) | Iunlock (i : nat) | Iput (i : nat) | Ialloc (t : Z)
  | Itrunc (i : nat) | Writei (i : nat) (src : place) (data : list Z) (off : Z) | Dirlink (i : nat) (name : list Z) (n : Z).

Definition run (o : op) : prog fst_ unit :=
  match o with
  | Iget n => iget ROOTDEV n;; skip
  | Ilock i => ilock (Some i)
  | Iunlock i => iunlock (Some i)
  | Iput i => iput i
  | Ialloc t => ialloc ROOTDEV t;; skip
  | Itrunc i => itrunc i
  | Writei i src data off => writei i src off (Z.of_nat (length data));; skip
  | Dirlink i name n => dirlink i name n;; skip
  end.

(** The process has locked the inode of entry [i]. *)
Definition has_locked s (i : nat) (x : inode) : Prop :=
  inodes s !! i = Some x ∧ 0 < ref x ∧ ilocked x = true ∧ valid x = true.
Definition room_for s a (x : inode) (n : Z) : Prop := ∃ R, IBLOCK (inum x) (sb s) ∈ R ∧ room (sb s) (R ∪ nz (ind (addrs x))) a n.

Definition enabled s a (o : op) : Prop :=
  match o with
  | Iget n => 0 < n < ninodes (sb s) ∧ (∀ i x, inodes s !! i = Some x → ref x < 2 ^ 31 - 2) ∧
      ∃ i x, inodes s !! i = Some x ∧ (ref x = 0 ∨ holds x ROOTDEV n = true)
  | Ilock i => j_room a ∧ ∃ x, inodes s !! i = Some x ∧ 0 < ref x ∧ ilocked x = false ∧ live (sb s) (j_view a) (inum x)
  | Iunlock i => ∃ x, has_locked s i x
  | Iput i => ∃ x, inodes s !! i = Some x ∧ 0 < ref x ∧ ilocked x = false ∧ room_for s a x 2
  | Ialloc t => 0 < t < 2 ^ 15 ∧ 1 ≤ ninodes (sb s) ∧ (∀ i x, inodes s !! i = Some x → ref x < 2 ^ 31 - 2) ∧
      (∃ i x, inodes s !! i = Some x ∧ ref x = 0) ∧ ∃ R, room (sb s) R a 1
  | Itrunc i => ∃ x, has_locked s i x ∧ room_for s a x 2
  | Writei i src data off => ∃ x, has_locked s i x ∧ gives src data (um s) ∧ 0 ≤ off < 2 ^ 32 ∧ Z.of_nat (length data) < 2 ^ 32 ∧
      room_for s a x (need (addrs x) (span off (Z.of_nat (length data))))
  | Dirlink i name n => ∃ x, has_locked s i x ∧ type x = T_DIR ∧ isize x `mod` 16 = 0 ∧ 0 < n < 2 ^ 16 ∧
      lookup_name (entries_of (j_view a) x) name = None ∧ room_for s a x (need (addrs x) 1)
  end.

(** The file the operation may change. *)
Definition target s (o : op) (k : Z) : Prop :=
  match o with
  | Itrunc i | Writei i _ _ _ | Dirlink i _ _ | Iput i => ∃ x, inodes s !! i = Some x ∧ inum x = k
  | _ => False
  end.

(** The entry of the file that changed. *)
Lemma table_change sb a a' l i x y : file_step sb a a' (inum x) → table_ok sb (j_view a) l → l !! i = Some x → 0 < ref x →
  dev y = dev x → inum y = inum x → ref y = ref x → ilocked y = ilocked x → synced sb (j_view a') y → table_ok sb (j_view a') (<[i := y]> l).
Proof.
  intros St T Hx Hr Ed En Er El Sy. pose proof (tb_dev _ _ _ T i x Hx Hr) as [Hd Hn]. pose proof (tb_ref _ _ _ T i x Hx) as Hr2.
  assert (table_ok sb (j_view a) (<[i := set_valid false x]> l)) as T1.
  { apply (table_update _ _ _ i x); try done; cbn; try lia; try done. intros _ j z Hz Hj. by eapply table_other. }
  assert (<[i := set_valid false x]> l !! i = Some (set_valid false x)) as Hx1 by (apply list_lookup_insert_eq; by eapply lookup_lt_Some).
  assert (table_ok sb (j_view a') (<[i := set_valid false x]> l)) as T2.
  { eapply table_step; [done|done|]. intros j z Hz Hz0 Hv Ez. exfalso.
    assert (j = i) as -> by (eapply (tb_one _ _ _ T1 j i z (set_valid false x)); try done; cbn; rewrite Hd; by eapply (tb_dev _ _ _ T1)).
    rewrite Hx1 in Hz. injection Hz as <-. done. }
  rewrite <- (list_insert_insert_eq l i y (set_valid false x)). apply (table_update _ _ _ i (set_valid false x)); try done; try lia.
  intros _ j z Hz Hj. rewrite Ed, En. by eapply (table_other _ _ _ i (set_valid false x)).
Qed.

Lemma room_for_base s a x n : room_for s a x n → ∃ R, IBLOCK (inum x) (sb s) ∈ R ∧ room (sb s) R a n.
Proof. intros (R & HB & HR). exists (R ∪ nz (ind (addrs x))). split; [set_solver|done]. Qed.

Lemma locked_synced s a i x : fs_inv s a → has_locked s i x → synced (sb s) (j_view a) x.
Proof. intros [_ _ _ _ T] (Hx & Hr & _ & Hv). by eapply (tb_sync _ _ _ T). Qed.

(** The lock of an inode is given up. *)
Lemma iunlock_ok s v i x : table_ok (sb s) v (inodes s) → has_locked s i x →
  iunlock (Some i) s = Ok (tt, with_inode i (set_ilocked false x) s) ∧ table_ok (sb s) v (<[i := set_ilocked false x]> (inodes s)).
Proof.
  intros T (Hx & Hr & Hlk & Hv). split.
  - unfold iunlock. rewrite (bind_Ok _ _ _ _ _ (get_inode_ok s i x Hx)), Hlk. rewrite (proj2 (Z.ltb_ge (ref x) 1)) by lia. cbn [negb orb].
    unfold releasesleep. by apply mod_inode_ok.
  - apply (table_update _ _ _ i x); try done; cbn; [by eapply (tb_ref _ _ _ T)|intros _; by eapply (tb_dev _ _ _ T)| |intros _ k w Hw Hk; by eapply table_other].
    intros _ _. by destruct (tb_sync _ _ _ T i x Hx Hr Hv).
Qed.

(** What holds of an operation that is safe. *)
Definition safe s a (o : op) : Prop :=
  ∃ s' a', run o s = Ok (tt, s') ∧ fs_inv s' a' ∧ sb s' = sb s ∧
    ∀ k, live (sb s) (j_view a) k → ¬ target s o k → same_file (sb s) (j_view a) (j_view a') k.

(** An operation that only works on the inode table. *)
Lemma safe_table s a o j i y : fs_inv s a → run o s = Ok (tt, with_jn j (with_inode i y s)) → jinv j a →
  table_ok (sb s) (j_view a) (<[i := y]> (inodes s)) → safe s a o.
Proof.
  intros [_ Hh HL F T] E I T'. eexists _, a. split; [exact E|]. split; [by constructor|]. split; [done|]. intros k _ _. apply same_file_refl.
Qed.
(** An operation on a file that the process has locked. *)
Lemma safe_file s a o j i x y a' : fs_inv s a → has_locked s i x → run o s = Ok (tt, with_jn j (with_inode i y s)) → target s o (inum x) →
  jinv j a' → j_held a' = [] → file_step (sb s) a a' (inum x) →
  dev y = dev x → inum y = inum x → ref y = ref x → ilocked y = ilocked x → synced (sb s) (j_view a') y → safe s a o.
Proof.
  intros [I Hh HL F T] (Hx & Hr & _ & _) E Ht I' Hh' St E1 E2 E3 E4 Sy. eexists _, a'. split; [exact E|]. split; [|split; [done|]].
  - constructor; try done; [by eapply step_wf|]. by eapply (table_change (sb s) a a' (inodes s) i x y).
  - intros k Hk Hne. apply (step_same _ _ _ _ F St); [done|]. by intros ->.
Qed.

Lemma safe_iput s a i : fs_inv s a → enabled s a (Iput i) → safe s a (Iput i).
Proof.
  intros V (x & Hx & Hr & Hlk & (R & HB & HR)%room_for_base). pose proof V as [I Hh HL F T].
  destruct ((ref x =? 1) && valid x && (nlink x =? 0)) eqn:Ec.
  - apply andb_true_iff in Ec as [[E1%Z.eqb_eq E2]%andb_true_iff E3%Z.eqb_eq].
    destruct (iput_free s R a i x I Hh F HR HB HL T Hx E1 E2 E3 Hlk) as (j & a' & E & I' & F' & T' & _ & Hs & Hh' & _).
    eexists _, a'. split; [exact E|]. split; [by constructor|]. split; [done|]. intros k Hk Hne. apply Hs; [done|]. intros ->. by apply Hne; exists x.
  - destruct (iput_drop s (j_view a) i x HL T Hx Hr) as [E T']; [by rewrite Hlk|done|]. by eapply (safe_table s a (Iput i) (jn s) i (set_ref (ref x - 1) x)).
Qed.
Lemma safe_ialloc s a t : fs_inv s a → enabled s a (Ialloc t) → safe s a (Ialloc t).
Proof.
  intros V (Ht & Hni & Hmax & Hex & R & HR). pose proof V as [I Hh HL F T].
  destruct (ialloc_ok s R a t I Hh F HR Hni ltac:(lia) HL T Hmax Hex) as [(j & E & I' & _)|(m & j & a' & i & y & _ & HT & _ & I' & Hh' & St & _ & E & T' & _)];
    pose proof (bind_Ok _ (λ _, skip) _ _ _ E) as E2.
  - eexists _, a. split; [exact E2|]. split; [by constructor|]. split; [done|]. intros. apply same_file_refl.
  - eexists _, a'. split; [exact E2|]. split; [constructor; try done; by eapply step_wf|]. split; [done|].
    intros k Hk _. apply (step_same _ _ _ _ F St); [done|]. by intros ->; destruct Hk.
Qed.
Lemma safe_writei s a i src data off : fs_inv s a → enabled s a (Writei i src data off) → safe s a (Writei i src data off).
Proof.
  intros V (x & Hl & G & Ho & Hn & R & HB & HR). pose proof V as [I Hh HL F T]. pose proof (locked_synced _ _ _ _ V Hl) as Sy. pose proof (proj1 Hl) as Hx.
  destruct (refused x off (Z.of_nat (length data))) eqn:Er.
  - pose proof (bind_Ok _ (λ _, skip) _ _ _ (writei_refused s i x src off _ Hx Er)) as E. exists s, a. split; [exact E|]. split; [done|]. split; [done|]. intros. apply same_file_refl.
  - destruct (writei_ok s R a i x src data off _ I Hh F Hx Sy (gives_supplies _ _ off _ G) Ho ltac:(lia) HB HR Er) as (m & j & a' & l' & E & _ & I' & St & Sy' & _ & _ & Hh' & _).
    apply (safe_file s a _ j i x (extended x l' (off + m)) a'); try done; [|by exists x]. exact (bind_Ok _ (λ _, skip) _ _ _ E).
Qed.
Lemma safe_dirlink s a i name n : fs_inv s a → enabled s a (Dirlink i name n) → safe s a (Dirlink i name n).
Proof.
  intros V (x & Hl & HT & Hm & Hn & Hno & R & HB & HR). pose proof V as [I Hh HL F T]. pose proof (locked_synced _ _ _ _ V Hl) as Sy. pose proof (proj1 Hl) as Hx.
  assert (u16 n ≠ 0) as Hu by (unfold u16; rewrite Z.mod_small; lia).
  destruct (dirlink_ok s R a i x name n I Hh F Hx Sy HT Hm Hu HB HR Hno) as (r & j & a' & x' & E & I' & St & Sy' & H1 & H2 & H3 & H4 & _ & _ & Hh' & _).
  pose proof (bind_Ok _ (λ _, skip) _ _ _ E) as E2. destruct St as [->|St].
  - eapply (safe_table s a _ j i x'); try done. destruct Hl as (_ & Hr & Hlk & Hv). apply (table_update _ _ _ i x); try done.
    + rewrite H2. by eapply (tb_ref _ _ _ T).
    + intros _. rewrite H1, (sy_dev _ _ _ Sy'). split; [done|]. by destruct (tb_dev _ _ _ T i x Hx Hr).
    + by rewrite H2, H3.
    + intros _ k w Hw Hk. rewrite H1, (sy_dev _ _ _ Sy'), <- (sy_dev _ _ _ Sy). by eapply table_other.
  - apply (safe_file s a _ j i x x' a'); try done; [by exists x|]. by rewrite (sy_dev _ _ _ Sy'), (sy_dev _ _ _ Sy).
Qed.

(** C10: in a state that satisfies the invariant, every operation on inodes that
    is enabled (the process has the references and locks the operation needs,
    and its transaction has room) returns, without a panic, in a state that
    satisfies the invariant; no file but the one it works on changes. *)
Theorem fs_op_safe s a o : fs_inv s a → enabled s a o →
  ∃ s' a', run o s = Ok (tt, s') ∧ fs_inv s' a' ∧ sb s' = sb s ∧
    ∀ k, live (sb s) (j_view a) k → ¬ target s o k → same_file (sb s) (j_view a) (j_view a') k.
Proof.
  intros V En. change (safe s a o). pose proof V as [I Hh HL F T].
  destruct o as [n|i|i|i|t|i|i src data off|i name n]; [| | |by apply safe_iput|by apply safe_ialloc| |by apply safe_writei|by apply safe_dirlink]; cbn [enabled] in En.
  - destruct En as (Hn & Hmax & Hex). destruct (iget_ok s (j_view a) n HL T Hn Hmax Hex) as (i & x & Hx & _ & E & T').
    eapply (safe_table s a _ (jn s) i); [done|exact (bind_Ok _ (λ _, skip) _ _ _ E)|done|exact T'].
  - destruct En as (Hjr & x & Hx & Hr & Hlk & Hlv). destruct (ilock_ok s a i x I Hh Hjr T Hx Hr Hlk Hlv) as (j & E & Ij & _ & T').
    by eapply (safe_table s a _ j i).
  - destruct En as (x & Hl). destruct (iunlock_ok s (j_view a) i x T Hl) as [E T']. by eapply (safe_table s a (Iunlock i) (jn s) i (set_ilocked false x)).
  - destruct En as (x & Hl & (R & HB & HR)%room_for_base). pose proof (locked_synced _ _ _ _ V Hl) as Sy.
    destruct (itrunc_ok s R a i x I Hh F HR HB (proj1 Hl) Sy) as (j & a' & E & I' & St & Sy' & Hh' & _).
    apply (safe_file s a _ j i x (truncated x) a'); try done. exists x. by destruct Hl.
Qed.
End safe.
End FsSafe.
