(* ===== verification/FsRest.v ===== *)
(** * The file system between operations

    After [end_op] the disk has what the operation left, in every block outside
    the log; the file system on it is the same. *)

From S2P Require Import Prelude Bytes BufCache Journal Log UserMem Fs FsBlocks FsMap FsFile FsWrite FsInode FsState FsOps FsTrunc FsTable FsDir FsSafe.
Import Bytes Journal Txn UserMem Fs FsBlocks FsMap FsFile FsWrite FsInode FsState FsOps FsTrunc FsTable FsDir FsSafe.
Import BufCache (block, BSIZE, ROOTDEV, zero_blk, NBUF).
Import Log (MAXOPBLOCKS, LOGSIZE).

Module FsRest.

(** The contents [w] agree with those of [a] outside the log. *)
Section agree.
Context (sb : superblock) (a a' : jabs) (F : fs_wf sb a).
Context (Hlog : j_log a' = j_log a) (Hag : ∀ n, ¬ j_log a n → j_view a' n = j_view a n).

Lemma agree_used c : 0 ≤ c < size sb → used_blk sb (j_view a') c = used_blk sb (j_view a) c.
Proof. intros Hc. unfold used_blk. rewrite Hag; [done|]. by apply (ly_bmap _ _ (fw_layout _ _ F)). Qed.
Lemma agree_dn n : 0 ≤ n < ninodes sb → dn sb (j_view a') n = dn sb (j_view a) n.
Proof. intros Hn. unfold dn. rewrite Hag; [done|]. apply (fw_iblock _ _ F n Hn). Qed.
Lemma agree_live n : live sb (j_view a') n ↔ live sb (j_view a) n.
Proof. unfold live. split; intros [Hn HT]; (split; [done|]); [rewrite <- agree_dn by lia|rewrite agree_dn by lia]; done. Qed.
Lemma agree_same n : live sb (j_view a) n → same_file sb (j_view a) (j_view a') n.
Proof.
  intros HL. pose proof (fw_node _ _ F n HL) as N. apply same_file_intro; [done|apply agree_dn; destruct HL; lia|].
  intros t Ht Hp. apply Hag. by apply (iw_range _ _ _ (no_wf _ _ _ N) t Ht).
Qed.
Lemma agree_wf : fs_wf sb a'.
Proof.
  pose proof F as [FL F0 F1 F2 F3 F4 F5 F6]. pose proof FL as [L1 L2 L3 L4 L5]. constructor; try done.
  - constructor; try done; rewrite Hlog; [done|]. intros b Hb. rewrite agree_used by done. by apply L5.
  - rewrite agree_used by lia. done.
  - intros n Hn. destruct (F4 n Hn) as [Hf Hne]. split; [|done]. eapply fixed_frame; [done|done|]. intros c Hc. by rewrite agree_used.
  - intros n HL%agree_live. rewrite agree_dn by (destruct HL; lia). eapply node_ok_frame; [by apply F5|done|intros c Hc; by rewrite agree_used|].
    intros Hi. apply Hag. apply (iw_range _ _ _ (no_wf _ _ _ (F5 n HL)) MAXFILE); [fs_lia|done].
  - intros n m t u HL1%agree_live HL2%agree_live Hne Ht Hu. rewrite (sf_ptr _ _ _ _ (agree_same n HL1) t Ht), (sf_ptr _ _ _ _ (agree_same m HL2) u Hu). by apply F6.
Qed.
Lemma agree_synced x : synced sb (j_view a) x → synced sb (j_view a') x.
Proof. intros [S1 S2 S3]. constructor; [done|by apply agree_live|]. rewrite agree_dn by (destruct S2; lia). done. Qed.
Lemma agree_table l : table_ok sb (j_view a) l → table_ok sb (j_view a') l.
Proof. intros [T1 T2 T3 T4 T5 T6]. constructor; try done. intros i x Hx Hr Hv. apply agree_synced. by eapply T4. Qed.
End agree.

Section rest.
Context {S M : Type} `{TX : Transactions S} `{UM : UserMemory M}.
#[local] Abbreviation fst_ := (@fst_ S M).
Implicit Types (a : jabs) (s : fst_).

(** No operation is in progress. *)
Record at_rest s (v : Z → block) (L : Z → Prop) : Prop := {
  ar_idle : jidle (jn s) v L;
  ar_lock : itlock s = false;
  ar_wf : fs_wf (sb s) (fresh_op v L);
  ar_table : table_ok (sb s) v (inodes s) }.

Lemma begin_rest s v L : at_rest s v L → ∃ j, on_log begin_op s = Ok (tt, with_jn j s) ∧ fs_inv (with_jn j s) (fresh_op v L).
Proof.
  intros [I HL F T]. destruct (begin_op_ok (jn s) v L I) as (j & E & Ij). exists j. split; [unfold on_log; by rewrite E|]. by constructor.
Qed.
Lemma end_rest s a : fs_inv s a → j_cap a = LOGSIZE - 1 → Z.of_nat (length (j_dirty a)) ≤ LOGSIZE - 1 →
  ∃ j v, on_log end_op s = Ok (tt, with_jn j s) ∧ at_rest (with_jn j s) v (j_log a) ∧
    (∀ k, live (sb s) (j_view a) k → same_file (sb s) (j_view a) v k) ∧ (∀ k, live (sb s) v k ↔ live (sb s) (j_view a) k) ∧
    (∀ c, 0 ≤ c < size (sb s) → used_blk (sb s) v c = used_blk (sb s) (j_view a) c).
Proof.
  intros [I Hh HL F T] Hc Hd. destruct (end_op_ok (jn s) a I Hh Hc Hd) as (j & v & E & Ij & Hag).
  exists j, v. split; [unfold on_log; by rewrite E|]. split; [|split; [|split]].
  - constructor; try done; [by apply (agree_wf (sb s) a (fresh_op v (j_log a)))|by apply (agree_table (sb s) a (fresh_op v (j_log a)))].
  - intros k Hk. by apply (agree_same (sb s) a (fresh_op v (j_log a))).
  - intros k. by apply (agree_live (sb s) a (fresh_op v (j_log a))).
  - intros c Hc'. by apply (agree_used (sb s) a (fresh_op v (j_log a))).
Qed.

(** A process that reads outside of an operation. *)
Lemma read_rest s v L : at_rest s v L → fs_inv s (reader v L).
Proof.
  intros [I HL F T]. constructor; try done; [by apply read_idle|]. by apply (agree_wf (sb s) (fresh_op v L) (reader v L)).
Qed.
Lemma rest_read s v L : fs_inv s (reader v L) → at_rest s v L.
Proof.
  intros [I _ HL F T]. constructor; try done; [by apply idle_read|]. by apply (agree_wf (sb s) (reader v L) (fresh_op v L)).
Qed.
End rest.
End FsRest.
