(* ===== verification/File.v ===== *)
(** * Open files (kernel/file.c)

    The table of open files over the file system.  Pipes and devices are reached
    through the operations of [Streams], which work on the user memory and on a
    state of their own.  The sleep and spin locks are flags, as in [Fs]. *)

From S2P Require Import Prelude Bytes BufCache Log Journal UserMem Fs.
Import Bytes Txn UserMem Fs.
Import BufCache (BSIZE).
Import Log (MAXOPBLOCKS).

Module File.

Definition NFILE : Z := 100.
Definition NDEV : Z := 10.

Inductive fd_type := FD_NONE | FD_PIPE | FD_INODE | FD_DEVICE.
#[export] Instance fd_type_eq_dec : EqDecision fd_type.
Proof. solve_decision. Defined.

(** [struct file]; [pipe] and [ip] are the pointers, 0 is [None]. *)
Record file := mkFile {
  ftype : fd_type;
  fref : Z;
  readable : Z;
  writable : Z;
  pipe : option nat;
  ip : option nat;
  off : Z;
  fmajor : Z }.

Definition set_fref v f := mkFile (ftype f) v (readable f) (writable f) (pipe f) (ip f) (off f) (fmajor f).
Definition set_ftype v f := mkFile v (fref f) (readable f) (writable f) (pipe f) (ip f) (off f) (fmajor f).
Definition set_off v f := mkFile (ftype f) (fref f) (readable f) (writable f) (pipe f) (ip f) v (fmajor f).

(** The functions of kernel/pipe.c that the files call and the table [devsw] of
    the drivers; a driver without the function has a 0 there. *)
Class Streams (M P : Type) := {
  pipeclose : nat → Z → prog P unit;
  piperead : nat → Z → Z → prog (M * P) Z;
  pipewrite : nat → Z → Z → prog (M * P) Z;
  dev_read : Z → option (Z → Z → Z → prog (M * P) Z);
  dev_write : Z → option (Z → Z → Z → prog (M * P) Z) }.

(** The bytes of a [struct stat]; four bytes between [nlink] and [size] belong to
    no field, and have what was on the stack. *)
Definition stat_bytes (garbage : list Z) (t : stat) : list Z :=
  le_enc 4 (u32 (st_dev t)) ++ le_enc 4 (st_ino t) ++ le_enc 2 (u16 (st_type t)) ++ le_enc 2 (u16 (st_nlink t)) ++ take 4 garbage ++ le_enc 8 (st_size t).

Section files.
Context {S M P : Type} `{TX : Transactions S} `{UM : UserMemory M} `{ST : Streams M P}.
#[local] Abbreviation fst_ := (@fst_ S M).

Record st := mkSt {
  fsys : fst_;
  files : list file;
  ftlock : bool;
  streams : P }.

Definition with_fs (x : fst_) (s : st) : st := mkSt x (files s) (ftlock s) (streams s).
Definition with_files (l : list file) (s : st) : st := mkSt (fsys s) l (ftlock s) (streams s).
Definition with_file (f : nat) (x : file) (s : st) : st := with_files (<[f := x]> (files s)) s.

Definition on_fs {A} (m : prog fst_ A) : prog st A := λ s,
  match m (fsys s) with
  | Ok (a, x) => Ok (a, with_fs x s)
  | Panic e => Panic e | Fault => Fault | Spin => Spin
  end.
Definition on_streams {A} (m : prog (M * P) A) : prog st A := λ s,
  match m (um (fsys s), streams s) with
  | Ok (a, (u, p)) =>
      let x := fsys s in Ok (a, mkSt (mkFs (sb x) (inodes x) (itlock x) (jn x) u) (files s) (ftlock s) p)
  | Panic e => Panic e | Fault => Fault | Spin => Spin
  end.
Definition on_pipes {A} (m : prog P A) : prog st A := λ s,
  match m (streams s) with
  | Ok (a, p) => Ok (a, mkSt (fsys s) (files s) (ftlock s) p)
  | Panic e => Panic e | Fault => Fault | Spin => Spin
  end.
Definition begin_op : prog st unit := on_fs (on_log Txn.begin_op).
Definition end_op : prog st unit := on_fs (on_log Txn.end_op).

Definition get_file (f : nat) : prog st file := λ s,
  match files s !! f with Some x => Ok (x, s) | None => Fault end.
Definition mod_file (f : nat) (g : file → file) : prog st unit := λ s,
  match files s !! f with Some x => Ok (tt, with_file f (g x) s) | None => Fault end.
Definition acquire_ft : prog st unit := λ s,
  if ftlock s then Panic "acquire" else Ok (tt, mkSt (fsys s) (files s) true (streams s)).
Definition release_ft : prog st unit := λ s,
  if ftlock s then Ok (tt, mkSt (fsys s) (files s) false (streams s)) else Panic "release".
(** A pointer that is followed. *)
Definition deref (p : option nat) : prog st nat := match p with Some i => mret i | None => fault end.

(** [fileinit]. *)
Definition fileinit : prog st unit := modify (λ s, mkSt (fsys s) (files s) false (streams s)).

(** The search of [filealloc]: the first entry without references. *)
Fixpoint free_file (f : nat) (l : list file) : option nat :=
  match l with
  | [] => None
  | x :: l' => if fref x =? 0 then Some f else free_file (Datatypes.S f) l'
  end.
Definition filealloc : prog st (option nat) :=
  acquire_ft;;
  l ← gets files;
  match free_file 0 l with
  | Some f => mod_file f (set_fref 1);; release_ft;; mret (Some f)
  | None => release_ft;; mret None
  end.

Definition filedup (f : nat) : prog st nat :=
  acquire_ft;;
  x ← get_file f;
  if fref x <? 1 then panic "filedup"
  else
    mod_file f (set_fref (i32 (fref x + 1)));;
    release_ft;;
    mret f.

Definition fileclose (f : nat) : prog st unit :=
  acquire_ft;;
  x ← get_file f;
  if fref x <? 1 then panic "fileclose"
  else
    mod_file f (set_fref (fref x - 1));;
    if 0 <? fref x - 1 then release_ft
    else
      ff ← get_file f;
      mod_file f (set_fref 0);;
      mod_file f (set_ftype FD_NONE);;
      release_ft;;
      match ftype ff with
      | FD_PIPE => p ← deref (pipe ff); on_pipes (pipeclose p (writable ff))
      | FD_INODE | FD_DEVICE => i ← deref (ip ff); begin_op;; on_fs (iput i);; end_op
      | FD_NONE => skip
      end.

Definition filestat (garbage : list Z) (f : nat) (addr : Z) : prog st Z :=
  x ← get_file f;
  match ftype x with
  | FD_INODE | FD_DEVICE =>
      on_fs (ilock (ip x));;
      i ← deref (ip x);
      t ← on_fs (stati i);
      on_fs (iunlock (ip x));;
      r ← on_fs (on_user (copyout addr (stat_bytes garbage t)));
      mret (if r <? 0 then -1 else 0)
  | _ => mret (-1)
  end.

Definition fileread (f : nat) (addr n : Z) : prog st Z :=
  x ← get_file f;
  if readable x =? 0 then mret (-1)
  else
    match ftype x with
    | FD_PIPE => p ← deref (pipe x); on_streams (piperead p addr n)
    | FD_DEVICE =>
        if (fmajor x <? 0) || (NDEV <=? fmajor x) then mret (-1)
        else match dev_read (fmajor x) with Some rd => on_streams (rd 1 addr n) | None => mret (-1) end
    | FD_INODE =>
        on_fs (ilock (ip x));;
        i ← deref (ip x);
        r ← on_fs (readi i (User addr) (off x) (u32 n));
        (if 0 <? fst r then mod_file f (λ x, set_off (u32 (off x + fst r)) x) else skip);;
        on_fs (iunlock (ip x));;
        mret (fst r)
    | FD_NONE => panic "fileread"
    end.

Definition max_write : Z := (MAXOPBLOCKS - 1 - 1 - 2) / 2 * Z.of_nat BSIZE.

(** The loop of [filewrite] over [i]; the result is the last [i]. *)
Fixpoint filewrite_loop (fuel : nat) (f : nat) (addr n i : Z) : prog st Z :=
  if i <? n then
    match fuel with
    | O => spin
    | Datatypes.S fuel' =>
        let n1 := if max_write <? n - i then max_write else n - i in
        begin_op;;
        x ← get_file f;
        on_fs (ilock (ip x));;
        k ← deref (ip x);
        r ← on_fs (writei k (User (u64 (addr + i))) (off x) (u32 n1));
        (if 0 <? r then mod_file f (λ x, set_off (u32 (off x + r)) x) else skip);;
        on_fs (iunlock (ip x));;
        end_op;;
        if negb (r =? n1) then mret i
        else filewrite_loop fuel' f addr n (i + r)
    end
  else mret i.

Definition filewrite (f : nat) (addr n : Z) : prog st Z :=
  x ← get_file f;
  if writable x =? 0 then mret (-1)
  else
    match ftype x with
    | FD_PIPE => p ← deref (pipe x); on_streams (pipewrite p addr n)
    | FD_DEVICE =>
        if (fmajor x <? 0) || (NDEV <=? fmajor x) then mret (-1)
        else match dev_write (fmajor x) with Some wr => on_streams (wr 1 addr n) | None => mret (-1) end
    | FD_INODE =>
        i ← filewrite_loop (Z.to_nat n) f addr n 0;
        mret (if i =? n then n else -1)
    | FD_NONE => panic "filewrite"
    end.
End files.
End File.
