(* ===== verification/FileProofs.v ===== *)
(** * Open files over the file system

    What the functions of kernel/file.c do to files on disk: the table of open
    files counts references, [fileread] and [filewrite] move the offset over the
    bytes of the file, and every chunk of a write is one transaction. *)

From S2P Require Import Prelude Bytes BufCache Journal Log UserMem Fs FsBlocks FsMap FsFile FsWrite FsInode FsState FsOps FsTrunc FsTable FsDir FsProps FsSafe FsRest File.
Import Bytes Journal Txn UserMem Fs FsBlocks FsMap FsFile FsWrite FsInode FsState FsOps FsTrunc FsTable FsDir FsProps FsSafe FsRest.
Import File.
Import BufCache (block, BSIZE, ROOTDEV, zero_blk, NBUF).
Import Log (MAXOPBLOCKS, LOGSIZE).

Module FileProofs.

Section proofs.
Context {S M P : Type} `{TX : Transactions S} `{UM : UserMemory M} `{ST : Streams M P}.
#[local] Abbreviation fst_ := (@fst_ S M).
#[local] Abbreviation st := (@st S M P).
Implicit Types (s : st) (a : jabs).

Lemma on_fs_Ok {A} (m : prog fst_ A) s r y : m (fsys s) = Ok (r, y) → on_fs m s = Ok (r, with_fs y s).
Proof. intros E. unfold on_fs. by rewrite E. Qed.
Lemma get_file_Ok s f x : files s !! f = Some x → get_file f s = Ok (x, s).
Proof. intros E. unfold get_file. by rewrite E. Qed.
Lemma mod_file_Ok s f g x : files s !! f = Some x → mod_file f g s = Ok (tt, with_file f (g x) s).
Proof. intros E. unfold mod_file. by rewrite E. Qed.

(** ** The table of open files *)

Lemma free_file_ok l : ∀ k, match free_file k l with
  | Some f => ∃ i x, f = (k + i)%nat ∧ l !! i = Some x ∧ fref x = 0 ∧ ∀ j y, (j < i)%nat → l !! j = Some y → fref y ≠ 0
  | None => ∀ j y, l !! j = Some y → fref y ≠ 0
  end.
Proof.
  induction l as [|x l IH]; intros k; cbn [free_file]; [done|]. destruct (Z.eqb_spec (fref x) 0) as [E|E].
  - exists 0%nat, x. split; [lia|]. split_and!; [done..|]. intros; lia.
  - specialize (IH (Datatypes.S k)). destruct (free_file _ _) as [f|].
    + destruct IH as (i & y & -> & Hy & Hr & Hmin). exists (Datatypes.S i), y. split; [lia|]. split_and!; [done..|].
      intros [|j] z Hj Hz; [by injection Hz as <-|]. eapply (Hmin j); [lia|done].
    + intros [|j] z Hz; [by injection Hz as <-|]. by eapply (IH j).
Qed.

Definition set_ftlock (b : bool) s : st := mkSt (fsys s) (files s) b (streams s).

(** [filealloc] returns the first entry of the table of open files without a
    reference, with one reference, and 0 exactly when every entry has one.  No
    other entry changes. *)
Theorem filealloc_correct s : ftlock s = false →
  match filealloc s with
  | Ok (Some f, s') => ∃ x, files s !! f = Some x ∧ fref x = 0 ∧ (∀ j y, (j < f)%nat → files s !! j = Some y → fref y ≠ 0) ∧
      s' = with_file f (set_fref 1 x) s
  | Ok (None, s') => s' = s ∧ Forall (λ x, fref x ≠ 0) (files s)
  | _ => False
  end.
Proof.
  intros HL. unfold filealloc. rewrite (bind_Ok _ _ _ tt (set_ftlock true s)) by (unfold acquire_ft; by rewrite HL).
  rewrite (bind_Ok (gets files) _ (set_ftlock true s) (files s) (set_ftlock true s)) by done.
  pose proof (free_file_ok (files s) 0) as H. destruct (free_file 0 (files s)) as [f|].
  - destruct H as (i & x & -> & Hx & Hr & Hmin). cbn [Nat.add] in *. rewrite (bind_Ok _ _ _ _ _ (mod_file_Ok (set_ftlock true s) i _ x Hx)).
    rewrite (bind_Ok _ _ _ tt (with_file i (set_fref 1 x) s)) by (destruct s; cbn in *; by subst). cbn. exists x. split_and!; try done.
  - rewrite (bind_Ok _ _ _ tt s) by (destruct s; cbn in *; by subst). cbn. split; [done|]. apply Forall_lookup_2, H.
Qed.

(** ** Writing *)

(** The file [n] of [v] in which [m] bytes of [data] are written at [off]. *)
Record written (sb : superblock) (v w : Z → block) (n off : Z) (data : list Z) (m : Z) : Prop := {
  wn_len : 0 ≤ m ≤ Z.of_nat (length data);
  wn_live k : live sb w k ↔ live sb v k;
  wn_other k : live sb v k → k ≠ n → same_file sb v w k;
  wn_byte o : 0 ≤ o < MAXFILE * BS → fbyte sb w n o = overlay (fbyte sb v n) off (take (Z.to_nat m) data) o;
  wn_size : isize (dn sb w n) = if m =? 0 then isize (dn sb v n) else Z.max (isize (dn sb v n)) (off + m);
  wn_start : 0 < m → off ≤ isize (dn sb v n) ∧ off + m ≤ MAXFILE * BS }.
(** Why a write is short. *)
Definition no_room (sb : superblock) (v w : Z → block) (n off len : Z) : Prop :=
  isize (dn sb v n) < off ∨ MAXFILE * BS < off + len ∨ ∀ c, 0 ≤ c < size sb → used_blk sb w c = true.

Lemma written_none sb v n off data : written sb v v n off data 0.
Proof. constructor; try done; try lia. intros o _. by rewrite overlay_nil. Qed.
Lemma written_same sb v w w' n off data m : live sb v n → written sb v w n off data m → (∀ k, live sb w' k ↔ live sb w k) → (∀ k, live sb w k → same_file sb w w' k) →
  written sb v w' n off data m.
Proof.
  intros HL [W1 W2 W3 W4 W5 W6] Hl Hs. pose proof (Hs n (proj2 (W2 n) HL)) as Hn. constructor; try done.
  - intros k. by rewrite Hl.
  - intros k Hk Hne. eapply same_file_trans; [by apply W3|]. apply Hs. by apply W2.
  - intros o Ho. rewrite (sf_byte _ _ _ _ Hn o Ho). by apply W4.
  - by rewrite (sf_node _ _ _ _ Hn).
Qed.
Lemma written_app sb v w u n off d1 d2 m : off + Z.of_nat (length d1) < 2 ^ 32 →
  written sb v w n off d1 (Z.of_nat (length d1)) → written sb w u n (off + Z.of_nat (length d1)) d2 m →
  written sb v u n off (d1 ++ d2) (Z.of_nat (length d1) + m).
Proof.
  intros Hs [A1 A2 A3 A4 A5 A6] [B1 B2 B3 B4 B5 B6]. constructor.
  - rewrite length_app. lia.
  - intros k. by rewrite B2, A2.
  - intros k Hk Hne. eapply same_file_trans; [by apply A3|]. apply B3; [by apply A2|done].
  - intros o Ho. rewrite B4 by done. etrans; [apply overlay_ext, A4, Ho|]. rewrite Nat2Z.id, firstn_all.
    rewrite overlay_app. replace (Z.to_nat (Z.of_nat (length d1) + m)) with (length d1 + Z.to_nat m)%nat by lia. by rewrite take_app_add.
  - rewrite B5, A5. destruct (Z.eqb_spec m 0), (Z.eqb_spec (Z.of_nat (length d1)) 0), (Z.eqb_spec (Z.of_nat (length d1) + m) 0); lia.
  - intros Hm. destruct (decide (0 < m)) as [Hm'|Hm'].
    + destruct (B6 Hm') as [B7 B8]. rewrite A5 in B7. split; [|lia]. destruct (decide (Z.of_nat (length d1) = 0)) as [E|E].
      * rewrite E, Z.add_0_r in B7. cbn [Z.eqb] in B7. lia.
      * apply A6. lia.
    + assert (m = 0) as -> by lia. rewrite Z.add_0_r in *. by apply A6.
Qed.

(** A write of a chunk in an operation that has logged nothing so far. *)
Lemma writei_chunk (x : fst_) v L k y va data n off : fs_inv x (fresh_op v L) → has_locked x k y → size (sb x) ≤ BPB → supplies (User va) data n off (um x) → 0 ≤ off < 2 ^ 32 →
  0 ≤ n ≤ 3 * BS →
  ∃ r m j a' y', writei k (User va) off n x = Ok (r, with_jn j (with_inode k y' x)) ∧ fs_inv (with_jn j (with_inode k y' x)) a' ∧
    has_locked (with_jn j (with_inode k y' x)) k y' ∧ inum y' = inum y ∧ ref y' = ref y ∧ j_log a' = L ∧ j_cap a' = LOGSIZE - 1 ∧ Z.of_nat (length (j_dirty a')) ≤ LOGSIZE - 1 ∧
    written (sb x) v (j_view a') (inum y) off data m ∧
    (r = m ∨ r = -1 ∧ m = 0) ∧ (r < Z.of_nat (length data) → no_room (sb x) v (j_view a') (inum y) off n).
Proof.
  intros V Hl Hs G Ho Hn. assert (Z.of_nat (length data) ≤ n) as Hlen by (destruct G as [_ [G|(G & _)]]; lia). pose proof V as [I Hh HL F T]. pose proof (locked_synced _ _ _ _ V Hl) as Sy. pose proof (synced_node _ _ _ F Sy) as N.
  pose proof (proj1 Hl) as Hx. pose proof (core_eq _ _ (sy_core _ _ _ Sy)) as (_ & _ & _ & _ & Es & _).
  assert (isize y ≤ MAXFILE * BS) as Hsz by apply N. assert (3 * BS < 2 ^ 32 ∧ MAXFILE * BS < 2 ^ 32) as [HM1 HM2] by done.
  pose proof (refused_spec y off n Ho ltac:(lia) ltac:(apply N)) as Hrs.
  destruct (refused y off n) eqn:Er.
  - exists (-1), 0, (jn x), (fresh_op v L), y. assert (with_jn (jn x) (with_inode k y x) = x) as Ex.
    { unfold with_jn, with_inode. cbn. rewrite list_insert_id by done. by destruct x. }
    rewrite Ex. split; [by apply (writei_refused x k y)|]. split_and!; try done; [apply written_none|by right|].
    intros _. apply symmetry, bool_decide_eq_true in Hrs. unfold no_room. cbn [j_view fresh_op] in Es. rewrite Es. lia.
  - assert (0 ≤ bmapstart (sb x) < 2 ^ 32) as Hb.
    { destruct (fw_layout _ _ F) as [L1 L2 L3 _ _]. pose proof (Z.div_pos (size (sb x)) BPB ltac:(lia) ltac:(done)). lia. }
    set (B := IBLOCK (inum y) (sb x)).
    pose proof (chunk_room (sb x) (fresh_op v L) (addrs y) B off n (NoDup_nil_2) Hh Hs Hb ltac:(done) eq_refl ltac:(lia) (proj2 Hn)) as HR.
    destruct (writei_ok x {[bmapstart (sb x); B]} (fresh_op v L) k y (User va) data off n I Hh F Hx Sy G Ho ltac:(lia) ltac:(set_solver) HR Er)
      as (m & j & a' & l' & E & Hm & I' & St & Sy' & Hby & Hfull & Hh' & Hc' & _ & [_ HR' _]).
    set (y' := extended y l' (off + m)) in *. apply symmetry, bool_decide_eq_false, dec_stable in Hrs as [Hr1 Hr2].
    exists m, m, j, a', y'. split; [done|]. split; [|split; [|split; [done|split; [done|]]]].
    + destruct Hl as (_ & Hr & Hlk & Hv). constructor; try done; [by eapply step_wf|]. by apply (table_change (sb x) (fresh_op v L) a' (inodes x) k y y').
    + destruct Hl as (_ & Hr & Hlk & Hv). split; [|done]. apply list_lookup_insert_eq. by eapply lookup_lt_Some.
    + split; [apply St|]. split; [done|]. split; [pose proof (charge_ge ({[bmapstart (sb x); B]} ∪ nz (ind l')) a' ltac:(by eapply jinv_nodup)); cbn in Hc'; lia|].
      split; [|split; [by left|]].
      * constructor; try done.
        -- intros q. destruct (decide (q = inum y)) as [->|Hq]; [|exact (step_live _ (fresh_op v L) _ _ F St q Hq)]. split; intros _; [apply (sy_live _ _ _ Sy)|apply (sy_live _ _ _ Sy')].
        -- intros q Hq Hne. by apply (step_same _ _ _ _ F St).
        -- pose proof (core_eq _ _ (sy_core _ _ _ Sy')) as (_ & _ & _ & _ & Es' & _). change (inum y') with (inum y) in Es'. rewrite Es'.
           cbn [j_view fresh_op] in Es. rewrite Es. unfold y'. cbn. case_z; lia.
        -- intros _. cbn [j_view fresh_op] in Es. rewrite Es. lia.
      * intros Hlt. right; right. by apply Hfull.
Qed.

(** File [f] is open on the inode of entry [k]. *)
Record opened s (v : Z → block) (L : Z → Prop) (f k : nat) (x : file) (y : inode) : Prop := {
  op_rest : at_rest (fsys s) v L;
  op_file : files s !! f = Some x;
  op_ip : ip x = Some k;
  op_inode : inodes (fsys s) !! k = Some y;
  op_ref : 0 < ref y;
  op_unlocked : ilocked y = false;
  op_live : live (sb (fsys s)) v (inum y) }.

(** The inode is locked in an operation. *)
Lemma lock_in (x : fst_) a k y : fs_inv x a → j_room a → inodes x !! k = Some y → 0 < ref y → ilocked y = false → live (sb x) (j_view a) (inum y) →
  ∃ j z, ilock (Some k) x = Ok (tt, with_jn j (with_inode k z x)) ∧ fs_inv (with_jn j (with_inode k z x)) a ∧
    has_locked (with_jn j (with_inode k z x)) k z ∧ inum z = inum y ∧ ref z = ref y.
Proof.
  intros [I Hh HL F T] Hr Hy Hp Hlk Hlv. destruct (ilock_ok x a k y I Hh Hr T Hy Hp Hlk Hlv) as (j & E & Ij & _ & T').
  pose proof (loaded_fields (sb x) (j_view a) y) as (L1 & L2 & L3 & L4 & L5).
  exists j, (loaded (sb x) (j_view a) y). split; [exact E|]. split; [by constructor|]. split; [|done].
  split; [apply list_lookup_insert_eq; by eapply lookup_lt_Some|]. by rewrite L3.
Qed.
(** And unlocked again. *)
Lemma unlock_in (x : fst_) a k z : fs_inv x a → has_locked x k z →
  iunlock (Some k) x = Ok (tt, with_inode k (set_ilocked false z) x) ∧ fs_inv (with_inode k (set_ilocked false z) x) a.
Proof. intros [I Hh HL F T] Hl. destruct (iunlock_ok x (j_view a) k z T Hl) as [E T']. split; [done|]. by constructor. Qed.

(** One turn of the loop of [filewrite]. *)
Lemma filewrite_turn fuel s v L f k x y addr n i data : opened s v L f k x y → size (sb (fsys s)) ≤ BPB → let n1 := Z.min max_write (n - i) in
  supplies (User (u64 (addr + i))) data n1 (off x) (um (fsys s)) → 0 ≤ off x < 2 ^ 32 → i < n →
  ∃ r m s' v' y', opened s' v' L f k (set_off (off x + m) x) y' ∧ inum y' = inum y ∧ ref y' = ref y ∧
    sb (fsys s') = sb (fsys s) ∧ um (fsys s') = um (fsys s) ∧ files s' = <[f := set_off (off x + m) x]> (files s) ∧
    written (sb (fsys s)) v v' (inum y) (off x) data m ∧ (r = m ∨ r = -1 ∧ m = 0) ∧
    (r < Z.of_nat (length data) → no_room (sb (fsys s)) v v' (inum y) (off x) n1) ∧
    filewrite_loop (Datatypes.S fuel) f addr n i s = if negb (r =? n1) then Ok (i, s') else filewrite_loop fuel f addr n (i + r) s'.
Proof.
  intros [R Hf Hip Hy Hr Hlk Hlv] Hs n1 G Ho Hi. cbn [filewrite_loop]. rewrite (proj2 (Z.ltb_lt i n) Hi).
  replace (if max_write <? n - i then max_write else n - i) with n1 by (unfold n1; destruct (Z.ltb_spec max_write (n - i)); lia).
  assert (0 ≤ n1 ≤ 3 * BS) as Hmax by (unfold n1; assert (0 ≤ max_write) by done; change (3 * BS) with max_write; lia). assert (3 * BS < 2 ^ 32) as HM by done.
  destruct (begin_rest (fsys s) v L R) as (j1 & E1 & V1). unfold begin_op at 1. rewrite (bind_Ok _ _ _ _ _ (on_fs_Ok _ _ _ _ E1)).
  rewrite (bind_Ok _ _ _ _ _ (get_file_Ok (with_fs (with_jn j1 (fsys s)) s) f x Hf)), Hip. set (x1 := with_jn j1 (fsys s)) in *.
  destruct (lock_in x1 (fresh_op v L) k y V1 ltac:(done) Hy Hr Hlk Hlv) as (j2 & z & E2 & V2 & Hl2 & Hn2 & Hr2). set (x2 := with_jn j2 (with_inode k z x1)) in *.
  rewrite (bind_Ok _ _ _ _ _ (on_fs_Ok _ (with_fs x1 s) _ _ E2)). rewrite (bind_Ok (deref (Some k)) _ _ k (with_fs x2 (with_fs x1 s))) by done.
  rewrite (u32_small n1) by lia.
  destruct (writei_chunk x2 v L k z (u64 (addr + i)) data n1 (off x) V2 Hl2 Hs G Ho Hmax) as (r & m & j3 & a3 & y3 & E3 & V3 & Hl3 & Hn3 & Hr3 & HL3 & Hc3 & Hd3 & W & Hrm & Hno).
  set (x3 := with_jn j3 (with_inode k y3 x2)) in *. rewrite (bind_Ok _ _ _ _ _ (on_fs_Ok _ (with_fs x2 (with_fs x1 s)) _ _ E3)).
  set (s3 := with_fs x3 s). change (with_fs x3 (with_fs x2 (with_fs x1 s))) with s3.
  assert (∃ s4, (if 0 <? r then mod_file f (λ x0, set_off (u32 (off x0 + r)) x0) else skip) s3 = Ok (tt, s4) ∧ s4 = with_file f (set_off (off x + m) x) s3) as (s4 & E4 & Es4).
  { destruct (Z.ltb_spec 0 r) as [Hpos|Hneg].
    - rewrite (mod_file_Ok s3 f _ x Hf). eexists. split; [done|]. destruct Hrm as [->|[-> _]]; [|lia].
      destruct (wn_start _ _ _ _ _ _ _ W Hpos) as [_ Hlt]. assert (MAXFILE * BS < 2 ^ 32) by done. rewrite u32_small by lia. done.
    - exists s3. split; [done|]. assert (m = 0) as -> by (destruct Hrm as [->|[_ ->]]; [|done]; pose proof (wn_len _ _ _ _ _ _ _ W); lia).
      unfold with_file, with_files, s3. cbn. rewrite Z.add_0_r. rewrite list_insert_id by (rewrite Hf; by destruct x). done. }
  rewrite (bind_Ok _ _ _ _ _ E4). assert (fsys s4 = x3) as Ef by by rewrite Es4. destruct (unlock_in x3 a3 k y3 V3 Hl3) as [E5 V5]. set (x5 := with_inode k _ x3) in *.
  rewrite (bind_Ok _ _ _ tt (with_fs x5 s4)) by (apply on_fs_Ok; by rewrite Ef).
  destruct (end_rest x5 a3 V5 Hc3 Hd3) as (j6 & v6 & E6 & R6 & Hsame & Hlive & Hused). unfold end_op at 1. rewrite (bind_Ok _ _ _ _ _ (on_fs_Ok _ (with_fs x5 s4) _ _ E6)).
  set (s6 := with_fs (with_jn j6 x5) (with_fs x5 s4)). change (sb x5) with (sb (fsys s)) in *. change (sb x2) with (sb (fsys s)) in *.
  rewrite Hn2 in *. assert (written (sb (fsys s)) v v6 (inum y) (off x) data m) as W' by (eapply written_same; [exact Hlv|exact W|done|done]).
  exists r, m, s6, v6, (set_ilocked false y3). split; [|split; [cbn; congruence|split; [cbn; congruence|]]].
  - constructor; try done.
    + rewrite HL3 in R6. exact R6.
    + unfold s6. rewrite Es4. cbn. apply list_lookup_insert_eq. by eapply lookup_lt_Some.
    + cbn. apply list_lookup_insert_eq. rewrite !length_insert. by eapply lookup_lt_Some.
    + cbn. lia.
    + change (live (sb (fsys s)) v6 (inum y3)). rewrite Hn3. by apply (wn_live _ _ _ _ _ _ _ W').
  - unfold s6. rewrite Es4. split_and!; try done; [|by destruct (negb _)].
    intros Hlt. destruct (Hno Hlt) as [H|[H|H]]; [by left|by right; left|right; right]. intros c Hc. rewrite Hused by done. by apply H.
Qed.

Lemma gives_take va data q (u : M) : gives (User va) data u → gives (User va) (take q data) u.
Proof.
  intros (H1 & H2 & mem & U & H). split; [done|]. split; [rewrite length_take; lia|]. exists mem. split; [done|].
  intros i c Hi. apply H. by apply lookup_take_Some in Hi as [Hi _].
Qed.
Lemma gives_drop va data q (u : M) : (q ≤ length data)%nat → gives (User va) data u → gives (User (va + Z.of_nat q)) (drop q data) u.
Proof.
  intros Hq (H1 & H2 & mem & U & H). split; [lia|]. split; [rewrite length_drop; lia|]. exists mem. split; [done|].
  intros i c Hi. rewrite lookup_drop in Hi. rewrite <- (H _ _ Hi). f_equal. lia.
Qed.
Lemma supplies_take va data n q off (u : M) : supplies (User va) data n off u → Z.of_nat q ≤ n → supplies (User va) (take q data) (Z.of_nat q) off u.
Proof.
  intros [G GS] Hq. destruct (decide (q ≤ length data)%nat) as [Hl|Hl].
  - split; [by apply gives_take|]. left. rewrite length_take. lia.
  - rewrite take_ge by lia. split; [done|]. right. destruct GS as [GS|(_ & Hb & va' & mem & E & Hmax & HG)]; [lia|].
    split; [lia|]. split; [done|]. exists va', mem. split_and!; [done|lia|apply HG..].
Qed.
Lemma supplies_drop va data n q off (u : M) : supplies (User va) data n off u → (0 < q ≤ length data)%nat →
  supplies (User (va + Z.of_nat q)) (drop q data) (n - Z.of_nat q) (off + Z.of_nat q) u.
Proof.
  intros [G GS] Hq. split; [by apply gives_drop; [lia|]|]. rewrite length_drop. destruct GS as [GS|(Hlt & Hb & va' & mem & [= <-] & Hmax & U & Hno)]; [left; lia|right].
  split; [lia|]. split.
  - right. destruct Hb as [->|Hb]; [cbn in Hq; lia|]. rewrite <- Hb. f_equal. lia.
  - exists (va + Z.of_nat q), mem. split_and!; [done|lia|done|]. rewrite <- Hno. f_equal. lia.
Qed.
Lemma written_take sb v w n off data q m : written sb v w n off (take q data) m → written sb v w n off data m.
Proof.
  intros [W1 W2 W3 W4 W5 W6]. rewrite length_take in W1. constructor; try done; [lia|]. intros o Ho. rewrite W4 by done.
  rewrite take_take. by replace (Z.to_nat m `min` q)%nat with (Z.to_nat m) by lia.
Qed.

Lemma filewrite_loop_ok f k addr n L fuel : ∀ s v x y i data, opened s v L f k x y → size (sb (fsys s)) ≤ BPB → supplies (User (addr + i)) data (n - i) (off x) (um (fsys s)) → 0 ≤ off x < 2 ^ 32 → i ≤ n → (Z.to_nat (n - i) ≤ fuel)%nat →
  ∃ r m s' v' y', filewrite_loop fuel f addr n i s = Ok (r, s') ∧ opened s' v' L f k (set_off (off x + m) x) y' ∧ inum y' = inum y ∧ ref y' = ref y ∧
    sb (fsys s') = sb (fsys s) ∧ um (fsys s') = um (fsys s) ∧ files s' = <[f := set_off (off x + m) x]> (files s) ∧
    written (sb (fsys s)) v v' (inum y) (off x) data m ∧
    (r = n ∧ m = n - i ∨ r < n ∧ m < n - i ∧ (no_room (sb (fsys s)) v v' (inum y) (off x) (n - i) ∨ m = Z.of_nat (length data))).
Proof.
  induction fuel as [|fuel IH]; intros s v x y i data O Hs G Ho Hi Hfuel.
  all: assert (Z.of_nat (length data) ≤ n - i) as Hlen by (destruct G as [_ [G|(G & _)]]; lia).
  all: destruct (decide (i = n)) as [->|Hne].
  1, 3: assert (data = []) as -> by (apply nil_length_inv; lia); exists n, 0, s, v, y; rewrite Z.add_0_r; cbn [filewrite_loop]; rewrite Z.ltb_irrefl;
    replace (set_off (off x) x) with x by (by destruct x); split_and!; try done;
    [by rewrite list_insert_id by apply O|apply written_none|left; lia].
  { lia. }
  set (q := Z.to_nat (Z.min max_write (n - i))). assert (0 < max_write) as Hmw by done.
  assert (Z.min max_write (n - i) = Z.of_nat q) as En1 by lia.
  assert (u64 (addr + i) = addr + i) as Eu by (destruct G as [(G1 & G2 & _) _]; unfold u64; rewrite Z.mod_small; lia).
  destruct (filewrite_turn fuel s v L f k x y addr n i (take q data) O Hs) as (r & m & s1 & v1 & y1 & O1 & Hn1 & Hr1 & Hsb1 & Hum1 & Hf1 & W1 & Hrm & Hno & E);
    [rewrite Eu, En1; apply (supplies_take _ _ (n - i)); [done|lia]|done|lia|]. rewrite En1 in E, Hno. rewrite E. pose proof (wn_len _ _ _ _ _ _ _ W1) as Hml. rewrite length_take in Hml, Hno.
  destruct (Z.eqb_spec r (Z.of_nat q)) as [->|Hrq]; cbn [negb].
  - assert (m = Z.of_nat q) as -> by lia. assert (length (take q data) = q) as Hq by (rewrite length_take; lia).
    destruct (wn_start _ _ _ _ _ _ _ W1 ltac:(lia)) as [Hst Hend]. assert (MAXFILE * BS < 2 ^ 32) as HM by done.
    destruct (IH s1 v1 (set_off (off x + Z.of_nat q) x) y1 (i + Z.of_nat q) (drop q data) O1) as (r & m & s2 & v2 & y2 & E2 & O2 & Hn2 & Hr2 & Hsb2 & Hum2 & Hf2 & W2 & Hor).
    { by rewrite Hsb1. }
    { rewrite Hum1, Z.add_assoc, Z.sub_add_distr. cbn [off set_off]. apply supplies_drop; [done|lia]. }
    { cbn. lia. } { lia. } { lia. }
    rewrite Hsb1, Hn1 in *. cbn [off set_off] in *.
    assert (written (sb (fsys s)) v v2 (inum y) (off x) data (Z.of_nat q + m)) as W.
    { pose proof (written_app (sb (fsys s)) v v1 v2 (inum y) (off x) (take q data) (drop q data) m) as H. rewrite take_drop, Hq in H. apply H; [lia|done|done]. }
    exists r, (Z.of_nat q + m), s2, v2, y2. rewrite Z.add_assoc. split_and!; try done; try congruence.
    + by rewrite Hf2, Hf1, list_insert_insert_eq.
    + destruct Hor as [[-> ->]|(Hr & Hm & Hno2)]; [left; lia|right]. split; [done|]. split; [lia|].
      destruct Hno2 as [[H|[H|H]]|H]; [left|left; right; left; lia|left; by right; right|right; rewrite length_drop in H; lia].
      rewrite (wn_size _ _ _ _ _ _ _ W1) in H. destruct (Z.eqb_spec (Z.of_nat q) 0); lia.
  - exists i, m, s1, v1, y1. apply written_take in W1. split_and!; try done. right. split; [lia|]. split; [lia|].
    destruct (decide (r < Z.of_nat (q `min` length data))) as [Hlt|Hge]; [left|right; lia].
    destruct (Hno Hlt) as [H|[H|H]]; [by left|right; left; lia|by right; right].
Qed.
End proofs.
End FileProofs.
