(* ===== verification/FileOps.v ===== *)
(** * What the functions on open files guarantee *)

From S2P Require Import Prelude Bytes BufCache Journal Log UserMem Fs FsBlocks FsMap FsFile FsWrite FsInode FsState FsOps FsTrunc FsTable FsDir FsProps FsSafe FsRest File FileProofs.
Import Bytes Journal Txn UserMem Fs FsBlocks FsMap FsFile FsWrite FsInode FsState FsOps FsTrunc FsTable FsDir FsProps FsSafe FsRest.
Import File FileProofs.
Import BufCache (block, BSIZE, ROOTDEV, zero_blk, NBUF).
Import Log (MAXOPBLOCKS, LOGSIZE).

Module FileOps.

Section ops.
Context {S M P : Type} `{TX : Transactions S} `{UM : UserMemory M} `{ST : Streams M P}.
#[local] Abbreviation fst_ := (@fst_ S M).
#[local] Abbreviation st := (@st S M P).
Implicit Types (s : st) (a : jabs).

Lemma umapped_Forall mem va n : Forall (λ p, mem p ≠ None) (seqZ va n) ↔ umapped mem va n.
Proof. rewrite list.Forall_forall. unfold umapped. split; intros H p Hp; apply H; by apply elem_of_seqZ. Qed.
#[local] Instance umapped_dec mem va n : Decision (umapped mem va n).
Proof. destruct (decide (Forall (λ p, mem p ≠ None) (seqZ va n))) as [H|H]; [left|right]; by rewrite <- umapped_Forall. Defined.

(** C5: [filewrite] of a file on disk cuts the write into chunks that fit in a
    transaction each.  It returns [n] when all bytes are written at the offset of
    the file; otherwise it returns -1, the bytes of a prefix are written, and the
    offset was behind the end of the file, the file would be too long, the disk
    is full, or everything is written that the buffer of the user has.  The offset
    moves over the bytes that are written, every transaction is committed, and no
    other file changes.  The buffer has all [n] bytes; or it ends early, before
    its first byte or before the first byte of a block of the file ([supplies]). *)
Theorem filewrite_correct s v L f k x y addr data n : opened s v L f k x y → ftype x = FD_INODE → writable x ≠ 0 → size (sb (fsys s)) ≤ BPB →
  supplies (User addr) data n (off x) (um (fsys s)) → 0 ≤ off x < 2 ^ 32 →
  ∃ r m s' v' y', filewrite f addr n s = Ok (r, s') ∧ opened s' v' L f k (set_off (off x + m) x) y' ∧ inum y' = inum y ∧ ref y' = ref y ∧
    files s' = <[f := set_off (off x + m) x]> (files s) ∧ um (fsys s') = um (fsys s) ∧
    written (sb (fsys s)) v v' (inum y) (off x) data m ∧
    (r = n ∧ m = n ∨ r = -1 ∧ m < n ∧ (no_room (sb (fsys s)) v v' (inum y) (off x) n ∨ m = Z.of_nat (length data))).
Proof.
  intros O HT Hw Hs G Ho. assert (0 ≤ n) as Hn0 by (destruct G as [_ [G|(G & _)]]; lia). unfold filewrite. rewrite (bind_Ok _ _ _ _ _ (get_file_Ok s f x (op_file _ _ _ _ _ _ _ O))), (proj2 (Z.eqb_neq _ 0) Hw), HT.
  destruct (filewrite_loop_ok f k addr n L (Z.to_nat n) s v x y 0 data O Hs) as (r & m & s' & v' & y' & E & O' & Hn & Hr & _ & Hu & Hf & W & Hor);
    [by rewrite Z.add_0_r, Z.sub_0_r|done|lia|lia|]. rewrite (bind_Ok _ _ _ _ _ E), Z.sub_0_r in *.
  exists (if r =? n then n else -1), m, s', v', y'. split_and!; try done. destruct Hor as [[-> ->]|(Hlt & Hm & Hno)]; [left; by rewrite Z.eqb_refl|right].
  rewrite (proj2 (Z.eqb_neq r n)) by lia. done.
Qed.

(** C17: [fileread] of a file on disk copies the bytes of the file from the offset
    on to user memory, as many as were asked for and the file has, and moves the
    offset over them; when part of the destination is not mapped it returns -1
    and the offset stays.  The disk does not change. *)
Theorem fileread_correct s v L f k x y addr n mem : opened s v L f k x y → ftype x = FD_INODE → readable x ≠ 0 → 0 ≤ off x < 2 ^ 32 → 0 ≤ n < 2 ^ 31 →
  uinv (um (fsys s)) mem → 0 ≤ addr → addr + n < 2 ^ 64 → let m := available (dn (sb (fsys s)) v (inum y)) (off x) n in
  ∃ r s' y', fileread f addr n s = Ok (r, s') ∧ opened s' v L f k (set_off (off x + Z.max 0 r) x) y' ∧ inum y' = inum y ∧ ref y' = ref y ∧
    files s' = <[f := set_off (off x + Z.max 0 r) x]> (files s) ∧
    (umapped mem addr m → r = m ∧ uinv (um (fsys s')) (ustore mem addr (fbyte (sb (fsys s)) v (inum y) <$> seqZ (off x) m))) ∧
    (¬ umapped mem addr m → r = -1).
Proof.
  intros [R Hf Hip Hy Hr Hlk Hlv] HT Hrd Ho Hn U Ha Hmax m. unfold fileread. rewrite (bind_Ok _ _ _ _ _ (get_file_Ok s f x Hf)), (proj2 (Z.eqb_neq _ 0) Hrd), HT, Hip.
  pose proof (read_rest _ _ _ R) as V0. destruct (lock_in (fsys s) (reader v L) k y V0 ltac:(done) Hy Hr Hlk Hlv) as (j1 & z & E1 & V1 & Hl1 & Hn1 & Hr1).
  set (x1 := with_jn j1 (with_inode k z (fsys s))) in *. rewrite (bind_Ok _ _ _ _ _ (on_fs_Ok _ s _ _ E1)). rewrite (bind_Ok (deref (Some k)) _ _ k (with_fs x1 s)) by done.
  rewrite (u32_small n) by lia. pose proof (locked_synced _ _ _ _ V1 Hl1) as Sy. pose proof (core_eq _ _ (sy_core _ _ _ Sy)) as (_ & _ & _ & _ & Es & _).
  pose proof (node_file_ok _ _ _ (synced_node _ _ _ (fi_wf _ _ V1) Sy) (sy_dev _ _ _ Sy)) as FO.
  destruct (available_range _ _ _ (off x) n FO Ho ltac:(lia)) as (Hm1 & Hm2 & Hm3). pose proof (no_size _ _ _ (synced_node _ _ _ (fi_wf _ _ V1) Sy)) as Hsz.
  assert (available z (off x) n = m) as Em by (unfold m, available; rewrite <- Hn1; change (sb (fsys s)) with (sb x1); change v with (j_view (reader v L)); by rewrite Es).
  destruct (readi_user_ok x1 (reader v L) k z addr mem (off x) n (fi_log _ _ V1) eq_refl ltac:(done) (fi_wf _ _ V1) (proj1 Hl1) Sy Ho ltac:(lia) U Ha Hmax)
    as (r & va & j2 & u2 & E2 & I2 & Hyes & Hno). rewrite Em in *.
  set (x2 := with_um u2 (with_jn j2 x1)) in *. rewrite (bind_Ok _ _ _ _ _ (on_fs_Ok _ (with_fs x1 s) _ _ E2)). cbn [fst].
  set (s2 := with_fs x2 s). change (with_fs x2 (with_fs x1 s)) with s2.
  assert (r = if bool_decide (umapped mem addr m) then m else -1) as Er by (case_bool_decide; [by apply Hyes|by apply Hno]).
  assert ((if 0 <? r then mod_file f (λ x0, set_off (u32 (off x0 + r)) x0) else skip) s2 = Ok (tt, with_file f (set_off (off x + Z.max 0 r) x) s2)) as E3.
  { assert (MAXFILE * BS < 2 ^ 32) by done. destruct (Z.ltb_spec 0 r) as [Hp|Hp].
    - rewrite (mod_file_Ok s2 f _ x Hf). assert (r = m) as -> by (revert Er; case_bool_decide; lia).
      rewrite u32_small by lia. by rewrite Z.max_r by lia.
    - rewrite Z.max_l, Z.add_0_r by lia. unfold with_file, with_files. rewrite list_insert_id; [by destruct s|]. cbn. rewrite Hf. by destruct x. }
  rewrite (bind_Ok _ _ _ _ _ E3). assert (fs_inv x2 (reader v L)) as V2 by (destruct V1; by constructor).
  destruct (unlock_in x2 (reader v L) k z V2 Hl1) as [E4 V4]. set (x4 := with_inode k (set_ilocked false z) x2) in *.
  rewrite (bind_Ok _ _ _ tt (with_fs x4 (with_file f (set_off (off x + Z.max 0 r) x) s2))) by by apply on_fs_Ok.
  eexists r, _, (set_ilocked false z). split; [done|]. split; [|split_and!; try done].
  - constructor; try done; [by apply rest_read| | |cbn; lia|].
    + cbn. apply list_lookup_insert_eq. by eapply lookup_lt_Some.
    + cbn. apply list_lookup_insert_eq. rewrite !length_insert. by eapply lookup_lt_Some.
    + cbn. by rewrite Hn1.
  - intros Hmap. destruct (Hyes Hmap) as [-> U']. split; [done|]. by rewrite Hn1 in U'.
Qed.

(** Room for an [iput] in an operation that has logged nothing so far. *)
Lemma fresh_room sb v L B : layout sb (fresh_op v L) → size sb ≤ BPB → room sb {[bmapstart sb; B]} (fresh_op v L) 2.
Proof.
  intros Ly Hs. assert (charge {[bmapstart sb; B]} (fresh_op v L) ≤ 2) as Hc.
  { unfold charge, logged. cbn [j_dirty fresh_op list_to_set]. rewrite union_empty_l_L.
    pose proof (size_union_le ({[bmapstart sb]} : gset Z) {[B]}) as Hu. rewrite !size_singleton in Hu. lia. }
  assert (0 ≤ bmapstart sb < 2 ^ 32) as Hb by (destruct Ly as [L1 L2 L3 _ _]; pose proof (Z.div_pos (size sb) BPB ltac:(lia) ltac:(done)); lia).
  constructor; [|cbn [j_cap fresh_op]; unfold LOGSIZE, MAXOPBLOCKS; lia|cbn [j_held fresh_op length]; unfold NBUF; lia].
  intros c Hc'. rewrite (one_bitmap sb) by done. set_solver.
Qed.

(** The last reference to an inode is given back in an operation of its own. *)
Lemma put_in s v L k y : at_rest (fsys s) v L → inodes (fsys s) !! k = Some y → 0 < ref y → ilocked y = false → size (sb (fsys s)) ≤ BPB →
  ∃ x' v' y', (begin_op;; on_fs (iput k);; end_op) s = Ok (tt, with_fs x' s) ∧ at_rest x' v' L ∧ sb x' = sb (fsys s) ∧ um x' = um (fsys s) ∧
    inodes x' = <[k := y']> (inodes (fsys s)) ∧ ref y' = ref y - 1 ∧
    (∀ q, live (sb (fsys s)) v q → q ≠ inum y → same_file (sb (fsys s)) v v' q) ∧
    (if (ref y =? 1) && valid y && (nlink y =? 0) then ¬ live (sb (fsys s)) v' (inum y)
     else ∀ q, live (sb (fsys s)) v q → same_file (sb (fsys s)) v v' q).
Proof.
  intros R Hy Hr Hlk Hs. destruct (begin_rest (fsys s) v L R) as (j1 & E1 & V1). unfold begin_op. rewrite (bind_Ok _ _ _ _ _ (on_fs_Ok _ _ _ _ E1)).
  set (x1 := with_jn j1 (fsys s)) in *. pose proof V1 as [I Hh HL F T]. set (B := IBLOCK (inum y) (sb x1)).
  pose proof (fresh_room (sb x1) v L B (fw_layout _ _ F) Hs) as HR.
  assert (∃ j2 a2 y2, iput k x1 = Ok (tt, with_jn j2 (with_inode k y2 x1)) ∧ fs_inv (with_jn j2 (with_inode k y2 x1)) a2 ∧ j_log a2 = L ∧ j_cap a2 = LOGSIZE - 1 ∧
    Z.of_nat (length (j_dirty a2)) ≤ LOGSIZE - 1 ∧ ref y2 = ref y - 1 ∧ (∀ q, live (sb x1) v q → q ≠ inum y → same_file (sb x1) v (j_view a2) q) ∧
    (if (ref y =? 1) && valid y && (nlink y =? 0) then ¬ live (sb x1) (j_view a2) (inum y) else a2 = fresh_op v L))
    as (j2 & a2 & y2 & E2 & V2 & HL2 & Hc2 & Hd2 & Hr2 & Hs2 & Hd).
  { destruct ((ref y =? 1) && valid y && (nlink y =? 0)) eqn:Ec.
    - apply andb_true_iff in Ec as [[K1%Z.eqb_eq K2]%andb_true_iff K3%Z.eqb_eq].
      destruct (iput_free x1 {[bmapstart (sb x1); B]} (fresh_op v L) k y I Hh F HR ltac:(set_solver) HL T Hy K1 K2 K3 Hlk)
        as (j & a' & E & I' & F' & T' & HT & Hsf & Hh' & Hc' & [_ HLg] & [_ HR' _] & _).
      eexists j, a', _. split; [exact E|]. split; [by constructor|]. split_and!; try done; [pose proof (charge_ge {[bmapstart (sb x1); B]} a' ltac:(by eapply jinv_nodup)); cbn in Hc'; lia|cbn; lia|by intros [_ ?]].
    - destruct (iput_drop x1 v k y HL T Hy Hr) as [E T']; [by rewrite Hlk|done|]. exists j1, (fresh_op v L), (set_ref (ref y - 1) y).
      split; [exact E|]. split; [by constructor|]. split_and!; try done. }
  set (x2 := with_jn j2 (with_inode k y2 x1)) in *. rewrite (bind_Ok _ _ _ _ _ (on_fs_Ok _ (with_fs x1 s) _ _ E2)).
  destruct (end_rest x2 a2 V2 Hc2 Hd2) as (j3 & v3 & E3 & R3 & Hsame & Hlive & _). unfold end_op. rewrite (on_fs_Ok _ (with_fs x2 (with_fs x1 s)) _ _ E3).
  change (sb x2) with (sb (fsys s)) in *. change (sb x1) with (sb (fsys s)) in *. exists (with_jn j3 x2), v3, y2. rewrite HL2 in R3. split_and!; try done.
  - intros q Hq Hne. eapply same_file_trans; [by apply Hs2|]. apply Hsame. destruct (Hs2 q Hq Hne) as [Hdn _ _]. unfold live. rewrite Hdn. exact Hq.
  - destruct ((ref y =? 1) && valid y && (nlink y =? 0)); [by rewrite Hlive|]. subst a2. exact Hsame.
Qed.

(** C26: [fileclose] of a file on disk drops a reference.  With the last one the
    entry is free again and the reference to the inode is given back in a
    transaction of its own, which deletes the file when it has no links left; no
    other file changes. *)
Theorem fileclose_correct s v L f k x y : opened s v L f k x y → ftlock s = false → ftype x = FD_INODE ∨ ftype x = FD_DEVICE → 1 ≤ fref x →
  size (sb (fsys s)) ≤ BPB →
  if fref x =? 1 then
    ∃ s' v' y', fileclose f s = Ok (tt, s') ∧ files s' = <[f := set_ftype FD_NONE (set_fref 0 x)]> (files s) ∧ ftlock s' = false ∧
      at_rest (fsys s') v' L ∧ inodes (fsys s') = <[k := y']> (inodes (fsys s)) ∧ ref y' = ref y - 1 ∧
      (∀ q, live (sb (fsys s)) v q → q ≠ inum y → same_file (sb (fsys s)) v v' q) ∧
      (if (ref y =? 1) && valid y && (nlink y =? 0) then ¬ live (sb (fsys s)) v' (inum y)
       else ∀ q, live (sb (fsys s)) v q → same_file (sb (fsys s)) v v' q)
  else fileclose f s = Ok (tt, with_file f (set_fref (fref x - 1) x) s).
Proof.
  intros [R Hf Hip Hy Hr Hlk Hlv] HL HT Href Hs. unfold fileclose. rewrite (bind_Ok _ _ _ tt (set_ftlock true s)) by (unfold acquire_ft; by rewrite HL).
  rewrite (bind_Ok _ _ _ _ _ (get_file_Ok (set_ftlock true s) f x Hf)), (proj2 (Z.ltb_ge (fref x) 1)) by lia.
  rewrite (bind_Ok _ _ _ _ _ (mod_file_Ok (set_ftlock true s) f _ x Hf)). destruct (Z.eqb_spec (fref x) 1) as [E|E].
  - rewrite (proj2 (Z.ltb_ge 0 (fref x - 1))) by lia. pose proof (lookup_lt_Some _ _ _ Hf) as Hlt.
    assert (∀ z b s0, files s0 = <[f := z]> (files s) → files s0 !! f = Some z ∧ with_file f b s0 = with_files (<[f := b]> (files s)) s0) as Hw.
    { intros z b s0 E0. rewrite E0. split; [by apply list_lookup_insert_eq|]. unfold with_file. by rewrite E0, list_insert_insert_eq. }
    set (x1 := set_fref (fref x - 1) x). set (s1 := with_file f x1 (set_ftlock true s)). pose proof (Hw x1 (set_fref 0 x1) s1 eq_refl) as [Hf1 Ew1].
    rewrite (bind_Ok _ _ _ _ _ (get_file_Ok s1 f x1 Hf1)), (bind_Ok _ _ _ _ _ (mod_file_Ok s1 f _ x1 Hf1)), Ew1.
    set (x2 := set_fref 0 x1) in *. set (s2 := with_files (<[f := x2]> (files s)) s1). set (x3 := set_ftype FD_NONE x2).
    pose proof (Hw x2 x3 s2 eq_refl) as [Hf2 Ew2]. rewrite (bind_Ok _ _ _ _ _ (mod_file_Ok s2 f _ x2 Hf2)). fold x3. rewrite Ew2.
    set (s3 := with_files (<[f := x3]> (files s)) s). rewrite (bind_Ok _ _ _ tt s3) by (unfold s3, with_files; destruct s; cbn in *; by subst).
    destruct (put_in s3 v L k y R Hy Hr Hlk Hs) as (x' & v' & y' & E' & R' & _ & _ & Hi & Hry & Hsm & Hd).
    exists (with_fs x' s3), v', y'. split; [|split_and!; try done].
    change (ftype x1) with (ftype x). change (ip x1) with (ip x). rewrite Hip. destruct HT as [-> | ->]; rewrite (bind_Ok (deref (Some k)) _ _ k s3) by done; exact E'.
  - rewrite (proj2 (Z.ltb_lt 0 (fref x - 1))) by lia. unfold release_ft, with_file, with_files, set_ftlock. cbn. by rewrite <- HL.
Qed.
End ops.
End FileOps.
