(* ===== verification/Sysfile.v ===== *)
(** * System calls on files (kernel/sysfile.c and the argument functions of
    kernel/syscall.c)

    The state of the calling process (open files, current directory, argument
    registers) over the table of open files.  [argstr] gives the characters of a
    path before the terminator. *)

From S2P Require Import Prelude Bytes BufCache Journal Log UserMem Fs File.
Import Bytes Txn UserMem Fs File.

Module Sysfile.

Definition NOFILE : Z := 16.
Definition MAXPATH : Z := 128.
Definition O_RDONLY : Z := 0.
Definition O_WRONLY : Z := 1.
Definition O_RDWR : Z := 2.
Definition O_CREATE : Z := 512.
Definition O_TRUNC : Z := 1024.

(** Strings of the process, and the page for a new pipe: [pipe_new] is the
    [kalloc] of [pipealloc] with the stores that set the pipe up. *)
Class Strings (M : Type) := { copyinstr : Z → Z → prog M (Z * list Z) }.
Class PipePages (P : Type) := { pipe_new : prog P (option nat) }.

(** The characters before the terminator. *)
Fixpoint cstring (l : list Z) : list Z :=
  match l with c :: l' => if c =? 0 then [] else c :: cstring l' | [] => [] end.

Section calls.
Context {S M P : Type} `{TX : Transactions S} `{UM : UserMemory M} `{ST : Streams M P} `{SR : Strings M} `{PP : PipePages P}.
#[local] Abbreviation fst_ := (@fst_ S M).
#[local] Abbreviation file_st := (@File.st S M P).

Record st := mkSt {
  fl : file_st;
  ofile : list (option nat);
  cwd : nat;
  regs : list Z }.

Definition on_files {A} (m : prog file_st A) : prog st A := λ s,
  match m (fl s) with
  | Ok (a, x) => Ok (a, mkSt x (ofile s) (cwd s) (regs s))
  | Panic e => Panic e | Fault => Fault | Spin => Spin
  end.
Definition fs {A} (m : prog fst_ A) : prog st A := on_files (on_fs m).
Definition begin_op : prog st unit := on_files File.begin_op.
Definition end_op : prog st unit := on_files File.end_op.
Definition set_ofile (fd : Z) (f : option nat) : prog st unit :=
  modify (λ s, mkSt (fl s) (<[Z.to_nat fd := f]> (ofile s)) (cwd s) (regs s)).
Definition get_cwd : prog st nat := gets cwd.

(** ** Arguments *)

Definition argraw (n : nat) : prog st Z := λ s,
  match (if (n <? 6)%nat then regs s !! n else None) with Some v => Ok (v, s) | None => Panic "argraw" end.
Definition argint (n : nat) : prog st Z := v ← argraw n; mret (i32 v).
Definition argaddr (n : nat) : prog st Z := argraw n.
(** The result and the characters of the string. *)
Definition fetchstr (addr max : Z) : prog st (Z * list Z) :=
  r ← fs (on_user (copyinstr addr max));
  if fst r <? 0 then mret (-1, [])
  else mret (Z.of_nat (length (cstring (snd r))), cstring (snd r)).
Definition argstr (n : nat) (max : Z) : prog st (Z * list Z) :=
  addr ← argaddr n; fetchstr addr max.

(** The descriptor and the file. *)
Definition argfd (n : nat) : prog st (option (Z * nat)) :=
  fd ← argint n;
  l ← gets ofile;
  mret (if (fd <? 0) || (NOFILE <=? fd) then None
        else match l !! Z.to_nat fd with Some (Some f) => Some (fd, f) | _ => None end).

(** The search of [fdalloc]. *)
Fixpoint free_fd (k : nat) (fd : Z) (l : list (option nat)) : option Z :=
  match k with
  | O => None
  | Datatypes.S k' => match l !! Z.to_nat fd with Some None => Some fd | _ => free_fd k' (fd + 1) l end
  end.
Definition fdalloc (f : nat) : prog st Z :=
  l ← gets ofile;
  match free_fd (Z.to_nat NOFILE) 0 l with
  | Some fd => set_ofile fd (Some f);; mret fd
  | None => mret (-1)
  end.

(** ** Descriptors *)

Definition sys_dup : prog st Z :=
  r ← argfd 0;
  match r with
  | None => mret (-1)
  | Some (_, f) =>
      fd ← fdalloc f;
      if fd <? 0 then mret (-1)
      else on_files (filedup f);; mret fd
  end.
Definition sys_dummy : prog st Z := mret 21845.
Definition sys_read : prog st Z :=
  p ← argaddr 1;
  n ← argint 2;
  r ← argfd 0;
  match r with None => mret (-1) | Some (_, f) => on_files (fileread f p n) end.
Definition sys_write : prog st Z :=
  p ← argaddr 1;
  n ← argint 2;
  r ← argfd 0;
  match r with None => mret (-1) | Some (_, f) => on_files (filewrite f p n) end.
Definition sys_close : prog st Z :=
  r ← argfd 0;
  match r with
  | None => mret (-1)
  | Some (fd, f) => set_ofile fd None;; on_files (fileclose f);; mret 0
  end.
Definition sys_fstat (garbage : list Z) : prog st Z :=
  p ← argaddr 1;
  r ← argfd 0;
  match r with None => mret (-1) | Some (_, f) => on_files (filestat garbage f p) end.

(** ** Links *)

Definition set_nlink (v : Z) (x : inode) : inode :=
  mkInode (dev x) (inum x) (ref x) (ilocked x) (valid x) (type x) (major x) (minor x) (i16 v) (isize x) (addrs x).
(** [ip->nlink += d; iupdate(ip)] *)
Definition add_nlink (i : nat) (d : Z) : prog st unit :=
  x ← fs (get_inode i);
  fs (mod_inode i (set_nlink (nlink x + d)));;
  fs (iupdate i).

Definition sys_link_bad (i : nat) : prog st Z :=
  fs (ilock (Some i));;
  add_nlink i (-1);;
  fs (iunlockput (Some i));;
  end_op;;
  mret (-1).
Definition sys_link (name : list Z) : prog st Z :=
  old ← argstr 0 MAXPATH;
  if fst old <? 0 then mret (-1)
  else
  new ← argstr 1 MAXPATH;
  if fst new <? 0 then mret (-1)
  else
  begin_op;;
  c ← get_cwd;
  ip ← fs (namei c (snd old));
  match ip with
  | None => end_op;; mret (-1)
  | Some i =>
      fs (ilock (Some i));;
      x ← fs (get_inode i);
      if type x =? T_DIR then
        fs (iunlockput (Some i));;
        end_op;;
        mret (-1)
      else
        add_nlink i 1;;
        fs (iunlock (Some i));;
        r ← fs (nameiparent c (snd new) name);
        match fst r with
        | None => sys_link_bad i
        | Some d =>
            fs (ilock (Some d));;
            dp ← fs (get_inode d);
            ip ← fs (get_inode i);
            k ← (if negb (dev dp =? dev ip) then mret (-1) else fs (dirlink d (snd r) (inum ip)));
            if k <? 0 then
              fs (iunlockput (Some d));;
              sys_link_bad i
            else
              fs (iunlockput (Some d));;
              fs (iput i);;
              end_op;;
              mret 0
        end
  end.

(** The loop of [isdirempty] from [off] on. *)
Fixpoint isdirempty_loop (fuel : nat) (dp : nat) (off : Z) : prog st bool :=
  x ← fs (get_inode dp);
  if off <? isize x then
    match fuel with
    | O => spin
    | Datatypes.S fuel' =>
        r ← fs (readi dp (Kernel []) off 16);
        if negb (fst r =? 16) then panic "isdirempty: readi"
        else
          match snd r with
          | Kernel e => if negb (de_inum e =? 0) then mret false else isdirempty_loop fuel' dp (off + 16)
          | User _ => fault
          end
    end
  else mret true.
Definition isdirempty (dp : nat) : prog st bool :=
  x ← fs (get_inode dp); isdirempty_loop (Z.to_nat (isize x `div` 16 + 1)) dp 32.

Definition sys_unlink_bad (d : nat) : prog st Z :=
  fs (iunlockput (Some d));;
  end_op;;
  mret (-1).
Definition sys_unlink (name : list Z) : prog st Z :=
  path ← argstr 0 MAXPATH;
  if fst path <? 0 then mret (-1)
  else
  begin_op;;
  c ← get_cwd;
  r ← fs (nameiparent c (snd path) name);
  match fst r with
  | None => end_op;; mret (-1)
  | Some d =>
      fs (ilock (Some d));;
      if (namecmp (snd r) [46] =? 0) || (namecmp (snd r) [46; 46] =? 0) then sys_unlink_bad d
      else
      e ← fs (dirlookup d (snd r));
      match e with
      | None => sys_unlink_bad d
      | Some (i, off) =>
          fs (ilock (Some i));;
          x ← fs (get_inode i);
          if nlink x <? 1 then panic "unlink: nlink < 1"
          else
          busy ← (if type x =? T_DIR then b ← isdirempty i; mret (negb b) else mret false);
          if busy : bool then
            fs (iunlockput (Some i));;
            sys_unlink_bad d
          else
            k ← fs (writei d (Kernel (replicate 16 0)) off 16);
            (if negb (k =? 16) then panic "unlink: writei" else skip);;
            (if type x =? T_DIR then add_nlink d (-1) else skip);;
            fs (iunlockput (Some d));;
            add_nlink i (-1);;
            fs (iunlockput (Some i));;
            end_op;;
            mret 0
      end
  end.

(** ** Creation *)

Definition set_node (ma mi nl : Z) (x : inode) : inode :=
  mkInode (dev x) (inum x) (ref x) (ilocked x) (valid x) (type x) ma mi nl (isize x) (addrs x).

Definition create_fail (d i : nat) : prog st (option nat) :=
  fs (mod_inode i (set_nlink 0));;
  fs (iupdate i);;
  fs (iunlockput (Some i));;
  fs (iunlockput (Some d));;
  mret None.
(** [major] and [minor] are converted to [short] at the call. *)
Definition create (path : list Z) (t ma mi : Z) (name : list Z) : prog st (option nat) :=
  c ← get_cwd;
  r ← fs (nameiparent c path name);
  match fst r with
  | None => mret None
  | Some d =>
      fs (ilock (Some d));;
      e ← fs (dirlookup d (snd r));
      match e with
      | Some (i, _) =>
          fs (iunlockput (Some d));;
          fs (ilock (Some i));;
          x ← fs (get_inode i);
          if (t =? T_FILE) && ((type x =? T_FILE) || (type x =? T_DEVICE)) then mret (Some i)
          else fs (iunlockput (Some i));; mret None
      | None =>
          dp ← fs (get_inode d);
          ip ← fs (ialloc (dev dp) t);
          match ip with
          | None => fs (iunlockput (Some d));; mret None
          | Some i =>
              fs (ilock (Some i));;
              fs (mod_inode i (set_node (i16 ma) (i16 mi) 1));;
              fs (iupdate i);;
              x ← fs (get_inode i);
              bad ← (if t =? T_DIR then
                       k ← fs (dirlink i [46] (inum x));
                       if k <? 0 then mret true
                       else k ← fs (dirlink i [46; 46] (inum dp)); mret (k <? 0)
                     else mret false);
              if bad : bool then create_fail d i
              else
                k ← fs (dirlink d (snd r) (inum x));
                if k <? 0 then create_fail d i
                else
                  (if t =? T_DIR then add_nlink d 1 else skip);;
                  fs (iunlockput (Some d));;
                  mret (Some i)
          end
      end
  end.

(** [filealloc] and [fdalloc] of [sys_open]: the file, or [None] after the file
    is given back. *)
Definition open_file : prog st (option (nat * Z)) :=
  r ← on_files filealloc;
  match r with
  | None => mret None
  | Some f =>
      fd ← fdalloc f;
      if fd <? 0 then on_files (fileclose f);; mret None
      else mret (Some (f, fd))
  end.
Definition b2z (b : bool) : Z := if b then 1 else 0.
Definition set_open (t : fd_type) (i : nat) (ma o rd wr : Z) (x : file) : file :=
  mkFile t (fref x) rd wr (pipe x) (Some i) o ma.

Definition open_fail (i : nat) : prog st Z :=
  fs (iunlockput (Some i));;
  end_op;;
  mret (-1).
(** From the locked inode on. *)
Definition open_inode (i : nat) (omode : Z) : prog st Z :=
  x ← fs (get_inode i);
  if (type x =? T_DEVICE) && ((major x <? 0) || (NDEV <=? major x)) then open_fail i
  else
    r ← open_file;
    match r with
    | None => open_fail i
    | Some (f, fd) =>
        let wronly := negb (Z.land omode O_WRONLY =? 0) in
        let rdwr := negb (Z.land omode O_RDWR =? 0) in
        on_files (mod_file f (λ y,
          set_open (if type x =? T_DEVICE then FD_DEVICE else FD_INODE) i (if type x =? T_DEVICE then major x else fmajor y)
            (if type x =? T_DEVICE then off y else 0) (b2z (negb wronly)) (b2z (wronly || rdwr)) y));;
        (if negb (Z.land omode O_TRUNC =? 0) && (type x =? T_FILE) then fs (itrunc i) else skip);;
        fs (iunlock (Some i));;
        end_op;;
        mret fd
    end.
Definition sys_open (name : list Z) : prog st Z :=
  omode ← argint 1;
  path ← argstr 0 MAXPATH;
  if fst path <? 0 then mret (-1)
  else
  begin_op;;
  if negb (Z.land omode O_CREATE =? 0) then
    r ← create (snd path) T_FILE 0 0 name;
    match r with None => end_op;; mret (-1) | Some i => open_inode i omode end
  else
    c ← get_cwd;
    r ← fs (namei c (snd path));
    match r with
    | None => end_op;; mret (-1)
    | Some i =>
        fs (ilock (Some i));;
        x ← fs (get_inode i);
        if (type x =? T_DIR) && negb (omode =? O_RDONLY) then open_fail i
        else open_inode i omode
    end.

(** The common end of [sys_mkdir] and [sys_mknod]. *)
Definition make (t ma mi : Z) (name : list Z) : prog st Z :=
  path ← argstr 0 MAXPATH;
  r ← (if fst path <? 0 then mret None else create (snd path) t ma mi name);
  match r with
  | None => end_op;; mret (-1)
  | Some i => fs (iunlockput (Some i));; end_op;; mret 0
  end.
Definition sys_mkdir (name : list Z) : prog st Z := begin_op;; make T_DIR 0 0 name.
Definition sys_mknod (name : list Z) : prog st Z :=
  begin_op;;
  ma ← argint 1;
  mi ← argint 2;
  make T_DEVICE ma mi name.

Definition sys_chdir : prog st Z :=
  begin_op;;
  path ← argstr 0 MAXPATH;
  c ← get_cwd;
  r ← (if fst path <? 0 then mret None else fs (namei c (snd path)));
  match r with
  | None => end_op;; mret (-1)
  | Some i =>
      fs (ilock (Some i));;
      x ← fs (get_inode i);
      if negb (type x =? T_DIR) then
        fs (iunlockput (Some i));;
        end_op;;
        mret (-1)
      else
        fs (iunlock (Some i));;
        fs (iput c);;
        end_op;;
        modify (λ s, mkSt (fl s) (ofile s) i (regs s));;
        mret 0
  end.

(** ** Pipes *)

Definition set_pipe (p : nat) (rd wr : Z) (x : file) : file :=
  mkFile FD_PIPE (fref x) rd wr (Some p) (ip x) (off x) (fmajor x).
(** [pipealloc]: the ends for reading and for writing. *)
Definition pipealloc : prog file_st (option (nat * nat)) :=
  r0 ← filealloc;
  match r0 with
  | None => mret None
  | Some f0 =>
      r1 ← filealloc;
      match r1 with
      | None => fileclose f0;; mret None
      | Some f1 =>
          pi ← on_pipes pipe_new;
          match pi with
          | None => fileclose f0;; fileclose f1;; mret None
          | Some p =>
              mod_file f0 (set_pipe p 1 0);;
              mod_file f1 (set_pipe p 0 1);;
              mret (Some (f0, f1))
          end
      end
  end.
Definition sys_pipe : prog st Z :=
  fdarray ← argaddr 0;
  r ← on_files pipealloc;
  match r with
  | None => mret (-1)
  | Some (rf, wf) =>
      let close := on_files (fileclose rf);; on_files (fileclose wf);; mret (-1) in
      fd0 ← fdalloc rf;
      if fd0 <? 0 then close
      else
        fd1 ← fdalloc wf;
        if fd1 <? 0 then set_ofile fd0 None;; close
        else
          r0 ← fs (on_user (copyout fdarray (le_enc 4 fd0)));
          r1 ← (if r0 <? 0 then mret (-1) else fs (on_user (copyout (u64 (fdarray + 4)) (le_enc 4 fd1))));
          if r1 <? 0 then
            set_ofile fd0 None;;
            set_ofile fd1 None;;
            close
          else mret 0
  end.

(** ** Dispatch *)

Definition NELEM_syscalls : Z := 33.
Definition set_a0 (v : Z) : prog st unit := modify (λ s, mkSt (fl s) (ofile s) (cwd s) (<[0%nat := u64 v]> (regs s))).
(** [syscall]: [regs] has the registers a0 to a7, [syscalls] the functions. *)
Definition syscall (syscalls : Z → option (prog st Z)) : prog st unit :=
  r ← gets regs;
  let num := i32 (default 0 (r !! 7%nat)) in
  match (if (0 <? num) && (num <? NELEM_syscalls) then syscalls num else None) with
  | Some f => v ← f; set_a0 v
  | None => set_a0 (-1)
  end.
End calls.
End Sysfile.
