(* ===== verification/SysfileProofs.v ===== *)
(** * Descriptors and references

    Every entry of the table of open files has as many references as there are
    descriptors of the process and other holders of it.  A function that takes a
    file over, or hands it on, moves one reference. *)

From S2P Require Import Prelude Bytes BufCache Journal Log UserMem Fs File FileProofs Sysfile.
Import Bytes Txn UserMem Fs File Sysfile.
Import FileProofs (free_file_ok).

Module SysfileProofs.

Section refs.
Context {S M P : Type} `{TX : Transactions S} `{UM : UserMemory M} `{ST : Streams M P} `{SR : Strings M} `{PP : PipePages P}.
#[local] Abbreviation fst_ := (@fst_ S M).
#[local] Abbreviation file_st := (@File.st S M P).
#[local] Abbreviation st := (@Sysfile.st S M P).

(** The descriptors of the process on file [f]. *)
Definition use1 (o : option nat) (f : nat) : Z := if bool_decide (o = Some f) then 1 else 0.
Fixpoint uses (l : list (option nat)) (f : nat) : Z := match l with [] => 0 | o :: l' => use1 o f + uses l' f end.
Lemma uses_insert l : ∀ i o p f, l !! i = Some o → uses (<[i := p]> l) f = uses l f - use1 o f + use1 p f.
Proof.
  induction l as [|q l IH]; intros [|i] o p f H; try done; simpl in *; [injection H as ->; lia|]. rewrite (IH i o p f H). lia.
Qed.
Lemma uses_range l f : 0 ≤ uses l f ≤ Z.of_nat (length l).
Proof. induction l as [|o l IH]; cbn [uses length]; [lia|]. unfold use1. case_bool_decide; lia. Qed.
Lemma uses_in l f : Some f ∈ l → 1 ≤ uses l f.
Proof.
  intros [i H]%list_elem_of_lookup_1. pose proof (uses_insert l i (Some f) None f H) as E. unfold use1 in E. rewrite bool_decide_true, bool_decide_false in E by done.
  pose proof (uses_range (<[i := None]> l) f). lia.
Qed.

(** [ext f] is the number of references to [f] that others than the descriptor
    table of the process hold. *)
Definition frefs (s : file_st) : list Z := fref <$> files s.
Record fd_inv (ext : nat → Z) (s : st) : Prop := {
  fd_len : length (ofile s) = Z.to_nat NOFILE;
  fd_lock : ftlock (fl s) = false;
  fd_ref f n : frefs (fl s) !! f = Some n → n = ext f + uses (ofile s) f;
  fd_open f : Some f ∈ ofile s → (f < length (frefs (fl s)))%nat;
  fd_ext f : 0 < ext f → (f < length (frefs (fl s)))%nat }.

Definition few (ext : nat → Z) : Prop := ∀ f, 0 ≤ ext f < 2 ^ 30.
Definition bump (f : nat) (d : Z) (ext : nat → Z) : nat → Z := λ g, ext g + (if decide (g = f) then d else 0).

(** From a state with references [ext] to one with [ext']. *)
Definition moves {A} (ext : nat → Z) (m : prog st A) (ext' : A → nat → Z) : Prop :=
  ∀ s r s', fd_inv ext s → m s = Ok (r, s') → fd_inv (ext' r) s'.

Lemma moves_bind {A B} ext (m : prog st A) (k : A → prog st B) mid post :
  moves ext m mid → (∀ r, moves (mid r) (k r) post) → moves ext (r ← m; k r) post.
Proof. intros H1 H2 s r s' I H. apply bind_inv in H as (x & s1 & E1 & E2). eapply H2; [by eapply H1|done]. Qed.
Lemma moves_ret {A} ext (r : A) : moves ext (mret r) (λ _, ext).
Proof. by intros s r' s' I [= <- <-]. Qed.
Lemma moves_panic {A} ext msg (post : A → nat → Z) : moves ext (panic msg) post.
Proof. done. Qed.
Lemma moves_spin {A} ext (post : A → nat → Z) : moves ext spin post.
Proof. done. Qed.
Lemma moves_fault {A} ext (post : A → nat → Z) : moves ext fault post.
Proof. done. Qed.
Lemma moves_ext {A} ext (m : prog st A) post post' : (∀ r f, post r f = post' r f) → moves ext m post → moves ext m post'.
Proof.
  intros H Hm s r s' I E. destruct (Hm s r s' I E) as [I1 I2 I3 I4 I5]. constructor; try done; [intros f n Hn|intros f]; rewrite <- H; [by apply I3|by apply I5].
Qed.

(** Functions that do not change the tables. *)
Lemma moves_same {A} ext (m : prog st A) :
  (∀ s r s', m s = Ok (r, s') → frefs (fl s') = frefs (fl s) ∧ ftlock (fl s') = ftlock (fl s) ∧ ofile s' = ofile s) → moves ext m (λ _, ext).
Proof.
  intros H s r s' [I1 I2 I3 I4 I5] E. destruct (H s r s' E) as (E1 & E2 & E3). constructor; rewrite ?E1, ?E2, ?E3; done.
Qed.
Lemma moves_fs {A} ext (m : prog fst_ A) : moves ext (fs m) (λ _, ext).
Proof.
  apply moves_same. intros s r s' E. unfold fs, on_files, on_fs in E. destruct (m (fsys (fl s))) as [[a x]| | |]; try done. by injection E as <- <-.
Qed.
Lemma moves_gets {A} ext (g : st → A) : moves ext (gets g) (λ _, ext).
Proof. apply moves_same. by intros s r s' [= <- <-]. Qed.
Lemma moves_argraw ext n : moves ext (argraw n) (λ _, ext).
Proof. apply moves_same. intros s r s' E. unfold argraw in E. destruct (if (n <? 6)%nat then regs s !! n else None); [|done]. by injection E as <- <-. Qed.
Lemma moves_begin ext : moves ext begin_op (λ _, ext).
Proof. apply (moves_fs ext (on_log Txn.begin_op)). Qed.
Lemma moves_end ext : moves ext end_op (λ _, ext).
Proof. apply (moves_fs ext (on_log Txn.end_op)). Qed.

(** ** The functions of kernel/file.c *)

Definition kept {A} (m : prog file_st A) : Prop := ∀ s r s', m s = Ok (r, s') → frefs s' = frefs s ∧ ftlock s' = ftlock s.
Lemma kept_bind {A B} (m : prog file_st A) (k : A → prog file_st B) : kept m → (∀ r, kept (k r)) → kept (r ← m; k r).
Proof.
  intros H1 H2 s r s' H. apply bind_inv in H as (x & s1 & E1 & E2). destruct (H1 _ _ _ E1) as [<- <-], (H2 x _ _ _ E2) as [<- <-]. done.
Qed.
Lemma kept_ret {A} (r : A) : kept (mret r).
Proof. by intros s r' s' [= <- <-]. Qed.
Lemma kept_none {A} (r : res (A * file_st)) : (∀ x, r ≠ Ok x) → kept (λ _, r).
Proof. intros H s x s' E. by destruct (H (x, s')). Qed.
Lemma kept_panic {A} msg : kept (panic msg : prog file_st A).
Proof. by intros s r s'. Qed.
Lemma kept_fault {A} : kept (fault : prog file_st A).
Proof. by intros s r s'. Qed.
Lemma kept_spin {A} : kept (spin : prog file_st A).
Proof. by intros s r s'. Qed.
Lemma kept_fs {A} (m : prog fst_ A) : kept (on_fs m).
Proof. intros s r s' E. unfold on_fs in E. destruct (m (fsys s)) as [[a x]| | |]; try done. by injection E as <- <-. Qed.
Lemma kept_streams {A} (m : prog (M * P) A) : kept (on_streams m).
Proof. intros s r s' E. unfold on_streams in E. destruct (m _) as [[a [u p]]| | |]; try done. by injection E as <- <-. Qed.
Lemma kept_pipes {A} (m : prog P A) : kept (on_pipes m).
Proof. intros s r s' E. unfold on_pipes in E. destruct (m _) as [[a p]| | |]; try done. by injection E as <- <-. Qed.
Lemma kept_get_file f : kept (get_file f).
Proof. intros s r s' E. unfold get_file in E. destruct (files s !! f); try done. by injection E as <- <-. Qed.
Lemma kept_deref p : kept (deref p).
Proof. destruct p; [apply kept_ret|apply kept_fault]. Qed.
Lemma kept_mod_file f g : (∀ x, fref (g x) = fref x) → kept (mod_file f g).
Proof.
  intros H s r s' E. unfold mod_file in E. destruct (files s !! f) as [x|] eqn:Hx; [|done]. injection E as <- <-. split; [|done].
  unfold frefs, with_file, with_files. cbn. rewrite list_fmap_insert, H. apply list_insert_id. by rewrite list_lookup_fmap, Hx.
Qed.
Lemma kept_files {A} ext (m : prog file_st A) : kept m → moves ext (on_files m) (λ _, ext).
Proof.
  intros H. apply moves_same. intros s r s' E. unfold on_files in E. destruct (m (fl s)) as [[a x]| | |] eqn:E1; try done. injection E as <- <-.
  destruct (H _ _ _ E1). done.
Qed.

Definition bump_new (r : option nat) (ext : nat → Z) : nat → Z := match r with Some f => bump f 1 ext | None => ext end.
Lemma bump_at f d ext : bump f d ext f = ext f + d.
Proof. unfold bump. by rewrite decide_True. Qed.
Lemma bump_ne f d ext g : g ≠ f → bump f d ext g = ext g.
Proof. intros H. unfold bump. rewrite decide_False by done. lia. Qed.

(** The references of one file change by [d]. *)
Lemma inv_one ext s x f d n : fd_inv ext s → ftlock x = false → frefs (fl s) !! f = Some n → frefs x = <[f := n + d]> (frefs (fl s)) →
  fd_inv (bump f d ext) (mkSt x (ofile s) (cwd s) (regs s)).
Proof.
  intros [I1 I2 I3 I4 I5] HL Hn Hf. constructor; cbn [ofile fl]; try done.
  - intros g q. rewrite Hf. intros [(<- & <- & _)|[Hne Hq]]%list_lookup_insert_Some.
    + rewrite bump_at, (I3 _ _ Hn). lia.
    + rewrite bump_ne by done. by apply I3.
  - intros g Hg. rewrite Hf, length_insert. by apply I4.
  - intros g Hg. rewrite Hf, length_insert. destruct (decide (g = f)) as [->|Hne]; [by eapply lookup_lt_Some|]. rewrite bump_ne in Hg by done. by apply I5.
Qed.
Lemma moves_one {A} ext (m : prog file_st A) f d :
  (∀ s r x, fd_inv ext s → m (fl s) = Ok (r, x) → ftlock x = false ∧ ∃ n, frefs (fl s) !! f = Some n ∧ frefs x = <[f := n + d]> (frefs (fl s))) →
  moves ext (on_files m) (λ _, bump f d ext).
Proof.
  intros H s r s' I E. unfold on_files in E. destruct (m (fl s)) as [[y x]| | |] eqn:E1; try done. injection E as <- <-.
  destruct (H _ _ _ I E1) as (HL & n & Hn & Hf). by eapply inv_one.
Qed.

Lemma get_fref f s x s' : get_file f s = Ok (x, s') → s' = s ∧ frefs s !! f = Some (fref x) ∧ files s !! f = Some x.
Proof. unfold get_file, frefs. rewrite list_lookup_fmap. destruct (files s !! f); [|done]. by intros [= <- <-]. Qed.
Lemma mod_fref f g s s' : mod_file f g s = Ok (tt, s') → ∃ x, files s !! f = Some x ∧ s' = with_file f (g x) s ∧ frefs s' = <[f := fref (g x)]> (frefs s).
Proof.
  unfold mod_file. destruct (files s !! f) as [x|]; [|done]. intros [= <-]. exists x. split_and!; try done. unfold frefs, with_file, with_files. cbn. by rewrite list_fmap_insert.
Qed.
Lemma acquire_inv s r s' : acquire_ft s = Ok (r, s') → frefs s' = frefs s ∧ ftlock s' = true ∧ files s' = files s.
Proof. unfold acquire_ft. destruct (ftlock s); [done|]. by intros [= <- <-]. Qed.
Lemma release_inv s r s' : release_ft s = Ok (r, s') → frefs s' = frefs s ∧ ftlock s' = false ∧ files s' = files s.
Proof. unfold release_ft. destruct (ftlock s); [|done]. by intros [= <- <-]. Qed.

Lemma moves_filedup ext f : (∀ g, ext g < 2 ^ 31 - 32) → moves ext (on_files (filedup f)) (λ _, bump f 1 ext).
Proof.
  intros He. apply moves_one. intros s r x [I1 I2 I3 I4 I5] H. unfold filedup in H. apply bind_inv in H as ([] & s1 & (F1 & _ & G1)%acquire_inv & H).
  apply bind_inv in H as (y & s2 & (-> & Hy & _)%get_fref & H). destruct (Z.ltb_spec (fref y) 1); [done|].
  apply bind_inv in H as ([] & s3 & (z & Hz & _ & F3)%mod_fref & H). apply bind_inv in H as ([] & s4 & (F4 & L4 & _)%release_inv & H). injection H as <- <-.
  split; [done|]. exists (fref y). rewrite F1 in *. split; [done|]. rewrite F4, F3. cbn [fref set_fref]. pose proof (I3 _ _ Hy) as En. specialize (He f).
  pose proof (uses_range (ofile s) f) as Hu. rewrite I1 in Hu. unfold NOFILE in Hu. by rewrite i32_small by lia.
Qed.

Lemma moves_fileclose ext f : moves ext (on_files (fileclose f)) (λ _, bump f (-1) ext).
Proof.
  apply moves_one. intros s r x _ H. unfold fileclose in H. apply bind_inv in H as ([] & s1 & (F1 & _ & G1)%acquire_inv & H).
  apply bind_inv in H as (y & s2 & (-> & Hy & _)%get_fref & H). destruct (Z.ltb_spec (fref y) 1); [done|].
  apply bind_inv in H as ([] & s3 & (z & Hz & Es3 & F3)%mod_fref & H). cbn [fref set_fref] in F3.
  assert (ftlock x = false ∧ frefs x = <[f := fref y - 1]> (frefs (fl s))) as [HL HF]; [|split; [done|]; exists (fref y); rewrite <- F1; split; [done|]; by rewrite HF, F1].
  destruct (Z.ltb_spec 0 (fref y - 1)) as [Hp|Hp].
  - apply release_inv in H as (F4 & L4 & _). split; [done|]. by rewrite F4, F3, F1.
  - apply bind_inv in H as (w & s4 & (-> & Hw & _)%get_fref & H). apply bind_inv in H as ([] & s5 & (w5 & _ & _ & F5)%mod_fref & H).
    apply bind_inv in H as ([] & s6 & (w6 & W6 & _ & F6)%mod_fref & H). apply bind_inv in H as ([] & s7 & (F7 & L7 & _)%release_inv & H).
    assert (fref w6 = 0) as E6.
    { assert (frefs s5 !! f = Some (fref w6)) as K by (unfold frefs; by rewrite list_lookup_fmap, W6). rewrite F5, list_lookup_insert_eq in K; [by injection K|].
      rewrite F3, length_insert. by eapply lookup_lt_Some. }
    assert (ftlock x = ftlock s7 ∧ frefs x = frefs s7) as [-> ->].
    { assert (∀ m : prog file_st unit, kept m → m s7 = Ok (r, x) → ftlock x = ftlock s7 ∧ frefs x = frefs s7) as K by (intros m Hm Em; by destruct (Hm _ _ _ Em)).
      revert H. apply K. destruct (ftype w); [apply kept_ret| | |]; apply kept_bind; try apply kept_deref; intros ?; [apply kept_pipes| |];
      (apply kept_bind; [apply kept_fs|intros ?]; apply kept_bind; [apply kept_fs|intros ?]; apply kept_fs). }
    split; [done|]. rewrite F7, F6, F5, F3, F1. cbn [fref set_ftype set_fref]. rewrite E6, !list_insert_insert_eq. f_equal. lia.
Qed.

Lemma moves_filealloc ext : moves ext (on_files filealloc) (λ r, bump_new r ext).
Proof.
  intros s r s' I E. pose proof (fd_lock _ _ I) as HL. unfold on_files in E. destruct (filealloc (fl s)) as [[r' x]| | |] eqn:E1; try done. injection E as <- <-.
  unfold filealloc in E1. apply bind_inv in E1 as ([] & s1 & (F1 & _ & G1)%acquire_inv & H). apply bind_inv in H as (? & ? & [= <- <-] & H).
  pose proof (free_file_ok (files s1) 0) as Hfree. destruct (free_file 0 (files s1)) as [f|].
  - destruct Hfree as (i & y & -> & Hy & Hr & _). cbn [Nat.add] in *. apply bind_inv in H as ([] & s3 & (z & Hz & _ & F3)%mod_fref & H).
    apply bind_inv in H as ([] & s4 & (F4 & L4 & _)%release_inv & H). injection H as <- <-. cbn [bump_new]. apply (inv_one ext s s4 i 1 0 I L4).
    + rewrite <- F1. unfold frefs. by rewrite list_lookup_fmap, Hy, <- Hr.
    + by rewrite F4, F3, F1.
  - apply bind_inv in H as ([] & s4 & (F4 & L4 & _)%release_inv & H). injection H as <- <-. cbn [bump_new]. destruct I as [I1 I2 I3 I4 I5].
    constructor; cbn [ofile fl]; rewrite ?F4, ?F1; done.
Qed.

(** ** The descriptor table *)

Lemma free_fd_ok l k : ∀ fd, 0 ≤ fd → match free_fd k fd l with
  | Some d => fd ≤ d < fd + Z.of_nat k ∧ l !! Z.to_nat d = Some None ∧ ∀ e, fd ≤ e < d → l !! Z.to_nat e ≠ Some None
  | None => ∀ e, fd ≤ e < fd + Z.of_nat k → l !! Z.to_nat e ≠ Some None
  end.
Proof.
  induction k as [|k IH]; intros fd Hfd; cbn [free_fd]; [intros; lia|]. specialize (IH (fd + 1) ltac:(lia)).
  assert (l !! Z.to_nat fd = Some None ∨ l !! Z.to_nat fd ≠ Some None ∧
    match l !! Z.to_nat fd with Some None => Some fd | _ => free_fd k (fd + 1) l end = free_fd k (fd + 1) l) as [E|[E ->]]
    by (destruct (l !! Z.to_nat fd) as [[|]|]; (by left) || by right).
  - rewrite E. split_and!; [lia..|done|]. intros; lia.
  - destruct (free_fd k (fd + 1) l) as [d|].
    + destruct IH as (H1 & H2 & H3). split; [lia|]. split; [done|]. intros e He. destruct (decide (e = fd)) as [->|]; [done|]. apply H3. lia.
    + intros e He. destruct (decide (e = fd)) as [->|]; [done|]. apply IH. lia.
Qed.

(** A descriptor changes from [o] to [p]. *)
Lemma inv_fd ext s fd o p : fd_inv ext s → ofile s !! Z.to_nat fd = Some o → (∀ f, p = Some f → (f < length (frefs (fl s)))%nat) →
  fd_inv (λ g, ext g + use1 o g - use1 p g) (mkSt (fl s) (<[Z.to_nat fd := p]> (ofile s)) (cwd s) (regs s)).
Proof.
  intros [I1 I2 I3 I4 I5] Ho Hp. constructor; cbn [ofile fl]; try done.
  - by rewrite length_insert.
  - intros g n Hn. rewrite (uses_insert _ _ _ _ _ Ho), (I3 _ _ Hn). lia.
  - intros g [i Hg]%list_elem_of_lookup_1. apply list_lookup_insert_Some in Hg as [(_ & -> & _)|[_ Hg]]; [by apply Hp|]. apply I4. by eapply list_elem_of_lookup_2.
  - intros g Hg. unfold use1 in Hg. destruct (bool_decide (o = Some g)) eqn:Eo; [|apply I5; destruct (bool_decide (p = Some g)); lia].
    apply bool_decide_eq_true in Eo. subst o. apply I4. by eapply list_elem_of_lookup_2.
Qed.

Lemma inv_fdalloc ext s f r s' : fd_inv ext s → (f < length (frefs (fl s)))%nat → fdalloc f s = Ok (r, s') →
  frefs (fl s') = frefs (fl s) ∧ fd_inv (if r <? 0 then ext else bump f (-1) ext) s' ∧
  ofile s' = (if r <? 0 then ofile s else <[Z.to_nat r := Some f]> (ofile s)) ∧ (0 ≤ r → ofile s !! Z.to_nat r = Some None).
Proof.
  intros I Hf H. unfold fdalloc in H. apply bind_inv in H as (? & ? & [= <- <-] & H). pose proof (free_fd_ok (ofile s) (Z.to_nat NOFILE) 0 ltac:(lia)) as Hfree.
  destruct (free_fd _ _ _) as [fd|]; [|injection H as <- <-; split_and!; done || lia]. destruct Hfree as (H1 & H2 & _). injection H as <- <-. split; [done|].
  rewrite (proj2 (Z.ltb_ge fd 0)) by lia. split; [|done]. destruct (inv_fd ext s fd None (Some f) I H2 ltac:(by intros g [= <-])) as [K1 K2 K3 K4 K5].
  assert (∀ g, ext g + use1 None g - use1 (Some f) g = bump f (-1) ext g) as He.
  { intros g. unfold use1. rewrite (bool_decide_false (None = Some g)) by done. case_bool_decide as Eg; [injection Eg as ->; rewrite bump_at; lia|].
    rewrite bump_ne by congruence. lia. }
  constructor; try done; [intros g n Hn; rewrite <- He; by apply K3|intros g Hg; rewrite <- He in Hg; by apply K5].
Qed.
End refs.

Create HintDb moves.
#[export] Hint Resolve moves_ret moves_panic moves_spin moves_fault moves_fs moves_gets moves_argraw moves_begin moves_end : moves.
#[export] Hint Resolve kept_ret kept_panic kept_fault kept_spin kept_fs kept_streams kept_pipes kept_get_file kept_deref : moves.

(** A function made of pieces that keep the references. *)
Ltac keep := repeat first
  [ solve [eauto with moves]
  | apply kept_mod_file; intros; reflexivity
  | eapply moves_bind; [|intros ?]
  | apply kept_bind; [|intros ?]
  | match goal with |- moves _ (if ?b then _ else _) _ => destruct b end
  | match goal with |- kept (if ?b then _ else _) => destruct b end
  | match goal with |- kept (match ?x with _ => _ end) => destruct x end
  | match goal with |- moves _ (match ?x with _ => _ end) _ => destruct x end ].

Section calls.
Context {S M P : Type} `{TX : Transactions S} `{UM : UserMemory M} `{ST : Streams M P} `{SR : Strings M} `{PP : PipePages P}.
#[local] Abbreviation st := (@Sysfile.st S M P).

Lemma kept_fileread f a n : kept (fileread f a n).
Proof. unfold fileread. keep. Qed.
Lemma kept_filestat g f a : kept (filestat g f a : prog (@File.st S M P) Z).
Proof. unfold filestat. keep. Qed.
Lemma kept_filewrite_loop fuel f a n : ∀ i, kept (filewrite_loop fuel f a n i : prog (@File.st S M P) Z).
Proof.
  induction fuel as [|fuel IH]; intros i; cbn [filewrite_loop]; [keep|]. destruct (i <? n); [|keep]. unfold File.begin_op, File.end_op. keep.
Qed.
Lemma kept_filewrite f a n : kept (filewrite f a n).
Proof. unfold filewrite. pose proof kept_filewrite_loop. keep. Qed.

Lemma moves_argint ext n : moves ext (argint n : prog st Z) (λ _, ext).
Proof. unfold argint. keep. Qed.
Lemma moves_fetchstr ext addr max : moves ext (fetchstr addr max : prog st _) (λ _, ext).
Proof. unfold fetchstr. keep. Qed.
Lemma moves_argstr ext n max : moves ext (argstr n max : prog st _) (λ _, ext).
Proof. unfold argstr, argaddr. pose proof moves_fetchstr. keep. Qed.
#[local] Hint Resolve moves_argint moves_argstr : moves.
Lemma moves_argaddr ext n : moves ext (argaddr n : prog st Z) (λ _, ext).
Proof. apply moves_argraw. Qed.
#[local] Hint Resolve moves_argaddr : moves.
Lemma moves_cwd ext : moves ext (get_cwd : prog st _) (λ _, ext).
Proof. apply moves_gets. Qed.
Lemma moves_set_cwd ext i : moves ext (modify (λ s : st, mkSt (fl s) (ofile s) i (regs s))) (λ _, ext).
Proof. apply moves_same. by intros s r s' [= <- <-]. Qed.
#[local] Hint Resolve moves_cwd moves_set_cwd : moves.
Lemma moves_argfd ext n : moves ext (argfd n : prog st _) (λ _, ext).
Proof. unfold argfd. keep. Qed.
Lemma moves_add_nlink ext i d : moves ext (add_nlink i d : prog st _) (λ _, ext).
Proof. unfold add_nlink. keep. Qed.
#[local] Hint Resolve moves_argfd moves_add_nlink : moves.
Lemma moves_isdirempty ext d : moves ext (isdirempty d : prog st _) (λ _, ext).
Proof.
  unfold isdirempty. assert (∀ fuel off, moves ext (isdirempty_loop fuel d off : prog st _) (λ _, ext)) as H; [|keep].
  induction fuel as [|fuel IH]; intros off; cbn [isdirempty_loop]; keep.
Qed.
#[local] Hint Resolve moves_isdirempty : moves.
Lemma moves_link ext name : moves ext (sys_link name : prog st _) (λ _, ext).
Proof. unfold sys_link, sys_link_bad. keep. Qed.
Lemma moves_unlink ext name : moves ext (sys_unlink name : prog st _) (λ _, ext).
Proof. unfold sys_unlink, sys_unlink_bad. keep. Qed.
Lemma moves_create ext path t ma mi name : moves ext (create path t ma mi name : prog st _) (λ _, ext).
Proof. unfold create, create_fail. keep. Qed.
#[local] Hint Resolve moves_create : moves.
Lemma moves_mkdir ext name : moves ext (sys_mkdir name : prog st _) (λ _, ext).
Proof. unfold sys_mkdir, make. keep. Qed.
Lemma moves_mknod ext name : moves ext (sys_mknod name : prog st _) (λ _, ext).
Proof. unfold sys_mknod, make. keep. Qed.
Lemma moves_chdir ext : moves ext (sys_chdir : prog st _) (λ _, ext).
Proof. unfold sys_chdir. keep. Qed.
Lemma moves_read ext : moves ext (sys_read : prog st _) (λ _, ext).
Proof. unfold sys_read. pose proof (λ f p n, kept_files ext _ (kept_fileread f p n)). keep. Qed.
Lemma moves_write ext : moves ext (sys_write : prog st _) (λ _, ext).
Proof. unfold sys_write. pose proof (λ f p n, kept_files ext _ (kept_filewrite f p n)). keep. Qed.
Lemma moves_fstat ext g : moves ext (sys_fstat g : prog st _) (λ _, ext).
Proof. unfold sys_fstat. pose proof (λ f p, kept_files ext _ (kept_filestat g f p)). keep. Qed.

(** ** The calls that open and close *)

Lemma inv_ext ext ext' (s : st) : (∀ f, ext f = ext' f) → fd_inv ext s → fd_inv ext' s.
Proof. intros H [I1 I2 I3 I4 I5]. constructor; try done; [intros f n Hn|intros f]; rewrite <- H; [by apply I3|by apply I5]. Qed.
Lemma bump_back f d e ext g : bump f e (bump f d ext) g = bump f (d + e) ext g.
Proof. destruct (decide (g = f)) as [->|H]; [rewrite !bump_at; lia|by rewrite !bump_ne]. Qed.
Lemma bump_0 f ext g : bump f 0 ext g = ext g.
Proof. destruct (decide (g = f)) as [->|H]; [rewrite bump_at; lia|by rewrite bump_ne]. Qed.
Lemma few_bump f d ext g : few ext → -1 ≤ d ≤ 2 → bump f d ext g < 2 ^ 31 - 32.
Proof. intros H Hd. destruct (decide (g = f)) as [->|Hne]; [rewrite bump_at; specialize (H f); lia|rewrite bump_ne by done; specialize (H g); lia]. Qed.

Lemma argfd_ok n (s : st) r s' : argfd n s = Ok (r, s') → s' = s ∧ ∀ fd f, r = Some (fd, f) → 0 ≤ fd < NOFILE ∧ ofile s !! Z.to_nat fd = Some (Some f).
Proof.
  intros H. unfold argfd, argint in H. apply bind_inv in H as (v & s1 & H1 & H). apply bind_inv in H1 as (w & s2 & H1 & H2). injection H2 as <- <-.
  unfold argraw in H1. destruct (if (n <? 6)%nat then regs s !! n else None) as [u|]; [|done]. injection H1 as <- <-.
  apply bind_inv in H as (l & s3 & [= <- <-] & H). injection H as <- <-. split; [done|]. intros fd f.
  destruct (Z.ltb_spec (i32 u) 0), (Z.leb_spec NOFILE (i32 u)); cbn [orb]; try done.
  destruct (ofile s !! Z.to_nat (i32 u)) as [[g|]|] eqn:E; try done. intros [= <- <-]. split; [lia|done].
Qed.

Lemma moves_dup ext : few ext → moves ext (sys_dup : prog st _) (λ _, ext).
Proof.
  intros Hfew s r s' I H. unfold sys_dup in H. apply bind_inv in H as (o & s1 & [-> Ho]%argfd_ok & H). destruct o as [[fd f]|]; [|by injection H as <- <-].
  destruct (Ho fd f eq_refl) as [_ Hfd]. apply bind_inv in H as (d & s2 & H1 & H).
  destruct (inv_fdalloc ext s f d s2 I (fd_open _ _ I f ltac:(by eapply list_elem_of_lookup_2)) H1) as (_ & I2 & _).
  destruct (d <? 0); [by injection H as <- <-|]. apply bind_inv in H as (q & s3 & H2 & H). injection H as <- <-.
  eapply inv_ext; [|eapply (moves_filedup (bump f (-1) ext) f); [intros g; by apply few_bump; [|lia]|exact I2|exact H2]].
  intros g. by rewrite bump_back, bump_0.
Qed.
Lemma moves_close ext : moves ext (sys_close : prog st _) (λ _, ext).
Proof.
  intros s r s' I H. unfold sys_close in H. apply bind_inv in H as (o & s1 & [-> Ho]%argfd_ok & H). destruct o as [[fd f]|]; [|by injection H as <- <-].
  destruct (Ho fd f eq_refl) as [_ Hfd]. apply bind_inv in H as ([] & s2 & [= <-] & H). apply bind_inv in H as ([] & s3 & H2 & H). injection H as <- <-.
  pose proof (inv_fd ext s fd (Some f) None I Hfd ltac:(done)) as I2. eapply inv_ext; [|eapply moves_fileclose; [exact I2|exact H2]].
  intros g. destruct (decide (g = f)) as [->|Hne]; [rewrite bump_at|rewrite bump_ne by done]; unfold use1.
  - rewrite bool_decide_true, bool_decide_false by done. lia.
  - rewrite !bool_decide_false by congruence. lia.
Qed.
Lemma moves_open_file ext : few ext → moves ext (open_file : prog st _) (λ _, ext).
Proof.
  intros Hfew s r s' I H. unfold open_file in H. apply bind_inv in H as (o & s1 & H1 & H). pose proof (moves_filealloc ext s o s1 I H1) as I1.
  destruct o as [f|]; cbn [bump_new] in I1; [|by injection H as <- <-]. apply bind_inv in H as (d & s2 & H2 & H).
  destruct (inv_fdalloc _ s1 f d s2 I1 (fd_ext _ _ I1 f ltac:(rewrite bump_at; specialize (Hfew f); lia)) H2) as (_ & I2 & _). destruct (d <? 0).
  - apply bind_inv in H as ([] & s3 & H3 & H). injection H as <- <-. eapply inv_ext; [|by eapply moves_fileclose]. intros g. by rewrite bump_back, bump_0.
  - injection H as <- <-. eapply inv_ext; [|exact I2]. intros g. by rewrite bump_back, bump_0.
Qed.
Lemma moves_open ext name : few ext → moves ext (sys_open name : prog st _) (λ _, ext).
Proof.
  intros Hfew. pose proof (moves_open_file ext Hfew). assert (∀ f g, (∀ x, fref (g x) = fref x) → moves ext (on_files (mod_file f g) : prog st _) (λ _, ext)) as Hmod
    by (intros f g Hg; by apply kept_files, kept_mod_file).
  assert (∀ i m, moves ext (open_inode i m : prog st _) (λ _, ext)) as Hop by (intros i m; unfold open_inode, open_fail; keep).
  unfold sys_open, open_fail. keep.
Qed.

Lemma on_files_bind {A B} (m : prog (@File.st S M P) A) (k : A → prog (@File.st S M P) B) (s : st) :
  on_files (r ← m; k r) s = (r ← on_files m; on_files (k r)) s.
Proof.
  unfold on_files, mbind, prog_bind. destruct (m (fl s)) as [[a x]| | |]; done.
Qed.
Lemma moves_files_bind {A B} ext (m : prog (@File.st S M P) A) (k : A → prog (@File.st S M P) B) mid post :
  moves ext (on_files m : prog st _) mid → (∀ r, moves (mid r) (on_files (k r) : prog st _) post) → moves ext (on_files (r ← m; k r) : prog st _) post.
Proof. intros H1 H2 s r s' I H. rewrite on_files_bind in H. eapply (moves_bind ext (on_files m)); [exact H1|exact H2|exact I|exact H]. Qed.

Definition bump_pipe (r : option (nat * nat)) (ext : nat → Z) : nat → Z :=
  match r with Some (f0, f1) => bump f1 1 (bump f0 1 ext) | None => ext end.
(** [fileclose] of a file that the caller holds. *)
Lemma moves_drop ext f : moves (bump f 1 ext) (on_files (fileclose f) : prog st _) (λ _, ext).
Proof. eapply moves_ext; [|apply moves_fileclose]. intros [] g. cbn. by rewrite bump_back, bump_0. Qed.
Lemma moves_pipealloc ext : moves ext (on_files pipealloc : prog st _) (λ r, bump_pipe r ext).
Proof.
  unfold pipealloc. eapply moves_files_bind; [apply moves_filealloc|]. intros [f0|]; cbn [bump_new]; [|intros s r s' I [= <- <-]; by destruct s].
  eapply moves_files_bind; [apply moves_filealloc|]. intros [f1|]; cbn [bump_new].
  - eapply moves_files_bind; [apply kept_files, kept_pipes|]. intros [p|].
    + eapply moves_files_bind; [by apply kept_files, kept_mod_file|]. intros []. eapply moves_files_bind; [by apply kept_files, kept_mod_file|]. intros [].
      intros s r s' I [= <- <-]. by destruct s.
    + assert (∀ ext' : nat → Z, moves ext' (on_files (mret None) : prog st (option (nat * nat))) (λ r, bump_pipe r ext')) as Hn by (intros e s r s' I [= <- <-]; by destruct s).
      apply (moves_files_bind _ _ _ (λ _, bump f1 1 ext)); [|intros []; eapply moves_files_bind; [apply (moves_drop ext f1)|intros []; apply Hn]].
      eapply moves_ext; [|apply moves_fileclose]. intros [] g. unfold bump. repeat case_decide; lia.
  - eapply moves_files_bind; [apply moves_drop|]. intros [] s r s' I [= <- <-]. by destruct s.
Qed.

Lemma inv_close2 ext (s : st) f0 f1 (r : Z) s' : fd_inv (bump f1 1 (bump f0 1 ext)) s →
  (on_files (fileclose f0);; on_files (fileclose f1);; mret (-1)) s = Ok (r, s') → fd_inv ext s'.
Proof.
  intros I H. apply bind_inv in H as ([] & s1 & H1 & H). apply bind_inv in H as ([] & s2 & H2 & H). injection H as <- <-.
  pose proof (moves_fileclose _ f0 s tt s1 I H1) as I1. pose proof (moves_fileclose _ f1 s1 tt s2 I1 H2) as I2. eapply inv_ext; [|exact I2].
  intros g. unfold bump. repeat case_decide; lia.
Qed.

Lemma fs_ofile {A} (m : prog (@Fs.fst_ S M) A) (s : st) r s' : fs m s = Ok (r, s') → ofile s' = ofile s.
Proof. unfold fs, on_files, on_fs. destruct (m (fsys (fl s))) as [[a x]| | |]; try done. by intros [= <- <-]. Qed.
(** The descriptor [fd] on [f] is taken back. *)
Lemma inv_take ext (s : st) fd f : fd_inv ext s → ofile s !! Z.to_nat fd = Some (Some f) →
  fd_inv (bump f 1 ext) (mkSt (fl s) (<[Z.to_nat fd := None]> (ofile s)) (cwd s) (regs s)).
Proof.
  intros I H. eapply inv_ext; [|exact (inv_fd ext s fd (Some f) None I H ltac:(done))]. intros g. unfold use1, bump. rewrite (bool_decide_false (None = Some g)) by done.
  case_decide as E; [rewrite bool_decide_true by congruence|rewrite bool_decide_false by congruence]; lia.
Qed.

Lemma moves_pipe ext : few ext → moves ext (sys_pipe : prog st _) (λ _, ext).
Proof.
  intros Hfew s r s' I H. unfold sys_pipe in H. apply bind_inv in H as (arr & s0 & H0 & H). pose proof (moves_argaddr ext 0%nat s arr s0 I H0) as I0.
  apply bind_inv in H as (o & s1 & H1 & H). pose proof (moves_pipealloc ext s0 o s1 I0 H1) as I1. destruct o as [[f0 f1]|]; cbn [bump_pipe] in I1; [|by injection H as <- <-].
  assert (0 ≤ ext f0 ∧ 0 ≤ ext f1) as [P0 P1] by (split; apply Hfew).
  apply bind_inv in H as (d0 & s2 & H2 & H). destruct (inv_fdalloc _ s1 f0 d0 s2 I1 (fd_ext _ _ I1 f0 ltac:(unfold bump; repeat case_decide; done || lia)) H2) as (_ & I2 & O2 & N2).
  destruct (Z.ltb_spec d0 0) as [Hd0|Hd0]; [by eapply inv_close2|]. specialize (N2 Hd0).
  apply bind_inv in H as (d1 & s3 & H3 & H). destruct (inv_fdalloc _ s2 f1 d1 s3 I2 (fd_ext _ _ I2 f1 ltac:(unfold bump; repeat case_decide; done || lia)) H3) as (_ & I3 & O3 & N3).
  assert (ofile s2 !! Z.to_nat d0 = Some (Some f0)) as L0 by (rewrite O2; apply list_lookup_insert_eq; by eapply lookup_lt_Some).
  destruct (Z.ltb_spec d1 0) as [Hd1|Hd1].
  - apply bind_inv in H as ([] & s4 & [= <-] & H). eapply inv_close2; [|exact H]. rewrite <- O3 in L0. eapply inv_ext; [|by apply inv_take]. intros g. unfold bump. repeat case_decide; lia.
  - specialize (N3 Hd1). assert (Z.to_nat d1 ≠ Z.to_nat d0) as Hne by congruence.
    apply bind_inv in H as (r0 & s4 & H4 & H). apply bind_inv in H as (r1 & s5 & H5 & H).
    pose proof (moves_fs _ _ _ _ _ I3 H4) as I4. assert (ofile s5 = ofile s3 ∧ fd_inv (bump f1 (-1) (bump f0 (-1) (bump f1 1 (bump f0 1 ext)))) s5) as [O5 I5].
    { apply fs_ofile in H4. destruct (r0 <? 0); [by injection H5 as <- <-|]. pose proof (moves_fs _ _ _ _ _ I4 H5). apply fs_ofile in H5. split; [congruence|done]. }
    destruct (r1 <? 0).
    + apply bind_inv in H as ([] & s6 & [= <-] & H). apply bind_inv in H as ([] & s7 & [= <-] & H). eapply inv_close2; [|exact H].
      assert (ofile s5 !! Z.to_nat d0 = Some (Some f0)) as K0 by (by rewrite O5, O3, list_lookup_insert_ne).
      assert (ofile s5 !! Z.to_nat d1 = Some (Some f1)) as K1 by (rewrite O5, O3; apply list_lookup_insert_eq; by eapply lookup_lt_Some).
      pose proof (inv_take _ s5 d0 f0 I5 K0) as I6. eapply inv_ext; [|eapply (inv_take _ _ d1 f1 I6)]; [|cbn; by rewrite list_lookup_insert_ne by congruence].
      intros g. unfold bump. repeat case_decide; lia.
    + injection H as <- <-. eapply inv_ext; [|exact I5]. intros g. unfold bump. repeat case_decide; lia.
Qed.

(** The system calls on files. *)
Inductive call : prog st Z → Prop :=
| call_dup : call sys_dup
| call_read : call sys_read
| call_write : call sys_write
| call_close : call sys_close
| call_fstat g : call (sys_fstat g)
| call_link name : call (sys_link name)
| call_unlink name : call (sys_unlink name)
| call_open name : call (sys_open name)
| call_mkdir name : call (sys_mkdir name)
| call_mknod name : call (sys_mknod name)
| call_chdir : call sys_chdir
| call_pipe : call sys_pipe.

Fixpoint run_calls (cs : list (prog st Z)) : prog st unit :=
  match cs with [] => skip | c :: cs' => c;; run_calls cs' end.

(** C11: whatever system calls on files a process makes, with whatever arguments
    and however they end, every open file keeps exactly as many references as
    there are descriptors of the process and other holders. *)
Theorem fd_refs_exact ext cs s s' : few ext → fd_inv ext s → Forall call cs → run_calls cs s = Ok (tt, s') → fd_inv ext s'.
Proof.
  intros Hfew I Hc. revert s I. induction Hc as [|c cs H1 _ IH]; intros s I H; [by injection H as <-|].
  apply bind_inv in H as (v & x & E & H). apply (IH x); [|done]. clear IH H.
  assert (moves ext c (λ _, ext)) as K; [|by eapply K]. destruct H1.
  - by apply moves_dup.
  - apply moves_read.
  - apply moves_write.
  - apply moves_close.
  - apply moves_fstat.
  - apply moves_link.
  - apply moves_unlink.
  - by apply moves_open.
  - apply moves_mkdir.
  - apply moves_mknod.
  - apply moves_chdir.
  - by apply moves_pipe.
Qed.

(** The file of the descriptor in register [a]. *)
Definition fd_file (s : st) (a : Z) : option nat :=
  if (i32 a <? 0) || (NOFILE <=? i32 a) then None else match ofile s !! Z.to_nat (i32 a) with Some (Some f) => Some f | _ => None end.

(** [dup] returns the least free descriptor, which is open on the same file
    with one more reference; it returns -1, and changes nothing, exactly when the
    argument is no open descriptor or no descriptor is free. *)
Theorem sys_dup_correct ext s a : few ext → fd_inv ext s → regs s !! 0%nat = Some a →
  match fd_file s a with
  | Some f =>
      if decide (None ∈ ofile s) then
        ∃ fd x, sys_dup s = Ok (fd, mkSt (with_file f (set_fref (fref x + 1) x) (fl s)) (<[Z.to_nat fd := Some f]> (ofile s)) (cwd s) (regs s)) ∧
          files (fl s) !! f = Some x ∧ 0 ≤ fd < NOFILE ∧ ofile s !! Z.to_nat fd = Some None ∧ ∀ e, 0 ≤ e < fd → ofile s !! Z.to_nat e ≠ Some None
      else sys_dup s = Ok (-1, s)
  | None => sys_dup s = Ok (-1, s)
  end.
Proof.
  intros Hfew I Ha. pose proof I as [I1 I2 I3 I4 I5].
  assert (∃ o, argfd 0 s = Ok (o, s) ∧ snd <$> o = fd_file s a) as (o & Eo & Hf).
  { unfold argfd, argint. rewrite bind_assoc', (bind_Ok (argraw 0) _ s a s) by (unfold argraw; cbn; by rewrite Ha). rewrite (bind_Ok (mret _) _ s (i32 a) s) by done.
    rewrite (bind_Ok (gets ofile) _ s (ofile s) s) by done. eexists. split; [done|]. unfold fd_file. destruct (_ || _); [done|]. by destruct (ofile s !! Z.to_nat (i32 a)) as [[?|]|]. }
  unfold sys_dup. rewrite (bind_Ok _ _ _ _ _ Eo), <- Hf. destruct o as [[d f]|]; cbn [fmap option_fmap option_map snd]; [|done].
  assert (ofile s !! Z.to_nat d = Some (Some f)) as Hd by (by apply argfd_ok in Eo as [_ Ho]; apply Ho). unfold fdalloc. rewrite bind_assoc', (bind_Ok (gets ofile) _ s (ofile s) s) by done.
  pose proof (free_fd_ok (ofile s) (Z.to_nat NOFILE) 0 ltac:(lia)) as Hfree. change (Z.of_nat (Z.to_nat NOFILE)) with NOFILE in Hfree.
  destruct (free_fd (Z.to_nat NOFILE) 0 (ofile s)) as [fd|].
  - destruct Hfree as (H1 & H2 & H3). rewrite decide_True by (by eapply list_elem_of_lookup_2).
    destruct (lookup_lt_is_Some_2 (frefs (fl s)) f) as [n Hn]; [apply I4; by eapply list_elem_of_lookup_2|]. pose proof (I3 _ _ Hn) as En.
    unfold frefs in Hn. rewrite list_lookup_fmap in Hn. destruct (files (fl s) !! f) as [x|] eqn:Hx; [|done]. injection Hn as <-.
    exists fd, x. split; [|done]. set (s1 := mkSt (fl s) (<[Z.to_nat fd := Some f]> (ofile s)) (cwd s) (regs s)).
    rewrite (bind_Ok (set_ofile fd (Some f);; mret fd) _ s fd s1) by done. rewrite (proj2 (Z.ltb_ge fd 0)) by lia.
    pose proof (uses_range (ofile s) f) as Hu. rewrite I1 in Hu. pose proof (Hfew f). pose proof (uses_in (ofile s) f ltac:(by eapply list_elem_of_lookup_2)) as Hin.
    rewrite (bind_Ok (on_files (filedup f)) _ s1 f (mkSt (with_file f (set_fref (fref x + 1) x) (fl s)) (ofile s1) (cwd s) (regs s))); [done|].
    unfold on_files, filedup, acquire_ft. cbn [fl s1]. unfold mbind, prog_bind. rewrite I2. unfold get_file, mod_file. cbn [files]. rewrite Hx.
    rewrite (proj2 (Z.ltb_ge (fref x) 1)) by lia. cbn [files]. rewrite Hx. rewrite i32_small by (unfold NOFILE in Hu; lia). unfold with_file, with_files, release_ft. cbn. by rewrite I2.
  - rewrite decide_False; [done|]. intros [i Hi]%list_elem_of_lookup_1. pose proof (lookup_lt_Some _ _ _ Hi) as Hlt. rewrite I1 in Hlt.
    apply (Hfree (Z.of_nat i)); [lia|]. by rewrite Nat2Z.id.
Qed.
End calls.
End SysfileProofs.
