(* ===== verification/LogBio.v ===== *)
(** * The log on the buffer cache of bio.c

    Concrete instances of the theorems about the log, with the cache of
    [Bio.v], and the transaction size at which the two components no longer fit
    together. *)

From S2P Require Import Prelude Bytes BufCache Bio BioProofs Log LogProofs LogSpec.
Import Bytes BufCache Log LogProofs LogSpec.

Module LogBio.

(** ** The buffer cache *)

(** [bread] returns a locked buffer with the current contents of the block,
    whether it was cached or not, when the block is cached or an unused buffer
    is left; the contents of no block change.  When all 30 buffers are
    referenced, reading another block panics. *)
Theorem bread_correct s a n : BioProofs.binv s a → a_lock a n = None → a_pins a n < 2 ^ 31 →
  if decide (0 < a_pins a n ∨ a_busy a < NBUF) then
    ∃ b s', Bio.bread ROOTDEV n s = Ok (b, s') ∧ BioProofs.binv s' (abs_read a n b) ∧
      Bio.bdata b s' = Ok (a_view a n, s')
  else a_pins a n = 0 ∧ (a_busy a = NBUF → Bio.bread ROOTDEV n s = Panic "bget: no buffers").
Proof.
  intros HI Hl Hp. case_decide as Hd.
  - destruct (BioProofs.bread_ok s a n HI Hl Hd Hp) as (b & s' & E & HI').
    exists b, s'. split; [done|]. split; [done|]. apply (BioProofs.bdata_ok s' _ n b HI').
    cbn. by rewrite fn_lookup_insert.
  - assert (a_pins a n = 0) as H0.
    { destruct (BioProofs.binv_block s a n HI) as (_ & _ & ?). lia. }
    split; [done|]. intros Hb. by apply (BioProofs.bread_full s a n).
Qed.

(** [brelse] of a buffer whose changes have been written to disk or that is
    pinned gives the buffer up and keeps the contents of every block; the LRU
    list stays a well-formed doubly linked list of all 30 buffers. *)
Theorem brelse_correct s a n b : BioProofs.binv s a → a_lock a n = Some b →
  (a_pins a n = 1 → a_view a n = a_disk a n) →
  ∃ s', Bio.brelse b s = Ok (tt, s') ∧ BioProofs.binv s' (abs_relse a n) ∧
    BioProofs.lru (Bio.next s') (Bio.prev s').
Proof.
  intros HI Hl Hc. destruct (BioProofs.brelse_ok s a n b HI Hl Hc) as (s' & E & HI').
  exists s'. split; [done|]. split; [done|]. apply (BioProofs.bi_lru _ _ HI').
Qed.

(** ** Instances *)

Lemma empty_disk_ok : disk_ok ∅.
Proof. intros n. reflexivity. Qed.

Lemma bread_correct_witness :
  if decide (0 < a_pins (abs_boot ∅) 7 ∨ a_busy (abs_boot ∅) < NBUF) then
    ∃ b s', Bio.bread ROOTDEV 7 (BioProofs.boot ∅) = Ok (b, s') ∧
      BioProofs.binv s' (abs_read (abs_boot ∅) 7 b) ∧ Bio.bdata b s' = Ok (a_view (abs_boot ∅) 7, s')
  else a_pins (abs_boot ∅) 7 = 0 ∧
    (a_busy (abs_boot ∅) = NBUF → Bio.bread ROOTDEV 7 (BioProofs.boot ∅) = Panic "bget: no buffers").
Proof.
  apply (bread_correct (BioProofs.boot ∅) (abs_boot ∅) 7).
  - exact (proj2 (BioProofs.binit_ok ∅ empty_disk_ok)).
  - reflexivity.
  - reflexivity.
Defined.

Lemma brelse_correct_witness :
  ∃ b s, Bio.bread ROOTDEV 7 (BioProofs.boot ∅) = Ok (b, s) ∧
  ∃ s', Bio.brelse b s = Ok (tt, s') ∧ BioProofs.binv s' (abs_relse (abs_read (abs_boot ∅) 7 b) 7) ∧
    BioProofs.lru (Bio.next s') (Bio.prev s').
Proof.
  destruct (BioProofs.bread_ok (BioProofs.boot ∅) (abs_boot ∅) 7) as (b & s & E & HI);
    [exact (proj2 (BioProofs.binit_ok ∅ empty_disk_ok))|reflexivity|right; reflexivity|reflexivity|].
  exists b, s. split; [exact E|].
  apply (brelse_correct s (abs_read (abs_boot ∅) 7 b) 7 b); [exact HI|reflexivity|reflexivity].
Defined.

(** A log at block 2 with 30 blocks and a transaction of the blocks 50, 51. *)
Definition demo_log (n : Z) (bl : list Z) : log := mkLog false 2 31 1 0 ROOTDEV n (bl ++ replicate (30 - length bl) 0).

(** Locking and pinning a block and changing it to [x]. *)
Lemma pin_block (s : Bio.state) v w p k n x : Quiet s v (λ _, zero_blk) w p k → p n = 0 → k < NBUF →
  length x = BSIZE →
  ∃ s', Quiet s' (<[n := x]> v) (λ _, zero_blk) w (<[n := 1]> p) (k + 1).
Proof.
  intros HQ Hp Hk Hx. unfold Quiet in HQ.
  destruct (bread_ok _ _ n HQ) as (b & s1 & E1 & H1); [done|by right|cbn; lia|].
  destruct (bset_ok _ _ n b x H1) as (s2 & E2 & H2); [by fsimp|done|].
  destruct (bpin_ok _ _ n b H2) as (s3 & E3 & H3); [by fsimp|fsimp; lia|].
  destruct (brelse_ok _ _ n b H3) as (s4 & E4 & H4); [by fsimp|fsimp; lia|].
  exists s4. eapply bc_eq; [exact H4|]. constructor; intros; fsimp; try done.
  - fcase n0; lia.
  - by fcase n0.
  - rewrite Hp. eval_ifs. lia.
Qed.

Definition block_of (b : Z) : block := replicate BSIZE b.
Lemma demo_quiet : ∃ (s : Bio.state) v,
  Quiet s v (λ _, zero_blk) [] (pinsf [50; 51]) 2 ∧ v 50 = block_of 7 ∧ v 51 = block_of 8.
Proof.
  destruct (pin_block (BioProofs.boot ∅) (λ _, zero_blk) [] (λ _, 0) 0 50 (block_of 7)) as (s1 & H1);
    [|done|done|done|].
  { eapply bc_eq; [exact (bc_boot_ok ∅ empty_disk_ok)|]. constructor; done. }
  destruct (pin_block s1 _ _ _ _ 51 (block_of 8) H1) as (s2 & H2); [done|done|done|].
  exists s2, (<[51 := block_of 8]> (<[50 := block_of 7]> (λ _, zero_blk))). split; [|done].
  eapply Quiet_ext; [exact H2|done|done|]. intros n. unfold pinsf.
  destruct (decide (n ∈ [50; 51])) as [Hn|Hn].
  - apply elem_of_cons in Hn as [->|Hn]; [done|]. apply elem_of_cons in Hn as [->|Hn]; [done|].
    by apply elem_of_nil in Hn.
  - rewrite !elem_of_cons in Hn. rewrite !fn_lookup_insert_ne by naive_solver. done.
Qed.

Lemma demo_cfg n bl : (length bl ≤ 30)%nat → cfg (demo_log n bl).
Proof.
  intros Hb. constructor; cbn; try done. rewrite length_app, length_replicate. lia.
Qed.
Lemma demo_txn : txn (demo_log 2 [50; 51]) [50; 51].
Proof.
  constructor; cbn; try done.
  - rewrite !list.NoDup_cons. split_and!; [|intros H; by apply elem_of_nil in H|constructor].
    intros H%list_elem_of_singleton. done.
  - intros x Hx. unfold in_log. cbn. apply elem_of_cons in Hx as [->|Hx]; [lia|].
    apply list_elem_of_singleton in Hx as ->. lia.
Qed.

Lemma commit_crash_safe_witness : ∃ (s : Bio.state) v,
  ∃ s' v' ws, commit (demo_log 2 [50; 51], s) = Ok (tt, (set_n 0 (demo_log 2 [50; 51]), s')) ∧
    Quiet s' v' (upd (λ _, zero_blk) ws) ([] ++ ws) (λ _, 0) 0 ∧
    ∀ k dk, (∀ n, disk_at dk n = upd (λ _, zero_blk) (take k ws) n) →
      ∃ l1 s1, initlog ROOTDEV 2 31 (zero_log, bc_boot dk) = Ok (tt, (l1, s1)) ∧
        txn l1 [] ∧
        ∀ n, ¬ in_log (demo_log 2 [50; 51]) n →
          disk_at (bc_disk s1) n = if decide (k ≤ length [50; 51])%nat then zero_blk else v n.
Proof.
  destruct demo_quiet as (s & v & HQ & _). exists s, v.
  apply (commit_crash_safe (demo_log 2 [50; 51]) s v (λ _, zero_blk) [] [50; 51]);
    [apply demo_cfg; cbn; lia|exact demo_txn|cbn; lia|exact HQ|].
  split; [vm_compute; reflexivity|]. intros j x Hx. discriminate Hx.
Defined.

Definition demo_disk : gmap Z block :=
  <[2 := head_data 1 [50] zero_blk]> (<[3 := block_of 9]> ∅).
Lemma demo_disk_ok : disk_ok demo_disk.
Proof.
  intros n. unfold disk_at, demo_disk. destruct (decide (n = 2)) as [->|H2].
  { rewrite lookup_insert_eq. vm_compute. reflexivity. }
  rewrite lookup_insert_ne by done. destruct (decide (n = 3)) as [->|H3].
  - rewrite lookup_insert_eq. reflexivity.
  - rewrite lookup_insert_ne by done. reflexivity.
Qed.

Lemma recovery_crash_safe_witness :
  ∃ l (s : Bio.state) v D ws, initlog ROOTDEV 2 30 (zero_log, bc_boot demo_disk) = Ok (tt, (l, s)) ∧
    Quiet s v D ws (λ _, 0) 0 ∧
    (∀ i x, [50] !! i = Some x → D x = disk_at demo_disk (2 + 1 + Z.of_nat i)) ∧
    ∀ k dk, (∀ n, disk_at dk n = upd (disk_at demo_disk) (take k ws) n) →
      ∃ l1 s1, initlog ROOTDEV 2 30 (zero_log, bc_boot dk) = Ok (tt, (l1, s1)) ∧
        ∀ n, ¬ 2 ≤ n < 2 + 30 → disk_at (bc_disk s1) n = D n.
Proof.
  apply (recovery_crash_safe demo_disk 2 30 [50]);
    [exact demo_disk_ok|lia|lia|lia| |apply NoDup_singleton|cbn; lia|cbn; lia|].
  - split; [vm_compute; reflexivity|]. intros [|j] x Hx; [|discriminate Hx].
    injection Hx as <-. vm_compute. reflexivity.
  - intros x Hx%list_elem_of_singleton. subst x. lia.
Defined.

Lemma demo_txn0 : txn (demo_log 0 []) [].
Proof. constructor; cbn; try done; [constructor|]. intros x Hx. by apply elem_of_nil in Hx. Qed.

Lemma log_write_correct_witness : ∃ (s : Bio.state) a b l' s',
  log_write b (demo_log 0 [], s) = Ok (tt, (l', s')) ∧ same_log (demo_log 0 []) l' ∧
    if decide (60 ∈ []) then l' = demo_log 0 [] ∧ bc_inv s' a
    else txn l' ([] ++ [60]) ∧ bc_inv s' (abs_pin a 60 1).
Proof.
  destruct (bread_ok (BioProofs.boot ∅) (abs_boot ∅) 60) as (b & s & E & HI);
    [exact (bc_boot_ok ∅ empty_disk_ok)|reflexivity|right; reflexivity|reflexivity|].
  exists s, (abs_read (abs_boot ∅) 60 b), b.
  apply (log_write_correct (demo_log 0 []) s (abs_read (abs_boot ∅) 60 b) 60 b []).
  - apply demo_cfg. cbn. lia.
  - exact demo_txn0.
  - reflexivity.
  - cbn. lia.
  - cbn. lia.
  - cbn. lia.
  - exact HI.
  - reflexivity.
  - lia.
  - unfold in_log. cbn. lia.
  - reflexivity.
Defined.

(** The log of the file system that [mkfs] builds has 30 blocks. *)
Definition idle_log : log := mkLog false 2 30 0 0 ROOTDEV 0 (replicate 30 0).
Lemma log_space_witness :
  lh_n (set_outstanding 1 idle_log) ≤ LOGSIZE ∧
  ∀ D : gset Z, D ∈ [∅ : gset Z] → let n := LOGSIZE - MAXOPBLOCKS + Z.of_nat (base.size D) in
    lh_n (set_outstanding 1 idle_log) ≤ n ∧ (∀ b, b ∈ D → in_header (set_outstanding 1 idle_log) b) ∧
    (n < LOGSIZE → n < size (set_outstanding 1 idle_log) - 1 →
     ((LOGSIZE <=? lh_n (set_outstanding 1 idle_log)) ||
      (size (set_outstanding 1 idle_log) - 1 <=? lh_n (set_outstanding 1 idle_log))) = false ∧
     (outstanding (set_outstanding 1 idle_log) <? 1) = false).
Proof.
  apply (log_space idle_log (BioProofs.boot ∅) (set_outstanding 1 idle_log) (BioProofs.boot ∅) [∅]).
  - constructor; cbn; try done; constructor.
  - eapply rtc_l; [|apply rtc_refl]. apply step_begin. reflexivity.
Defined.

(** ** The largest transaction *)

(** A transaction of [LOGSIZE] blocks, which [begin_op] admits, cannot be
    committed: all 30 buffers of the cache are pinned by it, and the first read
    of a log block in [write_log] panics. *)
Theorem commit_full_panics l (s : Bio.state) v d w xs : cfg l → txn l xs → length xs = Z.to_nat LOGSIZE →
  Quiet s v d w (pinsf xs) (Z.of_nat (length xs)) →
  commit (l, s) = Panic "bget: no buffers".
Proof.
  intros Hc HT Hlen HQ. destruct Hc as [C1 C2 C3 C4 C5]. destruct HT as [T1 T2 T3 T4 T5].
  change (Z.to_nat LOGSIZE) with 30%nat in Hlen.
  unfold commit. prog_step (glog_eq l s). destruct (Z.ltb_spec 0 (lh_n l)); [|lia].
  unfold write_log. rewrite bind_assoc'. prog_step (glog_eq l s). rewrite T1, Nat2Z.id, Hlen.
  cbn [write_log_loop]. rewrite bind_assoc'. prog_step (glog_eq l s). rewrite C1, u32_id by lia.
  rewrite bind_assoc'.
  assert (bread ROOTDEV (start l + 0 + 1) s = Panic "bget: no buffers") as E.
  { eapply BioProofs.bread_full; [exact HQ| |cbn; rewrite Hlen; done].
    cbn. unfold pinsf. rewrite decide_False; [done|]. intros Hin. apply (T5 _ Hin).
    unfold in_log. lia. }
  apply bind_Panic. unfold cache. by rewrite E.
Qed.

(** Thirty pinned blocks from 100 on. *)
Lemma pin_many n : ∀ (s : Bio.state) k v p, Quiet s v (λ _, zero_blk) [] p k → k + Z.of_nat n ≤ NBUF →
  (∀ i, p (100 + i) = if decide (0 ≤ i < k) then 1 else 0) → 0 ≤ k → (∀ m, m < 100 → p m = 0) →
  ∃ s' v' p', Quiet s' v' (λ _, zero_blk) [] p' (k + Z.of_nat n) ∧ (∀ m, m < 100 → p' m = 0) ∧
    ∀ i, p' (100 + i) = if decide (0 ≤ i < k + Z.of_nat n) then 1 else 0.
Proof.
  induction n as [|n IH]; intros s k v p HQ Hk Hp H0 Hlow.
  { exists s, v, p. by rewrite Z.add_0_r. }
  destruct (pin_block s v [] p k (100 + k) (block_of 1) HQ) as (s1 & H1);
    [rewrite Hp, decide_False by lia; done|lia|done|].
  destruct (IH s1 (k + 1) _ _ H1) as (s' & v' & p' & HQ' & Hlow' & Hp').
  - lia.
  - intros i. destruct (decide (i = k)) as [->|Hne].
    + rewrite fn_lookup_insert. by rewrite decide_True by lia.
    + rewrite fn_lookup_insert_ne by lia. rewrite Hp. apply decide_ext. lia.
  - lia.
  - intros m Hm. rewrite fn_lookup_insert_ne by lia. by apply Hlow.
  - exists s', v', p'. replace (k + Z.of_nat (S n)) with (k + 1 + Z.of_nat n) by lia. done.
Qed.

Lemma commit_full_panics_witness : ∃ s : Bio.state,
  commit (demo_log 30 (seqZ 100 30), s) = Panic "bget: no buffers".
Proof.
  destruct (pin_many 30 (BioProofs.boot ∅) 0 (λ _, zero_blk) (λ _, 0)) as (s & v & p & HQ & Hlow & Hp).
  { eapply bc_eq; [exact (bc_boot_ok ∅ empty_disk_ok)|]. constructor; done. }
  { done. } { intros i. by rewrite decide_False by lia. } { done. } { done. }
  exists s. apply (commit_full_panics (demo_log 30 (seqZ 100 30)) s v (λ _, zero_blk) [] (seqZ 100 30)).
  - apply demo_cfg. vm_compute. lia.
  - constructor; cbn; try done.
    + apply NoDup_seqZ.
    + intros x Hx%elem_of_seqZ. unfold in_log. cbn. lia.
  - reflexivity.
  - eapply Quiet_ext; [exact HQ|done|done|]. intros n. unfold pinsf.
    replace n with (100 + (n - 100)) at 1 by lia. rewrite Hp. apply decide_ext. rewrite elem_of_seqZ. lia.
Defined.

End LogBio.
