(* ===== verification/Ring.v ===== *)
(** * Ring buffers with wrapping counters

    Pipes, the console input buffer and the UART output buffer store bytes in an
    array of [N] elements at the positions [r % N .. (w - 1) % N], where the
    counters [r] and [w] count modulo [W] (2^32 or 2^64) and wrap around. *)

From S2P Require Import Prelude.

Module Ring.

(** The array [buf] with counters [r] and [w] holds the queue [q]. *)
Record ring (N W : Z) (buf : list Z) (r w : Z) (q : list Z) : Prop := {
  ring_len : Z.of_nat (length buf) = N;
  ring_r : 0 ≤ r < W;
  ring_w : w = (r + Z.of_nat (length q)) `mod` W;
  ring_fits : Z.of_nat (length q) ≤ N;
  ring_data i x : q !! i = Some x → buf !! Z.to_nat ((r + Z.of_nat i) `mod` N) = Some x }.

Section ring.
#[local] Set Default Proof Using "All".
Context (N W : Z) (HN : 0 < N) (HW : N < W) (Hdiv : (N | W)).

Lemma mod_mod_div x : (x `mod` W) `mod` N = x `mod` N.
Proof.
  destruct Hdiv as [k ->]. rewrite (Z.div_mod x (k * N)) at 2 by lia.
  replace (k * N * (x `div` (k * N)) + x `mod` (k * N)) with (x `mod` (k * N) + (k * (x `div` (k * N))) * N) by lia.
  by rewrite Z.mod_add by lia.
Qed.

Lemma slot_lt x : (Z.to_nat (x `mod` N) < Z.to_nat N)%nat.
Proof. pose proof (Z.mod_pos_bound x N HN). lia. Qed.

Lemma mod_succ a : (a `mod` W + 1) `mod` W = (a + 1) `mod` W.
Proof. by rewrite Zplus_mod_idemp_l. Qed.
Lemma mod_pred a : (a `mod` W - 1) `mod` W = (a - 1) `mod` W.
Proof. by rewrite Zminus_mod_idemp_l. Qed.

Lemma ring_empty buf r w q : ring N W buf r w q → r = w ↔ q = [].
Proof.
  intros [H1 H2 H3 H4 H5]. split.
  - intros E. destruct q as [|x q]; [done|]. exfalso. cbn [length] in *. subst w.
    set (n := Z.of_nat (S (length q))) in *. assert (0 < n) by lia.
    destruct (Z.lt_ge_cases (r + n) W).
    + rewrite Z.mod_small in E by lia. lia.
    + replace (r + n) with (r + n - W + 1 * W) in E by lia. rewrite Z.mod_add, Z.mod_small in E by lia. lia.
  - intros ->. cbn in H3. rewrite Z.add_0_r, Z.mod_small in H3 by lia. done.
Qed.

Lemma ring_full buf r w q : ring N W buf r w q → w = (r + N) `mod` W ↔ Z.of_nat (length q) = N.
Proof.
  intros [H1 H2 H3 H4 H5]. split; [|intros <-; done]. intros E. rewrite H3 in E.
  destruct (Z.eq_dec (Z.of_nat (length q)) N) as [|Hne]; [done|]. exfalso.
  assert ((N - Z.of_nat (length q)) `mod` W = 0) as E2.
  { replace (N - Z.of_nat (length q)) with (r + N - (r + Z.of_nat (length q))) by lia.
    by rewrite Zminus_mod, <- E, Z.sub_diag, Z.mod_0_l by lia. }
  rewrite Z.mod_small in E2; lia.
Qed.

Lemma ring_push buf r w q x : ring N W buf r w q → Z.of_nat (length q) < N →
  ring N W (<[Z.to_nat (w `mod` N) := x]> buf) r ((w + 1) `mod` W) (q ++ [x]).
Proof.
  intros [H1 H2 H3 H4 H5] Hlt. constructor.
  - by rewrite length_insert.
  - done.
  - rewrite H3, mod_succ, length_app. cbn. f_equal. lia.
  - rewrite length_app. cbn. lia.
  - intros i y Hi. subst w. rewrite mod_mod_div.
    destruct (decide (i = length q)) as [->|Hne].
    + rewrite lookup_app_r, Nat.sub_diag in Hi by lia. injection Hi as ->.
      apply list_lookup_insert_eq. pose proof (slot_lt (r + Z.of_nat (length q))). lia.
    + pose proof (lookup_lt_Some _ _ _ Hi) as Hl. rewrite length_app in Hl. cbn in Hl.
      rewrite lookup_app_l in Hi by lia. rewrite list_lookup_insert_ne; [by apply H5|].
      intros E. pose proof (Z.mod_pos_bound (r + Z.of_nat i) N HN).
      pose proof (Z.mod_pos_bound (r + Z.of_nat (length q)) N HN).
      assert ((Z.of_nat (length q) - Z.of_nat i) `mod` N = 0) as E2.
      { replace (Z.of_nat (length q) - Z.of_nat i) with (r + Z.of_nat (length q) - (r + Z.of_nat i)) by lia.
        rewrite Zminus_mod. replace ((r + Z.of_nat (length q)) `mod` N) with ((r + Z.of_nat i) `mod` N) by lia.
        by rewrite Z.sub_diag, Z.mod_0_l by lia. }
      rewrite Z.mod_small in E2; lia.
Qed.

Lemma ring_pop buf r w x q : ring N W buf r w (x :: q) →
  buf !! Z.to_nat (r `mod` N) = Some x ∧ ring N W buf ((r + 1) `mod` W) w q.
Proof.
  intros [H1 H2 H3 H4 H5]. split.
  { rewrite <- (Z.add_0_r r). by apply (H5 0%nat). }
  cbn [length] in *. constructor; [done|apply Z.mod_pos_bound; lia| |lia|].
  - rewrite Zplus_mod_idemp_l, H3. f_equal. lia.
  - intros i y Hi. specialize (H5 (S i) y Hi). rewrite <- H5. do 2 f_equal.
    rewrite <- (Zplus_mod_idemp_l ((r + 1) `mod` W)), mod_mod_div, Zplus_mod_idemp_l. f_equal. lia.
Qed.

Lemma ring_drop_last buf r w q x : ring N W buf r w (q ++ [x]) →
  buf !! Z.to_nat (((w - 1) `mod` W) `mod` N) = Some x ∧ ring N W buf r ((w - 1) `mod` W) q.
Proof.
  intros [H1 H2 H3 H4 H5]. rewrite length_app in H3, H4. cbn in H3, H4.
  assert ((w - 1) `mod` W = (r + Z.of_nat (length q)) `mod` W) as E.
  { rewrite H3, mod_pred. f_equal. lia. }
  split.
  - rewrite E, mod_mod_div. apply H5. by rewrite lookup_app_r, Nat.sub_diag by lia.
  - constructor; [done|done|done|lia|]. intros i y Hi. apply H5. by apply lookup_app_l_Some.
Qed.

Lemma ring_app_l buf r w q1 q2 : ring N W buf r w (q1 ++ q2) →
  ring N W buf r ((r + Z.of_nat (length q1)) `mod` W) q1.
Proof.
  intros [H1 H2 H3 H4 H5]. rewrite length_app in H4. constructor; [done..|lia|].
  intros i x Hi. apply H5. by apply lookup_app_l_Some.
Qed.

Lemma ring_app_r buf r w q1 q2 : ring N W buf r w (q1 ++ q2) →
  ring N W buf ((r + Z.of_nat (length q1)) `mod` W) w q2.
Proof.
  revert r. induction q1 as [|x q1 IH]; intros r Hr; cbn [length].
  - rewrite Z.add_0_r, Z.mod_small by apply (ring_r _ _ _ _ _ _ Hr). done.
  - destruct (ring_pop _ _ _ _ _ Hr) as [_ Hr']. apply IH in Hr'. rewrite Zplus_mod_idemp_l in Hr'.
    by replace (r + Z.of_nat (S (length q1))) with (r + 1 + Z.of_nat (length q1)) by lia.
Qed.

Lemma ring_count buf r w q : ring N W buf r w q → (w - r) `mod` W = Z.of_nat (length q).
Proof.
  intros [H1 H2 H3 H4 H5]. rewrite H3, Zminus_mod_idemp_l.
  replace (r + Z.of_nat (length q) - r) with (Z.of_nat (length q)) by lia. apply Z.mod_small. lia.
Qed.

Lemma ring_init buf r : Z.of_nat (length buf) = N → 0 ≤ r < W → ring N W buf r r [].
Proof.
  intros Hl Hr. constructor; [done|done| |cbn; lia|done]. cbn. rewrite Z.add_0_r, Z.mod_small; lia.
Qed.
End ring.

End Ring.
