(* ===== verification/Pipe.v ===== *)
(** * Pipes (kernel/pipe.c)

    [pipewrite] and [piperead] run under the lock of the pipe and give it up
    only in [sleep] and when they return.  A call is therefore a sequence of
    uninterrupted runs: a run ends with the value the call returns or with the
    place at which the call sleeps, from which its next run starts.  The runs
    of all readers and writers interleave in any order ([pstep]).

    The user memory of the caller is given by what [copyin] reads at an address
    ([None]: the copy fails) and where [copyout] succeeds; [killed] is asked
    once per turn of the loop and may change its answer. *)

From S2P Require Import Prelude Ring.
Import Ring.

Module Pipe.

Definition PIPESIZE : Z := 512.

(** [struct pipe], and whether some process sleeps on [&pi->nread] and on
    [&pi->nwrite]. *)
Record pipe := mkPipe {
  lock : bool;
  data : list Z;
  nread : Z;
  nwrite : Z;
  readopen : Z;
  writeopen : Z;
  rwait : bool;
  wwait : bool }.

Definition set_lock (v : bool) (p : pipe) : pipe :=
  mkPipe v (data p) (nread p) (nwrite p) (readopen p) (writeopen p) (rwait p) (wwait p).
Definition set_nread (v : Z) (p : pipe) : pipe :=
  mkPipe (lock p) (data p) v (nwrite p) (readopen p) (writeopen p) (rwait p) (wwait p).
Definition set_readopen (v : Z) (p : pipe) : pipe :=
  mkPipe (lock p) (data p) (nread p) (nwrite p) v (writeopen p) (rwait p) (wwait p).
Definition set_writeopen (v : Z) (p : pipe) : pipe :=
  mkPipe (lock p) (data p) (nread p) (nwrite p) (readopen p) v (rwait p) (wwait p).
Definition set_rwait (v : bool) (p : pipe) : pipe :=
  mkPipe (lock p) (data p) (nread p) (nwrite p) (readopen p) (writeopen p) v (wwait p).
Definition set_wwait (v : bool) (p : pipe) : pipe :=
  mkPipe (lock p) (data p) (nread p) (nwrite p) (readopen p) (writeopen p) (rwait p) v.

(** [pi->data[pi->nwrite++ % PIPESIZE] = ch] *)
Definition push (ch : Z) (p : pipe) : pipe :=
  mkPipe (lock p) (<[Z.to_nat (nwrite p `mod` PIPESIZE) := ch]> (data p)) (nread p)
    (u32 (nwrite p + 1)) (readopen p) (writeopen p) (rwait p) (wwait p).
(** [ch = pi->data[pi->nread++ % PIPESIZE]] *)
Definition pop : prog pipe Z := λ p,
  match data p !! Z.to_nat (nread p `mod` PIPESIZE) with
  | Some ch => Ok (ch, set_nread (u32 (nread p + 1)) p)
  | None => Fault
  end.

Definition acquire : prog pipe unit := λ p,
  if lock p then Panic "acquire" else Ok (tt, set_lock true p).
Definition release : prog pipe unit := λ p,
  if lock p then Ok (tt, set_lock false p) else Panic "release".
Definition wakeup_nread : prog pipe unit := modify (set_rwait false).
Definition wakeup_nwrite : prog pipe unit := modify (set_wwait false).
(** [sleep(chan, &pi->lock)] up to the switch to another process. *)
Definition sleep_nread : prog pipe unit := modify (set_rwait true);; release.
Definition sleep_nwrite : prog pipe unit := modify (set_wwait true);; release.

(** The pipe that [pipealloc] sets up in the page [d] it obtained. *)
Definition pipeinit (d : list Z) : pipe := mkPipe false d 0 0 1 1 false false.

(** [pipeclose]; the result tells whether the page of the pipe is freed. *)
Definition pipeclose (writable : Z) : prog pipe bool :=
  acquire;;
  (if negb (writable =? 0) then
     modify (set_writeopen 0);; wakeup_nread
   else
     modify (set_readopen 0);; wakeup_nwrite);;
  p ← get;
  release;;
  mret ((readopen p =? 0) && (writeopen p =? 0)).

(** How a run of [pipewrite] ends, with the bytes it put into the pipe. *)
Inductive wres := WRet (r : Z) | WSleep (i : Z).

Section write.
Context (copyin : Z → option Z) (killed : Z → bool) (addr n : Z).

Fixpoint write_loop (k : nat) (i : Z) : prog pipe (wres * list Z) :=
  match k with
  | O =>
      wakeup_nread;;
      release;;
      mret (WRet i, [])
  | S k' =>
      p ← get;
      if (readopen p =? 0) || killed i then
        release;;
        mret (WRet (-1), [])
      else if nwrite p =? u32 (nread p + PIPESIZE) then
        wakeup_nread;;
        sleep_nwrite;;
        mret (WSleep i, [])
      else
        match copyin (u64 (addr + i)) with
        | None =>
            wakeup_nread;;
            release;;
            mret (WRet i, [])
        | Some ch =>
            modify (push ch);;
            r ← write_loop k' (i + 1);
            mret (r.1, ch :: r.2)
        end
  end.

(** The run of [pipewrite] from the start ([i = 0]) or from the wake-up of a
    sleep at [i]: the loop turns at most [n - i] times. *)
Definition pipewrite (i : Z) : prog pipe (wres * list Z) :=
  acquire;;
  write_loop (Z.to_nat (n - i)) i.
End write.

(** How a run of [piperead] ends, with the bytes taken out of the pipe and the
    bytes stored in user memory. *)
Inductive rres := RRet (r : Z) | RSleep.

Section read.
Context (copyout : Z → bool) (killed : bool) (addr n : Z).

Fixpoint read_loop (k : nat) (i : Z) : prog pipe (Z * list Z * list Z) :=
  match k with
  | O => mret (i, [], [])
  | S k' =>
      p ← get;
      if nread p =? nwrite p then mret (i, [], [])
      else
        ch ← pop;
        if copyout (u64 (addr + i)) then
          r ← read_loop k' (i + 1);
          mret (r.1.1, ch :: r.1.2, ch :: r.2)
        else mret (i, [ch], [])
  end.

Definition piperead : prog pipe (rres * list Z * list Z) :=
  acquire;;
  p ← get;
  if (nread p =? nwrite p) && negb (writeopen p =? 0) then
    if killed then
      release;;
      mret (RRet (-1), [], [])
    else
      sleep_nread;;
      mret (RSleep, [], [])
  else
    r ← read_loop (Z.to_nat n) 0;
    wakeup_nwrite;;
    release;;
    mret (RRet r.1.1, r.1.2, r.2).
End read.

(** ** The abstract pipe: a byte queue of bounded length *)

Record pipe_rep (p : pipe) (q : list Z) : Prop := {
  rep_lock : lock p = false;
  rep_ring : ring PIPESIZE (2 ^ 32) (data p) (nread p) (nwrite p) q }.

(** Runs of readers and writers and closings of ends, in any order.  [written]
    and [consumed] collect the bytes put into and taken out of the pipe; [K]
    restricts the answers of [killed] within a run. *)
Inductive pstep (K : (Z → bool) → Prop) : pipe * list Z * list Z → pipe * list Z * list Z → Prop :=
| pstep_write copyin killed addr n i p r bs p' ws rs :
    K killed → 0 ≤ i →
    pipewrite copyin killed addr n i p = Ok ((r, bs), p') →
    pstep K (p, ws, rs) (p', ws ++ bs, rs)
| pstep_read copyout killed addr n p r bs us p' ws rs :
    piperead copyout killed addr n p = Ok ((r, bs, us), p') →
    pstep K (p, ws, rs) (p', ws, rs ++ bs)
| pstep_close writable freed p p' ws rs :
    pipeclose writable p = Ok (freed, p') →
    pstep K (p, ws, rs) (p', ws, rs).

Definition any_answer (killed : Z → bool) : Prop := True.
(** [killed] gives the same answer throughout the run. *)
Definition stable_answer (killed : Z → bool) : Prop := ∀ i j, killed i = killed j.

(** Nobody sleeps without a reason: a reader sleeps only while the pipe is
    empty and can still be written, a writer only while it is full and can
    still be read. *)
Definition no_lost_wakeup (p : pipe) (q : list Z) : Prop :=
  (rwait p = true → q = [] ∧ writeopen p ≠ 0) ∧
  (wwait p = true → Z.of_nat (length q) = PIPESIZE ∧ readopen p ≠ 0).

(** The sequential meaning of a run of [pipewrite] on a queue with [room]
    free bytes. *)
Fixpoint write_spec (copyin : Z → option Z) (killed : Z → bool) (addr : Z) (open : bool)
    (room k : nat) (i : Z) {struct k} : wres * list Z :=
  match k with
  | O => (WRet i, [])
  | S k' =>
      if negb open || killed i then (WRet (-1), [])
      else match room with
      | O => (WSleep i, [])
      | S room' =>
          match copyin (u64 (addr + i)) with
          | None => (WRet i, [])
          | Some ch =>
              let r := write_spec copyin killed addr open room' k' (i + 1) in
              (r.1, ch :: r.2)
          end
      end
  end.

End Pipe.
