(* ===== verification/PipeProofs.v ===== *)
(** * Pipes are bounded FIFO queues

    The concrete pipe refines a queue of at most [PIPESIZE] bytes, also when
    the 32-bit counters wrap around. *)

From S2P Require Import Prelude Ring Pipe.
Import Ring Pipe.

Module PipeProofs.

Lemma pipe_div : (PIPESIZE | 2 ^ 32).
Proof. exists (2 ^ 23). reflexivity. Qed.
Local Ltac side := first [exact pipe_div | unfold PIPESIZE; lia].

Section pipe.
Implicit Types (p : pipe) (q : list Z).

Notation pring p q := (ring PIPESIZE (2 ^ 32) (data p) (nread p) (nwrite p) q).

Lemma pring_nread p q : pring p q → (nread p =? nwrite p) = bool_decide (q = []).
Proof.
  intros H. pose proof (ring_empty PIPESIZE (2 ^ 32) ltac:(side) ltac:(side) ltac:(side) _ _ _ _ H).
  case_bool_decide; destruct (Z.eqb_spec (nread p) (nwrite p)); naive_solver.
Qed.

Lemma pring_full p q : pring p q →
  (nwrite p =? u32 (nread p + PIPESIZE)) = bool_decide (Z.of_nat (length q) = PIPESIZE).
Proof.
  intros H. pose proof (ring_full PIPESIZE (2 ^ 32) ltac:(side) ltac:(side) ltac:(side) _ _ _ _ H).
  unfold u32. case_bool_decide; destruct (Z.eqb_spec (nwrite p) ((nread p + PIPESIZE) `mod` 2 ^ 32)); naive_solver.
Qed.

Lemma push_rep ch p q : pring p q → Z.of_nat (length q) ≠ PIPESIZE → pring (push ch p) (q ++ [ch]).
Proof.
  intros H Hne. apply ring_push; [side..|exact H|]. pose proof (ring_fits _ _ _ _ _ _ H). lia.
Qed.

Lemma pop_rep p c q : pring p (c :: q) →
  pop p = Ok (c, set_nread (u32 (nread p + 1)) p) ∧ pring (set_nread (u32 (nread p + 1)) p) q.
Proof.
  intros H. destruct (ring_pop PIPESIZE (2 ^ 32) ltac:(side) ltac:(side) ltac:(side) _ _ _ _ _ H) as [H1 H2].
  split; [|exact H2]. unfold pop. by rewrite H1.
Qed.

(** What a run does to the fields it does not own. *)
Definition same_ends p p' : Prop := readopen p' = readopen p ∧ writeopen p' = writeopen p.

(** Who is left asleep after a run of [pipewrite] that ends with [r]. *)
Definition write_wakes p p' (r : wres) : Prop :=
  match r with
  | WRet v => wwait p' = wwait p ∧ rwait p' = if v =? -1 then rwait p else false
  | WSleep _ => wwait p' = true ∧ rwait p' = false
  end.

Lemma write_loop_correct copyin killed addr k : ∀ i p q r bs,
  0 ≤ i → lock p = true → pring p q →
  write_spec copyin killed addr (negb (readopen p =? 0)) (Z.to_nat PIPESIZE - length q) k i = (r, bs) →
  ∃ p', write_loop copyin killed addr k i p = Ok ((r, bs), p') ∧
    pipe_rep p' (q ++ bs) ∧ same_ends p p' ∧ write_wakes p p' r.
Proof.
  induction k as [|k IH]; intros i p q r bs Hi Hl Hr; cbn [write_spec write_loop].
  { intros [= <- <-]. eexists. unfold wakeup_nread, mbind, prog_bind, release. cbn. rewrite Hl. cbn.
    split; [done|]. rewrite app_nil_r. split_and!; [by constructor|done..|]. destruct (Z.eqb_spec i (-1)); [lia|done]. }
  prog_run. rewrite (pring_full p q Hr). rewrite negb_involutive.
  destruct ((readopen p =? 0) || killed i) eqn:Ec.
  { intros [= <- <-]. eexists. unfold mbind, prog_bind, release. rewrite Hl. cbn. rewrite app_nil_r. split; [done|]. split_and!; [by constructor|done..]. }
  pose proof (ring_fits _ _ _ _ _ _ Hr) as Hf.
  case_bool_decide as Hfull.
  { replace (Z.to_nat PIPESIZE - length q)%nat with O by lia. intros [= <- <-]. eexists.
    unfold sleep_nwrite, wakeup_nread, mbind, prog_bind, release. cbn. rewrite Hl. cbn. rewrite app_nil_r. split; [done|]. split_and!; [by constructor|done..]. }
  replace (Z.to_nat PIPESIZE - length q)%nat with (S (Z.to_nat PIPESIZE - length (q ++ [0%Z])))%nat
    by (rewrite length_app; cbn [length]; unfold PIPESIZE in *; lia).
  destruct (copyin (u64 (addr + i))) as [ch|].
  - prog_run. destruct (write_spec _ _ _ _ _ k (i + 1)) as [r' bs'] eqn:Es. intros [= <- <-].
    destruct (IH (i + 1) (push ch p) (q ++ [ch]) r' bs') as (p' & E & Hrep & Hs & Hm);
      [lia|done|by apply push_rep|by rewrite length_app in Es |- *|].
    prog_step E. exists p'. split; [done|]. cbn [fst snd]. rewrite <- app_assoc in Hrep. by split.
  - intros [= <- <-]. eexists. unfold wakeup_nread, mbind, prog_bind, release. cbn. rewrite Hl. cbn.
    rewrite app_nil_r. split; [done|]. split_and!; [by constructor|done..|]. destruct (Z.eqb_spec i (-1)); [lia|done].
Qed.

Lemma pipe_acquire_ok p : lock p = false → acquire p = Ok (tt, set_lock true p).
Proof. intros H. unfold acquire. by rewrite H. Qed.

Lemma pipewrite_run copyin killed addr n i p q r bs :
  0 ≤ i → pipe_rep p q →
  write_spec copyin killed addr (negb (readopen p =? 0)) (Z.to_nat PIPESIZE - length q) (Z.to_nat (n - i)) i = (r, bs) →
  ∃ p', pipewrite copyin killed addr n i p = Ok ((r, bs), p') ∧
    pipe_rep p' (q ++ bs) ∧ same_ends p p' ∧ write_wakes p p' r.
Proof.
  intros Hi [Hl Hr] Hw. unfold pipewrite. prog_step (pipe_acquire_ok p Hl).
  by destruct (write_loop_correct copyin killed addr (Z.to_nat (n - i)) i (set_lock true p) q r bs) as (p' & ? & ? & ? & ?);
    [done..|exists p'].
Qed.

(** The reader takes the longest prefix it can place; a byte whose copy fails
    is taken as well. *)
Fixpoint read_spec (copyout : Z → bool) (addr : Z) (q : list Z) (k : nat) (i : Z) {struct k} : Z * list Z * list Z :=
  match k, q with
  | S k', ch :: q' =>
      if copyout (u64 (addr + i)) then
        let r := read_spec copyout addr q' k' (i + 1) in (r.1.1, ch :: r.1.2, ch :: r.2)
      else (i, [ch], [])
  | _, _ => (i, [], [])
  end.

Lemma read_loop_correct copyout addr k : ∀ i p q,
  pring p q → ∃ p',
    read_loop copyout addr k i p = Ok (read_spec copyout addr q k i, p') ∧
    pring p' (drop (length (read_spec copyout addr q k i).1.2) q) ∧ lock p' = lock p ∧
    same_ends p p' ∧ rwait p' = rwait p ∧ wwait p' = wwait p.
Proof.
  induction k as [|k IH]; intros i p q Hr; cbn [read_loop read_spec].
  { exists p. by split_and!. }
  prog_run. rewrite (pring_nread p q Hr). case_bool_decide as Hq.
  { subst q. exists p. by split_and!. }
  destruct q as [|ch q]; [done|]. destruct (pop_rep p ch q Hr) as [E Hr']. prog_step E.
  destruct (copyout _).
  - destruct (IH (i + 1) _ q Hr') as (p' & E' & ? & ? & ? & ? & ?). prog_step E'. by exists p'.
  - eexists. by split_and!.
Qed.

Lemma read_spec_prefix copyout addr : ∀ k q i,
  ∃ rest, q = (read_spec copyout addr q k i).1.2 ++ rest.
Proof.
  induction k as [|k IH]; intros q i; [by eexists|]. destruct q as [|ch q]; [by eexists|]. cbn.
  destruct (copyout _); [|by eexists]. destruct (IH q (i + 1)) as [rest E]. exists rest. cbn. by f_equal.
Qed.

Lemma piperead_run copyout killed addr n p q :
  pipe_rep p q →
  ∃ p' r bs us, piperead copyout killed addr n p = Ok ((r, bs, us), p') ∧
    (∃ q', q = bs ++ q' ∧ pipe_rep p' q') ∧ same_ends p p' ∧
    if bool_decide (q = []) && negb (writeopen p =? 0)
    then bs = [] ∧ us = [] ∧ wwait p' = wwait p ∧
      r = (if killed then RRet (-1) else RSleep) ∧ rwait p' = (if killed then rwait p else true)
    else wwait p' = false ∧ rwait p' = rwait p ∧ ∃ v, r = RRet v ∧ (v, bs, us) = read_spec copyout addr q (Z.to_nat n) 0.
Proof.
  intros [Hl Hr]. unfold piperead. prog_step (pipe_acquire_ok p Hl). prog_run. cbn [nread nwrite writeopen set_lock].
  rewrite (pring_nread p q Hr). destruct (bool_decide (q = []) && _) eqn:Ec.
  - destruct killed; do 4 eexists; (split; [reflexivity|]); (split; [exists q; split; [done|by constructor]|]); by split_and!.
  - destruct (read_loop_correct copyout addr (Z.to_nat n) 0 (set_lock true p) q Hr) as (p' & E & Hr' & Hl' & Hs & Hrw & Hww).
    prog_step E. unfold wakeup_nwrite, release, mbind, prog_bind. cbn in Hl' |- *. rewrite Hl'. cbn.
    destruct (read_spec_prefix copyout addr (Z.to_nat n) q 0) as [rest Erest].
    do 4 eexists. split; [reflexivity|]. cbn [fst snd]. split_and!; [|done|done|done|].
    + exists rest. split; [done|]. constructor; [done|].
      rewrite Erest in Hr' at 2. by rewrite drop_app_length in Hr'.
    + eexists. split; [done|]. by destruct (read_spec _ _ _ _ _) as [[??]?].
Qed.

Lemma pipeclose_run writable p q : pipe_rep p q →
  ∃ p' freed, pipeclose writable p = Ok (freed, p') ∧ pipe_rep p' q ∧
    freed = (readopen p' =? 0) && (writeopen p' =? 0) ∧
    (if writable =? 0
     then readopen p' = 0 ∧ writeopen p' = writeopen p ∧ wwait p' = false ∧ rwait p' = rwait p
     else readopen p' = readopen p ∧ writeopen p' = 0 ∧ wwait p' = wwait p ∧ rwait p' = false).
Proof.
  intros [Hl Hr]. unfold pipeclose. prog_step (pipe_acquire_ok p Hl).
  destruct (writable =? 0); do 2 eexists; (split; [reflexivity|]);
    (split; [by constructor|]); by split_and!.
Qed.

(** The bytes of a run of [pipewrite] and the reason it ended. *)
Lemma write_spec_sound copyin killed addr open : ∀ k room i r bs,
  0 ≤ i → write_spec copyin killed addr open room k i = (r, bs) →
  (∀ j, (j < length bs)%nat → copyin (u64 (addr + i + Z.of_nat j)) = bs !! j) ∧
  (length bs ≤ room)%nat ∧ (length bs ≤ k)%nat ∧
  match r with
  | WRet v =>
      (v = i + Z.of_nat (length bs) ∧ (length bs = k ∨ copyin (u64 (addr + v)) = None)) ∨
      (v = -1 ∧ (open = false ∨ killed (i + Z.of_nat (length bs)) = true) ∧ (length bs < k)%nat)
  | WSleep j => j = i + Z.of_nat (length bs) ∧ length bs = room ∧ (length bs < k)%nat ∧ open = true
  end.
Proof.
  induction k as [|k IH]; intros room i r bs Hi; cbn [write_spec].
  { intros [= <- <-]. cbn. split_and!; [lia..|]. left. split; [lia|by left]. }
  destruct (negb open || killed i) eqn:Ec.
  { intros [= <- <-]. cbn. split_and!; [lia..|]. right. rewrite Z.add_0_r. split_and!; [done| |lia].
    destruct open; [by right|by left]. }
  destruct room as [|room].
  { intros [= <- <-]. cbn. split_and!; try lia. by destruct open. }
  destruct (copyin (u64 (addr + i))) as [ch|] eqn:Ei.
  - destruct (write_spec _ _ _ _ room k (i + 1)) as [r' bs'] eqn:Es. intros [= <- <-].
    destruct (IH room (i + 1) r' bs' ltac:(lia) Es) as (H1 & H2 & H3 & H4). cbn [length fst snd].
    split_and!; [|lia..|].
    + intros [|j] Hj; cbn.
      { by rewrite Z.add_0_r. }
      rewrite <- H1 by lia. f_equal. f_equal. lia.
    + replace (i + Z.of_nat (S (length bs'))) with (i + 1 + Z.of_nat (length bs')) by lia.
      destruct r' as [v|j]; [|naive_solver lia].
      destruct H4 as [[-> H4]|(-> & H4 & ?)]; [left|right; naive_solver lia].
      split; [done|]. destruct H4; [left; lia|by right].
  - intros [= <- <-]. cbn. split_and!; [lia..|]. left. split; [lia|by right].
Qed.

(** Every step keeps the pipe a queue of the bytes written and not read. *)
Definition fifo_inv (c : pipe * list Z * list Z) : Prop :=
  ∃ q, pipe_rep c.1.1 q ∧ c.1.2 = c.2 ++ q.

Lemma fifo_step K c c' : pstep K c c' → fifo_inv c → fifo_inv c'.
Proof.
  intros Hs [q [Hrep Hq]]. destruct Hs as [copyin killed addr n i p r bs p' ws rs _ Hi E
    |copyout killed addr n p r bs us p' ws rs E|writable freed p p' ws rs E]; cbn in *.
  - destruct (write_spec copyin killed addr (negb (readopen p =? 0)) (Z.to_nat PIPESIZE - length q) (Z.to_nat (n - i)) i)
      as [r0 bs0] eqn:Es.
    destruct (pipewrite_run copyin killed addr n i p q r0 bs0 Hi Hrep Es) as (p0 & E0 & Hrep' & _).
    rewrite E in E0. injection E0 as <- <- <-. exists (q ++ bs). split; [done|]. cbn. by rewrite Hq, app_assoc.
  - destruct (piperead_run copyout killed addr n p q Hrep) as (p0 & r0 & bs0 & us0 & E0 & (q' & -> & Hrep') & _).
    rewrite E in E0. injection E0 as <- <- <- <-. exists q'. split; [done|]. cbn. by rewrite Hq, app_assoc.
  - destruct (pipeclose_run writable p q Hrep) as (p0 & f0 & E0 & Hrep' & _).
    rewrite E in E0. injection E0 as <- <-. by exists q.
Qed.

Definition wakeup_inv (c : pipe * list Z * list Z) : Prop :=
  ∃ q, pipe_rep c.1.1 q ∧ no_lost_wakeup c.1.1 q.

Lemma wakeup_step c c' : pstep stable_answer c c' → wakeup_inv c → wakeup_inv c'.
Proof.
  intros Hs [q [Hrep [Hnr Hnw]]]. destruct Hs as [copyin killed addr n i p r bs p' ws rs Hst Hi E
    |copyout killed addr n p r bs us p' ws rs E|writable freed p p' ws rs E]; cbn in *.
  - destruct (write_spec copyin killed addr (negb (readopen p =? 0)) (Z.to_nat PIPESIZE - length q) (Z.to_nat (n - i)) i)
      as [r0 bs0] eqn:Es.
    destruct (pipewrite_run copyin killed addr n i p q r0 bs0 Hi Hrep Es) as (p0 & E0 & Hrep' & [Hs1 Hs2] & Hw).
    rewrite E in E0. injection E0 as <- <- <-. exists (q ++ bs). split; [done|]. cbn.
    destruct (write_spec_sound _ _ _ _ _ _ _ _ _ Hi Es) as (_ & Hroom & _ & Hend).
    destruct r as [v|j]; destruct Hw as [Hw1 Hw2]; unfold no_lost_wakeup; rewrite Hw1, Hw2, Hs1, Hs2.
    + destruct Hend as [[-> _]|(-> & Hk & _)].
      { destruct (Z.eqb_spec (i + Z.of_nat (length bs)) (-1)); [lia|]. split; [done|]. intros Hww.
        destruct (Hnw Hww) as [Hlen ?]. destruct bs; [by rewrite app_nil_r|cbn in Hroom; lia]. }
      assert (bs = []) as ->.
      { destruct (Z.to_nat (n - i)); cbn [write_spec] in Es; [injection Es; congruence|].
        rewrite (Hst i (i + Z.of_nat (length bs))) in Es. destruct Hk as [Hk|Hk]; rewrite Hk in Es.
        - by injection Es.
        - rewrite orb_true_r in Es. by injection Es. }
      rewrite app_nil_r. by split.
    + split; [done|]. intros _. pose proof (ring_fits _ _ _ _ _ _ (rep_ring _ _ Hrep)). rewrite length_app.
      split; [lia|]. destruct Hend as (_ & _ & _ & Ho). by destruct (Z.eqb_spec (readopen p) 0).
  - destruct (piperead_run copyout killed addr n p q Hrep) as (p0 & r0 & bs0 & us0 & E0 & (q' & -> & Hrep') & [Hs1 Hs2] & Hif).
    rewrite E in E0. injection E0 as <- <- <- <-. exists q'. split; [done|].
    unfold no_lost_wakeup. cbn [fst snd]. rewrite Hs1, Hs2. destruct (bool_decide _ && _) eqn:Ec.
    + destruct Hif as (-> & -> & -> & -> & ->). apply andb_true_iff in Ec as [Ec1 Ec2].
      apply bool_decide_eq_true in Ec1. cbn in *. split; [|done]. intros _. split; [done|].
      by destruct (Z.eqb_spec (writeopen p) 0).
    + destruct Hif as (-> & -> & _). split; [|done]. intros Hrw. destruct (Hnr Hrw) as [Hemp Hwo]. exfalso.
      rewrite bool_decide_true in Ec by done. by destruct (Z.eqb_spec (writeopen p) 0).
  - destruct (pipeclose_run writable p q Hrep) as (p0 & f0 & E0 & Hrep' & _ & Hif).
    rewrite E in E0. injection E0 as <- <-. exists q. split; [done|]. unfold no_lost_wakeup. cbn [fst snd].
    destruct (writable =? 0); destruct Hif as (-> & -> & -> & ->); by split.
Qed.

Lemma pipeinit_rep d : Z.of_nat (length d) = PIPESIZE → pipe_rep (pipeinit d) [].
Proof. intros H. constructor; [done|]. apply ring_init; [side..|done|cbn; lia]. Qed.
End pipe.

(** ** Theorems *)

(** C16: Any interleaving of runs of [pipewrite] and [piperead] and closings of
    the ends is first-in first-out: the bytes taken out of the pipe followed by
    the bytes stored in it are exactly the bytes put into it, in that order, at
    most [PIPESIZE] bytes are stored, and no run faults or finds the lock taken.
    It holds also when the 32-bit counters wrap around. *)
Theorem pipe_fifo p0 q0 p ws rs :
  pipe_rep p0 q0 → rtc (pstep any_answer) (p0, q0, []) (p, ws, rs) →
  ∃ q, pipe_rep p q ∧ ws = rs ++ q ∧ Z.of_nat (length q) ≤ PIPESIZE.
Proof.
  intros H0 Hrtc. assert (fifo_inv (p, ws, rs)) as [q [Hrep Hq]].
  { refine (rtc_ind_r fifo_inv _ _ _ _ Hrtc); [by exists q0|]. intros c c' _ Hs. by eapply fifo_step. }
  exists q. split_and!; [done|done|]. exact (ring_fits _ _ _ _ _ _ (rep_ring _ _ Hrep)).
Qed.

(** C27: When [killed] does not change its answer within a run, no wake-up is
    lost: after any interleaving a reader is asleep only if the pipe is empty
    with its write end open, and a writer only if it is full with its read end
    open; so the two sides never wait for each other. *)
Theorem pipe_no_lost_wakeup d p ws rs :
  Z.of_nat (length d) = PIPESIZE →
  rtc (pstep stable_answer) (pipeinit d, [], []) (p, ws, rs) →
  (∃ q, pipe_rep p q ∧ no_lost_wakeup p q) ∧ (rwait p && wwait p) = false.
Proof.
  intros Hd Hrtc. assert (wakeup_inv (p, ws, rs)) as [q [Hrep Hq]].
  { refine (rtc_ind_r wakeup_inv _ _ _ _ Hrtc).
    - exists []. split; [by apply pipeinit_rep|done].
    - intros c c' _ Hs. by apply wakeup_step. }
  split; [by exists q|]. destruct Hq as [H1 H2]. cbn in *.
  destruct (rwait p), (wwait p); try done. destruct H1 as [-> _]; [done|]. by destruct H2.
Qed.

(** A run of [pipewrite] from position [i] stores the user's bytes from
    there on, and ends for one of the stated reasons: all [n] bytes are stored
    or the next one cannot be copied (the count is returned), nobody can read or
    the process is killed (-1), or the pipe is full (it sleeps). *)
Theorem pipewrite_correct copyin killed addr n i p q :
  0 ≤ i ≤ n → pipe_rep p q →
  ∃ r bs p', pipewrite copyin killed addr n i p = Ok ((r, bs), p') ∧ pipe_rep p' (q ++ bs) ∧
    (∀ j, (j < length bs)%nat → copyin (u64 (addr + i + Z.of_nat j)) = bs !! j) ∧
    match r with
    | WRet v =>
        (v = i + Z.of_nat (length bs) ∧ (v = n ∨ copyin (u64 (addr + v)) = None)) ∨
        (v = -1 ∧ i + Z.of_nat (length bs) < n ∧
          (readopen p = 0 ∨ killed (i + Z.of_nat (length bs)) = true))
    | WSleep j => j = i + Z.of_nat (length bs) ∧ j < n ∧ readopen p ≠ 0 ∧
        Z.of_nat (length (q ++ bs)) = PIPESIZE
    end.
Proof.
  intros Hi Hrep.
  destruct (write_spec copyin killed addr (negb (readopen p =? 0)) (Z.to_nat PIPESIZE - length q) (Z.to_nat (n - i)) i)
    as [r bs] eqn:Es.
  destruct (pipewrite_run copyin killed addr n i p q r bs ltac:(lia) Hrep Es) as (p' & E & Hrep' & _).
  destruct (write_spec_sound _ _ _ _ _ _ _ _ _ (proj1 Hi) Es) as (Hb & _ & _ & Hend).
  exists r, bs, p'. split_and!; [done..|].
  pose proof (ring_fits _ _ _ _ _ _ (rep_ring _ _ Hrep)).
  destruct r as [v|j].
  - destruct Hend as [[-> Hk]|(-> & Hk & ?)]; [left|right]; (split; [done|]).
    + destruct Hk; [left; lia|by right].
    + split; [lia|]. destruct Hk; [left|by right]. by destruct (Z.eqb_spec (readopen p) 0).
  - destruct Hend as (-> & Hlen & ? & ?). split_and!; [done|lia| |rewrite length_app; lia].
    by destruct (Z.eqb_spec (readopen p) 0).
Qed.

(** A run of [piperead] takes a prefix of the queue; the value returned counts
    the bytes stored in user memory.  It is the whole prefix unless a copy
    fails, in which case one more byte has left the pipe. *)
Theorem piperead_correct copyout killed addr n p q :
  pipe_rep p q → (∀ a, copyout a = true) → 0 ≤ n →
  (q ≠ [] ∨ writeopen p = 0) →
  ∃ p', piperead copyout killed addr n p =
      Ok ((RRet (Z.min n (Z.of_nat (length q))), take (Z.to_nat n) q, take (Z.to_nat n) q), p') ∧
    pipe_rep p' (drop (Z.to_nat n) q).
Proof.
  intros Hrep Hc Hn Hq. destruct (piperead_run copyout killed addr n p q Hrep)
    as (p' & r & bs & us & E & (q' & Eq & Hrep') & _ & Hif).
  replace (bool_decide (q = []) && negb (writeopen p =? 0)) with false in Hif.
  2:{ case_bool_decide; [|done]. destruct Hq as [|Hq]; [done|]. by rewrite Hq. }
  destruct Hif as (_ & _ & v & -> & Espec).
  assert (∀ k q i, read_spec copyout addr q k i = (i + Z.of_nat (min k (length q)), take k q, take k q)) as Hspec.
  { induction k as [|k IH]; intros q0 i; cbn [read_spec]; [cbn; by rewrite Z.add_0_r|].
    destruct q0 as [|c q0]; cbn; [by rewrite Z.add_0_r|]. rewrite Hc, IH. cbn. do 2 f_equal. lia. }
  rewrite Hspec in Espec. injection Espec as -> -> ->. exists p'. split; [rewrite E; do 5 f_equal; lia|].
  rewrite <- (take_drop (Z.to_nat n) q) in Eq at 1. by apply app_inv_head in Eq as <-.
Qed.

(** ** Instances *)

(** A pipe whose write counter is about to wrap around. *)
Definition wrapping : pipe :=
  mkPipe false (replicate 512 7) (2 ^ 32 - 2) (2 ^ 32 - 2) 1 1 false false.
Lemma wrapping_rep : pipe_rep wrapping [].
Proof. constructor; [done|]. apply ring_init; [side..|done|cbn; lia]. Qed.

Lemma pipe_fifo_witness : ∃ p q, pipe_rep p q ∧ [10; 11; 12; 13; 14] = [10; 11; 12] ++ q ∧ Z.of_nat (length q) ≤ PIPESIZE.
Proof.
  eexists. apply (pipe_fifo wrapping [] _ _ _ wrapping_rep).
  eapply rtc_l. { eapply (pstep_write _ (λ a, Some (a - 90)) (λ _, false) 100 5 0); [done|lia|vm_compute; reflexivity]. }
  eapply rtc_l. { eapply (pstep_read _ (λ _, true) false 0 3). vm_compute; reflexivity. }
  apply rtc_refl.
Defined.

Lemma pipe_no_lost_wakeup_witness : ∃ p, rwait p = true ∧
  (∃ q, pipe_rep p q ∧ no_lost_wakeup p q) ∧ (rwait p && wwait p) = false.
Proof.
  eexists. split; [|eapply (pipe_no_lost_wakeup (replicate 512 0) _ [] []); [reflexivity|]].
  2:{ eapply rtc_l. { eapply (pstep_read _ (λ _, true) false 0 3). vm_compute; reflexivity. } apply rtc_refl. }
  reflexivity.
Defined.

Lemma pipewrite_correct_witness :
  ∃ r bs p', pipewrite (λ a, Some (a - 90)) (λ _, false) 100 5 0 wrapping = Ok ((r, bs), p') ∧ pipe_rep p' bs.
Proof.
  destruct (pipewrite_correct (λ a, Some (a - 90)) (λ _, false) 100 5 0 wrapping [] ltac:(lia) wrapping_rep)
    as (r & bs & p' & E & Hrep & _). by exists r, bs, p'.
Defined.

(** A writer that is killed between two bytes of one call returns -1 without
    the wake-up: the reader stays asleep although the pipe holds a byte. *)
Theorem killed_writer_loses_wakeup :
  ∃ p1 p2, piperead (λ _, true) false 0 1 (pipeinit (replicate 512 0)) = Ok ((RSleep, [], []), p1) ∧
    pipewrite (λ _, Some 65) (λ i, 1 <=? i) 0 2 0 p1 = Ok ((WRet (-1), [65]), p2) ∧
    rwait p2 = true ∧ writeopen p2 = 1 ∧ nwrite p2 ≠ nread p2.
Proof. do 2 eexists. split_and!; [vm_compute; reflexivity..|vm_compute; done]. Qed.

(** A byte whose [copyout] fails has left the pipe: it is in no buffer. *)
Theorem failed_copyout_loses_byte :
  ∃ p1 p2, pipewrite (λ a, Some a) (λ _, false) 65 2 0 (pipeinit (replicate 512 0)) = Ok ((WRet 2, [65; 66]), p1) ∧
    piperead (λ _, false) false 0 1 p1 = Ok ((RRet 0, [65], []), p2) ∧ pipe_rep p2 [66].
Proof.
  destruct (pipewrite_run (λ a, Some a) (λ _, false) 65 2 0 (pipeinit (replicate 512 0)) [] (WRet 2) [65; 66])
    as (p1 & E1 & Hrep & _); [lia|by apply pipeinit_rep|done|].
  destruct (piperead_run (λ _, false) false 0 1 p1 _ Hrep) as (p2 & r & bs & us & E2 & (q' & Eq & Hrep2) & _ & Hif).
  destruct Hif as (_ & _ & v & -> & [= -> -> ->]). exists p1, p2. split_and!; [done..|]. by injection Eq as <-.
Qed.
End PipeProofs.
