(* ===== verification/Spinlock.v ===== *)
(** * Spin-locks and sleep-locks (kernel/spinlock.c, kernel/sleeplock.c)

    [push_off] and [pop_off] act on the state of one CPU.  [acquire] and
    [release] are sequences of memory accesses that interleave with those of
    the other CPUs: [lstep] has one rule per access that writes the lock.  The
    loads of [holding] are one rule in [acquire], and in [release] they are taken
    together with the store [lk->cpu = 0] that follows them: only the CPU itself
    ever makes itself the owner or stops being it. *)

From S2P Require Import Prelude.

Module Spinlock.

(** ** Interrupts *)

Definition SSTATUS_SIE : Z := Z.shiftl 1 1.

(** [sstatus] and the fields of [struct cpu] that [push_off] uses. *)
Record cpu := mkCpu { sstatus : Z; noff : Z; intena : Z }.

Definition intr_on (c : cpu) : cpu :=
  mkCpu (Z.lor (sstatus c) SSTATUS_SIE) (noff c) (intena c).
Definition intr_off (c : cpu) : cpu :=
  mkCpu (Z.land (sstatus c) (Z.lnot SSTATUS_SIE)) (noff c) (intena c).
Definition intr_get (c : cpu) : Z :=
  b2z (negb (Z.land (sstatus c) SSTATUS_SIE =? 0)).

Definition push_off : prog cpu unit :=
  c ← get;
  let old := intr_get c in
  modify intr_off;;
  modify (λ c, if noff c =? 0 then mkCpu (sstatus c) (noff c) old else c);;
  modify (λ c, mkCpu (sstatus c) (i32 (noff c + 1)) (intena c)).

Definition pop_off : prog cpu unit :=
  c ← get;
  if negb (intr_get c =? 0) then panic "pop_off - interruptible"
  else if noff c <? 1 then panic "pop_off"
  else
    modify (λ c, mkCpu (sstatus c) (noff c - 1) (intena c));;
    c ← get;
    if (noff c =? 0) && negb (intena c =? 0) then modify intr_on else skip.

(** A sequence of calls of [push_off] ([true]) and [pop_off] ([false]). *)
Fixpoint offs (w : list bool) : prog cpu unit :=
  match w with
  | [] => skip
  | true :: w' => push_off;; offs w'
  | false :: w' => pop_off;; offs w'
  end.

(** The nesting depth after a sequence of calls; [None] when some [pop_off]
    has no matching [push_off]. *)
Fixpoint depth (d : nat) (w : list bool) : option nat :=
  match w with
  | [] => Some d
  | true :: w' => depth (S d) w'
  | false :: w' => match d with O => None | S d' => depth d' w' end
  end.

(** ** Spin-locks *)

(** [struct spinlock]; [lcpu] is [None] for the null pointer. *)
Record spinlock := mkLock { locked : Z; lcpu : option nat }.

Definition initlock : spinlock := mkLock 0 None.
Definition holding (me : nat) (lk : spinlock) : bool :=
  negb (locked lk =? 0) && bool_decide (lcpu lk = Some me).
(** [__sync_lock_test_and_set(&lk->locked, 1)] *)
Definition test_and_set (lk : spinlock) : Z * spinlock := (locked lk, mkLock 1 (lcpu lk)).

(** Where a CPU is in [acquire] and [release]. *)
Inductive pc :=
| Out            (* outside *)
| Check_held     (* acquire: before [holding] *)
| Try            (* acquire: before the test-and-set *)
| Set_cpu        (* acquire: before [lk->cpu = mycpu()] *)
| Inside         (* between acquire and release *)
| Unlock         (* release: before [__sync_lock_release] *)
| Pop            (* release: before [pop_off] *)
| Panicked.
#[global] Instance pc_eq_dec : EqDecision pc.
Proof. solve_decision. Defined.

(** [held i]: how many other locks CPU [i] holds. *)
Record mach := mkMach { lk : spinlock; cpus : nat → cpu; pcs : nat → pc; held : nat → Z }.
Definition at_pc (m : mach) (i : nat) (l : spinlock) (q : pc) : mach :=
  mkMach l (cpus m) (<[i := q]> (pcs m)) (held m).
Definition cpu_at_pc (m : mach) (i : nat) (c : cpu) (q : pc) : mach :=
  mkMach (lk m) (<[i := c]> (cpus m)) (<[i := q]> (pcs m)) (held m).
Definition cpu_held (m : mach) (i : nat) (c : cpu) (h : Z) : mach :=
  mkMach (lk m) (<[i := c]> (cpus m)) (pcs m) (<[i := h]> (held m)).

Inductive lstep : mach → mach → Prop :=
(* other locks, taken and released in any order, and the interrupt flag when
   no lock is held *)
| s_other_push m i c' : pcs m i = Out ∨ pcs m i = Inside → held m i < 2 ^ 30 →
    push_off (cpus m i) = Ok (tt, c') →
    lstep m (cpu_held m i c' (held m i + 1))
| s_other_pop m i : pcs m i = Out ∨ pcs m i = Inside → 0 < held m i →
    lstep m (match pop_off (cpus m i) with
             | Ok (_, c') => cpu_held m i c' (held m i - 1)
             | _ => at_pc m i (lk m) Panicked
             end)
| s_intr m i c' : pcs m i = Out → noff (cpus m i) = 0 →
    c' = intr_on (cpus m i) ∨ c' = intr_off (cpus m i) →
    lstep m (cpu_at_pc m i c' Out)
(* acquire *)
| s_push m i c' : pcs m i = Out → push_off (cpus m i) = Ok (tt, c') →
    lstep m (cpu_at_pc m i c' Check_held)
| s_check m i : pcs m i = Check_held →
    lstep m (at_pc m i (lk m) (if holding i (lk m) then Panicked else Try))
| s_try m i : pcs m i = Try →
    lstep m (at_pc m i (test_and_set (lk m)).2
               (if (test_and_set (lk m)).1 =? 0 then Set_cpu else Try))
| s_set m i : pcs m i = Set_cpu →
    lstep m (at_pc m i (mkLock (locked (lk m)) (Some i)) Inside)
(* release *)
| s_release m i : pcs m i = Inside →
    lstep m (if holding i (lk m)
             then at_pc m i (mkLock (locked (lk m)) None) Unlock
             else at_pc m i (lk m) Panicked)
| s_unlock m i : pcs m i = Unlock →
    lstep m (at_pc m i (mkLock 0 (lcpu (lk m))) Pop)
| s_pop m i : pcs m i = Pop →
    lstep m (match pop_off (cpus m i) with
             | Ok (_, c') => cpu_at_pc m i c' Out
             | _ => at_pc m i (lk m) Panicked
             end).

(** The whole of [acquire] and [release] when no other CPU interferes. *)
Definition acquire (me : nat) : prog (spinlock * cpu) unit := λ '(l, c),
  match push_off c with
  | Ok (_, c') =>
      if holding me l then Panic "acquire"
      else if (test_and_set l).1 =? 0 then Ok (tt, (mkLock 1 (Some me), c')) else Spin
  | Panic e => Panic e | Fault => Fault | Spin => Spin
  end.
Definition release (me : nat) : prog (spinlock * cpu) unit := λ '(l, c),
  if negb (holding me l) then Panic "release"
  else match pop_off c with
  | Ok (_, c') => Ok (tt, (mkLock 0 None, c'))
  | Panic e => Panic e | Fault => Fault | Spin => Spin
  end.

(** ** Sleep-locks *)

Record sleeplock := mkSleep { slk : spinlock; slocked : Z; spid : Z; swait : bool }.

Section sleeplock.
Context (me : nat) (mypid : Z).

Definition with_slk (f : prog (spinlock * cpu) unit) : prog (sleeplock * cpu) unit := λ '(s, c),
  match f (slk s, c) with
  | Ok (_, (l, c')) => Ok (tt, (mkSleep l (slocked s) (spid s) (swait s), c'))
  | Panic e => Panic e | Fault => Fault | Spin => Spin
  end.
Definition initsleeplock : sleeplock := mkSleep initlock 0 0 false.

(** One turn of the loop of [acquiresleep]: it takes the lock ([true]), or
    sleeps, giving up [lk->lk]. *)
Definition acquiresleep_try : prog (sleeplock * cpu) bool :=
  with_slk (acquire me);;
  '(s, c) ← get;
  if negb (slocked s =? 0) then
    put (mkSleep (slk s) (slocked s) (spid s) true, c);;
    with_slk (release me);;
    mret false
  else
    put (mkSleep (slk s) 1 mypid (swait s), c);;
    with_slk (release me);;
    mret true.

Definition releasesleep : prog (sleeplock * cpu) unit :=
  with_slk (acquire me);;
  modify (λ '(s, c), (mkSleep (slk s) 0 0 false, c));;
  with_slk (release me).

Definition holdingsleep : prog (sleeplock * cpu) Z :=
  with_slk (acquire me);;
  '(s, c) ← get;
  with_slk (release me);;
  mret (b2z (negb (slocked s =? 0) && (spid s =? mypid))).
End sleeplock.

End Spinlock.
