(* ===== verification/SpinlockProofs.v ===== *)
(** * Mutual exclusion and interrupt nesting *)

From S2P Require Import Prelude Spinlock.
Import Spinlock.

Module SpinlockProofs.

(** ** The interrupt flag *)

Definition sie (c : cpu) : bool := Z.testbit (sstatus c) 1.

Lemma intr_get_sie c : intr_get c = b2z (sie c).
Proof.
  unfold intr_get, sie. f_equal.
  assert (Z.land (sstatus c) SSTATUS_SIE = if Z.testbit (sstatus c) 1 then 2 else 0) as ->.
  { apply Z.bits_inj'. intros n Hn. rewrite Z.land_spec. unfold SSTATUS_SIE. change (Z.shiftl 1 1) with (2 ^ 1).
    destruct (Z.eq_dec n 1) as [->|Hne].
    - by destruct (Z.testbit (sstatus c) 1).
    - rewrite Z.pow2_bits_false, andb_false_r by lia.
      destruct (Z.testbit (sstatus c) 1); [|by rewrite Z.testbit_0_l].
      change 2 with (2 ^ 1). by rewrite Z.pow2_bits_false by lia. }
  by destruct (Z.testbit (sstatus c) 1).
Qed.

Lemma sie_off c : sie (intr_off c) = false.
Proof. unfold sie, intr_off, SSTATUS_SIE. cbn [sstatus]. by rewrite Z.land_spec, Z.lnot_spec, andb_false_r by lia. Qed.
Lemma sie_on c : sie (intr_on c) = true.
Proof. unfold sie, intr_on, SSTATUS_SIE. cbn [sstatus]. by rewrite Z.lor_spec, orb_true_r by lia. Qed.

(** A bit other than SIE never changes. *)
Lemma other_bit_off c n : 0 ≤ n → n ≠ 1 → Z.testbit (sstatus (intr_off c)) n = Z.testbit (sstatus c) n.
Proof.
  intros. unfold intr_off, SSTATUS_SIE. cbn [sstatus]. rewrite Z.land_spec, Z.lnot_spec by lia.
  change (Z.shiftl 1 1) with (2 ^ 1). by rewrite Z.pow2_bits_false, andb_true_r by lia.
Qed.
Lemma other_bit_on c n : 0 ≤ n → n ≠ 1 → Z.testbit (sstatus (intr_on c)) n = Z.testbit (sstatus c) n.
Proof.
  intros. unfold intr_on, SSTATUS_SIE. cbn [sstatus]. rewrite Z.lor_spec.
  change (Z.shiftl 1 1) with (2 ^ 1). by rewrite Z.pow2_bits_false, orb_false_r by lia.
Qed.

(** Equal up to the flag. *)
Definition same_bits (c c' : cpu) : Prop :=
  ∀ n, 0 ≤ n → n ≠ 1 → Z.testbit (sstatus c') n = Z.testbit (sstatus c) n.

Lemma push_off_run c : 0 ≤ noff c < 2 ^ 31 - 1 →
  ∃ c', push_off c = Ok (tt, c') ∧ noff c' = noff c + 1 ∧ sie c' = false ∧ same_bits c c' ∧
    intena c' = if noff c =? 0 then b2z (sie c) else intena c.
Proof.
  intros Hn. unfold push_off. prog_run. eexists. split; [reflexivity|].
  rewrite intr_get_sie. cbn [noff intr_off].
  destruct (noff c =? 0); cbn [noff sie sstatus intena intr_off]; rewrite i32_small by lia;
    (split; [done|]); (split; [apply sie_off|]); (split; [|done]); intros n ? ?; by apply other_bit_off.
Qed.

Lemma pop_off_run c : 1 ≤ noff c → sie c = false →
  ∃ c', pop_off c = Ok (tt, c') ∧ noff c' = noff c - 1 ∧ same_bits c c' ∧ intena c' = intena c ∧
    sie c' = (noff c =? 1) && negb (intena c =? 0).
Proof.
  intros Hn Hs. unfold pop_off. prog_run. rewrite intr_get_sie, Hs. cbn [b2z Z.eqb negb].
  destruct (Z.ltb_spec (noff c) 1); [lia|]. prog_run. cbn [noff intena].
  replace (noff c - 1 =? 0) with (noff c =? 1) by (destruct (Z.eqb_spec (noff c) 1), (Z.eqb_spec (noff c - 1) 0); lia).
  destruct ((noff c =? 1) && negb (intena c =? 0)); eexists; (split; [reflexivity|]); cbn [noff intena intr_on].
  - split_and!; [done| |done|apply (sie_on (mkCpu _ _ _))].
    intros n ? ?. by apply (other_bit_on (mkCpu _ _ _)).
  - by split_and!.
Qed.

(** Interrupts are off inside a critical section. *)
Definition cpu_ok (c : cpu) : Prop := 0 ≤ noff c < 2 ^ 30 ∧ (0 < noff c → sie c = false).

Lemma push_cpu c : cpu_ok c → ∃ c', push_off c = Ok (tt, c') ∧ noff c' = noff c + 1 ∧ sie c' = false ∧
  (∀ c'', noff c'' = noff c' → sie c'' = false → intena c'' = intena c' →
    ∃ c3, pop_off c'' = Ok (tt, c3) ∧ cpu_ok c3 ∧ noff c3 = noff c ∧ sie c3 = sie c).
Proof.
  intros [Hn Ho]. destruct (push_off_run c ltac:(lia)) as (c' & E & H1 & H2 & _ & H4).
  exists c'. split_and!; [done..|]. intros c'' E1 E2 E3.
  destruct (pop_off_run c'' ltac:(lia) E2) as (c3 & E' & H5 & _ & _ & H8).
  assert (sie c3 = sie c) as Hsie.
  { rewrite H8, E1, E3, H1, H4.
    destruct (Z.eqb_spec (noff c) 0) as [->|]; [by destruct (sie c)|].
    destruct (Z.eqb_spec (noff c + 1) 1); [lia|]. by rewrite Ho by lia. }
  exists c3. split_and!; [done| |lia|done]. split; [lia|]. intros ?. rewrite Hsie. apply Ho. lia.
Qed.

(** The state of a CPU [d] calls deep whose interrupts were [b] at depth 0. *)
Definition nested (c0 : cpu) (d : nat) (c : cpu) : Prop :=
  noff c = Z.of_nat d ∧ same_bits c0 c ∧
  match d with
  | O => sie c = sie c0
  | S _ => sie c = false ∧ intena c = b2z (sie c0)
  end.

Lemma same_bits_trans a b c : same_bits a b → same_bits b c → same_bits a c.
Proof. intros H1 H2 n ? ?. rewrite H2 by done. by apply H1. Qed.

Lemma nested_push c0 d c : nested c0 d c → Z.of_nat d < 2 ^ 30 →
  ∃ c', push_off c = Ok (tt, c') ∧ nested c0 (S d) c'.
Proof.
  intros (Hn & Hb & Hd) Hlt. destruct (push_off_run c) as (c' & E & H1 & H2 & H3 & H4); [lia|].
  exists c'. split; [done|]. split; [lia|]. split; [by eapply same_bits_trans|]. split; [done|].
  rewrite H4, Hn. destruct d; [by rewrite <- Hd|]. destruct (Z.eqb_spec (Z.of_nat (S d)) 0); [lia|]. apply Hd.
Qed.

Lemma nested_pop c0 d c : nested c0 (S d) c → ∃ c', pop_off c = Ok (tt, c') ∧ nested c0 d c'.
Proof.
  intros (Hn & Hb & Hs & Hi). destruct (pop_off_run c) as (c' & E & H1 & H2 & H3 & H4); [lia|done|].
  exists c'. split; [done|]. split; [lia|]. split; [by eapply same_bits_trans|].
  rewrite H4, Hi, Hn. destruct d as [|d].
  - change (Z.of_nat 1 =? 1) with true. by destruct (sie c0).
  - rewrite H3. destruct (Z.eqb_spec (Z.of_nat (S (S d))) 1); [lia|done].
Qed.

Lemma nested_offs c0 w : ∀ d d' c, nested c0 d c → depth d w = Some d' →
  Z.of_nat d + Z.of_nat (length w) < 2 ^ 30 →
  ∃ c', offs w c = Ok (tt, c') ∧ nested c0 d' c'.
Proof.
  induction w as [|[] w IH]; intros d d' c Hc Hd Hlen; cbn [depth offs length] in *.
  - injection Hd as <-. by exists c.
  - destruct (nested_push _ _ _ Hc) as (c1 & E1 & H1); [lia|]. prog_step E1.
    apply (IH (S d)); [done|done|lia].
  - destruct d as [|d]; [done|]. destruct (nested_pop _ _ _ Hc) as (c1 & E1 & H1). prog_step E1.
    apply (IH d); [done|done|lia].
Qed.

(** ** The lock *)

Definition crit (q : pc) : bool := match q with Set_cpu | Inside | Unlock => true | _ => false end.
Definition own (q : pc) : Z := match q with Out => 0 | _ => 1 end.

Record linv (m : mach) : Prop := {
  inv_np i : pcs m i ≠ Panicked;
  inv_cpu i : lcpu (lk m) = Some i ↔ pcs m i = Inside;
  inv_uniq i j : crit (pcs m i) = true → crit (pcs m j) = true → i = j;
  inv_locked : if locked (lk m) =? 0 then ∀ i, crit (pcs m i) = false else ∃ i, crit (pcs m i) = true;
  inv_noff i : noff (cpus m i) = held m i + own (pcs m i) ∧ 0 ≤ held m i ≤ 2 ^ 30;
  inv_off i : 0 < noff (cpus m i) → sie (cpus m i) = false }.

Definition minit (c : nat → cpu) : mach := mkMach initlock c (λ _, Out) (λ _, 0).

Lemma linv_init c : (∀ i, noff (c i) = 0) → linv (minit c).
Proof. intros H. constructor; cbn; [done|naive_solver|done|done| |]; intros i; rewrite H; lia. Qed.

Section step.
Context (m : mach) (H : linv m) (i : nat).

(** A step of CPU [i] that only runs the interrupt code. *)
Lemma linv_cpu m' : lk m' = lk m →
  (∀ j, j ≠ i → cpus m' j = cpus m j ∧ pcs m' j = pcs m j ∧ held m' j = held m j) →
  crit (pcs m' i) = crit (pcs m i) → pcs m' i ≠ Panicked → (pcs m' i = Inside ↔ pcs m i = Inside) →
  noff (cpus m' i) = held m' i + own (pcs m' i) → 0 ≤ held m' i ≤ 2 ^ 30 →
  (0 < noff (cpus m' i) → sie (cpus m' i) = false) →
  linv m'.
Proof using H.
  intros El Eo Hc Hp Hin Hn Hh Ho. destruct H as [H1 H2 H3 H4 H5 H6].
  assert (∀ j, crit (pcs m' j) = crit (pcs m j)) as Hcr.
  { intros j. destruct (decide (j = i)) as [->|Hj]; [done|]. by destruct (Eo j Hj) as (_ & -> & _). }
  constructor; rewrite ?El.
  - intros j. destruct (decide (j = i)) as [->|Hj]; [done|]. by destruct (Eo j Hj) as (_ & -> & _).
  - intros j. rewrite H2. destruct (decide (j = i)) as [->|Hj]; [done|]. by destruct (Eo j Hj) as (_ & -> & _).
  - intros j k. rewrite !Hcr. apply H3.
  - destruct (_ =? 0); [intros j; by rewrite Hcr|]. destruct H4 as [j Hj]. exists j. by rewrite Hcr.
  - intros j. destruct (decide (j = i)) as [->|Hj]; [done|]. destruct (Eo j Hj) as (-> & -> & ->). apply H5.
  - intros j. destruct (decide (j = i)) as [->|Hj]; [done|]. destruct (Eo j Hj) as (-> & _ & _). apply H6.
Qed.

(** A step of CPU [i] that changes the lock word or the owner. *)
Lemma linv_lock l q : pcs m i ≠ Out → q ≠ Out → q ≠ Panicked →
  (∀ j, lcpu l = Some j ↔ (<[i := q]> (pcs m)) j = Inside) →
  (∀ j k, crit ((<[i := q]> (pcs m)) j) = true → crit ((<[i := q]> (pcs m)) k) = true → j = k) →
  (if locked l =? 0 then ∀ j, crit ((<[i := q]> (pcs m)) j) = false
   else ∃ j, crit ((<[i := q]> (pcs m)) j) = true) →
  linv (at_pc m i l q).
Proof using H.
  intros Ho Hq Hp H2' H3' H4'. destruct H as [H1 H2 H3 H4 H5 H6]. constructor; cbn; [|done..| |done].
  - intros j. destruct (decide (j = i)) as [->|]; [by rewrite fn_lookup_insert|by rewrite fn_lookup_insert_ne].
  - intros j. specialize (H5 j). destruct (decide (j = i)) as [->|]; [|by rewrite fn_lookup_insert_ne].
    rewrite fn_lookup_insert. destruct (pcs m i), q; done.
Qed.

Lemma holding_inside : holding i (lk m) = true ↔ pcs m i = Inside.
Proof using H.
  rewrite <- (inv_cpu _ H i). unfold holding. rewrite andb_true_iff, bool_decide_eq_true.
  split; [by intros [_ ?]|]. intros Hi. split; [|done]. pose proof (inv_locked _ H) as Hl.
  destruct (locked (lk m) =? 0); [|done]. specialize (Hl i).
  apply (inv_cpu _ H) in Hi. by rewrite Hi in Hl.
Qed.

(** A CPU that is not in the critical part stays out of it. *)
Lemma crit_others q j : crit (pcs m i) = true → j ≠ i → crit ((<[i := q]> (pcs m)) j) = false.
Proof using H.
  intros Hi Hj. rewrite fn_lookup_insert_ne by done. destruct (crit (pcs m j)) eqn:E; [|done].
  by destruct (inv_uniq _ H i j Hi E).
Qed.
End step.

Local Ltac others := let j := fresh in intros j ?; cbn; by rewrite ?fn_lookup_insert_ne.
Local Ltac here := cbn; rewrite ?fn_lookup_insert.

Lemma linv_push m i m' c' : linv m → (pcs m i = Out ∨ pcs m i = Inside) → held m i < 2 ^ 30 →
  push_off (cpus m i) = Ok (tt, c') → m' = cpu_held m i c' (held m i + 1) → linv m'.
Proof.
  intros H Hpc Hlt E ->. destruct (inv_noff m H i) as [Hn Hh].
  assert (own (pcs m i) ≤ 1) by (by destruct (pcs m i)).
  assert (0 ≤ own (pcs m i)) by (by destruct (pcs m i)).
  destruct (push_off_run (cpus m i)) as (c0 & E0 & Hn0 & Hs0 & _); [lia|].
  rewrite E in E0. injection E0 as <-.
  eapply (linv_cpu m H i); [done|others|here..]; [done|apply (inv_np m H)|done|lia|lia|done].
Qed.

Lemma linv_acquire m i c' : linv m → pcs m i = Out → push_off (cpus m i) = Ok (tt, c') →
  linv (cpu_at_pc m i c' Check_held).
Proof.
  intros H Hpc E. destruct (inv_noff m H i) as [Hn Hh]. rewrite Hpc in Hn. cbn in Hn.
  destruct (push_off_run (cpus m i)) as (c0 & E0 & Hn0 & Hs0 & _); [lia|].
  rewrite E in E0. injection E0 as <-.
  eapply (linv_cpu m H i); [done|others|here..]; [by rewrite Hpc|done|by rewrite Hpc|cbn; lia|lia|done].
Qed.

(** [pop_off] does not panic as long as some lock is held. *)
Lemma pop_held m i : linv m → 0 < held m i + own (pcs m i) →
  ∃ c', pop_off (cpus m i) = Ok (tt, c') ∧ noff c' = noff (cpus m i) - 1 ∧ (0 < noff c' → sie c' = false).
Proof.
  intros H Hp. destruct (inv_noff m H i) as [Hn Hh].
  destruct (pop_off_run (cpus m i)) as (c' & E & H1 & _ & _ & H4); [lia|apply (inv_off m H); lia|].
  exists c'. split_and!; [done..|]. intros Hpos. rewrite H4. destruct (Z.eqb_spec (noff (cpus m i)) 1); [lia|done].
Qed.

Lemma linv_try m i : linv m → pcs m i = Try →
  linv (at_pc m i (test_and_set (lk m)).2 (if (test_and_set (lk m)).1 =? 0 then Set_cpu else Try)).
Proof.
  intros H Hpc. cbn [test_and_set fst snd]. pose proof (inv_locked m H) as Hl. pose proof (inv_cpu m H) as Hc.
  apply (linv_lock m H i); [by rewrite Hpc|by destruct (_ =? 0)..| | |]; cbn [lcpu locked].
  - intros j. rewrite Hc. destruct (decide (j = i)) as [->|]; [|by rewrite fn_lookup_insert_ne].
    rewrite fn_lookup_insert, Hpc. by destruct (_ =? 0).
  - intros j k. destruct (locked (lk m) =? 0) eqn:E.
    + destruct (decide (j = i)) as [->|], (decide (k = i)) as [->|]; rewrite ?fn_lookup_insert, ?fn_lookup_insert_ne by done; rewrite ?Hl; done.
    + destruct (decide (j = i)) as [->|], (decide (k = i)) as [->|]; rewrite ?fn_lookup_insert, ?fn_lookup_insert_ne by done; try done.
      apply (inv_uniq m H).
  - change (1 =? 0) with false. cbv iota. destruct (locked (lk m) =? 0) eqn:E.
    + exists i. by rewrite fn_lookup_insert.
    + destruct Hl as [j Hj]. exists j. rewrite fn_lookup_insert_ne; [done|]. intros ->. by rewrite Hpc in Hj.
Qed.

(** The holder moves on: it sets or clears the owner. *)
Lemma linv_owner m i o q : linv m → crit (pcs m i) = true → crit q = true →
  o = (if decide (q = Inside) then Some i else None) →
  linv (at_pc m i (mkLock (locked (lk m)) o) q).
Proof.
  intros H Hi Hq ->. pose proof (inv_locked m H) as Hl.
  apply (linv_lock m H i); [by intros E; rewrite E in Hi|by intros ->|by intros ->| | |]; cbn [lcpu locked].
  - intros j. destruct (decide (j = i)) as [->|Hj].
    + rewrite fn_lookup_insert. by destruct (decide (q = Inside)).
    + split; [by destruct (decide (q = Inside)); [intros [= ->]|]|]. intros Hin.
      pose proof (crit_others m H i q j Hi Hj) as Hcr. by rewrite Hin in Hcr.
  - intros j k Hj Hk. destruct (decide (j = i)) as [->|Hji], (decide (k = i)) as [->|Hki]; try done.
    + by rewrite (crit_others m H i q k) in Hk.
    + by rewrite (crit_others m H i q j) in Hj.
    + by rewrite (crit_others m H i q j) in Hj.
  - destruct (locked (lk m) =? 0).
    + by rewrite Hl in Hi.
    + exists i. by rewrite fn_lookup_insert.
Qed.

Lemma linv_unlock m i : linv m → pcs m i = Unlock → linv (at_pc m i (mkLock 0 (lcpu (lk m))) Pop).
Proof.
  intros H Hpc. assert (crit (pcs m i) = true) as Hi by (by rewrite Hpc).
  assert (∀ j, crit ((<[i := Pop]> (pcs m)) j) = false) as Hcr.
  { intros j. destruct (decide (j = i)) as [->|Hj]; [by rewrite fn_lookup_insert|by apply crit_others]. }
  apply (linv_lock m H i); [by rewrite Hpc|done|done| | |]; cbn [lcpu locked].
  - intros j. rewrite (inv_cpu m H). destruct (decide (j = i)) as [->|Hj]; [by rewrite fn_lookup_insert, Hpc|by rewrite fn_lookup_insert_ne].
  - intros j k. by rewrite Hcr.
  - done.
Qed.

Lemma linv_check m i : linv m → pcs m i = Check_held → linv (at_pc m i (lk m) Try).
Proof.
  intros H Hpc. destruct (inv_noff m H i) as [Hn Hh]. rewrite Hpc in Hn.
  eapply (linv_cpu m H i); [done|others|here..]; [by rewrite Hpc|done|by rewrite Hpc|done|done|apply (inv_off m H)].
Qed.

Lemma lock_inv_step m m' : lstep m m' → linv m → linv m'.
Proof.
  intros Hs H. destruct Hs as [m i c' Hpc Hlt E|m i Hpc Hpos|m i c' Hpc H0 Hc|m i c' Hpc E|m i Hpc|m i Hpc|m i Hpc|m i Hpc|m i Hpc|m i Hpc].
  - by eapply linv_push.
  - destruct (pop_held m i H) as (c' & -> & Hn & Ho); [by destruct (pcs m i); cbn; lia|].
    destruct (inv_noff m H i) as [Hn' Hh].
    eapply (linv_cpu m H i); [done|others|here..]; [done|apply (inv_np m H)|done|lia|lia|done].
  - destruct (inv_noff m H i) as [Hn' Hh]. rewrite Hpc in Hn'. cbn in Hn'.
    assert (noff c' = noff (cpus m i)) as En by (by destruct Hc as [->| ->]).
    eapply (linv_cpu m H i); [done|others|here..]; [by rewrite Hpc|done|by rewrite Hpc|cbn; lia|done|lia].
  - by apply linv_acquire.
  - destruct (holding i (lk m)) eqn:E; [|by apply linv_check].
    apply (holding_inside m H) in E. congruence.
  - by apply linv_try.
  - by apply linv_owner; [|rewrite Hpc|..].
  - rewrite (proj2 (holding_inside m H i) Hpc). by apply linv_owner; [|rewrite Hpc|..].
  - by apply linv_unlock.
  - destruct (inv_noff m H i) as [Hn' Hh].
    destruct (pop_held m i H) as (c' & -> & Hn & Ho); [rewrite Hpc; cbn; lia|]. rewrite Hpc in Hn'. cbn in Hn'.
    eapply (linv_cpu m H i); [done|others|here..]; [by rewrite Hpc|done|by rewrite Hpc|cbn; lia|done|done].
Qed.

(** ** Theorems *)

(** C18: At any moment of any interleaving of the CPUs' memory accesses, at most
    one CPU is between [acquire] and [release]; that CPU has its interrupts off
    and owns the lock, the lock word is set only while some CPU is in the
    process of holding it, and no CPU panics. *)
Theorem spinlock_mutex c m :
  (∀ i, noff (c i) = 0) → rtc lstep (minit c) m →
  (∀ i j, pcs m i = Inside → pcs m j = Inside → i = j) ∧
  (∀ i, pcs m i = Inside → intr_get (cpus m i) = 0 ∧ holding i (lk m) = true) ∧
  (locked (lk m) ≠ 0 → ∃ i, crit (pcs m i) = true) ∧
  (∀ i, pcs m i ≠ Panicked).
Proof.
  intros Hc Hrtc. assert (linv m) as H.
  { refine (rtc_ind_r linv _ _ _ _ Hrtc); [by apply linv_init|]. intros x y _ Hs. by apply lock_inv_step. }
  split_and!.
  - intros i j Hi Hj. apply (inv_uniq m H); by rewrite ?Hi, ?Hj.
  - intros i Hi. split; [|by apply (holding_inside m H)]. rewrite intr_get_sie, (inv_off m H); [done|].
    destruct (inv_noff m H i) as [-> ?]. rewrite Hi. cbn. lia.
  - intros Hl. pose proof (inv_locked m H) as Hk. by destruct (Z.eqb_spec (locked (lk m)) 0).
  - apply (inv_np m H).
Qed.

(** [push_off] and [pop_off] match: any sequence of calls in which no
    [pop_off] comes before its [push_off] runs without panic, keeps interrupts
    off while the nesting is positive, and once balanced restores [sstatus] and
    the depth as they were. *)
Theorem push_pop_matched c w d :
  noff c = 0 → 0 ≤ sstatus c → depth 0 w = Some d → Z.of_nat (length w) < 2 ^ 30 →
  ∃ c', offs w c = Ok (tt, c') ∧ noff c' = Z.of_nat d ∧
    (d = 0%nat → sstatus c' = sstatus c) ∧ (d ≠ 0%nat → intr_get c' = 0).
Proof.
  intros Hn Hs Hd Hl. destruct (nested_offs c w 0 d c) as (c' & E & H1 & H2 & H3); [by repeat split|done|cbn; lia|].
  exists c'. split_and!; [done..| |].
  - intros ->. apply Z.bits_inj'. intros n Hn'. destruct (Z.eq_dec n 1) as [->|]; [apply H3|by apply H2].
  - intros Hne. destruct d; [done|]. rewrite intr_get_sie. destruct H3 as [-> _]. done.
Qed.

(** ** Instances *)

Definition cpu_on : cpu := mkCpu 2 0 0.

Lemma spinlock_mutex_witness :
  ∃ m, pcs m 1 = Inside ∧ pcs m 2 = Try ∧ ∀ i, pcs m i ≠ Panicked.
Proof.
  eexists. split; [|split]; [| |apply (spinlock_mutex (λ _, cpu_on)); [done|]].
  3:{ eapply rtc_l; [eapply (s_push _ 1); [reflexivity|vm_compute; reflexivity]|]. eapply rtc_l; [eapply (s_check _ 1); reflexivity|].
      eapply rtc_l; [eapply (s_try _ 1); reflexivity|]. eapply rtc_l; [eapply (s_push _ 2); [reflexivity|vm_compute; reflexivity]|].
      eapply rtc_l; [eapply (s_set _ 1); reflexivity|]. eapply rtc_l; [eapply (s_check _ 2); reflexivity|].
      eapply rtc_l; [eapply (s_try _ 2); reflexivity|]. apply rtc_refl. }
  - reflexivity.
  - reflexivity.
Defined.

Lemma push_pop_matched_witness :
  ∃ c', offs [true; true; false; false] cpu_on = Ok (tt, c') ∧ noff c' = 0 ∧ sstatus c' = 2.
Proof.
  destruct (push_pop_matched cpu_on [true; true; false; false] 0) as (c' & E & Hn & Hs & _); [done..|].
  exists c'. by split_and!; [| |apply Hs].
Defined.

(** The errors of the lock: acquiring it twice on one CPU, and releasing it
    without holding it. *)
Theorem lock_misuse_panics me l c :
  0 ≤ noff c < 2 ^ 31 - 1 →
  (holding me l = true → acquire me (l, c) = Panic "acquire") ∧
  (holding me l = false → release me (l, c) = Panic "release").
Proof.
  intros Hn. split; intros Hh; unfold acquire, release.
  - destruct (push_off_run c Hn) as (c' & -> & _). by rewrite Hh.
  - by rewrite Hh.
Qed.

(** A sleep-lock is given to one process at a time, whoever asks. *)
Theorem acquiresleep_exclusive me pid s c :
  slk s = mkLock 0 None → 0 ≤ noff c < 2 ^ 30 → (0 < noff c → sie c = false) →
  ∃ c', acquiresleep_try me pid (s, c) =
    Ok (slocked s =? 0,
        (if slocked s =? 0 then mkSleep (slk s) 1 pid (swait s)
         else mkSleep (slk s) (slocked s) (spid s) true, c')) ∧ noff c' = noff c.
Proof.
  intros Hl Hn Ho. unfold acquiresleep_try, with_slk.
  destruct (push_off_run c ltac:(lia)) as (c1 & E1 & Hn1 & Hs1 & _).
  destruct (pop_off_run c1 ltac:(lia) Hs1) as (c2 & E2 & Hn2 & _).
  exists c2. unfold mbind, prog_bind, acquire, release. rewrite Hl. unfold holding at 1. cbn [locked lcpu Z.eqb negb andb].
  rewrite E1. cbn [test_and_set fst locked Z.eqb]. cbn.
  destruct (slocked s =? 0); cbn; rewrite bool_decide_true by done; cbn; rewrite E2; split; [done|lia|done|lia].
Qed.
End SpinlockProofs.
