(* ===== verification/Console.v ===== *)
(** * The serial port and the console (kernel/uart.c, kernel/console.c)

    The UART is a device: [lsr n] is the value of the [n]-th reading of its line
    status register, [rhr n] the [n]-th byte read from its receive register.
    The register writes of the driver are recorded in order.  As for pipes, a
    call that sleeps is a sequence of runs between sleeps. *)

From S2P Require Import Prelude Ring Spinlock.
Import Ring.

Module Uart.

Definition RHR : Z := 0.
Definition THR : Z := 0.
Definition IER : Z := 1.
Definition IER_RX_ENABLE : Z := Z.shiftl 1 0.
Definition IER_TX_ENABLE : Z := Z.shiftl 1 1.
Definition FCR : Z := 2.
Definition FCR_FIFO_ENABLE : Z := Z.shiftl 1 0.
Definition FCR_FIFO_CLEAR : Z := Z.shiftl 3 1.
Definition LCR : Z := 3.
Definition LCR_EIGHT_BITS : Z := Z.shiftl 3 0.
Definition LCR_BAUD_LATCH : Z := Z.shiftl 1 7.
Definition LSR_TX_IDLE : Z := Z.shiftl 1 5.
Definition UART_TX_BUF_SIZE : Z := 32.

(** The driver's variables, whether some process sleeps on [&uart_tx_r], the
    state of the CPU, and the device: the readings taken so far and the writes
    made (register and value). *)
Record uart := mkUart {
  tx_lock : bool;
  tx_buf : list Z;
  tx_w : Z;
  tx_r : Z;
  tx_wait : bool;
  panicked : bool;
  ucpu : Spinlock.cpu;
  lsr_pos : nat;
  rhr_pos : nat;
  writes : list (Z * Z) }.

Definition set_tx_lock v u := mkUart v (tx_buf u) (tx_w u) (tx_r u) (tx_wait u) (panicked u) (ucpu u) (lsr_pos u) (rhr_pos u) (writes u).
Definition set_tx_buf v u := mkUart (tx_lock u) v (tx_w u) (tx_r u) (tx_wait u) (panicked u) (ucpu u) (lsr_pos u) (rhr_pos u) (writes u).
Definition set_tx_w v u := mkUart (tx_lock u) (tx_buf u) v (tx_r u) (tx_wait u) (panicked u) (ucpu u) (lsr_pos u) (rhr_pos u) (writes u).
Definition set_tx_r v u := mkUart (tx_lock u) (tx_buf u) (tx_w u) v (tx_wait u) (panicked u) (ucpu u) (lsr_pos u) (rhr_pos u) (writes u).
Definition set_tx_wait v u := mkUart (tx_lock u) (tx_buf u) (tx_w u) (tx_r u) v (panicked u) (ucpu u) (lsr_pos u) (rhr_pos u) (writes u).
Definition set_ucpu v u := mkUart (tx_lock u) (tx_buf u) (tx_w u) (tx_r u) (tx_wait u) (panicked u) v (lsr_pos u) (rhr_pos u) (writes u).
Definition set_lsr_pos v u := mkUart (tx_lock u) (tx_buf u) (tx_w u) (tx_r u) (tx_wait u) (panicked u) (ucpu u) v (rhr_pos u) (writes u).
Definition set_rhr_pos v u := mkUart (tx_lock u) (tx_buf u) (tx_w u) (tx_r u) (tx_wait u) (panicked u) (ucpu u) (lsr_pos u) v (writes u).
Definition set_writes v u := mkUart (tx_lock u) (tx_buf u) (tx_w u) (tx_r u) (tx_wait u) (panicked u) (ucpu u) (lsr_pos u) (rhr_pos u) v.

Definition acquire : prog uart unit := λ u,
  if tx_lock u then Panic "acquire" else Ok (tt, set_tx_lock true u).
Definition release : prog uart unit := λ u,
  if tx_lock u then Ok (tt, set_tx_lock false u) else Panic "release".
Definition on_cpu (f : prog Spinlock.cpu unit) : prog uart unit := λ u,
  match f (ucpu u) with
  | Ok (_, c) => Ok (tt, set_ucpu c u)
  | Panic e => Panic e | Fault => Fault | Spin => Spin
  end.

Section device.
Context (lsr rhr : nat → Z).

Definition read_lsr : prog uart Z := λ u, Ok (lsr (lsr_pos u), set_lsr_pos (S (lsr_pos u)) u).
Definition read_rhr : prog uart Z := λ u, Ok (rhr (rhr_pos u), set_rhr_pos (S (rhr_pos u)) u).
Definition write_reg (reg v : Z) : prog uart unit :=
  modify (λ u, set_writes (writes u ++ [(reg, u8 v)]) u).

Definition uartinit : prog uart unit :=
  write_reg IER 0;;
  write_reg LCR LCR_BAUD_LATCH;;
  write_reg 0 3;;
  write_reg 1 0;;
  write_reg LCR LCR_EIGHT_BITS;;
  write_reg FCR (Z.lor FCR_FIFO_ENABLE FCR_FIFO_CLEAR);;
  write_reg IER (Z.lor IER_TX_ENABLE IER_RX_ENABLE);;
  modify (set_tx_lock false).

(** The loop of [uartstart]; it ends when the buffer is empty, at the latest
    after [UART_TX_BUF_SIZE] bytes. *)
Fixpoint uartstart_loop (fuel : nat) : prog uart unit :=
  match fuel with
  | O => spin
  | S fuel' =>
      u ← get;
      if tx_w u =? tx_r u then skip
      else
        l ← read_lsr;
        if Z.land l LSR_TX_IDLE =? 0 then skip
        else
          match tx_buf u !! Z.to_nat (tx_r u `mod` UART_TX_BUF_SIZE) with
          | None => fault
          | Some c =>
              modify (set_tx_r (u64 (tx_r u + 1)));;
              modify (set_tx_wait false);;
              write_reg THR c;;
              uartstart_loop fuel'
          end
  end.
Definition uartstart : prog uart unit := uartstart_loop (Z.to_nat UART_TX_BUF_SIZE + 1).

(** A run of [uartputc]: from the call ([start]) or from the wake-up of its
    sleep.  [false]: the buffer is full and the call sleeps. *)
Definition uartputc (start : bool) (c : Z) : prog uart bool :=
  acquire;;
  u ← get;
  if start && panicked u then spin
  else if tx_w u =? u64 (tx_r u + UART_TX_BUF_SIZE) then
    modify (set_tx_wait true);;
    release;;
    mret false
  else
    modify (set_tx_buf (<[Z.to_nat (tx_w u `mod` UART_TX_BUF_SIZE) := u8 c]> (tx_buf u)));;
    modify (set_tx_w (u64 (tx_w u + 1)));;
    uartstart;;
    release;;
    mret true.

(** The loop that waits for the transmit register. *)
Fixpoint wait_idle (fuel : nat) : prog uart unit :=
  match fuel with
  | O => spin
  | S fuel' =>
      l ← read_lsr;
      if Z.land l LSR_TX_IDLE =? 0 then wait_idle fuel' else skip
  end.
Definition uartputc_sync (fuel : nat) (c : Z) : prog uart unit :=
  on_cpu Spinlock.push_off;;
  u ← get;
  if panicked u then spin
  else
    wait_idle fuel;;
    write_reg THR c;;
    on_cpu Spinlock.pop_off.

Definition uartgetc : prog uart Z :=
  l ← read_lsr;
  if negb (Z.land l 1 =? 0) then read_rhr else mret (-1).
End device.

End Uart.

Module Console.
Import Uart.

Definition BACKSPACE : Z := 256.
Definition C (x : Z) : Z := x - 64.
Definition INPUT_BUF_SIZE : Z := 128.
Definition NL : Z := 10.

(** [cons], and whether some process sleeps on [&cons.r]. *)
Record console := mkConsole {
  lock : bool;
  buf : list Z;
  r : Z;
  w : Z;
  e : Z;
  rwait : bool }.

Definition set_lock v c := mkConsole v (buf c) (r c) (w c) (e c) (rwait c).
Definition set_buf v c := mkConsole (lock c) v (r c) (w c) (e c) (rwait c).
Definition set_r v c := mkConsole (lock c) (buf c) v (w c) (e c) (rwait c).
Definition set_w v c := mkConsole (lock c) (buf c) (r c) v (e c) (rwait c).
Definition set_e v c := mkConsole (lock c) (buf c) (r c) (w c) v (rwait c).
Definition set_rwait v c := mkConsole (lock c) (buf c) (r c) (w c) (e c) v.

Definition state : Type := console * uart.
Definition gcons : prog state console := gets fst.
Definition mcons (f : console → console) : prog state unit := modify (λ '(c, u), (f c, u)).
Definition on_uart {A} (m : prog uart A) : prog state A := λ '(c, u),
  match m u with
  | Ok (a, u') => Ok (a, (c, u'))
  | Panic e => Panic e | Fault => Fault | Spin => Spin
  end.

Definition acquire : prog state unit :=
  c ← gcons; if lock c then panic "acquire" else mcons (set_lock true).
Definition release : prog state unit :=
  c ← gcons; if lock c then mcons (set_lock false) else panic "release".

(** [cons.buf[i % INPUT_BUF_SIZE]] *)
Definition read_buf (i : Z) : prog state Z :=
  c ← gcons;
  match buf c !! Z.to_nat (i `mod` INPUT_BUF_SIZE) with Some x => mret x | None => fault end.

Section console.
Context (lsr rhr : nat → Z) (fuel : nat) (procdump : prog uart unit).

Definition consputc (c : Z) : prog uart unit :=
  if c =? BACKSPACE then
    uartputc_sync lsr fuel 8;; uartputc_sync lsr fuel 32;; uartputc_sync lsr fuel 8
  else uartputc_sync lsr fuel c.

(** The loop of kill-line; each turn takes back [cons.e]. *)
Fixpoint kill_loop (k : nat) : prog state unit :=
  match k with
  | O => spin
  | S k' =>
      c ← gcons;
      if e c =? w c then skip
      else
        x ← read_buf (u32 (e c - 1));
        if x =? NL then skip
        else
          mcons (set_e (u32 (e c - 1)));;
          on_uart (consputc BACKSPACE);;
          kill_loop k'
  end.

Definition consoleintr (c : Z) : prog state unit :=
  acquire;;
  (if c =? C 80 then on_uart procdump
   else if c =? C 85 then kill_loop (Z.to_nat INPUT_BUF_SIZE + 1)
   else if (c =? C 72) || (c =? 127) then
     s ← gcons;
     if e s =? w s then skip
     else
       mcons (set_e (u32 (e s - 1)));;
       on_uart (consputc BACKSPACE)
   else
     s ← gcons;
     if negb (c =? 0) && (u32 (e s - r s) <? INPUT_BUF_SIZE) then
       let c := if c =? 13 then NL else c in
       on_uart (consputc c);;
       mcons (λ s, set_buf (<[Z.to_nat (e s `mod` INPUT_BUF_SIZE) := u8 c]> (buf s)) s);;
       mcons (set_e (u32 (e s + 1)));;
       s ← gcons;
       if (c =? NL) || (c =? C 68) || (u32 (e s - r s) =? INPUT_BUF_SIZE) then
         mcons (set_w (e s));;
         mcons (set_rwait false)
       else skip
     else skip);;
  release.

(** How a run of [consoleread] ends: with the value returned, or asleep with
    [n] bytes still wanted. *)
Inductive rres := RRet (v : Z) | RSleep (n : Z).

Section read.
Context (copyout : Z → bool) (killed : bool) (target : Z).

(** The loop from [n] bytes wanted on, with the bytes stored at [dst]. *)
Fixpoint read_loop (k : nat) (dst n : Z) : prog state (rres * list Z) :=
  let break n := release;; mret (RRet (i32 (u32 (target - n))), []) in
  match k with
  | O => break n
  | S k' =>
      s ← gcons;
      if r s =? w s then
        if killed then release;; mret (RRet (-1), [])
        else
          mcons (set_rwait true);;
          release;;
          mret (RSleep n, [])
      else
        c ← read_buf (r s);
        mcons (set_r (u32 (r s + 1)));;
        if c =? C 68 then
          (if u32 n <? target then mcons (λ s, set_r (u32 (r s - 1)) s) else skip);;
          break n
        else if negb (copyout dst) then break n
        else if c =? NL then
          x ← break (n - 1);
          mret (x.1, c :: x.2)
        else
          x ← read_loop k' (u64 (dst + 1)) (n - 1);
          mret (x.1, c :: x.2)
  end.
End read.

(** A run of [consoleread(_, dst, n0)] that starts, or is woken up, with [n]
    bytes still wanted. *)
Definition consoleread (copyout : Z → bool) (killed : bool) (dst n0 n : Z) : prog state (rres * list Z) :=
  acquire;;
  read_loop copyout killed (u32 n0) (Z.to_nat n) (u64 (dst + (n0 - n))) n.

(** A run of [consolewrite], which sleeps when [uartputc] does: the value
    returned, or the position at which it sleeps and the byte it holds there.
    [held] is the byte of a run that is woken up, which is not fetched again. *)
Inductive wres := WRet (v : Z) | WSleep (i c : Z).

Fixpoint consolewrite_loop (copyin : Z → option Z) (src : Z) (held : option Z) (k : nat) (i : Z) : prog uart wres :=
  match k with
  | O => mret (WRet i)
  | S k' =>
      match (match held with Some c => Some c | None => copyin (u64 (src + i)) end) with
      | None => mret (WRet i)
      | Some c =>
          ok ← uartputc lsr (bool_decide (held = None)) c;
          if ok : bool then consolewrite_loop copyin src None k' (i + 1)
          else mret (WSleep i c)
      end
  end.
Definition consolewrite (copyin : Z → option Z) (src n : Z) (held : option Z) (i : Z) : prog uart wres :=
  consolewrite_loop copyin src held (Z.to_nat (n - i)) i.

(** The interrupt handler; the first loop ends when the receiver has no more
    bytes. *)
Fixpoint uartintr_loop (n : nat) : prog state unit :=
  match n with
  | O => spin
  | S n' =>
      c ← on_uart (uartgetc lsr rhr);
      if c =? -1 then skip else consoleintr c;; uartintr_loop n'
  end.
Definition uartintr (n : nat) : prog state unit :=
  uartintr_loop n;;
  on_uart (Uart.acquire;; uartstart lsr;; Uart.release).
End console.

(** [consoleinit]: the zeroed buffer, and the UART initialised. *)
Definition consoleinit : prog state unit :=
  mcons (set_lock false);;
  on_uart uartinit.

End Console.
