(* ===== verification/ConsoleProofs.v ===== *)
(** * The console implements a line discipline, the UART a byte queue *)

From S2P Require Import Prelude Ring Spinlock SpinlockProofs Console.
Import Ring Uart Console.

Module ConsoleProofs.

Lemma tx_div : (UART_TX_BUF_SIZE | 2 ^ 64).
Proof. exists (2 ^ 59). reflexivity. Qed.
Lemma con_div : (INPUT_BUF_SIZE | 2 ^ 32).
Proof. exists (2 ^ 25). reflexivity. Qed.
Local Ltac side :=
  first [exact tx_div | exact con_div | unfold UART_TX_BUF_SIZE, INPUT_BUF_SIZE; lia].

(** ** UART *)

(** The transmit queue holds [q]. *)
Record uart_rep (u : uart) (q : list Z) : Prop := {
  u_lock : tx_lock u = false;
  u_ring : ring UART_TX_BUF_SIZE (2 ^ 64) (tx_buf u) (tx_r u) (tx_w u) q;
  u_alive : panicked u = false;
  u_cpu : SpinlockProofs.cpu_ok (ucpu u) }.

(** What is sent, byte by byte. *)
Definition sent (bs : list Z) : list (Z * Z) := map (λ b, (THR, u8 b)) bs.

Section device.
Context (lsr : nat → Z).

Definition idle (l : Z) : bool := negb (Z.land l LSR_TX_IDLE =? 0).

(** How many of at most [k] bytes the UART accepts, asked from its [n]-th
    reading on. *)
Fixpoint accepted (n k : nat) : nat :=
  match k with
  | O => O
  | S k' => if idle (lsr n) then S (accepted (S n) k') else O
  end.

Lemma accepted_le n k : (accepted n k ≤ k)%nat.
Proof. revert n. induction k as [|k IH]; intros n; cbn; [lia|]. destruct (idle _); [|lia]. specialize (IH (S n)). lia. Qed.

Lemma uartstart_run q : ∀ k u, ring UART_TX_BUF_SIZE (2 ^ 64) (tx_buf u) (tx_r u) (tx_w u) q →
  (length q < k)%nat →
  let a := accepted (lsr_pos u) (length q) in
  ∃ u', uartstart_loop lsr k u = Ok (tt, u') ∧
    ring UART_TX_BUF_SIZE (2 ^ 64) (tx_buf u') (tx_r u') (tx_w u') (drop a q) ∧
    writes u' = writes u ++ sent (take a q) ∧
    tx_lock u' = tx_lock u ∧ panicked u' = panicked u ∧ ucpu u' = ucpu u ∧
    tx_wait u' = match a with O => tx_wait u | _ => false end ∧ rhr_pos u' = rhr_pos u.
Proof.
  induction q as [|c q IH]; intros k u Hr Hk; (destruct k as [|k]; [cbn in Hk; lia|]); cbn [uartstart_loop]; prog_run.
  - rewrite (proj2 (ring_empty UART_TX_BUF_SIZE (2 ^ 64) ltac:(side) ltac:(side) ltac:(side) _ _ _ _ Hr) eq_refl), Z.eqb_refl.
    exists u. cbn. rewrite app_nil_r. by split_and!.
  - destruct (Z.eqb_spec (tx_w u) (tx_r u)) as [E|_].
    { symmetry in E. by apply (ring_empty UART_TX_BUF_SIZE (2 ^ 64) ltac:(side) ltac:(side) ltac:(side) _ _ _ _ Hr) in E. }
    rewrite (bind_Ok (read_lsr lsr) _ _ _ _ eq_refl). cbn [length accepted]. unfold idle.
    destruct (Z.land (lsr (lsr_pos u)) LSR_TX_IDLE =? 0) eqn:El; cbn [negb].
    { eexists. split; [reflexivity|]. cbn. rewrite app_nil_r. by split_and!. }
    destruct (ring_pop UART_TX_BUF_SIZE (2 ^ 64) ltac:(side) ltac:(side) ltac:(side) _ _ _ _ _ Hr) as [Hc Hr'].
    rewrite Hc. prog_run. unfold write_reg. prog_run.
    edestruct (IH k) as (u' & E & H1 & H2 & H3 & H4 & H5 & H6 & H7); [|cbn in Hk; lia|rewrite E].
    { exact Hr'. }
    cbn [lsr_pos set_lsr_pos set_tx_r set_tx_wait set_writes writes tx_lock panicked ucpu tx_wait rhr_pos] in *.
    exists u'. split_and!; [done..| | | | |by rewrite H6; destruct (accepted _ _)|done]; [|done..].
    rewrite H2, <- app_assoc. done.
Qed.

Lemma uacquire_ok u : tx_lock u = false → Uart.acquire u = Ok (tt, set_tx_lock true u).
Proof. intros H. unfold Uart.acquire. by rewrite H. Qed.
Lemma urelease_ok u : tx_lock u = true → Uart.release u = Ok (tt, set_tx_lock false u).
Proof. intros H. unfold Uart.release. by rewrite H. Qed.

(** [uartputc] appends the byte to the transmit queue and passes on to the
    UART, in order, as many queued bytes as it accepts; nothing is lost or
    reordered, also when the 64-bit counters wrap around.  With a full queue it
    sleeps and changes nothing. *)
Theorem uartputc_correct start c u q :
  uart_rep u q →
  ∃ u', let full := bool_decide (Z.of_nat (length q) = UART_TX_BUF_SIZE) in
    uartputc lsr start c u = Ok (negb full, u') ∧
    if full then uart_rep u' q ∧ writes u' = writes u ∧ tx_wait u' = true
    else ∃ now later, q ++ [u8 c] = now ++ later ∧ uart_rep u' later ∧ writes u' = writes u ++ sent now.
Proof.
  intros [Hl Hr Ha Hc]. cbv zeta. unfold uartputc.
  prog_step (uacquire_ok u Hl). prog_run. cbn [panicked set_tx_lock]. rewrite Ha, andb_false_r. cbn [tx_w tx_r tx_buf set_tx_lock].
  pose proof (ring_full UART_TX_BUF_SIZE (2 ^ 64) ltac:(side) ltac:(side) ltac:(side) _ _ _ _ Hr) as Hfull. fold (u64 (tx_r u + UART_TX_BUF_SIZE)) in Hfull.
  case_bool_decide as Hq.
  - apply Hfull in Hq. rewrite <- Hq, Z.eqb_refl. eexists. split; [reflexivity|]. by split_and!.
  - destruct (Z.eqb_spec (tx_w u) (u64 (tx_r u + UART_TX_BUF_SIZE))) as [E|_]; [tauto|]. prog_run.
    pose proof (ring_fits _ _ _ _ _ _ Hr) as Hf.
    pose proof (ring_push UART_TX_BUF_SIZE (2 ^ 64) ltac:(side) ltac:(side) ltac:(side) _ _ _ _ (u8 c) Hr ltac:(lia)) as Hr'.
    edestruct (uartstart_run (q ++ [u8 c]) (Z.to_nat UART_TX_BUF_SIZE + 1)) as (u' & E & H1 & H2 & H3 & H4 & H5 & _);
      [|rewrite length_app; cbn [length]; unfold UART_TX_BUF_SIZE in *; lia|].
    2:{ unfold uartstart. prog_step E. prog_step (urelease_ok u' ltac:(by rewrite H3)). eexists. split; [reflexivity|].
        eexists _, _. split; [symmetry; apply take_drop|]. split; [constructor; [done|exact H1|cbn; by rewrite H4|cbn; by rewrite H5]|]. exact H2. }
    exact Hr'.
Qed.

Context (fuel : nat) (Hidle : ∀ n, ∃ k, (k < fuel)%nat ∧ idle (lsr (n + k)) = true).

Definition txpart (u : uart) := (tx_lock u, tx_buf u, tx_w u, tx_r u, tx_wait u, panicked u).

Lemma wait_idle_run u : ∃ u', wait_idle lsr fuel u = Ok (tt, u') ∧ txpart u' = txpart u ∧
  ucpu u' = ucpu u ∧ writes u' = writes u ∧ rhr_pos u' = rhr_pos u.
Proof using Hidle.
  destruct (Hidle (lsr_pos u)) as [k [Hk Hi]]. clear Hidle. revert u fuel Hk Hi.
  induction k as [|k IH]; intros u f Hk Hi; (destruct f as [|f]; [lia|]); cbn [wait_idle];
    rewrite (bind_Ok (read_lsr lsr) _ _ _ _ eq_refl).
  - rewrite Nat.add_0_r in Hi. unfold idle in Hi. destruct (_ =? 0); [done|]. by eexists.
  - destruct (_ =? 0); [|by eexists].
    destruct (IH (set_lsr_pos (S (lsr_pos u)) u) f) as (u' & E & H1 & H2 & H3 & H4); [lia|cbn; by replace (S (lsr_pos u + k)) with (lsr_pos u + S k)%nat by lia|].
    exists u'. by split_and!.
Qed.

Lemma uartputc_sync_run c u : SpinlockProofs.cpu_ok (ucpu u) → panicked u = false →
  ∃ u', uartputc_sync lsr fuel c u = Ok (tt, u') ∧ txpart u' = txpart u ∧
    SpinlockProofs.cpu_ok (ucpu u') ∧ writes u' = writes u ++ sent [c] ∧ rhr_pos u' = rhr_pos u.
Proof using Hidle.
  intros Hc Hp. unfold uartputc_sync. destruct (SpinlockProofs.push_cpu _ Hc) as (c1 & E1 & Hn1 & Hs1 & Hpop).
  assert (on_cpu Spinlock.push_off u = Ok (tt, set_ucpu c1 u)) as E by (unfold on_cpu; by rewrite E1).
  prog_step E. prog_run. cbn [panicked set_ucpu]. rewrite Hp.
  destruct (wait_idle_run (set_ucpu c1 u)) as (u2 & E2 & Ht & Hcpu & Hw & Hrh). prog_step E2.
  unfold write_reg. prog_run. destruct (Hpop (ucpu u2)) as (c3 & E3 & Hc3 & _); [by rewrite Hcpu..|].
  unfold on_cpu. cbn [ucpu set_writes]. rewrite E3. eexists. split; [reflexivity|]. cbn.
  split_and!; [done|done|by rewrite Hw|done].
Qed.

(** ** The line discipline *)

(** The console as its users see it: the input that [read] may take, and the
    line being typed. *)
Definition line : Type := list Z * list Z.

(** What a typed character does, and what is echoed. *)
Definition typed (c : Z) (l : line) : line * list Z :=
  let '(com, ed) := l in
  if c =? C 80 then (l, [])
  else if c =? C 85 then ((com, []), concat (replicate (length ed) [8; 32; 8]))
  else if (c =? C 72) || (c =? 127) then
    match ed with [] => (l, []) | _ => ((com, removelast ed), [8; 32; 8]) end
  else if (c =? 0) || (INPUT_BUF_SIZE <=? Z.of_nat (length com + length ed)) then (l, [])
  else
    let c := if c =? 13 then NL else c in
    if (c =? NL) || (c =? C 68) || (Z.of_nat (length com + length ed) + 1 =? INPUT_BUF_SIZE)
    then ((com ++ ed ++ [c], []), [c])
    else ((com, ed ++ [c]), [c]).

Record cons_rep (s : console) (l : line) : Prop := {
  c_ring : ring INPUT_BUF_SIZE (2 ^ 32) (buf s) (r s) (e s) (l.1 ++ l.2);
  c_w : w s = (r s + Z.of_nat (length l.1)) `mod` 2 ^ 32;
  c_line : NL ∉ l.2;
  c_full : Z.of_nat (length (l.1 ++ l.2)) = INPUT_BUF_SIZE → l.2 = [];
  c_wake : rwait s = true → l.1 = [] }.

(** The whole console between two calls. *)
Definition con_rep (s : state) (l : line) (q : list Z) : Prop :=
  lock s.1 = false ∧ cons_rep s.1 l ∧ uart_rep s.2 q.

Lemma cons_com s l : cons_rep s l → (r s =? w s) = bool_decide (l.1 = []).
Proof.
  intros [H1 H2 H3 H4 H5]. pose proof (ring_app_l INPUT_BUF_SIZE (2 ^ 32) ltac:(side) ltac:(side) ltac:(side) _ _ _ _ _ H1) as H6.
  rewrite <- H2 in H6. pose proof (ring_empty INPUT_BUF_SIZE (2 ^ 32) ltac:(side) ltac:(side) ltac:(side) _ _ _ _ H6).
  case_bool_decide; destruct (Z.eqb_spec (r s) (w s)); tauto.
Qed.

Lemma cons_ed s l : cons_rep s l → (e s =? w s) = bool_decide (l.2 = []).
Proof.
  intros [H1 H2 H3 H4 H5]. pose proof (ring_app_r INPUT_BUF_SIZE (2 ^ 32) ltac:(side) ltac:(side) ltac:(side) _ _ _ _ _ H1) as H6.
  rewrite <- H2 in H6. pose proof (ring_empty INPUT_BUF_SIZE (2 ^ 32) ltac:(side) ltac:(side) ltac:(side) _ _ _ _ H6).
  rewrite Z.eqb_sym. case_bool_decide; destruct (Z.eqb_spec (w s) (e s)); tauto.
Qed.

Lemma removelast_snoc (l : list Z) x : removelast (l ++ [x]) = l.
Proof. by rewrite removelast_last. Qed.

Lemma cons_back s com ed x : cons_rep s (com, ed ++ [x]) →
  buf s !! Z.to_nat (u32 (e s - 1) `mod` INPUT_BUF_SIZE) = Some x ∧
  cons_rep (set_e (u32 (e s - 1)) s) (com, ed).
Proof.
  intros [H1 H2 H3 H4 H5]. cbn in *. rewrite app_assoc in H1.
  destruct (ring_drop_last INPUT_BUF_SIZE (2 ^ 32) ltac:(side) ltac:(side) ltac:(side) _ _ _ _ _ H1) as [Hx Hr].
  split; [exact Hx|]. pose proof (ring_fits _ _ _ _ _ _ H1) as Hf. rewrite length_app in Hf. cbn in Hf.
  constructor; cbn; [exact Hr|done| |lia|done].
  intros Hin. apply H3. apply elem_of_app. by left.
Qed.

Lemma consputc_run c u q : uart_rep u q →
  ∃ u', consputc lsr fuel c u = Ok (tt, u') ∧ uart_rep u' q ∧
    writes u' = writes u ++ sent (if c =? BACKSPACE then [8; 32; 8] else [c]).
Proof using Hidle.
  assert (∀ c u q, uart_rep u q → ∃ u', uartputc_sync lsr fuel c u = Ok (tt, u') ∧ uart_rep u' q ∧
    writes u' = writes u ++ sent [c]) as Hsync.
  { intros c0 u0 q0 [Hl Hr Ha Hc]. destruct (uartputc_sync_run c0 u0 Hc Ha) as (u' & E & Ht & Hc' & Hw & _).
    unfold txpart in Ht. injection Ht as T1 T2 T3 T4 T5 T6.
    exists u'. split_and!; [done| |done]. constructor; [by rewrite T1|by rewrite T2, T3, T4|by rewrite T6|done]. }
  intros Hu. unfold consputc. destruct (c =? BACKSPACE); [|by apply Hsync].
  destruct (Hsync 8 u q Hu) as (u1 & E1 & Hu1 & W1). destruct (Hsync 32 u1 q Hu1) as (u2 & E2 & Hu2 & W2).
  destruct (Hsync 8 u2 q Hu2) as (u3 & E3 & Hu3 & W3). prog_step E1. prog_step E2.
  exists u3. split_and!; [done..|]. by rewrite W3, W2, W1, <- !app_assoc.
Qed.

Lemma on_uart_ok {A} (m : prog uart A) c u a u' : m u = Ok (a, u') → on_uart m (c, u) = Ok (a, (c, u')).
Proof. intros H. unfold on_uart. by rewrite H. Qed.
Lemma gcons_ok c u : gcons (c, u) = Ok (c, (c, u)).
Proof. done. Qed.
Lemma mcons_ok f c u : mcons f (c, u) = Ok (tt, (f c, u)).
Proof. done. Qed.
Lemma read_buf_ok i c u x : buf c !! Z.to_nat (i `mod` INPUT_BUF_SIZE) = Some x → read_buf i (c, u) = Ok (x, (c, u)).
Proof. intros H. unfold read_buf. rewrite (bind_Ok _ _ _ _ _ (gcons_ok c u)). by rewrite H. Qed.

Lemma kill_loop_run com q : ∀ ed k s u, cons_rep s (com, ed) → uart_rep u q → (length ed < k)%nat →
  ∃ s' u', kill_loop lsr fuel k (s, u) = Ok (tt, (s', u')) ∧ cons_rep s' (com, []) ∧ uart_rep u' q ∧
    lock s' = lock s ∧ writes u' = writes u ++ sent (concat (replicate (length ed) [8; 32; 8])).
Proof using Hidle.
  intros ed. induction ed as [|x ed IH] using rev_ind; intros k s u Hs Hu Hk; (destruct k as [|k]; [lia|]); cbn [kill_loop];
    prog_step (gcons_ok s u); rewrite (cons_ed _ _ Hs).
  - exists s, u. cbn. rewrite app_nil_r. by split_and!.
  - rewrite bool_decide_false by (cbn; by destruct ed). destruct (cons_back s com ed x Hs) as [Hx Hs1].
    prog_step (read_buf_ok _ _ u _ Hx).
    assert (x ≠ NL) as Hnl. { intros ->. apply (c_line _ _ Hs). apply elem_of_app. right. by apply list_elem_of_singleton. }
    destruct (Z.eqb_spec x NL); [done|]. prog_step (mcons_ok (set_e (u32 (e s - 1))) s u).
    destruct (consputc_run BACKSPACE u q Hu) as (u1 & E1 & Hu1 & W1). prog_step (on_uart_ok _ (set_e (u32 (e s - 1)) s) _ _ _ E1).
    destruct (IH k _ u1 Hs1 Hu1) as (s' & u' & E & Hs' & Hu' & Hl & W); [rewrite length_app in Hk; cbn in Hk; lia|].
    exists s', u'. split_and!; [done..|]. rewrite W, W1, <- app_assoc, length_app, Nat.add_comm. done.
Qed.

Context (procdump : prog uart unit)
  (Hdump : ∀ u q, uart_rep u q → ∃ u' bs, procdump u = Ok (tt, u') ∧ uart_rep u' q ∧ writes u' = writes u ++ sent bs).

Lemma cacquire_ok c u : lock c = false → acquire (c, u) = Ok (tt, (set_lock true c, u)).
Proof. intros H. unfold acquire. prog_step (gcons_ok c u). by rewrite H. Qed.
Lemma crelease_ok c u : lock c = true → release (c, u) = Ok (tt, (set_lock false c, u)).
Proof. intros H. unfold release. prog_step (gcons_ok c u). by rewrite H. Qed.

Lemma set_lock_rep b s l : cons_rep (set_lock b s) l ↔ cons_rep s l.
Proof. split; by intros [? ? ? ? ?]; constructor. Qed.

(** Storing a character: [b] tells whether the line is complete. *)
Lemma cons_store s com ed c : cons_rep s (com, ed) → Z.of_nat (length com + length ed) < INPUT_BUF_SIZE →
  let s1 := set_e (u32 (e s + 1)) (set_buf (<[Z.to_nat (e s `mod` INPUT_BUF_SIZE) := c]> (buf s)) s) in
  ring INPUT_BUF_SIZE (2 ^ 32) (buf s1) (r s1) (e s1) (com ++ ed ++ [c]) ∧
  u32 (e s1 - r s1) = Z.of_nat (length com + length ed) + 1 ∧
  cons_rep (set_rwait false (set_w (e s1) s1)) (com ++ ed ++ [c], []) ∧
  (c ≠ NL → Z.of_nat (length com + length ed) + 1 < INPUT_BUF_SIZE → cons_rep s1 (com, ed ++ [c])).
Proof.
  intros [H1 H2 H3 H4 H5] Hlt. cbn in H1, H2, H3, H4, H5 |- *. unfold u32.
  pose proof (ring_push INPUT_BUF_SIZE (2 ^ 32) ltac:(side) ltac:(side) ltac:(side) _ _ _ _ c H1
    ltac:(rewrite length_app; lia)) as Hr. rewrite <- app_assoc in Hr.
  pose proof (ring_count INPUT_BUF_SIZE (2 ^ 32) ltac:(side) ltac:(side) ltac:(side) _ _ _ _ Hr) as Hc.
  rewrite !length_app in Hc. cbn [length] in Hc.
  split_and!; [done|rewrite Hc; lia| |].
  - constructor; cbn; [by rewrite app_nil_r|apply (ring_w _ _ _ _ _ _ Hr)|by apply not_elem_of_nil|done|done].
  - intros Hnl Hs. constructor; cbn; [done|done| | |done].
    + rewrite elem_of_app, list_elem_of_singleton. intros [?|?]; [by apply H3|congruence].
    + rewrite !length_app. cbn. lia.
Qed.

Lemma u8_id c : 0 ≤ c < 256 → u8 c = c.
Proof. intros H. apply Z.mod_small. cbn. lia. Qed.

(** The last case of [consoleintr]. *)
Lemma intr_default s u com ed q c :
  cons_rep s (com, ed) → uart_rep u q → 0 < c < 256 → c ≠ 127 →
  let c := if c =? 13 then NL else c in
  Z.of_nat (length com + length ed) < INPUT_BUF_SIZE →
  ∃ s' u', (on_uart (consputc lsr fuel c);;
       mcons (λ s, set_buf (<[Z.to_nat (e s `mod` INPUT_BUF_SIZE) := u8 c]> (buf s)) s);;
       mcons (set_e (u32 (e s + 1)));;
       s ← gcons;
       if (c =? NL) || (c =? C 68) || (u32 (e s - r s) =? INPUT_BUF_SIZE) then
         mcons (set_w (e s));;
         mcons (set_rwait false)
       else skip) (s, u) = Ok (tt, (s', u')) ∧ uart_rep u' q ∧ lock s' = lock s ∧
    writes u' = writes u ++ sent [c] ∧
    cons_rep s' (if (c =? NL) || (c =? C 68) || (Z.of_nat (length com + length ed) + 1 =? INPUT_BUF_SIZE)
                 then (com ++ ed ++ [c], []) else (com, ed ++ [c])).
Proof using Hidle.
  intros Hs Hu Hc H127 c' Hlt. assert (0 < c' < 256) as Hc' by (unfold c', NL; destruct (c =? 13); lia).
  clearbody c'. clear c Hc H127.
  destruct (consputc_run c' u q Hu) as (u1 & E1 & Hu1 & W1).
  replace (c' =? BACKSPACE) with false in W1 by (unfold BACKSPACE; destruct (Z.eqb_spec c' 256); lia).
  prog_step (on_uart_ok _ s _ _ _ E1).
  prog_step (mcons_ok (λ s, set_buf (<[Z.to_nat (e s `mod` INPUT_BUF_SIZE) := u8 c']> (buf s)) s) s u1).
  prog_step (mcons_ok (set_e (u32 (e s + 1))) (set_buf (<[Z.to_nat (e s `mod` INPUT_BUF_SIZE) := u8 c']> (buf s)) s) u1).
  rewrite u8_id by lia.
  destruct (cons_store s com ed c' Hs Hlt) as (_ & Hcount & Hdone & Hmore).
  set (s1 := set_e _ _) in *. prog_step (gcons_ok s1 u1). rewrite Hcount.
  destruct ((c' =? NL) || (c' =? C 68) || (_ =? INPUT_BUF_SIZE)) eqn:Ec.
  - prog_step (mcons_ok (set_w (e s1)) s1 u1). rewrite mcons_ok. eexists _, u1. by split_and!.
  - exists s1, u1. split_and!; [done..|].
    apply orb_false_iff in Ec as [Ec E3]. apply orb_false_iff in Ec as [E1' E2'].
    apply Hmore; [by destruct (Z.eqb_spec c' NL)|]. destruct (Z.eqb_spec (Z.of_nat (length com + length ed) + 1) INPUT_BUF_SIZE); [done|lia].
Qed.

Lemma consoleintr_ok s l q c :
  con_rep s l q → 0 ≤ c < 256 →
  ∃ s', consoleintr lsr fuel procdump c s = Ok (tt, s') ∧ con_rep s' (typed c l).1 q ∧
    (c ≠ C 80 → writes s'.2 = writes s.2 ++ sent (typed c l).2).
Proof using Hidle Hdump.
  destruct s as [s u], l as [com ed]. intros (Hlk & Hs & Hu) Hc. cbn in Hlk, Hs, Hu.
  unfold consoleintr, typed. prog_step (cacquire_ok s u Hlk). apply (set_lock_rep true) in Hs.
  set (s0 := set_lock true s) in *. assert (lock s0 = true) as Hl0 by done. clearbody s0.
  pose proof (ring_fits _ _ _ _ _ _ (c_ring _ _ Hs)) as Hfit. cbn in Hfit. rewrite length_app in Hfit.
  assert (∀ s' u' l' q', cons_rep s' l' → uart_rep u' q' → lock s' = true →
    ∃ s2, release (s', u') = Ok (tt, s2) ∧ con_rep s2 l' q' ∧ writes s2.2 = writes u') as Hrel.
  { intros s' u' l' q' Hs' Hu' Hl'. rewrite (crelease_ok s' u' Hl'). eexists. split; [done|]. cbn.
    split; [|done]. split_and!; [done|by apply set_lock_rep|done]. }
  destruct (Z.eqb_spec c (C 80)) as [->|H80].
  { destruct (Hdump u q Hu) as (u' & bs & E & Hu' & _). prog_step (on_uart_ok _ s0 _ _ _ E).
    destruct (Hrel s0 u' _ _ Hs Hu' Hl0) as (s2 & E2 & ? & ?). by exists s2. }
  destruct (Z.eqb_spec c (C 85)) as [->|H85].
  { destruct (kill_loop_run com q ed (Z.to_nat INPUT_BUF_SIZE + 1) s0 u Hs Hu) as (s' & u' & E & Hs' & Hu' & Hl' & W); [lia|].
    prog_step E. destruct (Hrel s' u' _ _ Hs' Hu') as (s2 & E2 & ? & W2); [congruence|]. exists s2. split_and!; [done..|].
    by rewrite W2, W. }
  destruct ((c =? C 72) || (c =? 127)) eqn:Ebs.
  { prog_go (gcons_ok s0 u). rewrite (cons_ed _ _ Hs). cbn [snd].
    destruct ed as [|x ed] using rev_ind.
    { cbn [bool_decide]. rewrite bool_decide_true by done. prog_run. destruct (Hrel s0 u _ _ Hs Hu Hl0) as (s2 & E2 & ? & W2).
      exists s2. split_and!; [done..|]. by rewrite W2, app_nil_r. }
    clear IHed. rewrite bool_decide_false by (by destruct ed).
    destruct (cons_back s0 com ed x Hs) as [_ Hs1]. prog_go (mcons_ok (set_e (u32 (e s0 - 1))) s0 u).
    destruct (consputc_run BACKSPACE u q Hu) as (u1 & E1 & Hu1 & W1). prog_step (on_uart_ok _ (set_e (u32 (e s0 - 1)) s0) _ _ _ E1).
    destruct (Hrel _ u1 _ _ Hs1 Hu1 Hl0) as (s2 & E2 & ? & W2). exists s2.
    assert (∃ y t, ed ++ [x] = y :: t) as (y & t & Ey) by (destruct ed; eauto).
    rewrite Ey. cbn [fst snd]. rewrite <- Ey, removelast_snoc.
    split_and!; [done..|]. by rewrite W2, W1. }
  prog_go (gcons_ok s0 u).
  rewrite (ring_count INPUT_BUF_SIZE (2 ^ 32) ltac:(side) ltac:(side) ltac:(side) _ _ _ _ (c_ring _ _ Hs) : u32 (e s0 - r s0) = _).
  cbn [fst snd]. rewrite length_app.
  destruct ((c =? 0) || (INPUT_BUF_SIZE <=? Z.of_nat (length com + length ed))) eqn:Eskip.
  { replace (negb (c =? 0) && _) with false.
    2:{ apply orb_true_iff in Eskip as [->|E]; [done|]. apply Z.leb_le in E.
        destruct (Z.ltb_spec (Z.of_nat (length com + length ed)) INPUT_BUF_SIZE); [lia|by rewrite andb_false_r]. }
    prog_run. destruct (Hrel s0 u _ _ Hs Hu Hl0) as (s2 & E2 & ? & W2).
    exists s2. split_and!; [done..|]. by rewrite W2, app_nil_r. }
  apply orb_false_iff in Eskip as [E0 Elt]. apply Z.leb_gt in Elt. rewrite E0, (proj2 (Z.ltb_lt _ _)) by lia. cbn [negb andb].
  apply Z.eqb_neq in E0. apply orb_false_iff in Ebs as [_ E127]. apply Z.eqb_neq in E127.
  destruct (intr_default s0 u com ed q c Hs Hu ltac:(lia) E127 Elt) as (s' & u' & E & Hu' & Hl' & W & Hs').
  cbv zeta in E |- *. prog_step E. destruct (Hrel s' u' _ _ Hs' Hu') as (s2 & E2 & Hr2 & W2); [congruence|].
  exists s2. split_and!; [done|..].
  - by destruct (_ || _ || (_ + 1 =? _)).
  - intros _. rewrite W2, W. by destruct (_ || _ || (_ + 1 =? _)).
Qed.

(** C28: [consoleintr] implements the line discipline: erase and kill act on the
    line being typed only, a character is stored unless the buffer is full, and
    newline, end-of-file or a full buffer hand the line over to readers; the
    echo is what the discipline says (except for the process list). *)
Theorem consoleintr_correct s l q c :
  con_rep s l q → 0 ≤ c < 256 →
  ∃ s', consoleintr lsr fuel procdump c s = Ok (tt, s') ∧ con_rep s' (typed c l).1 q ∧
    (c ≠ C 80 → writes s'.2 = writes s.2 ++ sent (typed c l).2).
Proof using Hidle Hdump. apply consoleintr_ok. Qed.

(** ** Reading a line *)

(** What a read of at most [n] bytes takes from the available input: the bytes
    delivered, the input left, and whether the read goes to sleep.  It stops
    after a newline; an end-of-file mark ends it, and is used up only when
    nothing was read before ([fresh]). *)
Fixpoint take_line (copyout : Z → bool) (fresh : bool) (dst : Z) (n : nat) (com : list Z) : list Z * list Z * bool :=
  match n, com with
  | O, _ => ([], com, false)
  | _, [] => ([], [], true)
  | S n', c :: com' =>
      if c =? C 68 then ([], if fresh then com' else com, false)
      else if negb (copyout dst) then ([], com', false)
      else if c =? NL then ([c], com', false)
      else let '(bs, rest, sl) := take_line copyout false (u64 (dst + 1)) n' com' in (c :: bs, rest, sl)
  end.

Lemma cons_pop s c com ed : cons_rep s (c :: com, ed) →
  buf s !! Z.to_nat (r s `mod` INPUT_BUF_SIZE) = Some c ∧
  cons_rep (set_r (u32 (r s + 1)) s) (com, ed) ∧ u32 (u32 (r s + 1) - 1) = r s.
Proof.
  intros [H1 H2 H3 H4 H5]. cbn in H1, H2, H3, H4, H5. pose proof (ring_r _ _ _ _ _ _ H1) as Hr0.
  pose proof (ring_fits _ _ _ _ _ _ H1) as Hf. cbn [length] in Hf. rewrite length_app in Hf.
  destruct (ring_pop INPUT_BUF_SIZE (2 ^ 32) ltac:(side) ltac:(side) ltac:(side) _ _ _ _ _ H1) as [Hx Hr].
  split_and!; [done| |].
  - constructor; cbn; [exact Hr| |done| |].
    + unfold u32. rewrite H2, Zplus_mod_idemp_l. f_equal. lia.
    + rewrite length_app. lia.
    + intros Hw. by specialize (H5 Hw).
  - unfold u32. rewrite Zminus_mod_idemp_l, Z.mod_small; lia.
Qed.

Lemma set_r_same s : set_r (r s) s = s.
Proof. by destruct s. Qed.
Lemma set_r_twice x y s : set_r x (set_r y s) = set_r x s.
Proof. done. Qed.

Lemma read_loop_run copyout killed n0 ed u : ∀ k s com dst n,
  cons_rep s (com, ed) → lock s = true → n = Z.of_nat k → n ≤ n0 < 2 ^ 31 →
  ∃ s' v, let '(bs, rest, sl) := take_line copyout (n =? n0) dst k com in
    read_loop copyout killed (u32 n0) k dst n (s, u) = Ok ((v, bs), (s', u)) ∧
    v = (if sl then if killed then RRet (-1) else RSleep (n - Z.of_nat (length bs))
         else RRet (n0 - n + Z.of_nat (length bs))) ∧
    cons_rep s' (rest, ed) ∧ lock s' = false.
Proof.
  assert (∀ n s, 0 ≤ n ≤ n0 → n0 < 2 ^ 31 → lock s = true →
    (release;; mret (RRet (i32 (u32 (u32 n0 - n))), [] : list Z)) (s, u) = Ok ((RRet (n0 - n), []), (set_lock false s, u))) as Hbrk.
  { intros n s Hn Hn0 Hl. prog_step (crelease_ok s u Hl). rewrite (u32_id n0), u32_small, i32_small by lia. done. }
  induction k as [|k IH]; intros s com dst n Hs Hl -> Hn; cbn [read_loop take_line]; cbv zeta.
  { do 2 eexists. split; [apply Hbrk; [lia|lia|done]|]. split; [f_equal; cbn; lia|]. split; [by apply set_lock_rep|done]. }
  prog_step (gcons_ok s u). rewrite (cons_com _ _ Hs). cbn [fst].
  destruct com as [|c com].
  { rewrite bool_decide_true by done. destruct killed.
    - prog_step (crelease_ok s u Hl). do 2 eexists. split; [done|]. split; [done|]. split; [by apply set_lock_rep|done].
    - prog_step (mcons_ok (set_rwait true) s u). prog_step (crelease_ok (set_rwait true s) u Hl).
      do 2 eexists. split; [done|]. split; [f_equal; cbn; lia|]. split; [|done].
      destruct Hs. by constructor. }
  rewrite bool_decide_false by done. destruct (cons_pop s c com ed Hs) as (Hx & Hs1 & Hback).
  prog_step (read_buf_ok _ _ u _ Hx). prog_step (mcons_ok (set_r (u32 (r s + 1))) s u).
  destruct (c =? C 68) eqn:Ed.
  { assert ((u32 (Z.of_nat (S k)) <? u32 n0) = negb (Z.of_nat (S k) =? n0)) as ->.
    { rewrite !u32_id by lia. destruct (Z.ltb_spec (Z.of_nat (S k)) n0), (Z.eqb_spec (Z.of_nat (S k)) n0); lia. }
    destruct (Z.of_nat (S k) =? n0) eqn:Efresh; cbn [negb].
    - prog_run. do 2 eexists. split; [apply Hbrk; [lia|lia|done]|]. split; [f_equal; cbn; lia|]. split; [by apply set_lock_rep|done].
    - prog_step (mcons_ok (λ s, set_r (u32 (r s - 1)) s) (set_r (u32 (r s + 1)) s) u).
      change (set_r (u32 (r (set_r (u32 (r s + 1)) s) - 1)) (set_r (u32 (r s + 1)) s)) with (set_r (u32 (u32 (r s + 1) - 1)) s).
      rewrite Hback, set_r_same.
      do 2 eexists. split; [apply Hbrk; [lia|lia|done]|]. split; [f_equal; cbn; lia|]. split; [by apply set_lock_rep|done]. }
  destruct (negb (copyout dst)).
  { do 2 eexists. split; [apply Hbrk; [lia|lia|done]|]. split; [f_equal; cbn; lia|]. split; [by apply set_lock_rep|done]. }
  destruct (c =? NL).
  { do 2 eexists. split; [prog_step (Hbrk (Z.of_nat (S k) - 1) (set_r (u32 (r s + 1)) s) ltac:(lia) ltac:(lia) Hl); done|].
    split; [cbn [fst length]; f_equal; lia|]. split; [by apply set_lock_rep|done]. }
  destruct (IH (set_r (u32 (r s + 1)) s) com (u64 (dst + 1)) (Z.of_nat (S k) - 1) Hs1 Hl ltac:(lia) ltac:(lia)) as (s' & v & H).
  replace (Z.of_nat (S k) - 1 =? n0) with false in H by (destruct (Z.eqb_spec (Z.of_nat (S k) - 1) n0); lia).
  destruct (take_line copyout false _ k com) as [[bs rest] sl]. destruct H as (E & -> & H').
  eexists s', _. split; [prog_step E; done|]. split; [|done].
  cbn [fst length]. destruct sl; [destruct killed; [done|f_equal; lia]|f_equal; lia].
Qed.

(** A run of [consoleread] takes from the available input what the line
    discipline allows: at most [n] bytes, up to and including a newline, and
    nothing from the line being typed; an end-of-file mark gives a read of 0
    bytes, once.  It sleeps only when the input is used up. *)
Theorem consoleread_correct copyout killed dst n0 n s com ed q :
  con_rep s (com, ed) q → 0 ≤ n ≤ n0 → n0 < 2 ^ 31 →
  ∃ s', let '(bs, rest, sl) := take_line copyout (n =? n0) (u64 (dst + (n0 - n))) (Z.to_nat n) com in
    consoleread copyout killed dst n0 n s = Ok ((if sl then if killed then RRet (-1) else RSleep (n - Z.of_nat (length bs))
                       else RRet (n0 - n + Z.of_nat (length bs)), bs), s') ∧
    con_rep s' (rest, ed) q ∧ s'.2 = s.2.
Proof.
  destruct s as [s u]. intros (Hlk & Hs & Hu) Hn Hn0. cbn in Hlk, Hs, Hu. unfold consoleread.
  destruct (read_loop_run copyout killed n0 ed u (Z.to_nat n) (set_lock true s) com (u64 (dst + (n0 - n))) n) as (s' & v & H);
    [by apply set_lock_rep|done|lia|lia|].
  exists (s', u). destruct (take_line _ _ _ _ _) as [[bs rest] sl]. destruct H as (E & -> & Hs' & Hl').
  prog_step (cacquire_ok s u Hlk). by split_and!.
Qed.

(** ** All uses of the console together *)

Context (rhr : nat → Z) (Hrhr : ∀ n, 0 ≤ rhr n < 256).

(** A character arrives, the UART interrupts, a reader or a writer runs. *)
Inductive cstep : state → state → Prop :=
| cs_char c s s' : 0 ≤ c < 256 → consoleintr lsr fuel procdump c s = Ok (tt, s') → cstep s s'
| cs_intr n s s' : uartintr lsr rhr fuel procdump n s = Ok (tt, s') → cstep s s'
| cs_read copyout killed dst n0 n s x s' : 0 ≤ n ≤ n0 → n0 < 2 ^ 31 →
    consoleread copyout killed dst n0 n s = Ok (x, s') → cstep s s'
| cs_write copyin src n held i s x s' :
    on_uart (consolewrite lsr copyin src n held i) s = Ok (x, s') → cstep s s'.

Definition good (s : state) : Prop := ∃ l q, con_rep s l q.

Lemma uartgetc_rep u q : uart_rep u q →
  ∃ c u', uartgetc lsr rhr u = Ok (c, u') ∧ uart_rep u' q ∧ (c = -1 ∨ 0 ≤ c < 256).
Proof using Hrhr.
  intros [? ? ? ?]. unfold uartgetc. rewrite (bind_Ok (read_lsr lsr) _ _ _ _ eq_refl).
  destruct (negb _); do 2 eexists; (split; [reflexivity|]); (split; [by constructor|]); [right; apply Hrhr|by left].
Qed.

Lemma intr_loop_good n : ∀ s s', good s → uartintr_loop lsr rhr fuel procdump n s = Ok (tt, s') → good s'.
Proof using Hidle Hdump Hrhr.
  induction n as [|n IH]; intros [s u] s' (l & q & Hl & Hs & Hu); cbn [uartintr_loop]; [done|].
  destruct (uartgetc_rep u q Hu) as (c & u1 & E & Hu1 & Hc). prog_step (on_uart_ok _ s _ _ _ E).
  destruct (Z.eqb_spec c (-1)) as [->|].
  - intros [= <-]. by exists l, q.
  - destruct (consoleintr_ok (s, u1) l q c) as (s2 & E2 & Hs2 & _); [by split_and!|lia|]. prog_step E2.
    apply IH. by eexists _, _.
Qed.

Lemma write_good copyin src : ∀ k held i s u x u', uart_rep u s →
  consolewrite_loop lsr copyin src held k i u = Ok (x, u') → ∃ q, uart_rep u' q.
Proof.
  induction k as [|k IH]; intros held i q u x u' Hu; cbn [consolewrite_loop].
  { intros [= _ <-]. by exists q. }
  destruct (match held with Some c => Some c | None => copyin _ end) as [c|]; [|intros [= _ <-]; by exists q].
  destruct (uartputc_correct (bool_decide (held = None)) c u q Hu) as (u1 & E & H). prog_step E.
  case_bool_decide; cbn [negb].
  - intros [= _ <-]. exists q. apply H.
  - destruct H as (now & later & _ & Hu1 & _). by apply (IH None (i + 1) later).
Qed.

Lemma good_step s s' : cstep s s' → good s → good s'.
Proof using Hidle Hdump Hrhr.
  intros Hs Hg. destruct Hs as [c s s' Hc E|n s s' E|copyout killed dst n0 n s x s' Hn Hn0 E|copyin src n held i [s u] x s' E].
  - destruct Hg as (l & q & Hg). destruct (consoleintr_ok s l q c Hg Hc) as (s2 & E2 & Hs2 & _).
    rewrite E in E2. injection E2 as <-. by eexists _, _.
  - unfold uartintr in E. apply bind_inv in E as ([] & [s1 u1] & E1 & E2).
    apply intr_loop_good in E1 as (l & q & Hl & Hs & Hu); [|done]. cbn in Hl, Hs, Hu.
    destruct (uartstart_run q (Z.to_nat UART_TX_BUF_SIZE + 1) (set_tx_lock true u1) (u_ring _ _ Hu)) as (u2 & E & H1 & _ & H3 & H4 & H5 & _).
    { pose proof (ring_fits _ _ _ _ _ _ (u_ring _ _ Hu)). unfold UART_TX_BUF_SIZE in *. lia. }
    assert ((Uart.acquire;; uartstart lsr;; Uart.release) u1 = Ok (tt, set_tx_lock false u2)) as Eu.
    { prog_step (uacquire_ok u1 (u_lock _ _ Hu)). unfold uartstart. prog_step E. by rewrite urelease_ok. }
    rewrite (on_uart_ok _ s1 _ _ _ Eu) in E2. injection E2 as <-. eexists l, _. split_and!; [done|done|].
    constructor; [done|exact H1|cbn; rewrite H4; apply (u_alive _ _ Hu)|cbn; rewrite H5; apply (u_cpu _ _ Hu)].
  - destruct Hg as ([com ed] & q & Hg). destruct (consoleread_correct copyout killed dst n0 n s com ed q Hg Hn Hn0) as (s2 & H).
    destruct (take_line _ _ _ _ _) as [[bs rest] sl]. destruct H as (E2 & Hs2 & _).
    rewrite E in E2. injection E2 as _ <-. by eexists _, _.
  - destruct Hg as (l & q & Hl & Hs & Hu). unfold on_uart in E.
    destruct (consolewrite lsr copyin src n held i u) as [[y u']| | |] eqn:Ew; [|done..]. injection E as _ <-.
    destruct (write_good copyin src _ _ _ q u y u' Hu Ew) as [q' Hu']. by exists l, q'.
Qed.

(** C32: However typing, interrupts, readers and writers interleave, the console
    stays well formed: its three counters delimit the available input and the
    line being typed within the buffer, no reader sleeps while input is
    available, and a full buffer always has input to read, so input never gets
    stuck. *)
Theorem console_never_stuck s0 s :
  good s0 → rtc cstep s0 s →
  good s ∧ (rwait s.1 = true → r s.1 = w s.1) ∧
  (u32 (e s.1 - r s.1) = INPUT_BUF_SIZE → r s.1 ≠ w s.1).
Proof using Hidle Hdump Hrhr.
  intros H0 Hrtc. assert (good s) as Hg.
  { refine (rtc_ind_r good _ _ _ _ Hrtc); [done|]. intros x y _ Hs. by apply good_step. }
  split; [done|]. destruct Hg as ([com ed] & q & _ & Hs & _). pose proof (cons_com _ _ Hs) as Hcom. split.
  - intros Hw. rewrite bool_decide_true in Hcom by apply (c_wake _ _ Hs Hw). by apply Z.eqb_eq.
  - unfold u32. rewrite (ring_count INPUT_BUF_SIZE (2 ^ 32) ltac:(side) ltac:(side) ltac:(side) _ _ _ _ (c_ring _ _ Hs)).
    intros Hfull. pose proof (c_full _ _ Hs Hfull) as Hed. cbn in Hed, Hfull, Hcom. subst ed.
    rewrite bool_decide_false in Hcom; [by apply Z.eqb_neq|]. intros ->. done.
Qed.
End device.

(** ** Instances *)

Definition cpu0 : Spinlock.cpu := Spinlock.mkCpu 2 0 0.
Definition uart0 : uart := mkUart false (replicate 32 0) (2 ^ 64 - 1) (2 ^ 64 - 1) false false cpu0 0 0 [].
Definition cons0 : console := mkConsole false (replicate 128 0) (2 ^ 32 - 1) (2 ^ 32 - 1) (2 ^ 32 - 1) false.
Definition ready (n : nat) : Z := 32.

Lemma uart0_rep : uart_rep uart0 [].
Proof. constructor; [done|apply ring_init; [side..|done|cbn; lia]|done|]. split; [cbn; lia|cbn; lia]. Qed.
Lemma cons0_rep : con_rep (cons0, uart0) ([], []) [].
Proof.
  split_and!; [done| |apply uart0_rep]. constructor; cbn; [apply ring_init; [side..|done|lia]|done|by apply not_elem_of_nil|done..].
Qed.
Lemma ready_idle n : ∃ k, (k < 1)%nat ∧ idle (ready (n + k)) = true.
Proof. exists 0%nat. split; [lia|done]. Qed.
Lemma skip_dump u q : uart_rep u q → ∃ u' bs, (skip : prog uart unit) u = Ok (tt, u') ∧ uart_rep u' q ∧ writes u' = writes u ++ sent bs.
Proof. intros H. exists u, []. by rewrite app_nil_r. Qed.

Lemma uartputc_correct_witness : ∃ u' now later, uartputc ready true 65 uart0 = Ok (true, u') ∧
  [65] = now ++ later ∧ uart_rep u' later.
Proof.
  destruct (uartputc_correct ready true 65 uart0 [] uart0_rep) as (u' & E & now & later & Hq & Hu & W).
  by exists u', now, later.
Defined.

Lemma consoleintr_correct_witness :
  ∃ s', consoleintr ready 1 skip 13 (cons0, uart0) = Ok (tt, s') ∧ con_rep s' ([NL], []) [].
Proof.
  destruct (consoleintr_correct ready 1 ready_idle skip skip_dump (cons0, uart0) ([], []) [] 13 cons0_rep ltac:(lia)) as (s' & E & H & _).
  by exists s'.
Defined.

Lemma consoleread_correct_witness : ∃ s', consoleread (λ _, true) false 0 10 10 (cons0, uart0) = Ok ((RSleep 10, []), s').
Proof.
  destruct (consoleread_correct (λ _, true) false 0 10 10 (cons0, uart0) [] [] [] cons0_rep ltac:(lia) ltac:(lia)) as (s' & E & _).
  by exists s'.
Defined.

(** The console after an A is typed. *)
Definition cons1 : state :=
  match consoleintr ready 1 skip 65 (cons0, uart0) with Ok (_, s) => s | _ => (cons0, uart0) end.
Lemma cons1_ok : consoleintr ready 1 skip 65 (cons0, uart0) = Ok (tt, cons1).
Proof. vm_compute. reflexivity. Qed.

Lemma console_never_stuck_witness :
  good cons1 ∧ (rwait cons1.1 = true → r cons1.1 = w cons1.1) ∧
  (u32 (e cons1.1 - r cons1.1) = INPUT_BUF_SIZE → r cons1.1 ≠ w cons1.1).
Proof.
  apply (console_never_stuck ready 1 ready_idle skip skip_dump (λ _, 65) ltac:(cbn; lia) (cons0, uart0) cons1).
  - exists ([], []), []. apply cons0_rep.
  - eapply rtc_l; [|apply rtc_refl]. apply (cs_char _ _ _ _ 65); [lia|apply cons1_ok].
Defined.
End ConsoleProofs.
