(* ===== verification/Vm.v ===== *)
(** * Virtual memory (kernel/vm.c, the page-table macros of kernel/riscv.h)

    Physical memory is seen in two ways: page-table pages as 64-bit words
    ([words], by physical address), and user pages as bytes ([bytes]).  The
    kernel reaches both through its direct map, so a physical address is also
    a kernel pointer.  Pages come from any allocator that implements
    [PageAlloc.PageAllocator]. *)

From S2P Require Import Prelude PageAlloc.
Import PageAlloc.

Module Vm.

(** ** Page-table macros *)

Definition PTE_V : Z := Z.shiftl 1 0.
Definition PTE_R : Z := Z.shiftl 1 1.
Definition PTE_W : Z := Z.shiftl 1 2.
Definition PTE_X : Z := Z.shiftl 1 3.
Definition PTE_U : Z := Z.shiftl 1 4.
Definition PGROUNDUP (sz : Z) : Z := Z.land (u64 (sz + PGSIZE - 1)) (2 ^ 64 - PGSIZE).
Definition PGROUNDDOWN (a : Z) : Z := Z.land a (2 ^ 64 - PGSIZE).
Definition PA2PTE (pa : Z) : Z := u64 (Z.shiftl (Z.shiftr pa 12) 10).
Definition PTE2PA (pte : Z) : Z := u64 (Z.shiftl (Z.shiftr pte 10) 12).
Definition PTE_FLAGS (pte : Z) : Z := Z.land pte 1023.
Definition PXSHIFT (level : Z) : Z := 12 + 9 * level.
Definition PX (level va : Z) : Z := Z.land (Z.shiftr va (PXSHIFT level)) 511.
Definition MAXVA : Z := Z.shiftl 1 (9 + 9 + 9 + 12 - 1).
Definition TRAMPOLINE : Z := MAXVA - PGSIZE.
Definition TRAPFRAME : Z := TRAMPOLINE - PGSIZE.
Definition KSTACK (p : Z) : Z := TRAMPOLINE - (p + 1) * 2 * PGSIZE.
Definition UART0 : Z := 268435456.
Definition VIRTIO0 : Z := 268439552.
Definition PLIC : Z := 201326592.
Definition KERNBASE : Z := 2147483648.
Definition NPROC : Z := 64.

(** The bit [f] of a page-table entry. *)
Definition has (pte f : Z) : bool := negb (Z.land pte f =? 0).

Section vm.
Context {S : Type} `{PA : PageAllocator S}.

Record st := mkSt { words : Z → Z; bytes : Z → Z; al : S }.

Definition kalloc : prog st Z := λ s,
  match pg_alloc (al s) with
  | Ok (a, al') => Ok (a, mkSt (words s) (bytes s) al')
  | Panic e => Panic e | Fault => Fault | Spin => Spin
  end.
Definition kfree (pa : Z) : prog st unit := λ s,
  match pg_free pa (al s) with
  | Ok (_, al') => Ok (tt, mkSt (words s) (bytes s) al')
  | Panic e => Panic e | Fault => Fault | Spin => Spin
  end.

(** [*pte] and [*pte = v]. *)
Definition load (pte : Z) : prog st Z := gets (λ s, words s pte).
Definition store (pte v : Z) : prog st unit :=
  modify (λ s, mkSt (<[pte := v]> (words s)) (bytes s) (al s)).

(** The addresses of the page [pa]. *)
Definition in_page (pa a : Z) : bool := (pa <=? a) && (a <? pa + PGSIZE).
(** [memset(pa, 0, PGSIZE)] on a page used as a page table, and on one used for
    user data. *)
Definition zero_table (pa : Z) : prog st unit :=
  if pa =? 0 then fault
  else modify (λ s, mkSt (λ a, if in_page pa a then 0 else words s a) (bytes s) (al s)).
Definition zero_page (pa : Z) : prog st unit :=
  if pa =? 0 then fault
  else modify (λ s, mkSt (words s) (λ a, if in_page pa a then 0 else bytes s a) (al s)).
(** [memmove] of the bytes [l] to physical memory, out of it, and within it. *)
Definition put_bytes (pa : Z) (l : list Z) : prog st unit :=
  modify (λ s, mkSt (words s)
    (λ a, if (pa <=? a) && (a <? pa + Z.of_nat (length l)) then l !!! Z.to_nat (a - pa) else bytes s a) (al s)).
Definition get_bytes (pa : Z) (n : nat) : prog st (list Z) :=
  gets (λ s, map (λ i, bytes s (pa + Z.of_nat i)) (seq 0 n)).
Definition move_page (dst src : Z) : prog st unit :=
  modify (λ s, mkSt (words s) (λ a, if in_page dst a then bytes s (src + (a - dst)) else bytes s a) (al s)).

(** ** walk and mappages *)

Fixpoint walk_loop (level : nat) (pagetable va : Z) (alloc : bool) : prog st Z :=
  match level with
  | O => mret (pagetable + 8 * PX 0 va)
  | Datatypes.S level' =>
      let pte := pagetable + 8 * PX (Z.of_nat level) va in
      v ← load pte;
      if has v PTE_V then walk_loop level' (PTE2PA v) va alloc
      else if negb alloc then mret 0
      else
        pt ← kalloc;
        if pt =? 0 then mret 0
        else
          zero_table pt;;
          store pte (Z.lor (PA2PTE pt) PTE_V);;
          walk_loop level' pt va alloc
  end.

Definition walk (pagetable va : Z) (alloc : bool) : prog st Z :=
  if MAXVA <=? va then panic "walk" else walk_loop 2 pagetable va alloc.

Definition walkaddr (pagetable va : Z) : prog st Z :=
  if MAXVA <=? va then mret 0
  else
    pte ← walk pagetable va false;
    if pte =? 0 then mret 0
    else
      v ← load pte;
      if negb (has v PTE_V) then mret 0
      else if negb (has v PTE_U) then mret 0
      else mret (PTE2PA v).

(** The loop of [mappages], until [a == last]. *)
Fixpoint mappages_loop (fuel : nat) (pagetable a last pa perm : Z) : prog st Z :=
  match fuel with
  | O => spin
  | Datatypes.S fuel' =>
      pte ← walk pagetable a true;
      if pte =? 0 then mret (-1)
      else
        v ← load pte;
        if has v PTE_V then panic "mappages: remap"
        else
          store pte (Z.lor (Z.lor (PA2PTE pa) perm) PTE_V);;
          if a =? last then mret 0
          else mappages_loop fuel' pagetable (u64 (a + PGSIZE)) last (u64 (pa + PGSIZE)) perm
  end.

Definition mappages (pagetable va size pa perm : Z) : prog st Z :=
  if size =? 0 then panic "mappages: size"
  else
    let a := PGROUNDDOWN va in
    let last := PGROUNDDOWN (u64 (va + size - 1)) in
    mappages_loop (Z.to_nat (u64 (last - a) `div` PGSIZE + 1)) pagetable a last pa perm.

Definition kvmmap (kpgtbl va pa sz perm : Z) : prog st unit :=
  r ← mappages kpgtbl va sz pa perm;
  if negb (r =? 0) then panic "kvmmap" else skip.

(** [proc_mapstacks] of kernel/proc.c. *)
Definition proc_mapstacks (kpgtbl : Z) : prog st unit :=
  for_up (Z.to_nat NPROC) 0 (λ i,
    pa ← kalloc;
    if pa =? 0 then panic "kalloc"
    else kvmmap kpgtbl (KSTACK i) pa PGSIZE (Z.lor PTE_R PTE_W)).

Definition kvmmake (etext trampoline : Z) : prog st Z :=
  kpgtbl ← kalloc;
  zero_table kpgtbl;;
  kvmmap kpgtbl UART0 UART0 PGSIZE (Z.lor PTE_R PTE_W);;
  kvmmap kpgtbl VIRTIO0 VIRTIO0 PGSIZE (Z.lor PTE_R PTE_W);;
  kvmmap kpgtbl PLIC PLIC 4194304 (Z.lor PTE_R PTE_W);;
  kvmmap kpgtbl KERNBASE KERNBASE (u64 (etext - KERNBASE)) (Z.lor PTE_R PTE_X);;
  kvmmap kpgtbl etext etext (u64 (PHYSTOP - etext)) (Z.lor PTE_R PTE_W);;
  kvmmap kpgtbl TRAMPOLINE trampoline PGSIZE (Z.lor PTE_R PTE_X);;
  proc_mapstacks kpgtbl;;
  mret kpgtbl.

(** ** User address spaces *)

Fixpoint unmap_loop (k : nat) (pagetable a : Z) (do_free : bool) : prog st unit :=
  match k with
  | O => skip
  | Datatypes.S k' =>
      pte ← walk pagetable a false;
      if pte =? 0 then panic "uvmunmap: walk"
      else
        v ← load pte;
        if negb (has v PTE_V) then panic "uvmunmap: not mapped"
        else if PTE_FLAGS v =? PTE_V then panic "uvmunmap: not a leaf"
        else
          (if do_free then kfree (PTE2PA v) else skip);;
          store pte 0;;
          unmap_loop k' pagetable (u64 (a + PGSIZE)) do_free
  end.

(** The loop runs while [a < va + npages*PGSIZE]. *)
Definition uvmunmap (pagetable va npages : Z) (do_free : bool) : prog st unit :=
  if negb (va `mod` PGSIZE =? 0) then panic "uvmunmap: not aligned"
  else unmap_loop (Z.to_nat ((u64 (va + npages * PGSIZE) - va) `div` PGSIZE)) pagetable va do_free.

Definition uvmcreate : prog st Z :=
  pagetable ← kalloc;
  if pagetable =? 0 then mret 0
  else
    zero_table pagetable;;
    mret pagetable.

Definition uvmfirst (pagetable : Z) (src : list Z) : prog st unit :=
  if PGSIZE <=? Z.of_nat (length src) then panic "uvmfirst: more than a page"
  else
    mem ← kalloc;
    zero_page mem;;
    mappages pagetable 0 PGSIZE mem (Z.lor (Z.lor (Z.lor PTE_W PTE_R) PTE_X) PTE_U);;
    put_bytes mem src.

Definition uvmdealloc (pagetable oldsz newsz : Z) : prog st Z :=
  if oldsz <=? newsz then mret oldsz
  else
    (if PGROUNDUP newsz <? PGROUNDUP oldsz then
       let npages := i32 ((PGROUNDUP oldsz - PGROUNDUP newsz) `div` PGSIZE) in
       uvmunmap pagetable (PGROUNDUP newsz) (u64 npages) true
     else skip);;
    mret newsz.

Fixpoint uvmalloc_loop (k : nat) (pagetable oldsz newsz a xperm : Z) : prog st Z :=
  match k with
  | O => mret newsz
  | Datatypes.S k' =>
      mem ← kalloc;
      if mem =? 0 then
        uvmdealloc pagetable a oldsz;;
        mret 0
      else
        zero_page mem;;
        r ← mappages pagetable a PGSIZE mem (Z.lor (Z.lor PTE_R PTE_U) xperm);
        if negb (r =? 0) then
          kfree mem;;
          uvmdealloc pagetable a oldsz;;
          mret 0
        else uvmalloc_loop k' pagetable oldsz newsz (u64 (a + PGSIZE)) xperm
  end.

(** The loop runs while [a < newsz]. *)
Definition uvmalloc (pagetable oldsz newsz xperm : Z) : prog st Z :=
  if newsz <? oldsz then mret oldsz
  else
    let oldsz := PGROUNDUP oldsz in
    uvmalloc_loop (Z.to_nat ((newsz - oldsz + (PGSIZE - 1)) `div` PGSIZE)) pagetable oldsz newsz oldsz xperm.

(** [depth] bounds the recursion: a page table has three levels. *)
Fixpoint freewalk (depth : nat) (pagetable : Z) : prog st unit :=
  match depth with
  | O => spin
  | Datatypes.S depth' =>
      for_up (Z.to_nat 512) 0 (λ i,
        pte ← load (pagetable + 8 * i);
        if has pte PTE_V && negb (has pte (Z.lor (Z.lor PTE_R PTE_W) PTE_X)) then
          freewalk depth' (PTE2PA pte);;
          store (pagetable + 8 * i) 0
        else if has pte PTE_V then panic "freewalk: leaf"
        else skip);;
      kfree pagetable
  end.

Definition uvmfree (pagetable sz : Z) : prog st unit :=
  (if 0 <? sz then uvmunmap pagetable 0 (PGROUNDUP sz `div` PGSIZE) true else skip);;
  freewalk 3 pagetable.

Fixpoint uvmcopy_loop (k : nat) (old new i : Z) : prog st Z :=
  match k with
  | O => mret 0
  | Datatypes.S k' =>
      pte ← walk old i false;
      if pte =? 0 then panic "uvmcopy: pte should exist"
      else
        v ← load pte;
        if negb (has v PTE_V) then panic "uvmcopy: page not present"
        else
          mem ← kalloc;
          if mem =? 0 then
            uvmunmap new 0 (i `div` PGSIZE) true;;
            mret (-1)
          else
            move_page mem (PTE2PA v);;
            r ← mappages new i PGSIZE mem (PTE_FLAGS v);
            if negb (r =? 0) then
              kfree mem;;
              uvmunmap new 0 (i `div` PGSIZE) true;;
              mret (-1)
            else uvmcopy_loop k' old new (u64 (i + PGSIZE))
  end.
Definition uvmcopy (old new sz : Z) : prog st Z :=
  uvmcopy_loop (Z.to_nat ((sz + (PGSIZE - 1)) `div` PGSIZE)) old new 0.

Definition uvmclear (pagetable va : Z) : prog st unit :=
  pte ← walk pagetable va false;
  if pte =? 0 then panic "uvmclear"
  else
    v ← load pte;
    store pte (Z.land v (Z.lnot PTE_U)).

(** ** Copying between the kernel and user memory

    Each turn copies at least one byte, so the number of bytes bounds the
    number of turns. *)

(** [n = PGSIZE - (va - va0); if (n > len) n = len;] *)
Definition chunk (va va0 len : Z) : Z := Z.min (PGSIZE - (va - va0)) len.

Fixpoint copyout_loop (fuel : nat) (pagetable dstva : Z) (src : list Z) : prog st Z :=
  match src with
  | [] => mret 0
  | _ =>
      match fuel with
      | O => spin
      | Datatypes.S fuel' =>
          let va0 := PGROUNDDOWN dstva in
          pa0 ← walkaddr pagetable va0;
          if pa0 =? 0 then mret (-1)
          else
            let n := Z.to_nat (chunk dstva va0 (Z.of_nat (length src))) in
            put_bytes (pa0 + (dstva - va0)) (take n src);;
            copyout_loop fuel' pagetable (u64 (va0 + PGSIZE)) (drop n src)
      end
  end.
Definition copyout (pagetable dstva : Z) (src : list Z) : prog st Z :=
  copyout_loop (length src) pagetable dstva src.

(** The result and the bytes stored at [dst]. *)
Fixpoint copyin_loop (fuel : nat) (pagetable srcva len : Z) : prog st (Z * list Z) :=
  if len =? 0 then mret (0, [])
  else
    match fuel with
    | O => spin
    | Datatypes.S fuel' =>
        let va0 := PGROUNDDOWN srcva in
        pa0 ← walkaddr pagetable va0;
        if pa0 =? 0 then mret (-1, [])
        else
          let n := chunk srcva va0 len in
          l ← get_bytes (pa0 + (srcva - va0)) (Z.to_nat n);
          r ← copyin_loop fuel' pagetable (u64 (va0 + PGSIZE)) (len - n);
          mret (r.1, l ++ r.2)
    end.
Definition copyin (pagetable srcva len : Z) : prog st (Z * list Z) :=
  copyin_loop (Z.to_nat len) pagetable srcva len.

(** The inner loop of [copyinstr]: the bytes stored, and whether a 0 was met
    within the [n] bytes at [p]. *)
Fixpoint copystr_loop (k : nat) (p : Z) : prog st (list Z * bool) :=
  match k with
  | O => mret ([], false)
  | Datatypes.S k' =>
      c ← gets (λ s, bytes s p);
      if c =? 0 then mret ([0], true)
      else
        r ← copystr_loop k' (p + 1);
        mret (c :: r.1, r.2)
  end.
Fixpoint copyinstr_loop (fuel : nat) (pagetable srcva max : Z) : prog st (Z * list Z) :=
  if max =? 0 then mret (-1, [])
  else
    match fuel with
    | O => spin
    | Datatypes.S fuel' =>
        let va0 := PGROUNDDOWN srcva in
        pa0 ← walkaddr pagetable va0;
        if pa0 =? 0 then mret (-1, [])
        else
          let n := chunk srcva va0 max in
          l ← copystr_loop (Z.to_nat n) (pa0 + (srcva - va0));
          if l.2 : bool then mret (0, l.1)
          else
            r ← copyinstr_loop fuel' pagetable (u64 (va0 + PGSIZE)) (max - n);
            mret (r.1, l.1 ++ r.2)
    end.
Definition copyinstr (pagetable srcva max : Z) : prog st (Z * list Z) :=
  copyinstr_loop (Z.to_nat max) pagetable srcva max.
End vm.
Arguments st S : clear implicits.

End Vm.
