(* ===== verification/VmTables.v ===== *)
(** * Page tables as trees

    The page-table pages of one address space, by level and position
    ([tables]), and the invariant that ties them to physical memory; [walk]
    keeps it and never changes a translation. *)

From S2P Require Import Prelude PageAlloc Vm.
Import PageAlloc Vm.

Module VmTables.

(** ** Entries *)

Lemma testbit_high f n : 0 ≤ f < 1024 → 10 ≤ n → Z.testbit f n = false.
Proof.
  intros Hf Hn. destruct (Z.eq_dec f 0) as [->|]; [apply Z.bits_0|]. apply Z.bits_above_log2; [lia|].
  apply Z.log2_lt_pow2; [lia|]. apply (Z.lt_le_trans _ (2 ^ 10)); [cbn; lia|]. apply Z.pow_le_mono_r; lia.
Qed.

Lemma land_low a f : 0 ≤ f < 1024 → Z.land (a * 1024) f = 0.
Proof.
  intros Hf. change 1024 with (2 ^ 10). apply Z.bits_inj'. intros n Hn. rewrite Z.land_spec, Z.bits_0.
  destruct (Z.lt_ge_cases n 10); [by rewrite Z.mul_pow2_bits_low|]. by rewrite (testbit_high f), andb_false_r.
Qed.

Lemma lor_low a f : 0 ≤ f < 1024 → Z.lor (a * 1024) f = a * 1024 + f.
Proof.
  intros Hf. rewrite Z.add_nocarry_lxor by by apply land_low. symmetry. apply Z.lxor_lor. by apply land_low.
Qed.

Lemma land_add a f g : 0 ≤ f < 1024 → 0 ≤ g < 1024 → Z.land (a * 1024 + f) g = Z.land f g.
Proof. intros Hf Hg. rewrite <- lor_low, Z.land_lor_distr_l, land_low by done. done. Qed.

(** An entry with frame number [n] and flags [f]. *)
Lemma has_add n f g : 0 ≤ f < 1024 → 0 ≤ g < 1024 → has (n * 1024 + f) g = has f g.
Proof. intros Hf Hg. unfold has. by rewrite land_add. Qed.

Lemma is_page_bounds a : is_page a → a `mod` 4096 = 0 ∧ 0 < a < 2 ^ 32.
Proof. unfold is_page, PGSIZE, PHYSTOP. lia. Qed.

Lemma page_frame pa : is_page pa → pa `div` 4096 * 4096 = pa.
Proof. intros [H%Z.div_exact _]; unfold PGSIZE in *; lia. Qed.

Lemma PA2PTE_page pa : is_page pa → PA2PTE pa = pa `div` 4096 * 1024.
Proof.
  intros Hp. pose proof (page_frame pa Hp). apply is_page_bounds in Hp as [_ Hp]. unfold PA2PTE.
  rewrite Z.shiftl_mul_pow2, Z.shiftr_div_pow2 by lia.
  change (2 ^ 12) with 4096. change (2 ^ 10) with 1024. apply u64_small. lia.
Qed.

Lemma PTE2PA_add pa f : is_page pa → 0 ≤ f < 1024 → PTE2PA (pa `div` 4096 * 1024 + f) = pa.
Proof.
  intros Hp Hf. pose proof (page_frame pa Hp). apply is_page_bounds in Hp as [Hm Hp]. unfold PTE2PA.
  rewrite Z.shiftl_mul_pow2, Z.shiftr_div_pow2 by lia. change (2 ^ 12) with 4096. change (2 ^ 10) with 1024.
  rewrite Z.div_add_l, (Z.div_small f), Z.add_0_r by lia. rewrite H. apply u64_small. lia.
Qed.

(** The entry that [mappages] builds. *)
Definition leaf (pa perm : Z) : Z := Z.lor (Z.lor (PA2PTE pa) perm) PTE_V.

Lemma lor_V perm : 0 ≤ perm < 1024 → 0 ≤ Z.lor perm PTE_V < 1024.
Proof.
  intros Hperm. change PTE_V with 1. split; [apply Z.lor_nonneg; lia|]. apply (Z.log2_lt_cancel _ 1024).
  rewrite Z.log2_lor by lia. change (Z.log2 1024) with 10. change (Z.log2 1) with 0.
  destruct (Z.eq_dec perm 0) as [->|]; [done|]. pose proof (Z.log2_nonneg perm).
  assert (Z.log2 perm < 10); [|lia]. apply Z.log2_lt_pow2; [lia|]. change (2 ^ 10) with 1024. lia.
Qed.

Lemma leaf_add pa perm : is_page pa → 0 ≤ perm < 1024 → leaf pa perm = pa `div` 4096 * 1024 + Z.lor perm PTE_V.
Proof.
  intros Hp Hperm. unfold leaf. rewrite <- Z.lor_assoc, PA2PTE_page by done. apply lor_low. by apply lor_V.
Qed.

Lemma has_lor f g h : has (Z.lor f g) h = has f h || has g h.
Proof.
  unfold has. rewrite Z.land_lor_distr_l.
  destruct (Z.eqb_spec (Z.land f h) 0) as [->|Hne].
  - by rewrite Z.lor_0_l.
  - destruct (Z.eqb_spec (Z.lor (Z.land f h) (Z.land g h)) 0) as [E|]; [|done]. by apply Z.lor_eq_0_iff in E as [? _].
Qed.

Lemma leaf_PTE2PA pa perm : is_page pa → 0 ≤ perm < 1024 → PTE2PA (leaf pa perm) = pa.
Proof. intros Hp Hf. rewrite leaf_add by done. apply PTE2PA_add; [done|by apply lor_V]. Qed.

Lemma leaf_has pa perm g : is_page pa → 0 ≤ perm < 1024 → 0 ≤ g < 1024 → has (leaf pa perm) g = has perm g || has PTE_V g.
Proof. intros Hp Hf Hg. rewrite leaf_add, has_add, has_lor by (done || by apply lor_V). done. Qed.

Lemma leaf_V pa perm : is_page pa → 0 ≤ perm < 1024 → has (leaf pa perm) PTE_V = true.
Proof. intros Hp Hf. rewrite leaf_has by (done || (unfold PTE_V; cbn; lia)). apply orb_true_r. Qed.

Lemma leaf_flags pa perm : is_page pa → 0 ≤ perm < 1024 → PTE_FLAGS (leaf pa perm) = Z.lor perm PTE_V.
Proof.
  intros Hp Hf. unfold PTE_FLAGS. rewrite leaf_add, land_add by (done || lia || by apply lor_V).
  change 1023 with (Z.ones 10). rewrite Z.land_ones by lia. apply Z.mod_small. change (2 ^ 10) with 1024. by apply lor_V.
Qed.

(** ** Positions *)

(** The page number of a virtual address, the index of its entry at a level,
    and the position of the table that holds it. *)
Definition vpn (va : Z) : Z := va `div` 4096.
Definition idx (l : nat) (v : Z) : Z := (v `div` 512 ^ Z.of_nat l) `mod` 512.
Definition pos (l : nat) (v : Z) : Z := v `div` 512 ^ (Z.of_nat l + 1).

Lemma PX_idx l va : 0 ≤ va → PX (Z.of_nat l) va = idx l (vpn va).
Proof.
  intros Hva. unfold PX, PXSHIFT, idx, vpn. change 511 with (Z.ones 9).
  rewrite Z.land_ones, Z.shiftr_div_pow2 by lia. change (2 ^ 9) with 512. f_equal.
  change 4096 with (2 ^ 12). change 512 with (2 ^ 9). rewrite <- Z.pow_mul_r by lia.
  rewrite Z.div_div by pow_pos. rewrite <- Z.pow_add_r by lia. done.
Qed.

Lemma pos_step l v : 0 ≤ v → pos l v = 512 * pos (S l) v + idx (S l) v.
Proof.
  intros Hv. unfold pos, idx. replace (Z.of_nat (S l)) with (Z.of_nat l + 1) by lia.
  assert (v `div` 512 ^ (Z.of_nat l + 1 + 1) = (v `div` 512 ^ (Z.of_nat l + 1)) `div` 512) as ->.
  { rewrite Z.div_div by pow_pos. by rewrite Z.pow_add_r, Z.pow_1_r by lia. }
  apply Z.div_mod. lia.
Qed.

Lemma idx_bounds l v : 0 ≤ idx l v < 512.
Proof. apply Z.mod_pos_bound. lia. Qed.

Lemma pos0_idx v w : pos 0 v = pos 0 w → idx 0 v = idx 0 w → v = w.
Proof.
  unfold pos, idx. change (Z.of_nat 0) with 0. rewrite Z.pow_0_r, !Z.div_1_r, Z.add_0_l, Z.pow_1_r.
  intros H1 H2. rewrite (Z.div_mod v 512), (Z.div_mod w 512) by lia. by rewrite H1, H2.
Qed.

(** Entries of tables do not overlap. *)
Lemma entry_inj p q i j : is_page p → is_page q → 0 ≤ i < 512 → 0 ≤ j < 512 →
  p + 8 * i = q + 8 * j → p = q ∧ i = j.
Proof.
  intros Hp Hq Hi Hj E. pose proof (page_frame p Hp). pose proof (page_frame q Hq).
  assert (p `div` 4096 = q `div` 4096) as Ed; [|split; lia].
  assert ((p + 8 * i) `div` 4096 = p `div` 4096) as <-.
  { rewrite <- (page_frame p Hp) at 1. rewrite Z.div_add_l, (Z.div_small (8 * i)); lia. }
  rewrite E. rewrite <- (page_frame q Hq) at 1. rewrite Z.div_add_l, (Z.div_small (8 * j)); lia.
Qed.

Lemma entry_in_page p q i : is_page p → is_page q → 0 ≤ i < 512 →
  in_page q (p + 8 * i) = bool_decide (p = q).
Proof.
  intros Hp Hq Hi. unfold in_page, PGSIZE. pose proof (page_frame p Hp). pose proof (page_frame q Hq).
  case_bool_decide as E.
  - subst. apply andb_true_iff. split; [apply Z.leb_le|apply Z.ltb_lt]; lia.
  - apply andb_false_iff. destruct (Z.lt_trichotomy (p `div` 4096) (q `div` 4096)) as [?|[?|?]].
    + left. apply Z.leb_gt. lia.
    + lia.
    + right. apply Z.ltb_ge. lia.
Qed.

Lemma pos_div l v : 0 ≤ v → pos l v `div` 512 = pos (S l) v.
Proof.
  intros Hv. rewrite (pos_step l v Hv). rewrite Z.add_comm, Z.mul_comm, Z.div_add by lia.
  rewrite Z.div_small by apply idx_bounds. lia.
Qed.

(** ** Trees of tables *)

Abbreviation tables := (gmap (nat * Z) Z).

(** [T !! (l, k)] is the table at level [l] and position [k]. *)
Record pt (w : Z → Z) (root : Z) (T : tables) : Prop := {
  pt_root : T !! (2%nat, 0) = Some root;
  pt_page k p : T !! k = Some p → is_page p;
  pt_key l k p : T !! (l, k) = Some p → (l ≤ 2)%nat ∧ 0 ≤ k < 512 ^ Z.of_nat (2 - l);
  pt_entry l k p i : T !! (S l, k) = Some p → 0 ≤ i < 512 →
    w (p + 8 * i) = match T !! (l, 512 * k + i) with Some q => leaf q 0 | None => 0 end;
  pt_up l k p : T !! (l, k) = Some p → (l < 2)%nat → is_Some (T !! (S l, k `div` 512));
  pt_inj k1 k2 p : T !! k1 = Some p → T !! k2 = Some p → k1 = k2 }.

(** The address of the entry of page [v], and the entry; 0 when the table does
    not exist. *)
Definition slot (T : tables) (v : Z) : Z :=
  match T !! (0%nat, pos 0 v) with Some p => p + 8 * idx 0 v | None => 0 end.
Definition pte_at (w : Z → Z) (T : tables) (v : Z) : Z :=
  match T !! (0%nat, pos 0 v) with Some p => w (p + 8 * idx 0 v) | None => 0 end.

Section pt.
Context (w : Z → Z) (root : Z) (T : tables) (H : pt w root T).

Lemma pt_chain v l : 0 ≤ v → is_Some (T !! (0%nat, pos 0 v)) → (l ≤ 2)%nat → is_Some (T !! (l, pos l v)).
Proof using H.
  intros Hv H0. induction l as [|l IH]; intros Hl; [done|]. destruct IH as [p Hp]; [lia|].
  rewrite <- (pos_div l v Hv). by eapply (pt_up w root T H); [|lia].
Qed.

Lemma slot_page v p : T !! (0%nat, pos 0 v) = Some p → slot T v = p + 8 * idx 0 v ∧ slot T v ≠ 0.
Proof using H.
  intros Hp. unfold slot. rewrite Hp. split; [done|]. pose proof (idx_bounds 0 v).
  pose proof (pt_page _ _ _ H _ _ Hp) as Hpg. apply is_page_bounds in Hpg. lia.
Qed.

Lemma slot_inj v1 v2 : slot T v1 ≠ 0 → slot T v1 = slot T v2 → v1 = v2.
Proof using H.
  unfold slot. destruct (T !! (0%nat, pos 0 v1)) as [p1|] eqn:E1; [|done].
  destruct (T !! (0%nat, pos 0 v2)) as [p2|] eqn:E2; [|done].
  intros _ E. apply entry_inj in E as [-> Ei]; [|by eapply pt_page|by eapply pt_page|apply idx_bounds..].
  pose proof (pt_inj _ _ _ H _ _ _ E1 E2) as Ek. injection Ek as Ek. by apply pos0_idx.
Qed.

(** Storing a leaf entry changes that translation only. *)
Lemma pt_store v x : slot T v ≠ 0 →
  pt (<[slot T v := x]> w) root T ∧
  ∀ v', pte_at (<[slot T v := x]> w) T v' = if decide (v' = v) then x else pte_at w T v'.
Proof using H.
  intros Hs. assert (∃ p0, T !! (0%nat, pos 0 v) = Some p0) as [p0 E0].
  { unfold slot in Hs. destruct (T !! (0%nat, pos 0 v)); eauto; done. }
  destruct (slot_page v p0 E0) as [Es _]. split.
  - destruct H as [H1 H2 Hk H3 H4 H5]. constructor; [done..| |done|done]. intros l k p i Hp Hi.
    rewrite fn_lookup_insert_ne; [by apply H3|]. rewrite Es. intros E.
    apply entry_inj in E as [-> _]; [|by eapply H2|by eapply H2|apply idx_bounds|done].
    by pose proof (H5 _ _ _ Hp E0).
  - intros v'. destruct (decide (v' = v)) as [->|Hne].
    + unfold pte_at. rewrite E0, <- Es. by rewrite fn_lookup_insert.
    + unfold pte_at. destruct (T !! (0%nat, pos 0 v')) as [p'|] eqn:E'; [|done].
      destruct (slot_page v' p' E') as [<- Hn']. rewrite fn_lookup_insert_ne; [done|]. intros E. apply Hne.
      by apply slot_inj.
Qed.

(** Hanging a zeroed page below an existing table. *)
Lemma pt_new l v p q : (l < 2)%nat → 0 ≤ v < 2 ^ 27 → T !! (S l, pos (S l) v) = Some p → T !! (l, pos l v) = None →
  is_page q → q ∉@{gset Z} map_img T →
  let w' := <[p + 8 * idx (S l) v := leaf q 0]> (λ a, if in_page q a then 0 else w a) in
  let T' := <[(l, pos l v) := q]> T in
  pt w' root T' ∧ ∀ v', pte_at w' T' v' = pte_at w T v'.
Proof using H.
  intros Hl [Hv Hv27] Hp Hnone Hq Hfresh w' T'. destruct H as [H1 H2 Hkey H3 H4 H5].
  assert (∀ k p', T !! k = Some p' → p' ≠ q) as Hqn.
  { intros k p' Hk ->. apply Hfresh. apply elem_of_map_img. by exists k. }
  assert (∀ k p' i, T !! k = Some p' → 0 ≤ i < 512 → (k, i) ≠ ((S l, pos (S l) v), idx (S l) v) → w' (p' + 8 * i) = w (p' + 8 * i)) as Hold.
  { intros k p' i Hk Hi Hne. unfold w'. rewrite fn_lookup_insert_ne.
    - rewrite entry_in_page by (done || by eapply H2). rewrite bool_decide_false; [done|by eapply Hqn].
    - intros E. apply entry_inj in E as [-> <-]; [|by eapply H2|by eapply H2|apply idx_bounds|done].
      by rewrite (H5 _ _ _ Hk Hp) in Hne. }
  assert (∀ i, 0 ≤ i < 512 → w' (q + 8 * i) = 0) as Hzero.
  { intros i Hi. unfold w'. rewrite fn_lookup_insert_ne.
    - rewrite entry_in_page by done. by rewrite bool_decide_true.
    - intros E. apply entry_inj in E as [E _]; [|by eapply H2|done|apply idx_bounds|done]. by apply (Hqn _ _ Hp). }
  split; [constructor|].
  - unfold T'. rewrite lookup_insert_ne; [done|]. intros [=]. lia.
  - intros k p'. unfold T'. destruct (decide (k = (l, pos l v))) as [->|]; [rewrite lookup_insert_eq; by intros [= <-]|].
    rewrite lookup_insert_ne by done. apply H2.
  - intros l' k p'. unfold T'. destruct (decide ((l', k) = (l, pos l v))) as [[= -> ->]|];
      [|rewrite lookup_insert_ne by done; apply Hkey].
    intros _. split; [lia|]. unfold pos. split; [apply Z.div_pos; pow_pos|]. apply Z.div_lt_upper_bound; [pow_pos|].
    rewrite <- Z.pow_add_r by lia. replace (Z.of_nat l + 1 + Z.of_nat (2 - l)) with 3 by lia. done.
  - intros l' k p' i Hk Hi. unfold T' in Hk |- *. destruct (decide ((S l', k) = (l, pos l v))) as [E|Hne].
    + rewrite E, lookup_insert_eq in Hk. injection Hk as <-. rewrite Hzero by done. injection E as <- ->.
      rewrite lookup_insert_ne by (intros [=]; lia).
      destruct (T !! (l', _)) as [r|] eqn:Er; [|done]. exfalso.
      destruct (H4 _ _ _ Er ltac:(lia)) as [r' Hr']. rewrite Z.mul_comm, Z.div_add_l, Z.div_small in Hr' by lia.
      rewrite Z.add_0_r in Hr'. congruence.
    + rewrite lookup_insert_ne in Hk by done. destruct (decide ((l', 512 * k + i) = (l, pos l v))) as [E|Hne'].
      * rewrite E, lookup_insert_eq. injection E as -> E. rewrite (pos_step l v Hv) in E. pose proof (idx_bounds (S l) v).
        assert (k = pos (S l) v) as -> by lia. assert (i = idx (S l) v) as -> by lia.
        rewrite Hp in Hk. injection Hk as <-. unfold w'. by rewrite fn_lookup_insert.
      * rewrite lookup_insert_ne by done. rewrite (Hold (S l', k)); [by apply H3|done|done|].
        intros [= -> -> ->]. apply Hne'. by rewrite (pos_step l v Hv).
  - intros l' k p'. unfold T'. intros Hk Hl'. destruct (decide ((S l', k `div` 512) = (l, pos l v))) as [E|Hne].
    + rewrite E, lookup_insert_eq. by eexists.
    + rewrite lookup_insert_ne by done. destruct (decide ((l', k) = (l, pos l v))) as [[= -> ->]|Hne2].
      * rewrite (pos_div l v Hv). by eexists.
      * rewrite lookup_insert_ne in Hk by done. by eapply H4.
  - intros k1 k2 p'. unfold T'.
    destruct (decide (k1 = (l, pos l v))) as [->|], (decide (k2 = (l, pos l v))) as [->|];
      rewrite ?lookup_insert_eq, ?lookup_insert_ne by done; try done.
    + intros [= <-] Hk. by destruct (Hqn _ _ Hk).
    + intros Hk [= <-]. by destruct (Hqn _ _ Hk).
    + apply H5.
  - intros v'. unfold pte_at, T'. destruct (decide ((0%nat, pos 0 v') = (l, pos l v))) as [E|Hne].
    + rewrite E, lookup_insert_eq, Hnone. apply Hzero, idx_bounds.
    + rewrite lookup_insert_ne by done. destruct (T !! (0%nat, pos 0 v')) as [p'|] eqn:Ep; [|done].
      apply (Hold _ _ _ Ep); [apply idx_bounds|done].
Qed.
End pt.

End VmTables.
