(* ===== verification/VmProofs.v ===== *)
(** * Page tables: walk, mappages, unmapping, growing and freeing

    [aspace s root T R]: in state [s] the page table [root] consists of the
    tables [T], and the allocator's clients own these pages and, besides, the
    pages [R] (the frames of this address space, other address spaces, ...). *)

From S2P Require Import Prelude PageAlloc Vm VmTables.
Import PageAlloc Vm VmTables.

Module VmProofs.
Section proofs.
Context {S : Type} `{PA : PageAllocator S}.
Implicit Types (s : st S) (T : tables) (R : gset Z).

Record aspace s (root : Z) T R : Prop := {
  as_pt : pt (words s) root T;
  as_disj : map_img T ## R;
  as_inv : pg_inv (al s) (map_img T ∪ R) }.

(** Only words of the pages [X] are written. *)
Definition frame s s' (X : gset Z) : Prop :=
  ∀ p i, p ∉ X → is_page p → 0 ≤ i < 512 → words s' (p + 8 * i) = words s (p + 8 * i).

Lemma frame_refl s X : frame s s X.
Proof. by intros p i. Qed.
Lemma frame_trans s1 s2 s3 X Y : frame s1 s2 X → frame s2 s3 Y → X ⊆ Y → frame s1 s3 Y.
Proof. intros H1 H2 Hs p i Hp ??. rewrite H2 by done. apply H1; [|done..]. intros Hx. by apply Hp, Hs. Qed.
Lemma img_mono T T' : T ⊆ T' → map_img T ⊆@{gset Z} map_img T'.
Proof.
  intros Hs p (k & Hk)%elem_of_map_img. apply elem_of_map_img. exists k. by eapply lookup_weaken.
Qed.

(** Another page table is not affected. *)
Lemma pt_frame s s' root T X : frame s s' X → map_img T ## X → pt (words s) root T →
  pt (words s') root T ∧ ∀ v, pte_at (words s') T v = pte_at (words s) T v.
Proof.
  intros Hf Hs [H1 H2 Hkey H3 H4 H5].
  assert (∀ k p i, T !! k = Some p → 0 ≤ i < 512 → words s' (p + 8 * i) = words s (p + 8 * i)) as E.
  { intros k p i Hk Hi. apply Hf; [|by eapply H2|done]. intros Hx. apply (Hs p); [|done]. apply elem_of_map_img. by exists k. }
  split.
  - constructor; [done|done|done| |done|done]. intros l k p i Hkp Hi. rewrite (E (Datatypes.S l, k)) by done. by apply H3.
  - intros v. unfold pte_at. destruct (T !! (0%nat, pos 0 v)) eqn:Ep; [|done]. by apply (E _ _ _ Ep), idx_bounds.
Qed.

Lemma vm_kalloc_ok s root T R : aspace s root T R → ∃ a s', kalloc s = Ok (a, s') ∧
  words s' = words s ∧ bytes s' = bytes s ∧
  ((a = 0 ∧ aspace s' root T R) ∨
   (a ≠ 0 ∧ is_page a ∧ a ∉ R ∧ a ∉@{gset Z} map_img T ∧ aspace s' root T ({[a]} ∪ R))).
Proof.
  intros [Hp Hd Hi]. destruct (pg_alloc_ok (al s) _ Hi) as (a & al' & E & H).
  exists a, (mkSt (words s) (bytes s) al'). unfold kalloc. rewrite E. split_and!; [done..|].
  destruct H as [[-> Hi']|(Hpg & Hn & Hi')]; [left|right].
  - split; [done|]. by constructor.
  - apply not_elem_of_union in Hn as [Hn1 Hn2]. split_and!; [by apply is_page_nonzero|done..|].
    constructor; [done|set_solver|]. cbn.
    by replace (map_img T ∪ ({[a]} ∪ R)) with ({[a]} ∪ (map_img T ∪ R)) by set_solver.
Qed.

Lemma vm_kfree_ok s root T R a : aspace s root T R → a ∈ R → ∃ s', kfree a s = Ok (tt, s') ∧
  words s' = words s ∧ bytes s' = bytes s ∧ aspace s' root T (R ∖ {[a]}).
Proof.
  intros [Hp Hd Hi] Ha. destruct (pg_free_ok (al s) _ a Hi) as (al' & E & H); [set_solver|].
  exists (mkSt (words s) (bytes s) al'). unfold kfree. rewrite E. split_and!; [done..|].
  constructor; [done|set_solver|]. cbn.
  replace (map_img T ∪ R ∖ {[a]}) with ((map_img T ∪ R) ∖ {[a]}); [done|]. set_solver.
Qed.

Lemma load_ok s pte : load pte s = Ok (words s pte, s).
Proof. done. Qed.

(** The tables of [T'] that [T] does not have lie on the way to the pages from
    [v] to [v + n]. *)
Definition only_for T T' (v n : Z) : Prop :=
  ∀ l k, is_Some (T' !! (l, k)) → T !! (l, k) = None → ∃ j, v ≤ j < v + n ∧ k = pos l j.

Lemma only_for_refl T v n : only_for T T v n.
Proof. intros l k [p Hp] Hn. congruence. Qed.
Lemma only_for_trans T1 T2 T3 v1 n1 v2 n2 v n : only_for T1 T2 v1 n1 → only_for T2 T3 v2 n2 →
  v ≤ v1 → v1 + n1 ≤ v + n → v ≤ v2 → v2 + n2 ≤ v + n → only_for T1 T3 v n.
Proof.
  intros H1 H2 ???? l k H3 Hn. destruct (T2 !! (l, k)) as [p|] eqn:E.
  - destruct (H1 l k) as (j & ? & ?); [by rewrite E|done|]. exists j. split; [lia|done].
  - destruct (H2 l k) as (j & ? & ?); [done|done|]. exists j. split; [lia|done].
Qed.

Lemma only_for_mono T T' v1 n1 v n : only_for T T' v1 n1 → v ≤ v1 → v1 + n1 ≤ v + n → only_for T T' v n.
Proof. intros H ?? l k H1 H2. destruct (H l k H1 H2) as (j & ? & ?). exists j. split; [lia|done]. Qed.

(** ** walk *)

Section walk.
Context (va : Z) (Hva : 0 ≤ va < MAXVA).
Let v := vpn va.

Lemma v_nonneg : 0 ≤ v.
Proof using Hva. apply Z.div_pos; lia. Qed.
Lemma v_bound : v < 2 ^ 27.
Proof using Hva. apply Z.div_lt_upper_bound; [lia|]. change (4096 * 2 ^ 27) with (2 * MAXVA). lia. Qed.

Lemma walk_loop_find s root T l : ∀ p, pt (words s) root T → (l ≤ 2)%nat → T !! (l, pos l v) = Some p →
  walk_loop l p va false s = Ok (slot T v, s).
Proof using Hva.
  pose proof v_nonneg as Hv. induction l as [|l IH]; intros p H Hl Hp; cbn [walk_loop].
  - change (PX 0 va) with (PX (Z.of_nat 0) va). rewrite (PX_idx 0 va (proj1 Hva)). unfold slot. fold v. by rewrite Hp.
  - rewrite PX_idx by lia. fold v. prog_step (load_ok s (p + 8 * idx (Datatypes.S l) v)).
    rewrite (pt_entry _ _ _ H _ _ _ _ Hp (idx_bounds _ _)), <- (pos_step l v Hv).
    destruct (T !! (l, pos l v)) as [q|] eqn:Eq.
    + pose proof (pt_page _ _ _ H _ _ Eq). rewrite leaf_V, leaf_PTE2PA by (done || lia). apply IH; [done|lia|done].
    + change (has 0 PTE_V) with false. cbn [negb]. unfold slot.
      destruct (T !! (0%nat, pos 0 v)) eqn:E0; [|done]. exfalso.
      destruct (pt_chain _ _ _ H v l Hv) as [q Hq]; [by rewrite E0|lia|]. congruence.
Qed.

Lemma walk_loop_alloc l : ∀ s root T R p, aspace s root T R → (l ≤ 2)%nat → T !! (l, pos l v) = Some p →
  ∃ r T' s', walk_loop l p va true s = Ok (r, s') ∧ aspace s' root T' R ∧ T ⊆ T' ∧ only_for T T' v 1 ∧
    bytes s' = bytes s ∧ frame s s' (map_img T') ∧ (∀ v, pte_at (words s') T' v = pte_at (words s) T v) ∧
    (r = 0 ∨ (r = slot T' v ∧ r ≠ 0)).
Proof using Hva.
  pose proof v_nonneg as Hv. induction l as [|l IH]; intros s root T R p H Hl Hp; cbn [walk_loop].
  - exists (slot T v), T, s. change (PX 0 va) with (PX (Z.of_nat 0) va). rewrite (PX_idx 0 va (proj1 Hva)). fold v.
    destruct (slot_page _ _ _ (as_pt _ _ _ _ H) v p Hp) as [Es Hs0]. rewrite Es at 1.
    split_and!; [done|done|done|apply only_for_refl|done|apply frame_refl|done|by right].
  - rewrite PX_idx by lia. fold v. prog_step (load_ok s (p + 8 * idx (Datatypes.S l) v)).
    rewrite (pt_entry _ _ _ (as_pt _ _ _ _ H) _ _ _ _ Hp (idx_bounds _ _)), <- (pos_step l v Hv).
    destruct (T !! (l, pos l v)) as [q|] eqn:Eq.
    + pose proof (pt_page _ _ _ (as_pt _ _ _ _ H) _ _ Eq). rewrite leaf_V, leaf_PTE2PA by (done || lia).
      apply IH; [done|lia|done].
    + change (has 0 PTE_V) with false. cbn [negb].
      destruct (vm_kalloc_ok s root T R H) as (a & s1 & E1 & W1 & B1 & [[-> H1]|(Ha & Hpg & HaR & HaT & H1)]); prog_step E1.
      { exists 0, T, s1. rewrite W1. split_and!; [done|done|done|apply only_for_refl|done| |done|by left]. intros p' i ???. by rewrite W1. }
      destruct (Z.eqb_spec a 0); [done|]. unfold zero_table. destruct (Z.eqb_spec a 0); [done|]. prog_run.
      unfold store. prog_run. cbn [words bytes al].
      destruct (pt_new (words s1) root T (as_pt _ _ _ _ H1) l v p a) as [Hpt Hsame]; [lia|split; [done|apply v_bound]|done|done|done|done|].
      replace (Z.lor (PA2PTE a) PTE_V) with (leaf a 0) by (unfold leaf; by rewrite Z.lor_0_r).
      set (s2 := mkSt _ _ _). set (T1 := <[(l, pos l v) := a]> T) in *.
      assert (map_img T1 = {[a]} ∪ map_img T :> gset Z) as Eimg by (apply leibniz_equiv, map_img_insert_notin; done).
      assert (aspace s2 root T1 R) as H2.
      { destruct H1 as [_ Hd Hi]. constructor; [done|rewrite Eimg; set_solver|]. cbn. rewrite Eimg.
        by replace ({[a]} ∪ map_img T ∪ R) with (map_img T ∪ ({[a]} ∪ R)) by set_solver. }
      destruct (IH s2 root T1 R a H2) as (r & T' & s' & E & Has & Hsub & Hon & Hb & Hf & Hpte & Hr); [lia|apply lookup_insert_eq|].
      exists r, T', s'. split_and!; [done|done| | |by rewrite Hb|..| |done].
      * transitivity T1; [|done]. by apply insert_subseteq.
      * apply (only_for_trans _ T1 _ v 1 v 1); [|done|lia..]. intros l' k [p' Hp'] Hk.
        apply lookup_insert_Some in Hp' as [[[= <- <-] _]|[_ Hp']]; [|congruence]. exists v. split; [lia|done].
      * eapply frame_trans; [|done|by apply img_mono]. intros q i HqR Hqp Hi. rewrite Eimg in HqR. cbn [words s2].
        rewrite fn_lookup_insert_ne.
        -- rewrite entry_in_page by done. rewrite bool_decide_false by set_solver. by rewrite W1.
        -- intros E'. apply entry_inj in E' as [-> _]; [|by eapply (pt_page _ _ _ (as_pt _ _ _ _ H))|done|apply idx_bounds|done].
           apply HqR, elem_of_union_r, elem_of_map_img. by eexists.
      * intros v'. rewrite Hpte. cbn [words s2]. rewrite <- W1. apply Hsame.
Qed.
End walk.

Lemma MAXVA_val : MAXVA = 2 ^ 38.
Proof. done. Qed.
Lemma pos2 v : 0 ≤ v < 2 ^ 26 → pos 2 v = 0.
Proof. intros Hv. apply Z.div_small. change (512 ^ (Z.of_nat 2 + 1)) with (2 ^ 27). lia. Qed.
Lemma vpn_page v : vpn (4096 * v) = v.
Proof. unfold vpn. by rewrite Z.mul_comm, Z.div_mul by lia. Qed.

Lemma walk_find s root T va : pt (words s) root T → 0 ≤ va < MAXVA →
  walk root va false s = Ok (slot T (vpn va), s).
Proof.
  rewrite MAXVA_val. intros H Hva. unfold walk. rewrite MAXVA_val. destruct (Z.leb_spec (2 ^ 38) va); [lia|].
  eapply walk_loop_find; [by rewrite MAXVA_val|done|lia|]. rewrite pos2; [apply (pt_root _ _ _ H)|].
  split; [apply Z.div_pos; lia|apply Z.div_lt_upper_bound; lia].
Qed.

Lemma walk_alloc s root T R va : aspace s root T R → 0 ≤ va < MAXVA →
  ∃ r T' s', walk root va true s = Ok (r, s') ∧ aspace s' root T' R ∧ T ⊆ T' ∧ only_for T T' (vpn va) 1 ∧
    bytes s' = bytes s ∧ frame s s' (map_img T') ∧ (∀ v, pte_at (words s') T' v = pte_at (words s) T v) ∧
    (r = 0 ∨ (r = slot T' (vpn va) ∧ r ≠ 0)).
Proof.
  rewrite MAXVA_val. intros H Hva. unfold walk. rewrite MAXVA_val. destruct (Z.leb_spec (2 ^ 38) va); [lia|].
  eapply walk_loop_alloc; [by rewrite MAXVA_val|done|lia|]. rewrite pos2; [apply (pt_root _ _ _ (as_pt _ _ _ _ H))|].
  split; [apply Z.div_pos; lia|apply Z.div_lt_upper_bound; lia].
Qed.

Lemma slot_pte w T v : pte_at w T v = if slot T v =? 0 then pte_at w T v else w (slot T v).
Proof. unfold pte_at, slot. destruct (T !! (0%nat, pos 0 v)); [|done]. by destruct (_ =? 0). Qed.

(** Storing the entry of a page whose table exists. *)
Lemma store_ok s root T R v x : aspace s root T R → slot T v ≠ 0 →
  ∃ s', store (slot T v) x s = Ok (tt, s') ∧ aspace s' root T R ∧ bytes s' = bytes s ∧ frame s s' (map_img T) ∧
    ∀ v', pte_at (words s') T v' = if decide (v' = v) then x else pte_at (words s) T v'.
Proof.
  intros [Hp Hd Hi] Hs. destruct (pt_store _ _ _ Hp v x Hs) as [Hp' Hv']. eexists. split; [reflexivity|].
  split_and!; [by constructor|done| |done]. intros p i HpR Hpg Hi'. cbn. rewrite fn_lookup_insert_ne; [done|].
  unfold slot. destruct (T !! (0%nat, pos 0 v)) as [p0|] eqn:E0; [|by unfold slot in Hs; rewrite E0 in Hs].
  intros E. apply entry_inj in E as [-> _]; [|by eapply pt_page|done|apply idx_bounds|done].
  apply HpR, elem_of_map_img. by eexists.
Qed.

(** ** mappages *)

(** The translations after mapping [n] pages from [v] on to consecutive frames
    from [pa] on. *)
Definition mapped (f : Z → Z) (v n pa perm : Z) : Z → Z := λ v',
  if (v <=? v') && (v' <? v + n) then leaf (pa + 4096 * (v' - v)) perm else f v'.

Lemma mapped_0 f v pa perm v' : mapped f v 0 pa perm v' = f v'.
Proof. unfold mapped. destruct (Z.leb_spec v v'), (Z.ltb_spec v' (v + 0)); try done. lia. Qed.

Lemma mapped_cons f v n pa perm v' : 0 ≤ n →
  mapped (λ v', if decide (v' = v) then leaf pa perm else f v') (v + 1) n (pa + 4096) perm v' =
  mapped f v (n + 1) pa perm v'.
Proof.
  intros Hn. unfold mapped. destruct (decide (v' = v)) as [->|].
  - destruct (Z.leb_spec (v + 1) v), (Z.leb_spec v v), (Z.ltb_spec v (v + (n + 1))); try lia. cbn. f_equal. lia.
  - destruct (Z.leb_spec (v + 1) v'), (Z.leb_spec v v'), (Z.ltb_spec v' (v + 1 + n)), (Z.ltb_spec v' (v + (n + 1))); try lia; try done.
    cbn. f_equal. lia.
Qed.

Lemma mapped_ext f g v n pa perm v' : (∀ v, f v = g v) → mapped f v n pa perm v' = mapped g v n pa perm v'.
Proof. intros H. unfold mapped. by rewrite H. Qed.

Lemma mappages_loop_ok root R perm k : ∀ s T v pa,
  aspace s root T R → 0 ≤ v → v + Z.of_nat k < 2 ^ 26 → 0 ≤ pa → pa + 4096 * (Z.of_nat k + 1) < 2 ^ 64 →
  (∀ j, v ≤ j ≤ v + Z.of_nat k → has (pte_at (words s) T j) PTE_V = false) →
  ∃ r n T' s', mappages_loop (Datatypes.S k) root (4096 * v) (4096 * (v + Z.of_nat k)) pa perm s = Ok (r, s') ∧
    aspace s' root T' R ∧ T ⊆ T' ∧ only_for T T' v (Z.of_nat k + 1) ∧ bytes s' = bytes s ∧ frame s s' (map_img T') ∧
    (∀ v', pte_at (words s') T' v' = mapped (pte_at (words s) T) v n pa perm v') ∧
    (r = 0 ∧ n = Z.of_nat k + 1 ∨ r = -1 ∧ 0 ≤ n ≤ Z.of_nat k).
Proof.
  induction k as [|k IH]; intros s T v pa H Hv Hlt Hpa Hpa2 Hfree; remember (Datatypes.S _) as f eqn:Ef; rewrite Ef; cbn [mappages_loop].
  all: destruct (walk_alloc s root T R (4096 * v) H) as (r & T1 & s1 & E1 & H1 & Hsub & Hon & Hb & Hf & Hpte & Hr); [rewrite MAXVA_val; lia|].
  all: prog_step E1; rewrite vpn_page in Hr, Hon.
  all: destruct Hr as [->|[-> Hs]]; [exists (-1), 0, T1, s1; split_and!; [done|done|done|eapply only_for_mono; [exact Hon|lia..]|done|done| |right; lia]; intros v'; by rewrite mapped_0|].
  all: destruct (Z.eqb_spec (slot T1 v) 0); [done|]; prog_step (load_ok s1 (slot T1 v)).
  all: assert (words s1 (slot T1 v) = pte_at (words s) T v) as -> by (rewrite <- Hpte, slot_pte; by destruct (Z.eqb_spec (slot T1 v) 0)).
  all: rewrite Hfree by lia; destruct (store_ok s1 root T1 R v (leaf pa perm) H1 Hs) as (s2 & E2 & H2 & Hb2 & Hf2 & Hpte2).
  all: unfold leaf in E2; prog_step E2.
  - replace (4096 * v =? 4096 * (v + Z.of_nat 0)) with true by (symmetry; apply Z.eqb_eq; lia).
    exists 0, 1, T1, s2. split_and!; [done|done|done|done|by rewrite Hb2|by eapply frame_trans| |left; lia].
    intros v'. rewrite Hpte2, Hpte. symmetry. change 1 with (0 + 1). rewrite <- mapped_cons, mapped_0 by lia. done.
  - destruct (Z.eqb_spec (4096 * v) (4096 * (v + Z.of_nat (Datatypes.S k)))); [lia|].
    unfold PGSIZE. rewrite (u64_small (4096 * v + 4096)), (u64_small (pa + 4096)) by lia.
    replace (4096 * v + 4096) with (4096 * (v + 1)) by lia.
    replace (v + Z.of_nat (Datatypes.S k)) with (v + 1 + Z.of_nat k) by lia.
    destruct (IH s2 T1 (v + 1) (pa + 4096) H2) as (r & n' & T' & s' & E & H' & Hsub' & Hon' & Hb' & Hf' & Hpte' & Hr); [lia..| |].
    { intros j Hj. rewrite Hpte2. destruct (decide (j = v)); [lia|]. rewrite Hpte. apply Hfree. lia. }
    exists r, (n' + 1), T', s'. split_and!; [by rewrite Ef in E|done|by transitivity T1|eapply only_for_trans; [exact Hon|exact Hon'|lia..]|by rewrite Hb', Hb2| | |lia].
    + apply img_mono in Hsub'. eapply frame_trans; [by eapply frame_trans|done|done].
    + intros v'. rewrite Hpte', <- mapped_cons by lia. apply mapped_ext. intros v0. rewrite Hpte2. by rewrite Hpte.
Qed.

Lemma PGROUNDDOWN_page v x : 0 ≤ v → 0 ≤ x < 4096 → 4096 * v + x < 2 ^ 64 → PGROUNDDOWN (4096 * v + x) = 4096 * v.
Proof.
  intros Hv Hx Hlt. unfold PGROUNDDOWN, PGSIZE. change 4096 with (2 ^ 12) at 2. rewrite land_clear_low by lia.
  change (2 ^ 12) with 4096. rewrite (Z.mul_comm 4096 v), Z.div_add_l, (Z.div_small x) by lia. lia.
Qed.

(** [mappages] of [n] whole pages. *)
Lemma mappages_ok root R perm s T v n pa :
  aspace s root T R → 0 ≤ v → 0 < n → v + n ≤ 2 ^ 26 → 0 ≤ pa → pa + 4096 * n < 2 ^ 64 →
  (∀ j, v ≤ j < v + n → has (pte_at (words s) T j) PTE_V = false) →
  ∃ r n' T' s', mappages root (4096 * v) (4096 * n) pa perm s = Ok (r, s') ∧
    aspace s' root T' R ∧ T ⊆ T' ∧ only_for T T' v n ∧ bytes s' = bytes s ∧ frame s s' (map_img T') ∧
    (∀ v', pte_at (words s') T' v' = mapped (pte_at (words s) T) v n' pa perm v') ∧
    (r = 0 ∧ n' = n ∨ r = -1 ∧ 0 ≤ n' < n).
Proof.
  intros H Hv Hn Hlt Hpa Hpa2 Hfree. unfold mappages. destruct (Z.eqb_spec (4096 * n) 0); [lia|]. cbv zeta.
  pose proof (PGROUNDDOWN_page v 0 ltac:(lia) ltac:(lia) ltac:(lia)) as Ea. rewrite Z.add_0_r in Ea. rewrite Ea.
  rewrite (u64_small (4096 * v + 4096 * n - 1)) by lia. replace (4096 * v + 4096 * n - 1) with (4096 * (v + (n - 1)) + 4095) by lia.
  rewrite PGROUNDDOWN_page by lia.
  replace (4096 * (v + (n - 1)) - 4096 * v) with ((n - 1) * 4096) by lia. rewrite u64_small by lia.
  unfold PGSIZE. rewrite Z.div_mul by lia. replace (Z.to_nat (n - 1 + 1)) with (Datatypes.S (Z.to_nat (n - 1))) by lia.
  replace (v + (n - 1)) with (v + Z.of_nat (Z.to_nat (n - 1))) by lia.
  destruct (mappages_loop_ok root R perm (Z.to_nat (n - 1)) s T v pa) as (r & n' & T' & s' & E & H'); [done|lia..| |].
  { intros j Hj. apply Hfree. lia. }
  exists r, n', T', s'. split; [done|]. destruct H' as (?&?& Hon &?&?&?& Hr). split_and!; [done|done|by replace (Z.of_nat (Z.to_nat (n - 1)) + 1) with n in Hon by lia|done..|].
  destruct Hr as [[-> ->]|[-> ?]]; [left|right]; lia.
Qed.

(** ** uvmunmap *)

(** The values of [g] at [v], ..., [v + k - 1]. *)
Fixpoint range_set (g : Z → Z) (v : Z) (k : nat) : gset Z :=
  match k with O => ∅ | Datatypes.S k' => {[g v]} ∪ range_set g (v + 1) k' end.

Lemma elem_range_set g k : ∀ v x, x ∈ range_set g v k ↔ ∃ j, v ≤ j < v + Z.of_nat k ∧ g j = x.
Proof.
  induction k as [|k IH]; intros v x; cbn [range_set].
  - split; [set_solver|]. intros (j & Hj & _). lia.
  - rewrite elem_of_union, elem_of_singleton, IH. split.
    + intros [->|(j & Hj & <-)]; [exists v|exists j]; (split; [lia|done]).
    + intros (j & Hj & <-). destruct (decide (j = v)) as [->|]; [by left|right]. exists j. split; [lia|done].
Qed.

Lemma range_set_ext g h v k : (∀ j, v ≤ j < v + Z.of_nat k → g j = h j) → range_set g v k = range_set h v k.
Proof.
  revert v. induction k as [|k IH]; intros v Hj; cbn [range_set]; [done|].
  rewrite (Hj v) by lia. rewrite (IH (v + 1)); [done|]. intros j ?. apply Hj. lia.
Qed.

(** The translations after removing [n] pages from [v] on. *)
Definition unmapped (f : Z → Z) (v n : Z) : Z → Z := λ v', if (v <=? v') && (v' <? v + n) then 0 else f v'.

Lemma unmapped_in f v n j : v ≤ j < v + n → unmapped f v n j = 0.
Proof. intros H. unfold unmapped. by rewrite (proj2 (Z.leb_le _ _)), (proj2 (Z.ltb_lt _ _)) by lia. Qed.
Lemma unmapped_out f v n j : ¬ (v ≤ j < v + n) → unmapped f v n j = f j.
Proof. intros H. unfold unmapped. destruct (Z.leb_spec v j), (Z.ltb_spec j (v + n)); try done. lia. Qed.

(** A valid leaf entry. *)
Definition is_leaf (e : Z) : Prop := has e PTE_V = true ∧ PTE_FLAGS e ≠ PTE_V.

Lemma valid_slot w root T v : pt w root T → has (pte_at w T v) PTE_V = true →
  slot T v ≠ 0 ∧ w (slot T v) = pte_at w T v.
Proof.
  intros H Hv. unfold pte_at in Hv |- *. destruct (T !! (0%nat, pos 0 v)) as [p|] eqn:E; [|done].
  destruct (slot_page _ _ _ H v p E) as [Es ?]. split; [done|by rewrite Es].
Qed.

Lemma unmap_loop_ok root T (do_free : bool) k : ∀ s R v,
  aspace s root T R → 0 ≤ v → v + Z.of_nat k ≤ 2 ^ 26 →
  let f j := PTE2PA (pte_at (words s) T j) in
  (∀ j, v ≤ j < v + Z.of_nat k → is_leaf (pte_at (words s) T j)) →
  (do_free = true → (∀ j, v ≤ j < v + Z.of_nat k → f j ∈ R) ∧
    ∀ i j, v ≤ i < v + Z.of_nat k → v ≤ j < v + Z.of_nat k → f i = f j → i = j) →
  ∃ s', unmap_loop k root (4096 * v) do_free s = Ok (tt, s') ∧
    aspace s' root T (if do_free then R ∖ range_set f v k else R) ∧ bytes s' = bytes s ∧ frame s s' (map_img T) ∧
    ∀ v', pte_at (words s') T v' = unmapped (pte_at (words s) T) v (Z.of_nat k) v'.
Proof.
  induction k as [|k IH]; intros s R v H Hv Hlt f Hleaf Hfr; cbn [unmap_loop range_set].
  { exists s. split_and!; [done| |done|apply frame_refl|intros v'; rewrite unmapped_out by lia; done].
    destruct do_free; [by rewrite difference_empty_L|done]. }
  destruct (Hleaf v ltac:(lia)) as [HV HF].
  prog_step (walk_find s root T (4096 * v) (as_pt _ _ _ _ H) ltac:(rewrite MAXVA_val; lia)). rewrite vpn_page.
  destruct (valid_slot _ _ _ v (as_pt _ _ _ _ H) HV) as [Hs Ew].
  destruct (Z.eqb_spec (slot T v) 0); [done|]. prog_step (load_ok s (slot T v)). rewrite Ew, HV. cbn [negb].
  destruct (Z.eqb_spec (PTE_FLAGS (pte_at (words s) T v)) PTE_V); [done|].
  assert (∃ s1, (if do_free then kfree (f v) else skip) s = Ok (tt, s1) ∧ words s1 = words s ∧ bytes s1 = bytes s ∧
    aspace s1 root T (if do_free then R ∖ {[f v]} else R)) as (s1 & E1 & W1 & B1 & H1).
  { destruct do_free; [|by exists s]. apply vm_kfree_ok; [done|]. destruct Hfr as [Hfr _]; [done|]. apply Hfr. lia. }
  fold (f v). prog_step E1.
  destruct (store_ok s1 root T _ v 0 H1 Hs) as (s2 & E2 & H2 & B2 & F2 & P2). prog_step E2.
  unfold PGSIZE. rewrite u64_small by lia. replace (4096 * v + 4096) with (4096 * (v + 1)) by lia.
  rewrite W1 in P2.
  assert (∀ j, v + 1 ≤ j → pte_at (words s2) T j = pte_at (words s) T j) as Hj.
  { intros j ?. rewrite P2. destruct (decide (j = v)); [lia|done]. }
  destruct (IH s2 (if do_free then R ∖ {[f v]} else R) (v + 1) H2) as (s' & E & H' & B' & F' & P'); [lia|lia| | |].
  - intros j ?. rewrite Hj by lia. apply Hleaf. lia.
  - intros ->. destruct Hfr as [Hfr Hinj]; [done|]. split.
    + intros j ?. rewrite Hj by lia. apply elem_of_difference. split; [apply Hfr; lia|].
      rewrite elem_of_singleton. intros E. apply Hinj in E; lia.
    + intros i j ? ?. rewrite !Hj by lia. apply Hinj; lia.
  - exists s'. split_and!; [done| |by rewrite B', B2| |].
    + destruct do_free; [|done]. rewrite (range_set_ext _ f) in H' by (intros j ?; by rewrite Hj by lia).
      by rewrite difference_difference_l_L in H'.
    + eapply frame_trans; [|done|done]. intros p i Hp Hpg Hi. rewrite F2 by done. by rewrite W1.
    + intros v'. rewrite P'. destruct (decide (v ≤ v' < v + Z.of_nat (Datatypes.S k))).
      * rewrite (unmapped_in (pte_at (words s) T)) by lia. destruct (decide (v' = v)) as [->|].
        -- rewrite unmapped_out by lia. rewrite P2. by destruct (decide (v = v)).
        -- apply unmapped_in. lia.
      * rewrite !unmapped_out by lia. rewrite P2. destruct (decide (v' = v)); [lia|done].
Qed.

(** The number of pages that hold [sz] bytes. *)
Definition up (sz : Z) : Z := (sz + 4095) `div` 4096.

Lemma PGROUNDUP_up sz : 0 ≤ sz < 2 ^ 64 - 4096 → PGROUNDUP sz = 4096 * up sz.
Proof.
  intros Hsz. unfold PGROUNDUP, PGSIZE, up. rewrite u64_small by lia. replace (sz + 4096 - 1) with (sz + 4095) by lia.
  change (2 ^ 64 - 4096) with (2 ^ 64 - 2 ^ 12). rewrite land_clear_low by lia. change (2 ^ 12) with 4096. lia.
Qed.
Lemma up_page v : up (4096 * v) = v.
Proof. unfold up. rewrite Z.mul_comm, Z.div_add_l, Z.div_small; lia. Qed.
Lemma up_bounds sz n : 0 ≤ sz ≤ 4096 * n → 0 ≤ up sz ≤ n.
Proof.
  intros H. split; [apply Z.div_pos; lia|]. transitivity (up (4096 * n)); [|by rewrite up_page].
  apply Z.div_le_mono; lia.
Qed.

Lemma uvmunmap_ok root T (do_free : bool) s R v n :
  aspace s root T R → 0 ≤ v → 0 ≤ n → v + n ≤ 2 ^ 26 →
  let f j := PTE2PA (pte_at (words s) T j) in
  (∀ j, v ≤ j < v + n → is_leaf (pte_at (words s) T j)) →
  (do_free = true → (∀ j, v ≤ j < v + n → f j ∈ R) ∧
    ∀ i j, v ≤ i < v + n → v ≤ j < v + n → f i = f j → i = j) →
  ∃ s', uvmunmap root (4096 * v) n do_free s = Ok (tt, s') ∧
    aspace s' root T (if do_free then R ∖ range_set f v (Z.to_nat n) else R) ∧ bytes s' = bytes s ∧ frame s s' (map_img T) ∧
    ∀ v', pte_at (words s') T v' = unmapped (pte_at (words s) T) v n v'.
Proof.
  intros H Hv Hn Hlt f Hleaf Hfr. unfold uvmunmap, PGSIZE.
  replace ((4096 * v) `mod` 4096) with 0 by (rewrite Z.mul_comm, Z.mod_mul; lia). cbn [Z.eqb negb].
  rewrite u64_small by lia. replace ((4096 * v + n * 4096 - 4096 * v) `div` 4096) with n
    by (replace (4096 * v + n * 4096 - 4096 * v) with (n * 4096) by lia; by rewrite Z.div_mul).
  destruct (unmap_loop_ok root T do_free (Z.to_nat n) s R v H Hv) as (s' & E & H' & B & F & P); rewrite ?Z2Nat.id in * by lia; try done.
  exists s'. by split_and!.
Qed.

Lemma uvmdealloc_ok root T s R oldsz newsz :
  aspace s root T R → 0 ≤ newsz → 0 ≤ oldsz ≤ 2 ^ 38 →
  let v := up newsz in let n := up oldsz - up newsz in
  let f j := PTE2PA (pte_at (words s) T j) in
  (∀ j, v ≤ j < v + n → is_leaf (pte_at (words s) T j)) →
  (∀ j, v ≤ j < v + n → f j ∈ R) →
  (∀ i j, v ≤ i < v + n → v ≤ j < v + n → f i = f j → i = j) →
  ∃ s', uvmdealloc root oldsz newsz s = Ok (if oldsz <=? newsz then oldsz else newsz, s') ∧
    aspace s' root T (R ∖ range_set f v (Z.to_nat n)) ∧ bytes s' = bytes s ∧ frame s s' (map_img T) ∧
    ∀ v', pte_at (words s') T v' = unmapped (pte_at (words s) T) v n v'.
Proof.
  intros H Hnew Hold v n f Hleaf Hin Hinj. unfold uvmdealloc. destruct (Z.leb_spec oldsz newsz) as [Hle|Hlt].
  { assert (n ≤ 0). { pose proof (Z.div_le_mono (oldsz + 4095) (newsz + 4095) 4096 ltac:(lia) ltac:(lia)). unfold n, up. lia. }
    exists s. replace (Z.to_nat n) with O by lia. cbn [range_set]. rewrite difference_empty_L.
    split_and!; [done|done|done|apply frame_refl|]. intros v'. rewrite unmapped_out; [done|lia]. }
  rewrite !PGROUNDUP_up by lia. fold v. pose proof (up_bounds oldsz (2 ^ 26) ltac:(lia)) as Hub.
  assert (0 ≤ n). { pose proof (Z.div_le_mono (newsz + 4095) (oldsz + 4095) 4096 ltac:(lia) ltac:(lia)). unfold n, up. lia. }
  pose proof (up_bounds newsz (2 ^ 26) ltac:(lia)) as Hub'. fold v in Hub'.
  replace (4096 * v <? 4096 * up oldsz) with (0 <? n) by (unfold n, v; destruct (Z.ltb_spec 0 (up oldsz - up newsz)), (Z.ltb_spec (4096 * up newsz) (4096 * up oldsz)); lia).
  destruct (Z.ltb_spec 0 n) as [Hpos|Hz].
  - unfold PGSIZE. replace ((4096 * up oldsz - 4096 * v) `div` 4096) with n
      by (replace (4096 * up oldsz - 4096 * v) with (n * 4096) by (unfold n, v; lia); by rewrite Z.div_mul).
    rewrite i32_small, u64_small by (unfold n in *; lia).
    destruct (uvmunmap_ok root T true s R v n) as (s' & E & H'); [done|lia|lia|unfold n, v; lia|done|done|]. prog_step E.
    by exists s'.
  - prog_run. exists s. replace (Z.to_nat n) with O by lia. cbn [range_set]. rewrite difference_empty_L.
    split_and!; [done|done|done|apply frame_refl|]. intros v'. rewrite unmapped_out; [done|lia].
Qed.

(** ** uvmalloc *)

(** The translations after mapping the frames [fs] from [v] on. *)
Definition lmapped (f : Z → Z) (v : Z) (fs : list Z) (perm : Z → Z) (v' : Z) : Z :=
  if v <=? v' then match fs !! Z.to_nat (v' - v) with Some p => leaf p (perm v') | None => f v' end else f v'.

Lemma lmapped_snoc f v fs p perm v' :
  lmapped f v (fs ++ [p]) perm v' =
    if decide (v' = v + Z.of_nat (length fs)) then leaf p (perm v') else lmapped f v fs perm v'.
Proof.
  unfold lmapped. destruct (Z.leb_spec v v').
  - destruct (decide (v' = v + Z.of_nat (length fs))) as [->|Hne].
    + rewrite lookup_app_r by lia. by replace (Z.to_nat (v + Z.of_nat (length fs) - v) - length fs)%nat with O by lia.
    + destruct (decide (Z.to_nat (v' - v) < length fs)%nat).
      * by rewrite lookup_app_l.
      * rewrite lookup_app_r, (lookup_ge_None_2 fs) by lia. by rewrite lookup_ge_None_2 by (cbn; lia).
  - destruct (decide (v' = v + Z.of_nat (length fs))); [lia|done].
Qed.

(** Permissions of a leaf: besides the valid bit there is another flag. *)
Definition permok (q : Z) : Prop := 0 ≤ q < 1024 ∧ Z.lor q PTE_V ≠ PTE_V.

Lemma leaf_is_leaf p q : is_page p → permok q → is_leaf (leaf p q).
Proof. intros Hp [Hq Hne]. split; [by apply leaf_V|]. by rewrite leaf_flags. Qed.

(** While the frames [fs] have been allocated and mapped from page [v0] on,
    starting in state [s0]: frame number [j] has the permissions [perm j] and the
    contents [init j]. *)
Record grown root s0 T0 R v0 (perm : Z → Z) (init : Z → Z → Z) (fs : list Z) s T : Prop := {
  g_as : aspace s root T (list_to_set fs ∪ R);
  g_sub : T0 ⊆ T;
  g_nodup : NoDup fs;
  g_pages p : p ∈ fs → is_page p ∧ p ∉ R;
  g_pte v : pte_at (words s) T v = lmapped (pte_at (words s0) T0) v0 fs perm v;
  g_init i p a : fs !! i = Some p → in_page p a = true → bytes s a = init (v0 + Z.of_nat i) (a - p);
  g_bytes p a : p ∈ R → is_page p → in_page p a = true → bytes s a = bytes s0 a;
  g_frame : frame s0 s (map_img T) }.

Lemma in_page_inj p q a : is_page p → is_page q → in_page p a = true → in_page q a = true → p = q.
Proof.
  intros Hp Hq H1 H2. apply page_frame in Hp, Hq. unfold in_page, PGSIZE in *.
  apply andb_true_iff in H1 as [?%Z.leb_le ?%Z.ltb_lt]. apply andb_true_iff in H2 as [?%Z.leb_le ?%Z.ltb_lt]. lia.
Qed.

(** The entries of the new pages. *)
Lemma grown_leaf root s0 T0 R v0 perm init fs s T j : grown root s0 T0 R v0 perm init fs s T →
  v0 ≤ j < v0 + Z.of_nat (length fs) → permok (perm j) →
  ∃ p, fs !! Z.to_nat (j - v0) = Some p ∧ p ∈ fs ∧ is_page p ∧ pte_at (words s) T j = leaf p (perm j) ∧
    PTE2PA (pte_at (words s) T j) = p ∧ is_leaf (pte_at (words s) T j).
Proof.
  intros [Has Hsub Hnd Hpg Hpte Hz Hb Hf] Hj Hq. destruct (lookup_lt_is_Some_2 fs (Z.to_nat (j - v0))) as [p Hp]; [lia|].
  assert (p ∈ fs) as Hin by (by eapply list_elem_of_lookup_2). assert (is_page p) as Hpp by (by apply Hpg).
  assert (pte_at (words s) T j = leaf p (perm j)) as Ep.
  { rewrite Hpte. unfold lmapped. by rewrite (proj2 (Z.leb_le _ _)), Hp by lia. }
  exists p. split_and!; [done..| |]; rewrite Ep; [apply leaf_PTE2PA; [done|apply Hq]|by apply leaf_is_leaf].
Qed.

(** They are pairwise different, and together they are [fs]. *)
Lemma grown_inj root s0 T0 R v0 perm init fs s T i j : grown root s0 T0 R v0 perm init fs s T →
  (∀ j, v0 ≤ j < v0 + Z.of_nat (length fs) → permok (perm j)) →
  v0 ≤ i < v0 + Z.of_nat (length fs) → v0 ≤ j < v0 + Z.of_nat (length fs) →
  PTE2PA (pte_at (words s) T i) = PTE2PA (pte_at (words s) T j) → i = j.
Proof.
  intros Hg Hq Hi Hj. destruct (grown_leaf _ _ _ _ _ _ _ _ _ _ i Hg Hi (Hq i Hi)) as (p & Hp & _ & _ & _ & -> & _).
  destruct (grown_leaf _ _ _ _ _ _ _ _ _ _ j Hg Hj (Hq j Hj)) as (q & Hq' & _ & _ & _ & -> & _). intros ->.
  pose proof (NoDup_lookup fs _ _ _ (g_nodup _ _ _ _ _ _ _ _ _ _ Hg) Hp Hq'). lia.
Qed.

Lemma grown_range root s0 T0 R v0 perm init fs s T : grown root s0 T0 R v0 perm init fs s T →
  (∀ j, v0 ≤ j < v0 + Z.of_nat (length fs) → permok (perm j)) →
  (list_to_set fs ∪ R) ∖ range_set (λ j, PTE2PA (pte_at (words s) T j)) v0 (length fs) = R.
Proof.
  intros Hg Hq. apply leibniz_equiv. intros x.
  rewrite elem_of_difference, elem_of_union, elem_of_list_to_set, elem_range_set. split.
  - intros [[Hx|Hx] Hn]; [|done]. exfalso. apply Hn. apply list_elem_of_lookup_1 in Hx as [i Hi].
    pose proof (lookup_lt_Some _ _ _ Hi). exists (v0 + Z.of_nat i). split; [lia|].
    destruct (grown_leaf _ _ _ _ _ _ _ _ _ _ (v0 + Z.of_nat i) Hg ltac:(lia) (Hq (v0 + Z.of_nat i) ltac:(lia))) as (p & Hp & _ & _ & _ & -> & _).
    replace (Z.to_nat (v0 + Z.of_nat i - v0)) with i in Hp by lia. congruence.
  - intros Hx. split; [by right|]. intros (j & Hj & <-).
    destruct (grown_leaf _ _ _ _ _ _ _ _ _ _ j Hg Hj (Hq j Hj)) as (p & _ & Hp & _ & _ & E & _). rewrite E in Hx.
    by apply (g_pages _ _ _ _ _ _ _ _ _ _ Hg p).
Qed.

(** Giving up: the allocated frames are freed and nothing is mapped. *)
Lemma grown_unmap root s0 T0 R v0 perm init fs s T : grown root s0 T0 R v0 perm init fs s T →
  0 ≤ v0 → v0 + Z.of_nat (length fs) ≤ 2 ^ 26 →
  (∀ j, v0 ≤ j < v0 + Z.of_nat (length fs) → permok (perm j)) →
  (∀ j, v0 ≤ j < v0 + Z.of_nat (length fs) → pte_at (words s0) T0 j = 0) →
  ∃ s', uvmunmap root (4096 * v0) (Z.of_nat (length fs)) true s = Ok (tt, s') ∧
    grown root s0 T0 R v0 perm init [] s' T.
Proof.
  intros Hg Hv0 Hlen Hq Hfree. pose proof (grown_range _ _ _ _ _ _ _ _ _ _ Hg Hq) as Hrange.
  pose proof (λ j Hj, grown_leaf _ _ _ _ _ _ _ _ _ _ j Hg Hj (Hq j Hj)) as Hin.
  pose proof (λ i j, grown_inj _ _ _ _ _ _ _ _ _ _ i j Hg Hq) as Hinj.
  destruct Hg as [Has Hsub Hnd Hpg Hpte Hz Hb Hf].
  destruct (uvmunmap_ok root T true s _ v0 (Z.of_nat (length fs)) Has) as (s' & E & H' & B' & F' & P'); [lia|lia|lia| | |].
  - intros j Hj. by destruct (Hin j Hj) as (p & _ & _ & _ & _ & _ & ?).
  - intros _. split; [|by apply Hinj]. intros j Hj. destruct (Hin j Hj) as (p & _ & Hp & _ & _ & -> & _).
    by apply elem_of_union_l, elem_of_list_to_set.
  - exists s'. split; [done|]. constructor; [|done|by apply list.NoDup_nil|by intros p ?%elem_of_nil| |done| |by eapply frame_trans].
    + cbn. rewrite union_empty_l_L. rewrite Nat2Z.id in H'. by rewrite Hrange in H'.
    + intros v. rewrite P'. unfold lmapped at 1. destruct (decide (v0 ≤ v < v0 + Z.of_nat (length fs))).
      * rewrite unmapped_in by lia. rewrite lookup_nil, Hfree by lia. by destruct (Z.leb_spec v0 v).
      * rewrite unmapped_out by lia. rewrite Hpte. unfold lmapped. rewrite lookup_nil.
        destruct (Z.leb_spec v0 v); [|done]. rewrite lookup_ge_None_2 by lia. done.
    + intros p a ???. rewrite B'. by eapply Hb.
Qed.

Lemma grown_undo root s0 T0 R v0 perm init fs s T : grown root s0 T0 R v0 perm init fs s T →
  0 ≤ v0 → v0 + Z.of_nat (length fs) ≤ 2 ^ 26 →
  (∀ j, v0 ≤ j < v0 + Z.of_nat (length fs) → permok (perm j)) →
  (∀ j, v0 ≤ j < v0 + Z.of_nat (length fs) → pte_at (words s0) T0 j = 0) →
  ∃ s', uvmdealloc root (4096 * (v0 + Z.of_nat (length fs))) (4096 * v0) s = Ok (4096 * v0, s') ∧
    grown root s0 T0 R v0 perm init [] s' T.
Proof.
  intros Hg Hv0 Hlen Hq Hfree. unfold uvmdealloc.
  destruct (Z.leb_spec (4096 * (v0 + Z.of_nat (length fs))) (4096 * v0)).
  { assert (length fs = 0%nat) as E0 by lia. rewrite E0, Z.add_0_r. exists s. split; [done|]. by destruct fs. }
  rewrite !PGROUNDUP_up, !up_page by lia. destruct (Z.ltb_spec (4096 * v0) (4096 * (v0 + Z.of_nat (length fs)))); [|lia].
  unfold PGSIZE. replace ((4096 * (v0 + Z.of_nat (length fs)) - 4096 * v0) `div` 4096) with (Z.of_nat (length fs))
    by (replace (4096 * (v0 + Z.of_nat (length fs)) - 4096 * v0) with (Z.of_nat (length fs) * 4096) by lia; by rewrite Z.div_mul).
  rewrite i32_small, u64_small by lia. destruct (grown_unmap _ _ _ _ _ _ _ _ _ _ Hg) as (s' & E & Hg'); [done..|].
  prog_step E. by exists s'.
Qed.
End proofs.
End VmProofs.
