(* ===== verification/VmSpace.v ===== *)
(** * User address spaces: growing, freeing and copying *)

From S2P Require Import Prelude PageAlloc Vm VmTables VmProofs.
Import PageAlloc Vm VmTables VmProofs.

Module VmSpace.
Section space.
Context {S : Type} `{PA : PageAllocator S}.
Implicit Types (s : st S) (T : tables) (R : gset Z).

Lemma zero_page_ok s p : p ≠ 0 → ∃ s', zero_page p s = Ok (tt, s') ∧ words s' = words s ∧ al s' = al s ∧
  ∀ a, bytes s' a = if in_page p a then 0 else bytes s a.
Proof. intros Hp. unfold zero_page. destruct (Z.eqb_spec p 0); [done|]. by eexists. Qed.

Lemma aspace_bytes s s' root T R : words s' = words s → al s' = al s → aspace s root T R → aspace s' root T R.
Proof. intros E1 E2 [H1 H2 H3]. constructor; [by rewrite E1|done|by rewrite E2]. Qed.

Lemma mapped_1 f v pa perm v' : mapped f v 1 pa perm v' = if decide (v' = v) then leaf pa perm else f v'.
Proof.
  change 1 with (0 + 1). by rewrite <- mapped_cons, mapped_0 by lia.
Qed.

(** Mapping one more fresh frame: it is mapped, or the state is as before. *)
Lemma grown_map root s0 T0 R v0 perm init fs s T mem :
  grown root s0 T0 R v0 perm init fs s T → 0 ≤ v0 → v0 + Z.of_nat (length fs) < 2 ^ 26 →
  pte_at (words s0) T0 (v0 + Z.of_nat (length fs)) = 0 →
  ∀ s1 s2, kalloc s = Ok (mem, s1) → mem ≠ 0 → words s2 = words s1 → al s2 = al s1 →
  (∀ a, bytes s2 a = if in_page mem a then init (v0 + Z.of_nat (length fs)) (a - mem) else bytes s a) →
  ∃ r T' s', mappages root (4096 * (v0 + Z.of_nat (length fs))) PGSIZE mem (perm (v0 + Z.of_nat (length fs))) s2 = Ok (r, s') ∧ only_for T T' (v0 + Z.of_nat (length fs)) 1 ∧
    (r = 0 ∧ grown root s0 T0 R v0 perm init (fs ++ [mem]) s' T' ∨
     r = -1 ∧ ∃ s3, kfree mem s' = Ok (tt, s3) ∧ grown root s0 T0 R v0 perm init fs s3 T').
Proof.
  intros [Has Hsub Hnd Hpg Hpte Hz Hb Hf] Hv0 Hlen Hfree s1 s2 E1 Hmem W2 A2 B2.
  destruct (vm_kalloc_ok s root T _ Has) as (a & s1' & E1' & W1 & B1 & Hcase). rewrite E1 in E1'. injection E1' as <- <-.
  destruct Hcase as [[-> _]|(_ & Hpage & HnR & HnT & H1)]; [done|].
  apply (aspace_bytes _ s2) in H1; [|done|done]. apply not_elem_of_union in HnR as [Hnfs HnR]. rewrite elem_of_list_to_set in Hnfs.
  pose proof (is_page_bounds _ Hpage) as [_ Hbound].
  destruct (mappages_ok root ({[mem]} ∪ (list_to_set fs ∪ R)) (perm (v0 + Z.of_nat (length fs))) s2 T (v0 + Z.of_nat (length fs)) 1 mem H1)
    as (r & n' & T' & s' & E & H' & Hsub' & Hon & B' & F' & P' & Hr); [lia..| |].
  { intros j Hj. replace j with (v0 + Z.of_nat (length fs)) by lia. rewrite W2, W1, Hpte. unfold lmapped.
    rewrite (proj2 (Z.leb_le _ _)), lookup_ge_None_2 by lia. by rewrite Hfree. }
  exists r, T', s'. split; [exact E|]. split; [exact Hon|].
  assert (frame s0 s' (map_img T')) as Hf'.
  { eapply frame_trans; [|exact F'|by apply img_mono]. intros p i Hp ??. rewrite W2, W1. by apply Hf. }
  assert (∀ i p x, fs !! i = Some p → in_page p x = true → bytes s' x = init (v0 + Z.of_nat i) (x - p)) as Hz'.
  { intros i p x Hp Hx. rewrite B', B2. destruct (in_page mem x) eqn:Em; [|by eapply Hz].
    assert (p ∈ fs) as Hin by (by eapply list_elem_of_lookup_2). exfalso.
    by rewrite <- (in_page_inj mem p x Hpage (proj1 (Hpg p Hin)) Em Hx) in Hin. }
  assert (∀ p x, p ∈ R → is_page p → in_page p x = true → bytes s' x = bytes s0 x) as Hb'.
  { intros p x Hp Hpp Hx. rewrite B', B2. destruct (in_page mem x) eqn:Em; [|by eapply Hb].
    exfalso. by rewrite (in_page_inj mem p x) in HnR. }
  destruct Hr as [[-> ->]|[-> Hn']]; [left|right]; (split; [done|]).
  - constructor; [|by transitivity T| | | | |exact Hb'|exact Hf'].
    + match type of H' with aspace _ _ _ ?X => replace (list_to_set (fs ++ [mem]) ∪ R) with X; [exact H'|] end. set_solver.
    + apply list.NoDup_app. split_and!; [done| |apply NoDup_singleton]. intros x Hx ->%list_elem_of_singleton. done.
    + intros p [Hp| ->%list_elem_of_singleton]%elem_of_app; [by apply Hpg|done].
    + intros v. rewrite P', mapped_1, lmapped_snoc, W2, W1. destruct (decide _) as [->|]; [done|]. by rewrite Hpte.
    + intros i p x [Hp|[Hle Hp]]%lookup_app_Some Hx; [by eapply Hz'|].
      apply list_lookup_singleton_Some in Hp as [Hi <-]. replace i with (length fs) by lia. rewrite B', B2. by rewrite Hx.
  - destruct (vm_kfree_ok s' root T' _ mem H' ltac:(set_solver)) as (s3 & E3 & W3 & B3 & H3).
    exists s3. split; [done|]. constructor; [|by transitivity T|done|done| | | |].
    + match type of H3 with aspace _ _ _ ?X => replace (list_to_set fs ∪ R) with X; [exact H3|] end. set_solver.
    + intros v. rewrite W3, P'. replace n' with 0 by lia. rewrite mapped_0, W2, W1. apply Hpte.
    + rewrite B3. exact Hz'.
    + rewrite B3. exact Hb'.
    + intros p i ???. rewrite W3. by apply Hf'.
Qed.

Lemma kalloc_grown root s0 T0 R v0 perm init fs s T : grown root s0 T0 R v0 perm init fs s T →
  ∃ a s', kalloc s = Ok (a, s') ∧ (a = 0 → grown root s0 T0 R v0 perm init fs s' T) ∧ words s' = words s ∧ bytes s' = bytes s.
Proof.
  intros [Has Hsub Hnd Hpg Hpte Hz Hb Hf]. destruct (vm_kalloc_ok s root T _ Has) as (a & s' & E & W & B & Hc).
  exists a, s'. split_and!; [done| |done|done]. intros ->. destruct Hc as [[_ H']|[? _]]; [|done].
  constructor; rewrite ?W, ?B; try done. intros p i ???. rewrite W. by apply Hf.
Qed.

Lemma grown_start root s T R v0 perm init : aspace s root T R → grown root s T R v0 perm init [] s T.
Proof.
  intros H. constructor; [by cbn; rewrite union_empty_l_L|done|by apply list.NoDup_nil|by intros p ?%elem_of_nil| |done|done|apply frame_refl].
  intros v. unfold lmapped. rewrite lookup_nil. by destruct (_ <=? _).
Qed.

(** ** uvmalloc *)

Definition user_perm (xperm : Z) : Z := Z.lor (Z.lor PTE_R PTE_U) xperm.
Definition zeroed (v off : Z) : Z := 0.

Lemma user_perm_ok xperm : 0 ≤ xperm < 1024 → permok (user_perm xperm).
Proof.
  intros Hx. unfold user_perm. change (Z.lor PTE_R PTE_U) with 18.
  assert (Z.lor 18 xperm < 1024) as Hlt.
  { apply (Z.log2_lt_cancel _ 1024). rewrite Z.log2_lor by lia. change (Z.log2 1024) with 10. change (Z.log2 18) with 4.
    destruct (Z.eq_dec xperm 0) as [->|]; [done|]. assert (Z.log2 xperm < 10); [|lia].
    apply Z.log2_lt_pow2; [lia|]. change (2 ^ 10) with 1024. lia. }
  split; [split; [apply Z.lor_nonneg; lia|done]|]. intros E.
  assert (has (Z.lor (Z.lor 18 xperm) PTE_V) PTE_R = true) as Hh by (by rewrite !has_lor). by rewrite E in Hh.
Qed.

Lemma uvmalloc_loop_ok root s0 T0 R v0 xperm newsz : 0 ≤ v0 → 0 ≤ xperm < 1024 →
  let perm := λ _, user_perm xperm in
  ∀ k fs s T, grown root s0 T0 R v0 perm zeroed fs s T →
  v0 + Z.of_nat (length fs) + Z.of_nat k ≤ 2 ^ 26 →
  (∀ j, v0 ≤ j < v0 + Z.of_nat (length fs) + Z.of_nat k → pte_at (words s0) T0 j = 0) →
  ∃ r fs' s' T', uvmalloc_loop k root (4096 * v0) newsz (4096 * (v0 + Z.of_nat (length fs))) xperm s = Ok (r, s') ∧
    grown root s0 T0 R v0 perm zeroed fs' s' T' ∧ only_for T T' (v0 + Z.of_nat (length fs)) (Z.of_nat k) ∧
    (r = newsz ∧ length fs' = (length fs + k)%nat ∨ r = 0 ∧ fs' = []).
Proof.
  intros Hv0 Hx perm. pose proof (user_perm_ok xperm Hx) as Hperm.
  induction k as [|k IH]; intros fs s T Hg Hlen Hfree; cbn [uvmalloc_loop].
  { exists newsz, fs, s, T. split_and!; [done|done|apply only_for_refl|left]. split; [done|lia]. }
  assert (∀ s T1, grown root s0 T0 R v0 perm zeroed fs s T1 → only_for T T1 (v0 + Z.of_nat (length fs)) 1 → ∃ r fs' s' T',
    (uvmdealloc root (4096 * (v0 + Z.of_nat (length fs))) (4096 * v0);; mret 0) s = Ok (r, s') ∧ grown root s0 T0 R v0 perm zeroed fs' s' T' ∧ only_for T T' (v0 + Z.of_nat (length fs)) (Z.of_nat (Datatypes.S k)) ∧
    (r = newsz ∧ length fs' = (length fs + Datatypes.S k)%nat ∨ r = 0 ∧ fs' = [])) as Hundo.
  { intros s1 T1 Hg1 Hon. destruct (grown_undo _ _ _ _ _ _ _ _ _ _ Hg1) as (s' & E & Hg'); [lia|lia|done| |].
    - intros j Hj. apply Hfree. lia.
    - prog_step E. exists 0, [], s', T1. split_and!; [done|done|eapply only_for_mono; [exact Hon|lia..]|by right]. }
  destruct (kalloc_grown _ _ _ _ _ _ _ _ _ _ Hg) as (mem & s1 & E1 & Hg1 & W1 & B1). prog_step E1.
  destruct (Z.eqb_spec mem 0) as [->|Hmem]; [by eapply Hundo; [apply Hg1|apply only_for_refl]|].
  destruct (zero_page_ok s1 mem Hmem) as (s2 & E2 & W2 & A2 & B2). prog_step E2.
  destruct (grown_map _ _ _ _ _ _ _ _ _ _ mem Hg ltac:(lia) ltac:(lia) (Hfree (v0 + Z.of_nat (length fs)) ltac:(lia)) s1 s2 E1 Hmem W2 A2) as (r & T' & s' & E & Hon & Hr).
  { intros a. by rewrite B2, B1. }
  fold (user_perm xperm). change (perm (v0 + Z.of_nat (length fs))) with (user_perm xperm) in E.
  prog_step E. destruct Hr as [[-> Hg']|(-> & s3 & E3 & Hg')].
  - cbn [Z.eqb negb]. unfold PGSIZE. rewrite u64_small by lia.
    replace (4096 * (v0 + Z.of_nat (length fs)) + 4096) with (4096 * (v0 + Z.of_nat (length (fs ++ [mem])))) by (rewrite length_app; cbn [length]; lia).
    destruct (IH (fs ++ [mem]) s' T' Hg') as (r & fs' & s4 & T4 & E4 & Hg4 & Hon4 & Hr); rewrite ?length_app; cbn [length].
    + lia.
    + intros j Hj. apply Hfree. lia.
    + exists r, fs', s4, T4. split_and!; [by rewrite <- E4, length_app|done|rewrite length_app in Hon4; cbn [length] in Hon4; eapply only_for_trans; [exact Hon|exact Hon4|lia..]|]. destruct Hr as [[-> Hr]|Hr]; [left|by right].
      rewrite Hr, length_app. cbn [length]. split; [done|lia].
  - cbn [Z.eqb negb]. prog_step E3. by eapply Hundo.
Qed.

Lemma uvmalloc_ok root s T R oldsz newsz xperm :
  aspace s root T R → 0 ≤ oldsz ≤ newsz → newsz ≤ MAXVA → 0 ≤ xperm < 1024 →
  (∀ j, up oldsz ≤ j < up newsz → pte_at (words s) T j = 0) →
  ∃ r fs s' T', uvmalloc root oldsz newsz xperm s = Ok (r, s') ∧
    grown root s T R (up oldsz) (λ _, user_perm xperm) zeroed fs s' T' ∧
    only_for T T' (up oldsz) (up newsz - up oldsz) ∧
    (r = newsz ∧ Z.of_nat (length fs) = up newsz - up oldsz ∨ r = 0 ∧ fs = []).
Proof.
  rewrite MAXVA_val. intros H Hold Hnew Hx Hfree. unfold uvmalloc. destruct (Z.ltb_spec newsz oldsz); [lia|]. cbv zeta.
  rewrite PGROUNDUP_up by lia. pose proof (up_bounds oldsz (2 ^ 26) ltac:(lia)) as Hu1. pose proof (up_bounds newsz (2 ^ 26) ltac:(lia)) as Hu2.
  assert (up oldsz ≤ up newsz) as Hle by (apply Z.div_le_mono; lia).
  replace ((newsz - 4096 * up oldsz + (PGSIZE - 1)) `div` PGSIZE) with (up newsz - up oldsz).
  2:{ unfold PGSIZE, up at 1. replace (newsz - 4096 * up oldsz + (4096 - 1)) with (newsz + 4095 + (- up oldsz) * 4096) by lia.
      rewrite Z.div_add by lia. lia. }
  destruct (uvmalloc_loop_ok root s T R (up oldsz) xperm newsz ltac:(lia) Hx (Z.to_nat (up newsz - up oldsz)) [] s T) as (r & fs & s' & T' & E & Hg & Hon & Hr).
  - by apply grown_start.
  - cbn [length]. lia.
  - intros j Hj. cbn [length] in Hj. apply Hfree. lia.
  - exists r, fs, s', T'. cbn [length] in E, Hon. rewrite Z.add_0_r in E, Hon. rewrite Z2Nat.id in Hon by lia. split_and!; [done|done|done|].
    destruct Hr as [[-> Hr]|Hr]; [left|by right]. split; [done|]. rewrite Hr. cbn [length]. lia.
Qed.

(** C7: [uvmalloc] grows an address space by fresh, zeroed, pairwise different
    frames, mapped readable for the user at the new pages and nowhere else, and
    returns the new size; or it returns 0, every frame it took is free again and
    every translation is as before.  In both cases the tables it added stay part
    of the page table, all of them on the way to the new pages, and besides
    these and the frames it mapped it holds no page; no other page table and no
    byte of another frame changes. *)
Theorem uvmalloc_correct root s T R oldsz newsz xperm :
  aspace s root T R → 0 ≤ oldsz ≤ newsz → newsz ≤ MAXVA → 0 ≤ xperm < 1024 →
  (∀ j, up oldsz ≤ j < up newsz → pte_at (words s) T j = 0) →
  ∃ r fs s' T', uvmalloc root oldsz newsz xperm s = Ok (r, s') ∧
    grown root s T R (up oldsz) (λ _, user_perm xperm) zeroed fs s' T' ∧
    only_for T T' (up oldsz) (up newsz - up oldsz) ∧
    (r = newsz ∧ Z.of_nat (length fs) = up newsz - up oldsz ∨ r = 0 ∧ fs = []).
Proof. apply uvmalloc_ok. Qed.

(** ** uvmcopy *)

Lemma flags_valid e : has e PTE_V = true → Z.lor (PTE_FLAGS e) PTE_V = PTE_FLAGS e.
Proof.
  unfold has, PTE_FLAGS. change PTE_V with (Z.ones 1). rewrite Z.land_ones by lia. change (2 ^ 1) with 2. intros Hv.
  assert (Z.testbit e 0 = true) as Hb.
  { rewrite Z.bit0_odd, Zodd_mod. destruct (Z.eqb_spec (e `mod` 2) 0); [done|].
    pose proof (Z.mod_pos_bound e 2 ltac:(lia)). apply Z.eqb_eq. lia. }
  apply Z.bits_inj'. intros n Hn. rewrite Z.lor_spec, Z.land_spec.
  destruct (Z.eq_dec n 0) as [->|]; [by rewrite Hb|]. change (Z.ones 1) with (2 ^ 0). rewrite Z.pow2_bits_false by lia. apply orb_false_r.
Qed.

Lemma flags_permok e : is_leaf e → permok (PTE_FLAGS e).
Proof.
  intros [Hv Hf]. split; [|by rewrite flags_valid]. unfold PTE_FLAGS. change 1023 with (Z.ones 10). rewrite Z.land_ones by lia.
  apply Z.mod_pos_bound. lia.
Qed.

Section fork.
Context (old new : Z) (s0 : st S) (T1 T2 : tables) (R : gset Z) (n : Z).
Let f j := PTE2PA (pte_at (words s0) T1 j).
Let perm j := PTE_FLAGS (pte_at (words s0) T1 j).
Let init j off := bytes s0 (f j + off).
Context (Hold : pt (words s0) old T1) (Hsub : map_img T1 ⊆ R) (Hn : 0 ≤ n ≤ 2 ^ 26)
  (Hleaf : ∀ j, 0 ≤ j < n → is_leaf (pte_at (words s0) T1 j))
  (Hframe : ∀ j, 0 ≤ j < n → is_page (f j) ∧ f j ∈ R)
  (Hnew : ∀ j, 0 ≤ j < n → pte_at (words s0) T2 j = 0).

(** The parent's page table is not among the pages written. *)
Lemma parent_same fs s T : grown new s0 T2 R 0 perm init fs s T →
  pt (words s) old T1 ∧ ∀ v, pte_at (words s) T1 v = pte_at (words s0) T1 v.
Proof using Hold Hsub.
  clear Hn Hleaf Hframe Hnew. intros Hg. eapply pt_frame; [apply (g_frame _ _ _ _ _ _ _ _ _ _ Hg)| |done].
  pose proof (as_disj _ _ _ _ (g_as _ _ _ _ _ _ _ _ _ _ Hg)). set_solver.
Qed.

Lemma uvmcopy_loop_ok k : ∀ fs s T, grown new s0 T2 R 0 perm init fs s T →
  Z.of_nat (length fs) + Z.of_nat k = n →
  ∃ r fs' s' T', uvmcopy_loop k old new (4096 * Z.of_nat (length fs)) s = Ok (r, s') ∧
    grown new s0 T2 R 0 perm init fs' s' T' ∧ only_for T T' (Z.of_nat (length fs)) (Z.of_nat k) ∧
    (r = 0 ∧ Z.of_nat (length fs') = n ∨ r = -1 ∧ fs' = []).
Proof using Hold Hsub Hn Hleaf Hframe Hnew.
  induction k as [|k IH]; intros fs s T Hg Hk; cbn [uvmcopy_loop].
  { exists 0, fs, s, T. split_and!; [done|done|apply only_for_refl|left]. split; [done|lia]. }
  set (j := Z.of_nat (length fs)) in *. destruct (parent_same fs s T Hg) as [Hpt Hsame].
  assert (∀ s T1, grown new s0 T2 R 0 perm init fs s T1 → only_for T T1 j 1 → ∃ r fs' s' T',
    (uvmunmap new 0 ((4096 * j) `div` PGSIZE) true;; mret (-1)) s = Ok (r, s') ∧ grown new s0 T2 R 0 perm init fs' s' T' ∧ only_for T T' j (Z.of_nat (Datatypes.S k)) ∧
    (r = 0 ∧ Z.of_nat (length fs') = n ∨ r = -1 ∧ fs' = [])) as Hundo.
  { intros s1 T1' Hg1 Hon. unfold PGSIZE. rewrite Z.mul_comm, Z.div_mul by lia.
    destruct (grown_unmap _ _ _ _ _ _ _ _ _ _ Hg1) as (s' & E & Hg'); [lia|lia| | |].
    - intros i Hi. apply flags_permok, Hleaf. lia.
    - intros i Hi. apply Hnew. lia.
    - change (4096 * 0) with 0 in E. prog_step E. exists (-1), [], s', T1'. split_and!; [done|done|eapply only_for_mono; [exact Hon|lia..]|by right]. }
  destruct (Hleaf j ltac:(lia)) as [HV HF]. destruct (Hframe j ltac:(lia)) as [Hpj HjR].
  prog_step (walk_find s old T1 (4096 * j) Hpt ltac:(rewrite MAXVA_val; lia)). rewrite vpn_page.
  rewrite <- Hsame in HV. destruct (valid_slot _ _ _ j Hpt HV) as [Hs Ew]. destruct (Z.eqb_spec (slot T1 j) 0); [done|].
  prog_step (load_ok s (slot T1 j)). rewrite Ew, HV, Hsame. cbn [negb]. fold (f j).
  destruct (kalloc_grown _ _ _ _ _ _ _ _ _ _ Hg) as (mem & s1 & E1 & Hg1 & W1 & B1). prog_step E1.
  destruct (Z.eqb_spec mem 0) as [->|Hmem]; [by eapply Hundo; [apply Hg1|apply only_for_refl]|].
  unfold move_page. prog_run. set (s2 := mkSt _ _ _).
  destruct (grown_map _ _ _ _ _ _ _ _ _ _ mem Hg ltac:(lia) ltac:(lia) (Hnew (0 + Z.of_nat (length fs)) ltac:(lia)) s1 s2 E1 Hmem eq_refl eq_refl) as (r & T' & s' & E & Hon & Hr).
  { intros a. cbn [bytes s2]. rewrite B1. destruct (in_page mem a) eqn:Ea; [|done]. fold j. rewrite Z.add_0_l.
    unfold init. apply (g_bytes _ _ _ _ _ _ _ _ _ _ Hg (f j)); [done|done|].
    unfold in_page in *. apply andb_true_iff in Ea as [?%Z.leb_le ?%Z.ltb_lt]. apply andb_true_iff. split; [apply Z.leb_le|apply Z.ltb_lt]; lia. }
  fold j in E. rewrite Z.add_0_l in E. fold (perm j). prog_step E. destruct Hr as [[-> Hg']|(-> & s3 & E3 & Hg')].
  - cbn [Z.eqb negb]. unfold PGSIZE. rewrite u64_small by lia.
    replace (4096 * j + 4096) with (4096 * Z.of_nat (length (fs ++ [mem]))) by (rewrite length_app; cbn [length]; lia).
    destruct (IH (fs ++ [mem]) s' T' Hg') as (r & fs' & s4 & T4 & E4 & Hg4 & Hon4 & Hr); [rewrite length_app; cbn [length]; lia|].
    exists r, fs', s4, T4. split_and!; [done|done| |done]. rewrite length_app in Hon4. cbn [length] in Hon4.
    eapply only_for_trans; [exact Hon|exact Hon4|lia..].
  - cbn [Z.eqb negb]. prog_step E3. by eapply Hundo.
Qed.
End fork.

(** C15: [uvmcopy] gives the child fresh frames with the contents and
    permissions of the parent's pages, and returns 0; or it returns -1, all the
    frames it took are free again and the child's translations are as before.
    In both cases the tables it added for the pages to copy stay part of the
    child's page table, and the parent's translations and memory are
    unchanged. *)
Theorem uvmcopy_correct old new s T1 T2 R sz :
  aspace s new T2 R → pt (words s) old T1 → map_img T1 ⊆ R → 0 ≤ sz ≤ MAXVA →
  (∀ j, 0 ≤ j < up sz → is_leaf (pte_at (words s) T1 j) ∧ is_page (PTE2PA (pte_at (words s) T1 j)) ∧
    PTE2PA (pte_at (words s) T1 j) ∈ R ∧ pte_at (words s) T2 j = 0) →
  ∃ r fs s' T', uvmcopy old new sz s = Ok (r, s') ∧
    grown new s T2 R 0 (λ j, PTE_FLAGS (pte_at (words s) T1 j))
      (λ j off, bytes s (PTE2PA (pte_at (words s) T1 j) + off)) fs s' T' ∧
    only_for T2 T' 0 (up sz) ∧ (r = 0 ∧ Z.of_nat (length fs) = up sz ∨ r = -1 ∧ fs = []) ∧
    pt (words s') old T1 ∧ (∀ v, pte_at (words s') T1 v = pte_at (words s) T1 v).
Proof.
  rewrite MAXVA_val. intros H Hpt Hsub Hsz Hall. pose proof (up_bounds sz (2 ^ 26) ltac:(lia)) as Hub. unfold uvmcopy.
  replace ((sz + (PGSIZE - 1)) `div` PGSIZE) with (up sz) by done.
  destruct (uvmcopy_loop_ok old new s T1 T2 R (up sz) Hpt Hsub Hub) with (k := Z.to_nat (up sz)) (fs := @nil Z) (s := s) (T := T2)
    as (r & fs & s' & T' & E & Hg & Hon & Hr).
  - intros j Hj. by apply Hall.
  - intros j Hj. split; by apply Hall.
  - intros j Hj. by apply Hall.
  - by apply grown_start.
  - cbn [length]. lia.
  - exists r, fs, s', T'. split; [exact E|]. split; [done|]. split; [by rewrite Z2Nat.id in Hon by lia|]. split; [done|]. by eapply parent_same.
Qed.
End space.
End VmSpace.
