(* ===== verification/VmFree.v ===== *)
(** * Freeing page tables: no page is lost *)

From S2P Require Import Prelude PageAlloc Vm VmTables VmProofs VmSpace.
Import PageAlloc Vm VmTables VmProofs VmSpace.

Module VmFree.
Section free.
Context {S : Type} `{PA : PageAllocator S}.
Implicit Types (s : st S) (T : tables) (R P : gset Z).

(** ** Subtrees *)

(** [f a ∪ f (a + 1) ∪ ...], [n] sets. *)
Fixpoint unions (n : nat) (a : Z) (f : Z → gset Z) : gset Z :=
  match n with O => ∅ | Datatypes.S n' => f a ∪ unions n' (a + 1) f end.

Lemma elem_unions f n : ∀ a x, x ∈ unions n a f ↔ ∃ i, a ≤ i < a + Z.of_nat n ∧ x ∈ f i.
Proof.
  induction n as [|n IH]; intros a x; cbn [unions].
  - split; [by intros ?%elem_of_empty|]. intros (i & ? & _). lia.
  - rewrite elem_of_union, IH. split.
    + intros [Hx|(i & Hi & Hx)]; [exists a|exists i]; (split; [lia|done]).
    + intros (i & Hi & Hx). destruct (decide (i = a)) as [->|]; [by left|right]. exists i. split; [lia|done].
Qed.

Lemma disj_head (p : Z) (X Y : gset Z) : {[p]} ∪ X ## Y → p ∉ Y.
Proof. set_solver. Qed.
Lemma disj_tail (p : Z) (X Y : gset Z) : {[p]} ∪ X ## Y → X ## Y.
Proof. set_solver. Qed.
Lemma disj_swap (p : Z) (X P : gset Z) : p ∉ X → {[p]} ∪ X ## P → X ## {[p]} ∪ P.
Proof. set_solver. Qed.
Lemma union_swap (p : Z) (X P : gset Z) : X ∪ ({[p]} ∪ P) = {[p]} ∪ X ∪ P.
Proof. set_solver. Qed.
Lemma disj_mid (A X P : gset Z) : A ∪ X ## P → A ## X → A ## X ∪ P.
Proof. set_solver. Qed.
Lemma not_elem_l (x p : Z) (A X : gset Z) : x ∉ {[p]} ∪ (A ∪ X) → x ∉ {[p]} ∪ A ∧ x ∉ A ∧ x ∉ {[p]} ∪ X ∧ x ≠ p.
Proof. set_solver. Qed.

Section sub.
Context (T : tables).

(** The pages of the subtree of the table at level [l], position [k]. *)
Fixpoint sub (l : nat) (k : Z) : gset Z :=
  match T !! (l, k) with
  | None => ∅
  | Some p =>
      {[p]} ∪ match l with
              | O => ∅
              | Datatypes.S l' => unions (Z.to_nat 512) 0 (λ i, sub l' (512 * k + i))
              end
  end.

(** The subtree holds no leaf entry, and its tables are linked as [T] says. *)
Fixpoint bare (w : Z → Z) (l : nat) (k : Z) : Prop :=
  ∀ p, T !! (l, k) = Some p →
    match l with
    | O => ∀ i, 0 ≤ i < 512 → has (w (p + 8 * i)) PTE_V = false
    | Datatypes.S l' => ∀ i, 0 ≤ i < 512 →
        w (p + 8 * i) = match T !! (l', 512 * k + i) with Some q => leaf q 0 | None => 0 end ∧
        bare w l' (512 * k + i)
    end.

Context (Hpage : ∀ k p, T !! k = Some p → is_page p) (Hinj : ∀ k1 k2 p, T !! k1 = Some p → T !! k2 = Some p → k1 = k2).

Lemma sub_key l : ∀ k x, x ∈ sub l k → ∃ l' k', T !! (l', k') = Some x ∧ (l' ≤ l)%nat ∧ k' `div` 512 ^ Z.of_nat (l - l') = k.
Proof.
  induction l as [|l IH]; intros k x; cbn [sub]; (destruct (T !! (_, k)) as [p|] eqn:E; [|by intros ?%elem_of_empty]);
    rewrite elem_of_union, elem_of_singleton.
  - intros [->|[]%elem_of_empty]. exists 0%nat, k. split_and!; [done|lia|]. by rewrite Z.pow_0_r, Z.div_1_r.
  - intros [->|(i & Hi & Hx)%elem_unions].
    + exists (Datatypes.S l), k. split_and!; [done|lia|]. by rewrite Nat.sub_diag, Z.pow_0_r, Z.div_1_r.
    + apply IH in Hx as (l' & k' & Hk & Hl & Hd). exists l', k'. split_and!; [done|lia|].
      replace (Z.of_nat (Datatypes.S l - l')) with (Z.of_nat (l - l') + 1) by lia.
      rewrite Z.pow_add_r, Z.pow_1_r, <- Z.div_div, Hd by (lia || pow_pos).
      rewrite Z.mul_comm, Z.div_add_l, Z.div_small by lia. lia.
Qed.

Lemma sub_disj l k1 k2 : k1 ≠ k2 → sub l k1 ## sub l k2.
Proof using Hpage Hinj.
  intros Hne x (l1 & j1 & E1 & Hl1 & H1)%sub_key (l2 & j2 & E2 & Hl2 & H2)%sub_key.
  pose proof (Hinj _ _ _ E1 E2) as [= -> ->]. congruence.
Qed.

Lemma sub_parent l k p j : T !! (Datatypes.S l, k) = Some p → p ∉ sub l j.
Proof using Hpage Hinj.
  intros Hp (l1 & j1 & E1 & Hl1 & H1)%sub_key. pose proof (Hinj _ _ _ E1 Hp) as [= -> ->]. lia.
Qed.

Lemma bare_frame s s' X l : ∀ k, frame s s' X → sub l k ## X → bare (words s) l k → bare (words s') l k.
Proof using Hpage Hinj.
  induction l as [|l IH]; intros k Hf Hd Hb p Hp; specialize (Hb p Hp); cbn [sub] in Hd; rewrite Hp in Hd.
  - intros i Hi. rewrite Hf; [by apply Hb|by eapply disj_head|by eapply Hpage|done].
  - intros i Hi. destruct (Hb i Hi) as [E Hb']. split.
    + rewrite Hf; [done|by eapply disj_head|by eapply Hpage|done].
    + apply IH; [done| |done]. intros x Hx Hx'. apply (Hd x); [|done]. apply elem_of_union_r, elem_unions. exists i. split; [lia|done].
Qed.

Lemma kfree_inv s P a : pg_inv (al s) ({[a]} ∪ P) → a ∉ P →
  ∃ s', kfree a s = Ok (tt, s') ∧ pg_inv (al s') P ∧ words s' = words s ∧ bytes s' = bytes s.
Proof.
  intros Hi Ha. destruct (pg_free_ok (al s) _ a Hi) as (al' & E & H); [set_solver|].
  eexists. unfold kfree. rewrite E. split; [done|]. cbn. split_and!; [|done|done]. by rewrite insert_remove in H.
Qed.

(** What [freewalk] does at entry [i] of the table [p] at level [l]. *)
Definition visit (depth : nat) (p i : Z) : prog (st S) unit :=
  pte ← load (p + 8 * i);
  if has pte PTE_V && negb (has pte (Z.lor (Z.lor PTE_R PTE_W) PTE_X)) then
    freewalk depth (PTE2PA pte);;
    store (p + 8 * i) 0
  else if has pte PTE_V then panic "freewalk: leaf"
  else skip.

Definition frees (l : nat) : Prop := ∀ k s p P, T !! (l, k) = Some p → bare (words s) l k →
  pg_inv (al s) (sub l k ∪ P) → sub l k ## P →
  ∃ s', freewalk (Datatypes.S l) p s = Ok (tt, s') ∧ pg_inv (al s') P ∧ bytes s' = bytes s ∧ frame s s' (sub l k).

Lemma free_entries l k p : frees l → T !! (Datatypes.S l, k) = Some p → ∀ n i s P,
  0 ≤ i → i + Z.of_nat n ≤ 512 →
  (∀ j, i ≤ j < i + Z.of_nat n → words s (p + 8 * j) = match T !! (l, 512 * k + j) with Some q => leaf q 0 | None => 0 end ∧
    bare (words s) l (512 * k + j)) →
  let X := unions n i (λ j, sub l (512 * k + j)) in
  pg_inv (al s) (X ∪ P) → X ## P →
  ∃ s', for_up n i (visit (Datatypes.S l) p) s = Ok (tt, s') ∧ pg_inv (al s') P ∧ bytes s' = bytes s ∧ frame s s' ({[p]} ∪ X).
Proof using Hpage Hinj.
  intros Hfrees Hp. induction n as [|n IH]; intros i s P Hi Hn Hent; cbn [unions for_up]; intros Hinv Hd.
  { exists s. rewrite union_empty_l_L in Hinv. split_and!; [done|done|done|apply frame_refl]. }
  pose proof (Hpage _ _ Hp) as Hpp.
  set (X := unions n (i + 1) (λ j, sub l (512 * k + j))) in *.
  assert (sub l (512 * k + i) ## X) as Hdx.
  { intros x Hx (j & Hj & Hx')%elem_unions. apply (sub_disj l (512 * k + i) (512 * k + j) ltac:(lia) x); done. }
  assert (p ∉ X) as Hpx. { intros (j & Hj & Hx')%elem_unions. by apply (sub_parent l k p (512 * k + j) Hp). }
  assert (∃ s1, visit (Datatypes.S l) p i s = Ok (tt, s1) ∧ pg_inv (al s1) (X ∪ P) ∧ bytes s1 = bytes s ∧
    frame s s1 ({[p]} ∪ sub l (512 * k + i)) ∧ ∀ j, 0 ≤ j < 512 → j ≠ i → words s1 (p + 8 * j) = words s (p + 8 * j))
    as (s1 & E1 & Hi1 & B1 & F1 & O1).
  { destruct (Hent i ltac:(lia)) as [Ew Hbare]. unfold visit. prog_step (load_ok s (p + 8 * i)). rewrite Ew.
    destruct (T !! (l, 512 * k + i)) as [q|] eqn:Eq.
    - pose proof (Hpage _ _ Eq) as Hq. rewrite leaf_V, leaf_PTE2PA, leaf_has by (done || lia). cbn [orb negb andb].
      change (has 0 _ || has PTE_V _) with false. cbn [negb andb].
      destruct (Hfrees (512 * k + i) s q (X ∪ P) Eq Hbare) as (s2 & E2 & Hi2 & B2 & F2).
      + by rewrite union_assoc_L.
      + by apply disj_mid.
      + prog_step E2. eexists. split; [reflexivity|]. cbn [al bytes words]. split_and!; [done|done| |].
        * intros x j Hx Hxp Hj. cbn [words]. apply not_elem_of_union in Hx as [Hx1 Hx2].
          rewrite fn_lookup_insert_ne; [by apply F2|].
          intros E. apply entry_inj in E as [-> _]; [by apply Hx1, elem_of_singleton|done|done|lia|done].
        * intros j Hj Hne. rewrite fn_lookup_insert_ne; [|intros E; apply entry_inj in E as [_ ?]; done || lia].
          apply F2; [by apply (sub_parent l k)|done|done].
    - change (has 0 PTE_V) with false. cbn [andb]. exists s. split; [done|]. split_and!; [|done|apply frame_refl|done].
      assert (sub l (512 * k + i) = ∅) as E0 by (destruct l; cbn [sub]; by rewrite Eq).
      by rewrite E0, union_empty_l_L in Hinv. }
  prog_step E1.
  destruct (IH (i + 1) s1 P ltac:(lia) ltac:(lia)) as (s' & E & Hi' & B' & F'); [|done|by apply disjoint_union_l in Hd as [_ ?]|].
  { intros j Hj. destruct (Hent j ltac:(lia)) as [Ew Hbare]. rewrite O1 by lia. split; [done|].
    eapply bare_frame; [exact F1| |done]. intros x Hx. rewrite elem_of_union, elem_of_singleton. intros [->|Hx'].
    - by apply (sub_parent l k p (512 * k + j) Hp).
    - apply (sub_disj l (512 * k + j) (512 * k + i) ltac:(lia) x); done. }
  exists s'. split_and!; [done|done|by rewrite B'|].
  intros x j (H1 & H2 & H3 & H4)%not_elem_l Hxp Hj. fold X in F'. rewrite F' by done. by apply F1.
Qed.

Lemma freewalk_ok l : frees l.
Proof using Hpage Hinj.
  induction l as [|l IH]; intros k s p P Hp Hb Hinv Hd; pose proof (Hb p Hp) as Hbp;
    cbn [sub] in Hinv, Hd |- *; rewrite Hp in Hinv, Hd |- *.
  - rewrite union_empty_r_L in Hinv, Hd |- *.
    change (freewalk 1 p) with (for_up (Z.to_nat 512) 0 (visit 0 p);; kfree p).
    assert (∀ n i, 0 ≤ i → i + Z.of_nat n ≤ 512 → for_up n i (visit 0 p) s = Ok (tt, s)) as Hloop.
    { induction n as [|n IHn]; intros i Hi Hn; cbn [for_up]; [done|].
      assert (visit 0 p i s = Ok (tt, s)) as Ev.
      { unfold visit. prog_step (load_ok s (p + 8 * i)). by rewrite Hbp by lia. }
      prog_step Ev. apply IHn; lia. }
    prog_step (Hloop (Z.to_nat 512) 0 ltac:(lia) ltac:(lia)). destruct (kfree_inv s P p Hinv) as (s' & E & Hi' & W & B); [by apply disjoint_singleton_l|].
    exists s'. split_and!; [done|done|done|]. intros q i ???. by rewrite W.
  - change (freewalk (Datatypes.S (Datatypes.S l)) p) with (for_up (Z.to_nat 512) 0 (visit (Datatypes.S l) p);; kfree p).
    set (X := unions _ _ _) in *.
    assert (p ∉ X) as Hpx. { intros (j & Hj & Hx')%elem_unions. by apply (sub_parent l k p (512 * k + j) Hp). }
    destruct (free_entries l k p IH Hp (Z.to_nat 512) 0 s ({[p]} ∪ P) ltac:(lia) ltac:(lia)) as (s1 & E1 & Hi1 & B1 & F1).
    + intros j Hj. apply Hbp. lia.
    + fold X. by rewrite union_swap.
    + by apply disj_swap.
    + prog_step E1. destruct (kfree_inv s1 P p Hi1) as (s' & E & Hi' & W & B); [by eapply disj_head|].
      exists s'. split_and!; [done|done|by rewrite B|]. intros q i ???. rewrite W. by apply F1.
Qed.
End sub.

(** ** Whole page tables *)

Lemma sub_all w root T : pt w root T → sub T 2 0 = map_img T.
Proof.
  intros H. apply leibniz_equiv. intros x. split.
  { intros (l & k & E & _)%sub_key. apply elem_of_map_img. by eexists. }
  intros ([l k] & E)%elem_of_map_img. destruct (pt_key _ _ _ H _ _ _ E) as [Hl Hk].
  assert (∀ l k, (l < 2)%nat → x ∈ sub T l k → is_Some (T !! (Datatypes.S l, k `div` 512)) → x ∈ sub T (Datatypes.S l) (k `div` 512)) as Hup.
  { intros l0 k0 Hl0 Hx [p Hp]. cbn [sub]. rewrite Hp. apply elem_of_union_r, elem_unions. exists (k0 `mod` 512).
    split; [pose proof (Z.mod_pos_bound k0 512); lia|]. by rewrite <- (Z.div_mod k0 512) by lia. }
  assert (x ∈ sub T l k) as Hx by (destruct l; cbn [sub]; rewrite E; by apply elem_of_union_l, elem_of_singleton).
  assert (∀ k, 0 ≤ k < 512 → k `div` 512 = 0) as H0 by (intros; by apply Z.div_small).
  destruct l as [|[|[|l]]]; [..|lia].
  - destruct (pt_up _ _ _ H _ _ _ E) as [q Hq]; [lia|]. destruct (pt_up _ _ _ H _ _ _ Hq) as [r Hr]; [lia|].
    destruct (pt_key _ _ _ H _ _ _ Hq) as [_ Hk1]. apply Hup in Hx; [|lia|done]. apply Hup in Hx; [|lia|done].
    by rewrite (H0 (k `div` 512)) in Hx by exact Hk1.
  - destruct (pt_up _ _ _ H _ _ _ E) as [q Hq]; [lia|]. apply Hup in Hx; [|lia|done]. by rewrite H0 in Hx by exact Hk.
  - change (512 ^ Z.of_nat (2 - 2)) with 1 in Hk. by replace 0 with k by lia.
Qed.

Lemma bare_pt w root T : pt w root T → (∀ v, 0 ≤ v → has (pte_at w T v) PTE_V = false) →
  ∀ l k, bare T w l k.
Proof.
  intros H Hno l. induction l as [|l IH]; intros k p Hp i Hi.
  - specialize (Hno (512 * k + i)). destruct (pt_key _ _ _ H _ _ _ Hp) as [_ Hk].
    assert (pos 0 (512 * k + i) = k) as E1.
    { unfold pos. change (512 ^ (Z.of_nat 0 + 1)) with 512. rewrite Z.mul_comm, Z.div_add_l, Z.div_small; lia. }
    assert (idx 0 (512 * k + i) = i) as E2.
    { unfold idx. change (512 ^ Z.of_nat 0) with 1. rewrite Z.div_1_r, Z.mul_comm, Z.add_comm, Z.mod_add by lia. by apply Z.mod_small. }
    unfold pte_at in Hno. rewrite E1, E2, Hp in Hno. apply Hno. lia.
  - split; [by apply (pt_entry _ _ _ H)|apply IH].
Qed.

Lemma uvmcreate_ok s R : pg_inv (al s) R → ∃ root s', uvmcreate s = Ok (root, s') ∧ bytes s' = bytes s ∧
  (root = 0 ∧ pg_inv (al s') R ∨
   root ≠ 0 ∧ root ∉ R ∧ aspace s' root {[(2%nat, 0) := root]} R ∧ ∀ v, pte_at (words s') {[(2%nat, 0) := root]} v = 0).
Proof.
  intros Hi. unfold uvmcreate, kalloc. destruct (pg_alloc_ok (al s) _ Hi) as (a & al' & E & H).
  unfold mbind at 1, prog_bind at 1. rewrite E. destruct H as [[-> Hi']|(Hp & Hn & Hi')].
  { do 2 eexists. split; [reflexivity|]. split; [done|]. left. by split. }
  pose proof (is_page_nonzero a Hp) as Ha. destruct (Z.eqb_spec a 0); [done|].
  unfold zero_table. destruct (Z.eqb_spec a 0); [done|]. prog_run.
  do 2 eexists. split; [reflexivity|]. split; [done|]. right.
  assert (∀ l k p, ({[(2%nat, 0) := a]} : tables) !! (l, k) = Some p → l = 2%nat ∧ k = 0 ∧ p = a) as Hone.
  { intros l k p [[= <- <-] <-]%lookup_singleton_Some. done. }
  split_and!; [done|done| |].
  - constructor; cbn.
    + constructor.
      * apply lookup_singleton_eq.
      * intros [l k] p (_ & _ & ->)%Hone. done.
      * intros l k p (-> & -> & ->)%Hone. split; [lia|]. cbn. lia.
      * intros l k p i ([= ->] & -> & ->)%Hone Hi0. rewrite entry_in_page by done. rewrite bool_decide_true by done.
        destruct (({[(2%nat, 0) := a]} : tables) !! _) eqn:E1; [|done]. by apply Hone in E1 as (? & _).
      * intros l k p (-> & _)%Hone Hl. lia.
      * intros [l k] [l' k'] p (-> & -> & _)%Hone (-> & -> & _)%Hone. done.
    + intros x (k & Hk)%elem_of_map_img Hx. destruct k as [l k]. apply Hone in Hk as (_ & _ & ->). done.
    + by rewrite map_img_singleton_L.
  - intros v. unfold pte_at. destruct (({[(2%nat, 0) := a]} : tables) !! _) eqn:E1; [|done]. by apply Hone in E1 as (? & _).
Qed.

(** Freeing an address space whose only leaves are the pages below [sz]. *)
Lemma uvmfree_ok root s T R sz : aspace s root T R → 0 ≤ sz ≤ MAXVA →
  let f j := PTE2PA (pte_at (words s) T j) in
  (∀ j, 0 ≤ j < up sz → is_leaf (pte_at (words s) T j) ∧ f j ∈ R) →
  (∀ i j, 0 ≤ i < up sz → 0 ≤ j < up sz → f i = f j → i = j) →
  (∀ j, up sz ≤ j → has (pte_at (words s) T j) PTE_V = false) →
  ∃ s', uvmfree root sz s = Ok (tt, s') ∧ pg_inv (al s') (R ∖ range_set f 0 (Z.to_nat (up sz))) ∧
    bytes s' = bytes s ∧ frame s s' (map_img T).
Proof.
  rewrite MAXVA_val. intros H Hsz f Hleaf Hinj Hno. unfold uvmfree. pose proof (up_bounds sz (2 ^ 26) ltac:(lia)) as Hub.
  assert (∃ s1, (if 0 <? sz then uvmunmap root 0 (PGROUNDUP sz `div` PGSIZE) true else skip) s = Ok (tt, s1) ∧
    aspace s1 root T (R ∖ range_set f 0 (Z.to_nat (up sz))) ∧ bytes s1 = bytes s ∧ frame s s1 (map_img T) ∧
    ∀ v, 0 ≤ v → has (pte_at (words s1) T v) PTE_V = false) as (s1 & E1 & H1 & B1 & F1 & P1).
  { destruct (Z.ltb_spec 0 sz).
    - rewrite PGROUNDUP_up by lia. unfold PGSIZE. rewrite Z.mul_comm, Z.div_mul by lia.
      destruct (uvmunmap_ok root T true s R 0 (up sz) H) as (s1 & E1 & H1 & B1 & F1 & P1); [lia|lia|lia| | |].
      + intros j Hj. by apply Hleaf.
      + intros _. split; [intros j Hj; by apply Hleaf|]. intros i j ??. by apply Hinj.
      + exists s1. split_and!; [done..|]. intros v Hv. rewrite P1. destruct (decide (v < up sz)).
        * by rewrite unmapped_in by lia.
        * rewrite unmapped_out by lia. apply Hno. lia.
    - assert (up sz = 0) as E0 by (replace sz with (4096 * 0) by lia; apply up_page).
      exists s. rewrite E0. change (Z.to_nat 0) with O. cbn [range_set]. rewrite difference_empty_L.
      split_and!; [done|done|done|apply frame_refl|]. intros v Hv. apply Hno. lia. }
  prog_step E1. destruct H1 as [Hpt Hd Hi].
  destruct (freewalk_ok T (pt_page _ _ _ Hpt) (pt_inj _ _ _ Hpt) 2 0 s1 root (R ∖ range_set f 0 (Z.to_nat (up sz)))) as (s' & E & Hi' & B & F).
  - apply (pt_root _ _ _ Hpt).
  - by eapply bare_pt.
  - by rewrite (sub_all _ _ _ Hpt).
  - by rewrite (sub_all _ _ _ Hpt).
  - rewrite (sub_all _ _ _ Hpt) in F. exists s'. split_and!; [done|done|by rewrite B|by eapply frame_trans].
Qed.

(** C8: Building an address space and freeing it gives every page back to the
    allocator, whether or not memory ran out on the way, and leaves all other
    page tables alone. *)
Theorem uvm_no_leak s R sz xperm :
  pg_inv (al s) R → 0 ≤ sz ≤ MAXVA → 0 ≤ xperm < 1024 →
  ∃ s', (root ← uvmcreate;
         if root =? 0 then skip
         else
           r ← uvmalloc root 0 sz xperm;
           uvmfree root r) s = Ok (tt, s') ∧ pg_inv (al s') R.
Proof.
  intros Hi Hsz Hx. destruct (uvmcreate_ok s R Hi) as (root & s1 & E1 & _ & [[-> Hi1]|(Hne & _ & H1 & P1)]); prog_step E1.
  { by exists s1. }
  destruct (Z.eqb_spec root 0); [done|].
  destruct (uvmalloc_ok root s1 _ R 0 sz xperm H1) as (r & fs & s2 & T & E2 & Hg & _ & Hr); [lia|lia|done|by intros j _|].
  prog_step E2. change (up 0) with 0 in *. pose proof (user_perm_ok xperm Hx) as Hperm.
  assert (up r = Z.of_nat (length fs) ∧ 0 ≤ r ≤ MAXVA) as [Hup Hr2].
  { destruct Hr as [[-> Hl]|[-> ->]]; [|done]. split; [lia|lia]. }
  pose proof (grown_range _ _ _ _ _ _ _ _ _ _ Hg (λ _ _, Hperm)) as Hrange.
  destruct (uvmfree_ok root s2 T _ r (g_as _ _ _ _ _ _ _ _ _ _ Hg) Hr2) as (s' & E & Hi' & _).
  - intros j Hj. destruct (grown_leaf _ _ _ _ _ _ _ _ _ _ j Hg ltac:(lia) Hperm) as (p & _ & Hp & _ & _ & -> & Hl).
    split; [done|]. by apply elem_of_union_l, elem_of_list_to_set.
  - intros i j Hi' Hj. by apply (grown_inj _ _ _ _ _ _ _ _ _ _ i j Hg (λ _ _, Hperm)); lia.
  - intros j Hj. rewrite (g_pte _ _ _ _ _ _ _ _ _ _ Hg). unfold lmapped. rewrite lookup_ge_None_2, P1 by lia. by destruct (0 <=? j).
  - exists s'. split; [done|]. rewrite Hup, Nat2Z.id in Hi'. by rewrite Hrange in Hi'.
Qed.
End free.
End VmFree.
