(* ===== verification/VmCopy.v ===== *)
(** * Copying between the kernel and user memory *)

From S2P Require Import Prelude PageAlloc Vm VmTables VmProofs.
Import PageAlloc Vm VmTables VmProofs.

Module VmCopy.
Section copy.
Context {S : Type} `{PA : PageAllocator S}.
Implicit Types (s : st S) (T : tables).

(** The frame of the user page [v], 0 when the user may not access it, and the
    physical address of a user address. *)
Definition ubase (w : Z → Z) T (v : Z) : Z :=
  let e := pte_at w T v in
  if (v <? 2 ^ 26) && has e PTE_V && has e PTE_U then PTE2PA e else 0.
Definition phys (w : Z → Z) T (va : Z) : Z := ubase w T (vpn va) + va `mod` 4096.

Lemma walkaddr_ok s root T va : pt (words s) root T → 0 ≤ va →
  walkaddr root va s = Ok (ubase (words s) T (vpn va), s).
Proof.
  intros H Hva. unfold walkaddr, ubase. rewrite MAXVA_val. destruct (Z.leb_spec (2 ^ 38) va) as [Hbig|Hsmall].
  { replace (vpn va <? 2 ^ 26) with false; [done|]. symmetry. apply Z.ltb_ge. apply Z.div_le_lower_bound; lia. }
  replace (vpn va <? 2 ^ 26) with true by (symmetry; apply Z.ltb_lt, Z.div_lt_upper_bound; lia). cbn [andb].
  prog_step (walk_find s root T va H ltac:(rewrite MAXVA_val; lia)).
  unfold slot at 1, pte_at. destruct (T !! (0%nat, pos 0 (vpn va))) as [p|] eqn:E; [|done].
  destruct (slot_page _ _ _ H _ _ E) as [Es Hs]. rewrite <- Es. destruct (Z.eqb_spec (slot T (vpn va)) 0); [done|].
  prog_step (load_ok s (slot T (vpn va))). destruct (has _ PTE_V), (has _ PTE_U); done.
Qed.

(** The page part and the offset of an address. *)
Lemma va_split va : 0 ≤ va < 2 ^ 64 → PGROUNDDOWN va = 4096 * vpn va ∧ va - 4096 * vpn va = va `mod` 4096 ∧ 0 ≤ va `mod` 4096 < 4096 ∧ 0 ≤ vpn va < 2 ^ 52.
Proof.
  intros Hva. unfold vpn. pose proof (Z.div_mod va 4096 ltac:(lia)). pose proof (Z.mod_pos_bound va 4096 ltac:(lia)).
  assert (0 ≤ va `div` 4096) by (apply Z.div_pos; lia).
  split_and!; try lia.
  rewrite H at 1. apply PGROUNDDOWN_page; lia.
Qed.

Lemma vpn_add va i : 0 ≤ i → va `mod` 4096 + i < 4096 → vpn (va + i) = vpn va ∧ (va + i) `mod` 4096 = va `mod` 4096 + i.
Proof.
  intros Hi Hlt. unfold vpn. pose proof (Z.div_mod va 4096 ltac:(lia)). pose proof (Z.mod_pos_bound va 4096 ltac:(lia)).
  set (q := va `div` 4096) in *. set (r := va `mod` 4096) in *. rewrite H.
  replace (4096 * q + r + i) with (q * 4096 + (r + i)) by lia.
  rewrite Z.div_add_l, Z.div_small by lia. split; [lia|]. rewrite Z.add_comm, Z.mod_add by lia. apply Z.mod_small. lia.
Qed.

Lemma vpn_next va : vpn (4096 * (vpn va + 1)) = vpn va + 1 ∧ (4096 * (vpn va + 1)) `mod` 4096 = 0.
Proof. split; [apply vpn_page|]. rewrite Z.mul_comm, Z.mod_mul; lia. Qed.

(** ** copyin *)

(** What is read from [va] on, [n] bytes. *)
Definition reads s T (va : Z) (l : list Z) : Prop :=
  ∀ i x, l !! i = Some x → let a := va + Z.of_nat i in
    ubase (words s) T (vpn a) ≠ 0 ∧ x = bytes s (phys (words s) T a).

Lemma reads_nil s T va : reads s T va [].
Proof. intros i x. by rewrite lookup_nil. Qed.

Lemma chunk_reads s T va n : 0 ≤ va → va `mod` 4096 + Z.of_nat n ≤ 4096 → ubase (words s) T (vpn va) ≠ 0 →
  reads s T va (map (λ i, bytes s (ubase (words s) T (vpn va) + va `mod` 4096 + Z.of_nat i)) (seq 0 n)).
Proof.
  intros Hva Hn Hb i x Hx. rewrite list_lookup_fmap in Hx.
  destruct (seq 0 n !! i) as [j|] eqn:Ej; [|done]. injection Hx as <-. apply lookup_seq in Ej as [-> Hi]. cbn [Nat.add].
  destruct (vpn_add va (Z.of_nat i) ltac:(lia) ltac:(lia)) as [E1 E2]. cbv zeta. unfold phys. rewrite E1, E2.
  split; [done|]. f_equal. lia.
Qed.

Lemma reads_app s T va l1 l2 : reads s T va l1 → reads s T (va + Z.of_nat (length l1)) l2 → reads s T va (l1 ++ l2).
Proof.
  intros H1 H2 i x Hx. apply lookup_app_Some in Hx as [Hx|[Hle Hx]]; [by apply H1|].
  specialize (H2 _ _ Hx). cbv zeta in H2 |- *. by replace (va + Z.of_nat i) with (va + Z.of_nat (length l1) + Z.of_nat (i - length l1)) by lia.
Qed.

Lemma copyin_loop_ok s root T fuel : ∀ va len, pt (words s) root T →
  0 ≤ va → 0 ≤ len ≤ Z.of_nat fuel → va + len ≤ 2 ^ 64 →
  ∃ r l, copyin_loop fuel root va len s = Ok ((r, l), s) ∧ reads s T va l ∧
    (r = 0 ∧ Z.of_nat (length l) = len ∨
     r = -1 ∧ Z.of_nat (length l) < len ∧ ubase (words s) T (vpn (va + Z.of_nat (length l))) = 0).
Proof.
  induction fuel as [|fuel IH]; intros va len H Hva Hlen Hmax; cbn [copyin_loop].
  { replace len with 0 by lia. exists 0, []. split; [done|]. split; [apply reads_nil|]. by left. }
  destruct (Z.eqb_spec len 0) as [->|Hne].
  { exists 0, []. split; [done|]. split; [apply reads_nil|]. by left. }
  destruct (va_split va ltac:(lia)) as (Ed & Eo & Ho & Hv). rewrite Ed.
  prog_step (walkaddr_ok s root T (4096 * vpn va) H ltac:(lia)). rewrite vpn_page.
  destruct (Z.eqb_spec (ubase (words s) T (vpn va)) 0) as [E0|Hb].
  { exists (-1), []. split; [done|]. split; [apply reads_nil|]. right. cbn. rewrite Z.add_0_r. split_and!; [done|lia|done]. }
  set (n := chunk va (4096 * vpn va) len). assert (0 < n ∧ n ≤ len ∧ n ≤ 4096 - va `mod` 4096 ∧ (n < len → n = 4096 - va `mod` 4096)) as (Hn1 & Hn2 & Hn3 & Hn4).
  { unfold n, chunk, PGSIZE. lia. }
  unfold get_bytes. prog_run. rewrite Eo.
  pose proof (chunk_reads s T va (Z.to_nat n) Hva ltac:(lia) Hb) as Hr. set (l1 := map _ _) in *.
  assert (length l1 = Z.to_nat n) as Hl1 by (unfold l1; by rewrite length_map, length_seq).
  destruct (decide (n = len)) as [En|Hlt].
  - assert (copyin_loop fuel root (u64 (4096 * vpn va + PGSIZE)) (len - n) s = Ok ((0, []), s)) as E.
    { rewrite En, Z.sub_diag. by destruct fuel. }
    prog_step E. exists 0, l1. cbn [fst snd]. rewrite app_nil_r. split_and!; [done|done|left]. split; [done|lia].
  - assert (4096 * vpn va + 4096 = va + n) as Enext by lia. unfold PGSIZE. rewrite Enext, u64_small by lia.
    destruct (IH (va + n) (len - n) H) as (r & l & E & Hl & Hc); [lia|lia|lia|]. prog_step E.
    exists r, (l1 ++ l). split; [done|]. split; [apply reads_app; [done|]; by rewrite Hl1, Z2Nat.id by lia|].
    rewrite length_app, Hl1. destruct Hc as [[-> ?]|(-> & ? & ?)]; [left|right]; (split; [done|]); [lia|].
    split; [lia|]. by replace (va + Z.of_nat (Z.to_nat n + length l)) with (va + n + Z.of_nat (length l)) by lia.
Qed.

(** ** copyout *)

Lemma PTE2PA_aligned e : PTE2PA e `mod` 4096 = 0.
Proof.
  unfold PTE2PA, u64. rewrite Z.shiftl_mul_pow2 by lia. change (2 ^ 64) with (2 ^ 52 * 2 ^ 12).
  rewrite Z.mul_mod_distr_r by lia. change (2 ^ 12) with 4096. by rewrite Z.mod_mul.
Qed.
Lemma ubase_aligned w T v : ubase w T v `mod` 4096 = 0.
Proof. unfold ubase. destruct (_ && _); [apply PTE2PA_aligned|done]. Qed.

(** No two user pages share a frame. *)
Definition unshared (w : Z → Z) T : Prop :=
  ∀ v1 v2, ubase w T v1 ≠ 0 → ubase w T v1 = ubase w T v2 → v1 = v2.

Lemma phys_inj w T a b : unshared w T → ubase w T (vpn a) ≠ 0 → phys w T a = phys w T b → a = b.
Proof.
  intros Hu Ha E. unfold phys in E. pose proof (ubase_aligned w T (vpn a)) as H1. pose proof (ubase_aligned w T (vpn b)) as H2.
  apply Z.div_exact in H1, H2; [|lia..]. pose proof (Z.mod_pos_bound a 4096 ltac:(lia)). pose proof (Z.mod_pos_bound b 4096 ltac:(lia)).
  assert (ubase w T (vpn a) = ubase w T (vpn b)) as Eb by lia. pose proof (Hu _ _ Ha Eb) as Ev.
  unfold vpn in Ev. rewrite (Z.div_mod a 4096), (Z.div_mod b 4096) by lia. lia.
Qed.

(** The bytes [l] are in user memory from [va] on, and no other byte changed. *)
Record wrote s s' T (va : Z) (l : list Z) : Prop := {
  w_words : words s' = words s;
  w_al : al s' = al s;
  w_in i x : l !! i = Some x → let a := va + Z.of_nat i in
    ubase (words s) T (vpn a) ≠ 0 ∧ bytes s' (phys (words s) T a) = x;
  w_out b : (∀ i, (i < length l)%nat → b ≠ phys (words s) T (va + Z.of_nat i)) → bytes s' b = bytes s b }.

Lemma wrote_nil s T va : wrote s s T va [].
Proof. constructor; [done..| |done]. intros i x. by rewrite lookup_nil. Qed.

Lemma chunk_wrote s T va l : 0 ≤ va → va `mod` 4096 + Z.of_nat (length l) ≤ 4096 → ubase (words s) T (vpn va) ≠ 0 →
  ∃ s', put_bytes (ubase (words s) T (vpn va) + va `mod` 4096) l s = Ok (tt, s') ∧ wrote s s' T va l.
Proof.
  intros Hva Hn Hb. eexists. split; [reflexivity|].
  assert (∀ i, (i < length l)%nat → phys (words s) T (va + Z.of_nat i) = ubase (words s) T (vpn va) + va `mod` 4096 + Z.of_nat i ∧ vpn (va + Z.of_nat i) = vpn va) as Hp.
  { intros i Hi. destruct (vpn_add va (Z.of_nat i) ltac:(lia) ltac:(lia)) as [E1 E2]. unfold phys. rewrite E1, E2. split; [lia|done]. }
  constructor; [done|done| |].
  - intros i x Hx. pose proof (lookup_lt_Some _ _ _ Hx) as Hi. destruct (Hp i Hi) as [E1 E2]. cbv zeta. rewrite E2. split; [done|].
    cbn [bytes]. rewrite E1. set (p := ubase (words s) T (vpn va) + va `mod` 4096).
    rewrite (proj2 (andb_true_iff (p <=? p + Z.of_nat i) (p + Z.of_nat i <? p + Z.of_nat (length l))))
      by (split; [apply Z.leb_le|apply Z.ltb_lt]; lia).
    replace (p + Z.of_nat i - p) with (Z.of_nat i) by lia. rewrite Nat2Z.id. by apply list_lookup_total_correct.
  - intros b Hout. cbn [bytes]. set (p := ubase (words s) T (vpn va) + va `mod` 4096) in *.
    destruct (Z.leb_spec p b), (Z.ltb_spec b (p + Z.of_nat (length l))); cbn [andb]; try done.
    exfalso. apply (Hout (Z.to_nat (b - p))); [lia|]. rewrite (proj1 (Hp (Z.to_nat (b - p)) ltac:(lia))). unfold p in *. lia.
Qed.

Lemma wrote_app s1 s2 s3 T va l1 l2 : unshared (words s1) T → 0 ≤ va →
  wrote s1 s2 T va l1 → wrote s2 s3 T (va + Z.of_nat (length l1)) l2 → wrote s1 s3 T va (l1 ++ l2).
Proof.
  intros Hu Hva [W1 A1 I1 O1] [W2 A2 I2 O2]. rewrite W1 in I2, O2. constructor; [by rewrite W2|by rewrite A2| |].
  - intros i x Hx. apply lookup_app_Some in Hx as [Hx|[Hle Hx]].
    + destruct (I1 _ _ Hx) as [Hb Hv]. split; [done|]. rewrite O2; [done|]. intros j Hj E.
      pose proof (lookup_lt_Some _ _ _ Hx). apply phys_inj in E; [lia|done|done].
    + specialize (I2 _ _ Hx). cbv zeta in I2 |- *.
      by replace (va + Z.of_nat i) with (va + Z.of_nat (length l1) + Z.of_nat (i - length l1)) by lia.
  - intros b Hb. rewrite O2.
    + apply O1. intros i Hi. apply Hb. rewrite length_app. lia.
    + intros i Hi. replace (va + Z.of_nat (length l1) + Z.of_nat i) with (va + Z.of_nat (length l1 + i)) by lia.
      apply Hb. rewrite length_app. lia.
Qed.

Lemma copyout_loop_ok root T fuel : ∀ s va src, pt (words s) root T → unshared (words s) T →
  0 ≤ va → (length src ≤ fuel)%nat → va + Z.of_nat (length src) ≤ 2 ^ 64 →
  ∃ r n s', copyout_loop fuel root va src s = Ok (r, s') ∧ wrote s s' T va (take n src) ∧
    (r = 0 ∧ n = length src ∨
     r = -1 ∧ (n < length src)%nat ∧ ubase (words s) T (vpn (va + Z.of_nat n)) = 0).
Proof.
  induction fuel as [|fuel IH]; intros s va src H Hu Hva Hlen Hmax.
  { destruct src; [|cbn in Hlen; lia]. exists 0, 0%nat, s. split_and!; [done|apply wrote_nil|by left]. }
  destruct src as [|c src]; [exists 0, 0%nat, s; split_and!; [done|apply wrote_nil|by left]|].
  set (l := c :: src) in *. assert (0 < Z.of_nat (length l)) as Hpos by (cbn; lia).
  change (copyout_loop (Datatypes.S fuel) root va l) with
    (let va0 := PGROUNDDOWN va in
     pa0 ← walkaddr root va0;
     if pa0 =? 0 then mret (-1)
     else
       let n := Z.to_nat (chunk va va0 (Z.of_nat (length l))) in
       put_bytes (pa0 + (va - va0)) (take n l);;
       copyout_loop fuel root (u64 (va0 + PGSIZE)) (drop n l)).
  cbv zeta. clearbody l. destruct (va_split va ltac:(lia)) as (Ed & Eo & Ho & Hv). rewrite Ed.
  prog_step (walkaddr_ok s root T (4096 * vpn va) H ltac:(lia)). rewrite vpn_page.
  destruct (Z.eqb_spec (ubase (words s) T (vpn va)) 0) as [E0|Hb].
  { exists (-1), 0%nat, s. split; [done|]. rewrite take_0. split; [apply wrote_nil|]. right. cbn. rewrite Z.add_0_r. split_and!; [done|lia|done]. }
  set (n := chunk va (4096 * vpn va) (Z.of_nat (length l))).
  assert (0 < n ∧ n ≤ Z.of_nat (length l) ∧ n ≤ 4096 - va `mod` 4096 ∧ (n < Z.of_nat (length l) → n = 4096 - va `mod` 4096)) as (Hn1 & Hn2 & Hn3 & Hn4).
  { unfold n, chunk, PGSIZE. lia. }
  rewrite Eo. assert (length (take (Z.to_nat n) l) = Z.to_nat n) as Hl1 by (rewrite length_take; lia).
  destruct (chunk_wrote s T va (take (Z.to_nat n) l) Hva ltac:(lia) Hb) as (s1 & E1 & W1). prog_step E1.
  destruct (decide (n = Z.of_nat (length l))) as [En|Hlt].
  - rewrite (drop_ge l) by lia. exists 0, (length l), s1. split; [by destruct fuel|]. rewrite !take_ge in * by lia. split; [done|by left].
  - assert (4096 * vpn va + 4096 = va + n) as Enext by lia. unfold PGSIZE. rewrite Enext, u64_small by lia.
    destruct (IH s1 (va + n) (drop (Z.to_nat n) l)) as (r & m & s' & E & W & Hc);
      [by rewrite (w_words _ _ _ _ _ W1)|by rewrite (w_words _ _ _ _ _ W1)|lia|rewrite length_drop; lia|rewrite length_drop; lia|].
    exists r, (Z.to_nat n + m)%nat, s'. split; [done|]. split.
    + rewrite <- take_take_drop. eapply wrote_app; [done|done|exact W1|]. by rewrite Hl1, Z2Nat.id by lia.
    + rewrite length_drop in Hc. rewrite (w_words _ _ _ _ _ W1) in Hc.
      destruct Hc as [[-> ->]|(-> & ? & Hz)]; [left|right]; (split; [done|]); [lia|]. split; [lia|].
      by replace (va + Z.of_nat (Z.to_nat n + m)) with (va + n + Z.of_nat m) by lia.
Qed.

(** ** copyinstr *)

Lemma copystr_loop_ok s k : ∀ p, ∃ l b, copystr_loop k p s = Ok ((l, b), s) ∧
  (∀ i x, l !! i = Some x → x = bytes s (p + Z.of_nat i)) ∧ (length l ≤ k)%nat ∧
  if b then ∃ str, l = str ++ [0] ∧ 0 ∉ str else 0 ∉ l ∧ length l = k.
Proof.
  induction k as [|k IH]; intros p; cbn [copystr_loop].
  { exists [], false. split; [done|]. split; [intros i x; by rewrite lookup_nil|]. split; [cbn; lia|]. split; [by apply not_elem_of_nil|done]. }
  prog_run. destruct (Z.eqb_spec (bytes s p) 0) as [E0|Hne].
  - exists [0], true. split; [done|]. split_and!; [|cbn; lia|exists []; split; [done|by apply not_elem_of_nil]].
    intros [|i] x Hx; cbn in Hx; [|done]. injection Hx as <-. cbn. by rewrite Z.add_0_r.
  - destruct (IH (p + 1)) as (l & b & E & Hl & Hlen & Hb). prog_step E. exists (bytes s p :: l), b. split; [done|].
    split_and!; [|cbn; lia|].
    + intros [|i] x Hx; cbn in Hx; [injection Hx as <-; cbn; by rewrite Z.add_0_r|].
      apply Hl in Hx as ->. f_equal. lia.
    + destruct b.
      * destruct Hb as (str & -> & Hstr). exists (bytes s p :: str). split; [done|].
        rewrite not_elem_of_cons. split; [congruence|done].
      * destruct Hb as [Hb1 Hb2]. rewrite not_elem_of_cons. split; [split; [congruence|done]|cbn; lia].
Qed.

Lemma copyinstr_loop_ok s root T fuel : ∀ va max, pt (words s) root T →
  0 ≤ va → 0 ≤ max ≤ Z.of_nat fuel → va + max ≤ 2 ^ 64 →
  ∃ r l, copyinstr_loop fuel root va max s = Ok ((r, l), s) ∧ reads s T va l ∧
    (r = 0 ∧ (∃ str, l = str ++ [0] ∧ 0 ∉ str) ∧ Z.of_nat (length l) ≤ max ∨
     r = -1 ∧ 0 ∉ l ∧ (Z.of_nat (length l) = max ∨
       Z.of_nat (length l) < max ∧ ubase (words s) T (vpn (va + Z.of_nat (length l))) = 0)).
Proof.
  induction fuel as [|fuel IH]; intros va max H Hva Hmax Hend; cbn [copyinstr_loop].
  { replace max with 0 by lia. exists (-1), []. split; [done|]. split; [apply reads_nil|]. right. split_and!; [done|by apply not_elem_of_nil|by left]. }
  destruct (Z.eqb_spec max 0) as [->|Hne].
  { exists (-1), []. split; [done|]. split; [apply reads_nil|]. right. split_and!; [done|by apply not_elem_of_nil|by left]. }
  destruct (va_split va ltac:(lia)) as (Ed & Eo & Ho & Hv). rewrite Ed.
  prog_step (walkaddr_ok s root T (4096 * vpn va) H ltac:(lia)). rewrite vpn_page.
  destruct (Z.eqb_spec (ubase (words s) T (vpn va)) 0) as [E0|Hb].
  { exists (-1), []. split; [done|]. split; [apply reads_nil|]. right. cbn. rewrite Z.add_0_r.
    split_and!; [done|by apply not_elem_of_nil|right; split; [lia|done]]. }
  set (n := chunk va (4096 * vpn va) max). assert (0 < n ∧ n ≤ max ∧ n ≤ 4096 - va `mod` 4096 ∧ (n < max → n = 4096 - va `mod` 4096)) as (Hn1 & Hn2 & Hn3 & Hn4).
  { unfold n, chunk, PGSIZE. lia. }
  rewrite Eo. destruct (copystr_loop_ok s (Z.to_nat n) (ubase (words s) T (vpn va) + va `mod` 4096)) as (l & b & E & Hl & Hlen & Hz).
  prog_step E. cbn [fst snd].
  assert (reads s T va l) as Hr.
  { intros i x Hx. pose proof (lookup_lt_Some _ _ _ Hx). destruct (vpn_add va (Z.of_nat i) ltac:(lia) ltac:(lia)) as [E1 E2].
    cbv zeta. unfold phys. rewrite E1, E2. split; [done|]. apply Hl in Hx as ->. f_equal. lia. }
  destruct b.
  { exists 0, l. split_and!; [done|done|left]. split_and!; [done|done|lia]. }
  destruct Hz as [Hz Hln]. destruct (decide (n = max)) as [En|Hlt].
  - assert (copyinstr_loop fuel root (u64 (4096 * vpn va + PGSIZE)) (max - n) s = Ok ((-1, []), s)) as E'.
    { rewrite En, Z.sub_diag. by destruct fuel. }
    prog_step E'. exists (-1), l. cbn [fst snd]. rewrite app_nil_r. split_and!; [done|done|right]. split_and!; [done|done|left; lia].
  - assert (4096 * vpn va + 4096 = va + n) as Enext by lia. unfold PGSIZE. rewrite Enext, u64_small by lia.
    destruct (IH (va + n) (max - n) H) as (r & l2 & E' & Hl2 & Hc); [lia|lia|lia|]. prog_step E'.
    exists r, (l ++ l2). split; [done|]. split; [apply reads_app; [done|]; by rewrite Hln, Z2Nat.id by lia|].
    rewrite length_app, Hln.
    replace (va + Z.of_nat (Z.to_nat n + length l2)) with (va + n + Z.of_nat (length l2)) by lia.
    destruct Hc as [(-> & (str & -> & Hs) & Hm)|(-> & Hs & Hm)]; [left|right]; (split; [done|]).
    + split; [|lia]. exists (l ++ str). rewrite app_assoc. split; [done|]. rewrite not_elem_of_app. by split.
    + rewrite not_elem_of_app. split; [by split|]. destruct Hm as [Hm|[Hm Hz0]]; [left; lia|right]. split; [lia|done].
Qed.

(** ** Theorems *)

(** [copyinstr] returns 0 exactly with a terminated string of at most [max]
    bytes read from accessible pages; otherwise there is no terminator within
    [max] bytes or before a page that is not accessible. *)
Theorem copyinstr_correct s root T va max :
  pt (words s) root T → 0 ≤ va → 0 ≤ max → va + max ≤ 2 ^ 64 →
  ∃ r l, copyinstr root va max s = Ok ((r, l), s) ∧ reads s T va l ∧
    (r = 0 ∧ (∃ str, l = str ++ [0] ∧ 0 ∉ str) ∧ Z.of_nat (length l) ≤ max ∨
     r = -1 ∧ 0 ∉ l ∧ (Z.of_nat (length l) = max ∨
       Z.of_nat (length l) < max ∧ ubase (words s) T (vpn (va + Z.of_nat (length l))) = 0)).
Proof. intros. by apply copyinstr_loop_ok; [|lia..]. Qed.

(** C24: [copyin] succeeds exactly when every byte of the range is in a page the
    user may access, and then returns the bytes of those pages in order; it
    stops at the first page that is not, and never changes memory. *)
Theorem copyin_correct s root T va len :
  pt (words s) root T → 0 ≤ va → 0 ≤ len → va + len ≤ 2 ^ 64 →
  ∃ r l, copyin root va len s = Ok ((r, l), s) ∧
    (∀ i x, l !! i = Some x → x = bytes s (phys (words s) T (va + Z.of_nat i))) ∧
    (r = 0 ∧ Z.of_nat (length l) = len ∨ r = -1 ∧ Z.of_nat (length l) < len) ∧
    (r = 0 ↔ ∀ i, 0 ≤ i < len → ubase (words s) T (vpn (va + i)) ≠ 0).
Proof.
  intros H Hva Hlen Hmax. destruct (copyin_loop_ok s root T (Z.to_nat len) va len H) as (r & l & E & Hl & Hc); [lia..|].
  exists r, l. split; [exact E|]. split; [intros i x Hx; by apply (Hl i x Hx)|]. split; [destruct Hc as [?|(? & ? & _)]; [by left|by right]|].
  destruct Hc as [[-> Hc]|(-> & Hc & Hz)].
  - split; [|done]. intros _ i Hi. destruct (lookup_lt_is_Some_2 l (Z.to_nat i)) as [x Hx]; [lia|].
    destruct (Hl _ _ Hx) as [Hb _]. by rewrite Z2Nat.id in Hb by lia.
  - split; [done|]. intros Hall. by destruct (Hall (Z.of_nat (length l)) ltac:(lia)).
Qed.

(** C25: When no frame is shared, [copyout] followed by [copyin] of the same
    range returns the bytes written: if [copyout] reports success then [copyin]
    succeeds with exactly them, and no other byte of memory has changed. *)
Theorem copyout_copyin s root T va src :
  pt (words s) root T → unshared (words s) T → 0 ≤ va → va + Z.of_nat (length src) ≤ 2 ^ 64 →
  ∃ r s', copyout root va src s = Ok (r, s') ∧ words s' = words s ∧
    (r = 0 → copyin root va (Z.of_nat (length src)) s' = Ok ((0, src), s')) ∧
    (∀ b, (∀ i, 0 ≤ i < Z.of_nat (length src) → b ≠ phys (words s) T (va + i)) → bytes s' b = bytes s b) ∧
    (r = -1 ∨ r = 0) ∧
    (r = 0 ↔ ∀ i, 0 ≤ i < Z.of_nat (length src) → ubase (words s) T (vpn (va + i)) ≠ 0).
Proof.
  intros H Hu Hva Hmax. destruct (copyout_loop_ok root T (length src) s va src H Hu Hva) as (r & n & s' & E & W & Hc); [lia|lia|].
  exists r, s'. pose proof (w_words _ _ _ _ _ W) as Ww. split; [exact E|]. split; [done|]. split_and!.
  - intros ->. destruct Hc as [[_ ->]|[? _]]; [|done]. rewrite take_ge in W by lia.
    destruct (copyin_loop_ok s' root T (Z.to_nat (Z.of_nat (length src))) va (Z.of_nat (length src))) as (r & l & E' & Hl & Hc);
      [by rewrite Ww|lia..|]. unfold copyin. rewrite E'. do 2 f_equal.
    assert (∀ i x, src !! i = Some x → ubase (words s) T (vpn (va + Z.of_nat i)) ≠ 0 ∧ bytes s' (phys (words s) T (va + Z.of_nat i)) = x) as Hin
      by apply (w_in _ _ _ _ _ W).
    destruct Hc as [[-> Hc]|(-> & Hc & Hz)].
    + f_equal. apply list_eq. intros i. destruct (l !! i) as [x|] eqn:El.
      * destruct (Hl _ _ El) as [_ ->]. pose proof (lookup_lt_Some _ _ _ El). rewrite Ww.
        destruct (lookup_lt_is_Some_2 src i) as [y Hy]; [lia|]. rewrite Hy. destruct (Hin _ _ Hy) as [_ ->]. done.
      * apply lookup_ge_None in El. symmetry. apply lookup_ge_None. lia.
    + exfalso. destruct (lookup_lt_is_Some_2 src (length l)) as [y Hy]; [lia|]. destruct (Hin _ _ Hy) as [Hb _].
      by rewrite Ww in Hz.
  - intros b Hb. apply (w_out _ _ _ _ _ W). intros i Hi. rewrite length_take in Hi. apply Hb. lia.
  - destruct Hc as [[-> _]|[-> _]]; [by right|by left].
  - destruct Hc as [[-> ->]|(-> & Hc & Hz)]; split.
    + intros _ i Hi. rewrite take_ge in W by lia. destruct (lookup_lt_is_Some_2 src (Z.to_nat i)) as [x Hx]; [lia|].
      destruct (w_in _ _ _ _ _ W _ _ Hx) as [Hb _]. by rewrite Z2Nat.id in Hb by lia.
    + done.
    + done.
    + intros Hall. by destruct (Hall (Z.of_nat n) ltac:(lia)).
Qed.
End copy.
End VmCopy.
