(* ===== verification/VmUser.v ===== *)
(** * Virtual memory implements the interface of the file system

    [copyout] and [copyin] of kernel/vm.c on a page table whose user pages are
    distinct frames keep the laws of [UserMem]. *)

From S2P Require Import Prelude PageAlloc Vm VmTables VmProofs VmSpace VmCopy UserMem.
Import UserMem PageAlloc Vm VmTables VmProofs VmSpace VmCopy.

Module VmUser.

Section instance.
Context {S : Type} `{PA : PageAllocator S} (root : Z) (T : gmap (nat * Z) Z).
#[local] Abbreviation st := (Vm.st S).

(** The byte at a user address. *)
Definition user_byte (s : st) (a : Z) : option Z :=
  if ubase (words s) T (vpn a) =? 0 then None else Some (bytes s (phys (words s) T a)).

Record user_view (s : st) (mem : Z → option Z) : Prop := {
  uv_pt : pt (words s) root T;
  uv_unshared : unshared (words s) T;
  uv_mem a : mem a = user_byte s a }.

Lemma user_view_ext s mem mem' : user_view s mem → (∀ p, mem p = mem' p) → user_view s mem'.
Proof. intros [] H. constructor; [done..|]. intros a. by rewrite <- H. Qed.

Lemma user_some s mem a x : user_view s mem → ubase (words s) T (vpn a) ≠ 0 → x = bytes s (phys (words s) T a) → mem a = Some x.
Proof. intros [] Hb ->. rewrite uv_mem0. unfold user_byte. by rewrite (proj2 (Z.eqb_neq _ 0) Hb). Qed.
Lemma user_none s mem a : user_view s mem → ubase (words s) T (vpn a) = 0 → mem a = None.
Proof. intros [] Hb. rewrite uv_mem0. unfold user_byte. by rewrite Hb. Qed.

Lemma vm_copyin s mem va n : user_view s mem → 0 ≤ va → 0 ≤ n → va + n ≤ 2 ^ 64 →
  ∃ r l, copyin root va n s = Ok ((r, l), s) ∧ (∀ i x, l !! i = Some x → mem (va + Z.of_nat i) = Some x) ∧
    (r = 0 ∧ Z.of_nat (length l) = n ∨ r = -1 ∧ Z.of_nat (length l) < n ∧ mem (va + Z.of_nat (length l)) = None).
Proof.
  intros U Hva Hn Hmax. destruct (copyin_loop_ok s root T (Z.to_nat n) va n (uv_pt _ _ U)) as (r & l & E & Hl & Hc); [lia..|].
  exists r, l. split; [exact E|]. split; [intros i x Hx; destruct (Hl i x Hx); by eapply user_some|].
  destruct Hc as [?|(? & ? & ?)]; [by left|]. right. split_and!; [done..|by eapply user_none].
Qed.

Lemma vm_copyout s mem va l : user_view s mem → 0 ≤ va → va + Z.of_nat (length l) ≤ 2 ^ 64 →
  ∃ r n s', copyout root va l s = Ok (r, s') ∧ user_view s' (ustore mem va (take n l)) ∧ umapped mem va (Z.of_nat n) ∧
    (r = 0 ∧ n = length l ∨ r = -1 ∧ (n < length l)%nat ∧ mem (va + Z.of_nat n) = None).
Proof.
  intros U Hva Hmax. pose proof U as [Hpt Hu Hmem].
  destruct (copyout_loop_ok root T (length l) s va l Hpt Hu Hva) as (r & n & s' & E & [Ww Wa Wi Wo] & Hc); [lia|lia|].
  assert (n ≤ length l)%nat as Hn by (destruct Hc as [[_ ->]|(_ & ? & _)]; lia).
  exists r, n, s'. split; [exact E|]. split; [|split].
  - constructor; [by rewrite Ww..|]. intros a. unfold user_byte. rewrite Ww.
    destruct (decide (va ≤ a < va + Z.of_nat (length (take n l)))) as [Ha|Ha].
    + destruct (lookup_lt_is_Some_2 (take n l) (Z.to_nat (a - va))) as [x Hx]; [lia|]. destruct (Wi _ _ Hx) as [Hb Hv]. cbv zeta in *.
      pose proof (ustore_in _ mem va _ _ Hx) as Hs. replace (va + Z.of_nat (Z.to_nat (a - va))) with a in * by lia.
      rewrite Hs, (proj2 (Z.eqb_neq _ 0) Hb), Hv. done.
    + rewrite ustore_out by done. rewrite Hmem. unfold user_byte. destruct (Z.eqb_spec (ubase (words s) T (vpn a)) 0) as [|Hb]; [done|].
      f_equal. symmetry. apply Wo. intros i Hi Eq. apply phys_inj in Eq; [|done|done]. lia.
  - intros p Hp. destruct (lookup_lt_is_Some_2 (take n l) (Z.to_nat (p - va))) as [x Hx]; [rewrite length_take; lia|].
    destruct (Wi _ _ Hx) as [Hb _]. cbv zeta in Hb. replace (va + Z.of_nat (Z.to_nat (p - va))) with p in Hb by lia.
    by erewrite user_some.
  - destruct Hc as [?|(? & ? & ?)]; [by left|]. right. split_and!; [done..|by eapply user_none].
Qed.

#[export] Instance vm_user : UserMemory st := {|
  UserMem.copyout := copyout root; UserMem.copyin := copyin root; uinv := user_view;
  uinv_ext := user_view_ext; UserMem.copyout_ok := vm_copyout; UserMem.copyin_ok := vm_copyin |}.
End instance.
End VmUser.
