(* ===== verification/VmInst.v ===== *)
(** * Virtual memory on concrete allocators

    Instances of the theorems on address spaces: with a list of free pages as
    the allocator, and with the buddy allocator of the kernel. *)

From S2P Require Import Prelude PageAlloc Vm VmTables VmProofs VmSpace VmFree VmCopy Buddy BuddyProps.
Import PageAlloc Vm VmTables VmProofs VmSpace VmFree VmCopy.

Module VmInst.

(** ** A free list *)

Definition pool_inv (l : list Z) (P : gset Z) : Prop :=
  NoDup l ∧ (∀ p, p ∈ l → is_page p ∧ p ∉ P) ∧ (∀ p, p ∈ P → is_page p).
Definition pool_alloc : prog (list Z) Z := λ l, match l with [] => Ok (0, []) | p :: l' => Ok (p, l') end.
Definition pool_free (a : Z) : prog (list Z) unit := λ l, Ok (tt, a :: l).

Lemma pool_alloc_ok l P : pool_inv l P → ∃ a l', pool_alloc l = Ok (a, l') ∧
  ((a = 0 ∧ pool_inv l' P) ∨ (is_page a ∧ a ∉ P ∧ pool_inv l' ({[a]} ∪ P))).
Proof.
  intros (Hn & Hl & HP). destruct l as [|p l]; [exists 0, []; split; [done|left; done]|].
  apply list.NoDup_cons in Hn as [Hp Hn]. destruct (Hl p) as [Hpp HpP]; [apply list_elem_of_here|].
  exists p, l. split; [done|right]. split_and!; [done|done|]. split_and!; [done| |].
  - intros q Hq. destruct (Hl q) as [? ?]; [by apply list_elem_of_further|]. split; [done|]. set_solver.
  - set_solver.
Qed.
Lemma pool_free_ok l P a : pool_inv l P → a ∈ P → ∃ l', pool_free a l = Ok (tt, l') ∧ pool_inv l' (P ∖ {[a]}).
Proof.
  intros (Hn & Hl & HP) Ha. exists (a :: l). split; [done|]. split_and!.
  - apply list.NoDup_cons. split; [|done]. intros Hin. by apply (Hl a).
  - intros p [->|Hp]%elem_of_cons; [split; [by apply HP|set_solver]|]. destruct (Hl p Hp). split; [done|set_solver].
  - set_solver.
Qed.

#[local] Instance pool_pages : PageAllocator (list Z) := {|
  pg_alloc := pool_alloc; pg_free := pool_free; pg_inv := pool_inv;
  pg_alloc_ok := pool_alloc_ok; pg_free_ok := pool_free_ok |}.

(** The [i]-th page above 0x87000000. *)
Definition pg (i : Z) : Z := 2264924160 + 4096 * i.
Lemma pg_page i : 0 ≤ i < 4096 → is_page (pg i).
Proof.
  intros Hi. unfold is_page, pg, PGSIZE, PHYSTOP. split; [|lia].
  replace (2264924160 + 4096 * i) with ((552960 + i) * 4096) by lia. by rewrite Z.mod_mul.
Qed.

(** ** An address space with one page *)

(** Tables [pg 2], [pg 1], [pg 0], and the frame [pg 3] at address 0. *)
Definition words1 : Z → Z :=
  <[pg 2 := leaf (pg 1) 0]> (<[pg 1 := leaf (pg 0) 0]> (<[pg 0 := leaf (pg 3) 22]> (λ _, 0))).
Definition T1 : tables := {[(2%nat, 0) := pg 2; (1%nat, 0) := pg 1; (0%nat, 0) := pg 0]}.

Lemma T1_Some l k p : T1 !! (l, k) = Some p → k = 0 ∧ (l ≤ 2)%nat ∧ p = pg (Z.of_nat l).
Proof.
  unfold T1. rewrite !lookup_insert_Some, lookup_singleton_Some.
  intros [[[= <- <-] <-]|[_ [[[= <- <-] <-]|[_ [[= <- <-] <-]]]]]; (split_and!; [done|lia|done]).
Qed.
Lemma T1_get l : (l ≤ 2)%nat → T1 !! (l, 0) = Some (pg (Z.of_nat l)).
Proof. intros Hl. destruct l as [|[|[|l]]]; [reflexivity..|lia]. Qed.
Lemma T1_None l k : (k ≠ 0 ∨ 2 < l)%nat → T1 !! (l, Z.of_nat k) = None.
Proof.
  intros H. destruct (T1 !! (l, Z.of_nat k)) eqn:E; [|done]. apply T1_Some in E as (? & ? & _). lia.
Qed.

Lemma words1_other a : a ≠ pg 2 → a ≠ pg 1 → a ≠ pg 0 → words1 a = 0.
Proof. intros ???. unfold words1. by rewrite !fn_lookup_insert_ne by done. Qed.

Lemma pt1 : pt words1 (pg 2) T1.
Proof.
  constructor.
  - reflexivity.
  - intros [l k] p (-> & Hl & ->)%T1_Some. apply pg_page. lia.
  - intros l k p (-> & Hl & _)%T1_Some. split; [done|]. split; [done|]. apply Z.pow_pos_nonneg; lia.
  - intros l k p i (-> & Hl & ->)%T1_Some Hi. rewrite Z.mul_0_r, Z.add_0_l.
    destruct (decide (i = 0)) as [->|Hne].
    + rewrite T1_get by lia. rewrite Z.mul_0_r, Z.add_0_r. destruct l as [|[|l]]; [reflexivity|reflexivity|lia].
    + rewrite <- (Z2Nat.id i), T1_None by lia. apply words1_other; unfold pg; lia.
  - intros l k p (-> & Hl & _)%T1_Some Hlt. change (0 `div` 512) with 0. rewrite T1_get by lia. by eexists.
  - intros [l k] [l' k'] p (-> & Hl & ->)%T1_Some (-> & Hl' & Hp)%T1_Some. unfold pg in Hp. f_equal. lia.
Qed.

(** The pages [pg 4], ... are free. *)
Definition s1 : st (list Z) := mkSt words1 (λ a, a `mod` 256) (map pg (seqZ 4 4)).

Lemma s1_inv : pool_inv (al s1) (map_img T1 ∪ {[pg 3]}).
Proof.
  split_and!.
  - apply (bool_decide_unpack _). by vm_compute.
  - intros p (i & -> & Hi%elem_of_seqZ)%list_elem_of_fmap. split; [apply pg_page; lia|].
    rewrite elem_of_union, elem_of_singleton, elem_of_map_img. intros [([l k] & (-> & Hl & E)%T1_Some)|E]; unfold pg in E; lia.
  - intros p. rewrite elem_of_union, elem_of_singleton, elem_of_map_img. intros [([l k] & (-> & Hl & ->)%T1_Some)| ->]; apply pg_page; lia.
Qed.
Lemma as1 : aspace s1 (pg 2) T1 {[pg 3]}.
Proof.
  constructor; [apply pt1| |apply s1_inv]. intros x ([l k] & (-> & Hl & E)%T1_Some)%elem_of_map_img ->%elem_of_singleton.
  unfold pg in E. lia.
Qed.

Lemma pte1 j : 0 ≤ j → pte_at words1 T1 j = if decide (j = 0) then leaf (pg 3) 22 else 0.
Proof.
  intros Hj. unfold pte_at. destruct (T1 !! (0%nat, pos 0 j)) as [p|] eqn:E.
  - apply T1_Some in E as (Ep & _ & ->). destruct (decide (j = 0)) as [->|Hne]; [reflexivity|].
    pose proof (idx_bounds 0 j) as Hi. assert (idx 0 j ≠ 0).
    { intros E0. apply Hne, (pos0_idx j 0); [by rewrite Ep|by rewrite E0]. }
    apply words1_other; unfold pg; lia.
  - destruct (decide (j = 0)) as [->|]; [|done]. change (pos 0 0) with 0 in E. by rewrite T1_get in E by lia.
Qed.
Lemma pte1_neg j : j < 0 → pte_at words1 T1 j = 0 ∨ pos 0 j < 0.
Proof. intros Hj. right. unfold pos. apply Z.div_lt_upper_bound; [pow_pos|lia]. Qed.

Lemma ubase1 v : ubase words1 T1 v ≠ 0 → v = 0.
Proof.
  unfold ubase. destruct (Z.lt_ge_cases v 0) as [Hneg|Hv].
  - replace (pte_at words1 T1 v) with 0; [by rewrite andb_false_r|]. unfold pte_at.
    destruct (T1 !! (0%nat, pos 0 v)) as [p|] eqn:E; [|done]. apply T1_Some in E as (E & _).
    pose proof (Z.div_lt_upper_bound v (512 ^ (Z.of_nat 0 + 1)) 0 ltac:(pow_pos) ltac:(lia)). unfold pos in E. lia.
  - rewrite pte1 by done. destruct (decide (v = 0)); [done|]. by rewrite andb_false_r.
Qed.
Lemma unshared1 : unshared words1 T1.
Proof. intros v1 v2 H1 E. rewrite E in H1 at 1. pose proof (ubase1 v2 H1). rewrite <- E in H1. pose proof (ubase1 v1 H1). lia. Qed.

(** ** Instances of the theorems *)

Lemma uvmalloc_correct_witness : ∃ r fs s' T', uvmalloc (pg 2) 4096 8192 PTE_W s1 = Ok (r, s') ∧
  grown (pg 2) s1 T1 {[pg 3]} 1 (λ _, user_perm PTE_W) zeroed fs s' T'.
Proof.
  destruct (uvmalloc_correct (pg 2) s1 T1 {[pg 3]} 4096 8192 PTE_W as1 ltac:(lia) ltac:(done) ltac:(done)) as (r & fs & s' & T' & E & Hg & _).
  - intros j Hj. change (up 4096) with 1 in Hj. cbn [words s1]. rewrite pte1 by lia. destruct (decide (j = 0)); [lia|done].
  - exists r, fs, s', T'. exact (conj E Hg).
Defined.

Lemma uvmcopy_correct_witness : ∃ new s2 T2 r fs s' T', uvmcreate s1 = Ok (new, s2) ∧ uvmcopy (pg 2) new 4096 s2 = Ok (r, s') ∧
  grown new s2 T2 (map_img T1 ∪ {[pg 3]}) 0 (λ j, PTE_FLAGS (pte_at (words s2) T1 j))
      (λ j off, bytes s2 (PTE2PA (pte_at (words s2) T1 j) + off)) fs s' T'.
Proof.
  destruct (uvmcreate_ok s1 (map_img T1 ∪ {[pg 3]}) (as_inv _ _ _ _ as1)) as (new & s2 & E & _ & Hc).
  assert (new = pg 4 ∧ words s2 = λ a, if in_page (pg 4) a then 0 else words1 a) as [-> Ew].
  { unfold uvmcreate, kalloc in E. injection E as <- <-. done. }
  destruct Hc as [[? _]|(_ & Hfresh & Has & Hz)]; [done|].
  destruct (pt_frame s1 s2 (pg 2) T1 {[pg 4]}) as [Hpt Hsame].
  { intros p i Hp Hpg Hi. rewrite Ew. rewrite entry_in_page by (done || (apply pg_page; lia)). rewrite bool_decide_false; [done|]. set_solver. }
  { set_solver. }
  { apply pt1. }
  exists (pg 4), s2, {[(2%nat, 0) := pg 4]}.
  destruct (uvmcopy_correct (pg 2) (pg 4) s2 T1 {[(2%nat, 0) := pg 4]} (map_img T1 ∪ {[pg 3]}) 4096 Has Hpt ltac:(set_solver) ltac:(done))
    as (r & fs & s' & T' & E' & Hg & _).
  - intros j Hj. change (up 4096) with 1 in Hj. replace j with 0 by lia. rewrite Hz, Hsame. split_and!; [|apply (pg_page 3); lia|set_solver|done].
    by vm_compute.
  - by exists r, fs, s', T'.
Defined.

Lemma copyin_correct_witness : ∃ r l, copyin (pg 2) 4094 4 s1 = Ok ((r, l), s1).
Proof.
  destruct (copyin_correct s1 (pg 2) T1 4094 4 pt1 ltac:(lia) ltac:(lia) ltac:(lia)) as (r & l & E & _). by exists r, l.
Defined.

Lemma copyout_copyin_witness : ∃ r s', copyout (pg 2) 100 [7; 8; 9] s1 = Ok (r, s') ∧
  (r = 0 → copyin (pg 2) 100 3 s' = Ok ((0, [7; 8; 9]), s')).
Proof.
  destruct (copyout_copyin s1 (pg 2) T1 100 [7; 8; 9] pt1 unshared1 ltac:(lia) ltac:(cbn; lia)) as (r & s' & E & _ & H & _).
  exists r, s'. exact (conj E H).
Defined.

(** On the kernel's own allocator, from boot. *)
#[local] Instance kernel_pages : PageAllocator BuddyAlloc.state := BuddyProps.buddy_pages 2147500000.
Lemma uvm_no_leak_witness : ∃ s s', (root ← uvmcreate (S := BuddyAlloc.state);
         if root =? 0 then skip
         else
           r ← uvmalloc root 0 20000 PTE_W;
           uvmfree root r) s = Ok (tt, s').
Proof.
  destruct BuddyProps.fresh_heap as (b & HI & Es).
  assert (pg_inv b ∅) as Hb.
  { split; [rewrite Es; lia|]. eexists. split; [exact HI|]. intros a Ha. destruct (not_elem_of_empty _ Ha). }
  destruct (uvm_no_leak (mkSt (λ _, 0) (λ _, 0) b) ∅ 20000 PTE_W Hb ltac:(done) ltac:(done))
    as (s' & E & _). by eexists _, s'.
Defined.
End VmInst.
