(* ===== verification/FsRun.v ===== *)
(** * A file system that runs

    A small disk with a root directory and a file, under the log of kernel/log.c
    and the buffer cache of kernel/bio.c, with the page table of a process as
    user memory.  The theorems about the file system apply to it. *)

From S2P Require Import Prelude Bytes PageAlloc Vm VmTables VmProofs VmSpace VmCopy VmInst BufCache Bio BioProofs Log LogProofs LogSpec Journal LogJournal UserMem VmUser.
From S2P Require Import Fs FsBlocks FsMap FsFile FsWrite FsInode FsState FsOps FsTrunc FsTable FsDir FsPath FsProps FsSafe.
Import LogJournal VmUser Bytes Journal UserMem Fs FsBlocks FsMap FsFile FsWrite FsInode FsState FsOps FsTrunc FsTable FsDir FsPath FsProps FsSafe.
Import BufCache (block, BSIZE, ROOTDEV, zero_blk, NBUF, disk_at, disk_ok).

Module FsRun.

(** Block 0 is for booting, 1 is the super block, 2 to 31 are the log, 32 has
    the inodes and 33 the bitmap; block 34 is the root directory, 35 the contents
    of the file. *)
Definition sb0 : superblock := mkSb FSMAGIC 64 30 16 30 2 32 33.
Definition root0 : inode := mkInode ROOTDEV 1 1 false true T_DIR 0 0 1 48 (34 :: replicate 12 0).
Definition file0 : inode := mkInode ROOTDEV 2 1 false true T_FILE 0 0 1 5 (35 :: replicate 12 0).
Definition pad (l : list Z) : block := l ++ replicate (BSIZE - length l) 0.
Definition inodes0 : block := dinode_put (dinode_put zero_blk (dinode_off 1) root0) (dinode_off 2) file0.
Definition bitmap0 : block := pad [255; 255; 255; 255; 15].
Definition dir0 : block := pad (new_entry [46] 1 ++ new_entry [46; 46] 1 ++ new_entry [102] 2).
Definition data0 : block := pad [104; 101; 108; 108; 111].
Definition d0 : gmap Z block := {[32 := inodes0; 33 := bitmap0; 34 := dir0; 35 := data0]}.
Definition v0 : Z → block := disk_at d0.

#[local] Existing Instance BioProofs.bio_cache.
(** The process is in an operation that has logged nothing so far. *)
Definition log0 : Log.log := Log.mkLog false 2 30 1 0 ROOTDEV 0 (replicate 30 0).
Definition a0 : jabs := mkJ v0 v0 [] [] 29 (LogProofs.in_log log0).
Definition free0 : inode := mkInode 0 0 0 false false 0 0 0 0 0 (replicate 13 0).
Definition s0 : @Fs.fst_ (@Log.st Bio.state) (Vm.st (list Z)) :=
  mkFs sb0 (root0 :: file0 :: replicate 48 free0) false (log0, BufCache.bc_boot d0) VmInst.s1.
#[local] Existing Instance VmInst.pool_pages.
#[local] Instance um0 : UserMemory (Vm.st (list Z)) := vm_user (VmInst.pg 2) VmInst.T1.

Lemma disk0_ok : disk_ok d0.
Proof.
  intros n. unfold disk_at, d0.
  repeat (rewrite lookup_insert; case_decide; [by vm_compute|]). destruct (decide (n = 35)) as [->|Hne]; [by vm_compute|]. by rewrite lookup_singleton_ne.
Qed.

Lemma linked_start d : disk_ok d → linked (log0, BufCache.bc_boot (S := Bio.state) d) (mkJ (disk_at d) (disk_at d) [] [] 29 (LogProofs.in_log log0)).
Proof.
  intros Hd. constructor; try done.
  - constructor; try done; [constructor|]. intros x Hx. by apply not_elem_of_nil in Hx.
  - apply NoDup_nil_2.
  - exists []. eapply BufCache.bc_eq; [by apply BufCache.bc_boot_ok|]. by constructor.
Qed.
Lemma linked0 : jinv (jn s0) a0.
Proof. exact (linked_start d0 disk0_ok). Qed.

(** A check of all numbers of a range. *)
Lemma all_below (P : Z → bool) lo n : forallb P (seqZ lo n) = true → ∀ x, lo ≤ x < lo + n → P x = true.
Proof. intros H x Hx. rewrite forallb_forall in H. apply H, list_elem_of_In, elem_of_seqZ. lia. Qed.

Lemma used0 b : 0 ≤ b < 64 → used_blk sb0 v0 b = (b <? 36).
Proof. intros Hb. apply eqb_prop. revert b Hb. apply (all_below (λ b, Bool.eqb (used_blk sb0 v0 b) (b <? 36)) 0 64). by vm_compute. Qed.
Lemma bblock0 b : 0 ≤ b < 64 → BBLOCK b sb0 = 33.
Proof. intros Hb. apply Z.eqb_eq. revert b Hb. apply (all_below (λ b, BBLOCK b sb0 =? 33) 0 64). by vm_compute. Qed.
Lemma iblock0 n : 0 ≤ n < 16 → IBLOCK n sb0 = 32.
Proof. intros Hb. apply Z.eqb_eq. revert n Hb. apply (all_below (λ n, IBLOCK n sb0 =? 32) 0 16). by vm_compute. Qed.
Lemma dn1 : dn sb0 v0 1 = mkInode 0 0 0 false false T_DIR 0 0 1 48 (34 :: replicate 12 0).
Proof. by vm_compute. Qed.
Lemma dn2 : dn sb0 v0 2 = mkInode 0 0 0 false false T_FILE 0 0 1 5 (35 :: replicate 12 0).
Proof. by vm_compute. Qed.
Lemma live0 n : live sb0 v0 n → n = 1 ∨ n = 2.
Proof.
  intros [Hn HT]. cbn in Hn. destruct (decide (n < 3)); [lia|]. exfalso. apply HT, Z.eqb_eq.
  revert n Hn HT n0. assert (∀ n, 3 ≤ n < 3 + 13 → (type (dn sb0 v0 n) =? 0) = true) as H by (apply all_below; by vm_compute).
  intros. apply H. lia.
Qed.
Lemma live1 : live sb0 v0 1.
Proof. split; [done|]. by rewrite dn1. Qed.
Lemma live2 : live sb0 v0 2.
Proof. split; [done|]. by rewrite dn2. Qed.
(** A file of one block. *)
Lemma ptr0 v b t : 0 ≤ t ≤ MAXFILE → ptr v (b :: replicate 12 0) t = if t =? 0 then b else 0.
Proof.
  intros Ht. unfold ptr. replace (ind (b :: replicate 12 0)) with 0 by done. cbn [Z.eqb].
  destruct (Z.eqb_spec t 0) as [->|Hne]; [done|]. destruct (Z.ltb_spec t NDIRECT) as [Hl|Hl]; [|by destruct (t =? MAXFILE)].
  replace (Z.to_nat t) with (Datatypes.S (Z.to_nat (t - 1))) by lia. cbn. apply (lookup_total_replicate_2 12). unfold NDIRECT in Hl. lia.
Qed.

Lemma node0 x b : inode_fits x → addrs x = b :: replicate 12 0 → b = 34 ∨ b = 35 → isize x ≤ BS → node_ok sb0 a0 x.
Proof.
  intros Hf Ha Hb Hs. assert (BS * 1 < MAXFILE * BS) as HM by done. constructor; try done; rewrite ?Ha; [| lia| |].
  - constructor; [done|..].
    + intros t Ht. cbn [j_view a0]. rewrite ptr0 by done. case_z; [|done]. intros _. cbn [size sb0].
      split; [lia|]. split; [rewrite used0 by lia; lia|]. split; [unfold a0, LogProofs.in_log; cbn; lia|]. intros c Hc. rewrite bblock0 by done. lia.
    + intros t1 t2 H1 H2. cbn [j_view a0]. rewrite !ptr0 by done. repeat case_z; try done; lia.
  - intros t Ht Hlt. assert (t = 0) as -> by (assert (0 < BS) by done; nia). rewrite ptr0 by done. cbn. lia.
  - intros t n Ht Hn. cbn [j_view a0 ninodes sb0] in *. rewrite ptr0, iblock0 by done. case_z; lia.
Qed.

Lemma wf0 : fs_wf sb0 a0.
Proof.
  constructor; try done.
  - constructor; try done; cbn [size sb0 j_view j_log a0].
    + intros b Hb. rewrite bblock0 by done. unfold LogProofs.in_log. cbn. lia.
    + intros b Hb. rewrite used0 by done. intros Hf%Z.ltb_ge. split; [unfold LogProofs.in_log; cbn; lia|]. intros c Hc. rewrite bblock0 by done. lia.
  - intros n Hn. assert (n `div` IPB < 16) by (cbn in Hn; apply Z.div_lt_upper_bound; unfold IPB; lia). cbn [inodestart sb0]. lia.
  - intros n Hn. cbn [ninodes sb0] in Hn. rewrite iblock0 by done. split; [|done]. constructor; try done; [unfold a0, LogProofs.in_log; cbn; lia|].
    intros c Hc. by rewrite bblock0.
  - intros n [->| ->]%live0; cbn [j_view a0]; [rewrite dn1|rewrite dn2]; (eapply node0; [constructor; try done; repeat constructor; done|done|lia|done]).
  - intros n m t u Hn%live0 Hm%live0 Hne Ht Hu. cbn [j_view a0]. unfold fptr.
    destruct Hn as [->| ->], Hm as [->| ->]; try done; rewrite dn1, dn2; cbn [addrs]; rewrite !ptr0 by done; repeat case_z; done.
Qed.

Lemma sync1 : synced sb0 v0 root0.
Proof. constructor; [done|apply live1|]. cbn [inum root0]. by rewrite dn1. Qed.
Lemma sync2 : synced sb0 v0 file0.
Proof. constructor; [done|apply live2|]. cbn [inum file0]. by rewrite dn2. Qed.

Lemma entry0 i x : inodes s0 !! i = Some x → i = 0%nat ∧ x = root0 ∨ i = 1%nat ∧ x = file0 ∨ (2 ≤ i)%nat ∧ x = free0.
Proof.
  cbn [inodes s0]. destruct i as [|[|i]]; cbn [lookup list_lookup]; [intros [= <-]; by left|intros [= <-]; by right; left|].
  intros [-> _]%lookup_replicate. right; right. split; [lia|done].
Qed.
Lemma table0 : table_ok sb0 v0 (inodes s0).
Proof.
  constructor; [done|..].
  - intros i x [[_ ->]|[[_ ->]|[_ ->]]]%entry0; cbn; lia.
  - intros i j x y [[-> ->]|[[-> ->]|[_ ->]]]%entry0 [[-> ->]|[[-> ->]|[_ ->]]]%entry0; cbn; done.
  - intros i x [[_ ->]|[[_ ->]|[_ ->]]]%entry0; [intros _ _; apply sync1|intros _ _; apply sync2|done].
  - intros i x [[_ ->]|[[_ ->]|[_ ->]]]%entry0; cbn; done.
  - intros i x [[_ ->]|[[_ ->]|[_ ->]]]%entry0; cbn; done.
Qed.
Lemma dir_root : dir_of sb0 v0 1 = [new_entry [46] 1; new_entry [46; 46] 1; new_entry [102] 2].
Proof. by vm_compute. Qed.
Lemma tree0 : tree_ok sb0 v0.
Proof.
  constructor.
  - intros n [->| ->]%live0; [by rewrite dn1|by rewrite dn2].
  - intros n nm m [->| ->]%live0; [intros _|by rewrite dn2]. rewrite dir_root. rewrite !lookup_name_cons, !new_entry_inum.
    repeat (destruct (matches _ _); [intros [= <-]; apply live1 || apply live2|]). done.
  - intros n [->| ->]%live0; [by rewrite dn1|by rewrite dn2].
Qed.
Lemma walk0 : walk_ok None s0 a0.
Proof.
  constructor; try done; [exact linked0|exact wf0|exact tree0|exact table0|..].
  - intros i x [[_ ->]|[[_ ->]|[_ ->]]]%entry0; done.
  - intros i x [[_ ->]|[[_ ->]|[_ ->]]]%entry0; [intros _; exact live1|intros _; exact live2|done].
Qed.
Lemma refs0 m : refs (inodes s0) m ≤ 2.
Proof.
  unfold refs. cbn [inodes s0 tally]. assert (∀ k, tally (λ x, if inum x =? m then ref x else 0) (replicate k free0) = 0) as ->.
  { induction k as [|k IH]; [done|]. cbn [replicate tally]. rewrite IH. by destruct (_ =? _). }
  repeat case_z; cbn; lia.
Qed.
Lemma room0 n (R : gset Z) : Z.of_nat (base.size R) ≤ 4 → n ≤ 25 → 33 ∈ R → room sb0 R a0 n.
Proof.
  intros HR Hn Hb. assert (charge R a0 ≤ 4) as Hc by (unfold charge, logged; cbn [j_dirty a0 list_to_set]; rewrite union_empty_l_L; lia).
  constructor; [|cbn [j_cap a0]; lia|cbn [j_held a0 length]; unfold NBUF; lia]. intros c Hc'. cbn [size sb0] in Hc'. by rewrite bblock0.
Qed.

(** ** The theorems about the file system at this state *)


Definition R0 : gset Z := {[33; 32]}.
Lemma R0_iblock n : 0 ≤ n < 16 → IBLOCK n sb0 ∈ R0.
Proof. intros Hn. rewrite iblock0 by done. unfold R0. set_solver. Qed.
Lemma room_file n : n ≤ 25 → room sb0 (R0 ∪ nz (ind (addrs file0))) a0 n.
Proof. intros Hn. apply room0; [by vm_compute|done|]. unfold R0. set_solver. Qed.
Lemma room_root n : n ≤ 25 → room sb0 (R0 ∪ nz (ind (addrs root0))) a0 n.
Proof. exact (room_file n). Qed.

Lemma writei_correct_witness : ∃ m j x', writei 1 (Kernel [1; 2; 3]) 4 3 s0 = Ok (m, with_jn j (with_inode 1 x' s0)) ∧ isize x' = Z.max 5 (4 + m).
Proof.
  pose proof (writei_correct s0 R0 a0 1%nat file0 (Kernel [1; 2; 3]) [1; 2; 3] 4 3 linked0 eq_refl wf0 eq_refl sync2
    ltac:(split; [cbn [gives]; reflexivity|by left]) ltac:(lia) ltac:(lia)
    (R0_iblock 2 ltac:(done)) (room_file (need (addrs file0) (span 4 3)) ltac:(by vm_compute))) as H.
  rewrite bool_decide_eq_true_2 in H by done. destruct H as (m & j & a' & x' & E & _ & _ & _ & Es & _). exists m, j, x'. exact (conj E Es).
Defined.

Lemma write_chunk_fits_witness : ∃ r s', writei 1 (Kernel (replicate 3072 7)) 5 3072 s0 = Ok (r, s').
Proof.
  destruct (write_chunk_fits s0 a0 1%nat file0 (Kernel (replicate 3072 7)) (replicate 3072 7) 5 3072 linked0 eq_refl wf0 eq_refl sync2
    ltac:(split; [cbn [gives]; reflexivity|left; by vm_compute]) ltac:(lia) ltac:(done) ltac:(done) eq_refl ltac:(done)) as (r & s' & a' & E & _). exists r, s'. exact E.
Defined.

Lemma dirlink_correct_witness : ∃ r s', dirlink 0 [103] 2 s0 = Ok (r, s').
Proof.
  destruct (dirlink_correct s0 R0 a0 0%nat root0 [103] 2 linked0 eq_refl wf0 eq_refl sync1 eq_refl eq_refl ltac:(lia)
    (R0_iblock 1 ltac:(done)) (room_root (need (addrs root0) 1) ltac:(by vm_compute)) ltac:(by vm_compute)) as (r & j & a' & x' & E & _). eexists r, _. exact E.
Defined.

Lemma iget_correct_witness : ∃ i y, iget ROOTDEV 2 s0 = Ok (i, with_inode i y s0) ∧ ref y = 2.
Proof.
  pose proof (iget_correct s0 v0 2 eq_refl table0 ltac:(done)) as H. rewrite bool_decide_eq_true_2 in H.
  - destruct H as (i & x & y & Hx & E & _ & _ & _ & Er & [[Hh _]|[Hr [_ Hno]]]); [intros i x [[_ ->]|[[_ ->]|[_ ->]]]%entry0; cbn; lia|..].
    + exists i, y. split; [exact E|]. rewrite Er. apply entry0 in Hx as [[_ ->]|[[_ ->]|[_ ->]]]; done.
    + by specialize (Hno 1%nat file0 eq_refl).
  - apply list.Exists_exists. exists file0. split; [|by right]. by apply (list_elem_of_lookup_2 _ 1).
Defined.
Lemma iput_correct_witness : ∃ s', iput 1 s0 = Ok (tt, s').
Proof.
  destruct (iput_correct s0 R0 a0 1%nat file0 linked0 eq_refl wf0 (room0 2 R0 ltac:(by vm_compute) ltac:(done) ltac:(unfold R0; set_solver)) (R0_iblock 2 ltac:(done)) eq_refl table0 eq_refl ltac:(done) eq_refl)
    as (j & a' & y & E & _). eexists. exact E.
Defined.
Lemma ialloc_correct_witness : ∃ r s', ialloc ROOTDEV T_FILE s0 = Ok (r, s').
Proof.
  destruct (ialloc_correct s0 R0 a0 T_FILE linked0 eq_refl wf0 (room0 1 R0 ltac:(by vm_compute) ltac:(done) ltac:(unfold R0; set_solver)) ltac:(done) ltac:(done) eq_refl table0)
    as (r & j & s' & E & _); [| |exists r, s'; exact E].
  - intros i x [[_ ->]|[[_ ->]|[_ ->]]]%entry0; cbn; lia.
  - apply list.Exists_exists. exists free0. split; [|done]. apply (list_elem_of_lookup_2 _ 2). done.
Defined.
Lemma namei_correct_witness : ∃ i s', namei 0 [47; 102] s0 = Ok (Some i, s').
Proof.
  destruct (namei_correct s0 a0 0%nat root0 [47; 102] walk0 eq_refl ltac:(done) ltac:(by vm_compute)) as (res & s' & E & _ & H).
  - intros m. pose proof (refs0 m). lia.
  - exact live1.
  - assert (resolve (sb s0) (j_view a0) (start [47; 102] root0) (components [47; 102]) = Some 2) as Eq by (vm_compute; reflexivity).
    rewrite Eq in H. destruct H as (_ & i & y & Ei & _). exists i, s'. rewrite Ei in E. exact E.
Defined.
Lemma fs_op_safe_witness : ∃ s', run (Iput 1) s0 = Ok (tt, s').
Proof.
  destruct (fs_op_safe s0 a0 (Iput 1)) as (s' & a' & E & _); [|exists file0|exists s'; exact E].
  - constructor; [exact linked0|done|done|exact wf0|exact table0].
  - split_and!; try done. exists R0. split; [by apply R0_iblock|]. by apply room_file; vm_compute.
Defined.
Lemma dinode_codec_witness : dinode_get (dinode_put zero_blk (dinode_off 3) file0) (dinode_off 3) free0 = mkInode 0 0 0 false false T_FILE 0 0 1 5 (35 :: replicate 12 0).
Proof.
  apply (dinode_codec zero_blk 3 file0 free0 4 free0); try done. constructor; try done. repeat constructor; done.
Defined.
End FsRun.
