(* ===== verification/FileRun.v ===== *)
(** * Open files that run

    The disk of [FsRun] with no operation in progress, a file that is open on
    it, and a process with one descriptor. *)

From S2P Require Import Prelude Bytes PageAlloc Vm VmTables VmProofs VmSpace VmCopy VmInst BufCache Bio BioProofs Log LogProofs LogSpec Journal LogTxn UserMem VmUser.
From S2P Require Import Fs FsBlocks FsMap FsFile FsWrite FsInode FsState FsOps FsTrunc FsTable FsDir FsSafe FsRest FsRun File FileProofs FileOps Sysfile SysfileProofs.
Import LogTxn VmUser Bytes Journal Txn UserMem Fs FsBlocks FsMap FsFile FsWrite FsInode FsState FsOps FsTrunc FsTable FsDir FsSafe FsRest File FileProofs FileOps.
Import FsRun (sb0, v0, d0, root0, file0, free0, disk0_ok, wf0, table0, live2).
Import BufCache (block, BSIZE, ROOTDEV).

Module FileRun.

#[local] Existing Instance BioProofs.bio_cache.
#[local] Existing Instance VmInst.pool_pages.
#[local] Instance um0 : UserMemory (Vm.st (list Z)) := vm_user (VmInst.pg 2) VmInst.T1.
(** No pipes and no devices. *)
#[local] Instance no_streams : Streams (Vm.st (list Z)) unit := {|
  pipeclose _ _ := skip; piperead _ _ _ := mret (-1); pipewrite _ _ _ := mret (-1); dev_read _ := None; dev_write _ := None |}.

Definition idle0 : Log.log := Log.mkLog false 2 30 0 0 ROOTDEV 0 (replicate 30 0).
Definition L0 : Z → Prop := LogProofs.in_log idle0.
Definition x0 : @Fs.fst_ (@Log.st Bio.state) (Vm.st (list Z)) :=
  mkFs sb0 (root0 :: file0 :: replicate 48 free0) false (idle0, BufCache.bc_boot d0) VmInst.s1.
Definition closed0 : file := mkFile FD_NONE 0 0 0 None None 0 0.
Definition open0 : file := mkFile FD_INODE 1 1 1 None (Some 1%nat) 2 0.
Definition s0 : @File.st (@Log.st Bio.state) (Vm.st (list Z)) unit := mkSt x0 (open0 :: replicate 99 closed0) false tt.

Lemma idle_start d : BufCache.disk_ok d → idle (idle0, BufCache.bc_boot (S := Bio.state) d) (BufCache.disk_at d) L0.
Proof.
  intros Hd. constructor; try done.
  - constructor; try done; [constructor|]. intros x Hx. by apply not_elem_of_nil in Hx.
  - exists []. apply (BufCache.bc_boot_ok d Hd).
Qed.
Lemma rest0 : at_rest x0 v0 L0.
Proof. constructor; [exact (idle_start d0 disk0_ok)|done|exact wf0|exact table0]. Qed.
Lemma opened0 : opened s0 v0 L0 0 1 open0 file0.
Proof. constructor; [exact rest0|done..|exact live2]. Qed.
Lemma mem0 : uinv (um x0) (user_byte VmInst.T1 VmInst.s1).
Proof. constructor; [exact VmInst.pt1|exact VmInst.unshared1|done]. Qed.

Lemma filealloc_correct_witness : ∃ f s', filealloc s0 = Ok (Some f, s').
Proof.
  pose proof (filealloc_correct s0 eq_refl) as H. destruct (filealloc s0) as [[[f|] s']| | |]; try done; [by exists f, s'|].
  destruct H as [_ H]. rewrite list.Forall_forall in H. exfalso. apply (H closed0); [|done]. by apply (list_elem_of_lookup_2 _ 1).
Defined.
(** Three bytes are written, and none from an address that is not mapped. *)
Lemma filewrite_correct_witness : (∃ r s', filewrite 0 100 3 s0 = Ok (r, s')) ∧ ∃ s', filewrite 0 8192 3 s0 = Ok (-1, s').
Proof.
  split.
  - destruct (filewrite_correct s0 v0 L0 0 1 open0 file0 100 [100; 101; 102] 3 opened0 eq_refl ltac:(done) ltac:(done)) as (r & m & s' & v' & y' & E & _); [|done|exists r, s'; exact E].
    split; [|by left]. split; [lia|]. split; [done|]. exists (user_byte VmInst.T1 VmInst.s1). split; [exact mem0|].
    intros [|[|[|i]]] x Hx; try done; injection Hx as <-; by vm_compute.
  - destruct (filewrite_correct s0 v0 L0 0 1 open0 file0 8192 [] 3 opened0 eq_refl ltac:(done) ltac:(done)) as (r & m & s' & v' & y' & E & _ & _ & _ & _ & _ & W & Hr); [|done|].
    + split; [split; [lia|]; split; [done|]; exists (user_byte VmInst.T1 VmInst.s1); split; [exact mem0|done]|]. right.
      split; [done|]. split; [by left|]. exists 8192, (user_byte VmInst.T1 VmInst.s1). split; [done|]. split; [done|]. split; [exact mem0|]. by vm_compute.
    + exists s'. destruct Hr as [[_ ->]|[-> _]]; [|exact E]. exfalso. pose proof (wn_len _ _ _ _ _ _ _ W) as H. cbn in H. lia.
Defined.
Lemma fileread_correct_witness : ∃ r s', fileread 0 200 10 s0 = Ok (r, s').
Proof.
  destruct (fileread_correct s0 v0 L0 0 1 open0 file0 200 10 (user_byte VmInst.T1 VmInst.s1) opened0 eq_refl ltac:(done) ltac:(done) ltac:(done) mem0 ltac:(done) ltac:(done))
    as (r & s' & y' & E & _). exists r, s'. exact E.
Defined.
Lemma fileclose_correct_witness : ∃ s', fileclose 0 s0 = Ok (tt, s').
Proof.
  destruct (fileclose_correct s0 v0 L0 0 1 open0 file0 opened0 eq_refl ltac:(by left) ltac:(done) ltac:(done)) as (s' & v' & y' & E & _). exists s'. exact E.
Defined.

(** ** A process with one descriptor on the file *)

Import Sysfile SysfileProofs.
#[local] Instance strings0 : Strings (Vm.st (list Z)) := {| copyinstr := Vm.copyinstr (VmInst.pg 2) |}.
#[local] Instance no_pipes : PipePages unit := {| pipe_new := mret None |}.
Definition p0 : @Sysfile.st (@Log.st Bio.state) (Vm.st (list Z)) unit := Sysfile.mkSt s0 (Some 0%nat :: replicate 15 None) 0 [0; 0; 0; 0; 0; 0].

Lemma fd_inv0 : fd_inv (λ _, 0) p0.
Proof.
  constructor; try done.
  - intros f n. unfold frefs. cbn [fl p0 files s0]. destruct f as [|f]; cbn [fmap list_fmap lookup list_lookup]; [intros [= <-]; by vm_compute|].
    change (list_fmap file Z fref (replicate 99 closed0)) with (fref <$> replicate 99 closed0). rewrite fmap_replicate. intros [-> _]%lookup_replicate.
    assert (∀ k, uses (replicate k None) (S f) = 0) as E by (induction k as [|k IH]; [done|]; cbn; unfold use1; rewrite bool_decide_false by done; lia).
    cbn [ofile p0 uses]. rewrite E. unfold use1. by rewrite bool_decide_false.
  - intros f. cbn [ofile p0]. rewrite elem_of_cons. intros [[= ->]|[? _]%elem_of_replicate]; [cbn; lia|done].
Qed.
Lemma fd_refs_exact_witness : ∃ s', run_calls [sys_dup; sys_close] p0 = Ok (tt, s') ∧ fd_inv (λ _, 0) s'.
Proof.
  destruct (run_calls [sys_dup; sys_close] p0) as [[[] s']| | |] eqn:E; [|vm_compute in E; discriminate..]. exists s'. split; [done|].
  apply (fd_refs_exact (λ _, 0) [sys_dup; sys_close] p0 s'); [intros f; lia|exact fd_inv0|repeat constructor|exact E].
Defined.
Lemma sys_dup_correct_witness : ∃ fd s', sys_dup p0 = Ok (fd, s').
Proof.
  pose proof (sys_dup_correct (λ _, 0) p0 0 ltac:(intros f; lia) fd_inv0 eq_refl) as H. change (fd_file p0 0) with (Some 0%nat) in H. cbv beta iota in H.
  destruct (decide (None ∈ ofile p0)); [destruct H as (fd & x & E & _); by eexists fd, _|by eexists (-1), _].
Defined.
End FileRun.
