(* ===== verification/Proc.v ===== *)
(** * Processes and namespaces (kernel/proc.c, kernel/sysproc.c)

    The process table, the namespace nodes, and every operation of proc.c as
    seen by one CPU that runs process [me].  A lock is a flag, with the count
    [noff] of locks this CPU holds: acquiring a lock twice panics.  A call that
    sleeps is a sequence of runs: the run up to [sched] releases what the
    scheduler releases.  Memory is that of [Vm]; the operations of the file
    system that processes use are parameters. *)

From S2P Require Import Prelude PageAlloc Strings Vm.
Import PageAlloc.

Module Proc.

Definition NPROC : Z := 64.
Definition NNMND : Z := 64.
Definition NOFILE : Z := 16.

Inductive procstate := UNUSED | USED | SLEEPING | RUNNABLE | RUNNING | ZOMBIE.
#[global] Instance procstate_eq_dec : EqDecision procstate.
Proof. solve_decision. Defined.
Definition state_num (x : procstate) : Z :=
  match x with UNUSED => 0 | USED => 1 | SLEEPING => 2 | RUNNABLE => 3 | RUNNING => 4 | ZOMBIE => 5 end.

(** [struct namespace_node]; pointers are indices of [proc] and [nodes]. *)
Record node := mkNode {
  cnt_proc : Z;
  last_pid : Z;
  ninit : option nat;
  head : option nat;
  depth : Z }.

(** [struct proccess_info] *)
Record info := mkInfo {
  i_state : Z;
  i_pid : Z;
  i_parent_pid : Z;
  i_sz : Z;
  i_cntOfile : Z;
  i_name : list Z;
  i_startTime : Z;
  i_lastStartTime : Z;
  i_cntChange : Z;
  i_totalTime : Z }.

(** [struct proc] *)
Record proc := mkProc {
  lock : bool;
  state : procstate;
  chan : Z;
  killed : Z;
  xstate : Z;
  pid : Z;
  namespace_pids : list Z;
  pnode : option nat;
  parent : option nat;
  kstack : Z;
  sz : Z;
  pagetable : Z;
  trapframe : Z;
  ofile : list (option nat);
  cwd : option nat;
  name : list Z;
  pinfo : info }.

Definition set_lock v p := mkProc v (state p) (chan p) (killed p) (xstate p) (pid p) (namespace_pids p) (pnode p) (parent p) (kstack p) (sz p) (pagetable p) (trapframe p) (ofile p) (cwd p) (name p) (pinfo p).
Definition set_state v p := mkProc (lock p) v (chan p) (killed p) (xstate p) (pid p) (namespace_pids p) (pnode p) (parent p) (kstack p) (sz p) (pagetable p) (trapframe p) (ofile p) (cwd p) (name p) (pinfo p).
Definition set_chan v p := mkProc (lock p) (state p) v (killed p) (xstate p) (pid p) (namespace_pids p) (pnode p) (parent p) (kstack p) (sz p) (pagetable p) (trapframe p) (ofile p) (cwd p) (name p) (pinfo p).
Definition set_killed v p := mkProc (lock p) (state p) (chan p) v (xstate p) (pid p) (namespace_pids p) (pnode p) (parent p) (kstack p) (sz p) (pagetable p) (trapframe p) (ofile p) (cwd p) (name p) (pinfo p).
Definition set_xstate v p := mkProc (lock p) (state p) (chan p) (killed p) v (pid p) (namespace_pids p) (pnode p) (parent p) (kstack p) (sz p) (pagetable p) (trapframe p) (ofile p) (cwd p) (name p) (pinfo p).
Definition set_pid v p := mkProc (lock p) (state p) (chan p) (killed p) (xstate p) v (namespace_pids p) (pnode p) (parent p) (kstack p) (sz p) (pagetable p) (trapframe p) (ofile p) (cwd p) (name p) (pinfo p).
Definition set_nspids v p := mkProc (lock p) (state p) (chan p) (killed p) (xstate p) (pid p) v (pnode p) (parent p) (kstack p) (sz p) (pagetable p) (trapframe p) (ofile p) (cwd p) (name p) (pinfo p).
Definition set_pnode v p := mkProc (lock p) (state p) (chan p) (killed p) (xstate p) (pid p) (namespace_pids p) v (parent p) (kstack p) (sz p) (pagetable p) (trapframe p) (ofile p) (cwd p) (name p) (pinfo p).
Definition set_parent v p := mkProc (lock p) (state p) (chan p) (killed p) (xstate p) (pid p) (namespace_pids p) (pnode p) v (kstack p) (sz p) (pagetable p) (trapframe p) (ofile p) (cwd p) (name p) (pinfo p).
Definition set_kstack v p := mkProc (lock p) (state p) (chan p) (killed p) (xstate p) (pid p) (namespace_pids p) (pnode p) (parent p) v (sz p) (pagetable p) (trapframe p) (ofile p) (cwd p) (name p) (pinfo p).
Definition set_sz v p := mkProc (lock p) (state p) (chan p) (killed p) (xstate p) (pid p) (namespace_pids p) (pnode p) (parent p) (kstack p) v (pagetable p) (trapframe p) (ofile p) (cwd p) (name p) (pinfo p).
Definition set_pagetable v p := mkProc (lock p) (state p) (chan p) (killed p) (xstate p) (pid p) (namespace_pids p) (pnode p) (parent p) (kstack p) (sz p) v (trapframe p) (ofile p) (cwd p) (name p) (pinfo p).
Definition set_trapframe v p := mkProc (lock p) (state p) (chan p) (killed p) (xstate p) (pid p) (namespace_pids p) (pnode p) (parent p) (kstack p) (sz p) (pagetable p) v (ofile p) (cwd p) (name p) (pinfo p).
Definition set_ofile v p := mkProc (lock p) (state p) (chan p) (killed p) (xstate p) (pid p) (namespace_pids p) (pnode p) (parent p) (kstack p) (sz p) (pagetable p) (trapframe p) v (cwd p) (name p) (pinfo p).
Definition set_cwd v p := mkProc (lock p) (state p) (chan p) (killed p) (xstate p) (pid p) (namespace_pids p) (pnode p) (parent p) (kstack p) (sz p) (pagetable p) (trapframe p) (ofile p) v (name p) (pinfo p).
Definition set_name v p := mkProc (lock p) (state p) (chan p) (killed p) (xstate p) (pid p) (namespace_pids p) (pnode p) (parent p) (kstack p) (sz p) (pagetable p) (trapframe p) (ofile p) (cwd p) v (pinfo p).
Definition set_pinfo v p := mkProc (lock p) (state p) (chan p) (killed p) (xstate p) (pid p) (namespace_pids p) (pnode p) (parent p) (kstack p) (sz p) (pagetable p) (trapframe p) (ofile p) (cwd p) (name p) v.

Definition set_cnt v n := mkNode v (last_pid n) (ninit n) (head n) (depth n).
Definition set_last v n := mkNode (cnt_proc n) v (ninit n) (head n) (depth n).
Definition set_ninit v n := mkNode (cnt_proc n) (last_pid n) v (head n) (depth n).

(** [pinfo] as [freeproc] resets it, and when a process is created. *)
Definition info_clear (i : info) : info :=
  mkInfo (state_num UNUSED) 0 0 0 0 (<[0%nat := 0]> (i_name i)) 0 0 0 0.
Definition info_start (pid ppid t : Z) (i : info) : info :=
  mkInfo (i_state i) pid ppid (i_sz i) (i_cntOfile i) (i_name i) t (i_lastStartTime i) (i_cntChange i) (i_totalTime i).
Definition info_run (i : info) : info :=
  mkInfo (i_state i) (i_pid i) (i_parent_pid i) (i_sz i) (i_cntOfile i) (i_name i) (i_startTime i) (i_lastStartTime i) (i32 (i_cntChange i + 1)) (i_totalTime i).
Definition info_last (t : Z) (i : info) : info :=
  mkInfo (i_state i) (i_pid i) (i_parent_pid i) (i_sz i) (i_cntOfile i) (i_name i) (i_startTime i) t (i_cntChange i) (i_totalTime i).
Definition info_total (t : Z) (i : info) : info :=
  mkInfo (i_state i) (i_pid i) (i_parent_pid i) (i_sz i) (i_cntOfile i) (i_name i) (i_startTime i) 0 (i_cntChange i) t.

Section proc.
Context {S F : Type} `{PA : PageAllocator S}.
Context (filedup fileclose idup iput : nat → prog F unit) (begin_op end_op : prog F unit) (root_inode : prog F nat).

(** The variables of proc.c, what this CPU holds, [ticks] of trap.c, the local
    variable of [scheduler], memory and file system. *)
Record kst := mkK {
  procs : list proc;
  used : list bool;
  nodes : list node;
  initproc : option nat;
  nextpid : Z;
  pid_lock : bool;
  wait_lock : bool;
  tickslock : bool;
  noff : Z;
  ticks : Z;
  xticksStart : Z;
  mem : Vm.st S;
  fs : F }.

Definition set_procs v k := mkK v (used k) (nodes k) (initproc k) (nextpid k) (pid_lock k) (wait_lock k) (tickslock k) (noff k) (ticks k) (xticksStart k) (mem k) (fs k).
Definition set_used v k := mkK (procs k) v (nodes k) (initproc k) (nextpid k) (pid_lock k) (wait_lock k) (tickslock k) (noff k) (ticks k) (xticksStart k) (mem k) (fs k).
Definition set_nodes v k := mkK (procs k) (used k) v (initproc k) (nextpid k) (pid_lock k) (wait_lock k) (tickslock k) (noff k) (ticks k) (xticksStart k) (mem k) (fs k).
Definition set_initproc v k := mkK (procs k) (used k) (nodes k) v (nextpid k) (pid_lock k) (wait_lock k) (tickslock k) (noff k) (ticks k) (xticksStart k) (mem k) (fs k).
Definition set_nextpid v k := mkK (procs k) (used k) (nodes k) (initproc k) v (pid_lock k) (wait_lock k) (tickslock k) (noff k) (ticks k) (xticksStart k) (mem k) (fs k).
Definition set_pid_lock v k := mkK (procs k) (used k) (nodes k) (initproc k) (nextpid k) v (wait_lock k) (tickslock k) (noff k) (ticks k) (xticksStart k) (mem k) (fs k).
Definition set_wait_lock v k := mkK (procs k) (used k) (nodes k) (initproc k) (nextpid k) (pid_lock k) v (tickslock k) (noff k) (ticks k) (xticksStart k) (mem k) (fs k).
Definition set_tickslock v k := mkK (procs k) (used k) (nodes k) (initproc k) (nextpid k) (pid_lock k) (wait_lock k) v (noff k) (ticks k) (xticksStart k) (mem k) (fs k).
Definition set_noff v k := mkK (procs k) (used k) (nodes k) (initproc k) (nextpid k) (pid_lock k) (wait_lock k) (tickslock k) v (ticks k) (xticksStart k) (mem k) (fs k).
Definition set_xticksStart v k := mkK (procs k) (used k) (nodes k) (initproc k) (nextpid k) (pid_lock k) (wait_lock k) (tickslock k) (noff k) (ticks k) v (mem k) (fs k).
Definition set_mem v k := mkK (procs k) (used k) (nodes k) (initproc k) (nextpid k) (pid_lock k) (wait_lock k) (tickslock k) (noff k) (ticks k) (xticksStart k) v (fs k).
Definition set_fs v k := mkK (procs k) (used k) (nodes k) (initproc k) (nextpid k) (pid_lock k) (wait_lock k) (tickslock k) (noff k) (ticks k) (xticksStart k) (mem k) v.

Definition on_mem {A} (m : prog (Vm.st S) A) : prog kst A := λ k,
  match m (mem k) with
  | Ok (a, v) => Ok (a, set_mem v k)
  | Panic e => Panic e | Fault => Fault | Spin => Spin
  end.
Definition on_fs {A} (m : prog F A) : prog kst A := λ k,
  match m (fs k) with
  | Ok (a, v) => Ok (a, set_fs v k)
  | Panic e => Panic e | Fault => Fault | Spin => Spin
  end.

Definition get_proc (i : nat) : prog kst proc := λ k,
  match procs k !! i with Some p => Ok (p, k) | None => Fault end.
Definition mod_proc (i : nat) (f : proc → proc) : prog kst unit := λ k,
  match procs k !! i with Some p => Ok (tt, set_procs (<[i := f p]> (procs k)) k) | None => Fault end.
(** An access through a pointer to a node. *)
Definition get_node (n : option nat) : prog kst node := λ k,
  match n with
  | Some j => match nodes k !! j with Some x => Ok (x, k) | None => Fault end
  | None => Fault
  end.
Definition mod_node (n : option nat) (f : node → node) : prog kst unit := λ k,
  match n with
  | Some j => match nodes k !! j with Some x => Ok (tt, set_nodes (<[j := f x]> (nodes k)) k) | None => Fault end
  | None => Fault
  end.
(** An access through a pointer to a process. *)
Definition deref (p : option nat) : prog kst nat := match p with Some i => mret i | None => fault end.

Definition acquire (i : nat) : prog kst unit :=
  p ← get_proc i;
  if lock p then panic "acquire"
  else mod_proc i (set_lock true);; modify (λ k, set_noff (noff k + 1) k).
Definition release (i : nat) : prog kst unit :=
  p ← get_proc i;
  if lock p then mod_proc i (set_lock false);; modify (λ k, set_noff (noff k - 1) k)
  else panic "release".
Definition acquire_wait : prog kst unit :=
  k ← get;
  if wait_lock k then panic "acquire" else modify (set_wait_lock true);; modify (λ k, set_noff (noff k + 1) k).
Definition release_wait : prog kst unit :=
  k ← get;
  if wait_lock k then modify (set_wait_lock false);; modify (λ k, set_noff (noff k - 1) k) else panic "release".
Definition acquire_pid : prog kst unit :=
  k ← get;
  if pid_lock k then panic "acquire" else modify (set_pid_lock true);; modify (λ k, set_noff (noff k + 1) k).
Definition release_pid : prog kst unit :=
  k ← get;
  if pid_lock k then modify (set_pid_lock false);; modify (λ k, set_noff (noff k - 1) k) else panic "release".
Definition acquire_ticks : prog kst unit :=
  k ← get;
  if tickslock k then panic "acquire" else modify (set_tickslock true);; modify (λ k, set_noff (noff k + 1) k).
Definition release_ticks : prog kst unit :=
  k ← get;
  if tickslock k then modify (set_tickslock false);; modify (λ k, set_noff (noff k - 1) k) else panic "release".
(** [acquire(&tickslock); xticks = ticks; release(&tickslock);] *)
Definition read_ticks : prog kst Z :=
  acquire_ticks;; k ← get; release_ticks;; mret (ticks k).

(** ** Namespaces *)

(** The chain of heads has at most [NNMND] nodes, which bounds the loop. *)
Fixpoint is_heir_loop (fuel : nat) (local other : option nat) : prog kst Z :=
  match fuel with
  | O => spin
  | Datatypes.S fuel' =>
      n ← get_node local;
      if 0 <? depth n then
        if bool_decide (local = other) then mret 1
        else is_heir_loop fuel' (head n) other
      else mret (b2z (bool_decide (local = other)))
  end.
Definition is_heir (one other : option nat) : prog kst Z :=
  is_heir_loop (Z.to_nat NNMND + 1) one other.

(** [p->namespace_pids[d]] *)
Definition nspid (p : proc) (d : Z) : prog kst Z :=
  if d <? 0 then fault
  else match namespace_pids p !! Z.to_nat d with Some x => mret x | None => fault end.

Fixpoint find_proc_loop (k : nat) (i : nat) (pid : Z) (n : option nat) : prog kst (option nat) :=
  match k with
  | O => mret None
  | Datatypes.S k' =>
      acquire i;;
      p ← get_proc i;
      nd ← get_node n;
      x ← nspid p (depth nd);
      h ← (if x =? pid then is_heir (pnode p) n else mret 0);
      if negb (h =? 0) then mret (Some i)
      else release i;; find_proc_loop k' (i + 1) pid n
  end.
Definition find_proc (pid : Z) (n : option nat) : prog kst (option nat) :=
  find_proc_loop (Z.to_nat NPROC) 0 pid n.

Definition get_pid (i : nat) (n : option nat) : prog kst Z :=
  p ← get_proc i;
  h ← is_heir (pnode p) n;
  if negb (h =? 0) then nd ← get_node n; nspid p (depth nd) else mret 0.

Definition get_ppid (i : nat) (n : option nat) : prog kst Z :=
  k ← get;
  if bool_decide (initproc k = Some i) then mret 0
  else p ← get_proc i; q ← deref (parent p); get_pid q n.

Fixpoint namespace_malloc_loop (k i : nat) : prog kst (option nat) :=
  match k with
  | O => mret None
  | Datatypes.S k' =>
      st ← get;
      match used st !! i with
      | None => fault
      | Some false => modify (set_used (<[i := true]> (used st)));; mret (Some i)
      | Some true => namespace_malloc_loop k' (i + 1)
      end
  end.
Definition namespace_malloc : prog kst (option nat) := namespace_malloc_loop 64 0.

Definition namespace_free (n : option nat) : prog kst unit :=
  match n with
  | Some i => modify (λ k, if bool_decide (i < 64)%nat then set_used (<[i := false]> (used k)) k else k)
  | None => skip
  end.

(** The chain of heads bounds the loop. *)
Fixpoint clean_node_loop (fuel : nat) (n : option nat) : prog kst unit :=
  match fuel with
  | O => spin
  | Datatypes.S fuel' =>
      nd ← get_node n;
      if negb (depth nd =? 0) && (cnt_proc nd =? 0) then
        namespace_free n;;
        clean_node_loop fuel' (head nd)
      else skip
  end.
Definition clean_node (n : option nat) : prog kst unit := clean_node_loop (Z.to_nat NNMND + 1) n.

(** [for (int i = depth; i >= 0; --i) { ++cnt_proc; namespace_pids[...] =
    last_pid++; local_node = head; }], [k] turns from [local]. *)
Fixpoint enter_loop (k : nat) (np : nat) (local : option nat) : prog kst unit :=
  match k with
  | O => skip
  | Datatypes.S k' =>
      mod_node local (λ n, set_cnt (i32 (cnt_proc n + 1)) n);;
      n ← get_node local;
      mod_node local (λ n, set_last (i32 (last_pid n + 1)) n);;
      p ← get_proc np;
      (if (depth n <? 0) || (Z.of_nat (length (namespace_pids p)) <=? depth n) then fault
       else mod_proc np (set_nspids (<[Z.to_nat (depth n) := last_pid n]> (namespace_pids p))));;
      enter_loop k' np (head n)
  end.
(** The loop of [exit] that leaves the namespaces. *)
Fixpoint leave_loop (k : nat) (local : option nat) : prog kst unit :=
  match k with
  | O => skip
  | Datatypes.S k' =>
      mod_node local (λ n, set_cnt (i32 (cnt_proc n - 1)) n);;
      n ← get_node local;
      leave_loop k' (head n)
  end.

(** ** Creating and freeing processes *)

Definition allocpid : prog kst Z :=
  acquire_pid;;
  k ← get;
  modify (set_nextpid (i32 (nextpid k + 1)));;
  release_pid;;
  mret (nextpid k).

Definition proc_pagetable (trampoline tf : Z) : prog (Vm.st S) Z :=
  pt ← Vm.uvmcreate;
  if pt =? 0 then mret 0
  else
    r ← Vm.mappages pt Vm.TRAMPOLINE PGSIZE trampoline (Z.lor Vm.PTE_R Vm.PTE_X);
    if r <? 0 then
      Vm.uvmfree pt 0;;
      mret 0
    else
      r ← Vm.mappages pt Vm.TRAPFRAME PGSIZE tf (Z.lor Vm.PTE_R Vm.PTE_W);
      if r <? 0 then
        Vm.uvmunmap pt Vm.TRAMPOLINE 1 false;;
        Vm.uvmfree pt 0;;
        mret 0
      else mret pt.

Definition proc_freepagetable (pt size : Z) : prog (Vm.st S) unit :=
  Vm.uvmunmap pt Vm.TRAMPOLINE 1 false;;
  Vm.uvmunmap pt Vm.TRAPFRAME 1 false;;
  Vm.uvmfree pt size.

Definition freeproc (i : nat) : prog kst unit :=
  p ← get_proc i;
  (if negb (trapframe p =? 0) then on_mem (Vm.kfree (trapframe p)) else skip);;
  mod_proc i (set_trapframe 0);;
  (if negb (pagetable p =? 0) then on_mem (proc_freepagetable (pagetable p) (sz p)) else skip);;
  mod_proc i (λ p, set_pagetable 0 p);;
  mod_proc i (λ p, set_sz 0 p);;
  mod_proc i (λ p, set_pid 0 p);;
  mod_proc i (λ p, set_parent None p);;
  mod_proc i (λ p, set_name (<[0%nat := 0]> (name p)) p);;
  mod_proc i (λ p, set_chan 0 p);;
  mod_proc i (λ p, set_killed 0 p);;
  mod_proc i (λ p, set_xstate 0 p);;
  mod_proc i (λ p, set_state UNUSED p);;
  mod_proc i (λ p, set_pinfo (info_clear (pinfo p)) p).

Fixpoint find_unused (k i : nat) : prog kst (option nat) :=
  match k with
  | O => mret None
  | Datatypes.S k' =>
      acquire i;;
      p ← get_proc i;
      if bool_decide (state p = UNUSED) then mret (Some i)
      else release i;; find_unused k' (i + 1)
  end.

(** [allocproc]; the context is set up to start in [forkret]. *)
Definition allocproc (trampoline : Z) : prog kst (option nat) :=
  r ← find_unused (Z.to_nat NPROC) 0;
  match r with
  | None => mret None
  | Some i =>
      x ← allocpid;
      mod_proc i (set_pid x);;
      mod_proc i (set_state USED);;
      tf ← on_mem Vm.kalloc;
      mod_proc i (set_trapframe tf);;
      if tf =? 0 then
        freeproc i;;
        release i;;
        mret None
      else
        pt ← on_mem (proc_pagetable trampoline tf);
        mod_proc i (set_pagetable pt);;
        if pt =? 0 then
          freeproc i;;
          release i;;
          mret None
        else mret (Some i)
  end.

Definition procinit : prog kst unit :=
  modify (set_pid_lock false);;
  modify (set_wait_lock false);;
  for_up (Z.to_nat NPROC) 0 (λ i,
    mod_proc (Z.to_nat i) (λ p, set_kstack (Vm.KSTACK i) (set_state UNUSED (set_lock false p)))).

(** The trapframe as 64-bit words: [epc] at 24, [sp] at 48, [a0] at 112. *)
Definition tf_set (tf off v : Z) : prog kst unit := on_mem (Vm.store (tf + off) v).
Definition tf_copy (dst src : Z) : prog kst unit :=
  modify (λ k, set_mem (Vm.mkSt
    (λ a, if (dst <=? a) && (a <? dst + 288) then Vm.words (mem k) (src + (a - dst)) else Vm.words (mem k) a)
    (Vm.bytes (mem k)) (Vm.al (mem k))) k).

(** [safestrcpy(dst, src, 16)] *)
Definition name_copy (dst src : list Z) : list Z :=
  let at_ a l := list_to_map (imap (λ i c, (a + Z.of_nat i, c)) l) : Strings.mem in
  let m := Strings.safestrcpy (at_ 0 (take 16 dst) ∪ at_ 16 src) 0 16 16 in
  map (λ i, Strings.rd m (Z.of_nat i)) (seq 0 16).
(** "initcode" *)
Definition initcode_name : list Z := [105; 110; 105; 116; 99; 111; 100; 101; 0].

Definition userinit (trampoline : Z) (initcode : list Z) : prog kst unit :=
  r ← allocproc trampoline;
  modify (set_initproc r);;
  i ← deref r;
  p ← get_proc i;
  on_mem (Vm.uvmfirst (pagetable p) initcode);;
  mod_proc i (set_sz PGSIZE);;
  tf_set (trapframe p) 24 0;;
  tf_set (trapframe p) 48 PGSIZE;;
  mod_proc i (λ p, set_name (name_copy (name p) initcode_name) p);;
  c ← on_fs root_inode;
  mod_proc i (set_cwd (Some c));;
  mod_proc i (set_state RUNNABLE);;
  t ← read_ticks;
  p ← get_proc i;
  mod_proc i (set_pinfo (info_start (pid p) (-1) t (pinfo p)));;
  n ← namespace_malloc;
  mod_proc i (set_pnode n);;
  mod_node n (λ _, mkNode 1 2 (Some i) None 0);;
  p ← get_proc i;
  mod_proc i (set_nspids (<[0%nat := 1]> (namespace_pids p)));;
  release i.

Definition growproc (me : nat) (n : Z) : prog kst Z :=
  p ← get_proc me;
  if 0 <? n then
    r ← on_mem (Vm.uvmalloc (pagetable p) (sz p) (u64 (sz p + n)) Vm.PTE_W);
    if r =? 0 then mret (-1)
    else mod_proc me (set_sz r);; mret 0
  else if n <? 0 then
    r ← on_mem (Vm.uvmdealloc (pagetable p) (sz p) (u64 (sz p + n)));
    mod_proc me (set_sz r);; mret 0
  else mod_proc me (set_sz (sz p));; mret 0.

(** The loop that duplicates the open files. *)
Fixpoint dup_loop (k : nat) (j me np : nat) : prog kst unit :=
  match k with
  | O => skip
  | Datatypes.S k' =>
      p ← get_proc me;
      match ofile p !! j with
      | None => fault
      | Some None => dup_loop k' (j + 1) me np
      | Some (Some f) =>
          on_fs (filedup f);;
          mod_proc np (λ q, set_ofile (<[j := Some f]> (ofile q)) q);;
          dup_loop k' (j + 1) me np
      end
  end.

(** What [fork] and [clone] have in common before the namespace is set. *)
Definition copy_proc (me np : nat) : prog kst Z :=
  p ← get_proc me;
  q ← get_proc np;
  r ← on_mem (Vm.uvmcopy (pagetable p) (pagetable q) (sz p));
  if r <? 0 then
    freeproc np;;
    release np;;
    mret (-1)
  else
    mod_proc np (set_sz (sz p));;
    tf_copy (trapframe q) (trapframe p);;
    tf_set (trapframe q) 112 0;;
    dup_loop (Z.to_nat NOFILE) 0 me np;;
    c ← deref (cwd p);
    on_fs (idup c);;
    mod_proc np (set_cwd (Some c));;
    mod_proc np (λ q, set_name (name_copy (name q) (name p)) q);;
    mret 0.

(** What they have in common after it. *)
Definition start_proc (me np : nat) : prog kst Z :=
  q ← get_proc np;
  p ← get_proc me;
  t ← read_ticks;
  mod_proc np (λ q, set_pinfo (info_start (pid q) (pid p) t (pinfo q)) q);;
  release np;;
  acquire_wait;;
  mod_proc np (set_parent (Some me));;
  release_wait;;
  acquire np;;
  mod_proc np (set_state RUNNABLE);;
  release np;;
  mret (pid q).

Definition fork (trampoline : Z) (me : nat) : prog kst Z :=
  r ← allocproc trampoline;
  match r with
  | None => mret (-1)
  | Some np =>
      r ← copy_proc me np;
      if r <? 0 then mret (-1)
      else
        p ← get_proc me;
        mod_proc np (set_pnode (pnode p));;
        n ← get_node (pnode p);
        enter_loop (Z.to_nat (depth n + 1)) np (pnode p);;
        start_proc me np
  end.

Definition clone (trampoline : Z) (me : nat) : prog kst Z :=
  r ← allocproc trampoline;
  match r with
  | None => mret (-1)
  | Some np =>
      r ← copy_proc me np;
      if r <? 0 then mret (-1)
      else
        n ← namespace_malloc;
        mod_proc np (set_pnode n);;
        p ← get_proc me;
        h ← get_node (pnode p);
        mod_node n (λ _, mkNode 0 1 (Some np) (pnode p) (i32 (depth h + 1)));;
        x ← get_node n;
        enter_loop (Z.to_nat (depth x + 1)) np n;;
        start_proc me np
  end.

(** ** Sleeping, waking and killing *)

(** [wakeup]: every process but the caller. *)
Fixpoint wakeup_loop (k i : nat) (me : option nat) (ch : Z) : prog kst unit :=
  match k with
  | O => skip
  | Datatypes.S k' =>
      (if bool_decide (me = Some i) then skip
       else
         acquire i;;
         p ← get_proc i;
         (if bool_decide (state p = SLEEPING) && (chan p =? ch) then mod_proc i (set_state RUNNABLE) else skip);;
         release i);;
      wakeup_loop k' (i + 1) me ch
  end.
Definition wakeup (me : option nat) (ch : Z) : prog kst unit := wakeup_loop (Z.to_nat NPROC) 0 me ch.

(** The channel of a process is its address. *)
Definition proc_chan (i : nat) : Z := 1 + Z.of_nat i.
Definition opt_chan (p : option nat) : Z := match p with Some i => proc_chan i | None => 0 end.

(** [sched] up to the switch, and the rest of the scheduler's turn, which
    records the time at which the process had been given the CPU. *)
Definition sched (me : nat) : prog kst unit :=
  p ← get_proc me;
  k ← get;
  if negb (lock p) then panic "sched p->lock"
  else if negb (noff k =? 1) then panic "sched locks"
  else if bool_decide (state p = RUNNING) then panic "sched running"
  else
    mod_proc me (λ p, set_pinfo (info_last (xticksStart k) (pinfo p)) p);;
    release me.

(** [sched] from the switch back on, which returns with [p->lock] held. *)
Definition sched_return (me : nat) : prog kst unit :=
  t ← read_ticks;
  mod_proc me (λ p, set_pinfo (info_total (i32 (i_totalTime (pinfo p) + u32 (t - i_lastStartTime (pinfo p)))) (pinfo p)) p).

Definition yield (me : nat) : prog kst unit :=
  acquire me;;
  mod_proc me (set_state RUNNABLE);;
  sched me.

(** [sleep(chan, lk)] up to the switch; [unlock] is [release(lk)]. *)
Definition sleep (me : nat) (ch : Z) (unlock : prog kst unit) : prog kst unit :=
  acquire me;;
  unlock;;
  mod_proc me (set_chan ch);;
  mod_proc me (set_state SLEEPING);;
  sched me.
(** The rest of [sleep], when the process runs again. *)
Definition sleep_return (me : nat) (relock : prog kst unit) : prog kst unit :=
  sched_return me;;
  mod_proc me (set_chan 0);;
  release me;;
  relock.

(** One step of the loop of [scheduler]: process [i] gets the CPU, with its lock
    held; the return is in the process. *)
Definition schedule (i : nat) : prog kst bool :=
  acquire i;;
  p ← get_proc i;
  if bool_decide (state p = RUNNABLE) then
    mod_proc i (set_state RUNNING);;
    t ← read_ticks;
    modify (set_xticksStart t);;
    mod_proc i (λ p, set_pinfo (info_run (pinfo p)) p);;
    mret true
  else release i;; mret false.

Fixpoint kill_loop (k i : nat) (x : Z) : prog kst Z :=
  match k with
  | O => mret (-1)
  | Datatypes.S k' =>
      acquire i;;
      p ← get_proc i;
      if pid p =? x then
        mod_proc i (set_killed 1);;
        (if bool_decide (state p = SLEEPING) then mod_proc i (set_state RUNNABLE) else skip);;
        release i;;
        mret 0
      else release i;; kill_loop k' (i + 1) x
  end.
Definition kill (x : Z) : prog kst Z := kill_loop (Z.to_nat NPROC) 0 x.

Definition setkilled (i : nat) : prog kst unit :=
  acquire i;; mod_proc i (set_killed 1);; release i.
Definition get_killed (i : nat) : prog kst Z :=
  acquire i;; p ← get_proc i; release i;; mret (killed p).

(** ** Exit and wait *)

(** The chain of heads bounds the loop. *)
Fixpoint new_init_loop (fuel : nat) (local dflt : option nat) : prog kst (option nat) :=
  match local with
  | None => mret dflt
  | Some _ =>
      match fuel with
      | O => spin
      | Datatypes.S fuel' =>
          n ← get_node local;
          match ninit n with
          | Some i => mret (Some i)
          | None => new_init_loop fuel' (head n) dflt
          end
      end
  end.

Fixpoint reparent_loop (k i : nat) (me : nat) (new_init : option nat) : prog kst unit :=
  match k with
  | O => skip
  | Datatypes.S k' =>
      p ← get_proc i;
      (if bool_decide (parent p = Some me) then
         mod_proc i (set_parent new_init);;
         st ← get;
         wakeup (Some me) (opt_chan (initproc st))
       else skip);;
      reparent_loop k' (i + 1) me new_init
  end.
Definition reparent (me : nat) : prog kst unit :=
  p ← get_proc me;
  n ← get_node (pnode p);
  (if bool_decide (ninit n = Some me) then mod_node (pnode p) (set_ninit None) else skip);;
  st ← get;
  ni ← new_init_loop (Z.to_nat NNMND + 1) (pnode p) (initproc st);
  reparent_loop (Z.to_nat NPROC) 0 me ni.

Fixpoint close_loop (k j me : nat) : prog kst unit :=
  match k with
  | O => skip
  | Datatypes.S k' =>
      p ← get_proc me;
      match ofile p !! j with
      | None => fault
      | Some None => close_loop k' (j + 1) me
      | Some (Some f) =>
          on_fs (fileclose f);;
          mod_proc me (λ q, set_ofile (<[j := None]> (ofile q)) q);;
          close_loop k' (j + 1) me
      end
  end.

(** [exit] up to the switch that never returns. *)
Definition exit (me : nat) (status : Z) : prog kst unit :=
  st ← get;
  if bool_decide (initproc st = Some me) then panic "init exiting"
  else
    close_loop (Z.to_nat NOFILE) 0 me;;
    p ← get_proc me;
    on_fs begin_op;;
    c ← deref (cwd p);
    on_fs (iput c);;
    on_fs end_op;;
    mod_proc me (set_cwd None);;
    acquire_wait;;
    n ← get_node (pnode p);
    leave_loop (Z.to_nat (depth n + 1)) (pnode p);;
    clean_node (pnode p);;
    reparent me;;
    p ← get_proc me;
    wakeup (Some me) (opt_chan (parent p));;
    acquire me;;
    mod_proc me (set_xstate status);;
    mod_proc me (set_state ZOMBIE);;
    release_wait;;
    sched me.

(** The bytes of an [int]. *)
Definition int_bytes (x : Z) : list Z :=
  let x := u32 x in [x `mod` 256; (x `div` 2 ^ 8) `mod` 256; (x `div` 2 ^ 16) `mod` 256; (x `div` 2 ^ 24) `mod` 256].
Definition long_bytes (x : Z) : list Z := int_bytes x ++ int_bytes (u64 x `div` 2 ^ 32).

(** How a scan of [wait] ends. *)
Inductive wres := WRet (r : Z) | WNone (havekids : bool).

Fixpoint wait_scan (k i me : nat) (addr : Z) (havekids : bool) : prog kst wres :=
  match k with
  | O => mret (WNone havekids)
  | Datatypes.S k' =>
      pp ← get_proc i;
      if bool_decide (parent pp = Some me) then
        acquire i;;
        pp ← get_proc i;
        if bool_decide (state pp = ZOMBIE) then
          p ← get_proc me;
          r ← (if negb (addr =? 0) then on_mem (Vm.copyout (pagetable p) addr (int_bytes (xstate pp))) else mret 0);
          if r <? 0 then
            release i;;
            release_wait;;
            mret (WRet (-1))
          else
            freeproc i;;
            release i;;
            release_wait;;
            mret (WRet (pid pp))
        else
          release i;;
          wait_scan k' (i + 1) me addr true
      else wait_scan k' (i + 1) me addr havekids
  end.

(** One turn of the loop of [wait], with [wait_lock] held: [None] when the
    process goes to sleep. *)
Definition wait_turn (me : nat) (addr : Z) : prog kst (option Z) :=
  r ← wait_scan (Z.to_nat NPROC) 0 me addr false;
  match r with
  | WRet v => mret (Some v)
  | WNone havekids =>
      kl ← (if havekids then get_killed me else mret 1);
      if negb (kl =? 0) then
        release_wait;;
        mret (Some (-1))
      else
        sleep me (proc_chan me) release_wait;;
        mret None
  end.
Definition wait (me : nat) (addr : Z) : prog kst (option Z) :=
  acquire_wait;; wait_turn me addr.
End proc.
Arguments kst S F : clear implicits.

End Proc.
