(* ===== verification/Ps.v ===== *)
(** * Process inspection and process system calls (the [ps_*] functions of
    kernel/proc.c, kernel/sysproc.c) *)

From S2P Require Import Prelude PageAlloc Vm Proc.
Import PageAlloc Proc.

Module Ps.
Section ps.
Context {S F : Type} `{PA : PageAllocator S}.
Abbreviation kst := (Proc.kst S F).

(** The first loop of [ps_list] takes every lock in turn and counts states that
    nothing reads. *)
Fixpoint count_loop (k i : nat) : prog kst unit :=
  match k with
  | O => skip
  | Datatypes.S k' => acquire i;; release i;; count_loop k' (i + 1)
  end.

(** The second loop: the process [i] is listed when it is in use and its node
    is the caller's or below it. *)
Fixpoint list_loop (k i : nat) (me : nat) (limit pids cntPrint : Z) : prog kst Z :=
  match k with
  | O => mret cntPrint
  | Datatypes.S k' =>
      acquire i;;
      p ← get_proc i;
      mp ← get_proc me;
      h ← (if bool_decide (state p = UNUSED) then mret 0 else is_heir (pnode p) (pnode mp));
      cnt ← (if negb (h =? 0) then
               n ← get_node (pnode mp);
               x ← nspid p (depth n);
               on_mem (Vm.copyout (pagetable mp) (u64 (pids + 4 * cntPrint)) (int_bytes x));;
               mret (cntPrint + 1)
             else mret cntPrint);
      release i;;
      if cnt =? limit then mret cnt
      else list_loop k' (i + 1) me limit pids cnt
  end.
Definition ps_list (me : nat) (limit pids : Z) : prog kst Z :=
  count_loop (Z.to_nat NPROC) 0;;
  list_loop (Z.to_nat NPROC) 0 me limit pids 0.

(** [struct proccess_info] in memory: 64 bytes, with 4 bytes of padding after
    [parent_pid] and at the end. *)
Definition info_bytes (i : info) : list Z :=
  int_bytes (i_state i) ++ int_bytes (i_pid i) ++ int_bytes (i_parent_pid i) ++ [0; 0; 0; 0] ++
  long_bytes (i_sz i) ++ int_bytes (i_cntOfile i) ++ i_name i ++
  int_bytes (i_startTime i) ++ int_bytes (i_lastStartTime i) ++ int_bytes (i_cntChange i) ++ int_bytes (i_totalTime i) ++
  [0; 0; 0; 0].

Definition open_files (p : proc) : Z := Z.of_nat (length (filter (λ f, f ≠ None) (ofile p))).

Definition ps_info (me : nat) (x pinfoAddr : Z) : prog kst Z :=
  myp ← get_proc me;
  r ← find_proc x (pnode myp);
  i ← deref r;
  p ← get_proc i;
  n ← get_node (pnode myp);
  y ← nspid p (depth n);
  if negb (y =? x) then
    release i;;
    mret (-1)
  else
    a ← get_pid i (pnode myp);
    b ← get_ppid i (pnode myp);
    let inf := mkInfo (state_num (state p)) a b (sz p) (open_files p) (take 16 (name p))
                 (i_startTime (pinfo p)) (i_lastStartTime (pinfo p)) (i_cntChange (pinfo p)) (i_totalTime (pinfo p)) in
    mod_proc i (set_pinfo inf);;
    on_mem (Vm.copyout (pagetable myp) pinfoAddr (info_bytes inf));;
    release i;;
    mret 0.

(** The table at [target_level] on the way to [va], 0 if it does not exist. *)
Fixpoint level_loop (k : nat) (level pt va : Z) : prog kst Z :=
  match k with
  | O => mret pt
  | Datatypes.S k' =>
      if pt =? 0 then fault
      else
        v ← on_mem (Vm.load (pt + 8 * Vm.PX level va));
        if Vm.has v Vm.PTE_V then level_loop k' (level - 1) (Vm.PTE2PA v) va else mret 0
  end.
Definition copy_from_level (pt va target_level : Z) : prog kst Z :=
  if Vm.MAXVA <=? va then panic "ps_pt"
  else level_loop (Z.to_nat (2 - target_level)) 2 pt va.

(** [copyout(pagetable, dst, (char* ) pt, 512 * 8)].  A null [pt] faults when the
    first byte is read, after the destination has been looked up. *)
Definition copyout_table (pagetable dst pt : Z) : prog kst unit :=
  if pt =? 0 then
    pa0 ← on_mem (Vm.walkaddr pagetable (Vm.PGROUNDDOWN dst));
    if pa0 =? 0 then skip else fault
  else
    k ← get;
    let l := concat (map (λ i, long_bytes (Vm.words (mem k) (pt + 8 * Z.of_nat i))) (seq 0 512)) in
    on_mem (Vm.copyout pagetable dst l);;
    skip.

Definition ps_pt0 (me : nat) (x tableAddr : Z) : prog kst Z :=
  myp ← get_proc me;
  r ← find_proc x (pnode myp);
  match r with
  | None => mret (-1)
  | Some i =>
      acquire me;;
      p ← get_proc i;
      copyout_table (pagetable myp) tableAddr (pagetable p);;
      release i;;
      release me;;
      mret 0
  end.

(** [ps_pt1] copies the table at level 1, [ps_pt2] the one at level 0. *)
Definition ps_pt (target_level : Z) (me : nat) (x addr tableAddr : Z) : prog kst Z :=
  myp ← get_proc me;
  r ← find_proc x (pnode myp);
  match r with
  | None => mret (-1)
  | Some i =>
      acquire me;;
      p ← get_proc i;
      pt ← copy_from_level (pagetable p) addr target_level;
      copyout_table (pagetable myp) tableAddr pt;;
      release i;;
      release me;;
      mret 0
  end.
Definition ps_pt1 : nat → Z → Z → Z → prog kst Z := ps_pt 1.
Definition ps_pt2 : nat → Z → Z → Z → prog kst Z := ps_pt 0.

(** Each turn of the loop copies a whole page, so [size] bounds the turns. *)
Fixpoint copy_loop (fuel : nat) (me i : nat) (addr size copyAddr : Z) : prog kst Z :=
  if size <=? 0 then
    release me;;
    release i;;
    mret 0
  else
    match fuel with
    | O => spin
    | Datatypes.S fuel' =>
        p ← get_proc i;
        myp ← get_proc me;
        pt ← copy_from_level (pagetable p) addr 0;
        if pt =? 0 then fault
        else
          v ← on_mem (Vm.load (pt + 8 * Vm.PX 0 addr));
          if negb (v =? 0) then
            let pa := Vm.PTE2PA v in
            let n := i32 (PGSIZE - Vm.PGROUNDDOWN pa + pa) in
            l ← on_mem (Vm.get_bytes pa (Z.to_nat n));
            on_mem (Vm.copyout (pagetable myp) copyAddr l);;
            copy_loop fuel' me i (u64 (addr + n)) (i32 (size - n)) (u64 (copyAddr + n))
          else mret (-1)
    end.
Definition ps_copy (me : nat) (x addr size copyAddr : Z) : prog kst Z :=
  myp ← get_proc me;
  r ← find_proc x (pnode myp);
  acquire me;;
  if size <=? 0 then
    release me;;
    i ← deref r;
    release i;;
    mret 0
  else
    i ← deref r;
    copy_loop (Z.to_nat size) me i addr size copyAddr.

(** [struct write_info] in memory: 32 bytes. *)
Definition write_info_bytes (st a7 a0 a1 a2 : Z) : list Z :=
  int_bytes st ++ int_bytes a7 ++ long_bytes a0 ++ long_bytes a1 ++ int_bytes a2 ++ [0; 0; 0; 0].

Definition ps_sleep_info (me : nat) (x infoAddr : Z) : prog kst Z :=
  myp ← get_proc me;
  r ← find_proc x (pnode myp);
  match r with
  | None => mret (-1)
  | Some i =>
      p ← get_proc i;
      if trapframe p =? 0 then fault
      else
        let tf off := gets (λ k, Vm.words (mem k) (trapframe p + off)) in
        a7 ← tf 168; a0 ← tf 112; a1 ← tf 120; a2 ← tf 128;
        (if bool_decide (me = i) then skip else acquire me);;
        on_mem (Vm.copyout (pagetable myp) infoAddr (write_info_bytes (state_num (state p)) a7 a0 a1 a2));;
        release i;;
        (if bool_decide (me = i) then skip else release me);;
        mret 0
  end.

(** [either_copyout], [either_copyin]: [user] says whether the address is one of
    the process [me] or of the kernel. *)
Definition either_copyout (me : nat) (user : bool) (dst : Z) (src : list Z) : prog kst Z :=
  p ← get_proc me;
  if user then on_mem (Vm.copyout (pagetable p) dst src)
  else on_mem (Vm.put_bytes dst src);; mret 0.
Definition either_copyin (me : nat) (user : bool) (src len : Z) : prog kst (Z * list Z) :=
  p ← get_proc me;
  if user then on_mem (Vm.copyin (pagetable p) src len)
  else l ← on_mem (Vm.get_bytes src (Z.to_nat len)); mret (0, l).

(** ** System calls *)

Definition sys_getpid (me : nat) : prog kst Z :=
  p ← get_proc me;
  n ← get_node (pnode p);
  nspid p (depth n).

Definition sys_getppid (me : nat) : prog kst Z :=
  m ← get_proc me;
  if pid m =? 1 then mret 0
  else
    i ← deref (parent m);
    p ← get_proc i;
    n ← get_node (pnode p);
    nspid p (depth n).

Definition sys_sbrk (me : nat) (n : Z) : prog kst Z :=
  p ← get_proc me;
  r ← growproc me n;
  if r <? 0 then mret (u64 (-1)) else mret (sz p).

Definition sys_uptime : prog kst Z := read_ticks.

(** A run of [sys_sleep] with [tickslock] held: the value returned, or [None]
    when it sleeps.  The comparison is between unsigned integers. *)
Definition sleep_turn (me : nat) (ticks0 n ch : Z) : prog kst (option Z) :=
  k ← get;
  if u32 (ticks k - ticks0) <? u32 n then
    kl ← get_killed me;
    if negb (kl =? 0) then
      release_ticks;;
      mret (Some (-1))
    else
      Proc.sleep me ch release_ticks;;
      mret None
  else
    release_ticks;;
    mret (Some 0).
Definition sys_sleep (me : nat) (n ch : Z) : prog kst (option Z) :=
  acquire_ticks;;
  k ← get;
  sleep_turn me (ticks k) n ch.
End ps.
End Ps.
