(* ===== verification/Namespaces.v ===== *)
(** * The theory of namespaces

    What the kernel keeps about namespaces, without the rest of the process
    table: for each process slot the node and the ids of the process that lives
    there, the nodes and which of them are in use. *)

From S2P Require Import Prelude PageAlloc Vm Proc.
Import Proc.

Module Namespaces.

(** The process in a slot, when there is one that runs or can run. *)
Abbreviation vproc := (option (option nat * list Z)).

Definition alive (s : procstate) : bool :=
  match s with SLEEPING | RUNNABLE | RUNNING => true | _ => false end.
Definition vp (p : proc) : vproc :=
  if alive (state p) then Some (pnode p, namespace_pids p) else None.

(** The node [j] and the nodes above it: as many as its depth says. *)
Fixpoint heads (N : list node) (k : nat) (j : nat) : list nat :=
  match k with
  | O => []
  | S k' => j :: match N !! j with
                 | Some x => match head x with Some m => heads N k' m | None => [] end
                 | None => []
                 end
  end.
Definition chain (N : list node) (j : nat) : list nat :=
  match N !! j with Some x => heads N (Z.to_nat (depth x + 1)) j | None => [] end.

(** The nodes in use form a forest; heads are one level up. *)
Definition forest (U : list bool) (N : list node) : Prop :=
  ∀ j x, U !! j = Some true → N !! j = Some x → 0 ≤ depth x ≤ 7 ∧
    match head x with
    | None => depth x = 0
    | Some m => U !! m = Some true ∧ ∃ y, N !! m = Some y ∧ depth x = depth y + 1
    end.

Definition within (N : list node) (i : nat) (v : vproc) : bool :=
  match v with Some (Some j, _) => bool_decide (i ∈ chain N j) | _ => false end.
(** How many processes live in the namespace [i] and those below it. *)
Definition census (N : list node) (V : list vproc) (i : nat) : Z :=
  Z.of_nat (length (filter (λ v, within N i v = true) V)).

Section forest.
Context (U : list bool) (N : list node) (HF : forest U N) (HL : length U = length N).

Lemma used_node j : U !! j = Some true → ∃ x, N !! j = Some x.
Proof using HL.
  intros Hj. apply lookup_lt_is_Some_2. rewrite <- HL. by eapply lookup_lt_Some.
Qed.

Lemma heads_S k j x : N !! j = Some x →
  heads N (S k) j = j :: match head x with Some m => heads N k m | None => [] end.
Proof using. intros H. cbn [heads]. by rewrite H. Qed.

(** The chain of a node in use: the node, then the chain of its head. *)
Lemma chain_unfold j x : U !! j = Some true → N !! j = Some x →
  chain N j = j :: match head x with Some m => chain N m | None => [] end.
Proof using HF HL.
  intros Hj Hx. destruct (HF j x Hj Hx) as [Hd Hh]. unfold chain at 1. rewrite Hx.
  replace (Z.to_nat (depth x + 1)) with (S (Z.to_nat (depth x))) by lia. rewrite (heads_S _ _ x) by done. f_equal.
  destruct (head x) as [m|]; [|done]. destruct Hh as (Hm & y & Hy & Hdy). unfold chain. rewrite Hy.
  by replace (Z.to_nat (depth x)) with (Z.to_nat (depth y + 1)) by lia.
Qed.

(** Induction along the heads. *)
Lemma up_ind (P : nat → Prop) :
  (∀ j x, U !! j = Some true → N !! j = Some x →
     (∀ m, head x = Some m → U !! m = Some true → P m) → P j) →
  ∀ j, U !! j = Some true → P j.
Proof using HF HL.
  intros Hstep. assert (∀ d j x, U !! j = Some true → N !! j = Some x → Z.to_nat (depth x) = d → P j) as H.
  { induction d as [|d IH]; intros j x Hj Hx Hd; eapply Hstep; try done; intros m Hm Hmu;
      destruct (HF j x Hj Hx) as [Hdx Hh]; rewrite Hm in Hh; destruct Hh as (_ & y & Hy & Hdy);
      destruct (HF m y Hmu Hy) as [Hdy0 _]; [lia|]. eapply (IH m y); [done|done|lia]. }
  intros j Hj. destruct (used_node j Hj) as [x Hx]. by eapply H.
Qed.

Lemma chain_self j : U !! j = Some true → j ∈ chain N j.
Proof using HF HL.
  intros Hj. destruct (used_node j Hj) as [x Hx]. rewrite (chain_unfold j x) by done. apply list_elem_of_here.
Qed.

(** The nodes of a chain are in use, and their depths go down one by one. *)
Lemma chain_depth j : U !! j = Some true → ∀ t i, chain N j !! t = Some i →
  ∃ x y, N !! j = Some x ∧ N !! i = Some y ∧ U !! i = Some true ∧ depth y = depth x - Z.of_nat t.
Proof using HF HL.
  revert j. apply (up_ind (λ j, ∀ t i, chain N j !! t = Some i →
    ∃ x y, N !! j = Some x ∧ N !! i = Some y ∧ U !! i = Some true ∧ depth y = depth x - Z.of_nat t)).
  intros j x Hj Hx IH t i. rewrite (chain_unfold j x) by done. destruct t as [|t]; cbn.
  - intros [= <-]. exists x, x. split_and!; [done..|lia].
  - destruct (HF j x Hj Hx) as [_ Hh]. destruct (head x) as [m|] eqn:Em; [|done].
    destruct Hh as (Hm & y & Hy & Hd). intros Ht. destruct (IH m eq_refl Hm t i Ht) as (y' & z & Hy' & Hz & Hi & Hdz).
    rewrite Hy in Hy'. injection Hy' as <-. exists x, z. split_and!; [done..|lia].
Qed.

Lemma chain_used j i : U !! j = Some true → i ∈ chain N j → U !! i = Some true.
Proof using HF HL. intros Hj (t & Ht)%list_elem_of_lookup_1. by destruct (chain_depth j Hj t i Ht) as (? & ? & _ & _ & ? & _). Qed.

Lemma chain_nodup j : U !! j = Some true → NoDup (chain N j).
Proof using HF HL.
  intros Hj. apply NoDup_alt. intros t1 t2 i H1 H2.
  destruct (chain_depth j Hj t1 i H1) as (x1 & y1 & Hx1 & Hy1 & _ & D1).
  destruct (chain_depth j Hj t2 i H2) as (x2 & y2 & Hx2 & Hy2 & _ & D2).
  rewrite Hx1 in Hx2. injection Hx2 as <-. rewrite Hy1 in Hy2. injection Hy2 as <-. lia.
Qed.

(** At most one node of a chain has a given depth. *)
Lemma chain_depth_inj j i1 i2 y1 y2 : U !! j = Some true → i1 ∈ chain N j → i2 ∈ chain N j →
  N !! i1 = Some y1 → N !! i2 = Some y2 → depth y1 = depth y2 → i1 = i2.
Proof using HF HL.
  intros Hj (t1 & H1)%list_elem_of_lookup_1 (t2 & H2)%list_elem_of_lookup_1 Hy1 Hy2 Hd.
  destruct (chain_depth j Hj t1 i1 H1) as (x1 & z1 & Hx1 & Hz1 & _ & D1).
  destruct (chain_depth j Hj t2 i2 H2) as (x2 & z2 & Hx2 & Hz2 & _ & D2).
  simplify_eq. assert (t1 = t2) by lia. simplify_eq. done.
Qed.

(** Above a node of the chain: its own chain. *)
Lemma chain_trans j i : U !! j = Some true → i ∈ chain N j → ∀ a, a ∈ chain N i → a ∈ chain N j.
Proof using HF HL.
  revert j. apply (up_ind (λ j, i ∈ chain N j → ∀ a, a ∈ chain N i → a ∈ chain N j)).
  intros j x Hj Hx IH. rewrite (chain_unfold j x Hj Hx) at 1. intros [->|Hi]%elem_of_cons a Ha; [done|].
  rewrite (chain_unfold j x) by done. destruct (HF j x Hj Hx) as [_ Hh]. destruct (head x) as [m|]; [|by apply elem_of_nil in Hi].
  destruct Hh as (Hm & _). apply list_elem_of_further. by eapply (IH m).
Qed.

(** The chain of a node of the chain is the rest of the chain. *)
Lemma chain_drop j : U !! j = Some true → ∀ t i, chain N j !! t = Some i → chain N i = drop t (chain N j).
Proof using HF HL.
  revert j. apply (up_ind (λ j, ∀ t i, chain N j !! t = Some i → chain N i = drop t (chain N j))).
  intros j x Hj Hx IH t i. rewrite (chain_unfold j x Hj Hx). destruct t as [|t]; cbn.
  - intros [= <-]. by rewrite (chain_unfold j x Hj Hx).
  - destruct (HF j x Hj Hx) as [_ Hh]. destruct (head x) as [m|]; [|done]. destruct Hh as [Hm _]. by apply (IH m).
Qed.

(** There are as many nodes as the depth says. *)
Lemma chain_length j x : U !! j = Some true → N !! j = Some x → Z.of_nat (length (chain N j)) = depth x + 1.
Proof using HF HL.
  intros Hj. revert x. pattern j. revert j Hj. apply up_ind. intros j x Hj Hx IH x' Hx'. rewrite Hx in Hx'. injection Hx' as <-.
  rewrite (chain_unfold j x) by done. destruct (HF j x Hj Hx) as [Hd Hh]. cbn [length]. destruct (head x) as [m|].
  - destruct Hh as (Hm & y & Hy & Hdy). rewrite Nat2Z.inj_succ, (IH m eq_refl Hm y Hy). lia.
  - cbn. lia.
Qed.

End forest.

Lemma used_in_census N i V j l : i ∈ chain N j → Some (Some j, l) ∈ V → 0 < census N V i.
Proof.
  intros Hi Hv. unfold census. assert (Some (Some j, l) ∈ filter (λ v, within N i v = true) V) as H.
  { apply list_elem_of_filter. split; [|done]. cbn. by apply bool_decide_eq_true. }
  destruct (filter _ V); [by apply elem_of_nil in H|]. cbn. lia.
Qed.

(** The chain depends on heads and depths only. *)
Lemma heads_ext N N' k j : (∀ i, (λ x, (head x, depth x)) <$> N !! i = (λ x, (head x, depth x)) <$> N' !! i) →
  heads N k j = heads N' k j.
Proof.
  intros H. revert j. induction k as [|k IH]; intros j; cbn [heads]; [done|]. f_equal. specialize (H j).
  destruct (N !! j) as [x|], (N' !! j) as [y|]; try done. injection H as -> _. by destruct (head y).
Qed.
Lemma chain_ext N N' j : (∀ i, (λ x, (head x, depth x)) <$> N !! i = (λ x, (head x, depth x)) <$> N' !! i) →
  chain N j = chain N' j.
Proof.
  intros H. unfold chain. pose proof (H j) as Hj. destruct (N !! j) as [x|], (N' !! j) as [y|]; try done.
  injection Hj as _ ->. by apply heads_ext.
Qed.

Lemma census_ext N N' V i : (∀ j, chain N j = chain N' j) → census N V i = census N' V i.
Proof.
  intros H. unfold census. do 2 f_equal. apply list_filter_iff. intros v. unfold within.
  destruct v as [[[j|] l]|]; [|done|done]. by rewrite H.
Qed.

(** The census when a slot changes. *)
Lemma census_insert N V i s v v' : V !! s = Some v →
  census N (<[s := v']> V) i = census N V i - b2z (within N i v) + b2z (within N i v').
Proof.
  intros Hs. unfold census. pose proof (lookup_lt_Some _ _ _ Hs) as Hlt.
  rewrite insert_take_drop by done. rewrite <- (take_drop_middle V s v Hs) at 3.
  rewrite !list.filter_app, !filter_cons, !length_app.
  destruct (within N i v), (within N i v'); cbn [b2z]; repeat case_decide; try done; cbn [length]; lia.
Qed.

Lemma census_mono U N V i m : forest U N → length U = length N →
  (∀ v, v ∈ V → match v with Some (Some j, _) => U !! j = Some true | _ => True end) →
  U !! i = Some true → m ∈ chain N i → census N V i ≤ census N V m.
Proof.
  intros HF HL HV Hi Hm. unfold census. apply inj_le. induction V as [|v V IH]; [done|].
  rewrite !filter_cons. assert (within N i v = true → within N m v = true) as Himp.
  { unfold within. specialize (HV v ltac:(apply list_elem_of_here)). destruct v as [[[j|] l]|]; try done.
    rewrite !bool_decide_eq_true. intros Hij. by eapply (chain_trans U). }
  specialize (IH ltac:(intros v' Hv'; apply HV; by apply list_elem_of_further)).
  repeat case_decide; cbn [length]; try lia. naive_solver.
Qed.

(** ** The invariant *)

(** Forest, home of every process, census, and ids: in each namespace it is
    in, a process has an id that was given out there, and no two processes of a
    namespace share one. *)
Record ns_core (U : list bool) (N : list node) (V : list vproc) : Prop := {
  nc_len : length U = length N;
  nc_forest : forest U N;
  nc_home : ∀ s n l, V !! s = Some (Some (n, l)) →
    length l = 8%nat ∧ ∃ j, n = Some j ∧ U !! j = Some true;
  nc_census : ∀ i x, U !! i = Some true → N !! i = Some x → cnt_proc x = census N V i;
  nc_ids : ∀ s j l i x, V !! s = Some (Some (Some j, l)) → i ∈ chain N j → N !! i = Some x →
    ∃ v, l !! Z.to_nat (depth x) = Some v ∧ 0 < v < last_pid x;
  nc_uniq : ∀ s1 s2 j1 j2 l1 l2 i x, V !! s1 = Some (Some (Some j1, l1)) → V !! s2 = Some (Some (Some j2, l2)) →
    i ∈ chain N j1 → i ∈ chain N j2 → N !! i = Some x →
    l1 !! Z.to_nat (depth x) = l2 !! Z.to_nat (depth x) → s1 = s2;
  nc_last : ∀ i x, U !! i = Some true → N !! i = Some x → 0 < last_pid x }.

(** Only the root stays in use when it is empty; the init process of a node
    lives in it. *)
Definition populated (U : list bool) (N : list node) : Prop :=
  ∀ i x, U !! i = Some true → N !! i = Some x → 0 < cnt_proc x ∨ depth x = 0.
Definition inits (U : list bool) (N : list node) (V : list vproc) : Prop :=
  ∀ i x s, U !! i = Some true → N !! i = Some x → ninit x = Some s → ∃ l, V !! s = Some (Some (Some i, l)).

(** [f] on the nodes of [c]. *)
Definition upd_nodes (c : list nat) (f : node → node) (N : list node) : list node :=
  imap (λ i x, if bool_decide (i ∈ c) then f x else x) N.
Lemma upd_lookup c f N i : upd_nodes c f N !! i = (λ x, if bool_decide (i ∈ c) then f x else x) <$> N !! i.
Proof. unfold upd_nodes. rewrite list_lookup_imap. by destruct (N !! i). Qed.
Lemma upd_length c f N : length (upd_nodes c f N) = length N.
Proof. apply length_imap. Qed.

Lemma upd_single j x f N : N !! j = Some x → upd_nodes [j] f N = <[j := f x]> N.
Proof.
  intros Hx. apply list_eq. intros i. rewrite upd_lookup. destruct (decide (i = j)) as [->|Hne].
  - rewrite list_lookup_insert_eq by (by eapply lookup_lt_Some). rewrite Hx. cbn.
    rewrite bool_decide_true by apply list_elem_of_here. done.
  - rewrite list_lookup_insert_ne by done.
    rewrite bool_decide_false by (intros E%list_elem_of_singleton; congruence). by destruct (N !! i).
Qed.
Lemma upd_cons j c f N : j ∉ c → upd_nodes c f (upd_nodes [j] f N) = upd_nodes (j :: c) f N.
Proof.
  intros Hj. apply list_eq. intros i. rewrite !upd_lookup. destruct (N !! i) as [x|]; [|done]. cbn. f_equal.
  destruct (decide (i = j)) as [->|Hne].
  - rewrite (bool_decide_false (j ∈ c)) by done. rewrite !bool_decide_true by apply list_elem_of_here. done.
  - rewrite (bool_decide_false (i ∈ [j])) by (intros E%list_elem_of_singleton; congruence).
    assert (bool_decide (i ∈ j :: c) = bool_decide (i ∈ c)) as -> by (apply bool_decide_ext; rewrite elem_of_cons; naive_solver).
    done.
Qed.

(** A change that keeps heads and depths keeps the forest and the chains. *)
Definition keeps_shape (f : node → node) : Prop := ∀ x, head (f x) = head x ∧ depth (f x) = depth x.
Lemma upd_shape c f N i : keeps_shape f →
  (λ x, (head x, depth x)) <$> N !! i = (λ x, (head x, depth x)) <$> upd_nodes c f N !! i.
Proof.
  intros Hf. rewrite upd_lookup. destruct (N !! i) as [x|]; [|done]. cbn. destruct (Hf x) as [E1 E2].
  case_bool_decide; by rewrite ?E1, ?E2.
Qed.
Lemma upd_chain c f N j : keeps_shape f → chain (upd_nodes c f N) j = chain N j.
Proof. intros Hf. symmetry. apply chain_ext. intros i. by apply upd_shape. Qed.
Lemma upd_census c f N V i : keeps_shape f → census (upd_nodes c f N) V i = census N V i.
Proof. intros Hf. apply census_ext. intros j. by apply upd_chain. Qed.
Lemma upd_forest U c f N : keeps_shape f → forest U N → forest U (upd_nodes c f N).
Proof.
  intros Hf HF j x Hj. rewrite upd_lookup, fmap_Some. intros (x0 & Hx0 & ->).
  destruct (HF j x0 Hj Hx0) as [Hd Hh]. destruct (Hf x0) as [E1 E2].
  assert (head (if bool_decide (j ∈ c) then f x0 else x0) = head x0) as -> by (case_bool_decide; congruence).
  assert (depth (if bool_decide (j ∈ c) then f x0 else x0) = depth x0) as -> by (case_bool_decide; congruence).
  split; [done|]. destruct (head x0) as [m|]; [|done]. destruct Hh as (Hm & y & Hy & Hdy). split; [done|].
  exists (if bool_decide (m ∈ c) then f y else y). rewrite upd_lookup, Hy. split; [done|].
  destruct (Hf y) as [_ E]. case_bool_decide; congruence.
Qed.

(** A process enters a namespace and those above it. *)
Definition enter1 (x : node) : node := set_last (i32 (last_pid x + 1)) (set_cnt (i32 (cnt_proc x + 1)) x).
Definition leave1 (x : node) : node := set_cnt (i32 (cnt_proc x - 1)) x.
Lemma enter1_shape : keeps_shape enter1. Proof. done. Qed.
Lemma leave1_shape : keeps_shape leave1. Proof. done. Qed.
#[local] Hint Resolve enter1_shape leave1_shape : core.

Lemma census_range N V i : 0 ≤ census N V i ≤ Z.of_nat (length V).
Proof. unfold census. pose proof (length_filter (λ v, within N i v = true) V). lia. Qed.

Lemma ns_enter U N V s j l : ns_core U N V → (length V ≤ 64)%nat →
  (∀ i x, U !! i = Some true → N !! i = Some x → last_pid x < 2 ^ 31 - 1) →
  V !! s = Some None → U !! j = Some true → length l = 8%nat →
  (∀ i x, i ∈ chain N j → N !! i = Some x → l !! Z.to_nat (depth x) = Some (last_pid x)) →
  ns_core U (upd_nodes (chain N j) enter1 N) (<[s := Some (Some j, l)]> V).
Proof.
  intros I HV Hlast Hs Hj Hl Hids. pose proof (nc_forest _ _ _ I) as HF. pose proof (nc_len _ _ _ I) as HL.
  pose proof (lookup_lt_Some _ _ _ Hs) as Hlt.
  assert (∀ i x0, U !! i = Some true → N !! i = Some x0 → i ∈ chain N j →
    enter1 x0 = mkNode (cnt_proc x0 + 1) (last_pid x0 + 1) (ninit x0) (head x0) (depth x0)) as He.
  { intros i x0 Hi Hx0 _. unfold enter1, set_last, set_cnt. cbn.
    pose proof (nc_census _ _ _ I i x0 Hi Hx0). pose proof (census_range N V i).
    pose proof (Hlast i x0 Hi Hx0). pose proof (nc_last _ _ _ I i x0 Hi Hx0). rewrite !i32_small by lia. done. }
  constructor.
  - by rewrite upd_length.
  - by apply upd_forest.
  - intros s' n' l' [(<- & [= <- <-] & _)|(Hne & Hs')]%list_lookup_insert_Some; [by eauto|]. by apply (nc_home _ _ _ I s').
  - intros i x Hi. rewrite upd_lookup, fmap_Some. intros (x0 & Hx0 & ->). rewrite upd_census by done.
    rewrite (census_insert _ _ _ s None) by done. cbn [within b2z]. pose proof (nc_census _ _ _ I i x0 Hi Hx0) as Hc.
    destruct (bool_decide (i ∈ chain N j)) eqn:Eb; cbn [b2z]; [|lia].
    apply bool_decide_eq_true in Eb. rewrite (He i x0) by done. cbn. lia.
  - intros s' j' l' i x Hs' Hi. rewrite upd_chain in Hi by done. rewrite upd_lookup, fmap_Some. intros (x0 & Hx0 & ->).
    apply list_lookup_insert_Some in Hs' as [(<- & [= <- <-] & _)|(Hne & Hs')].
    + rewrite bool_decide_true by done. pose proof (chain_used U N HF HL j i Hj Hi) as Hu. rewrite (He i x0) by done. cbn.
      pose proof (nc_last _ _ _ I i x0 Hu Hx0). exists (last_pid x0). split; [by apply (Hids i)|lia].
    + destruct (nc_home _ _ _ I s' _ _ Hs') as (_ & j0 & [= <-] & Hj').
      pose proof (chain_used U N HF HL j' i Hj' Hi) as Hu. destruct (nc_ids _ _ _ I s' j' l' i x0 Hs' Hi Hx0) as (v & Hv & Hr).
      exists v. case_bool_decide; [rewrite (He i x0) by done; cbn; split; [done|lia]|done].
  - assert (∀ s' j' l' i x0, V !! s' = Some (Some (Some j', l')) → i ∈ chain N j → i ∈ chain N j' →
      N !! i = Some x0 → l !! Z.to_nat (depth x0) = l' !! Z.to_nat (depth x0) → False) as Hfresh.
    { intros s' j' l' i x0 Hs' Hi Hi' Hx0 E. rewrite (Hids i x0 Hi Hx0) in E.
      destruct (nc_ids _ _ _ I s' j' l' i x0 Hs' Hi' Hx0) as (v & Hv & Hr). rewrite Hv in E. injection E as <-. lia. }
    intros s1 s2 j1 j2 l1 l2 i x H1 H2 Hi1 Hi2. rewrite upd_chain in Hi1, Hi2 by done.
    rewrite upd_lookup, fmap_Some. intros (x0 & Hx0 & ->).
    assert (depth (if bool_decide (i ∈ chain N j) then enter1 x0 else x0) = depth x0) as -> by by case_bool_decide.
    apply list_lookup_insert_Some in H1 as [(<- & [= <- <-] & _)|(Hne1 & H1)];
      apply list_lookup_insert_Some in H2 as [(<- & [= <- <-] & _)|(Hne2 & H2)]; [done| | |].
    + intros E. exfalso. by eapply (Hfresh s2).
    + intros E. exfalso. by eapply (Hfresh s1).
    + by eapply (nc_uniq _ _ _ I).
  - intros i x Hi. rewrite upd_lookup, fmap_Some. intros (x0 & Hx0 & ->). pose proof (nc_last _ _ _ I i x0 Hi Hx0).
    case_bool_decide; [|done]. rewrite (He i x0) by done. cbn. lia.
Qed.

(** A process leaves. *)
Lemma ns_leave U N V s j l : ns_core U N V → (length V ≤ 64)%nat → V !! s = Some (Some (Some j, l)) →
  ns_core U (upd_nodes (chain N j) leave1 N) (<[s := None]> V).
Proof.
  intros I HV Hs. pose proof (nc_forest _ _ _ I) as HF. pose proof (nc_len _ _ _ I) as HL.
  assert (∀ s' v, <[s := None]> V !! s' = Some (Some v) → V !! s' = Some (Some v)) as Hold.
  { intros s' v [(<- & [=] & _)|(_ & H)]%list_lookup_insert_Some; done. }
  constructor.
  - by rewrite upd_length.
  - by apply upd_forest.
  - intros s' n' l' Hs'%Hold. by apply (nc_home _ _ _ I s').
  - intros i x Hi. rewrite upd_lookup, fmap_Some. intros (x0 & Hx0 & ->). rewrite upd_census by done.
    rewrite (census_insert _ _ _ s _ _ Hs). cbn [within]. pose proof (nc_census _ _ _ I i x0 Hi Hx0) as Hc.
    destruct (bool_decide (i ∈ chain N j)) eqn:Eb; cbn [b2z]; [|lia]. unfold leave1, set_cnt. cbn.
    pose proof (census_range N V i). rewrite i32_small; lia.
  - intros s' j' l' i x Hs'%Hold Hi. rewrite upd_chain in Hi by done. rewrite upd_lookup, fmap_Some. intros (x0 & Hx0 & ->).
    destruct (nc_ids _ _ _ I s' j' l' i x0 Hs' Hi Hx0) as (v & Hv). exists v. by case_bool_decide.
  - intros s1 s2 j1 j2 l1 l2 i x H1%Hold H2%Hold Hi1 Hi2. rewrite upd_chain in Hi1, Hi2 by done.
    rewrite upd_lookup, fmap_Some. intros (x0 & Hx0 & ->).
    assert (depth (if bool_decide (i ∈ chain N j) then leave1 x0 else x0) = depth x0) as -> by by case_bool_decide.
    by eapply (nc_uniq _ _ _ I).
  - intros i x Hi. rewrite upd_lookup, fmap_Some. intros (x0 & Hx0 & ->). pose proof (nc_last _ _ _ I i x0 Hi Hx0).
    by case_bool_decide.
Qed.

(** Processes only live in nodes that are in use. *)
Lemma home_used U N V : ns_core U N V →
  ∀ v, v ∈ V → match v with Some (Some j, _) => U !! j = Some true | _ => True end.
Proof.
  intros I v (s & Hs)%list_elem_of_lookup_1. destruct v as [[[j|] l]|]; try done.
  destruct (nc_home _ _ _ I s _ _ Hs) as (_ & j' & [= <-] & H). done.
Qed.

(** Empty nodes are freed. *)
Lemma ns_free U U' N V : ns_core U N V → length U' = length U →
  (∀ i, U' !! i = Some true → U !! i = Some true) →
  (∀ i x, U !! i = Some true → N !! i = Some x → U' !! i = Some true ∨ cnt_proc x = 0) →
  populated U' N → ns_core U' N V.
Proof.
  intros I HL' Hsub Hfreed Hpop. pose proof (nc_forest _ _ _ I) as HF. pose proof (nc_len _ _ _ I) as HL. constructor.
  - lia.
  - intros j x Hj Hx. pose proof (Hsub j Hj) as Hu. destruct (HF j x Hu Hx) as [Hd Hh]. split; [done|].
    destruct (head x) as [m|] eqn:Em; [|done]. destruct Hh as (Hm & y & Hy & Hdy). split; [|by exists y].
    destruct (Hfreed m y Hm Hy) as [?|Hz]; [done|]. exfalso.
    assert (m ∈ chain N j) as Hmc.
    { rewrite (chain_unfold U N HF HL j x Hu Hx), Em. apply list_elem_of_further, (chain_self U N HF HL m Hm). }
    pose proof (census_mono U N V j m HF HL (home_used U N V I) Hu Hmc).
    pose proof (nc_census _ _ _ I j x Hu Hx). pose proof (nc_census _ _ _ I m y Hm Hy).
    destruct (HF m y Hm Hy) as [Hdy0 _]. destruct (Hpop j x Hj Hx); lia.
  - intros s n l Hs. destruct (nc_home _ _ _ I s n l Hs) as (Hl & j & -> & Hj). split; [done|]. exists j. split; [done|].
    destruct (used_node U N HL j Hj) as [x Hx]. destruct (Hfreed j x Hj Hx) as [?|Hz]; [done|]. exfalso.
    pose proof (nc_census _ _ _ I j x Hj Hx).
    pose proof (used_in_census N j V j l (chain_self U N HF HL j Hj) ltac:(by eapply list_elem_of_lookup_2)). lia.
  - intros i x Hi. by apply (nc_census _ _ _ I i x), Hsub.
  - apply (nc_ids _ _ _ I).
  - apply (nc_uniq _ _ _ I).
  - intros i x Hi. by apply (nc_last _ _ _ I i x), Hsub.
Qed.

(** What [clean_node] frees: the nodes of the chain up to the first that is not
    empty. *)
Fixpoint cleaned (N : list node) (c : list nat) (U : list bool) : list bool :=
  match c with
  | [] => U
  | i :: c' => match N !! i with
               | Some x => if negb (depth x =? 0) && (cnt_proc x =? 0) then cleaned N c' (<[i := false]> U) else U
               | None => U
               end
  end.

Lemma cleaned_length N c : ∀ U, length (cleaned N c U) = length U.
Proof.
  induction c as [|i c IH]; intros U; cbn; [done|]. destruct (N !! i) as [x|]; [|done].
  destruct (_ && _); [|done]. rewrite IH. apply length_insert.
Qed.
Lemma cleaned_sub N c : ∀ U i, cleaned N c U !! i = Some true → U !! i = Some true.
Proof.
  induction c as [|i c IH]; intros U j; cbn; [done|]. destruct (N !! i) as [x|]; [|done].
  destruct (_ && _); [|done]. intros [(_ & [=] & _)|(_ & H)]%IH%list_lookup_insert_Some. done.
Qed.
Lemma cleaned_freed N c : ∀ U i x, U !! i = Some true → N !! i = Some x →
  cleaned N c U !! i = Some true ∨ (cnt_proc x = 0 ∧ depth x ≠ 0).
Proof.
  induction c as [|j c IH]; intros U i x Hi Hx; cbn; [by left|]. destruct (N !! j) as [y|] eqn:Ey; [|by left].
  destruct (negb (depth y =? 0) && (cnt_proc y =? 0)) eqn:Eb; [|by left].
  destruct (decide (i = j)) as [->|Hne].
  - right. rewrite Hx in Ey. injection Ey as <-. apply andb_true_iff in Eb as [Ea Eb]. apply negb_true_iff, Z.eqb_neq in Ea. lia.
  - destruct (IH (<[j := false]> U) i x) as [H|[H1 H2]]; [by rewrite list_lookup_insert_ne|done|by left|by right].
Qed.
Lemma cleaned_keep N c : ∀ U i, U !! i = Some false → cleaned N c U !! i = Some false.
Proof.
  induction c as [|j c IH]; intros U i Hi; cbn; [done|]. destruct (N !! j) as [y|]; [|done]. destruct (_ && _); [|done].
  apply IH. destruct (decide (i = j)) as [->|Hne].
  - rewrite list_lookup_insert_eq; [done|]. by eapply lookup_lt_Some.
  - by rewrite list_lookup_insert_ne.
Qed.
Lemma cleaned_all N c : ∀ U t i, c !! t = Some i → (i < length U)%nat →
  (∀ t' i', (t' ≤ t)%nat → c !! t' = Some i' → ∃ x, N !! i' = Some x ∧ depth x ≠ 0 ∧ cnt_proc x = 0) →
  cleaned N c U !! i = Some false.
Proof.
  induction c as [|j c IH]; intros U t i Ht Hlt Hall; [done|]. cbn.
  destruct (Hall 0%nat j ltac:(lia) eq_refl) as (x & Hx & Hd & Hc). rewrite Hx.
  rewrite (proj2 (Z.eqb_neq (depth x) 0) Hd), Hc. cbn.
  destruct t as [|t].
  - injection Ht as ->. apply cleaned_keep. by rewrite list_lookup_insert_eq.
  - apply (IH _ t); [done|by rewrite length_insert|]. intros t' i' Hle Ht'. apply (Hall (S t')); [lia|done].
Qed.

(** A change of nodes that keeps heads, depths, counts and ids. *)
Lemma ns_same U N V c f : keeps_shape f → (∀ x, cnt_proc (f x) = cnt_proc x ∧ last_pid (f x) = last_pid x) →
  ns_core U N V → ns_core U (upd_nodes c f N) V.
Proof.
  intros Hf Hsame I.
  assert (∀ i x, upd_nodes c f N !! i = Some x → ∃ x0, N !! i = Some x0 ∧ cnt_proc x = cnt_proc x0 ∧
    last_pid x = last_pid x0 ∧ depth x = depth x0) as Hlk.
  { intros i x. rewrite upd_lookup, fmap_Some. intros (x0 & Hx0 & ->). exists x0.
    destruct (Hsame x0), (Hf x0). by case_bool_decide. }
  constructor.
  - rewrite upd_length. apply (nc_len _ _ _ I).
  - apply upd_forest; [done|]. apply (nc_forest _ _ _ I).
  - apply (nc_home _ _ _ I).
  - intros i x Hi (x0 & Hx0 & -> & _)%Hlk. rewrite upd_census by done. by apply (nc_census _ _ _ I).
  - intros s j l i x Hs Hi (x0 & Hx0 & _ & -> & ->)%Hlk. rewrite upd_chain in Hi by done. by apply (nc_ids _ _ _ I s j l i).
  - intros s1 s2 j1 j2 l1 l2 i x H1 H2 Hi1 Hi2 (x0 & Hx0 & _ & _ & ->)%Hlk. rewrite upd_chain in Hi1, Hi2 by done.
    by apply (nc_uniq _ _ _ I s1 s2 j1 j2 l1 l2 i).
  - intros i x Hi (x0 & Hx0 & _ & -> & _)%Hlk. by apply (nc_last _ _ _ I i).
Qed.

(** The nodes in use after a process left and its chain was cleaned. *)
Lemma populated_exit U N V s j l : ns_core U N V → (length V ≤ 64)%nat → populated U N →
  V !! s = Some (Some (Some j, l)) →
  let N' := upd_nodes (chain N j) leave1 N in populated (cleaned N' (chain N j) U) N'.
Proof.
  intros I HV Hpop Hs N' i x Hi Hx. pose proof (ns_leave U N V s j l I HV Hs) as I'. fold N' in I'.
  pose proof (nc_forest _ _ _ I') as HF. pose proof (nc_len _ _ _ I') as HL.
  pose proof (cleaned_sub N' _ U i Hi) as Hu. destruct (nc_home _ _ _ I s _ _ Hs) as (_ & j' & [= <-] & Hj).
  destruct (Z.eq_dec (depth x) 0) as [?|Hd]; [by right|]. left. destruct (HF i x Hu Hx) as [Hd0 _].
  pose proof (nc_census _ _ _ I' i x Hu Hx) as Hc. pose proof (census_range N' (<[s := None]> V) i).
  destruct (Z.eq_dec (cnt_proc x) 0) as [Hz|]; [exfalso|lia].
  destruct (decide (i ∈ chain N j)) as [Hin|Hnin].
  - apply list_elem_of_lookup_1 in Hin as [t Ht].
    rewrite (cleaned_all N' _ U t i Ht ltac:(by eapply lookup_lt_Some)) in Hi; [done|].
    intros t' i' Hle Ht'. assert (chain N j = chain N' j) as Ec by (symmetry; by apply upd_chain). rewrite Ec in Ht, Ht'.
    destruct (chain_depth U N' HF HL j Hj t i Ht) as (xj & y & Hxj & Hy & _ & D1).
    destruct (chain_depth U N' HF HL j Hj t' i' Ht') as (xj' & x' & Hxj' & Hx' & Hu' & D2). simplify_eq.
    exists x'. split; [done|]. split; [lia|].
    assert (i ∈ chain N' i') as Hmem.
    { rewrite (chain_drop U N' HF HL j Hj t' i' Ht'). apply list_elem_of_lookup_2 with (t - t')%nat.
      rewrite lookup_drop. by replace (t' + (t - t'))%nat with t by lia. }
    pose proof (census_mono U N' _ i' i HF HL (home_used _ _ _ I') Hu' Hmem).
    pose proof (nc_census _ _ _ I' i' x' Hu' Hx'). pose proof (census_range N' (<[s := None]> V) i'). lia.
  - unfold N' in Hx. rewrite upd_lookup, fmap_Some in Hx. destruct Hx as (x0 & Hx0 & ->).
    rewrite bool_decide_false in Hz, Hd by done. destruct (Hpop i x0 Hu Hx0); lia.
Qed.

(** [exit] keeps the invariant: the process [s] of node [j] leaves, the nodes
    that become empty are freed, and [j] forgets [s] when it was its init. *)
Lemma ns_exit U N V s j l xj : ns_core U N V → (length V ≤ 64)%nat → populated U N → inits U N V →
  V !! s = Some (Some (Some j, l)) → N !! j = Some xj →
  let N' := upd_nodes (chain N j) leave1 N in
  let U' := cleaned N' (chain N j) U in
  let N'' := if bool_decide (ninit xj = Some s) then upd_nodes [j] (set_ninit None) N' else N' in
  ns_core U' N'' (<[s := None]> V) ∧ populated U' N'' ∧ inits U' N'' (<[s := None]> V).
Proof.
  intros I HV Hpop Hin Hs Hxj N' U' N''. pose proof (populated_exit U N V s j l I HV Hpop Hs) as Hpop'.
  cbv zeta in Hpop'. fold N' in Hpop'. fold U' in Hpop'.
  assert (ns_core U' N' (<[s := None]> V)) as I'.
  { eapply ns_free; [by eapply ns_leave|apply cleaned_length|apply cleaned_sub| |done].
    intros i x Hi Hx. destruct (cleaned_freed N' (chain N j) U i x Hi Hx) as [?|[? _]]; eauto. }
  assert (∀ i x, N'' !! i = Some x → ∃ x0, N' !! i = Some x0 ∧ cnt_proc x = cnt_proc x0 ∧ depth x = depth x0 ∧
    ninit x = if bool_decide (ninit xj = Some s) && bool_decide (i = j) then None else ninit x0) as Hlk.
  { intros i x Hx. unfold N'' in Hx. case_bool_decide; [|by exists x].
    rewrite upd_lookup, fmap_Some in Hx. destruct Hx as (x0 & Hx0 & ->). exists x0. split; [done|].
    destruct (decide (i = j)) as [->|Hne].
    - rewrite (bool_decide_true (j = j)) by done. rewrite bool_decide_true by apply list_elem_of_here. done.
    - rewrite (bool_decide_false (i = j)) by done. rewrite bool_decide_false by (by intros ?%list_elem_of_singleton). done. }
  split_and!.
  - unfold N''. case_bool_decide; [|done]. by apply ns_same.
  - intros i x Hi (x0 & Hx0 & -> & -> & _)%Hlk. by apply (Hpop' i).
  - intros i x a Hi (x1 & Hx1 & _ & _ & ->)%Hlk Ha. pose proof (cleaned_sub N' _ U i Hi) as Hu.
    unfold N' in Hx1. rewrite upd_lookup, fmap_Some in Hx1. destruct Hx1 as (x0 & Hx0 & ->).
    assert (ninit (if bool_decide (i ∈ chain N j) then leave1 x0 else x0) = ninit x0) as Eni by by destruct (bool_decide (i ∈ chain N j)).
    rewrite Eni in Ha.
    destruct (bool_decide (ninit xj = Some s) && bool_decide (i = j)) eqn:Eb; [done|].
    destruct (Hin i x0 a Hu Hx0 Ha) as (l' & Hl'). exists l'.
    destruct (decide (a = s)) as [->|Hne]; [exfalso|by rewrite list_lookup_insert_ne].
    rewrite Hs in Hl'. injection Hl' as <- <-. rewrite Hxj in Hx0. injection Hx0 as <-.
    by rewrite !bool_decide_true in Eb.
Qed.

(** [fork] keeps the invariant: the process [s] enters the node [j]. *)
Lemma ns_fork U N V s j l : ns_core U N V → (length V ≤ 64)%nat → populated U N → inits U N V →
  (∀ i x, U !! i = Some true → N !! i = Some x → last_pid x < 2 ^ 31 - 1) →
  V !! s = Some None → U !! j = Some true → length l = 8%nat →
  (∀ i x, i ∈ chain N j → N !! i = Some x → l !! Z.to_nat (depth x) = Some (last_pid x)) →
  let N' := upd_nodes (chain N j) enter1 N in
  let V' := <[s := Some (Some j, l)]> V in
  ns_core U N' V' ∧ populated U N' ∧ inits U N' V'.
Proof.
  intros I HV Hpop Hin Hlast Hs Hj Hl Hids N' V'. split; [by apply ns_enter|]. split.
  - intros i x Hi. unfold N'. rewrite upd_lookup, fmap_Some. intros (x0 & Hx0 & ->).
    destruct (Hpop i x0 Hi Hx0) as [Hc|Hd]; case_bool_decide; auto. left. cbn.
    pose proof (nc_census _ _ _ I i x0 Hi Hx0). pose proof (census_range N V i). rewrite i32_small; lia.
  - intros i x a Hi. unfold N'. rewrite upd_lookup, fmap_Some. intros (x0 & Hx0 & ->) Ha.
    assert (ninit x0 = Some a) as Ha' by by destruct (bool_decide (i ∈ chain N j)).
    destruct (Hin i x0 a Hi Hx0 Ha') as (l' & Hl'). exists l'. unfold V'. rewrite list_lookup_insert_ne; congruence.
Qed.

(** A new node below [j]. *)
Definition new_node (s : nat) (j : nat) (d : Z) : node := mkNode 0 1 (Some s) (Some j) d.

Section new_node.
Context (U : list bool) (N : list node) (V : list vproc) (n s j : nat) (xj : node).
Context (I : ns_core U N V) (Hn : U !! n = Some false) (Hj : U !! j = Some true) (Hxj : N !! j = Some xj) (Hd : depth xj < 7).
#[local] Abbreviation U' := (<[n := true]> U).
#[local] Abbreviation N' := (<[n := new_node s j (depth xj + 1)]> N).

Lemma new_lt : (n < length N)%nat.
Proof using I Hn. rewrite <- (nc_len _ _ _ I). by eapply lookup_lt_Some. Qed.

Lemma new_lookup i x : U' !! i = Some true → N' !! i = Some x →
  (i = n ∧ x = new_node s j (depth xj + 1)) ∨ (i ≠ n ∧ U !! i = Some true ∧ N !! i = Some x).
Proof using Hn.
  intros [(-> & _ & _)|(Hne & Hi)]%list_lookup_insert_Some.
  - intros [(_ & <- & _)|(? & _)]%list_lookup_insert_Some; [by left|done].
  - rewrite list_lookup_insert_ne by done. by right.
Qed.

Lemma new_forest : forest U' N'.
Proof using I Hn Hj Hxj Hd.
  intros i x Hi Hx. destruct (new_lookup i x Hi Hx) as [[-> ->]|(Hne & Hu & Hx')].
  - cbn. destruct (nc_forest _ _ _ I j xj Hj Hxj) as [? _]. split; [lia|].
    assert (n ≠ j) by congruence. split; [by rewrite list_lookup_insert_ne|]. exists xj.
    by rewrite list_lookup_insert_ne.
  - destruct (nc_forest _ _ _ I i x Hu Hx') as [? Hh]. split; [done|]. destruct (head x) as [m|]; [|done].
    destruct Hh as (Hm & y & Hy & ?). assert (n ≠ m) by congruence. split; [by rewrite list_lookup_insert_ne|].
    exists y. by rewrite list_lookup_insert_ne.
Qed.
Lemma new_len : length U' = length N'.
Proof using I. rewrite !length_insert. apply (nc_len _ _ _ I). Qed.

(** Older chains are as before; the new one goes on with that of [j]. *)
Lemma new_chain_old i : U !! i = Some true → chain N' i = chain N i.
Proof using I Hn Hj Hxj Hd.
  revert i. apply (up_ind U N (nc_forest _ _ _ I) (nc_len _ _ _ I)). intros i x Hi Hx IH.
  assert (n ≠ i) by congruence.
  rewrite (chain_unfold U' N' new_forest new_len i x) by by rewrite list_lookup_insert_ne.
  rewrite (chain_unfold U N (nc_forest _ _ _ I) (nc_len _ _ _ I) i x) by done.
  destruct (nc_forest _ _ _ I i x Hi Hx) as [_ Hh]. destruct (head x) as [m|]; [|done].
  destruct Hh as [Hm _]. by rewrite (IH m).
Qed.
Lemma new_chain : chain N' n = n :: chain N j.
Proof using I Hn Hj Hxj Hd.
  pose proof new_lt. rewrite (chain_unfold U' N' new_forest new_len n (new_node s j (depth xj + 1))).
  - cbn [head new_node]. by rewrite new_chain_old.
  - rewrite list_lookup_insert_eq; [done|]. by eapply lookup_lt_Some.
  - by rewrite list_lookup_insert_eq.
Qed.

Lemma new_within v : v ∈ V → ∀ i, within N' i v = within N i v.
Proof using I Hn Hj Hxj Hd.
  intros Hv i. pose proof (home_used U N V I v Hv) as Hh. destruct v as [[[a|] l]|]; [|done|done]. cbn.
  by rewrite (new_chain_old a Hh).
Qed.
Lemma new_census i : census N' V i = census N V i.
Proof using I Hn Hj Hxj Hd.
  unfold census. do 2 f_equal. assert (∀ v, v ∈ V → within N' i v = within N i v) as H by (intros v Hv; by apply new_within).
  revert H. clear. induction V as [|v W IH]; intros H; [done|]. rewrite !filter_cons.
  rewrite (H v) by apply list_elem_of_here. rewrite IH; [done|]. intros v' Hv'. apply H. by apply list_elem_of_further.
Qed.
Lemma new_census_0 : census N V n = 0.
Proof using I Hn Hj.
  unfold census. replace (filter (λ v, within N n v = true) V) with (@nil vproc); [done|]. symmetry.
  assert (∀ v, v ∈ V → within N n v = false) as H.
  { intros v Hv. pose proof (home_used U N V I v Hv) as Hh. destruct v as [[[a|] l]|]; [|done|done]. cbn.
    apply bool_decide_eq_false. intros Hin. pose proof (chain_used U N (nc_forest _ _ _ I) (nc_len _ _ _ I) a n Hh Hin). congruence. }
  revert H. clear. induction V as [|v W IH]; intros H; [done|]. rewrite filter_cons.
  rewrite (H v) by apply list_elem_of_here. cbn. apply IH. intros v' Hv'. apply H. by apply list_elem_of_further.
Qed.

Lemma ns_new_node : ns_core U' N' V.
Proof using I Hn Hj Hxj Hd.
  assert (∀ t a l i, V !! t = Some (Some (Some a, l)) → i ∈ chain N' a → U !! a = Some true ∧ i ∈ chain N a ∧ i ≠ n) as Hold.
  { intros t a l i Ht Hi. destruct (nc_home _ _ _ I t _ _ Ht) as (_ & a' & [= <-] & Ha). rewrite new_chain_old in Hi by done.
    split_and!; [done..|]. intros ->. pose proof (chain_used U N (nc_forest _ _ _ I) (nc_len _ _ _ I) a n Ha Hi). congruence. }
  constructor.
  - apply new_len.
  - apply new_forest.
  - intros t a l Ht. destruct (nc_home _ _ _ I t a l Ht) as (? & b & -> & Hb). split; [done|]. exists b. split; [done|].
    rewrite list_lookup_insert_ne; congruence.
  - intros i x Hi Hx. rewrite new_census. destruct (new_lookup i x Hi Hx) as [[-> ->]|(Hne & Hu & Hx')].
    + by rewrite new_census_0.
    + by apply (nc_census _ _ _ I).
  - intros t a l i x Ht Hi Hx. destruct (Hold t a l i Ht Hi) as (Ha & Hi' & Hne). rewrite list_lookup_insert_ne in Hx by done.
    by apply (nc_ids _ _ _ I t a l i).
  - intros t1 t2 a1 a2 l1 l2 i x H1 H2 Hi1 Hi2 Hx. destruct (Hold t1 a1 l1 i H1 Hi1) as (_ & Hi1' & Hne).
    destruct (Hold t2 a2 l2 i H2 Hi2) as (_ & Hi2' & _). rewrite list_lookup_insert_ne in Hx by done.
    by apply (nc_uniq _ _ _ I t1 t2 a1 a2 l1 l2 i).
  - intros i x Hi Hx. destruct (new_lookup i x Hi Hx) as [[-> ->]|(Hne & Hu & Hx')]; [done|]. by apply (nc_last _ _ _ I i).
Qed.

(** [clone] keeps the invariant: the process [s] enters the new node. *)
Lemma ns_clone l : (length V ≤ 64)%nat → populated U N → inits U N V →
  (∀ i x, U !! i = Some true → N !! i = Some x → last_pid x < 2 ^ 31 - 1) →
  V !! s = Some None → length l = 8%nat →
  (∀ i x, i ∈ chain N' n → N' !! i = Some x → l !! Z.to_nat (depth x) = Some (last_pid x)) →
  let N2 := upd_nodes (chain N' n) enter1 N' in
  let V' := <[s := Some (Some n, l)]> V in
  ns_core U' N2 V' ∧ populated U' N2 ∧ inits U' N2 V'.
Proof using I Hn Hj Hxj Hd.
  intros HV Hpop Hin Hlast Hs Hl Hids N2 V'. pose proof new_lt as Hnlt.
  assert (U' !! n = Some true) as Hun by (rewrite list_lookup_insert_eq; [done|by eapply lookup_lt_Some]).
  assert (n ∈ chain N' n) as Hself by (rewrite new_chain; apply list_elem_of_here).
  split; [|split].
  - apply ns_enter; try done; [apply ns_new_node|]. intros i x Hi Hx.
    destruct (new_lookup i x Hi Hx) as [[-> ->]|(Hne & Hu & Hx')]; [cbn; lia|eauto].
  - intros i x Hi. unfold N2. rewrite upd_lookup, fmap_Some. intros (x0 & Hx0 & ->).
    destruct (new_lookup i x0 Hi Hx0) as [[-> ->]|(Hne & Hu & Hx')].
    + rewrite bool_decide_true by done. left. cbn. rewrite i32_small; lia.
    + destruct (Hpop i x0 Hu Hx'); destruct (bool_decide (i ∈ _)); auto. left. cbn.
      pose proof (nc_census _ _ _ I i x0 Hu Hx'). pose proof (census_range N V i). rewrite i32_small; lia.
  - intros i x a Hi. unfold N2. rewrite upd_lookup, fmap_Some. intros (x0 & Hx0 & ->) Ha.
    assert (ninit x0 = Some a) as Ha' by by destruct (bool_decide (i ∈ _)).
    destruct (new_lookup i x0 Hi Hx0) as [[-> ->]|(Hne & Hu & Hx')].
    + injection Ha' as <-. exists l. unfold V'. rewrite list_lookup_insert_eq; [done|]. by eapply lookup_lt_Some.
    + destruct (Hin i x0 a Hu Hx' Ha') as (l' & Hl'). exists l'. unfold V'. rewrite list_lookup_insert_ne; congruence.
Qed.
End new_node.
End Namespaces.
