(* ===== verification/ProcLogic.v ===== *)
(** * What the operations of proc.c change

    Of each process only its [core] matters for namespaces and families: state,
    pid, ids, node and parent.  Most commands leave the cores, the nodes and
    [nextpid] alone ([still], closed under sequencing); the others have a lemma
    that says how the cores change. *)

From S2P Require Import Prelude PageAlloc Vm Proc Namespaces.
Import PageAlloc Proc Namespaces.

Module ProcLogic.

Record core := mkCore {
  c_state : procstate;
  c_pid : Z;
  c_ids : list Z;
  c_node : option nat;
  c_parent : option nat }.
Definition core_of (p : proc) : core := mkCore (state p) (pid p) (namespace_pids p) (pnode p) (parent p).

Section logic.
Context {S F : Type} `{PA : PageAllocator S}.
Context (filedup fileclose idup iput : nat → prog F unit) (begin_op end_op : prog F unit) (root_inode : prog F nat).
#[local] Abbreviation kst := (Proc.kst S F).

Definition cores (k : kst) : list core := map core_of (procs k).
Definition view (k : kst) : list core * list bool * list node * Z * option nat :=
  (cores k, used k, nodes k, nextpid k, initproc k).

Definition still {A} (m : prog kst A) : Prop := ∀ k a k', m k = Ok (a, k') → view k' = view k.

(** ** Commands that change nothing of this *)

Lemma still_bind {A B} (m : prog kst A) (f : A → prog kst B) : still m → (∀ a, still (f a)) → still (m ≫= f).
Proof. intros Hm Hf k b k' (a & k1 & H1 & H2)%bind_inv. rewrite (Hf a _ _ _ H2). by eapply Hm. Qed.
Lemma still_if {A} (b : bool) (m1 m2 : prog kst A) : still m1 → still m2 → still (if b then m1 else m2).
Proof. by destruct b. Qed.
Lemma still_ret {A} (a : A) : still (mret a : prog kst A).
Proof. by intros k b k' [= <- <-]. Qed.
Lemma still_skip : still (skip : prog kst unit).
Proof. by intros k b k' [= <- <-]. Qed.
Lemma still_get : still (get : prog kst kst).
Proof. by intros k b k' [= <- <-]. Qed.
Lemma still_gets {A} (f : kst → A) : still (gets f).
Proof. by intros k b k' [= <- <-]. Qed.
Lemma still_panic {A} msg : still (panic msg : prog kst A).
Proof. done. Qed.
Lemma still_fault {A} : still (fault : prog kst A).
Proof. done. Qed.
Lemma still_spin {A} : still (spin : prog kst A).
Proof. done. Qed.
Lemma still_modify (f : kst → kst) : (∀ k, view (f k) = view k) → still (modify f).
Proof. intros Hf k b k' [= <- <-]. done. Qed.
Lemma still_on_mem {A} (m : prog (Vm.st S) A) : still (on_mem m).
Proof. intros k a k'. unfold on_mem. destruct (m (mem k)) as [[b v]| | |]; [|done..]. by intros [= <- <-]. Qed.
Lemma still_on_fs {A} (m : prog F A) : still (on_fs m).
Proof. intros k a k'. unfold on_fs. destruct (m (fs k)) as [[b v]| | |]; [|done..]. by intros [= <- <-]. Qed.
Lemma still_get_proc i : still (get_proc i).
Proof. intros k a k'. unfold get_proc. destruct (procs k !! i); [|done]. by intros [= <- <-]. Qed.
Lemma still_get_node n : still (get_node n).
Proof. intros k a k'. unfold get_node. destruct n as [j|]; [|done]. destruct (nodes k !! j); [|done]. by intros [= <- <-]. Qed.

(** [mod_proc] on the cores. *)
Lemma mod_proc_eff i f k a k' : mod_proc i f k = Ok (a, k') → ∃ p, procs k !! i = Some p ∧
  procs k' = <[i := f p]> (procs k) ∧ view k' = (<[i := core_of (f p)]> (cores k), used k, nodes k, nextpid k, initproc k).
Proof.
  unfold mod_proc. destruct (procs k !! i) as [p|] eqn:E; [|done]. intros [= <- <-]. exists p. split; [done|]. split; [done|].
  unfold view, cores. cbn. by rewrite list_fmap_insert.
Qed.
Lemma still_mod_proc i f : (∀ p, core_of (f p) = core_of p) → still (mod_proc i f).
Proof.
  intros Hf k a k' (p & Hp & _ & ->)%mod_proc_eff. rewrite Hf. unfold view. do 4 f_equal.
  apply list_insert_id. unfold cores. by rewrite list_lookup_fmap, Hp.
Qed.
Lemma still_for_up n : ∀ lo body, (∀ i, still (body i)) → still (for_up n lo body).
Proof.
  induction n as [|n IH]; intros lo body Hb; cbn [for_up]; [apply still_skip|]. apply still_bind; [apply Hb|]. intros _. by apply IH.
Qed.
End logic.

Create HintDb still.
#[export] Hint Resolve still_ret still_skip still_get still_gets still_panic still_fault still_spin still_on_mem still_on_fs
  still_get_proc still_get_node : still.
(** Prove that a command changes nothing, by its structure. *)
Ltac still_step :=
  first
  [ solve [eauto with still]
  | apply still_bind; [|intros ?]
  | apply still_if
  | apply still_mod_proc; intros ?; reflexivity
  | apply still_modify; intros ?; reflexivity
  | match goal with |- still (match ?x with _ => _ end) => destruct x end
  | match goal with |- still ((match ?x with _ => _ end) _) => destruct x end ].
Ltac still_tac := repeat still_step.

(** Take a run apart: [inv_bind H as a k E] *)
Tactic Notation "inv_bind" hyp(H) "as" ident(a) ident(k) ident(E) :=
  apply bind_inv in H as (a & k & E & H).

Section still_ops.
Context {S F : Type} `{PA : PageAllocator S}.
Context (filedup fileclose idup iput : nat → prog F unit) (begin_op end_op : prog F unit) (root_inode : prog F nat).
#[local] Abbreviation kst := (Proc.kst S F).

Lemma still_deref p : still (deref p : prog kst nat).
Proof. unfold deref. still_tac. Qed.
Lemma still_acquire i : still (acquire i : prog kst unit).
Proof. unfold acquire. still_tac. Qed.
Lemma still_release i : still (release i : prog kst unit).
Proof. unfold release. still_tac. Qed.
Lemma still_acquire_wait : still (acquire_wait : prog kst unit).
Proof. unfold acquire_wait. still_tac. Qed.
Lemma still_release_wait : still (release_wait : prog kst unit).
Proof. unfold release_wait. still_tac. Qed.
Lemma still_acquire_pid : still (acquire_pid : prog kst unit).
Proof. unfold acquire_pid. still_tac. Qed.
Lemma still_release_pid : still (release_pid : prog kst unit).
Proof. unfold release_pid. still_tac. Qed.
Lemma still_read_ticks : still (read_ticks : prog kst Z).
Proof. unfold read_ticks, acquire_ticks, release_ticks. still_tac. Qed.
#[local] Hint Resolve still_deref still_acquire still_release still_acquire_wait still_release_wait
  still_acquire_pid still_release_pid still_read_ticks : still.

Lemma still_is_heir_loop fuel : ∀ l o, still (is_heir_loop fuel l o : prog kst Z).
Proof. induction fuel as [|fuel IH]; intros l o; cbn [is_heir_loop]; still_tac. Qed.
Lemma still_is_heir l o : still (is_heir l o : prog kst Z).
Proof. apply still_is_heir_loop. Qed.
Lemma still_nspid p d : still (nspid p d : prog kst Z).
Proof. unfold nspid. still_tac. Qed.
#[local] Hint Resolve still_is_heir still_nspid : still.
Lemma still_find_proc_loop n : ∀ i x o, still (find_proc_loop n i x o : prog kst (option nat)).
Proof. induction n as [|n IH]; intros i x o; cbn [find_proc_loop]; still_tac. Qed.
Lemma still_get_pid i n : still (get_pid i n : prog kst Z).
Proof. unfold get_pid. still_tac. Qed.

Lemma still_find_unused n : ∀ i, still (find_unused n i : prog kst (option nat)).
Proof. induction n as [|n IH]; intros i; cbn [find_unused]; still_tac. Qed.
Lemma still_tf_set tf off v : still (tf_set tf off v : prog kst unit).
Proof. unfold tf_set. still_tac. Qed.
Lemma still_tf_copy d s : still (tf_copy d s : prog kst unit).
Proof. unfold tf_copy. still_tac. Qed.
#[local] Hint Resolve still_find_unused still_tf_set still_tf_copy : still.
Lemma still_dup_loop n : ∀ j me np, still (dup_loop filedup n j me np : prog kst unit).
Proof. induction n as [|n IH]; intros j me np; cbn [dup_loop]; still_tac. Qed.
Lemma still_close_loop n : ∀ j me, still (close_loop fileclose n j me : prog kst unit).
Proof. induction n as [|n IH]; intros j me; cbn [close_loop]; still_tac. Qed.
Lemma still_new_init n : ∀ l d, still (new_init_loop n l d : prog kst (option nat)).
Proof. induction n as [|n IH]; intros l d; destruct l; cbn [new_init_loop]; still_tac. Qed.
Lemma still_sched me : still (sched me : prog kst unit).
Proof. unfold sched. still_tac. Qed.
Lemma still_sched_return me : still (sched_return me : prog kst unit).
Proof. unfold sched_return. still_tac. Qed.
Lemma still_setkilled i : still (setkilled i : prog kst unit).
Proof. unfold setkilled. still_tac. Qed.
Lemma still_get_killed i : still (get_killed i : prog kst Z).
Proof. unfold get_killed. still_tac. Qed.
Lemma still_growproc me n : still (growproc me n : prog kst Z).
Proof. unfold growproc. still_tac. Qed.
End still_ops.
#[export] Hint Resolve still_deref still_acquire still_release still_acquire_wait still_release_wait
  still_acquire_pid still_release_pid still_read_ticks still_is_heir still_nspid still_find_proc_loop still_get_pid
  still_find_unused still_tf_set still_tf_copy still_dup_loop still_close_loop still_new_init still_sched still_sched_return
  still_setkilled still_get_killed still_growproc : still.

(** ** Commands that change one core *)

Section upd.
Context {S F : Type} `{PA : PageAllocator S}.
#[local] Abbreviation kst := (Proc.kst S F).

(** The core [i] changes by [g]. *)
Definition upd {A} (i : nat) (g : core → core) (m : prog kst A) : Prop := ∀ k a k', m k = Ok (a, k') →
  ∃ c, cores k !! i = Some c ∧ view k' = (<[i := g c]> (cores k), used k, nodes k, nextpid k, initproc k).

Lemma view_eq (k' : kst) C U N n i0 : view k' = (C, U, N, n, i0) →
  cores k' = C ∧ used k' = U ∧ nodes k' = N ∧ nextpid k' = n ∧ initproc k' = i0.
Proof. unfold view. intros [= <- <- <- <- <-]. done. Qed.
Lemma view_same (k k' : kst) : view k' = view k →
  cores k' = cores k ∧ used k' = used k ∧ nodes k' = nodes k ∧ nextpid k' = nextpid k ∧ initproc k' = initproc k.
Proof. intros H. by apply view_eq. Qed.

Lemma upd_mod i g f : (∀ p, core_of (f p) = g (core_of p)) → upd i g (mod_proc i f).
Proof.
  intros Hf k a k' (p & Hp & _ & ->)%mod_proc_eff. exists (core_of p). rewrite Hf. unfold cores.
  by rewrite list_lookup_fmap, Hp.
Qed.
Lemma upd_bind {A B} i g1 g2 (m : prog kst A) (f : A → prog kst B) :
  upd i g1 m → (∀ a, upd i g2 (f a)) → upd i (λ c, g2 (g1 c)) (m ≫= f).
Proof.
  intros Hm Hf k b k' (a & k1 & H1 & H2)%bind_inv. destruct (Hm _ _ _ H1) as (c & Hc & (E1 & E2 & E3 & E4 & E5)%view_eq).
  destruct (Hf a _ _ _ H2) as (c' & Hc' & ->). exists c. split; [done|]. rewrite E1, E2, E3, E4, E5 in *.
  rewrite list_lookup_insert_eq in Hc' by (by eapply lookup_lt_Some). injection Hc' as <-. by rewrite list_insert_insert_eq.
Qed.
Lemma upd_still_l {A B} i g (m : prog kst A) (f : A → prog kst B) : still m → (∀ a, upd i g (f a)) → upd i g (m ≫= f).
Proof.
  intros Hm Hf k b k' (a & k1 & H1 & H2)%bind_inv. apply Hm, view_same in H1 as (E1 & E2 & E3 & E4 & E5).
  destruct (Hf a _ _ _ H2) as (c & Hc & Hv). exists c. by rewrite E1, E2, E3, E4, E5 in *.
Qed.
Lemma upd_still_r {A B} i g (m : prog kst A) (f : A → prog kst B) : upd i g m → (∀ a, still (f a)) → upd i g (m ≫= f).
Proof.
  intros Hm Hf k b k' (a & k1 & H1 & H2)%bind_inv. apply Hf in H2. rewrite H2. by eapply Hm.
Qed.
Lemma upd_core_ext {A} i g g' (m : prog kst A) : upd i g m → (∀ c, g c = g' c) → upd i g' m.
Proof. intros Hm Hg k a k' (c & Hc & E)%Hm. exists c. by rewrite <- Hg. Qed.
End upd.

(** Find the change by the structure of the command. *)
Ltac upd_step :=
  first
  [ apply upd_mod; intros ?; reflexivity
  | apply upd_still_l; [solve [still_tac]|intros ?]
  | apply upd_still_r; [|intros ?; solve [still_tac]]
  | eapply upd_bind; [|intros ?] ].

Section effects.
Context {S F : Type} `{PA : PageAllocator S}.
Context (filedup fileclose idup iput : nat → prog F unit) (begin_op end_op : prog F unit) (root_inode : prog F nat).
#[local] Abbreviation kst := (Proc.kst S F).

Definition free_core (c : core) : core := mkCore UNUSED 0 (c_ids c) (c_node c) None.
Definition to_state (x : procstate) (c : core) : core := mkCore x (c_pid c) (c_ids c) (c_node c) (c_parent c).
Definition to_parent (x : option nat) (c : core) : core := mkCore (c_state c) (c_pid c) (c_ids c) (c_node c) x.

Lemma upd_pid i v : upd i (λ c, mkCore (c_state c) v (c_ids c) (c_node c) (c_parent c)) (mod_proc i (λ p, set_pid v p) : prog kst unit).
Proof. by apply upd_mod. Qed.
Lemma upd_parent i v : upd i (to_parent v) (mod_proc i (λ p, set_parent v p) : prog kst unit).
Proof. by apply upd_mod. Qed.
Lemma upd_state i v : upd i (to_state v) (mod_proc i (λ p, set_state v p) : prog kst unit).
Proof. by apply upd_mod. Qed.

Lemma freeproc_upd i : upd i free_core (freeproc i : prog kst unit).
Proof.
  unfold freeproc. eapply upd_core_ext.
  - repeat first [ apply upd_still_l; [solve [still_tac]|intros ?] | apply upd_pid | apply upd_parent | apply upd_state
      | eapply upd_bind; [first [apply upd_pid|apply upd_parent]|intros ?] | apply upd_still_r; [|intros ?; solve [still_tac]]].
  - done.
Qed.

Lemma allocpid_eff k x k' : allocpid (S := S) (F := F) k = Ok (x, k') →
  x = nextpid k ∧ view k' = (cores k, used k, nodes k, i32 (nextpid k + 1), initproc k).
Proof.
  unfold allocpid. intros H. inv_bind H as a k1 E1. apply still_acquire_pid, view_same in E1 as (C1 & U1 & N1 & P1 & I1).
  inv_bind H as a2 k2 E2. injection E2 as <- <-. inv_bind H as a3 k3 E3. injection E3 as _ <-.
  inv_bind H as a4 k4 E4. injection H as <- <-. apply still_release_pid, view_same in E4 as (C2 & U2 & N2 & P2 & I2).
  cbn in *. unfold view. rewrite C2, U2, N2, P2, I2. cbn. unfold cores at 1. cbn. fold (cores k1). by rewrite C1, U1, N1, P1, I1.
Qed.

Lemma get_proc_eff i (k : kst) p k' : get_proc i k = Ok (p, k') → k' = k ∧ procs k !! i = Some p ∧ cores k !! i = Some (core_of p).
Proof.
  unfold get_proc. destruct (procs k !! i) as [q|] eqn:E; [|done]. intros [= <- <-]. unfold cores.
  by rewrite list_lookup_fmap, E.
Qed.
Lemma get_node_eff n (k : kst) x k' : get_node n k = Ok (x, k') → k' = k ∧ ∃ j, n = Some j ∧ nodes k !! j = Some x.
Proof.
  unfold get_node. destruct n as [j|]; [|done]. destruct (nodes k !! j) as [y|] eqn:E; [|done]. intros [= <- <-]. eauto.
Qed.

Lemma find_unused_eff n : ∀ i (k : kst) r k', find_unused n i k = Ok (Some r, k') →
  view k' = view k ∧ ∃ c, cores k !! r = Some c ∧ c_state c = UNUSED.
Proof.
  induction n as [|n IH]; intros i k r k' H; cbn [find_unused] in H; [done|]. inv_bind H as a k1 E1. apply still_acquire in E1.
  inv_bind H as p k2 E2. apply get_proc_eff in E2 as (-> & _ & Hc). apply view_same in E1 as E1'. destruct E1' as (C1 & _).
  case_bool_decide.
  - injection H as <- <-. split; [done|]. exists (core_of p). by rewrite <- C1.
  - inv_bind H as b k3 E3. apply still_release in E3. apply IH in H as (Hv & c & Hc' & Hs). rewrite Hv, E3, E1.
    split; [done|]. exists c. split; [|done]. apply view_same in E3 as (C3 & _). by rewrite <- C1, <- C3.
Qed.

(** [allocproc] takes an unused slot and a pid; when it fails, the slot is free
    again but the pid is spent. *)
Definition alloc_core (x : Z) (c : core) : core := mkCore USED x (c_ids c) (c_node c) (c_parent c).

Lemma take_slot np (k : kst) x c b k' : cores k !! np = Some c →
  (y ← allocpid; mod_proc np (set_pid y);; mod_proc np (set_state USED);; mret y) k = Ok (b, k') → b = x → x = nextpid k →
  view k' = (<[np := alloc_core x c]> (cores k), used k, nodes k, i32 (x + 1), initproc k).
Proof.
  intros Hc H _ ->. inv_bind H as y k1 E1. apply allocpid_eff in E1 as (-> & V1). apply view_eq in V1 as (C1 & U1 & N1 & P1 & I1).
  inv_bind H as a2 k2 E2. inv_bind H as a3 k3 E3. injection H as _ <-.
  apply (upd_mod np (λ c, mkCore (c_state c) (nextpid k) (c_ids c) (c_node c) (c_parent c))) in E2 as (c2 & Hc2 & V2); [|done].
  apply view_eq in V2 as (C2 & U2 & N2 & P2 & I2).
  apply (upd_mod np (to_state USED)) in E3 as (c3 & Hc3 & ->); [|done]. assert (c2 = c) as -> by congruence.
  rewrite C2, U2, N2, P2, I2, U1, N1, P1, I1, C1 in *.
  rewrite list_lookup_insert_eq in Hc3 by (by eapply lookup_lt_Some). injection Hc3 as <-. by rewrite list_insert_insert_eq.
Qed.

Lemma give_back {A} np (k : kst) (v : A) c C U N n i0 b k' : view k = (<[np := c]> C, U, N, n, i0) → (np < length C)%nat →
  (freeproc np;; release np;; mret v) k = Ok (b, k') → b = v ∧ view k' = (<[np := free_core c]> C, U, N, n, i0).
Proof.
  intros (C6 & U6 & N6 & P6 & I6)%view_eq Hlt H. inv_bind H as a k7 E7. apply freeproc_upd in E7 as (c' & Hc' & V7).
  inv_bind H as a8 k8 E8. injection H as <- <-. apply still_release in E8. split; [done|]. rewrite E8, V7.
  rewrite C6 in *. rewrite list_lookup_insert_eq in Hc' by done. injection Hc' as <-.
  by rewrite list_insert_insert_eq, U6, N6, P6, I6.
Qed.

Lemma allocproc_eff tr (k : kst) r k' : allocproc tr k = Ok (r, k') →
  match r with
  | Some np => ∃ c, cores k !! np = Some c ∧ c_state c = UNUSED ∧
      view k' = (<[np := alloc_core (nextpid k) c]> (cores k), used k, nodes k, i32 (nextpid k + 1), initproc k)
  | None => view k' = view k ∨ ∃ np c, cores k !! np = Some c ∧ c_state c = UNUSED ∧
      view k' = (<[np := free_core c]> (cores k), used k, nodes k, i32 (nextpid k + 1), initproc k)
  end.
Proof.
  unfold allocproc. intros H. inv_bind H as r0 k0 E0. destruct r0 as [np|].
  2:{ injection H as <- <-. apply still_find_unused in E0. by left. }
  apply find_unused_eff in E0 as (V0 & c & Hc & Hs). apply view_same in V0 as (C0 & U0 & N0 & P0 & I0).
  inv_bind H as x k1 E1. pose proof (proj1 (allocpid_eff _ _ _ E1)) as Hx. inv_bind H as a2 k2 E2. inv_bind H as a3 k3 E3.
  assert (view k3 = (<[np := alloc_core (nextpid k) c]> (cores k), used k, nodes k, i32 (nextpid k + 1), initproc k)) as V3.
  { rewrite (take_slot np k0 x c x k3); [|by rewrite C0| |done|done].
    - by rewrite Hx, C0, U0, N0, P0, I0.
    - rewrite (bind_Ok _ _ _ _ _ E1), (bind_Ok _ _ _ _ _ E2), (bind_Ok _ _ _ _ _ E3). done. }
  assert (np < length (cores k))%nat as Hlt by by eapply lookup_lt_Some.
  assert (free_core (alloc_core (nextpid k) c) = free_core c) as Ef by done.
  inv_bind H as tf k4 E4. apply still_on_mem in E4. inv_bind H as a5 k5 E5.
  apply still_mod_proc in E5; [|done]. rewrite E4, V3 in E5. destruct (tf =? 0).
  - destruct (give_back np k5 _ _ _ _ _ _ _ r k' E5 Hlt H) as [-> HV]. right. by exists np, c.
  - inv_bind H as pt k6 E6. apply still_on_mem in E6. inv_bind H as a7 k7 E7. apply still_mod_proc in E7; [|done].
    rewrite E6, E5 in E7. destruct (pt =? 0).
    + destruct (give_back np k7 _ _ _ _ _ _ _ r k' E7 Hlt H) as [-> HV]. right. by exists np, c.
    + injection H as <- <-. exists c. split; [done|]. by split.
Qed.

Lemma copy_proc_eff me np (k : kst) r k' C U N n i0 c : view k = (<[np := c]> C, U, N, n, i0) → (np < length C)%nat →
  copy_proc filedup idup me np k = Ok (r, k') →
  (r = -1 ∧ view k' = (<[np := free_core c]> C, U, N, n, i0)) ∨ (r = 0 ∧ view k' = view k).
Proof.
  intros HV Hlt H. unfold copy_proc in H. inv_bind H as p k1 E1. apply get_proc_eff in E1 as [-> _].
  inv_bind H as q k2 E2. apply get_proc_eff in E2 as [-> _]. inv_bind H as x k3 E3. apply still_on_mem in E3. rewrite HV in E3.
  destruct (x <? 0).
  - left. by eapply (give_back np k3).
  - right. assert (view k' = view k3 ∧ r = 0) as [-> ->]; [|by rewrite E3, HV].
    split.
    + revert H. match goal with |- ?m k3 = _ → _ => assert (still m) as Hs end; [still_tac|]. apply Hs.
    + repeat (apply bind_inv in H as (? & ? & _ & H)). by injection H as <- _.
Qed.

Lemma start_proc_upd me np : upd np (λ c, to_state RUNNABLE (to_parent (Some me) c)) (start_proc me np : prog kst Z).
Proof.
  unfold start_proc. repeat (apply upd_still_l; [solve [still_tac]|intros ?]).
  eapply (upd_bind _ (to_parent (Some me))); [by apply upd_mod|intros ?].
  repeat (apply upd_still_l; [solve [still_tac]|intros ?]). apply upd_still_r; [by apply upd_mod|intros ?]. still_tac.
Qed.

Lemma mod_node_eff n f (k : kst) a k' : mod_node n f k = Ok (a, k') → ∃ j x, n = Some j ∧ nodes k !! j = Some x ∧
  procs k' = procs k ∧ view k' = (cores k, used k, <[j := f x]> (nodes k), nextpid k, initproc k).
Proof.
  unfold mod_node. destruct n as [j|]; [|done]. destruct (nodes k !! j) as [x|] eqn:E; [|done]. intros [= <- <-].
  by exists j, x.
Qed.

Definition with_ids (l : list Z) (c : core) : core := mkCore (c_state c) (c_pid c) l (c_node c) (c_parent c).

(** One turn of the loop that enters the namespaces. *)
Lemma enter_turn np j t (k : kst) a k' x c : nodes k !! j = Some x → cores k !! np = Some c → 0 ≤ depth x →
  enter_loop (Datatypes.S t) np (Some j) k = Ok (a, k') →
  ∃ k1, view k1 = (<[np := with_ids (<[Z.to_nat (depth x) := last_pid x]> (c_ids c)) c]> (cores k), used k,
                   upd_nodes [j] enter1 (nodes k), nextpid k, initproc k) ∧
    (Z.to_nat (depth x) < length (c_ids c))%nat ∧ enter_loop t np (head x) k1 = Ok (a, k').
Proof.
  intros Hx Hc Hd H. cbn [enter_loop] in H. inv_bind H as a1 k1 E1. apply mod_node_eff in E1 as (j1 & x1 & [= <-] & Hx1 & _ & V1).
  rewrite Hx in Hx1. injection Hx1 as <-. apply view_eq in V1 as (C1 & U1 & N1 & P1 & I1).
  inv_bind H as y k2 E2. apply get_node_eff in E2 as (-> & j2 & [= <-] & Hy).
  rewrite N1, list_lookup_insert_eq in Hy by (by eapply lookup_lt_Some). injection Hy as <-.
  inv_bind H as a3 k3 E3. apply mod_node_eff in E3 as (j3 & x3 & [= <-] & Hx3 & _ & V3).
  rewrite N1, list_lookup_insert_eq in Hx3 by (by eapply lookup_lt_Some). injection Hx3 as <-.
  apply view_eq in V3 as (C3 & U3 & N3 & P3 & I3).
  inv_bind H as p k4 E4. apply get_proc_eff in E4 as (-> & _ & Hp). rewrite C3, C1, Hc in Hp. injection Hp as ->.
  inv_bind H as a5 k5 E5. cbn [depth set_cnt] in E5. destruct (Z.ltb_spec (depth x) 0); [lia|]. cbn [orb] in E5.
  destruct (Z.leb_spec (Z.of_nat (length (namespace_pids p))) (depth x)); [done|].
  apply (upd_mod np (with_ids (<[Z.to_nat (depth x) := last_pid x]> (namespace_pids p)))) in E5 as (c' & Hc' & V5); [|done].
  exists k5. split_and!; [|cbn; lia|done]. rewrite V5. rewrite C3, C1, Hc in Hc'. injection Hc' as <-.
  rewrite C3, C1, U3, U1, N3, N1, P3, P1, I3, I1. f_equal. f_equal. f_equal.
  rewrite list_insert_insert_eq. by rewrite (upd_single j x) by done.
Qed.

(** The loop enters the whole chain of [j]. *)
Lemma enter_eff np d : ∀ j (k : kst) a k' x c, Z.to_nat (depth x) = d →
  forest (used k) (nodes k) → length (used k) = length (nodes k) → used k !! j = Some true → nodes k !! j = Some x →
  cores k !! np = Some c → enter_loop (Datatypes.S d) np (Some j) k = Ok (a, k') →
  ∃ l, length l = length (c_ids c) ∧
    (∀ i y, i ∈ chain (nodes k) j → nodes k !! i = Some y → l !! Z.to_nat (depth y) = Some (last_pid y)) ∧
    (∀ t, (d < t)%nat → l !! t = c_ids c !! t) ∧
    view k' = (<[np := with_ids l c]> (cores k), used k, upd_nodes (chain (nodes k) j) enter1 (nodes k), nextpid k, initproc k).
Proof.
  induction d as [|d IH]; intros j k a k' x c Hd HF HL Hj Hx Hc H; destruct (HF j x Hj Hx) as [Hdx Hh];
    destruct (enter_turn np j _ k a k' x c Hx Hc ltac:(lia) H) as (k1 & V1 & Hlt & H1);
    rewrite (chain_unfold (used k) (nodes k) HF HL j x Hj Hx).
  - destruct (head x) as [m|]; [destruct Hh as (Hm & y & Hy & Hdy); destruct (HF m y Hm Hy); lia|].
    cbn in H1. injection H1 as _ <-. exists (<[Z.to_nat (depth x) := last_pid x]> (c_ids c)). split_and!.
    + apply length_insert.
    + intros i y ->%list_elem_of_singleton Hy. rewrite Hx in Hy. injection Hy as <-. by rewrite list_lookup_insert_eq.
    + intros t Ht. rewrite list_lookup_insert_ne by lia. done.
    + done.
  - destruct (head x) as [m|] eqn:Eh; [|lia]. destruct Hh as (Hm & y & Hy & Hdy).
    apply view_eq in V1 as (C1 & U1 & N1 & P1 & I1). set (c1 := with_ids _ c) in C1.
    assert (m ≠ j) as Hne by (intros ->; rewrite Hx in Hy; injection Hy as <-; lia).
    assert (j ∉ chain (nodes k) m) as Hnin.
    { intros (t & Ht)%list_elem_of_lookup_1. destruct (chain_depth _ _ HF HL m Hm t j Ht) as (y' & x' & Hy' & Hx' & _ & D).
      simplify_eq. lia. }
    assert (∀ i, i ≠ j → nodes k1 !! i = nodes k !! i) as Hothers.
    { intros i Hi. rewrite N1, (upd_single j x) by done. by rewrite list_lookup_insert_ne. }
    destruct (IH m k1 a k' y c1) as (l & Hl & Hids & Hrest & HV).
    + lia. + rewrite U1, N1. by apply upd_forest. + rewrite U1, N1. by rewrite upd_length. + by rewrite U1.
    + by rewrite Hothers. + rewrite C1, list_lookup_insert_eq; [done|]. by eapply lookup_lt_Some. + done.
    + rewrite N1, upd_chain in Hids, HV by done. exists l. split_and!.
      * rewrite Hl. cbn. apply length_insert.
      * intros i z [->|Hi]%elem_of_cons Hz.
        -- rewrite Hx in Hz. injection Hz as <-. rewrite Hrest by lia. cbn. by rewrite list_lookup_insert_eq.
        -- apply (Hids i z Hi). rewrite <- N1, Hothers; [done|congruence].
      * intros t Ht. rewrite Hrest by lia. cbn. by rewrite list_lookup_insert_ne by lia.
      * rewrite HV, C1, U1, P1, I1, list_insert_insert_eq, upd_cons by done. done.
Qed.
End effects.
End ProcLogic.
