(* ===== verification/ProcEffects.v ===== *)
(** * Effects of leaving, waking, adopting and allocating a node

    The rest of the lemmas on how the operations of proc.c change cores and
    nodes; the walks along heads return for every chain of the forest. *)

From S2P Require Import Prelude PageAlloc Vm Proc Namespaces ProcLogic.
Import PageAlloc Proc Namespaces ProcLogic.

Module ProcEffects.
Section effects.
Context {S F : Type} `{PA : PageAllocator S}.
#[local] Abbreviation kst := (Proc.kst S F).

(** ** Walks along heads *)

Lemma ns_node_ok (k : kst) j x : nodes k !! j = Some x → get_node (Some j) k = Ok (x, k).
Proof. intros H. unfold get_node. by rewrite H. Qed.

Lemma is_heir_loop_ok (k : kst) : forest (used k) (nodes k) → length (used k) = length (nodes k) →
  ∀ d fuel j x o, (d < fuel)%nat → used k !! j = Some true → nodes k !! j = Some x → Z.to_nat (depth x) = d →
  is_heir_loop fuel (Some j) (Some o) k = Ok (b2z (bool_decide (o ∈ chain (nodes k) j)), k).
Proof.
  intros HF HL. induction d as [|d IH]; intros fuel j x o Hf Hj Hx Hd; (destruct fuel as [|fuel]; [lia|]); cbn [is_heir_loop];
    rewrite (bind_Ok _ _ _ _ _ (ns_node_ok k j x Hx)); destruct (HF j x Hj Hx) as [Hdx Hh];
    rewrite (chain_unfold _ _ HF HL j x Hj Hx).
  - destruct (Z.ltb_spec 0 (depth x)); [lia|]. destruct (head x) as [m|].
    { destruct Hh as (Hm & y & Hy & Hdy). destruct (HF m y Hm Hy). lia. }
    unfold mret, prog_ret. do 3 f_equal. apply bool_decide_ext. rewrite list_elem_of_singleton. naive_solver.
  - destruct (Z.ltb_spec 0 (depth x)); [|lia]. destruct (head x) as [m|]; [|lia]. destruct Hh as (Hm & y & Hy & Hdy).
    destruct (decide (Some j = Some o)) as [[= ->]|Hne].
    + rewrite bool_decide_true by done. rewrite bool_decide_true by apply list_elem_of_here. done.
    + rewrite bool_decide_false by done. rewrite (IH fuel m y o) by (done || lia). do 3 f_equal.
      apply bool_decide_ext. rewrite elem_of_cons. naive_solver.
Qed.
(** [is_heir] terminates and says whether [o] is on the chain of [j]. *)
Lemma is_heir_ok (k : kst) j o : forest (used k) (nodes k) → length (used k) = length (nodes k) →
  used k !! j = Some true → is_heir (Some j) (Some o) k = Ok (b2z (bool_decide (o ∈ chain (nodes k) j)), k).
Proof.
  intros HF HL Hj. destruct (used_node _ _ HL j Hj) as [x Hx]. destruct (HF j x Hj Hx) as [Hd _].
  unfold is_heir, NNMND. apply (is_heir_loop_ok k HF HL (Z.to_nat (depth x)) _ j x); [lia|done..].
Qed.

Lemma leave_ok d : ∀ j (k : kst) x, Z.to_nat (depth x) = d →
  forest (used k) (nodes k) → length (used k) = length (nodes k) → used k !! j = Some true → nodes k !! j = Some x →
  leave_loop (Datatypes.S d) (Some j) k = Ok (tt, set_nodes (upd_nodes (chain (nodes k) j) leave1 (nodes k)) k).
Proof.
  induction d as [|d IH]; intros j k x Hd HF HL Hj Hx; cbn [leave_loop];
    set (k1 := set_nodes (<[j := leave1 x]> (nodes k)) k);
    (assert (mod_node (Some j) (λ n, set_cnt (i32 (cnt_proc n - 1)) n) k = Ok (tt, k1)) as E1 by (unfold mod_node; by rewrite Hx));
    (assert (nodes k1 !! j = Some (leave1 x)) as Hx1 by (cbn; rewrite list_lookup_insert_eq; [done|by eapply lookup_lt_Some]));
    rewrite (bind_Ok _ _ _ _ _ E1), (bind_Ok _ _ _ _ _ (ns_node_ok k1 j _ Hx1)); cbn [head leave1 set_cnt];
    destruct (HF j x Hj Hx) as [Hdx Hh]; rewrite (chain_unfold _ _ HF HL j x Hj Hx).
  - destruct (head x) as [m|]; [destruct Hh as (Hm & y & Hy & Hdy); destruct (HF m y Hm Hy); lia|].
    unfold skip, mret, prog_ret. by rewrite (upd_single j x) by done.
  - destruct (head x) as [m|] eqn:Eh; [|lia]. destruct Hh as (Hm & y & Hy & Hdy).
    assert (m ≠ j) as Hne by (intros ->; rewrite Hx in Hy; injection Hy as <-; lia).
    assert (j ∉ chain (nodes k) m) as Hnin.
    { intros (t & Ht)%list_elem_of_lookup_1. destruct (chain_depth _ _ HF HL m Hm t j Ht) as (y' & x' & Hy' & Hx' & _ & D).
      simplify_eq. lia. }
    assert (nodes k1 = upd_nodes [j] leave1 (nodes k)) as N1 by by rewrite (upd_single j x).
    cbn [leave_loop] in IH. rewrite (IH m k1 y).
    + rewrite N1, upd_chain, upd_cons by done. done.
    + lia. + rewrite N1. by apply upd_forest. + rewrite N1. by rewrite upd_length. + done.
    + cbn. by rewrite list_lookup_insert_ne.
Qed.

(** [U] is the state before the loop: the nodes it visits stay in [U]. *)
Lemma clean_loop_ok (U : list bool) (N : list node) : forest U N → length U = length N → (length N ≤ 64)%nat →
  ∀ d fuel j (k : kst) x, (d < fuel)%nat → Z.to_nat (depth x) = d → nodes k = N → U !! j = Some true → N !! j = Some x →
  clean_node_loop fuel (Some j) k = Ok (tt, set_used (cleaned N (chain N j) (used k)) k).
Proof.
  intros HF HL H64 d. induction d as [|d IH]; intros fuel j k x Hf Hd HN Hj Hx; (destruct fuel as [|fuel]; [lia|]);
    cbn [clean_node_loop]; (rewrite (bind_Ok _ _ _ _ _ (ns_node_ok k j x ltac:(by rewrite HN))));
    destruct (HF j x Hj Hx) as [Hdx Hh]; rewrite (chain_unfold _ _ HF HL j x Hj Hx); cbn [cleaned]; rewrite Hx.
  - replace (depth x) with 0 by lia. cbn. unfold skip, mret, prog_ret. by destruct k.
  - destruct (negb (depth x =? 0) && (cnt_proc x =? 0)); [|unfold skip, mret, prog_ret; by destruct k].
    destruct (head x) as [m|] eqn:Eh; [|lia]. destruct Hh as (Hm & y & Hy & Hdy).
    pose proof (lookup_lt_Some _ _ _ Hx) as Hlt. unfold namespace_free. prog_run. rewrite bool_decide_true by lia.
    rewrite (IH fuel m _ y) by (done || lia). done.
Qed.
Lemma clean_node_ok (k : kst) j : forest (used k) (nodes k) → length (used k) = length (nodes k) →
  (length (nodes k) ≤ 64)%nat → used k !! j = Some true →
  clean_node (Some j) k = Ok (tt, set_used (cleaned (nodes k) (chain (nodes k) j) (used k)) k).
Proof.
  intros HF HL H64 Hj. destruct (used_node _ _ HL j Hj) as [x Hx]. destruct (HF j x Hj Hx) as [Hd _].
  unfold clean_node, NNMND. apply (clean_loop_ok (used k) (nodes k) HF HL H64 (Z.to_nat (depth x)) _ j k x); [lia|done..].
Qed.

(** The first node that is not in use. *)
Lemma malloc_loop_eff n : ∀ i (k : kst) r k', namespace_malloc_loop n i k = Ok (r, k') →
  match r with
  | Some j => used k !! j = Some false ∧ k' = set_used (<[j := true]> (used k)) k
  | None => k' = k ∧ ∀ j, (i ≤ j < i + n)%nat → used k !! j = Some true
  end.
Proof.
  induction n as [|n IH]; intros i k r k' H; cbn [namespace_malloc_loop] in H.
  - injection H as <- <-. split; [done|]. lia.
  - inv_bind H as st k1 E1. injection E1 as <- <-. destruct (used k !! i) as [[|]|] eqn:E; [| |done].
    + apply IH in H. destruct r as [j|]; [done|]. destruct H as [-> Hall]. split; [done|]. intros j Hj.
      destruct (decide (j = i)) as [->|]; [done|]. apply Hall. lia.
    + inv_bind H as a k2 E2. injection E2 as <- <-. injection H as <- <-. done.
Qed.

(** ** Waking *)

Definition waking (c c' : core) : Prop := c' = c ∨ (c_state c = SLEEPING ∧ c' = to_state RUNNABLE c).
Lemma waking_refl c : waking c c.
Proof. by left. Qed.
Lemma waking_trans c1 c2 c3 : waking c1 c2 → waking c2 c3 → waking c1 c3.
Proof. intros [->|[H1 ->]] [->|[H2 ->]]; [by left|by right|by right|]. done. Qed.

(** Only the cores change, each of them by [R]. *)
Definition evolve {A} (R : nat → core → core → Prop) (m : prog kst A) : Prop := ∀ k a k', m k = Ok (a, k') →
  used k' = used k ∧ nodes k' = nodes k ∧ nextpid k' = nextpid k ∧ initproc k' = initproc k ∧
  length (cores k') = length (cores k) ∧ ∀ i c, cores k !! i = Some c → ∃ c', cores k' !! i = Some c' ∧ R i c c'.

Lemma evolve_still {A} R (m : prog kst A) : (∀ i c, R i c c) → still m → evolve R m.
Proof. intros HR Hm k a k' (C & U & N & P & I)%Hm%view_same. rewrite C, U, N, P, I. split_and!; [done..|]. intros i c Hc. eauto. Qed.
Lemma evolve_bind {A B} R1 R2 R (m : prog kst A) (f : A → prog kst B) :
  (∀ i c1 c2 c3, R1 i c1 c2 → R2 i c2 c3 → R i c1 c3) → evolve R1 m → (∀ a, evolve R2 (f a)) → evolve R (m ≫= f).
Proof.
  intros HR Hm Hf k b k' (a & k1 & H1 & H2)%bind_inv. destruct (Hm _ _ _ H1) as (U1 & N1 & P1 & I1 & L1 & C1).
  destruct (Hf _ _ _ _ H2) as (U2 & N2 & P2 & I2 & L2 & C2). split_and!; try congruence.
  intros i c Hc. destruct (C1 i c Hc) as (c1 & Hc1 & HR1). destruct (C2 i c1 Hc1) as (c2 & Hc2 & HR2). eauto.
Qed.
Lemma evolve_upd {A} (R : nat → core → core → Prop) i g (m : prog kst A) : (∀ j c, j ≠ i → R j c c) → (∀ c, R i c (g c)) → upd i g m → evolve R m.
Proof.
  intros H1 H2 Hm k a k' (c & Hc & (C & U & N & P & I)%view_eq)%Hm. rewrite C, U, N, P, I. split_and!; [done..|apply length_insert|].
  intros j d Hd. destruct (decide (j = i)) as [->|Hne].
  - rewrite Hc in Hd. injection Hd as <-. exists (g c). rewrite list_lookup_insert_eq by (by eapply lookup_lt_Some). done.
  - exists d. rewrite list_lookup_insert_ne by done. eauto.
Qed.

(** A turn of the loop of [wakeup]. *)
Lemma wake_turn_evolve i ch : evolve (λ t c c', waking c c' ∧ (t ≠ i → c' = c))
  (acquire i;; p ← get_proc i;
   (if bool_decide (state p = SLEEPING) && (chan p =? ch) then mod_proc i (set_state RUNNABLE) else skip);; release i : prog kst unit).
Proof.
  intros k a k' H. inv_bind H as a1 k1 E1. apply still_acquire, view_same in E1 as (C1 & U1 & N1 & P1 & I1).
  inv_bind H as p k2 E2. apply get_proc_eff in E2 as (-> & _ & Hp). inv_bind H as a3 k3 E3.
  apply still_release, view_same in H as (C4 & U4 & N4 & P4 & I4). rewrite C4, U4, N4, P4, I4, <- C1, <- U1, <- N1, <- P1, <- I1.
  destruct (bool_decide (state p = SLEEPING) && (chan p =? ch)) eqn:Eb.
  - apply andb_true_iff in Eb as [Eb _]. apply bool_decide_eq_true in Eb.
    apply (upd_mod i (to_state RUNNABLE)) in E3 as (c & Hc & (C & U & N & P & I)%view_eq); [|done].
    rewrite C, U, N, P, I. split_and!; [done..|apply length_insert|]. intros j d Hd. destruct (decide (j = i)) as [->|Hne].
    + rewrite Hc in Hd. injection Hd as <-. exists (to_state RUNNABLE c). rewrite list_lookup_insert_eq by (by eapply lookup_lt_Some).
      split; [done|]. rewrite Hc in Hp. injection Hp as ->. split; [by right|done].
    + exists d. rewrite list_lookup_insert_ne by done. split; [done|]. split; [by left|done].
  - injection E3 as _ <-. split_and!; [done..|]. intros j d Hd. exists d. split; [done|]. split; [by left|done].
Qed.

(** The caller is not woken. *)
Definition wakes (me : option nat) (t : nat) (c c' : core) : Prop := waking c c' ∧ (me = Some t → c' = c).
Lemma wakes_refl me t c : wakes me t c c.
Proof. split; [by left|done]. Qed.
Lemma wakes_trans me t c1 c2 c3 : wakes me t c1 c2 → wakes me t c2 c3 → wakes me t c1 c3.
Proof. intros [W1 E1] [W2 E2]. split; [by eapply waking_trans|]. intros Hme. by rewrite E2, E1. Qed.
Lemma wakeup_loop_evolve n : ∀ i me ch, evolve (wakes me) (wakeup_loop n i me ch : prog kst unit).
Proof.
  induction n as [|n IH]; intros i me ch; cbn [wakeup_loop].
  - apply evolve_still; [apply wakes_refl|apply still_skip].
  - eapply evolve_bind; [apply wakes_trans| |intros ?; apply IH]. case_bool_decide as Hme.
    + apply evolve_still; [apply wakes_refl|apply still_skip].
    + intros k a k' H. destruct (wake_turn_evolve i ch k a k' H) as (U & N & P & I & L & C). split_and!; [done..|].
      intros j c Hc. destruct (C j c Hc) as (c' & Hc' & Hw & Ho). exists c'. split; [done|]. split; [done|]. intros ->.
      apply Ho. congruence.
Qed.
Lemma wakeup_evolve me ch : evolve (wakes me) (wakeup me ch : prog kst unit).
Proof. apply wakeup_loop_evolve. Qed.

(** ** Adopting *)

(** The children of [me] get the parent [ni] ([b]: the slot has been visited);
    sleepers may be woken, [me] is not. *)
Definition adopts (me : nat) (ni : option nat) (b : bool) (t : nat) (c c' : core) : Prop :=
  ∃ x, c' = mkCore x (c_pid c) (c_ids c) (c_node c) (if b && bool_decide (c_parent c = Some me) then ni else c_parent c) ∧
    (x = c_state c ∨ (c_state c = SLEEPING ∧ x = RUNNABLE)) ∧ (t = me → x = c_state c).

Lemma wakes_adopts me ni t c c' : wakes (Some me) t c c' → adopts me ni false t c c'.
Proof.
  intros [[->|[Hs ->]] Hme].
  - exists (c_state c). split; [by destruct c|]. split; [by left|done].
  - exists RUNNABLE. split; [done|]. split; [by right|]. intros ->. apply (f_equal c_state (Hme eq_refl)).
Qed.
Lemma adopts_trans me ni b1 b2 t c1 c2 c3 : (b1 = false ∨ b2 = false) →
  adopts me ni b1 t c1 c2 → adopts me ni b2 t c2 c3 → adopts me ni (b1 || b2) t c1 c3.
Proof.
  intros Hb (x & -> & Hx & Hme) (y & -> & Hy & Hme'). cbn [c_state c_pid c_ids c_node c_parent] in *. exists y. split_and!.
  - f_equal. destruct Hb as [-> | ->]; cbn; [done|]. by rewrite orb_false_r.
  - destruct Hx as [->|[? ->]], Hy as [->|[? ->]]; auto.
  - intros Ht. rewrite Hme', Hme by done. done.
Qed.

Lemma reparent_turn_evolve i me ni : evolve (λ t, adopts me ni (bool_decide (t = i)) t)
  (p ← get_proc i;
   if bool_decide (parent p = Some me) then
     mod_proc i (set_parent ni);; st ← get; wakeup (Some me) (opt_chan (initproc st))
   else skip : prog kst unit).
Proof.
  intros k a k' H. inv_bind H as p k2 E2. apply get_proc_eff in E2 as (-> & _ & Hp). case_bool_decide as Hpar.
  - inv_bind H as a3 k3 E3. inv_bind H as st k4 E4. injection E4 as <- <-.
    apply (upd_mod i (to_parent ni)) in E3 as (c & Hc & (C & U & N & P & I)%view_eq); [|done].
    apply wakeup_evolve in H as (U' & N' & P' & I' & L' & C'). rewrite Hc in Hp. injection Hp as ->.
    rewrite C in L', C'. rewrite U', N', P', I', L', length_insert. split_and!; [done..|].
    intros j d Hd. destruct (decide (j = i)) as [->|Hne].
    + rewrite Hc in Hd. injection Hd as <-. destruct (C' i (to_parent ni (core_of p))) as (c' & Hc' & Hw).
      { rewrite list_lookup_insert_eq; [done|]. by eapply lookup_lt_Some. }
      exists c'. split; [done|]. apply (wakes_adopts me ni) in Hw as (x & -> & Hx & Hme). exists x. cbn in *.
      rewrite (bool_decide_true (i = i)), bool_decide_true by done. done.
    + destruct (C' j d) as (c' & Hc' & Hw); [by rewrite list_lookup_insert_ne|]. exists c'. split; [done|].
      rewrite bool_decide_false by done. by apply wakes_adopts.
  - injection H as _ <-. split_and!; [done..|]. intros j d Hd. exists d. split; [done|]. exists (c_state d). split_and!; [|by left|done].
    destruct (decide (j = i)) as [->|Hne].
    + rewrite Hp in Hd. injection Hd as <-. rewrite (bool_decide_false (c_parent _ = _)) by done. by rewrite andb_false_r.
    + rewrite (bool_decide_false (j = i)) by done. by destruct d.
Qed.

Lemma evolve_ext {A} (R R' : nat → core → core → Prop) (m : prog kst A) : (∀ t c c', R t c c' → R' t c c') → evolve R m → evolve R' m.
Proof.
  intros HR Hm k a k' (U & N & P & I & L & C)%Hm. split_and!; [done..|]. intros i c Hc. destruct (C i c Hc) as (c' & ? & ?). eauto.
Qed.

Lemma reparent_loop_evolve me ni n : ∀ i,
  evolve (λ t, adopts me ni (bool_decide (i ≤ t < i + n)%nat) t) (reparent_loop n i me ni : prog kst unit).
Proof.
  induction n as [|n IH]; intros i; cbn [reparent_loop].
  - apply (evolve_ext (wakes (Some me))).
    + intros t c c'. rewrite bool_decide_false by lia. apply wakes_adopts.
    + apply evolve_still; [apply wakes_refl|apply still_skip].
  - apply (evolve_ext (λ t, adopts me ni (bool_decide (t = i) || bool_decide (i + 1 ≤ t < i + 1 + n)%nat) t)).
    + intros t c c'. by replace (bool_decide (t = i) || bool_decide (i + 1 ≤ t < i + 1 + n)%nat)
        with (bool_decide (i ≤ t < i + Datatypes.S n)%nat) by (repeat case_bool_decide; lia || done).
    + intros k a k' H. rewrite <- bind_assoc' in H. revert k a k' H.
      eapply evolve_bind; [|apply (reparent_turn_evolve i me ni)|intros ?; apply IH].
      intros t c1 c2 c3. apply adopts_trans. repeat case_bool_decide; auto. lia.
Qed.

(** The init process of the closest namespace that has one. *)
Fixpoint closest_init (N : list node) (c : list nat) (d : option nat) : option nat :=
  match c with
  | [] => d
  | i :: c' => match N !! i ≫= ninit with Some s => Some s | None => closest_init N c' d end
  end.
Lemma closest_init_cases N c d : closest_init N c d = d ∨
  ∃ i x s, i ∈ c ∧ N !! i = Some x ∧ ninit x = Some s ∧ closest_init N c d = Some s.
Proof.
  induction c as [|i c IH]; cbn; [by left|]. destruct (N !! i) as [x|] eqn:Ex; cbn.
  - destruct (ninit x) as [s|] eqn:Es.
    + right. exists i, x, s. split_and!; [apply list_elem_of_here|done..].
    + destruct IH as [->|(i' & x' & s' & Hi & ?)]; [by left|]. right. exists i', x', s'. split; [by apply list_elem_of_further|done].
  - destruct IH as [->|(i' & x' & s' & Hi & ?)]; [by left|]. right. exists i', x', s'. split; [by apply list_elem_of_further|done].
Qed.
Lemma new_init_ok (U : list bool) (k : kst) : forest U (nodes k) → length U = length (nodes k) →
  ∀ d fuel j x dflt, (d < fuel)%nat → U !! j = Some true → nodes k !! j = Some x → Z.to_nat (depth x) = d →
  new_init_loop fuel (Some j) dflt k = Ok (closest_init (nodes k) (chain (nodes k) j) dflt, k).
Proof.
  intros HF HL. induction d as [|d IH]; intros fuel j x dflt Hf Hj Hx Hd; (destruct fuel as [|fuel]; [lia|]);
    cbn [new_init_loop]; rewrite (bind_Ok _ _ _ _ _ (ns_node_ok k j x Hx)); destruct (HF j x Hj Hx) as [Hdx Hh];
    rewrite (chain_unfold U _ HF HL j x Hj Hx); cbn [closest_init]; rewrite Hx; cbn [mbind option_bind];
    (destruct (ninit x) as [s|]; [done|]).
  - destruct (head x) as [m|]; [destruct Hh as (Hm & y & Hy & Hdy); destruct (HF m y Hm Hy); lia|]. by destruct fuel.
  - destruct (head x) as [m|]; [|by destruct fuel]. destruct Hh as (Hm & y & Hy & Hdy). apply (IH fuel m y); (done || lia).
Qed.

(** [reparent] of a process of node [j]; [U] is the nodes in use before it left. *)
Lemma reparent_eff me (U : list bool) (k : kst) a k' c j x : forest U (nodes k) → length U = length (nodes k) → U !! j = Some true →
  cores k !! me = Some c → c_node c = Some j → nodes k !! j = Some x → reparent me k = Ok (a, k') →
  let N2 := if bool_decide (ninit x = Some me) then upd_nodes [j] (set_ninit None) (nodes k) else nodes k in
  let ni := closest_init N2 (chain N2 j) (initproc k) in
  used k' = used k ∧ nodes k' = N2 ∧ nextpid k' = nextpid k ∧ initproc k' = initproc k ∧ length (cores k') = length (cores k) ∧
  ∀ t d, cores k !! t = Some d → ∃ d', cores k' !! t = Some d' ∧ adopts me ni (bool_decide (t < 64)%nat) t d d'.
Proof.
  intros HF HL Hj Hc Hn Hx H N2 ni. unfold reparent in H. inv_bind H as p k1 E1. apply get_proc_eff in E1 as (-> & _ & Hp).
  rewrite Hc in Hp. injection Hp as ->. cbn in Hn. rewrite Hn in H. inv_bind H as y k2 E2.
  apply get_node_eff in E2 as (-> & j' & [= <-] & Hy). rewrite Hx in Hy. injection Hy as <-. inv_bind H as a3 k3 E3.
  assert (view k3 = (cores k, used k, N2, nextpid k, initproc k)) as (C3 & U3 & HN3 & P3 & I3)%view_eq.
  { unfold N2. case_bool_decide.
    - apply mod_node_eff in E3 as (j' & z & [= <-] & Hz & _ & ->). by rewrite (upd_single j z).
    - by injection E3 as _ <-. }
  inv_bind H as st k4 E4. injection E4 as <- <-. inv_bind H as r k5 E5.
  assert (keeps_shape (set_ninit None)) as Hsh by done. destruct (HF j x Hj Hx) as [Hd _].
  assert (forest U N2 ∧ length U = length N2 ∧ ∃ z, N2 !! j = Some z ∧ depth z = depth x) as (HF2 & HL2 & z & Hz & Hdz).
  { unfold N2. case_bool_decide; [|by eauto]. split; [by apply upd_forest|]. rewrite upd_length. split; [done|].
    rewrite upd_lookup, Hx. eexists. split; [done|]. by destruct (bool_decide _). }
  rewrite <- HN3 in HF2, HL2, Hz. rewrite (new_init_ok U k3 HF2 HL2 (Z.to_nat (depth z)) _ j z) in E5; [|unfold NNMND; lia|done..].
  injection E5 as <- <-. destruct (reparent_loop_evolve me _ _ _ _ _ _ H) as (U' & N' & P' & I' & L' & C').
  rewrite C3 in L', C'. rewrite U', N', P', I', L', U3, HN3, P3, I3. split_and!; [done..|]. rewrite HN3, I3 in C'. intros t d Hd'.
  destruct (C' t d Hd') as (d' & Hd'' & HA). exists d'. split; [done|]. by replace (bool_decide (t < 64)%nat) with
    (bool_decide (0 ≤ t < 0 + Z.to_nat NPROC)%nat) by (apply bool_decide_ext; unfold NPROC; lia).
Qed.
End effects.
End ProcEffects.
