(* ===== verification/ProcInv.v ===== *)
(** * The invariant of the process table

    Namespaces as in [Namespaces], pids that are given out once, and parents
    that are alive.  Every run of an operation of proc.c keeps it. *)

From S2P Require Import Prelude PageAlloc Vm Proc Namespaces ProcLogic ProcEffects.
Import PageAlloc Proc Namespaces ProcLogic ProcEffects.

Module ProcInv.

(** The process of a core, as [Namespaces] sees it. *)
Definition vc (c : core) : vproc := if alive (c_state c) then Some (c_node c, c_ids c) else None.

Record vinv (C : list core) (U : list bool) (N : list node) (n : Z) (i0 : option nat) : Prop := {
  vi_procs : length C = 64%nat;
  vi_used : length U = 64%nat;
  vi_ids : ∀ i c, C !! i = Some c → length (c_ids c) = 8%nat;
  vi_ns : ns_core U N (map vc C);
  vi_populated : populated U N;
  vi_inits : inits U N (map vc C);
  vi_last : ∀ i x, U !! i = Some true → N !! i = Some x → last_pid x ≤ n;
  vi_state : ∀ i c, C !! i = Some c → c_state c ≠ USED;
  vi_pid : ∀ i c, C !! i = Some c → c_state c ≠ UNUSED → 0 < c_pid c < n;
  vi_pid_uniq : ∀ i j c d, C !! i = Some c → C !! j = Some d → c_state c ≠ UNUSED → c_state d ≠ UNUSED →
    c_pid c = c_pid d → i = j;
  vi_init : ∃ i c, i0 = Some i ∧ C !! i = Some c ∧ alive (c_state c) = true;
  vi_parent : ∀ i c, C !! i = Some c → c_state c ≠ UNUSED → i0 ≠ Some i →
    ∃ q d, c_parent c = Some q ∧ C !! q = Some d ∧ alive (c_state d) = true }.

Lemma alive_not_unused x : alive x = true → x ≠ UNUSED.
Proof. by destruct x. Qed.
Lemma alive_not_used x : alive x = true → x ≠ USED.
Proof. by destruct x. Qed.
#[local] Hint Resolve alive_not_unused alive_not_used : core.

(** A change of state among the living. *)
Definition lives_on (c c' : core) : Prop :=
  c' = mkCore (c_state c') (c_pid c) (c_ids c) (c_node c) (c_parent c) ∧
  (c_state c' = c_state c ∨ (alive (c_state c) = true ∧ alive (c_state c') = true)).
Lemma lives_on_vc c c' : lives_on c c' → vc c' = vc c.
Proof. intros [-> [E|[E1 E2]]]; unfold vc; cbn in *; [by rewrite E|by rewrite E1, E2]. Qed.
Lemma lives_on_alive c c' : lives_on c c' → alive (c_state c') = alive (c_state c).
Proof. intros [_ [->|[-> ->]]]; done. Qed.
Lemma lives_on_unused c c' : lives_on c c' → c_state c' ≠ UNUSED → c_state c ≠ UNUSED.
Proof. intros [_ [->|[H _]]]; auto. Qed.
Lemma waking_lives_on c c' : waking c c' → lives_on c c'.
Proof. intros [->|[H ->]]; (split; [by destruct c|]); [by left|]. right. by rewrite H. Qed.

(** The cores change one by one, by [R]. *)
Definition pointwise (R : core → core → Prop) (C C' : list core) : Prop :=
  length C' = length C ∧ ∀ i c, C !! i = Some c → ∃ c', C' !! i = Some c' ∧ R c c'.
Lemma pointwise_back R C C' i c' : pointwise R C C' → C' !! i = Some c' → ∃ c, C !! i = Some c ∧ R c c'.
Proof.
  intros [HL H] Hc'. destruct (lookup_lt_is_Some_2 C i) as [c Hc]; [rewrite <- HL; by eapply lookup_lt_Some|].
  destruct (H i c Hc) as (d & Hd & HR). rewrite Hc' in Hd. injection Hd as <-. eauto.
Qed.
Lemma pointwise_map {B} (f : core → B) R C C' : pointwise R C C' → (∀ c c', R c c' → f c' = f c) → map f C' = map f C.
Proof.
  intros [HL H] Hf. apply list_eq. intros i. rewrite !list_lookup_fmap. destruct (C !! i) as [c|] eqn:E.
  - destruct (H i c E) as (c' & -> & HR). cbn. f_equal. by apply Hf.
  - apply lookup_ge_None in E. rewrite <- HL in E. apply lookup_ge_None in E. by rewrite E.
Qed.
Lemma evolve_pointwise {S F : Type} {A} (R : core → core → Prop) (R' : nat → core → core → Prop) (m : prog (Proc.kst S F) A) k a k' :
  (∀ t c c', R' t c c' → R c c') → evolve R' m → m k = Ok (a, k') → pointwise R (cores k) (cores k').
Proof. intros HR Hm H. destruct (Hm _ _ _ H) as (_ & _ & _ & _ & HL & HC). split; [done|]. intros i c Hc. destruct (HC i c Hc) as (c' & ? & ?). eauto. Qed.

Lemma vinv_lives_on C C' U N n i0 : vinv C U N n i0 → pointwise lives_on C C' → vinv C' U N n i0.
Proof.
  intros I HC. pose proof (pointwise_map vc _ _ _ HC lives_on_vc) as EV. constructor.
  - rewrite (proj1 HC). apply (vi_procs _ _ _ _ _ I).
  - apply (vi_used _ _ _ _ _ I).
  - intros i c' Hc'. destruct (pointwise_back _ _ _ i c' HC Hc') as (c & Hc & [-> _]). by apply (vi_ids _ _ _ _ _ I i c).
  - rewrite EV. apply (vi_ns _ _ _ _ _ I).
  - apply (vi_populated _ _ _ _ _ I).
  - rewrite EV. apply (vi_inits _ _ _ _ _ I).
  - apply (vi_last _ _ _ _ _ I).
  - intros i c' Hc'. destruct (pointwise_back _ _ _ i c' HC Hc') as (c & Hc & [_ [->|[_ H]]]); [|auto].
    by apply (vi_state _ _ _ _ _ I i c).
  - intros i c' Hc' Hs. destruct (pointwise_back _ _ _ i c' HC Hc') as (c & Hc & HR). pose proof (lives_on_unused _ _ HR Hs).
    destruct HR as [-> _]. by apply (vi_pid _ _ _ _ _ I i c).
  - intros i j c' d' Hc' Hd' Hs Ht. destruct (pointwise_back _ _ _ i c' HC Hc') as (c & Hc & HR).
    destruct (pointwise_back _ _ _ j d' HC Hd') as (d & Hd & HR'). pose proof (lives_on_unused _ _ HR Hs).
    pose proof (lives_on_unused _ _ HR' Ht). destruct HR as [-> _], HR' as [-> _]. by apply (vi_pid_uniq _ _ _ _ _ I i j c d).
  - destruct (vi_init _ _ _ _ _ I) as (i & c & -> & Hc & Ha). destruct (proj2 HC i c Hc) as (c' & Hc' & HR). exists i, c'.
    by rewrite (lives_on_alive _ _ HR).
  - intros i c' Hc' Hs Hi. destruct (pointwise_back _ _ _ i c' HC Hc') as (c & Hc & HR). pose proof (lives_on_unused _ _ HR Hs).
    destruct HR as [-> _]. destruct (vi_parent _ _ _ _ _ I i c) as (q & d & Hq & Hd & Ha); [done..|].
    destruct (proj2 HC q d Hd) as (d' & Hd' & HR'). exists q, d'. by rewrite (lives_on_alive _ _ HR').
Qed.

(** A slot that is not alive becomes free. *)
Lemma vinv_free C U N n i0 i c c' : vinv C U N n i0 → C !! i = Some c → alive (c_state c) = false →
  c_state c' = UNUSED → c_ids c' = c_ids c → vinv (<[i := c']> C) U N n i0.
Proof.
  intros I Hc Ha Hs Hids. assert (map vc (<[i := c']> C) = map vc C) as EV.
  { rewrite list_fmap_insert. apply list_insert_id. rewrite list_lookup_fmap, Hc. cbn. unfold vc. by rewrite Ha, Hs. }
  assert (∀ j d, <[i := c']> C !! j = Some d → c_state d ≠ UNUSED → C !! j = Some d) as Hold.
  { intros j d [(<- & <- & _)|(_ & H)]%list_lookup_insert_Some; done. }
  assert (∀ j d, C !! j = Some d → alive (c_state d) = true → <[i := c']> C !! j = Some d) as Hkeep.
  { intros j d Hd Had. rewrite list_lookup_insert_ne; [done|]. intros ->. congruence. }
  constructor.
  - rewrite length_insert. apply (vi_procs _ _ _ _ _ I).
  - apply (vi_used _ _ _ _ _ I).
  - intros j d [(<- & <- & _)|(_ & H)]%list_lookup_insert_Some; [rewrite Hids|]; eapply (vi_ids _ _ _ _ _ I); eassumption.
  - rewrite EV. apply (vi_ns _ _ _ _ _ I).
  - apply (vi_populated _ _ _ _ _ I).
  - rewrite EV. apply (vi_inits _ _ _ _ _ I).
  - apply (vi_last _ _ _ _ _ I).
  - intros j d [(<- & <- & _)|(_ & H)]%list_lookup_insert_Some; [by rewrite Hs|by eapply (vi_state _ _ _ _ _ I)].
  - intros j d Hd Hne. eapply (vi_pid _ _ _ _ _ I); [by apply Hold|done].
  - intros j1 j2 d1 d2 H1 H2 Hn1 Hn2. by apply (vi_pid_uniq _ _ _ _ _ I j1 j2); [apply Hold|apply Hold| |].
  - destruct (vi_init _ _ _ _ _ I) as (j & d & -> & Hd & Had). exists j, d. eauto.
  - intros j d Hd Hne Hj. destruct (vi_parent _ _ _ _ _ I j d (Hold j d Hd Hne) Hne Hj) as (q & e & ? & He & ?). exists q, e. eauto.
Qed.

(** A pid is spent. *)
Lemma vinv_spend C U N n n' i0 : vinv C U N n i0 → n ≤ n' → vinv C U N n' i0.
Proof.
  intros I Hn. destruct I. constructor; try done.
  - intros i x Hi Hx. specialize (vi_last0 i x Hi Hx). lia.
  - intros i c Hc Hs. specialize (vi_pid0 i c Hc Hs). lia.
Qed.

(** A new process. *)
Lemma vinv_new C U N n i0 np c cN U' N' me d : vinv C U N n i0 →
  C !! np = Some c → c_state c = UNUSED →
  C !! me = Some d → alive (c_state d) = true →
  c_state cN = RUNNABLE → c_pid cN = n → c_parent cN = Some me → length (c_ids cN) = 8%nat →
  length U' = 64%nat → ns_core U' N' (<[np := vc cN]> (map vc C)) → populated U' N' → inits U' N' (<[np := vc cN]> (map vc C)) →
  (∀ i x, U' !! i = Some true → N' !! i = Some x → last_pid x ≤ n + 1) →
  vinv (<[np := cN]> C) U' N' (n + 1) i0.
Proof.
  intros I Hc Hs Hme Had HsN Hpid Hpar Hids HU' Hns Hpop Hin Hlast.
  assert (∀ j e, C !! j = Some e → alive (c_state e) = true → <[np := cN]> C !! j = Some e) as Hkeep.
  { intros j e He Hae. rewrite list_lookup_insert_ne; [done|]. intros ->. rewrite Hc in He. injection He as <-. by rewrite Hs in Hae. }
  assert (0 < n) as Hn.
  { destruct (vi_init _ _ _ _ _ I) as (j & e & _ & He & Hae). pose proof (vi_pid _ _ _ _ _ I j e He (alive_not_unused _ Hae)). lia. }
  constructor.
  - rewrite length_insert. apply (vi_procs _ _ _ _ _ I).
  - done.
  - intros j e [(<- & <- & _)|(_ & H)]%list_lookup_insert_Some; [done|by eapply (vi_ids _ _ _ _ _ I)].
  - by rewrite list_fmap_insert.
  - done.
  - by rewrite list_fmap_insert.
  - done.
  - intros j e [(<- & <- & _)|(_ & H)]%list_lookup_insert_Some; [by rewrite HsN|by eapply (vi_state _ _ _ _ _ I)].
  - intros j e [(<- & <- & _)|(_ & H)]%list_lookup_insert_Some He; [lia|]. pose proof (vi_pid _ _ _ _ _ I j e H He). lia.
  - intros j1 j2 e1 e2 [(<- & <- & _)|(_ & H1)]%list_lookup_insert_Some [(<- & <- & _)|(_ & H2)]%list_lookup_insert_Some Hn1 Hn2 E.
    + done.
    + pose proof (vi_pid _ _ _ _ _ I j2 e2 H2 Hn2). lia.
    + pose proof (vi_pid _ _ _ _ _ I j1 e1 H1 Hn1). lia.
    + by apply (vi_pid_uniq _ _ _ _ _ I j1 j2 e1 e2).
  - destruct (vi_init _ _ _ _ _ I) as (j & e & -> & He & Hae). exists j, e. eauto.
  - intros j e [(<- & <- & _)|(_ & H)]%list_lookup_insert_Some He Hj.
    + exists me, d. eauto.
    + destruct (vi_parent _ _ _ _ _ I j e H He Hj) as (q & f & ? & Hf & ?). exists q, f. eauto.
Qed.

Lemma last_after_enter (U : list bool) (N : list node) n c : (∀ i x, U !! i = Some true → N !! i = Some x → 0 < last_pid x ≤ n) → n < 2 ^ 31 - 1 →
  ∀ i x, U !! i = Some true → upd_nodes c enter1 N !! i = Some x → last_pid x ≤ n + 1.
Proof.
  intros H Hn i x Hi. rewrite upd_lookup, fmap_Some. intros (x0 & Hx0 & ->). specialize (H i x0 Hi Hx0).
  destruct (bool_decide _); cbn; [rewrite i32_small; lia|lia].
Qed.

(** What [exit] of [me] does to the core [t]. *)
Definition departed (me : nat) (ni : option nat) (t : nat) (d d' : core) : Prop :=
  ∃ y, d' = mkCore y (c_pid d) (c_ids d) (c_node d) (if bool_decide (c_parent d = Some me) then ni else c_parent d) ∧
    if bool_decide (t = me) then y = ZOMBIE else y = c_state d ∨ (c_state d = SLEEPING ∧ y = RUNNABLE).

Lemma departed_alive me ni t d d' : departed me ni t d d' → t ≠ me → alive (c_state d') = alive (c_state d).
Proof. intros (y & -> & Hy) Hne. rewrite bool_decide_false in Hy by done. cbn. by destruct Hy as [->|[-> ->]]. Qed.
Lemma departed_unused me ni t d d' : departed me ni t d d' → (t = me → c_state d ≠ UNUSED) → c_state d' ≠ UNUSED → c_state d ≠ UNUSED.
Proof. intros (y & -> & Hy) Hme. cbn. destruct (decide (t = me)) as [E|Hne]; [auto|]. rewrite bool_decide_false in Hy by done.
  by destruct Hy as [->|[-> ->]]. Qed.

Section exit.
Context (C C' : list core) (U : list bool) (N : list node) (n : Z) (i0 : option nat) (me j : nat) (c : core) (x : node).
Context (I : vinv C U N n i0) (Hc : C !! me = Some c) (Hs : c_state c = RUNNING) (Hn : c_node c = Some j) (Hx : N !! j = Some x)
        (Hi0 : i0 ≠ Some me).
#[local] Abbreviation N1 := (upd_nodes (chain N j) leave1 N).
#[local] Abbreviation N2 := (if bool_decide (ninit x = Some me) then upd_nodes [j] (set_ninit None) N1 else N1).
#[local] Abbreviation ni := (closest_init N2 (chain N j) i0).
Context (HL : length C' = length C) (HC : ∀ t d, C !! t = Some d → ∃ d', C' !! t = Some d' ∧ departed me ni t d d').

Lemma departed_back t d' : C' !! t = Some d' → ∃ d, C !! t = Some d ∧ departed me ni t d d'.
Proof using HL HC.
  intros Hd'. destruct (lookup_lt_is_Some_2 C t) as [d Hd]; [rewrite <- HL; by eapply lookup_lt_Some|].
  destruct (HC t d Hd) as (e & He & HR). rewrite Hd' in He. injection He as <-. eauto.
Qed.
Lemma departed_view : map vc C' = <[me := None]> (map vc C).
Proof using Hc HL HC.
  apply list_eq. intros t. rewrite list_lookup_fmap. destruct (decide (t = me)) as [->|Hne].
  - rewrite list_lookup_insert_eq by (rewrite length_map; by eapply lookup_lt_Some).
    destruct (HC me c Hc) as (d' & -> & y & -> & Hy). rewrite bool_decide_true in Hy by done. subst y. done.
  - rewrite list_lookup_insert_ne, list_lookup_fmap by done. destruct (C !! t) as [d|] eqn:Ed.
    + destruct (HC t d Ed) as (d' & -> & HR). cbn. f_equal. unfold vc. rewrite (departed_alive _ _ _ _ _ HR Hne).
      destruct HR as (y & -> & _). done.
    + apply lookup_ge_None in Ed. rewrite <- HL in Ed. apply lookup_ge_None in Ed. by rewrite Ed.
Qed.
Lemma me_view : map vc C !! me = Some (Some (Some j, c_ids c)).
Proof using Hc Hs Hn. rewrite list_lookup_fmap, Hc. cbn. unfold vc. by rewrite Hs, Hn. Qed.
Lemma me_node : U !! j = Some true.
Proof using I Hc Hs Hn. destruct (nc_home _ _ _ (vi_ns _ _ _ _ _ I) me _ _ me_view) as (_ & j' & [= <-] & H). done. Qed.

(** The process that adopts is alive afterwards. *)
Lemma adopter_alive : ∃ q e, ni = Some q ∧ C' !! q = Some e ∧ alive (c_state e) = true.
Proof using I Hc Hs Hn Hx Hi0 HL HC.
  destruct (closest_init_cases N2 (chain N j) i0) as [->|(i & y & q & Hi & Hy & Hq & ->)].
  - destruct (vi_init _ _ _ _ _ I) as (q & e & -> & He & Ha). destruct (HC q e He) as (e' & He' & HR).
    exists q, e'. rewrite (departed_alive _ _ _ _ _ HR) by congruence. done.
  - pose proof (vi_ns _ _ _ _ _ I) as Hns.
    pose proof (chain_used U N (nc_forest _ _ _ Hns) (nc_len _ _ _ Hns) j i me_node Hi) as Hu.
    assert (∃ y0, N !! i = Some y0 ∧ ninit y0 = Some q ∧ (i = j → q ≠ me)) as (y0 & Hy0 & Hq0 & Hij).
    { revert Hy Hq. case_bool_decide as Hb.
      - rewrite !upd_lookup. destruct (N !! i) as [y0|]; [|done]. cbn. intros [= <-] Hq. exists y0. split; [done|].
        destruct (decide (i = j)) as [->|Hne].
        + rewrite (bool_decide_true (j ∈ [j])) in Hq by apply list_elem_of_here. done.
        + rewrite (bool_decide_false (i ∈ [j])) in Hq by (intros E%list_elem_of_singleton; congruence).
          split; [|done]. by destruct (bool_decide (i ∈ chain N j)).
      - rewrite upd_lookup. destruct (N !! i) as [y0|] eqn:Ey0; [|done]. cbn. intros [= <-] Hq. exists y0. split; [done|].
        assert (ninit y0 = Some q) as Hq0 by by destruct (bool_decide (i ∈ chain N j)). split; [done|]. congruence. }
    destruct (vi_inits _ _ _ _ _ I i y0 q Hu Hy0 Hq0) as (l & Hl).
    assert (q ≠ me) as Hqme.
    { intros ->. rewrite me_view in Hl. injection Hl as <- <-. by apply Hij. }
    rewrite list_lookup_fmap in Hl. destruct (C !! q) as [e|] eqn:Ee; [|done]. cbn in Hl. unfold vc in Hl.
    destruct (alive (c_state e)) eqn:Ha; [|done]. destruct (HC q e Ee) as (e' & He' & HR). exists q, e'.
    by rewrite (departed_alive _ _ _ _ _ HR) by done.
Qed.

Lemma vinv_exit : vinv C' (cleaned N1 (chain N j) U) N2 n i0.
Proof using I Hc Hs Hn Hx Hi0 HL HC.
  destruct (ns_exit U N (map vc C) me j (c_ids c) x (vi_ns _ _ _ _ _ I)) as (J1 & J2 & J3);
    [rewrite length_map, (vi_procs _ _ _ _ _ I); lia|apply (vi_populated _ _ _ _ _ I)|apply (vi_inits _ _ _ _ _ I)|apply me_view|done|].
  assert (∀ t d d', C !! t = Some d → departed me ni t d d' → c_state d' ≠ UNUSED → c_state d ≠ UNUSED) as Hun.
  { intros t d d' Hd HR. apply (departed_unused _ _ _ _ _ HR). intros ->. rewrite Hc in Hd. injection Hd as <-. by rewrite Hs. }
  constructor.
  - rewrite HL. apply (vi_procs _ _ _ _ _ I).
  - rewrite cleaned_length. apply (vi_used _ _ _ _ _ I).
  - intros t d' Hd'. destruct (departed_back t d' Hd') as (d & Hd & y & -> & _). by apply (vi_ids _ _ _ _ _ I t d).
  - by rewrite departed_view.
  - done.
  - by rewrite departed_view.
  - intros i z Hi Hz. pose proof (cleaned_sub _ _ _ _ Hi) as Hu.
    assert (∃ z0, N !! i = Some z0 ∧ last_pid z = last_pid z0) as (z0 & Hz0 & ->); [|by apply (vi_last _ _ _ _ _ I i)].
    revert Hz. case_bool_decide; rewrite !upd_lookup; destruct (N !! i) as [z0|]; cbn; try done; intros [= <-]; exists z0;
      (split; [done|]); by repeat destruct (bool_decide _).
  - intros t d' Hd'. destruct (departed_back t d' Hd') as (d & Hd & y & -> & Hy). cbn.
    pose proof (vi_state _ _ _ _ _ I t d Hd). case_bool_decide; [by rewrite Hy|]. by destruct Hy as [->|[_ ->]].
  - intros t d' Hd' Hne. destruct (departed_back t d' Hd') as (d & Hd & HR). pose proof (Hun t d d' Hd HR Hne).
    destruct HR as (y & -> & _). by apply (vi_pid _ _ _ _ _ I t d).
  - intros t1 t2 d1' d2' H1 H2 Hn1 Hn2. destruct (departed_back t1 d1' H1) as (d1 & Hd1 & HR1).
    destruct (departed_back t2 d2' H2) as (d2 & Hd2 & HR2). pose proof (Hun t1 d1 d1' Hd1 HR1 Hn1). pose proof (Hun t2 d2 d2' Hd2 HR2 Hn2).
    destruct HR1 as (y1 & -> & _), HR2 as (y2 & -> & _). by apply (vi_pid_uniq _ _ _ _ _ I t1 t2 d1 d2).
  - destruct (vi_init _ _ _ _ _ I) as (q & e & -> & He & Ha). destruct (HC q e He) as (e' & He' & HR).
    exists q, e'. rewrite (departed_alive _ _ _ _ _ HR) by congruence. done.
  - intros t d' Hd' Hne Ht. destruct (departed_back t d' Hd') as (d & Hd & HR). pose proof (Hun t d d' Hd HR Hne) as Hned.
    destruct HR as (y & -> & _). cbn. destruct (vi_parent _ _ _ _ _ I t d Hd Hned Ht) as (q & e & Hq & He & Ha).
    case_bool_decide as Hb; [apply adopter_alive|]. destruct (HC q e He) as (e' & He' & HR'). exists q, e'.
    rewrite (departed_alive _ _ _ _ _ HR') by congruence. done.
Qed.
End exit.

Section ops.
Context {S F : Type} `{PA : PageAllocator S}.
Context (filedup fileclose idup iput : nat → prog F unit) (begin_op end_op : prog F unit) (root_inode : prog F nat) (trampoline : Z).
#[local] Abbreviation kst := (Proc.kst S F).

Definition kinv (k : kst) : Prop := vinv (cores k) (used k) (nodes k) (nextpid k) (initproc k).
(** Process [me] has the CPU. *)
Definition running (k : kst) (me : nat) : Prop := ∃ c, cores k !! me = Some c ∧ c_state c = RUNNING.

Lemma kinv_view (k k' : kst) : view k' = view k → kinv k → kinv k'.
Proof. intros (C & U & N & P & I)%view_same. unfold kinv. by rewrite C, U, N, P, I. Qed.
Lemma kinv_still {A} (m : prog kst A) k a k' : still m → m k = Ok (a, k') → kinv k → kinv k'.
Proof. intros Hm H%Hm. by apply kinv_view. Qed.
Lemma kinv_evolve {A} R (m : prog kst A) k a k' : evolve R m → (∀ t c c', R t c c' → lives_on c c') → m k = Ok (a, k') → kinv k → kinv k'.
Proof.
  intros Hm HR H I. destruct (Hm _ _ _ H) as (U & N & P & I0 & _ & _). unfold kinv. rewrite U, N, P, I0.
  eapply vinv_lives_on; [exact I|]. by eapply evolve_pointwise.
Qed.

(** The home of the running process. *)
Lemma running_node k me : kinv k → running k me → ∃ c j x, cores k !! me = Some c ∧ c_state c = RUNNING ∧ c_node c = Some j ∧
  used k !! j = Some true ∧ nodes k !! j = Some x ∧ map vc (cores k) !! me = Some (Some (Some j, c_ids c)) ∧ 0 ≤ depth x ≤ 7.
Proof.
  intros I (c & Hc & Hs). assert (map vc (cores k) !! me = Some (Some (c_node c, c_ids c))) as Hv.
  { rewrite list_lookup_fmap, Hc. cbn. unfold vc. by rewrite Hs. }
  pose proof (vi_ns _ _ _ _ _ I) as Hns. destruct (nc_home _ _ _ Hns me _ _ Hv) as (_ & j & Hj & Hu).
  destruct (used_node _ _ (nc_len _ _ _ Hns) j Hu) as [x Hx]. exists c, j, x. rewrite <- Hj. split_and!; try done;
  apply (nc_forest _ _ _ Hns j x Hu Hx).
Qed.

Lemma map_vc_length k : kinv k → length (map vc (cores k)) = 64%nat.
Proof. intros I. rewrite length_map. apply (vi_procs _ _ _ _ _ I). Qed.

Lemma last_bounds k : kinv k → ∀ i x, used k !! i = Some true → nodes k !! i = Some x → 0 < last_pid x ≤ nextpid k.
Proof.
  intros I i x Hi Hx. pose proof (nc_last _ _ _ (vi_ns _ _ _ _ _ I) i x Hi Hx). pose proof (vi_last _ _ _ _ _ I i x Hi Hx). lia.
Qed.

(** What [allocproc] and [copy_proc] leave: either the process table as it was
    but for spent pids, or the new process in state USED. *)
Lemma create_eff me k r0 k1 : kinv k → nextpid k < 2 ^ 31 - 1 → allocproc trampoline k = Ok (r0, k1) →
  match r0 with
  | None => kinv k1
  | Some np => ∀ r k2, copy_proc filedup idup me np k1 = Ok (r, k2) →
      (r = -1 ∧ kinv k2) ∨
      (r = 0 ∧ ∃ c, cores k !! np = Some c ∧ c_state c = UNUSED ∧
        view k2 = (<[np := alloc_core (nextpid k) c]> (cores k), used k, nodes k, nextpid k + 1, initproc k))
  end.
Proof.
  intros I Hn E. assert (0 < nextpid k) as Hn0.
  { destruct (vi_init _ _ _ _ _ I) as (j & e & _ & He & Hae). pose proof (vi_pid _ _ _ _ _ I j e He (alive_not_unused _ Hae)). lia. }
  assert (∀ np c k2, cores k !! np = Some c → c_state c = UNUSED →
    view k2 = (<[np := free_core c]> (cores k), used k, nodes k, nextpid k + 1, initproc k) → kinv k2) as Hback.
  { intros np c k2 Hc Hs (C & U & N & P & I0)%view_eq. unfold kinv. rewrite C, U, N, P, I0.
    eapply (vinv_free _ _ _ _ _ np c); [|done|by rewrite Hs|done|done]. eapply vinv_spend; [exact I|lia]. }
  apply allocproc_eff in E. rewrite i32_small in E by lia. destruct r0 as [np|].
  - destruct E as (c & Hc & Hs & HV). intros r k2 H.
    destruct (copy_proc_eff filedup idup me np k1 r k2 _ _ _ _ _ _ HV ltac:(by eapply lookup_lt_Some) H) as [[-> HV2]|[-> HV2]].
    + left. split; [done|]. by eapply (Hback np c).
    + right. split; [done|]. exists c. by rewrite HV2.
  - destruct E as [E|(np & c & Hc & Hs & HV)]; [by eapply kinv_view|by eapply (Hback np c)].
Qed.

(** [enter_loop], then [start_proc], for a process in state USED. *)
Lemma enter_start_eff me np j x (k : kst) c r k' : forest (used k) (nodes k) → length (used k) = length (nodes k) →
  used k !! j = Some true → nodes k !! j = Some x → cores k !! np = Some c →
  (enter_loop (Z.to_nat (depth x + 1)) np (Some j);; start_proc me np) k = Ok (r, k') →
  ∃ l, length l = length (c_ids c) ∧
    (∀ i y, i ∈ chain (nodes k) j → nodes k !! i = Some y → l !! Z.to_nat (depth y) = Some (last_pid y)) ∧
    view k' = (<[np := mkCore RUNNABLE (c_pid c) l (c_node c) (Some me)]> (cores k), used k,
               upd_nodes (chain (nodes k) j) enter1 (nodes k), nextpid k, initproc k).
Proof.
  intros HF HL Hj Hx Hc H. destruct (HF j x Hj Hx) as [Hd _]. inv_bind H as a k1 E1.
  replace (Z.to_nat (depth x + 1)) with (Datatypes.S (Z.to_nat (depth x))) in E1 by lia.
  destruct (enter_eff np _ j k a k1 x c eq_refl HF HL Hj Hx Hc E1) as (l & Hl & Hids & _ & (C & U & N & P & I0)%view_eq).
  exists l. split; [done|]. split; [done|]. apply start_proc_upd in H as (c1 & Hc1 & HV). rewrite HV, U, N, P, I0.
  rewrite C, list_lookup_insert_eq in Hc1 by (by eapply lookup_lt_Some). injection Hc1 as <-.
  by rewrite C, list_insert_insert_eq.
Qed.

Lemma fork_kinv me k r k' : kinv k → running k me → nextpid k < 2 ^ 31 - 1 →
  fork filedup idup trampoline me k = Ok (r, k') → kinv k'.
Proof.
  intros I Hrun Hn H. destruct (running_node k me I Hrun) as (cm & j & x & Hcm & Hsm & Hnm & Hj & Hx & Hv & Hd).
  unfold fork in H. inv_bind H as r0 k1 E1. pose proof (create_eff me k r0 k1 I Hn E1) as Hcr.
  destruct r0 as [np|]; [|injection H as _ <-; done]. inv_bind H as r1 k2 E2.
  destruct (Hcr r1 k2 E2) as [[-> I2]|(-> & c & Hc & Hs & V2)]; [cbn in H; injection H as _ <-; done|]. cbn in H.
  apply view_eq in V2 as (C2 & U2 & N2 & P2 & I2). assert (np ≠ me) as Hne by congruence.
  inv_bind H as p k3 E3. apply get_proc_eff in E3 as (-> & _ & Hp). rewrite C2, list_lookup_insert_ne, Hcm in Hp by done. injection Hp as ->.
  cbn in Hnm, Hsm. rewrite Hnm in H. inv_bind H as a4 k4 E4.
  apply (upd_mod np (λ c, mkCore (c_state c) (c_pid c) (c_ids c) (Some j) (c_parent c))) in E4 as (c4 & Hc4 & (C4 & U4 & N4 & P4 & I4)%view_eq); [|done].
  rewrite C2, list_lookup_insert_eq in Hc4 by (by eapply lookup_lt_Some). injection Hc4 as <-. rewrite C2, list_insert_insert_eq in C4.
  inv_bind H as y k5 E5. apply get_node_eff in E5 as (-> & j5 & [= <-] & Hy). rewrite N4, N2, Hx in Hy. injection Hy as <-.
  pose proof (vi_ns _ _ _ _ _ I) as Hns.
  assert (used k4 = used k) as EU by congruence. assert (nodes k4 = nodes k) as EN by congruence.
  assert (forest (used k4) (nodes k4)) as HF4 by (rewrite EU, EN; apply (nc_forest _ _ _ Hns)).
  assert (length (used k4) = length (nodes k4)) as HL4 by (rewrite EU, EN; apply (nc_len _ _ _ Hns)).
  eapply (enter_start_eff me np j x k4 _ r k' HF4 HL4) in H; [|by rewrite EU|by rewrite EN|].
  2: { rewrite C4, list_lookup_insert_eq; [done|]. by eapply lookup_lt_Some. }
  destruct H as (l & Hl & Hids & (C & U & N & P & I0)%view_eq). unfold kinv.
  rewrite EN in Hids, N. rewrite C, U, N, P, I0, C4, EU, P4, I4, P2, I2, list_insert_insert_eq.
  assert (length l = 8%nat) as Hl8 by (rewrite Hl; apply (vi_ids _ _ _ _ _ I np c Hc)).
  assert (map vc (cores k) !! np = Some None) as Hvnp by (rewrite list_lookup_fmap, Hc; cbn; unfold vc; by rewrite Hs).
  destruct (ns_fork (used k) (nodes k) (map vc (cores k)) np j l) as (J1 & J2 & J3); try done.
  { rewrite map_vc_length by done. lia. } { apply (vi_populated _ _ _ _ _ I). } { apply (vi_inits _ _ _ _ _ I). }
  { intros i y Hi Hy. pose proof (last_bounds k I i y Hi Hy). lia. }
  eapply (vinv_new (cores k) (used k) (nodes k) _ _ np c _ _ _ me); try done; [cbn; by rewrite Hsm|apply (vi_used _ _ _ _ _ I)|].
  eapply last_after_enter; [by apply last_bounds|done].
Qed.

(** [clone] up to the loop: the new node and the process in it. *)
Lemma clone_node_eff me np (k2 : kst) r k' C U N n i0 cm c j x : view k2 = (<[np := alloc_core n c]> C, U, N, n + 1, i0) →
  (np < length C)%nat → np ≠ me → C !! me = Some cm → c_node cm = Some j → N !! j = Some x → 0 ≤ depth x ≤ 7 →
  (a ← namespace_malloc; mod_proc np (set_pnode a);; p ← get_proc me; h ← get_node (pnode p);
   mod_node a (λ _, mkNode 0 1 (Some np) (pnode p) (i32 (depth h + 1)));; y ← get_node a;
   enter_loop (Z.to_nat (depth y + 1)) np a;; start_proc me np) k2 = Ok (r, k') →
  ∃ a k3, U !! a = Some false ∧
    view k3 = (<[np := mkCore USED n (c_ids c) (Some a) (c_parent c)]> C, <[a := true]> U,
               <[a := new_node np j (depth x + 1)]> N, n + 1, i0) ∧ (a < length N)%nat ∧
    (enter_loop (Z.to_nat (depth x + 1 + 1)) np (Some a);; start_proc me np) k3 = Ok (r, k').
Proof.
  intros (C2 & U2 & N2 & P2 & I2)%view_eq Hlt Hne Hcm Hnm Hx Hd H. inv_bind H as a k3 E3. apply malloc_loop_eff in E3.
  inv_bind H as a4 k4 E4. inv_bind H as p k5 E5. inv_bind H as h k6 E6. inv_bind H as a7 k7 E7. inv_bind H as y k8 E8.
  apply get_node_eff in E8 as (-> & b & -> & Hy). destruct E3 as [Hf ->].
  apply (upd_mod np (λ c, mkCore (c_state c) (c_pid c) (c_ids c) (Some b) (c_parent c))) in E4 as (c4 & Hc4 & (C4 & U4 & N4 & P4 & I4)%view_eq); [|done].
  change (cores (set_used _ k2)) with (cores k2) in *. cbn in U4, N4, P4, I4. rewrite C2 in Hc4, C4.
  rewrite list_lookup_insert_eq in Hc4 by done. injection Hc4 as <-. rewrite list_insert_insert_eq in C4. cbn in C4.
  apply get_proc_eff in E5 as (-> & _ & Hp). rewrite C4, list_lookup_insert_ne, Hcm in Hp by done. injection Hp as ->.
  cbn in Hnm. rewrite Hnm in *. apply get_node_eff in E6 as (-> & b' & [= <-] & Hh). rewrite N4, N2, Hx in Hh. injection Hh as <-.
  apply mod_node_eff in E7 as (b' & z & [= <-] & Hz & _ & (C7 & U7 & N7 & P7 & I7)%view_eq). rewrite N4, N2 in Hz, N7.
  rewrite i32_small in N7 by lia. rewrite N7, list_lookup_insert_eq in Hy by (by eapply lookup_lt_Some). injection Hy as <-.
  exists b, k7. rewrite <- U2. split; [done|]. split; [|split; [by eapply lookup_lt_Some|done]].
  unfold view. rewrite C7, U7, N7, P7, I7, C4, U4, P4, I4, P2, I2. done.
Qed.

Lemma clone_kinv me k r k' : kinv k → running k me → nextpid k < 2 ^ 31 - 1 →
  clone filedup idup trampoline me k = Ok (r, k') → kinv k'.
Proof.
  intros I Hrun Hn H. destruct (running_node k me I Hrun) as (cm & j & x & Hcm & Hsm & Hnm & Hj & Hx & Hv & Hd).
  unfold clone in H. inv_bind H as r0 k1 E1. pose proof (create_eff me k r0 k1 I Hn E1) as Hcr.
  destruct r0 as [np|]; [|injection H as _ <-; done]. inv_bind H as r1 k2 E2.
  destruct (Hcr r1 k2 E2) as [[-> I2]|(-> & c & Hc & Hs & V2)]; [cbn in H; injection H as _ <-; done|]. cbn in H.
  assert (np ≠ me) as Hne by congruence. pose proof (vi_ns _ _ _ _ _ I) as Hns. pose proof (lookup_lt_Some _ _ _ Hc) as Hlt.
  destruct (clone_node_eff me np k2 r k' _ _ _ _ _ cm c j x V2 Hlt Hne Hcm Hnm Hx Hd H) as (a & k3 & Ha & (C3 & U3 & N3 & P3 & I3)%view_eq & Hal & H').
  assert (cores k3 !! np = Some (mkCore USED (nextpid k) (c_ids c) (Some a) (c_parent c))) as Hc3 by by rewrite C3, list_lookup_insert_eq.
  assert (nodes k3 !! a = Some (new_node np j (depth x + 1))) as Hx3 by by rewrite N3, list_lookup_insert_eq.
  assert (depth x < 7) as Hd7.
  { pose proof H' as H''. inv_bind H'' as b k4 E4. replace (Z.to_nat (depth x + 1 + 1)) with (Datatypes.S (Z.to_nat (depth x + 1))) in E4 by lia.
    eapply (enter_turn np a _ k3) in E4 as (_ & _ & Hlen & _); [|exact Hx3|exact Hc3|cbn; lia].
    cbn in Hlen. rewrite (vi_ids _ _ _ _ _ I np c Hc) in Hlen. lia. }
  assert (used k3 !! a = Some true) as Hu3 by (rewrite U3, list_lookup_insert_eq; [done|by eapply lookup_lt_Some]).
  pose proof (new_forest (used k) (nodes k) (map vc (cores k)) a np j x Hns Ha Hj Hx Hd7) as HF3. rewrite <- U3, <- N3 in HF3.
  pose proof (new_len (used k) (nodes k) (map vc (cores k)) a np j x Hns) as HL3. rewrite <- U3, <- N3 in HL3.
  destruct (enter_start_eff me np a _ k3 _ r k' HF3 HL3 Hu3 Hx3 Hc3 H') as (l & Hl & Hids & (C & U & N & P & I0)%view_eq).
  cbn in Hl. unfold kinv. rewrite C, U, N, P, I0, C3, U3, N3, P3, I3, list_insert_insert_eq. rewrite N3 in Hids.
  assert (length l = 8%nat) as Hl8 by (rewrite Hl; apply (vi_ids _ _ _ _ _ I np c Hc)).
  assert (map vc (cores k) !! np = Some None) as Hvnp by (rewrite list_lookup_fmap, Hc; cbn; unfold vc; by rewrite Hs).
  destruct (ns_clone (used k) (nodes k) (map vc (cores k)) a np j x Hns Ha Hj Hx Hd7 l) as (J1 & J2 & J3); try done.
  { rewrite map_vc_length by done. lia. } { apply (vi_populated _ _ _ _ _ I). } { apply (vi_inits _ _ _ _ _ I). }
  { intros i y Hi Hy. pose proof (last_bounds k I i y Hi Hy). lia. }
  eapply (vinv_new (cores k) (used k) (nodes k) _ _ np c _ _ _ me); try done; [by rewrite Hsm|rewrite length_insert; apply (vi_used _ _ _ _ _ I)|].
  eapply last_after_enter; [|done]. intros i y Hi Hy.
  destruct (new_lookup (used k) (nodes k) a np j x Ha i y Hi Hy) as [[-> ->]|(_ & Hu & Hy')]; [|by eapply last_bounds].
  cbn. pose proof (last_bounds k I j x Hj Hx). lia.
Qed.

(** The last part of [exit]: the parent is woken and the process is a zombie. *)
Lemma zombie_eff me status ni (k0 k : kst) a k' : length (cores k0) = 64%nat → length (cores k) = length (cores k0) →
  (∀ t d, cores k0 !! t = Some d → ∃ d', cores k !! t = Some d' ∧ adopts me ni (bool_decide (t < 64)%nat) t d d') →
  (p ← get_proc me; wakeup (Some me) (opt_chan (parent p));; acquire me;; mod_proc me (set_xstate status);;
   mod_proc me (set_state ZOMBIE);; release_wait;; sched me) k = Ok (a, k') →
  used k' = used k ∧ nodes k' = nodes k ∧ nextpid k' = nextpid k ∧ initproc k' = initproc k ∧ length (cores k') = length (cores k0) ∧
  ∀ t d, cores k0 !! t = Some d → ∃ d', cores k' !! t = Some d' ∧ departed me ni t d d'.
Proof.
  intros H64 L12 C12 H. inv_bind H as q k13 E13. apply get_proc_eff in E13 as (-> & _). inv_bind H as a14 k14 E14.
  apply wakeup_evolve in E14 as (U14 & N14 & P14 & I14 & L14 & C14). inv_bind H as a15 k15 E15. apply still_acquire in E15.
  inv_bind H as a16 k16 E16. apply still_mod_proc in E16; [|done]. rewrite E15 in E16. apply view_same in E16 as (C16 & U16 & N16 & P16 & I16).
  inv_bind H as a17 k17 E17. apply (upd_mod me (to_state ZOMBIE)) in E17 as (e & He & (C17 & U17 & N17 & P17 & I17)%view_eq); [|done].
  inv_bind H as a18 k18 E18. apply still_release_wait in E18. apply still_sched in H. rewrite E18 in H.
  apply view_same in H as (C & U & N & P & I0). rewrite U, N, P, I0, C, U17, N17, P17, I17, C17, U16, N16, P16, I16, length_insert, C16, L14.
  rewrite U14, N14, P14, I14. split_and!; try done.
  intros t d Hd'. destruct (C12 t d Hd') as (d1 & Hd1 & y & -> & Hy & Hme).
  assert (t < 64)%nat as Ht by (rewrite <- H64; by eapply lookup_lt_Some).
  rewrite (bool_decide_true (t < 64)%nat) in Hd1 by done. cbn [andb] in Hd1. destruct (C14 t _ Hd1) as (d2 & Hd2 & Hw & Hwme).
  destruct (decide (t = me)) as [->|Hne].
  - exists (to_state ZOMBIE d2). rewrite list_lookup_insert_eq by (by eapply lookup_lt_Some).
    rewrite C16, Hd2 in He. injection He as <-. split; [done|]. rewrite (Hwme eq_refl). exists ZOMBIE.
    rewrite (bool_decide_true (me = me)) by done. done.
  - exists d2. rewrite list_lookup_insert_ne by done. split; [done|]. destruct Hw as [->|[Hsl ->]]; cbn.
    + exists y. split; [done|]. by rewrite bool_decide_false.
    + exists RUNNABLE. split; [done|]. rewrite bool_decide_false by done. cbn in Hsl. right. split; [|done].
      destruct Hy as [<-|[_ ->]]; done.
Qed.

(** The part of [exit] that leaves the namespaces and gives the children away. *)
Lemma depart_eff me (k : kst) p j x k' : kinv k → cores k !! me = Some (core_of p) → pnode p = Some j →
  used k !! j = Some true → nodes k !! j = Some x →
  (n ← get_node (pnode p); leave_loop (Z.to_nat (depth n + 1)) (pnode p);; clean_node (pnode p);; reparent me) k = Ok (tt, k') →
  let N1 := upd_nodes (chain (nodes k) j) leave1 (nodes k) in
  let N2 := if bool_decide (ninit x = Some me) then upd_nodes [j] (set_ninit None) N1 else N1 in
  let ni := closest_init N2 (chain (nodes k) j) (initproc k) in
  used k' = cleaned N1 (chain (nodes k) j) (used k) ∧ nodes k' = N2 ∧ nextpid k' = nextpid k ∧
  initproc k' = initproc k ∧ length (cores k') = length (cores k) ∧
  ∀ t d, cores k !! t = Some d → ∃ d', cores k' !! t = Some d' ∧ adopts me ni (bool_decide (t < 64)%nat) t d d'.
Proof.
  intros I Hc Hn Hj Hx H N1 N2 ni. rewrite Hn in H.
  pose proof (vi_ns _ _ _ _ _ I) as Hns. pose proof (nc_forest _ _ _ Hns) as HF. pose proof (nc_len _ _ _ Hns) as HL.
  destruct (HF j x Hj Hx) as [Hd _].
  inv_bind H as y k9 E9. apply get_node_eff in E9 as (-> & j' & [= <-] & Hy). rewrite Hx in Hy. injection Hy as <-.
  inv_bind H as a10 k10 E10. replace (Z.to_nat (depth x + 1)) with (Datatypes.S (Z.to_nat (depth x))) in E10 by lia.
  rewrite (leave_ok _ j k x) in E10 by done. injection E10 as _ <-. fold N1 in H.
  assert (forest (used k) N1) as HF1 by by apply upd_forest. assert (length (used k) = length N1) as HL1 by (unfold N1; by rewrite upd_length).
  inv_bind H as a11 k11 E11. rewrite clean_node_ok in E11; cbn; [|done|done| |done].
  2: { rewrite <- HL1, (vi_used _ _ _ _ _ I). lia. }
  assert (chain N1 j = chain (nodes k) j) as EC by (unfold N1; by rewrite upd_chain).
  injection E11 as _ <-. cbn in H. rewrite EC in H.
  assert (∃ z, N1 !! j = Some z ∧ ninit z = ninit x) as (z & Hz & Hnz).
  { unfold N1. rewrite upd_lookup, Hx. eexists. split; [done|]. cbn; by destruct (bool_decide (j ∈ chain (nodes k) j)). }
  eapply (reparent_eff me (used k)) in H as (U12 & N12 & P12 & I12 & L12 & C12); [|done|done|done|exact Hc|exact Hn|exact Hz].
  change (cores (set_used _ (set_nodes _ k))) with (cores k) in L12, C12. cbn [used nodes nextpid initproc set_used set_nodes] in U12, N12, P12, I12, C12.
  rewrite Hnz in N12, C12. fold N2 in N12, C12.
  assert (chain N2 j = chain (nodes k) j) as Ech.
  { unfold N2, N1. case_bool_decide; by rewrite !upd_chain. }
  rewrite Ech in C12. fold ni in C12. done.
Qed.

(** [exit]: the process leaves its namespaces, those that become empty are
    freed, its children go to the closest init, and it becomes a zombie. *)
Lemma exit_eff me status k a k' c j x : kinv k → cores k !! me = Some c → c_state c = RUNNING → c_node c = Some j →
  used k !! j = Some true → nodes k !! j = Some x → exit fileclose iput begin_op end_op me status k = Ok (a, k') →
  let N1 := upd_nodes (chain (nodes k) j) leave1 (nodes k) in
  let N2 := if bool_decide (ninit x = Some me) then upd_nodes [j] (set_ninit None) N1 else N1 in
  let ni := closest_init N2 (chain (nodes k) j) (initproc k) in
  initproc k ≠ Some me ∧ used k' = cleaned N1 (chain (nodes k) j) (used k) ∧ nodes k' = N2 ∧ nextpid k' = nextpid k ∧
  initproc k' = initproc k ∧ length (cores k') = length (cores k) ∧
  ∀ t d, cores k !! t = Some d → ∃ d', cores k' !! t = Some d' ∧ departed me ni t d d'.
Proof.
  intros I Hc Hs Hn Hj Hx H N1 N2 ni. unfold exit in H. inv_bind H as st k0 E0. injection E0 as <- <-.
  case_bool_decide as Hi0; [done|]. split; [done|].
  inv_bind H as a1 k1 E1. apply still_close_loop in E1. inv_bind H as p k2 E2. apply get_proc_eff in E2 as (-> & _ & Hp).
  inv_bind H as a3 k3 E3. apply still_on_fs in E3. inv_bind H as cw k4 E4. apply still_deref in E4.
  inv_bind H as a5 k5 E5. apply still_on_fs in E5. inv_bind H as a6 k6 E6. apply still_on_fs in E6.
  inv_bind H as a7 k7 E7. apply still_mod_proc in E7; [|done]. inv_bind H as a8 k8 E8. apply still_acquire_wait in E8.
  assert (view k8 = view k) as V8 by congruence. pose proof (kinv_view k k8 V8 I) as I8'.
  apply view_same in V8 as (C8 & U8 & N8 & P8 & I8).
  apply view_same in E1 as (C1 & _). rewrite C1, Hc in Hp. injection Hp as ->. cbn in Hn.
  inv_bind H as y k9 E9. inv_bind H as a10 k10 E10. inv_bind H as a11 k11 E11. inv_bind H as a12 k12 E12.
  destruct (depart_eff me k8 p j x k12) as (U12 & N12 & P12 & I12 & L12 & C12); [done|by rewrite C8|done|by rewrite U8|by rewrite N8| |].
  { rewrite (bind_Ok _ _ _ _ _ E9), (bind_Ok _ _ _ _ _ E10), (bind_Ok _ _ _ _ _ E11). destruct a12. done. }
  rewrite ?N8, ?U8, ?P8, ?I8, ?C8 in *.
  destruct (zombie_eff me status ni k k12 a k') as (U & N & P & I0 & L & C); [apply (vi_procs _ _ _ _ _ I)|done|done|done|].
  rewrite U, N, P, I0, L. done.
Qed.

Lemma exit_kinv me status k a k' : kinv k → running k me → exit fileclose iput begin_op end_op me status k = Ok (a, k') → kinv k'.
Proof.
  intros I Hrun H. destruct (running_node k me I Hrun) as (c & j & x & Hc & Hs & Hn & Hj & Hx & _).
  destruct (exit_eff me status k a k' c j x I Hc Hs Hn Hj Hx H) as (Hi0 & U & N & P & I0 & L & HC).
  unfold kinv. rewrite U, N, P, I0. by apply (vinv_exit (cores k) (cores k') _ _ _ _ me j c x).
Qed.

(** ** The other operations *)

Lemma kinv_upd {A} i g c (m : prog kst A) k a k' : upd i g m → cores k !! i = Some c → lives_on c (g c) →
  m k = Ok (a, k') → kinv k → kinv k'.
Proof.
  intros Hm Hc HR H I. destruct (Hm _ _ _ H) as (d & Hd & (C & U & N & P & I0)%view_eq). rewrite Hc in Hd. injection Hd as <-.
  unfold kinv. rewrite C, U, N, P, I0. eapply vinv_lives_on; [exact I|]. split; [apply length_insert|]. intros j d Hd.
  destruct (decide (j = i)) as [->|Hne].
  - rewrite Hc in Hd. injection Hd as <-. exists (g c). by rewrite list_lookup_insert_eq by (by eapply lookup_lt_Some).
  - exists d. rewrite list_lookup_insert_ne by done. split; [done|]. split; [by destruct d|by left].
Qed.
Lemma lives_on_state c x : alive (c_state c) = true → alive x = true → lives_on c (to_state x c).
Proof. intros H1 H2. split; [done|]. by right. Qed.

Lemma yield_upd me : upd me (to_state RUNNABLE) (yield me : prog kst unit).
Proof. unfold yield. apply upd_still_l; [still_tac|intros ?]. apply upd_still_r; [by apply upd_mod|intros ?]. still_tac. Qed.
Lemma sleep_upd me ch unlock : still unlock → upd me (to_state SLEEPING) (Proc.sleep me ch unlock : prog kst unit).
Proof.
  intros Hu. unfold Proc.sleep. apply upd_still_l; [still_tac|intros ?]. apply upd_still_l; [done|intros ?].
  apply upd_still_l; [still_tac|intros ?]. apply upd_still_r; [by apply upd_mod|intros ?]. still_tac.
Qed.
Lemma sleep_return_still me relock : still relock → still (sleep_return me relock : prog kst unit).
Proof. intros H. unfold sleep_return. still_tac. Qed.

Lemma schedule_kinv i k b k' : kinv k → schedule i k = Ok (b, k') → kinv k' ∧ (b = true → running k' i).
Proof.
  intros I H. unfold schedule in H. inv_bind H as a1 k1 E1. apply still_acquire in E1. pose proof (kinv_view _ _ E1 I) as I1.
  inv_bind H as p k2 E2. apply get_proc_eff in E2 as (-> & _ & Hp). case_bool_decide as Hr.
  - inv_bind H as a3 k3 E3. pose proof E3 as E3'. apply (upd_mod i (to_state RUNNING)) in E3' as (c & Hc & (C & _)%view_eq); [|done].
    rewrite Hp in Hc. injection Hc as <-.
    assert (kinv k3) as I3.
    { eapply (kinv_upd i (to_state RUNNING) _ (mod_proc i (set_state RUNNING))); [by apply upd_mod|exact Hp| |exact E3|done]. apply lives_on_state; [cbn; by rewrite Hr|done]. }
    assert (view k' = view k3) as V.
    { revert H. match goal with |- ?m k3 = _ → _ => assert (still m) as Hst end; [still_tac|]. apply Hst. }
    split; [by eapply kinv_view|]. intros _. exists (to_state RUNNING (core_of p)). apply view_same in V as (-> & _). rewrite C.
    by rewrite list_lookup_insert_eq by (by eapply lookup_lt_Some).
  - inv_bind H as a3 k3 E3. injection H as <- <-. apply still_release in E3. split; [by eapply kinv_view|done].
Qed.

Lemma kill_turn_evolve i : evolve (λ _, waking)
  (p ← get_proc i; mod_proc i (set_killed 1);;
   (if bool_decide (state p = SLEEPING) then mod_proc i (set_state RUNNABLE) else skip);; release i;; mret 0 : prog kst Z).
Proof.
  intros k a k' H. inv_bind H as p k1 E1. apply get_proc_eff in E1 as (-> & _ & Hp). inv_bind H as a2 k2 E2.
  apply still_mod_proc, view_same in E2 as (C2 & U2 & N2 & P2 & I2); [|done]. inv_bind H as a3 k3 E3. inv_bind H as a4 k4 E4.
  injection H as _ <-. apply still_release, view_same in E4 as (C4 & U4 & N4 & P4 & I4). rewrite C4, U4, N4, P4, I4.
  case_bool_decide as Hs.
  - apply (upd_mod i (to_state RUNNABLE)) in E3 as (c & Hc & (C & U & N & P & I)%view_eq); [|done].
    rewrite C2, Hp in Hc. injection Hc as <-. rewrite C, U, N, P, I, C2, U2, N2, P2, I2. split_and!; [done..|apply length_insert|].
    intros j d Hd. destruct (decide (j = i)) as [->|Hne].
    + rewrite Hp in Hd. injection Hd as <-. exists (to_state RUNNABLE (core_of p)).
      rewrite list_lookup_insert_eq by (by eapply lookup_lt_Some). split; [done|]. by right.
    + exists d. rewrite list_lookup_insert_ne by done. split; [done|by left].
  - injection E3 as _ <-. rewrite C2, U2, N2, P2, I2. split_and!; [done..|]. intros j d Hd. exists d. split; [done|by left].
Qed.
Lemma kill_loop_evolve n x : ∀ i, evolve (λ _, waking) (kill_loop n i x : prog kst Z).
Proof.
  induction n as [|n IH]; intros i; cbn [kill_loop]; [apply evolve_still; [intros; apply waking_refl|still_tac]|].
  eapply (evolve_bind (λ _, waking) (λ _, waking)); [intros ?; apply waking_trans|apply evolve_still; [intros; apply waking_refl|still_tac]|].
  intros _ k a k' H. pose proof H as H'. inv_bind H' as p k1 E1. destruct (pid p =? x) eqn:Ep.
  - apply (kill_turn_evolve i k a k'). rewrite (bind_Ok _ _ _ _ _ E1). by rewrite (bind_Ok _ _ _ _ _ E1), Ep in H.
  - apply get_proc_eff in E1 as (-> & _). clear H. revert k a k' H'.
    eapply (evolve_bind (λ _, waking) (λ _, waking)); [intros ?; apply waking_trans|apply evolve_still; [intros; apply waking_refl|still_tac]|].
    intros _. apply IH.
Qed.

(** A scan of [wait] that finds no zombie changes nothing. *)
Lemma wait_scan_kinv n : ∀ i me addr h k r k', kinv k → wait_scan n i me addr h k = Ok (r, k') →
  kinv k' ∧ (∀ b, r = WNone b → view k' = view k).
Proof.
  induction n as [|n IH]; intros i me addr h k r k' I H; cbn [wait_scan] in H; [injection H as <- <-; done|].
  inv_bind H as pp k1 E1. apply get_proc_eff in E1 as (-> & _). case_bool_decide; [|by eapply IH].
  inv_bind H as a2 k2 E2. apply still_acquire in E2. pose proof (kinv_view _ _ E2 I) as I2.
  inv_bind H as qq k3 E3. apply get_proc_eff in E3 as (-> & _ & Hq). case_bool_decide as Hz.
  - inv_bind H as p k4 E4. apply get_proc_eff in E4 as (-> & _). inv_bind H as x k5 E5.
    assert (view k5 = view k2) as V5 by (revert E5; match goal with |- ?m k2 = _ → _ => assert (still m) as Hst end; [still_tac|apply Hst]).
    pose proof (kinv_view _ _ V5 I2) as I5. destruct (x <? 0).
    + inv_bind H as a6 k6 E6. inv_bind H as a7 k7 E7. injection H as <- <-. apply still_release in E6. apply still_release_wait in E7.
      split; [|done]. eapply kinv_view; [|exact I5]. congruence.
    + inv_bind H as a6 k6 E6. inv_bind H as a7 k7 E7. inv_bind H as a8 k8 E8. injection H as <- <-.
      apply freeproc_upd in E6 as (c & Hc & (C & U & N & P & I0)%view_eq). apply still_release in E7. apply still_release_wait in E8.
      split; [|done]. apply (kinv_view k6); [congruence|]. unfold kinv. rewrite C, U, N, P, I0.
      apply view_same in V5 as (C5 & _). rewrite C5, Hq in Hc. injection Hc as <-.
      eapply vinv_free; [exact I5|by rewrite C5|cbn; by rewrite Hz|done|done].
  - inv_bind H as a4 k4 E4. apply still_release in E4. assert (view k4 = view k) as V4 by congruence.
    destruct (IH _ _ _ _ _ _ _ (kinv_view _ _ V4 I) H) as [I' Hn]. split; [done|]. intros b Hb. rewrite (Hn b Hb). done.
Qed.

#[local] Strategy expand [wait_turn].
Lemma wait_turn_kinv me addr k r k' : kinv k → running k me → wait_turn me addr k = Ok (r, k') → kinv k'.
Proof.
  intros I (c & Hc & Hs) H. unfold wait_turn in H. inv_bind H as w k1 E1. destruct (wait_scan_kinv _ _ _ _ _ _ _ _ I E1) as [I1 Hn].
  destruct w as [v|h]; [injection H as _ <-; done|]. specialize (Hn h eq_refl). inv_bind H as kl k2 E2.
  assert (view k2 = view k1) as V2.
  { destruct h; [exact (still_get_killed me k1 kl k2 E2)|]. by injection E2 as _ <-. }
  pose proof (kinv_view _ _ V2 I1) as I2. clear E1 E2. destruct (negb (kl =? 0)).
  - inv_bind H as a3 k3 E3. injection H as _ <-. apply still_release_wait in E3. by eapply kinv_view.
  - inv_bind H as a3 k3 E3. injection H as _ <-. rewrite Hn in V2. apply view_same in V2 as (C & _).
    eapply (kinv_upd me _ c _ k2); [apply sleep_upd, still_release_wait|by rewrite C| |exact E3|done]. apply lives_on_state; [by rewrite Hs|done].
Qed.

(** ** Runs of the kernel *)

(** A run of one process, up to the point where it sleeps or returns, or a turn
    of the scheduler.  A run is one step: it is not interleaved with runs on
    another CPU.  A process is created only while [nextpid], an int, can be
    counted up; what happens after 2^31 - 2 processes is left open. *)
Inductive kstep (k : kst) : kst → Prop :=
| step_fork me r k' : running k me → nextpid k < 2 ^ 31 - 1 → fork filedup idup trampoline me k = Ok (r, k') → kstep k k'
| step_clone me r k' : running k me → nextpid k < 2 ^ 31 - 1 → clone filedup idup trampoline me k = Ok (r, k') → kstep k k'
| step_exit me st k' : running k me → exit fileclose iput begin_op end_op me st k = Ok (tt, k') → kstep k k'
| step_wait me addr r k' : running k me → wait me addr k = Ok (r, k') → kstep k k'
| step_wait_again me addr r k' : running k me → wait_turn me addr k = Ok (r, k') → kstep k k'
| step_kill x r k' : kill x k = Ok (r, k') → kstep k k'
| step_setkilled i k' : setkilled i k = Ok (tt, k') → kstep k k'
| step_wakeup me ch k' : wakeup me ch k = Ok (tt, k') → kstep k k'
| step_yield me k' : running k me → yield me k = Ok (tt, k') → kstep k k'
| step_sleep me ch unlock k' : running k me → still unlock → Proc.sleep me ch unlock k = Ok (tt, k') → kstep k k'
| step_sleep_return me relock k' : running k me → still relock → sleep_return me relock k = Ok (tt, k') → kstep k k'
| step_sched_return me k' : running k me → sched_return me k = Ok (tt, k') → kstep k k'
| step_release i k' : release i k = Ok (tt, k') → kstep k k'
| step_growproc me n r k' : running k me → growproc me n k = Ok (r, k') → kstep k k'
| step_schedule i b k' : schedule i k = Ok (b, k') → kstep k k'.

Lemma kstep_kinv k k' : kstep k k' → kinv k → kinv k'.
Proof.
  intros H I. destruct H as [me r k' Hr Hn H|me r k' Hr Hn H|me st k' Hr H|me addr r k' Hr H|me addr r k' Hr H|x r k' H|i k' H|me ch k' H
    |me k' Hr H|me ch u k' Hr Hu H|me u k' Hr Hu H|me k' Hr H|i k' H|me n r k' Hr H|i b k' H].
  - by eapply fork_kinv.
  - by eapply clone_kinv.
  - by eapply exit_kinv.
  - unfold wait in H. inv_bind H as a k1 E. apply still_acquire_wait in E. eapply wait_turn_kinv; [by eapply kinv_view| |exact H].
    destruct Hr as (c & Hc & Hs). exists c. apply view_same in E as (-> & _). done.
  - by eapply wait_turn_kinv.
  - by eapply kinv_evolve; [apply kill_loop_evolve|intros t; apply waking_lives_on|exact H|].
  - eapply kinv_still; [apply still_setkilled|exact H|done].
  - by eapply kinv_evolve; [apply wakeup_evolve|intros t c c' [Hw _]; by apply waking_lives_on|exact H|].
  - destruct Hr as (c & Hc & Hs). eapply kinv_upd; [apply yield_upd|exact Hc| |exact H|done]. apply lives_on_state; [by rewrite Hs|done].
  - destruct Hr as (c & Hc & Hs). eapply kinv_upd; [by apply sleep_upd|exact Hc| |exact H|done]. apply lives_on_state; [by rewrite Hs|done].
  - eapply kinv_still; [by apply sleep_return_still|exact H|done].
  - eapply kinv_still; [apply still_sched_return|exact H|done].
  - eapply kinv_still; [apply still_release|exact H|done].
  - eapply kinv_still; [apply still_growproc|exact H|done].
  - by eapply schedule_kinv.
Qed.
Lemma ksteps_kinv k k' : rtc kstep k k' → kinv k → kinv k'.
Proof. induction 1 as [|k1 k2 k3 H _ IH]; [done|]. intros I. by apply IH, (kstep_kinv k1). Qed.
End ops.
End ProcInv.
