(* ===== verification/ProcBoot.v ===== *)
(** * The first process

    [userinit] on the tables of a kernel that boots establishes the invariant of
    the process table, with one process in one namespace. *)

From S2P Require Import Prelude PageAlloc Vm Proc Namespaces ProcLogic ProcEffects ProcInv.
Import PageAlloc Proc Namespaces ProcLogic ProcEffects ProcInv.

Module ProcBoot.

(** The tables before [userinit]: nothing is in use. *)
Definition booting {S F} (k : Proc.kst S F) : Prop :=
  length (procs k) = 64%nat ∧ length (used k) = 64%nat ∧ length (nodes k) = 64%nat ∧ nextpid k = 1 ∧
  (∀ i p, procs k !! i = Some p → state p = UNUSED ∧ length (namespace_pids p) = 8%nat) ∧
  (∀ i b, used k !! i = Some b → b = false).

(** One process [i] in the root node [n]. *)
Lemma vinv_first C U N i n c : length C = 64%nat → length U = 64%nat → length N = 64%nat →
  (∀ j d, C !! j = Some d → j ≠ i → c_state d = UNUSED) → (∀ j d, C !! j = Some d → length (c_ids d) = 8%nat) →
  C !! i = Some c → c_state c = RUNNABLE → c_pid c = 1 → c_node c = Some n → c_ids c !! 0%nat = Some 1 →
  (∀ j, U !! j = Some true ↔ j = n) → N !! n = Some (mkNode 1 2 (Some i) None 0) → vinv C U N 2 (Some i).
Proof.
  intros HC HU HN Hun Hids Hc Hs Hp Hn H0 HUn HNn.
  assert (Hv : ∀ s v, map vc C !! s = Some (Some v) → s = i ∧ v = (Some n, c_ids c)).
  { intros s v. rewrite list_lookup_fmap. destruct (C !! s) as [d|] eqn:Ed; [|done]. cbn. unfold vc.
    destruct (decide (s = i)) as [->|Hne]; [|by rewrite (Hun s d Ed Hne)]. rewrite Hc in Ed. injection Ed as <-. rewrite Hs, Hn. by intros [= <-]. }
  assert (Hvi : map vc C !! i = Some (Some (Some n, c_ids c))) by (rewrite list_lookup_fmap, Hc; cbn; unfold vc; by rewrite Hs, Hn).
  assert (forest U N) as HF. { intros j x ->%HUn Hx. rewrite HNn in Hx. injection Hx as <-. cbn. lia. }
  assert (chain N n = [n]) as Hch. { unfold chain. rewrite HNn. change (Z.to_nat _) with 1%nat. cbn [heads]. by rewrite HNn. }
  assert (Hnode : ∀ j x, U !! j = Some true → N !! j = Some x → j = n ∧ x = mkNode 1 2 (Some i) None 0).
  { intros j x ->%HUn Hx. rewrite HNn in Hx. by injection Hx as <-. }
  constructor; try done.
  - constructor.
    + lia.
    + done.
    + intros s m l [-> [= -> ->]]%Hv. split; [by apply (Hids i)|]. exists n. split; [done|]. by apply HUn.
    + intros j x Hj Hx. destruct (Hnode j x Hj Hx) as [-> ->]. cbn.
      replace (map vc C) with (<[i := Some (Some n, c_ids c)]> (replicate 64 (None : vproc))).
      * rewrite (census_insert N _ n i None) by (apply lookup_replicate_2; rewrite <- HC; by eapply lookup_lt_Some).
        cbn [within]. rewrite Hch, bool_decide_true by apply list_elem_of_here. unfold census. by vm_compute.
      * apply list_eq. intros s. destruct (decide (s = i)) as [->|Hne].
        -- rewrite list_lookup_insert_eq; [done|]. rewrite length_replicate, <- HC. by eapply lookup_lt_Some.
        -- rewrite list_lookup_insert_ne, list_lookup_fmap by done. destruct (C !! s) as [d|] eqn:Ed.
           ++ rewrite lookup_replicate_2 by (rewrite <- HC; by eapply lookup_lt_Some). cbn. unfold vc. by rewrite (Hun s d Ed Hne).
           ++ apply lookup_ge_None in Ed. change (replicate 64 (None : vproc) !! s = None). apply lookup_ge_None. rewrite length_replicate. lia.
    + intros s j l a x [-> [= -> ->]]%Hv Ha Hx. rewrite Hch in Ha. apply list_elem_of_singleton in Ha as ->.
      rewrite HNn in Hx. injection Hx as <-. exists 1. cbn. split; [done|lia].
    + by intros s1 s2 j1 j2 l1 l2 a x [-> _]%Hv [-> _]%Hv.
    + intros j x Hj Hx. by destruct (Hnode j x Hj Hx) as [-> ->].
  - intros j x Hj Hx. destruct (Hnode j x Hj Hx) as [-> ->]. by left.
  - intros j x s Hj Hx. destruct (Hnode j x Hj Hx) as [-> ->]. intros [= <-]. eauto.
  - intros j x Hj Hx. by destruct (Hnode j x Hj Hx) as [-> ->].
  - intros j d Hd. destruct (decide (j = i)) as [->|Hne]; [|by rewrite (Hun j d Hd Hne)]. rewrite Hc in Hd. injection Hd as <-. by rewrite Hs.
  - intros j d Hd Hne. destruct (decide (j = i)) as [->|Hji]; [|by rewrite (Hun j d Hd Hji) in Hne]. rewrite Hc in Hd. injection Hd as <-. lia.
  - intros j1 j2 d1 d2 H1 H2 Hn1 Hn2 _. destruct (decide (j1 = i)) as [->|Hj1]; [|by rewrite (Hun j1 d1 H1 Hj1) in Hn1].
    destruct (decide (j2 = i)) as [->|Hj2]; [done|by rewrite (Hun j2 d2 H2 Hj2) in Hn2].
  - exists i, c. by rewrite Hs.
  - intros j d Hd Hne Hj. destruct (decide (j = i)) as [->|Hji]; [done|]. by rewrite (Hun j d Hd Hji) in Hne.
Qed.

Section boot.
Context {S F : Type} `{PA : PageAllocator S}.
Context (root_inode : prog F nat) (trampoline : Z) (initcode : list Z).
#[local] Abbreviation kst := (Proc.kst S F).

Lemma userinit_kinv (k : kst) k' : booting k → userinit root_inode trampoline initcode k = Ok (tt, k') → kinv k' ∧ nextpid k' = 2.
Proof.
  intros (HP & HU & HN & Hn & Hun & Hus) H. unfold userinit in H.
  assert (length (cores k) = 64%nat) as HC by (unfold cores; by rewrite length_map).
  assert (∀ j d, cores k !! j = Some d → c_state d = UNUSED ∧ length (c_ids d) = 8%nat) as Hcun.
  { intros j d. unfold cores. rewrite list_lookup_fmap. destruct (procs k !! j) as [p|] eqn:E; [|done]. intros [= <-]. by apply (Hun j). }
  inv_bind H as r k1 E1. apply allocproc_eff in E1. inv_bind H as a2 k2 E2. injection E2 as _ <-.
  inv_bind H as i k3 E3. destruct r as [i'|]; [|done]. injection E3 as -> <-.
  destruct E1 as (c & Hc & Hs & (C1 & U1 & N1 & P1 & I1)%view_eq). rewrite Hn in C1, P1. change (i32 (1 + 1)) with 2 in P1.
  pose proof (lookup_lt_Some _ _ _ Hc) as Hlt.
  inv_bind H as p k4 E4. apply get_proc_eff in E4 as (-> & _). inv_bind H as a5 k5 E5. apply still_on_mem in E5.
  inv_bind H as a6 k6 E6. apply still_mod_proc in E6; [|done]. inv_bind H as a7 k7 E7. apply still_tf_set in E7.
  inv_bind H as a8 k8 E8. apply still_tf_set in E8. inv_bind H as a9 k9 E9. apply still_mod_proc in E9; [|done].
  inv_bind H as cw k10 E10. apply still_on_fs in E10. inv_bind H as a11 k11 E11. apply still_mod_proc in E11; [|done].
  rewrite E10, E9, E8, E7, E6, E5 in E11. clear E5 E6 E7 E8 E9 E10. apply view_eq in E11 as (C2 & U2 & N2 & P2 & I2).
  change (cores (set_initproc _ k1)) with (cores k1) in C2. cbn in U2, N2, P2, I2. rewrite C1 in C2.
  inv_bind H as a12 k12 E12. apply (upd_mod i (to_state RUNNABLE)) in E12 as (c12 & Hc12 & (C3 & U3 & N3 & P3 & I3)%view_eq); [|done].
  rewrite C2, list_lookup_insert_eq in Hc12 by done. injection Hc12 as <-. rewrite C2, list_insert_insert_eq in C3.
  inv_bind H as t k13 E13. apply still_read_ticks in E13. inv_bind H as q k14 E14. apply get_proc_eff in E14 as (-> & _).
  inv_bind H as a15 k15 E15. apply still_mod_proc in E15; [|done]. rewrite E13 in E15. apply view_same in E15 as (C4 & U4 & N4 & P4 & I4).
  inv_bind H as n k16 E16. apply malloc_loop_eff in E16. inv_bind H as a17 k17 E17. inv_bind H as a18 k18 E18.
  apply mod_node_eff in E18 as (b & x & -> & Hx & _ & (C6 & U6 & N6 & P6 & I6)%view_eq). destruct E16 as [Hf ->].
  apply (upd_mod i (λ c, mkCore (c_state c) (c_pid c) (c_ids c) (Some b) (c_parent c))) in E17 as (c17 & Hc17 & (C5 & U5 & N5 & P5 & I5)%view_eq); [|done].
  change (cores (set_used _ k15)) with (cores k15) in *. cbn in U5, N5, P5, I5. rewrite C4, C3, list_lookup_insert_eq in Hc17 by done.
  injection Hc17 as <-. rewrite C4, C3, list_insert_insert_eq in C5.
  inv_bind H as z k19 E19. apply get_proc_eff in E19 as (-> & _ & Hz). inv_bind H as a20 k20 E20. apply still_release in H.
  apply (upd_mod i (with_ids (<[0%nat := 1]> (namespace_pids z)))) in E20 as (c20 & Hc20 & (C7 & U7 & N7 & P7 & I7)%view_eq); [|done].
  rewrite C6, C5, list_lookup_insert_eq in Hz by done. rewrite C6, C5, list_lookup_insert_eq in Hc20 by done. injection Hc20 as <-.
  rewrite C6, C5, list_insert_insert_eq in C7. apply view_same in H as (C & U & N & P & I). unfold kinv.
  assert (namespace_pids z = c_ids c) as Ez by exact (eq_sym (f_equal (λ o, default [] (c_ids <$> o)) Hz)).
  assert (nextpid k' = 2) as HP2 by congruence. split; [|done].
  assert (initproc k' = Some i) as HI by congruence. rewrite HP2, HI, C, U, N, C7, U7, N7, U6, N6, U5, N5.
  assert (length (<[0%nat := 1]> (namespace_pids z)) = 8%nat) as Hl8 by (rewrite length_insert, Ez; by apply (Hcun i)).
  assert (used k15 = used k) as EU by congruence. assert (nodes k15 = nodes k) as EN by congruence.
  rewrite N5, EN in Hx. rewrite EU in Hf. rewrite EU, EN.
  match goal with |- vinv (<[i := ?cF]> _) _ _ _ _ => apply (vinv_first _ _ _ i b cF) end; rewrite ?length_insert; try done.
  - intros j d [(-> & _ & _)|(Hne & Hd)]%list_lookup_insert_Some Hj; [done|]. by apply (Hcun j).
  - intros j d [(-> & <- & _)|(Hne & Hd)]%list_lookup_insert_Some; [done|]. by apply (Hcun j).
  - by rewrite list_lookup_insert_eq.
  - cbn. rewrite list_lookup_insert_eq; [done|]. rewrite length_insert in Hl8. lia.
  - intros j. split.
    + intros [(-> & _ & _)|(_ & Hj)]%list_lookup_insert_Some; [done|]. by apply Hus in Hj.
    + intros ->. rewrite list_lookup_insert_eq; [done|]. by eapply lookup_lt_Some.
  - rewrite list_lookup_insert_eq; [done|]. by eapply lookup_lt_Some.
Qed.
End boot.
End ProcBoot.
