(* ===== verification/ProcProps.v ===== *)
(** * What the process table guarantees

    Theorems about every state the kernel reaches from [userinit]: namespaces,
    ids, pids and parents; what [exit], [is_heir], [wakeup] and [kill] do. *)

From S2P Require Import Prelude PageAlloc Vm VmInst Proc Namespaces ProcLogic ProcEffects ProcInv ProcBoot.
Import PageAlloc Proc Namespaces ProcLogic ProcEffects ProcInv ProcBoot.

Module ProcProps.
Section props.
Context {S F : Type} `{PA : PageAllocator S}.
Context (filedup fileclose idup iput : nat → prog F unit) (begin_op end_op : prog F unit) (root_inode : prog F nat).
Context (trampoline : Z) (initcode : list Z).
#[local] Abbreviation kst := (Proc.kst S F).
#[local] Abbreviation step := (kstep filedup fileclose idup iput begin_op end_op trampoline).

(** The kernel has booted and run for a while. *)
Definition reachable (k : kst) : Prop := ∃ k0 k1,
  booting k0 ∧ userinit root_inode trampoline initcode k0 = Ok (tt, k1) ∧ rtc step k1 k.
Lemma reachable_kinv k : reachable k → kinv k.
Proof. intros (k0 & k1 & Hb & Hu & Hs). destruct (userinit_kinv _ _ _ k0 k1 Hb Hu) as [I _]. by eapply ksteps_kinv. Qed.
Lemma reachable_step k k' : reachable k → step k k' → reachable k'.
Proof. intros (k0 & k1 & Hb & Hu & Hs) H. exists k0, k1. split; [done|]. split; [done|]. by eapply rtc_r. Qed.

(** A living process of the namespace [j] or of one below it. *)
Definition member (k : kst) (j : nat) (p : proc) : bool :=
  alive (state p) && match pnode p with Some n => bool_decide (j ∈ chain (nodes k) n) | None => false end.
Definition members (k : kst) (j : nat) : Z := Z.of_nat (length (filter (λ p, member k j p = true) (procs k))).

Lemma vc_member k j p : within (nodes k) j (vc (core_of p)) = member k j p.
Proof. unfold member, vc. cbn. destruct (alive (state p)); cbn; [|done]. by destruct (pnode p). Qed.
Lemma members_census k j : members k j = census (nodes k) (map vc (cores k)) j.
Proof.
  unfold members, census, cores. f_equal. induction (procs k) as [|p l IH]; [done|]. cbn [map]. rewrite !filter_cons, vc_member.
  case_decide; cbn [length]; by rewrite IH.
Qed.
Lemma procs_core (k : kst) i p : procs k !! i = Some p → cores k !! i = Some (core_of p).
Proof. intros H. unfold cores. by rewrite list_lookup_fmap, H. Qed.
Lemma core_procs (k : kst) i c : cores k !! i = Some c → ∃ p, procs k !! i = Some p ∧ c = core_of p.
Proof. unfold cores. rewrite list_lookup_fmap. destruct (procs k !! i); [|done]. intros [= <-]. eauto. Qed.
Lemma member_view k i j p : kinv k → procs k !! i = Some p → member k j p = true →
  ∃ n, map vc (cores k) !! i = Some (Some (Some n, namespace_pids p)) ∧ j ∈ chain (nodes k) n ∧ used k !! j = Some true.
Proof.
  intros I Hp Hm. unfold member in Hm. apply andb_true_iff in Hm as [Ha Hm]. destruct (pnode p) as [n|] eqn:En; [|done].
  apply bool_decide_eq_true in Hm. exists n. assert (map vc (cores k) !! i = Some (Some (Some n, namespace_pids p))) as Hv.
  { rewrite list_lookup_fmap, (procs_core k i p Hp). cbn. unfold vc. cbn. by rewrite Ha, En. }
  split_and!; [done|done|]. pose proof (vi_ns _ _ _ _ _ I) as Hns. destruct (nc_home _ _ _ Hns i _ _ Hv) as (_ & n' & [= <-] & Hu).
  by apply (chain_used _ _ (nc_forest _ _ _ Hns) (nc_len _ _ _ Hns) n).
Qed.

(** C4: in every state the kernel reaches, each living process is in a namespace
    that is in use; [cnt_proc] of a namespace in use is the number of living
    processes in it and below it; it is positive except possibly at the root;
    and the head of a namespace is in use, one level up. *)
Theorem namespace_accounting k : reachable k →
  (∀ i p, procs k !! i = Some p → alive (state p) = true → ∃ j, pnode p = Some j ∧ used k !! j = Some true) ∧
  (∀ j x, used k !! j = Some true → nodes k !! j = Some x →
     cnt_proc x = members k j ∧ (0 < members k j ∨ depth x = 0) ∧ 0 ≤ depth x ≤ 7 ∧
     match head x with
     | Some m => used k !! m = Some true ∧ ∃ y, nodes k !! m = Some y ∧ depth x = depth y + 1
     | None => depth x = 0
     end).
Proof.
  intros I%reachable_kinv. pose proof (vi_ns _ _ _ _ _ I) as Hns. split.
  - intros i p Hp Ha. destruct (nc_home _ _ _ Hns i (pnode p) (namespace_pids p)) as (_ & j & ? & ?); [|by exists j].
    rewrite list_lookup_fmap, (procs_core k i p Hp). cbn. unfold vc. cbn. by rewrite Ha.
  - intros j x Hj Hx. rewrite members_census, <- (nc_census _ _ _ Hns j x Hj Hx). split; [done|].
    split; [by apply (vi_populated _ _ _ _ _ I j)|]. exact (nc_forest _ _ _ Hns j x Hj Hx).
Qed.

(** C12: in every state the kernel reaches, a process has in each of its
    namespaces an id that was given out there, and two living processes of a
    namespace have different ids in it. *)
Theorem namespace_ids k i1 i2 p1 p2 j x : reachable k →
  procs k !! i1 = Some p1 → procs k !! i2 = Some p2 → member k j p1 = true → member k j p2 = true → nodes k !! j = Some x →
  (∃ v, namespace_pids p1 !! Z.to_nat (depth x) = Some v ∧ 0 < v < last_pid x) ∧
  (namespace_pids p1 !! Z.to_nat (depth x) = namespace_pids p2 !! Z.to_nat (depth x) → i1 = i2).
Proof.
  intros I%reachable_kinv H1 H2 M1 M2 Hx. pose proof (vi_ns _ _ _ _ _ I) as Hns.
  destruct (member_view k i1 j p1 I H1 M1) as (n1 & V1 & C1 & _). destruct (member_view k i2 j p2 I H2 M2) as (n2 & V2 & C2 & _).
  split; [by apply (nc_ids _ _ _ Hns i1 n1 _ j)|]. by apply (nc_uniq _ _ _ Hns i1 i2 n1 n2 _ _ j x).
Qed.

(** C22: in every state the kernel reaches, slots in use have distinct pids below
    [nextpid], the first process is alive, and the parent of every other process,
    zombies included, is alive. *)
Theorem pids_and_parents k : reachable k →
  (∀ i p, procs k !! i = Some p → state p ≠ UNUSED → 0 < pid p < nextpid k) ∧
  (∀ i j p q, procs k !! i = Some p → procs k !! j = Some q → state p ≠ UNUSED → state q ≠ UNUSED → pid p = pid q → i = j) ∧
  (∃ i p, initproc k = Some i ∧ procs k !! i = Some p ∧ alive (state p) = true) ∧
  (∀ i p, procs k !! i = Some p → state p ≠ UNUSED → initproc k ≠ Some i →
     ∃ q r, parent p = Some q ∧ procs k !! q = Some r ∧ alive (state r) = true).
Proof.
  intros I%reachable_kinv. split_and!.
  - intros i p Hp. by apply (vi_pid _ _ _ _ _ I i (core_of p)), procs_core.
  - intros i j p q Hp Hq. apply (vi_pid_uniq _ _ _ _ _ I i j (core_of p) (core_of q)); by apply procs_core.
  - destruct (vi_init _ _ _ _ _ I) as (i & c & Hi & (p & Hp & ->)%core_procs & Ha). by exists i, p.
  - intros i p Hp Hs Hi. destruct (vi_parent _ _ _ _ _ I i (core_of p) (procs_core k i p Hp) Hs Hi) as (q & d & Hq & (r & Hr & ->)%core_procs & Ha).
    by exists q, r.
Qed.

(** A namespace after [exit]: in use exactly if it is the root or not empty. *)
Lemma exit_used k me p status k' j x : kinv k → procs k !! me = Some p → state p = RUNNING →
  exit fileclose iput begin_op end_op me status k = Ok (tt, k') → used k !! j = Some true → nodes k !! j = Some x →
  used k' !! j = Some (bool_decide (depth x = 0) || (0 <? members k' j)).
Proof.
  intros I Hp Hs H Hju Hx. assert (running k me) as Hrun by (exists (core_of p); split; [by apply procs_core|done]).
  pose proof (exit_kinv _ _ _ _ _ _ _ _ _ I Hrun H) as I'. pose proof (procs_core k me p Hp) as Hc.
  destruct (running_node k me I Hrun) as (c & n & y & Hc' & _ & Hn & Hj & Hy & _). rewrite Hc in Hc'. injection Hc' as <-.
  destruct (exit_eff _ _ _ _ me status k tt k' (core_of p) n y I Hc Hs Hn Hj Hy H) as (Hi0 & U & N & P & I0 & L & HC).
  set (N1 := upd_nodes (chain (nodes k) n) leave1 (nodes k)) in *.
  assert (members k' j = census N1 (<[me := None]> (map vc (cores k))) j) as Hm.
  { rewrite members_census, (departed_view (cores k) (cores k') (nodes k) (initproc k) me n (core_of p) y Hc L HC), N.
    case_bool_decide; [by apply upd_census|done]. }
  assert (∃ x1, N1 !! j = Some x1 ∧ depth x1 = depth x) as (x1 & Hx1 & Hd1).
  { unfold N1. rewrite upd_lookup, Hx. cbn. eexists. split; [done|]. by destruct (bool_decide (j ∈ chain (nodes k) n)). }
  pose proof (me_view (cores k) me n (core_of p) Hc Hs Hn) as Hv.
  assert (length (map vc (cores k)) ≤ 64)%nat as H64 by (rewrite (map_vc_length k I); lia).
  pose proof (ns_leave _ _ _ me n _ (vi_ns _ _ _ _ _ I) H64 Hv) as J. fold N1 in J.
  pose proof (populated_exit _ _ _ me n _ (vi_ns _ _ _ _ _ I) H64 (vi_populated _ _ _ _ _ I) Hv) as Hpop. cbv zeta in Hpop. fold N1 in Hpop.
  rewrite <- Hd1, Hm, <- (nc_census _ _ _ J j x1 Hju Hx1), U.
  destruct (cleaned N1 (chain (nodes k) n) (used k) !! j) as [[|]|] eqn:Ek.
  - f_equal. symmetry. apply orb_true_iff. destruct (Hpop j x1 Ek Hx1) as [Hpos|Hd0].
    + right. by apply Z.ltb_lt.
    + left. by apply bool_decide_eq_true.
  - destruct (cleaned_freed N1 (chain (nodes k) n) (used k) j x1 Hju Hx1) as [Hk|[Hz Hdz]]; [congruence|].
    by rewrite bool_decide_false, Hz.
  - apply lookup_ge_None in Ek. rewrite cleaned_length in Ek. apply lookup_lt_Some in Hju. lia.
Qed.

(** C20: [exit] makes the caller a zombie; its children get as parent the init
    process of the closest namespace that still has one, which is alive; and a
    namespace stays in use exactly if it is the root or someone lives in it. *)
Theorem exit_correct k me p status k' : reachable k → procs k !! me = Some p → state p = RUNNING →
  exit fileclose iput begin_op end_op me status k = Ok (tt, k') →
  (∃ p', procs k' !! me = Some p' ∧ state p' = ZOMBIE) ∧
  (∀ i q, procs k !! i = Some q → parent q = Some me → ∃ q' a r, procs k' !! i = Some q' ∧ parent q' = Some a ∧
     procs k' !! a = Some r ∧ alive (state r) = true ∧
     ∃ n, pnode p = Some n ∧ closest_init (nodes k') (chain (nodes k) n) (initproc k) = Some a) ∧
  (∀ j x, used k !! j = Some true → nodes k !! j = Some x →
     used k' !! j = Some (bool_decide (depth x = 0) || (0 <? members k' j))).
Proof.
  intros HR Hp Hs H. pose proof (reachable_kinv k HR) as I. pose proof (procs_core k me p Hp) as Hc.
  assert (running k me) as Hrun by by exists (core_of p).
  destruct (running_node k me I Hrun) as (c & n & y & Hc' & _ & Hn & Hj & Hy & _). rewrite Hc in Hc'. injection Hc' as <-.
  destruct (exit_eff _ _ _ _ me status k tt k' (core_of p) n y I Hc Hs Hn Hj Hy H) as (Hi0 & U & N & P & I0 & L & HC).
  split_and!; [| |intros j x; by apply (exit_used k me p status)].
  - destruct (HC me _ Hc) as (d' & (p' & Hp' & ->)%core_procs & z & E & Hz). exists p'. split; [done|].
    rewrite bool_decide_true in Hz by done. subst z. by apply (f_equal c_state) in E.
  - intros i q Hq Hpar. destruct (HC i _ (procs_core k i q Hq)) as (d' & (q' & Hq' & ->)%core_procs & z & E & _).
    destruct (adopter_alive (cores k) (cores k') _ _ _ _ me n (core_of p) y I Hc Hs Hn Hy Hi0 L HC) as (a & e & Ha & (r & Hr & ->)%core_procs & Hal).
    exists q', a, r. split_and!; try done.
    + apply (f_equal c_parent) in E. cbn in E. rewrite E, bool_decide_true by done. done.
    + exists n. split; [done|]. by rewrite N.
Qed.

(** C30: [is_heir] returns, with fuel for eight turns or more, and says whether
    the namespace [o] is that of the living process [p] or above it. *)
Theorem is_heir_correct k i p o fuel : reachable k → procs k !! i = Some p → alive (state p) = true → (8 ≤ fuel)%nat →
  is_heir_loop fuel (pnode p) (Some o) k = Ok (b2z (member k o p), k).
Proof.
  intros I%reachable_kinv Hp Ha Hf. pose proof (vi_ns _ _ _ _ _ I) as Hns.
  destruct (nc_home _ _ _ Hns i (pnode p) (namespace_pids p)) as (_ & j & Hn & Hj).
  { rewrite list_lookup_fmap, (procs_core k i p Hp). cbn. unfold vc. cbn. by rewrite Ha. }
  destruct (used_node _ _ (nc_len _ _ _ Hns) j Hj) as [x Hx]. destruct (nc_forest _ _ _ Hns j x Hj Hx) as [Hd _].
  unfold member. rewrite Ha, Hn. cbn [andb].
  apply (is_heir_loop_ok k (nc_forest _ _ _ Hns) (nc_len _ _ _ Hns) (Z.to_nat (depth x)) fuel j x); [lia|done..].
Qed.
End props.
End ProcProps.
