(* ===== verification/ProcCalls.v ===== *)
(** * Exact results of [wakeup] and [kill], and of the [ps_*] calls on processes
    they should not be asked about *)

From S2P Require Import Prelude PageAlloc Vm Proc Ps Namespaces ProcLogic ProcEffects ProcInv ProcBoot ProcProps.
Import PageAlloc Proc Ps Namespaces ProcLogic ProcEffects ProcInv ProcBoot ProcProps.

Module ProcCalls.
Section calls.
Context {S F : Type} `{PA : PageAllocator S}.
#[local] Abbreviation kst := (Proc.kst S F).

Definition unlocked (k : kst) : Prop := ∀ i p, procs k !! i = Some p → lock p = false.

Lemma proc_locked p : lock p = true → set_lock true p = p.
Proof. intros <-. by destruct p. Qed.

Lemma lock_acquire_ok (k : kst) i p : procs k !! i = Some p → lock p = false →
  acquire i k = Ok (tt, set_noff (noff k + 1) (set_procs (<[i := set_lock true p]> (procs k)) k)).
Proof.
  intros Hp Hl. unfold acquire. rewrite (bind_Ok (get_proc i) _ k p k) by (unfold get_proc; by rewrite Hp). rewrite Hl.
  rewrite (bind_Ok (mod_proc i _) _ k tt (set_procs (<[i := set_lock true p]> (procs k)) k)) by (unfold mod_proc; by rewrite Hp). done.
Qed.
Lemma lock_release_ok (k : kst) i p : procs k !! i = Some p → lock p = true →
  release i k = Ok (tt, set_noff (noff k - 1) (set_procs (<[i := set_lock false p]> (procs k)) k)).
Proof.
  intros Hp Hl. unfold release. rewrite (bind_Ok (get_proc i) _ k p k) by (unfold get_proc; by rewrite Hp). rewrite Hl.
  rewrite (bind_Ok (mod_proc i _) _ k tt (set_procs (<[i := set_lock false p]> (procs k)) k)) by (unfold mod_proc; by rewrite Hp). done.
Qed.
Lemma get_proc_ok (k : kst) i p : procs k !! i = Some p → get_proc i k = Ok (p, k).
Proof. intros H. unfold get_proc. by rewrite H. Qed.
Lemma mod_proc_ok (k : kst) i f p : procs k !! i = Some p → mod_proc i f k = Ok (tt, set_procs (<[i := f p]> (procs k)) k).
Proof. intros H. unfold mod_proc. by rewrite H. Qed.

(** The state with the lock of [i] held, and the state after the release. *)
Definition holding (i : nat) (p : proc) (k : kst) : kst := set_noff (noff k + 1) (set_procs (<[i := p]> (procs k)) k).
Lemma release_holding (k : kst) i p q : procs k !! i = Some q → lock p = true →
  release i (holding i p k) = Ok (tt, set_procs (<[i := set_lock false p]> (procs k)) k).
Proof.
  intros Hq Hl. assert (i < length (procs k))%nat as Hlt by by eapply lookup_lt_Some.
  rewrite (lock_release_ok _ i p); [|cbn; by rewrite list_lookup_insert_eq|done].
  unfold holding, set_noff, set_procs. cbn. rewrite list_insert_insert_eq. do 3 f_equal. lia.
Qed.
Lemma set_procs_id (k : kst) : set_procs (procs k) k = k.
Proof. by destruct k. Qed.
Lemma unlock_id p : lock p = false → set_lock false (set_lock true p) = p.
Proof. intros <-. by destruct p. Qed.
Lemma release_unchanged (k : kst) i p : procs k !! i = Some p → lock p = false →
  release i (holding i (set_lock true p) k) = Ok (tt, k).
Proof. intros Hp Hl. rewrite (release_holding k i _ p) by done. by rewrite unlock_id, list_insert_id, set_procs_id. Qed.
Lemma mod_holding (k : kst) i p f q : procs k !! i = Some q → mod_proc i f (holding i p k) = Ok (tt, holding i (f p) k).
Proof.
  intros Hq. assert (i < length (procs k))%nat as Hlt by by eapply lookup_lt_Some.
  rewrite (mod_proc_ok _ i f p); [|cbn; by rewrite list_lookup_insert_eq].
  unfold holding, set_noff, set_procs. cbn. by rewrite list_insert_insert_eq.
Qed.
Lemma get_holding (k : kst) i p q : procs k !! i = Some q → get_proc i (holding i p k) = Ok (p, holding i p k).
Proof. intros Hq. apply get_proc_ok. cbn. rewrite list_lookup_insert_eq; [done|]. by eapply lookup_lt_Some. Qed.

(** ** wakeup *)

(** The process in slot [i] after [wakeup] by [me] on [ch]. *)
Definition woken (me : option nat) (ch : Z) (i : nat) (p : proc) : proc :=
  if bool_decide (me ≠ Some i ∧ state p = SLEEPING ∧ chan p = ch) then set_state RUNNABLE p else p.
Definition woken_from (lo n : nat) (me : option nat) (ch : Z) (i : nat) (p : proc) : proc :=
  if bool_decide (lo ≤ i < lo + n)%nat then woken me ch i p else p.

Lemma wake_turn (k : kst) i p me ch : procs k !! i = Some p → (me ≠ Some i → lock p = false) →
  (if bool_decide (me = Some i) then skip
   else acquire i;; p ← get_proc i;
        (if bool_decide (state p = SLEEPING) && (chan p =? ch) then mod_proc i (set_state RUNNABLE) else skip);; release i) k =
  Ok (tt, set_procs (<[i := woken me ch i p]> (procs k)) k).
Proof.
  intros Hp Hl. unfold woken. case_bool_decide as Hme.
  - rewrite bool_decide_false by naive_solver. rewrite list_insert_id by done. by rewrite set_procs_id.
  - specialize (Hl Hme). rewrite (bind_Ok _ _ _ _ _ (lock_acquire_ok k i p Hp Hl)).
    change (set_noff _ (set_procs (<[i := ?q]> _) k)) with (holding i q k). rewrite (bind_Ok _ _ _ _ _ (get_holding k i _ p Hp)). cbn [state chan set_lock].
    destruct (decide (state p = SLEEPING ∧ chan p = ch)) as [[Hs Hch]|Hno].
    + rewrite !bool_decide_true by done. rewrite Hch, Z.eqb_refl. cbn [andb]. rewrite (bind_Ok _ _ _ _ _ (mod_holding k i _ _ p Hp)).
      rewrite (release_holding k i _ p) by done. do 4 f_equal. unfold set_lock, set_state. cbn. destruct p. cbn in *. by subst.
    + rewrite (bool_decide_false (_ ∧ _)) by naive_solver. rewrite list_insert_id, set_procs_id by done.
      assert (bool_decide (state p = SLEEPING) && (chan p =? ch) = false) as ->.
      { case_bool_decide; [|done]. apply Z.eqb_neq. naive_solver. }
      prog_run. by apply release_unchanged.
Qed.

Lemma wakeup_loop_ok me ch n : ∀ i (k : kst), (i + n = length (procs k))%nat →
  (∀ j p, procs k !! j = Some p → me ≠ Some j → lock p = false) →
  wakeup_loop n i me ch k = Ok (tt, set_procs (imap (woken_from i n me ch) (procs k)) k).
Proof.
  induction n as [|n IH]; intros i k Hn Hl; cbn [wakeup_loop].
  - unfold skip, mret, prog_ret. do 2 f_equal. rewrite <- (set_procs_id k) at 1. f_equal. apply list_eq. intros j.
    rewrite list_lookup_imap. destruct (procs k !! j) as [p|] eqn:E; [|done]. cbn. unfold woken_from.
    rewrite bool_decide_false by lia. done.
  - destruct (lookup_lt_is_Some_2 (procs k) i) as [p Hp]; [lia|]. rewrite (bind_Ok _ _ _ _ _ (wake_turn k i p me ch Hp (Hl i p Hp))).
    rewrite IH.
    + do 2 f_equal. unfold set_procs. cbn. f_equal. apply list_eq. intros j. rewrite !list_lookup_imap.
      destruct (decide (j = i)) as [->|Hne].
      * rewrite list_lookup_insert_eq by (by eapply lookup_lt_Some). rewrite Hp. cbn. unfold woken_from.
        rewrite bool_decide_false, bool_decide_true by lia. done.
      * rewrite list_lookup_insert_ne by done. destruct (procs k !! j); [|done]. cbn. unfold woken_from.
        by rewrite (bool_decide_ext (i + 1 ≤ j < i + 1 + n)%nat (i ≤ j < i + Datatypes.S n)%nat) by lia.
    + cbn. rewrite length_insert. lia.
    + intros j q [(<- & <- & _)|(_ & Hq)]%list_lookup_insert_Some Hme; [|by apply (Hl j)].
      unfold woken. case_bool_decide; by apply (Hl i p).
Qed.

(** [wakeup] returns when nobody else holds a process lock, and makes
    runnable exactly the other processes that sleep on the channel. *)
Theorem wakeup_correct me ch (k : kst) : length (procs k) = Z.to_nat NPROC →
  (∀ j p, procs k !! j = Some p → me ≠ Some j → lock p = false) →
  wakeup me ch k = Ok (tt, set_procs (imap (woken me ch) (procs k)) k).
Proof.
  intros Hn Hl. unfold wakeup. rewrite wakeup_loop_ok by (done || lia). do 3 f_equal. apply list_eq. intros j. rewrite !list_lookup_imap.
  destruct (procs k !! j) as [p|] eqn:E; [|done]. cbn. unfold woken_from. rewrite bool_decide_true; [done|]. apply lookup_lt_Some in E. lia.
Qed.

(** ** kill *)

Definition killed_proc (p : proc) : proc :=
  let q := set_killed 1 p in if bool_decide (state p = SLEEPING) then set_state RUNNABLE q else q.

Lemma kill_loop_ok x n : ∀ i (k : kst), (i + n = length (procs k))%nat → unlocked k →
  kill_loop n i x k =
  match list_find (λ p, pid p = x) (drop i (procs k)) with
  | Some (j, p) => Ok (0, set_procs (<[(i + j)%nat := killed_proc p]> (procs k)) k)
  | None => Ok (-1, k)
  end.
Proof.
  induction n as [|n IH]; intros i k Hn Hl; cbn [kill_loop].
  - by rewrite drop_ge by lia.
  - destruct (lookup_lt_is_Some_2 (procs k) i) as [p Hp]; [lia|]. rewrite (drop_S _ p i Hp). cbn [list_find].
    rewrite (bind_Ok _ _ _ _ _ (lock_acquire_ok k i p Hp (Hl i p Hp))).
    change (set_noff _ (set_procs (<[i := ?q]> _) k)) with (holding i q k). rewrite (bind_Ok _ _ _ _ _ (get_holding k i _ p Hp)).
    cbn [pid state set_lock]. destruct (decide (pid p = x)) as [Hx|Hx].
    + rewrite (proj2 (Z.eqb_eq (pid p) x) Hx). rewrite (bind_Ok _ _ _ _ _ (mod_holding k i _ _ p Hp)). unfold killed_proc.
      replace (i + 0)%nat with i by lia. case_bool_decide.
      * rewrite (bind_Ok _ _ _ _ _ (mod_holding k i _ _ p Hp)), (bind_Ok _ _ _ _ _ (release_holding k i (set_state RUNNABLE (set_killed 1 (set_lock true p))) p Hp eq_refl)).
        unfold mret, prog_ret. do 4 f_equal. specialize (Hl i p Hp). destruct p. cbn in *. by subst.
      * prog_run. rewrite (bind_Ok _ _ _ _ _ (release_holding k i (set_killed 1 (set_lock true p)) p Hp eq_refl)).
        unfold mret, prog_ret. do 4 f_equal. specialize (Hl i p Hp). destruct p. cbn in *. by subst.
    + rewrite (proj2 (Z.eqb_neq (pid p) x) Hx). rewrite (bind_Ok _ _ _ _ _ (release_unchanged k i p Hp (Hl i p Hp))).
      rewrite IH by (done || lia). replace (i + 1)%nat with (Datatypes.S i) by lia.
      destruct (list_find (λ p, pid p = x) (drop (Datatypes.S i) (procs k))) as [[j q]|]; [|done]. cbn. by replace (i + Datatypes.S j)%nat with (Datatypes.S (i + j)) by lia.
Qed.

(** [kill] marks the first slot with the pid as killed and wakes it when it
    sleeps; without such a slot it returns -1 and changes nothing. *)
Theorem kill_correct x (k : kst) : length (procs k) = Z.to_nat NPROC → unlocked k →
  kill x k =
  match list_find (λ p, pid p = x) (procs k) with
  | Some (i, p) => Ok (0, set_procs (<[i := killed_proc p]> (procs k)) k)
  | None => Ok (-1, k)
  end.
Proof. intros Hn Hl. unfold kill. by rewrite kill_loop_ok by (done || lia). Qed.

(** ** ps_* *)

(** [is_heir] reads the nodes only. *)
Lemma is_heir_nodes (k k' : kst) : nodes k' = nodes k → ∀ fuel a b h,
  is_heir_loop fuel a b k = Ok (h, k) → is_heir_loop fuel a b k' = Ok (h, k').
Proof.
  intros HN fuel. induction fuel as [|fuel IH]; intros a b h H; cbn [is_heir_loop] in *; [done|].
  apply bind_inv in H as (y & k1 & E & H). unfold get_node in E. destruct a as [j|]; [|done].
  destruct (nodes k !! j) as [z|] eqn:Ej; [|done]. injection E as -> <-.
  rewrite (bind_Ok _ _ k' y k') by (unfold get_node; by rewrite HN, Ej).
  destruct (0 <? depth y); [|by injection H as <-]. case_bool_decide; [by injection H as <-|by apply IH].
Qed.

(** The test [find_proc] makes of the slot [p] in the namespace [n] of depth [d]:
    the id there is [x] and the node of the slot is [n] or below it.  The state
    of the slot is not looked at. *)
Definition answers (k : kst) (x : Z) (n : nat) (d : Z) (p : proc) : Prop :=
  namespace_pids p !! Z.to_nat d = Some x ∧ is_heir (pnode p) (Some n) k = Ok (1, k).
Definition passes (k : kst) (x : Z) (n : nat) (d : Z) (p : proc) : Prop :=
  ∃ v, namespace_pids p !! Z.to_nat d = Some v ∧ (v ≠ x ∨ is_heir (pnode p) (Some n) k = Ok (0, k)).

(** [find_proc] returns the first slot that answers, with its lock held. *)
Lemma find_proc_first (k : kst) x n y i q : nodes k !! n = Some y → 0 ≤ depth y → procs k !! i = Some q → lock q = false →
  answers k x n (depth y) q → (i < Z.to_nat NPROC)%nat →
  (∀ j r, (j < i)%nat → procs k !! j = Some r → lock r = false ∧ passes k x n (depth y) r) →
  find_proc x (Some n) k = Ok (Some i, holding i (set_lock true q) k).
Proof.
  intros Hy Hd Hq Hl [Hid Hh] Hi Hbefore. unfold find_proc.
  enough (∀ m j, (j + m = Z.to_nat NPROC)%nat → (j ≤ i)%nat → find_proc_loop m j x (Some n) k = Ok (Some i, holding i (set_lock true q) k)) as H.
  { apply H; lia. }
  induction m as [|m IH]; intros j Hm Hj; [lia|]. cbn [find_proc_loop].
  destruct (lookup_lt_is_Some_2 (procs k) j) as [r Hr]; [apply lookup_lt_Some in Hq; lia|].
  assert (lock r = false) as Hlr.
  { destruct (decide (j = i)) as [->|]; [congruence|]. apply (Hbefore j r); [lia|done]. }
  rewrite (bind_Ok _ _ _ _ _ (lock_acquire_ok k j r Hr Hlr)).
  change (set_noff _ (set_procs (<[j := ?z]> _) k)) with (holding j z k). rewrite (bind_Ok _ _ _ _ _ (get_holding k j _ r Hr)).
  rewrite (bind_Ok (get_node _) _ _ y (holding j (set_lock true r) k)) by (unfold get_node; cbn; by rewrite Hy).
  assert (∀ h, is_heir (pnode r) (Some n) k = Ok (h, k) → is_heir (pnode r) (Some n) (holding j (set_lock true r) k) = Ok (h, holding j (set_lock true r) k)) as Hih.
  { intros h. by apply is_heir_nodes. }
  unfold nspid. rewrite (proj2 (Z.ltb_ge (depth y) 0)) by lia. cbn [namespace_pids pnode set_lock].
  destruct (decide (j = i)) as [->|Hne].
  - rewrite Hr in Hq. injection Hq as ->. rewrite Hid. rewrite (bind_Ok _ _ _ x _ eq_refl), Z.eqb_refl.
    by rewrite (bind_Ok _ _ _ _ _ (Hih 1 Hh)).
  - destruct (Hbefore j r ltac:(lia) Hr) as (_ & v & Hv & Hvx). rewrite Hv, (bind_Ok _ _ _ v _ eq_refl).
    rewrite (bind_Ok _ _ _ 0 (holding j (set_lock true r) k)).
    + cbn [Z.eqb negb]. rewrite (bind_Ok _ _ _ _ _ (release_unchanged k j r Hr Hlr)). apply IH; lia.
    + destruct (Z.eqb_spec v x) as [->|]; [|done]. destruct Hvx as [|Hvx]; [done|]. by apply Hih.
Qed.

(** C38: a running process that asks [ps_pt0], [ps_pt1] or [ps_pt2] about its own
    id panics the kernel, because the lock that [find_proc] returns with is taken
    again; unless a slot before its own, of a process that is dead, still has
    this id. *)
Theorem ps_pt_self_panics filedup fileclose idup iput begin_op end_op root_inode trampoline initcode (k : kst) me p n y x addr table :
  reachable filedup fileclose idup iput begin_op end_op root_inode trampoline initcode k → unlocked k →
  procs k !! me = Some p → state p = RUNNING → pnode p = Some n → nodes k !! n = Some y →
  namespace_pids p !! Z.to_nat (depth y) = Some x →
  (∀ j r, (j < me)%nat → procs k !! j = Some r → alive (state r) = false → ∃ v, namespace_pids r !! Z.to_nat (depth y) = Some v ∧ v ≠ x) →
  ps_pt0 me x table k = Panic "acquire" ∧ ps_pt1 me x addr table k = Panic "acquire" ∧ ps_pt2 me x addr table k = Panic "acquire".
Proof.
  intros HR Hl Hp Hs Hn Hy Hx Hdead. pose proof (reachable_kinv _ _ _ _ _ _ _ _ _ k HR) as I. pose proof (vi_ns _ _ _ _ _ I) as Hns.
  assert (∀ j r, procs k !! j = Some r → alive (state r) = true → map vc (cores k) !! j = Some (Some (pnode r, namespace_pids r))) as HV.
  { intros j r Hr Ha. rewrite list_lookup_fmap, (procs_core k j r Hr). cbn. unfold vc. cbn. by rewrite Ha. }
  pose proof (HV me p Hp ltac:(by rewrite Hs)) as Hv. destruct (nc_home _ _ _ Hns _ _ _ Hv) as (_ & n' & En & Hu).
  rewrite Hn in En, Hv. injection En as <-. destruct (nc_forest _ _ _ Hns n y Hu Hy) as [Hd _].
  pose proof (chain_self _ _ (nc_forest _ _ _ Hns) (nc_len _ _ _ Hns) n Hu) as Hself.
  pose proof (λ j, is_heir_ok k j n (nc_forest _ _ _ Hns) (nc_len _ _ _ Hns)) as Hheir.
  assert (find_proc x (Some n) k = Ok (Some me, holding me (set_lock true p) k)) as Hf.
  { apply (find_proc_first k x n y me p); [done|lia|done|by apply (Hl me)| | |].
    - split; [done|]. rewrite Hn, Hheir by done. by rewrite bool_decide_true.
    - apply lookup_lt_Some in Hv. rewrite map_vc_length in Hv by done. unfold NPROC. lia.
    - intros j r Hj Hr. split; [by apply (Hl j)|]. destruct (alive (state r)) eqn:Ea.
      + pose proof (HV j r Hr Ea) as Hvr. destruct (nc_home _ _ _ Hns _ _ _ Hvr) as (H8 & jn & Ejn & Huj). rewrite Ejn in Hvr.
        destruct (lookup_lt_is_Some_2 (namespace_pids r) (Z.to_nat (depth y))) as [v Ev]; [lia|]. exists v. split; [done|].
        rewrite Ejn, Hheir by done. case_bool_decide as Hc; [left|by right]. intros ->.
        enough (j = me) by lia. apply (nc_uniq _ _ _ Hns j me jn n (namespace_pids r) (namespace_pids p) n y); try done. congruence.
      + destruct (Hdead j r Hj Hr Ea) as (v & Hv' & Hne). exists v. split; [done|by left]. }
  assert (acquire me (holding me (set_lock true p) k) = Panic "acquire") as Ha.
  { unfold acquire. by rewrite (bind_Ok _ _ _ _ _ (get_holding k me _ p Hp)). }
  unfold ps_pt0, ps_pt1, ps_pt2, ps_pt.
  split_and!; rewrite (bind_Ok _ _ _ _ _ (get_proc_ok k me p Hp)), Hn, (bind_Ok _ _ _ _ _ Hf); by apply bind_Panic.
Qed.

(** [freeproc] empties the slot but for its node and its ids. *)
Definition put (i : nat) (q : proc) (k : kst) : kst := set_procs (<[i := q]> (procs k)) k.
Lemma mod_put {B} (k : kst) i f q (g : unit → prog kst B) : (i < length (procs k))%nat →
  (mod_proc i f ≫= g) (put i q k) = g tt (put i (f q) k).
Proof.
  intros Hi. rewrite (bind_Ok _ _ _ _ _ (mod_proc_ok (put i q k) i f q ltac:(cbn; by rewrite list_lookup_insert_eq))).
  unfold put at 2. cbn. by rewrite list_insert_insert_eq.
Qed.
Lemma on_mem_inv {A} (m : prog (Vm.st S) A) (k k' : kst) a : on_mem m k = Ok (a, k') → ∃ v, k' = set_mem v k.
Proof. unfold on_mem. destruct (m (mem k)) as [[b v]| | |]; [|done..]. intros [= _ <-]. by exists v. Qed.
Lemma when_mem_inv (b : bool) (m : prog (Vm.st S) unit) (k k' : kst) : (if b then on_mem m else skip) k = Ok (tt, k') → ∃ v, k' = set_mem v k.
Proof. destruct b; [by apply on_mem_inv|]. intros [= <-]. exists (mem k). by destruct k. Qed.

Lemma freeproc_slot (k k' : kst) i q : procs k !! i = Some q → freeproc i k = Ok (tt, k') →
  nodes k' = nodes k ∧ ∃ q', procs k' = <[i := q']> (procs k) ∧ pagetable q' = 0 ∧ state q' = UNUSED ∧
    lock q' = lock q ∧ pnode q' = pnode q ∧ namespace_pids q' = namespace_pids q.
Proof.
  intros Hq H. assert (i < length (procs k))%nat as Hi by by eapply lookup_lt_Some.
  unfold freeproc in H. rewrite (bind_Ok _ _ _ _ _ (get_proc_ok k i q Hq)) in H.
  apply bind_inv in H as ([] & k1 & [v1 ->]%when_mem_inv & H).
  rewrite (bind_Ok _ _ _ _ _ (mod_proc_ok (set_mem v1 k) i _ q Hq)) in H.
  apply bind_inv in H as ([] & k2 & [v2 ->]%when_mem_inv & H).
  set (k3 := set_mem v2 (set_mem v1 k)).
  assert (set_mem v2 (set_procs (<[i := set_trapframe 0 q]> (procs (set_mem v1 k))) (set_mem v1 k)) = put i (set_trapframe 0 q) k3) as E by done.
  rewrite E in H. clear E. do 9 rewrite (mod_put k3) in H by done.
  match type of H with mod_proc _ _ (put _ ?z _) = _ => set (q' := z) in H end.
  rewrite (mod_proc_ok (put i q' k3) i _ q' (list_lookup_insert_eq (procs k) i q' Hi)) in H. injection H as <-.
  split; [done|]. eexists. split; [cbn; apply list_insert_insert_eq|]. done.
Qed.

(** C39: [freeproc], with which [wait] gives up a process, keeps the node and the
    ids of the slot, and [find_proc] does not look at its state: asked for the id
    of a process that has been waited for, [find_proc] returns the free slot, if
    no slot before it has that id; [ps_pt0] then reads through the null page table
    of the slot, and the kernel faults. *)
Theorem ps_pt0_freed_faults (k0 k : kst) me p i q n y x table pa m' : procs k0 !! me = Some p → lock p = false → pnode p = Some n →
  nodes k0 !! n = Some y → 0 ≤ depth y → i ≠ me → (i < Z.to_nat NPROC)%nat → procs k0 !! i = Some q → lock q = true →
  namespace_pids q !! Z.to_nat (depth y) = Some x → is_heir (pnode q) (Some n) k0 = Ok (1, k0) →
  (∀ j r, (j < i)%nat → procs k0 !! j = Some r → lock r = false ∧ ∃ v, namespace_pids r !! Z.to_nat (depth y) = Some v ∧ v ≠ x) →
  (freeproc i;; release i) k0 = Ok (tt, k) →
  Vm.walkaddr (pagetable p) (Vm.PGROUNDDOWN table) (mem k) = Ok (pa, m') → pa ≠ 0 →
  (∃ q', procs k !! i = Some q' ∧ state q' = UNUSED ∧ find_proc x (Some n) k = Ok (Some i, holding i (set_lock true q') k)) ∧
  ps_pt0 me x table k = Fault.
Proof.
  intros Hp Hl Hn Hy Hd Hne Hi Hq Hlq Hx Hh Hbefore Hfree Hw Hpa. apply bind_inv in Hfree as ([] & k1 & H1 & H2).
  destruct (freeproc_slot k0 k1 i q Hq H1) as (HN & q1 & Hq1 & Hpt & Hst & Hlk & Hnd & Hids).
  assert (procs k1 !! i = Some q1) as Hi1 by (rewrite Hq1; apply list_lookup_insert_eq; by eapply lookup_lt_Some).
  rewrite (lock_release_ok k1 i q1 Hi1 ltac:(congruence)) in H2. injection H2 as <-. set (k := set_noff _ _) in *.
  assert (procs k = <[i := set_lock false q1]> (procs k0)) as Hpk by (cbn; by rewrite Hq1, list_insert_insert_eq).
  assert (procs k !! i = Some (set_lock false q1)) as Hik by (rewrite Hpk; apply list_lookup_insert_eq; by eapply lookup_lt_Some).
  assert (procs k !! me = Some p) as Hmk by (by rewrite Hpk, list_lookup_insert_ne).
  assert (nodes k = nodes k0) as HNk by done.
  assert (find_proc x (Some n) k = Ok (Some i, holding i (set_lock true (set_lock false q1)) k)) as Hf.
  { apply (find_proc_first k x n y i (set_lock false q1)); [by rewrite HNk|done|done|done| |done|].
    - split; [cbn; congruence|]. cbn [pnode set_lock]. rewrite Hnd. by eapply is_heir_nodes.
    - intros j r Hj Hr. rewrite Hpk, list_lookup_insert_ne in Hr by lia. destruct (Hbefore j r Hj Hr) as (? & v & ? & ?).
      split; [done|]. exists v. by split; [|left]. }
  split; [by exists (set_lock false q1)|]. unfold ps_pt0.
  rewrite (bind_Ok _ _ _ _ _ (get_proc_ok k me p Hmk)), Hn, (bind_Ok _ _ _ _ _ Hf). set (k2 := holding i _ k).
  assert (procs k2 !! me = Some p) as Hm2 by (cbn; by rewrite list_lookup_insert_ne).
  rewrite (bind_Ok _ _ _ _ _ (lock_acquire_ok k2 me p Hm2 Hl)).
  change (set_noff _ (set_procs (<[me := ?z]> _) k2)) with (holding me z k2).
  rewrite (bind_Ok _ _ _ _ _ (get_proc_ok (holding me (set_lock true p) k2) i (set_lock true (set_lock false q1))
    ltac:(cbn; rewrite list_lookup_insert_ne by done; apply list_lookup_insert_eq; by eapply lookup_lt_Some))).
  apply bind_Fault. unfold copyout_table. cbn [pagetable set_lock]. rewrite Hpt. cbn [Z.eqb].
  rewrite (bind_Ok (on_mem _) _ _ pa (set_mem m' (holding me (set_lock true p) k2))).
  - by rewrite (proj2 (Z.eqb_neq pa 0) Hpa).
  - unfold on_mem. cbn. cbn in Hw. by rewrite Hw.
Qed.
End calls.
End ProcCalls.
