(* ===== verification/ProcRun.v ===== *)
(** * A run of the kernel

    The process table of a machine with a list of free pages and a file system
    that does nothing, from [userinit] through [clone], [fork], [exit] and
    [wait]. *)

From S2P Require Import Prelude PageAlloc Vm VmInst Proc Ps Namespaces ProcLogic ProcEffects ProcInv ProcBoot ProcProps ProcCalls.
Import PageAlloc Proc Ps Namespaces ProcLogic ProcEffects ProcInv ProcBoot ProcProps ProcCalls.

Module ProcRun.

#[local] Existing Instance VmInst.pool_pages.
#[local] Abbreviation kst := (Proc.kst (list Z) unit).

Definition info0 : info := mkInfo 0 0 0 0 0 (replicate 16 0) 0 0 0 0.
Definition proc0 : proc := mkProc false UNUSED 0 0 0 0 (replicate 8 0) None None 0 0 0 0 (replicate 16 None) None (replicate 16 0) info0.
Definition node0 : node := mkNode 0 0 None None 0.
Definition k0 : kst :=
  mkK (replicate 64 proc0) (replicate 64 false) (replicate 64 node0) None 1 false false false 0 0 0
      (Vm.mkSt (λ _, 0) (λ _, 0) (map (λ i, VmInst.pg (Z.of_nat i)) (seq 0 100))) tt.

Definition nop (_ : nat) : prog unit unit := skip.
Definition tramp : Z := 2147512320.
Abbreviation boot := (userinit (S := list Z) (F := unit) (mret 0%nat) tramp [19; 0; 0; 0]).
Abbreviation fork' := (fork (S := list Z) (F := unit) nop nop tramp).
Abbreviation clone' := (clone (S := list Z) (F := unit) nop nop tramp).
Abbreviation exit' := (exit (S := list Z) (F := unit) nop nop skip skip).
Abbreviation step' := (kstep nop nop nop nop skip skip tramp).
Abbreviation reachable' := (reachable nop nop nop nop skip skip (mret 0%nat) tramp [19; 0; 0; 0]).

Definition okb {A} (m : prog kst A) (k : kst) : bool := match m k with Ok _ => true | _ => false end.
Definition after {A} (m : prog kst A) (k : kst) : kst := match m k with Ok (_, k') => k' | _ => k end.
Lemma ok_after {A} (m : prog kst A) k : okb m k = true → ∃ a, m k = Ok (a, after m k).
Proof. unfold okb, after. destruct (m k) as [[a k']| | |]; [|done..]. eauto. Qed.
Lemma ok_after_unit (m : prog kst unit) k : okb m k = true → m k = Ok (tt, after m k).
Proof. intros ([] & H)%ok_after. done. Qed.

Definition state_at (k : kst) (i : nat) : option procstate := state <$> procs k !! i.
Lemma running_at k i : state_at k i = Some RUNNING → running k i.
Proof.
  unfold state_at. destruct (procs k !! i) as [p|] eqn:E; [|done]. intros [= Hs]. exists (core_of p). split; [|done].
  unfold cores. by rewrite list_lookup_fmap, E.
Qed.

Lemma reach_boot k : booting k → okb boot k = true → reachable' (after boot k).
Proof. intros H1 H2%ok_after_unit. exists k, (after boot k). split; [exact H1|]. split; [exact H2|]. apply rtc_refl. Qed.
Lemma reach_schedule k i : reachable' k → okb (schedule i) k = true → reachable' (after (schedule i) k).
Proof. intros HR (b & H)%ok_after. eapply reachable_step; [done|]. by eapply step_schedule. Qed.
Lemma reach_release k i : reachable' k → okb (release i) k = true → reachable' (after (release i) k).
Proof. intros HR H%ok_after_unit. eapply reachable_step; [done|]. by eapply step_release. Qed.
Lemma reach_clone k me : reachable' k →
  okb (clone' me) k = true ∧ state_at k me = Some RUNNING ∧ (nextpid k <? 2 ^ 31 - 1) = true → reachable' (after (clone' me) k).
Proof.
  intros HR ((r & H)%ok_after & Hs%running_at & Hn%Z.ltb_lt). eapply reachable_step; [done|]. by eapply step_clone.
Qed.
Lemma reach_fork k me : reachable' k →
  okb (fork' me) k = true ∧ state_at k me = Some RUNNING ∧ (nextpid k <? 2 ^ 31 - 1) = true → reachable' (after (fork' me) k).
Proof.
  intros HR ((r & H)%ok_after & Hs%running_at & Hn%Z.ltb_lt). eapply reachable_step; [done|]. by eapply step_fork.
Qed.
Lemma reach_yield k me : reachable' k → okb (yield me) k = true ∧ state_at k me = Some RUNNING → reachable' (after (yield me) k).
Proof. intros HR (H%ok_after_unit & Hs%running_at). eapply reachable_step; [done|]. by eapply step_yield. Qed.
Lemma reach_exit k me : reachable' k → okb (exit' me 0) k = true ∧ state_at k me = Some RUNNING → reachable' (after (exit' me 0) k).
Proof. intros HR (H%ok_after_unit & Hs%running_at). eapply reachable_step; [done|]. by eapply step_exit. Qed.
Lemma reach_wait k me : reachable' k → okb (wait me 0) k = true ∧ state_at k me = Some RUNNING → reachable' (after (wait me 0) k).
Proof. intros HR ((r & H)%ok_after & Hs%running_at). eapply reachable_step; [done|]. by eapply step_wait. Qed.

(** The first process, a clone of it in a namespace of its own, and a child. *)
Abbreviation k1 := (after boot k0).
Abbreviation k2 := (after (schedule 0) k1).
Abbreviation k3 := (after (release 0) k2).
Abbreviation k4 := (after (clone' 0) k3).
Abbreviation k5 := (after (fork' 0) k4).
(** The clone runs and has a child; it exits. *)
Abbreviation k6 := (after (yield 0) k5).
Abbreviation k7 := (after (schedule 1) k6).
Abbreviation k8 := (after (release 1) k7).
Abbreviation k9 := (after (fork' 1) k8).
Abbreviation k10 := (after (exit' 1 0) k9).

Lemma booting_k0 : booting k0.
Proof.
  split_and!; try reflexivity.
  - intros i p [-> _]%lookup_replicate_1. done.
  - intros i b [-> _]%lookup_replicate_1. done.
Qed.
Lemma reach3 : reachable' k3.
Proof.
  apply reach_release; [apply reach_schedule; [apply reach_boot; [apply booting_k0|]|]|]; vm_compute; reflexivity.
Qed.
Lemma reach5 : reachable' k5.
Proof. apply reach_fork; [apply reach_clone; [apply reach3|]|]; vm_compute; done. Qed.
Lemma reach9 : reachable' k9.
Proof.
  apply reach_fork; [apply reach_release; [apply reach_schedule; [apply reach_yield; [apply reach5|]|]|]|]; vm_compute; done.
Qed.

Definition at_ (k : kst) (i : nat) : proc := default proc0 (procs k !! i).
Definition node_at (k : kst) (j : nat) : node := default node0 (nodes k !! j).
Lemma at_lookup k i : is_Some (procs k !! i) → procs k !! i = Some (at_ k i).
Proof. unfold at_. by intros [p ->]. Qed.
Lemma node_lookup k j : is_Some (nodes k !! j) → nodes k !! j = Some (node_at k j).
Proof. unfold node_at. by intros [x ->]. Qed.
Lemma is_some_b {A} (o : option A) : (match o with Some _ => true | None => false end) = true → is_Some o.
Proof. by destruct o. Qed.
Ltac slot := first [apply at_lookup | apply node_lookup]; apply is_some_b; vm_compute; reflexivity.

(** Three processes are in the root namespace, one of them in the node below. *)
Lemma namespace_accounting_witness : reachable' k5 ∧
  cnt_proc (node_at k5 0) = members k5 0 ∧ members k5 0 = 3 ∧ cnt_proc (node_at k5 1) = members k5 1 ∧ members k5 1 = 1.
Proof.
  split; [exact reach5|].
  destruct (namespace_accounting nop nop nop nop skip skip (mret 0%nat) tramp [19; 0; 0; 0] k5 reach5) as [_ H].
  split_and!; [eapply H|..]; [| |vm_compute; reflexivity|eapply H|vm_compute; reflexivity]; first [slot|vm_compute; reflexivity].
Defined.

(** The clone has id 1 in its own namespace, its child id 2. *)
Lemma namespace_ids_witness : namespace_pids (at_ k9 1) !! 1%nat = Some 1 ∧ namespace_pids (at_ k9 3) !! 1%nat = Some 2 ∧
  (namespace_pids (at_ k9 1) !! Z.to_nat (depth (node_at k9 1)) = namespace_pids (at_ k9 3) !! Z.to_nat (depth (node_at k9 1)) → 1%nat = 3%nat).
Proof.
  split; [vm_compute; reflexivity|]. split; [vm_compute; reflexivity|].
  refine (proj2 (namespace_ids nop nop nop nop skip skip (mret 0%nat) tramp [19; 0; 0; 0] k9 1 3 (at_ k9 1) (at_ k9 3) 1 (node_at k9 1) reach9 _ _ _ _ _));
    first [slot|vm_compute; reflexivity].
Defined.

Lemma pids_and_parents_witness : reachable' k9 ∧ 0 < pid (at_ k9 3) < nextpid k9.
Proof.
  split; [exact reach9|].
  refine (proj1 (pids_and_parents nop nop nop nop skip skip (mret 0%nat) tramp [19; 0; 0; 0] k9 reach9) 3%nat (at_ k9 3) _ _); [slot|].
  vm_compute. done.
Defined.

(** The clone exits: its child is adopted by the first process. *)
Lemma exit_ok9 : exit' 1 0 k9 = Ok (tt, k10).
Proof. apply ok_after_unit. vm_compute. reflexivity. Qed.
Lemma exit_correct_witness : used k10 !! 1%nat = Some (bool_decide (depth (node_at k9 1) = 0) || (0 <? members k10 1)) ∧ members k10 1 = 1 ∧
  parent (at_ k9 3) = Some 1%nat ∧ parent (at_ k10 3) = Some 0%nat.
Proof.
  split; [|vm_compute; done].
  refine (proj2 (proj2 (exit_correct nop nop nop nop skip skip (mret 0%nat) tramp [19; 0; 0; 0] k9 1 (at_ k9 1) 0 k10 reach9 _ _ exit_ok9)) 1%nat (node_at k9 1) _ _);
    first [slot|vm_compute; reflexivity].
Defined.

(** The child of the clone is in the clone's namespace; the first process not. *)
Lemma is_heir_correct_witness : is_heir_loop 8 (pnode (at_ k9 3)) (Some 1%nat) k9 = Ok (b2z (member k9 1 (at_ k9 3)), k9) ∧
  member k9 1 (at_ k9 3) = true ∧ member k9 1 (at_ k9 0) = false.
Proof.
  split; [|vm_compute; done].
  apply (is_heir_correct nop nop nop nop skip skip (mret 0%nat) tramp [19; 0; 0; 0] k9 3 (at_ k9 3) 1 8 reach9); [slot|vm_compute; reflexivity|lia].
Defined.

(** ** Locks, [wakeup] and [kill] *)

Definition all_unlocked (k : kst) : bool := forallb (λ p, negb (lock p)) (procs k).
Lemma all_unlocked_ok k : all_unlocked k = true → unlocked k.
Proof.
  intros H i p Hp. unfold all_unlocked in H. rewrite forallb_forall in H.
  apply negb_true_iff, H. apply list_elem_of_In. by eapply list_elem_of_lookup_2.
Qed.

(** The first process waits for its children and sleeps on its own address. *)
Abbreviation k11 := (after (wait 0 0) k5).
Lemma wakeup_correct_witness : state_at k11 0 = Some SLEEPING ∧
  wakeup None (proc_chan 0) k11 = Ok (tt, set_procs (imap (woken None (proc_chan 0)) (procs k11)) k11) ∧
  state_at (after (wakeup None (proc_chan 0)) k11) 0 = Some RUNNABLE.
Proof.
  split; [vm_compute; reflexivity|]. split; [|vm_compute; reflexivity].
  apply (wakeup_correct None (proc_chan 0) k11); [vm_compute; reflexivity|]. intros j p Hp _. revert j p Hp.
  apply (all_unlocked_ok k11). vm_compute. reflexivity.
Defined.

(** [kill] wakes it too.  [kill(0)] finds a slot that is not in use and marks it:
    the next process in that slot starts killed. *)
Lemma kill_correct_witness :
  kill 0 k5 = match list_find (λ p, pid p = 0) (procs k5) with
              | Some (i, p) => Ok (0, set_procs (<[i := killed_proc p]> (procs k5)) k5)
              | None => Ok (-1, k5)
              end ∧
  state_at k5 3 = Some UNUSED ∧ killed (at_ (after (kill 0) k5) 3) = 1 ∧
  killed (at_ (after (fork' 0) (after (kill 0) k5)) 3) = 1 ∧ state_at (after (fork' 0) (after (kill 0) k5)) 3 = Some RUNNABLE.
Proof.
  split; [|vm_compute; done].
  apply (kill_correct 0 k5); [vm_compute; reflexivity|]. apply all_unlocked_ok. vm_compute. reflexivity.
Defined.

(** ** The [ps_*] calls *)

Lemma ps_pt_self_panics_witness : ps_pt0 0 1 0 k5 = Panic "acquire" ∧ ps_pt1 0 1 0 0 k5 = Panic "acquire" ∧ ps_pt2 0 1 0 0 k5 = Panic "acquire".
Proof.
  apply (ps_pt_self_panics nop nop nop nop skip skip (mret 0%nat) tramp [19; 0; 0; 0] k5 0 (at_ k5 0) 0 (node_at k5 0) 1 0 0 reach5).
  - apply all_unlocked_ok. vm_compute. reflexivity.
  - slot.
  - vm_compute. reflexivity.
  - vm_compute. reflexivity.
  - slot.
  - vm_compute. reflexivity.
  - intros j r Hj. lia.
Defined.

(** The first process reaps a child, whose id was 2, and asks for its table. *)
Abbreviation j4 := (after (fork' 0) k3).
Abbreviation j5 := (after (yield 0) j4).
Abbreviation j6 := (after (release 1) (after (schedule 1) j5)).
Abbreviation j7 := (after (exit' 1 0) j6).
Abbreviation j8 := (after (release 0) (after (sched_return 0) (after (schedule 0) j7))).
(** In [wait], the lock of the child is held when it is freed. *)
Abbreviation j9 := (after (acquire 1) j8).
Abbreviation j10 := (after (freeproc 1;; release 1) j9).

Definition walked (pt va : Z) (m : Vm.st (list Z)) : Z * Vm.st (list Z) :=
  match Vm.walkaddr pt va m with Ok r => r | _ => (0, m) end.
Lemma walked_ok pt va m : fst (walked pt va m) ≠ 0 → Vm.walkaddr pt va m = Ok (fst (walked pt va m), snd (walked pt va m)).
Proof. unfold walked. by destruct (Vm.walkaddr pt va m) as [[pa m']| | |]. Qed.
Definition heir_of (a b : option nat) (k : kst) : option Z := match is_heir a b k with Ok (h, _) => Some h | _ => None end.
Lemma heir_of_ok a b k h : heir_of a b k = Some h → is_heir a b k = Ok (h, k).
Proof.
  unfold heir_of, is_heir. generalize (Z.to_nat NNMND + 1)%nat. intros f. revert a. induction f as [|f IH]; intros a; cbn [is_heir_loop]; [done|].
  destruct a as [j|]; [|done]. unfold mbind, prog_bind. cbn. destruct (nodes k !! j) as [y|]; [|done].
  destruct (0 <? depth y); [|by intros [= <-]]. case_bool_decide; [by intros [= <-]|apply IH].
Qed.
Lemma ps_pt0_freed_faults_witness : state_at j9 1 = Some ZOMBIE ∧ ps_pt0 0 2 0 j10 = Fault.
Proof.
  split; [vm_compute; reflexivity|].
  set (w := walked (pagetable (at_ j9 0)) (Vm.PGROUNDDOWN 0) (mem j10)).
  assert (fst w ≠ 0) as Hw by (vm_compute; discriminate).
  refine (proj2 (ps_pt0_freed_faults j9 j10 0 (at_ j9 0) 1 (at_ j9 1) 0 (node_at j9 0) 2 0 (fst w) (snd w) _ _ _ _ _ _ _ _ _ _ _ _ _ (walked_ok _ _ _ Hw) Hw)).
  - slot.
  - vm_compute. reflexivity.
  - vm_compute. reflexivity.
  - slot.
  - vm_compute. discriminate.
  - done.
  - vm_compute. lia.
  - slot.
  - vm_compute. reflexivity.
  - vm_compute. reflexivity.
  - apply heir_of_ok. vm_compute. reflexivity.
  - intros j r Hj Hr. assert (j = 0%nat) as -> by lia. assert (r = at_ j9 0) as -> by (unfold at_; by rewrite Hr).
    split; [vm_compute; reflexivity|]. exists 1. split; [vm_compute; reflexivity|done].
  - apply ok_after_unit. vm_compute. reflexivity.
Defined.
End ProcRun.
